(* ===== verification/_CoqProject ===== *)
-Q . S2P
Prelude.v
Spin.v
Sched.v
Scheduler.v
Mem.v
Str.v
Dll.v
Buddy.v
Bio.v
Log.v
Tx.v
Fs.v
Inode.v
Balloc.v
Dinode.v
Content.v
Writei.v
Dir.v
Path.v
Vm.v
Pgtab.v
Uvm.v
Freevm.v
Kernel.v
Console.v
Tty.v
Pipe.v
File.v
Filewrite.v
Proc.v
Reap.v
Life.v
Fork.v
Exec.v
Syscall.v
Args.v
Dev.v
Vic.v
Kalloc.v
Boot.v
Ulib.v
Umalloc.v
User.v
Cmds.v
Grep.v
Sh.v
Mkfs.v
