(* ===== verification/Prelude.v ===== *)
(** * Verification of xv6 for ARMv8

    The program is a small Unix kernel for one CPU (src/xv6-armv8), the programs
    that run on it (usr/) and the tool that builds its disk image (tools/mkfs.c).
    This library translates the C code into functions of Rocq and proves what
    makes each part correct.  All file names below are relative to
    src/xv6-armv8.

    ** How the code is translated

    - An operation is a function [M S A] of the state it works on.  Its outcomes
      ([res], this file) are [Ok] with a value, [Panic] (a call of [panic]), [Undef]
      (what C leaves undefined: an index outside an array, a null pointer),
      [Swtch] (the process gives the CPU to the scheduler; the continuation is
      what it does when it runs again) and [Fuel] (below).  The state after the
      outcome is part of it, also on errors.
    - A component has a record for its variables; a component that uses another
      contains its record, and [zoom] runs the operations of the part through a
      [Lens].  The kernel's whole state is [kst] (Kernel).
    - Integers are [Z], with [u8], [u16], [u32], [u64], [s32], [s64] wherever the
      code converts or can wrap around.  Memory that the code addresses by bytes
      is a map from addresses to bytes (Mem); arrays are lists indexed with [znth]
      and [zupd]; disk blocks are lists of bytes.
    - Loops are [for_all], [for_n] or recursive functions.  A loop whose number of
      iterations is not visible from its bounds takes fuel, and running out is the
      outcome [Fuel], which no theorem takes for a result.
    - The kernel is not preemptive (no interrupt handler calls [yield]), so what
      happens between two [Swtch] is one step; the theorems on sleeping and
      waking and on the scheduler quantify over what other processes do.  [sleep] is
      written over the operations on locks, so that it can also be run with an
      interrupt taken wherever they leave interrupts unmasked.

    ** The files

    - Prelude: the outcomes, the monad, lenses, integers of a width, lists indexed
      by [Z], little-endian encodings, C strings, loop rules, tactics.
    - Spin: arm.c and spinlock.c ([cli], [pushcli], [acquire], ...).
    - Sched: the scheduling half of proc.c ([sched], [sleep], [wakeup], [kill],
      [scheduler_pass] for one pass of [scheduler], and its first rounds) and
      [switchuvm] of vm.c.  Scheduler: what holds at every step of its passes.
    - Mem, Str: byte memory and lib/string.c.
    - Dll: doubly linked lists threaded through arrays, for Buddy and Bio.
    - Buddy: buddy.c.
    - Bio: bio.c and memide.c.  The order in which sectors reach the disk is
      recorded, and a crash is a prefix of that record.
    - Log: log.c.  Tx: what a block is inside a transaction, used above the log.
    - Fs: fs.c.  Inode, Balloc, Dinode, Content, Writei, Dir, Path: its correctness
      (the inode cache, the block bitmap, inodes on the disk, the bytes of a file,
      [readi] and [writei], directories as maps from names to inodes, and paths).
    - Vm: vm.c.  Pgtab, Uvm, Freevm: page tables as maps, the address spaces of
      processes, and their end.
    - Kernel: the state of the whole kernel and user memory through the page
      table.  Console: console.c and the back trace of arm.c.  Tty: its line
      discipline.  Pipe: pipe.c.  File: file.c and [pipealloc].  Filewrite:
      [filewrite] down to the disk.
    - Proc: the life cycle of proc.c ([fork], [exit], [wait], ...).  Reap, Life,
      Fork: its correctness.  Exec: exec.c and [loaduvm].  Syscall: syscall.c, sysproc.c,
      sysfile.c and [isr_timer].  Args: the checks of system call arguments.
    - Dev: device/gic.c, device/uart.c, device/timer.c over an interface to the bus,
      trap.c, and [kmain] of main.c.  Boot: start.c.
    - Vic, Kalloc: device/picirq.c and kalloc.c, which the build no longer links.
    - Ulib, User: usr/ulib.c, usr/printf.c and the small programs of usr/, as
      interaction trees over the system calls.  Cmds: a world of files and streams
      that gives the calls their meaning, and what [cat], [wc], [echo] and [printf] do
      in it.
    - Umalloc: usr/umalloc.c.  Grep: usr/grep.c.  Sh: usr/sh.c.  Mkfs: tools/mkfs.c.

    ** What the theorems show

    - Crash safety: a transaction is all or nothing after a crash at any of its
      disk writes, and recovery can itself be interrupted
      ([Log.transaction_atomic], [Log.recovery_restartable]); a [write] system call
      of up to [write_max] bytes on a file is atomic and durable when it returns
      ([Filewrite.filewrite_atomic]), through every layer of the file system.
    - Files: [readi] and [writei] are reading and replacing a piece of a list of bytes
      ([Writei]); an inode survives the trip through its disk block ([Dinode]);
      allocation takes the least free block and nothing else ([Balloc]); the inode
      cache has one entry per inode and counts references ([Inode]); a directory
      is a map, which [dirlookup] reads and [dirlink] extends ([Dir]); a path leads
      through these maps, and looking it up leaves no reference behind ([Path]); the
      cache returns the current contents of a sector ([Bio]).
    - Image: what mkfs.c writes satisfies what the kernel's theorems assume of a
      disk ([Mkfs.mkfs_spec]).
    - Memory: the buddy allocator keeps its invariant and never hands out a byte
      twice ([Buddy]), nor does the older page allocator ([Kalloc]); page tables are
      updated at exactly the pages asked for, a forked address space is a copy, a
      failing [allocuvm] gives everything back, and so does [freevm] ([Pgtab], [Uvm],
      [Freevm]); the allocator of user programs never overlaps the blocks a program
      holds and never leaves the memory of the process, for requests below 2 GB
      ([Umalloc]).
    - Processes: no wakeup is lost ([Sched]); at most one process runs, and among
      processes that give the CPU back every runnable one runs in the next pass
      ([Scheduler]); [fork] makes a copy of the process that
      calls it, with memory of its own ([Fork]); [exit] hands children to [init] and
      wakes who waits for it, [wait] sleeps only while there is nothing to collect and
      gives the memory of the dead back ([Life]).
    - System calls: the arguments the kernel accepts lie in the memory of the
      process, unless their length is negative, and what happens then ([Args]).
    - Console: typing edits a line as a terminal does, and reads return committed
      lines ([Tty]).  Pipes are queues of bytes ([Pipe]).  A UART interrupt
      whose status has the receive interrupt delivers every character received, in
      order, to the console ([Dev]).
    - Boot: what the first page tables translate, and the state in which [kmain]
      starts ([Boot]).
    - User programs: [printf] renders its directives and numbers, [cat] and [wc] do what they are for
      however the input arrives ([Cmds]); grep's matcher decides the language of its
      patterns ([Grep]); the shell's parser always ends, accepts a line only as its
      grammar reads all its tokens, inverts printing, and a line typed runs every
      program of the command with the right files and pipes ([Sh]).
    - Defects: theorems that exhibit what the code does wrong (marked as such in
      their comments), such as [Uvm.kpt_alloc_overlaps], [Boot.start_spec] or
      [Args.negative_length_unchecked].

    ** Bounds and fuel

    - [wait_fuel] ([WaitFuel], Bio) bounds loops that wait for another process or a
      device.  Theorems about operations that do not have to wait hold for every
      value of it; [Dev.uart_interrupt_spec] asks for as much as the FIFO holds.
    - Loops over a structure take fuel from the structure (the size of a file, the
      length of a path or of a line), and the theorems show that it is enough.
      The parser of the shell gets [parse_depth], four times the line.
    - [Umalloc] takes the fuel as a parameter and needs twice the number of free
      blocks and two.
    - Transactions assume a log of at least [LOGSIZE] sectors and fewer than ten
      logged blocks, which [write_max] of file.c respects.

    ** What is not modelled

    - Assembly (entry.S, trap_asm.S, swtch.S, usys.S): [swtch] is the outcome [Swtch],
      the trap entry the call of a handler.  Caches, the TLB and barriers.
    - [error_init], which nothing calls, and [default_isr] of picirq.c, which prints.
    - usr/usertests.c, a script of system calls that prints what it finds.
    - How user programs pass arguments to [printf]: usr/printf.c finds them at a fixed
      distance from the frame, which C does not define, and the model takes them as
      a list.
    - Details of order and output: [filewrite] takes the bytes of a round from user
      memory before [writei] looks at the offset, [fileread] stores them after [readi]
      has read them all, the echo of the console is a list of characters and not
      accesses to the UART, and the message [popcli] prints before it panics is left
      out.  Pointers given to [printf] have no value to print as a number.
    - What the kernel does between a system call and the user program: user programs
      are verified against the system calls they make, not against Syscall.  The
      handlers of Syscall are translated; of their theorems those on arguments, on
      paths, on [filewrite], on the console, on [fork] and on [wait] are proved. *)

From stdpp Require Export base tactics option list list_numbers gmap numbers strings.
From Stdlib Require Export ZArith Lia ZifyBool.
#[global] Open Scope Z_scope.

#[global] Arguments Z.testbit : simpl never.
#[global] Arguments Z.lor : simpl never.
#[global] Arguments Z.land : simpl never.
#[global] Arguments Z.lxor : simpl never.
#[global] Arguments Z.lnot : simpl never.
#[global] Arguments Z.shiftl : simpl never.
#[global] Arguments Z.shiftr : simpl never.
#[global] Arguments Z.pow : simpl never.
#[global] Arguments Z.mul : simpl never.
#[global] Arguments Z.add : simpl never.
#[global] Arguments Z.sub : simpl never.
#[global] Arguments Z.modulo : simpl never.
#[global] Arguments Z.div : simpl never.
#[global] Arguments Z.of_nat : simpl never.
#[global] Arguments Z.to_nat : simpl never.

(** * Machine integers

    The C integer types of [types.h], as [Z] with the wrap-around written out. *)

Definition u8 (z : Z) : Z := z mod 2 ^ 8.
Definition u16 (z : Z) : Z := z mod 2 ^ 16.
Definition u32 (z : Z) : Z := z mod 2 ^ 32.
Definition u64 (z : Z) : Z := z mod 2 ^ 64.
Definition s16 (z : Z) : Z := (z + 2 ^ 15) mod 2 ^ 16 - 2 ^ 15.
Definition s32 (z : Z) : Z := (z + 2 ^ 31) mod 2 ^ 32 - 2 ^ 31.
Definition s64 (z : Z) : Z := (z + 2 ^ 63) mod 2 ^ 64 - 2 ^ 63.

(** A C expression used as a condition: zero is false. *)
Definition ztrue (z : Z) : bool := negb (z =? 0).

(** Addresses of kernel objects that the code compares (sleep channels and
    locks): the object or array, and the index or address within it.  Distinct
    C objects have distinct addresses. *)
Definition objaddr : Type := string * Z.
#[export] Instance objaddr_eq_dec : EqDecision objaddr := _.
#[export] Instance objaddr_countable : Countable objaddr := _.

Lemma u32_small z : 0 ≤ z < 2 ^ 32 → u32 z = z.
Proof. apply Z.mod_small. Qed.
Lemma u64_small z : 0 ≤ z < 2 ^ 64 → u64 z = z.
Proof. apply Z.mod_small. Qed.
Lemma u32_range z : 0 ≤ u32 z < 2 ^ 32.
Proof. unfold u32. by apply Z.mod_pos_bound. Qed.
Lemma u64_range z : 0 ≤ u64 z < 2 ^ 64.
Proof. unfold u64. by apply Z.mod_pos_bound. Qed.
Lemma s32_small z : - 2 ^ 31 ≤ z < 2 ^ 31 → s32 z = z.
Proof. intros. unfold s32. rewrite Z.mod_small; lia. Qed.
Lemma s64_small z : - 2 ^ 63 ≤ z < 2 ^ 63 → s64 z = z.
Proof. intros. unfold s64. rewrite Z.mod_small; lia. Qed.
Lemma ztrue_spec z : ztrue z = true ↔ z ≠ 0.
Proof. unfold ztrue. destruct (Z.eqb_spec z 0); naive_solver. Qed.

Create HintDb xv6_int.
Create HintDb xv6.
Create Rewrite HintDb xv6_int.
#[export] Hint Rewrite u32_small u64_small s32_small s64_small using lia : xv6_int.
#[export] Hint Resolve u32_range u64_range : xv6_int.

(** ** Single bits *)

Definition bit (i : Z) : Z := Z.shiftl 1 i.

Lemma bit_spec i j : 0 ≤ i → Z.testbit (bit i) j = (i =? j).
Proof.
  intros. unfold bit. rewrite Z.shiftl_1_l.
  destruct (Z.eqb_spec i j) as [->|]; [by apply Z.pow2_bits_true|].
  by apply Z.pow2_bits_false.
Qed.

Lemma land_bit_ne0 z i : 0 ≤ i → ztrue (Z.land z (bit i)) = Z.testbit z i.
Proof.
  intros Hi. apply eq_true_iff_eq. rewrite ztrue_spec. split.
  - intros Hne. destruct (Z.testbit z i) eqn:E; [done|]. destruct Hne.
    apply Z.bits_inj_iff'. intros j Hj.
    rewrite Z.land_spec, bit_spec, Z.bits_0 by lia.
    destruct (Z.eqb_spec i j) as [->|]; [by rewrite E|by rewrite andb_false_r].
  - intros E H0. apply (f_equal (fun z => Z.testbit z i)) in H0.
    rewrite Z.land_spec, bit_spec, Z.bits_0, E, Z.eqb_refl in H0; done || lia.
Qed.

Lemma testbit_setbit z i j : 0 ≤ i → 0 ≤ j →
  Z.testbit (Z.lor z (bit i)) j = (i =? j) || Z.testbit z j.
Proof. intros. rewrite Z.lor_spec, bit_spec by lia. apply orb_comm. Qed.

Lemma testbit_clrbit z i j : 0 ≤ i → 0 ≤ j →
  Z.testbit (Z.land z (Z.lnot (bit i))) j = negb (i =? j) && Z.testbit z j.
Proof.
  intros. rewrite Z.land_spec, Z.lnot_spec, bit_spec by lia. apply andb_comm.
Qed.

(** A [w]-bit number is determined by, and bounded by, its low [w] bits. *)
Lemma bits_lt_pow2 z w : 0 ≤ w → 0 ≤ z →
  (∀ j, w ≤ j → Z.testbit z j = false) → z < 2 ^ w.
Proof.
  intros Hw Hz Hb. destruct (decide (z = 0)) as [->|]; [lia|].
  apply Z.log2_lt_pow2; [lia|].
  destruct (Z.lt_ge_cases (Z.log2 z) w) as [|Hge]; [done|].
  assert (Z.testbit z (Z.log2 z) = true) by (apply Z.bit_log2; lia).
  rewrite (Hb _ Hge) in *. discriminate.
Qed.

Lemma testbit_high z w j : 0 ≤ z < 2 ^ w → w ≤ j → Z.testbit z j = false.
Proof.
  intros Hz Hj. destruct (decide (z = 0)) as [->|]; [apply Z.bits_0|].
  apply Z.bits_above_log2; [lia|].
  apply Z.lt_le_trans with w; [|done]. apply Z.log2_lt_pow2; lia.
Qed.

Lemma setbit_range z i w : 0 ≤ i < w → 0 ≤ z < 2 ^ w →
  0 ≤ Z.lor z (bit i) < 2 ^ w.
Proof.
  intros Hi Hz. assert (0 ≤ Z.lor z (bit i)).
  { apply Z.lor_nonneg. split; [lia|]. unfold bit. by apply Z.shiftl_nonneg. }
  split; [done|]. apply bits_lt_pow2; [lia..|]. intros j Hj.
  rewrite testbit_setbit, (testbit_high z w) by lia.
  destruct (Z.eqb_spec i j); [lia|done].
Qed.

Lemma clrbit_range z i w : 0 ≤ i → 0 ≤ w → 0 ≤ z < 2 ^ w →
  0 ≤ Z.land z (Z.lnot (bit i)) < 2 ^ w.
Proof.
  intros Hi Hw Hz. assert (0 ≤ Z.land z (Z.lnot (bit i))).
  { apply Z.land_nonneg. left. lia. }
  split; [done|]. apply bits_lt_pow2; [lia..|]. intros j Hj.
  rewrite testbit_clrbit, (testbit_high z w) by lia. apply andb_false_r.
Qed.

Lemma nonzero_has_bit z w : 0 ≤ z < 2 ^ w → z ≠ 0 →
  ∃ i, 0 ≤ i < w ∧ Z.testbit z i = true.
Proof.
  intros Hz Hne. exists (Z.log2 z). split; [|apply Z.bit_log2; lia].
  split; [apply Z.log2_nonneg|]. apply Z.log2_lt_pow2; lia.
Qed.

(** Masking off the low [w] bits rounds down to a multiple of [2 ^ w]. *)
Lemma land_mask64 z w : 0 ≤ z < 2 ^ 64 → 0 ≤ w ≤ 64 →
  Z.land z (u64 (Z.lnot (2 ^ w - 1))) = z / 2 ^ w * 2 ^ w.
Proof.
  intros Hz Hw. rewrite <- Z.shiftl_mul_pow2, <- Z.shiftr_div_pow2 by lia.
  unfold u64. rewrite <- Z.land_ones by lia.
  replace (2 ^ w - 1) with (Z.ones w) by (rewrite Z.ones_equiv; lia).
  rewrite <- Z.ldiff_ones_r by lia. apply Z.bits_inj_iff'. intros j Hj.
  rewrite Z.ldiff_spec, !Z.land_spec, Z.lnot_spec, !Z.testbit_ones_nonneg by lia.
  destruct (Z.ltb_spec j 64); [by rewrite andb_true_r|].
  by rewrite (testbit_high z 64) by lia.
Qed.

(** The first index a scan finds. *)
Lemma least_true (f : Z → bool) lo j : lo ≤ j → f j = true →
  ∃ i, lo ≤ i ≤ j ∧ f i = true ∧ ∀ i', lo ≤ i' < i → f i' = false.
Proof.
  intros Hj Hf. remember (Z.to_nat (j - lo)) as n eqn:En.
  revert lo Hj En. induction n as [|n IH]; intros lo Hj En.
  - exists j. split; [lia|]. split; [done|]. lia.
  - destruct (f lo) eqn:E.
    + exists lo. split; [lia|]. split; [done|]. lia.
    + destruct (IH (lo + 1)) as (i & Hi & Hfi & Hl); [lia..|].
      exists i. split; [lia|]. split; [done|]. intros i' Hi'.
      destruct (decide (i' = lo)) as [->|]; [done|]. apply Hl. lia.
Qed.

(** * Arrays indexed by C integers *)

Definition znth {A} (l : list A) (i : Z) : option A :=
  if 0 <=? i then l !! Z.to_nat i else None.
Definition zupd {A} (i : Z) (x : A) (l : list A) : list A :=
  if 0 <=? i then <[Z.to_nat i := x]> l else l.
Definition zlen {A} (l : list A) : Z := Z.of_nat (length l).

Section arrays.
Context {A : Type}.
Implicit Types (l : list A) (i j : Z) (x : A).

Lemma znth_Some l i x : znth l i = Some x → 0 ≤ i < zlen l.
Proof.
  unfold znth, zlen. destruct (Z.leb_spec 0 i); [|done].
  intros H1%lookup_lt_Some. lia.
Qed.
Lemma znth_is_Some l i : 0 ≤ i < zlen l → ∃ x, znth l i = Some x.
Proof.
  unfold znth, zlen. intros Hi. destruct (Z.leb_spec 0 i); [|lia].
  apply lookup_lt_is_Some_2. lia.
Qed.
Lemma znth_zupd l i x : 0 ≤ i < zlen l → znth (zupd i x l) i = Some x.
Proof.
  unfold znth, zupd, zlen. intros Hi. destruct (Z.leb_spec 0 i); [|lia].
  apply list_lookup_insert_eq. lia.
Qed.
Lemma znth_zupd_ne l i j x : i ≠ j → znth (zupd i x l) j = znth l j.
Proof.
  unfold znth, zupd. intros. destruct (Z.leb_spec 0 i), (Z.leb_spec 0 j); try done.
  apply list_lookup_insert_ne. lia.
Qed.
Lemma zlen_zupd l i x : zlen (zupd i x l) = zlen l.
Proof. unfold zlen, zupd. destruct (0 <=? i); [by rewrite length_insert|done]. Qed.
Lemma zupd_zupd l i x y : zupd i x (zupd i y l) = zupd i x l.
Proof. unfold zupd. destruct (0 <=? i); [|done]. by rewrite list_insert_insert_eq. Qed.
Lemma znth_zupd_Some l i j x y :
  znth (zupd i x l) j = Some y → (i = j ∧ x = y) ∨ (i ≠ j ∧ znth l j = Some y).
Proof.
  destruct (decide (i = j)) as [->|Hne].
  - intros H. left. split; [done|]. pose proof (znth_Some _ _ _ H) as Hr.
    rewrite zlen_zupd in Hr. rewrite znth_zupd in H by done. congruence.
  - rewrite znth_zupd_ne by done. by right.
Qed.
End arrays.
#[export] Hint Rewrite @zlen_zupd : xv6_int.

(** ** Slices of blocks and buffers *)

Definition slice {A} (off n : nat) (l : list A) : list A := take n (drop off l).
(** [memmove(l + off, new, length new)] into a byte array. *)
Definition splice {A} (off : nat) (new l : list A) : list A :=
  take off l ++ new ++ drop (off + length new) l.

Section slices.
Context {A : Type}.
Implicit Types (l new : list A) (off n i : nat).

Lemma length_splice off new l :
  (off + length new ≤ length l)%nat → length (splice off new l) = length l.
Proof. intros. unfold splice. rewrite !length_app, length_take, length_drop. lia. Qed.

Lemma slice_splice off new l :
  (off + length new ≤ length l)%nat → slice off (length new) (splice off new l) = new.
Proof.
  intros. unfold slice, splice.
  rewrite drop_app_length' by (rewrite length_take; lia).
  by rewrite take_app_length.
Qed.

Lemma lookup_splice_in off new l i :
  (off ≤ length l)%nat → (i < length new)%nat → splice off new l !! (off + i)%nat = new !! i.
Proof.
  intros. unfold splice. rewrite lookup_app_r by (rewrite length_take; lia).
  rewrite length_take, lookup_app_l by lia. f_equal. lia.
Qed.

Lemma lookup_splice_out off new l i :
  (off + length new ≤ length l)%nat →
  (i < off ∨ off + length new ≤ i)%nat → splice off new l !! i = l !! i.
Proof.
  intros Hle Hi. unfold splice. destruct Hi.
  - rewrite lookup_app_l by (rewrite length_take; lia). by apply lookup_take_lt.
  - rewrite lookup_app_r by (rewrite length_take; lia).
    rewrite lookup_app_r by (rewrite length_take; lia).
    rewrite lookup_drop, length_take. f_equal. lia.
Qed.

Lemma slice_splice_other off new l o n :
  (off + length new ≤ length l)%nat →
  (o + n ≤ off ∨ off + length new ≤ o)%nat →
  slice o n (splice off new l) = slice o n l.
Proof.
  intros Hle Hd. unfold slice. apply list_eq. intros i.
  destruct (decide (i < n)%nat).
  - rewrite !lookup_take_lt, !lookup_drop by done.
    apply lookup_splice_out; [done|]. lia.
  - by rewrite !lookup_take_ge by lia.
Qed.
End slices.

(** ** Little-endian words in byte arrays *)

Fixpoint le_enc (n : nat) (z : Z) : list Z :=
  match n with O => [] | S n => z mod 256 :: le_enc n (z / 256) end.
Fixpoint le_dec (l : list Z) : Z :=
  match l with [] => 0 | b :: l => b + 256 * le_dec l end.

Lemma length_le_enc n z : length (le_enc n z) = n.
Proof. revert z. induction n; simpl; auto. Qed.

Lemma le_dec_enc n z : le_dec (le_enc n z) = z mod 2 ^ (8 * Z.of_nat n).
Proof.
  revert z. induction n as [|n IH]; intros z; [by rewrite Z.mod_1_r|].
  cbn [le_enc le_dec]. rewrite IH.
  replace (2 ^ (8 * Z.of_nat (S n))) with (256 * 2 ^ (8 * Z.of_nat n)).
  - rewrite Z.rem_mul_r by (try apply Z.pow_nonzero; lia). done.
  - rewrite Nat2Z.inj_succ, <- Z.add_1_r, Z.mul_add_distr_l, Z.pow_add_r by lia. lia.
Qed.

(** The [uint] stored at byte offset [off] of a block, and storing one. *)
Definition get32 (off : nat) (blk : list Z) : Z := le_dec (slice off 4 blk).
Definition put32 (off : nat) (v : Z) (blk : list Z) : list Z :=
  splice off (le_enc 4 v) blk.
Definition get16 (off : nat) (blk : list Z) : Z := le_dec (slice off 2 blk).
Definition put16 (off : nat) (v : Z) (blk : list Z) : list Z :=
  splice off (le_enc 2 v) blk.

Lemma get32_put32 off v blk :
  (off + 4 ≤ length blk)%nat → get32 off (put32 off v blk) = u32 v.
Proof.
  intros. unfold get32, put32. pose proof (length_le_enc 4 v) as Hl.
  rewrite <- Hl at 1. rewrite slice_splice by lia. apply le_dec_enc.
Qed.

Lemma get32_put32_other off off' v blk :
  (off + 4 ≤ length blk)%nat → (off' + 4 ≤ off ∨ off + 4 ≤ off')%nat →
  get32 off' (put32 off v blk) = get32 off' blk.
Proof.
  intros. unfold get32, put32. pose proof (length_le_enc 4 v) as Hl.
  rewrite slice_splice_other; rewrite ?Hl; [done|lia..].
Qed.

Lemma length_put32 off v blk :
  (off + 4 ≤ length blk)%nat → length (put32 off v blk) = length blk.
Proof. intros. apply length_splice. by rewrite length_le_enc. Qed.

(** The bytes of a string constant. *)
Definition chars (s : string) : list Z := Z.of_N <$> (Ascii.N_of_ascii <$> String.list_ascii_of_string s).

(** The string in a [char] array: the bytes before the first NUL, if any. *)
Fixpoint str_of (l : list Z) : list Z :=
  match l with [] => [] | c :: l => if c =? 0 then [] else c :: str_of l end.

Lemma str_of_nonul l : 0 ∉ l → str_of l = l.
Proof.
  induction l as [|c l IH]; intros H; [done|]. apply not_elem_of_cons in H as [Hc Hl]. simpl.
  destruct (Z.eqb_spec c 0); [congruence|]. by rewrite IH.
Qed.
Lemma str_of_nul l l' : 0 ∉ l → str_of (l ++ 0 :: l') = l.
Proof.
  induction l as [|c l IH]; intros H; [done|]. apply not_elem_of_cons in H as [Hc Hl]. simpl.
  destruct (Z.eqb_spec c 0); [congruence|]. by rewrite IH.
Qed.

(** * Outcomes and the kernel monad

    Every kernel operation is a function from its component's state to an
    outcome.  [Panic] is a call of [panic()]; [Undef] is an access outside the
    C object it names (the C program has no defined behaviour there); [Swtch]
    is the point where the running process gives the CPU to the scheduler, with
    what it does when it is resumed in a possibly different state; [Fuel] is
    the bound of a loop whose iteration count the code does not bound. *)

Inductive res (S A : Type) : Type :=
| Ok (a : A) (s : S)
| Panic (msg : string) (s : S)
| Undef (why : string) (s : S)
| Swtch (s : S) (k : S → res S A)
| Fuel (s : S).
Arguments Ok {S A} a s.
Arguments Panic {S A} msg s.
Arguments Undef {S A} why s.
Arguments Swtch {S A} s k.
Arguments Fuel {S A} s.

Definition M (S A : Type) : Type := S → res S A.

Fixpoint rbind {S A B} (r : res S A) (f : A → M S B) : res S B :=
  match r with
  | Ok a s => f a s
  | Panic m s => Panic m s
  | Undef w s => Undef w s
  | Swtch s k => Swtch s (fun s' => rbind (k s') f)
  | Fuel s => Fuel s
  end.

Definition ret {S A} (a : A) : M S A := fun s => Ok a s.
Definition bind {S A B} (m : M S A) (f : A → M S B) : M S B :=
  fun s => rbind (m s) f.
Definition panic {S A} (msg : string) : M S A := fun s => Panic msg s.
Definition undef {S A} (why : string) : M S A := fun s => Undef why s.
Definition out_of_fuel {S A} : M S A := fun s => Fuel s.
Definition gets {S A} (f : S → A) : M S A := fun s => Ok (f s) s.
Definition modify {S} (f : S → S) : M S unit := fun s => Ok tt (f s).

Declare Scope xv6_scope.
Delimit Scope xv6_scope with xv6.
#[global] Open Scope xv6_scope.

Notation "'let*' p := m 'in' k" := (bind m (fun p => k))
  (at level 10, p pattern, m at level 99, k at level 200)
  : xv6_scope.
Notation "m ;; k" := (bind m (fun _ => k))
  (at level 100, k at level 200, right associativity) : xv6_scope.

Definition when {S} (b : bool) (m : M S unit) : M S unit :=
  if b then m else ret tt.
Definition panic_if {S} (b : bool) (msg : string) : M S unit :=
  if b then panic msg else ret tt.
(** An array element or pointer target that C would read: [None] is outside. *)
Definition must {S A} (why : string) (o : option A) : M S A :=
  match o with Some a => ret a | None => undef why end.

(** [for (i = lo; i < lo + n; i++) body(i)], where [Some b] from the body is
    a [return b] or a [break] carrying [b]. *)
Fixpoint for_n {S B} (n : nat) (i : Z) (body : Z → M S (option B))
  : M S (option B) :=
  match n with
  | O => ret None
  | S n' =>
      let* r := body i in
      match r with
      | Some b => ret (Some b)
      | None => for_n n' (i + 1) body
      end
  end.
Definition for_to {S B} (lo hi : Z) (body : Z → M S (option B))
  : M S (option B) := for_n (Z.to_nat (hi - lo)) lo body.
(** The same loop when its body never leaves it early. *)
Fixpoint for_all {S} (n : nat) (i : Z) (body : Z → M S unit) : M S unit :=
  match n with
  | O => ret tt
  | S n' => body i ;; for_all n' (i + 1) body
  end.

(** A loop the code does not bound: at most [fuel] iterations. *)
Fixpoint loop {S X B} (fuel : nat) (body : X → M S (X + B)) (x : X) : M S B :=
  match fuel with
  | O => out_of_fuel
  | S f =>
      let* r := body x in
      match r with inl x' => loop f body x' | inr b => ret b end
  end.

(** ** Lenses

    A component's operations run on its own state; [zoom] runs them inside a
    larger state that contains it. *)

Class Lens (S A : Type) := {
  lget : S → A;
  lset : A → S → S;
  lget_lset : ∀ a s, lget (lset a s) = a;
  lset_lget : ∀ s, lset (lget s) s = s;
  lset_lset : ∀ a b s, lset a (lset b s) = lset a s;
}.

Fixpoint rzoom {S A X} `{Lens S A} (s : S) (r : res A X) : res S X :=
  match r with
  | Ok x a => Ok x (lset a s)
  | Panic m a => Panic m (lset a s)
  | Undef w a => Undef w (lset a s)
  | Swtch a k => Swtch (lset a s) (fun s' => rzoom s' (k (lget s')))
  | Fuel a => Fuel (lset a s)
  end.
Definition zoom {S A X} `{Lens S A} (m : M A X) : M S X :=
  fun s => rzoom s (m (lget s)).

#[export] Program Instance lens_id S : Lens S S :=
  {| lget := fun s => s; lset := fun a _ => a |}.
Solve All Obligations with done.

#[export] Program Instance lens_fst A B : Lens (A * B) A :=
  {| lget := fst; lset := fun a s => (a, snd s) |}.
Solve All Obligations with (by intros; destruct_and?; repeat match goal with s : _ * _ |- _ => destruct s end).

(** ** Reasoning about outcomes *)

Section outcome.
Context {S : Type}.

Definition is_ok {A} (r : res S A) : bool :=
  match r with Ok _ _ => true | _ => false end.
Definition panics {A} (r : res S A) : bool :=
  match r with Panic _ _ => true | _ => false end.

Lemma bind_ok {A B} (m : M S A) (f : A → M S B) s a s' :
  m s = Ok a s' → bind m f s = f a s'.
Proof. unfold bind. by intros ->. Qed.

Lemma bind_panic {A B} (m : M S A) (f : A → M S B) s msg s' :
  m s = Panic msg s' → bind m f s = Panic msg s'.
Proof. unfold bind. by intros ->. Qed.

Lemma bind_Ok_inv {A B} (m : M S A) (f : A → M S B) s b s2 :
  bind m f s = Ok b s2 → ∃ a s1, m s = Ok a s1 ∧ f a s1 = Ok b s2.
Proof. unfold bind. destruct (m s); simpl; naive_solver. Qed.

Lemma zoom_ok {A X} `{Lens S A} (m : M A X) s x a :
  m (lget s) = Ok x a → zoom m s = Ok x (lset a s).
Proof. unfold zoom. by intros ->. Qed.

Lemma zoom_panic {A X} `{Lens S A} (m : M A X) s msg a :
  m (lget s) = Panic msg a → zoom m s = Panic msg (lset a s).
Proof. unfold zoom. by intros ->. Qed.

Lemma zoom_Ok_inv {A X} `{Lens S A} (m : M A X) s x s' :
  zoom m s = Ok x s' →
  m (lget s) = Ok x (lget s') ∧ s' = lset (lget s') s.
Proof.
  unfold zoom. destruct (m (lget s)); simpl; intros; simplify_eq.
  by rewrite lget_lset.
Qed.

Lemma when_true (m : M S unit) s : when true m s = m s.
Proof. done. Qed.
Lemma when_false (m : M S unit) s : when false m s = Ok tt s.
Proof. done. Qed.

(** A loop whose body always falls through is a fold of its steps: the
    rule every [for] loop over a table is verified with. *)
Lemma for_all_inv {I : Z → S → Prop} (body : Z → M S unit) n lo s :
  I lo s →
  (∀ i s, lo ≤ i < lo + Z.of_nat n → I i s →
          ∃ s', body i s = Ok tt s' ∧ I (i + 1) s') →
  ∃ s', for_all n lo body s = Ok tt s' ∧ I (lo + Z.of_nat n) s'.
Proof.
  revert lo s. induction n as [|n IH]; intros lo s HI Hstep; simpl.
  - exists s. split; [done|]. by rewrite Z.add_0_r.
  - destruct (Hstep lo s) as (s1 & H1 & HI1); [lia|done|].
    destruct (IH (lo + 1) s1 HI1) as (s2 & H2 & HI2).
    { intros i s' Hi. apply Hstep. lia. }
    exists s2. split; [rewrite (bind_ok _ _ _ _ _ H1); exact H2|].
    replace (lo + Z.of_nat (Datatypes.S n)) with (lo + 1 + Z.of_nat n) by lia.
    exact HI2.
Qed.

(** The same for a loop that may leave early. *)
Lemma for_n_inv {B} {I : Z → S → Prop} {Q : B → S → Prop}
    (body : Z → M S (option B)) n lo s :
  I lo s →
  (∀ i s, lo ≤ i < lo + Z.of_nat n → I i s →
     ∃ r s', body i s = Ok r s' ∧
       match r with Some b => Q b s' | None => I (i + 1) s' end) →
  ∃ r s', for_n n lo body s = Ok r s' ∧
    match r with Some b => Q b s' | None => I (lo + Z.of_nat n) s' end.
Proof.
  revert lo s. induction n as [|n IH]; intros lo s HI Hstep; simpl.
  - exists None, s. split; [done|]. by rewrite Z.add_0_r.
  - destruct (Hstep lo s) as (r & s1 & H1 & HI1); [lia|done|].
    rewrite (bind_ok _ _ _ _ _ H1). destruct r as [b|]; [by eexists _, _|].
    destruct (IH (lo + 1) s1 HI1) as (r & s2 & H2 & HI2).
    { intros i s' Hi. apply Hstep. lia. }
    exists r, s2. split; [done|].
    replace (lo + Z.of_nat (Datatypes.S n)) with (lo + 1 + Z.of_nat n) by lia.
    exact HI2.
Qed.
(** A scan of a table: the body looks at entry [i] and leaves the state alone
    until it finds what it looks for. *)
Lemma for_n_find {B} (body : Z → M S (option B)) n lo j s r s' :
  lo ≤ j < lo + Z.of_nat n →
  (∀ i, lo ≤ i < j → body i s = Ok None s) →
  body j s = Ok (Some r) s' → for_n n lo body s = Ok (Some r) s'.
Proof.
  revert lo. induction n as [|n IH]; intros lo Hj Hbefore Hat; [lia|]. simpl.
  destruct (decide (lo = j)) as [->|].
  - by rewrite (bind_ok _ _ _ _ _ Hat).
  - erewrite bind_ok by (apply Hbefore; lia). apply IH; [lia| |done].
    intros i Hi. apply Hbefore. lia.
Qed.

Lemma for_n_none {B} (body : Z → M S (option B)) n lo s :
  (∀ i, lo ≤ i < lo + Z.of_nat n → body i s = Ok None s) →
  for_n n lo body s = Ok None s.
Proof.
  revert lo. induction n as [|n IH]; intros lo Hall; [done|]. simpl.
  erewrite bind_ok by (apply Hall; lia). apply IH. intros i Hi. apply Hall. lia.
Qed.
End outcome.

(** [step H] runs one bound operation whose outcome is the equation [H]. *)
Ltac step H := erewrite bind_ok by (exact H).
(** [run] unfolds the monad's plumbing so that conditions become visible. *)
Ltac run :=
  unfold bind, ret, panic, undef, gets, modify, when, panic_if, must, zoom; simpl.
(** [inv_ok] inverts an [Ok] equation of a bound computation. *)
Ltac inv_ok :=
  repeat match goal with
  | H : bind _ _ _ = Ok _ _ |- _ =>
      apply bind_Ok_inv in H as (? & ? & ? & H)
  | H : ret _ _ = Ok _ _ |- _ => unfold ret in H; simplify_eq
  | H : gets _ _ = Ok _ _ |- _ => unfold gets in H; simplify_eq
  | H : modify _ _ = Ok _ _ |- _ => unfold modify in H; simplify_eq
  | H : panic _ _ = Ok _ _ |- _ => discriminate H
  | H : undef _ _ = Ok _ _ |- _ => discriminate H
  | H : Panic _ _ = Ok _ _ |- _ => discriminate H
  | H : panic_if ?b _ _ = Ok _ _ |- _ =>
      destruct b eqn:?; unfold panic_if in H; [discriminate H|]
  | H : must _ ?o _ = Ok _ _ |- _ =>
      destruct o eqn:?; unfold must in H; [|discriminate H]
  end.

(** [zcase] splits on the conditions of the goal and discards the branches that
    contradict each other or the hypotheses. *)
Ltac zcase :=
  repeat match goal with
  | |- context [if ?b then _ else _] => destruct b eqn:?
  end; try lia.

(** Equality of tuples whose components [lia] can compare. *)
Ltac pair_lia :=
  repeat match goal with |- (_, _) = (_, _) => apply f_equal2 end; done || lia.
