(* ===== verification/Spin.v ===== *)
(** Interrupt masking and spin locks: [arm.c] and [spinlock.c].

    The machine state is the DAIF register (whose I bit masks interrupts), the
    nesting depth and saved interrupt flag of [struct cpu], the set of locks
    whose [locked] field is 1, and the user page-table register.  The debugging fields of [struct spinlock]
    ([name], [cpu], [pcs]) are only written and never read by the kernel; they
    are not part of the state. *)

From S2P Require Import Prelude.

Record mach := Mach {
  m_daif : Z;              (* DAIF: bit 7 set when IRQs are masked *)
  m_ncli : Z;              (* cpu->ncli *)
  m_intena : Z;            (* cpu->intena *)
  m_held : gset objaddr;   (* locks with locked == 1 *)
  m_ttbr0 : Z;             (* TTBR0_EL1: the user page table *)
}.

Definition set_daif v m := Mach v (m_ncli m) (m_intena m) (m_held m) (m_ttbr0 m).
Definition set_ncli v m := Mach (m_daif m) v (m_intena m) (m_held m) (m_ttbr0 m).
Definition set_intena v m := Mach (m_daif m) (m_ncli m) v (m_held m) (m_ttbr0 m).
Definition set_held v m := Mach (m_daif m) (m_ncli m) (m_intena m) v (m_ttbr0 m).
Definition set_ttbr0 v m := Mach (m_daif m) (m_ncli m) (m_intena m) (m_held m) v.

Definition DIS_INT : Z := 0x80.

Definition cli : M mach unit :=
  modify (fun m => set_daif (Z.lor (m_daif m) DIS_INT) m).
Definition sti : M mach unit :=
  modify (fun m => set_daif (Z.land (m_daif m) (Z.lnot DIS_INT)) m).

Definition irq_enabled (m : mach) : bool := negb (ztrue (Z.land (m_daif m) DIS_INT)).
Definition int_enabled : M mach Z :=
  gets (fun m => Z.b2z (irq_enabled m)).

Definition pushcli : M mach unit :=
  let* enabled := int_enabled in
  cli ;;
  let* n := gets m_ncli in
  modify (set_ncli (s32 (n + 1))) ;;
  when (n =? 0) (modify (set_intena enabled)).

Definition popcli : M mach unit :=
  let* enabled := int_enabled in
  panic_if (ztrue enabled) "popcli - interruptible" ;;
  let* n := gets (fun m => s32 (m_ncli m - 1)) in
  modify (set_ncli n) ;;
  panic_if (n <? 0) "popcli -- ncli < 0" ;;
  let* intena := gets m_intena in
  when ((n =? 0) && ztrue intena) sti.

Definition initlock (lk : objaddr) : M mach unit :=
  modify (fun m => set_held (m_held m ∖ {[lk]}) m).
Definition acquire (lk : objaddr) : M mach unit :=
  pushcli ;; modify (fun m => set_held ({[lk]} ∪ m_held m) m).
Definition release (lk : objaddr) : M mach unit :=
  modify (fun m => set_held (m_held m ∖ {[lk]}) m) ;; popcli.
Definition holding (lk : objaddr) : M mach bool :=
  gets (fun m => bool_decide (lk ∈ m_held m)).

(** * Correctness *)

(** While [ncli] is positive interrupts are masked: the state between a
    [pushcli] and its [popcli]. *)
Definition cli_wf (m : mach) : Prop :=
  0 ≤ m_ncli m < 2 ^ 31 - 1 ∧ (0 < m_ncli m → irq_enabled m = false).

Lemma irq_enabled_bit m : irq_enabled m = negb (Z.testbit (m_daif m) 7).
Proof. unfold irq_enabled. by rewrite (land_bit_ne0 _ 7). Qed.

Lemma irq_cli m : irq_enabled (set_daif (Z.lor (m_daif m) DIS_INT) m) = false.
Proof.
  rewrite irq_enabled_bit. change DIS_INT with (bit 7). cbn [m_daif set_daif].
  by rewrite testbit_setbit by lia.
Qed.

(** [sti] after [cli] gives back the register when the bit was clear. *)
Lemma daif_cli_sti d :
  Z.testbit d 7 = false → Z.land (Z.lor d DIS_INT) (Z.lnot DIS_INT) = d.
Proof.
  intros Hd. change DIS_INT with (bit 7). apply Z.bits_inj_iff'. intros j Hj.
  rewrite testbit_clrbit, testbit_setbit by lia.
  destruct (Z.eqb_spec 7 j) as [<-|]; simpl; congruence.
Qed.
Lemma daif_cli_id d : Z.testbit d 7 = true → Z.lor d DIS_INT = d.
Proof.
  intros Hd. change DIS_INT with (bit 7). apply Z.bits_inj_iff'. intros j Hj.
  rewrite testbit_setbit by lia.
  destruct (Z.eqb_spec 7 j) as [<-|]; [by rewrite Hd|done].
Qed.

(** The state after a [pushcli]: interrupts masked, one level deeper. *)
Definition pushed (m : mach) : mach :=
  Mach (Z.lor (m_daif m) DIS_INT) (m_ncli m + 1)
    (if m_ncli m =? 0 then Z.b2z (irq_enabled m) else m_intena m) (m_held m) (m_ttbr0 m).

Lemma pushcli_ok m : cli_wf m → pushcli m = Ok tt (pushed m).
Proof.
  intros [Hn _]. unfold pushcli, int_enabled, cli, pushed. run.
  rewrite s32_small by lia. by destruct (m_ncli m =? 0).
Qed.

Lemma pushed_masked m : irq_enabled (pushed m) = false.
Proof. apply (irq_cli m). Qed.

(** What a matched [pushcli]/[popcli] pair leaves changed: the saved flag. *)
Definition saved (m : mach) : mach :=
  if m_ncli m =? 0 then set_intena (Z.b2z (irq_enabled m)) m else m.

Lemma popcli_pushed m h :
  cli_wf m → popcli (set_held h (pushed m)) = Ok tt (set_held h (saved m)).
Proof.
  intros [Hn Hm]. unfold popcli, int_enabled. run.
  change (irq_enabled (set_held h (pushed m))) with (irq_enabled (pushed m)).
  rewrite pushed_masked. simpl. rewrite s32_small by lia.
  replace (m_ncli m + 1 - 1) with (m_ncli m) by lia.
  destruct (Z.ltb_spec (m_ncli m) 0); [lia|]. simpl.
  unfold saved, pushed, set_ncli, set_held, sti, set_daif, set_intena. run.
  rewrite irq_enabled_bit. destruct (Z.eqb_spec (m_ncli m) 0) as [H0|H0]; simpl.
  - destruct (Z.testbit (m_daif m) 7) eqn:E; simpl.
    + by rewrite daif_cli_id, H0.
    + by rewrite daif_cli_sti, H0.
  - rewrite irq_enabled_bit in Hm. rewrite daif_cli_id; [by destruct m|].
    destruct (Z.testbit (m_daif m) 7); [done|]. by ospecialize* Hm; lia.
Qed.

(** The net effect of [acquire] and [release] around a critical section. *)
Definition locked (lk : objaddr) (m : mach) : mach :=
  set_held ({[lk]} ∪ m_held m) (pushed m).

Lemma acquire_ok lk m : cli_wf m → acquire lk m = Ok tt (locked lk m).
Proof. intros. unfold acquire. erewrite bind_ok by (by apply pushcli_ok). done. Qed.

Lemma release_locked lk m :
  cli_wf m → lk ∉ m_held m → release lk (locked lk m) = Ok tt (saved m).
Proof.
  intros Hwf Hlk. unfold release, locked. run.
  change (set_held _ (set_held _ (pushed m)))
    with (set_held (({[lk]} ∪ m_held m) ∖ {[lk]}) (pushed m)).
  rewrite popcli_pushed by done. f_equal.
  replace (({[lk]} ∪ m_held m) ∖ {[lk]}) with (m_held m) by set_solver.
  unfold saved. by destruct (m_ncli m =? 0), m.
Qed.

(** Leaving the outermost critical section. *)
Lemma release_last lk m :
  m_held m = {[lk]} → m_ncli m = 1 → irq_enabled m = false →
  ∃ m', release lk m = Ok tt m' ∧ m_ncli m' = 0 ∧ m_held m' = ∅.
Proof.
  intros Hh Hn Hi. unfold release, popcli, int_enabled. run.
  change (irq_enabled (set_held _ m)) with (irq_enabled m). rewrite Hi. simpl.
  rewrite Hn, Hh. simpl.
  replace ({[lk]} ∖ {[lk]} : gset objaddr) with (∅ : gset objaddr) by set_solver.
  destruct (ztrue (m_intena m)); simpl; eauto.
Qed.

Lemma locked_section lk m :
  m_ncli m = 0 → m_held m = ∅ →
  m_held (locked lk m) = {[lk]} ∧ m_ncli (locked lk m) = 1 ∧
  irq_enabled (locked lk m) = false.
Proof.
  intros Hn Hh. unfold locked; simpl. rewrite Hh, Hn.
  split; [set_solver|]. split; [done|]. apply (pushed_masked m).
Qed.

(** ** Nested critical sections *)

Inductive section_op := Push | Pop.
Definition run_op (o : section_op) : M mach unit :=
  match o with Push => pushcli | Pop => popcli end.
Fixpoint run_ops (l : list section_op) : M mach unit :=
  match l with [] => ret tt | o :: l => run_op o ;; run_ops l end.

(** The nesting depth after a sequence that starts at depth [n], if no [Pop]
    of it is unmatched. *)
Fixpoint depth_from (n : Z) (l : list section_op) : option Z :=
  match l with
  | [] => Some n
  | Push :: l => depth_from (n + 1) l
  | Pop :: l => if n <=? 0 then None else depth_from (n - 1) l
  end.

(** [m] is inside [d] sections that were entered from [m0]. *)
Definition within (m0 m : mach) (d : Z) : Prop :=
  m_ncli m = d ∧ m_held m = m_held m0 ∧ 0 ≤ d ∧
  if d =? 0 then m_daif m = m_daif m0
  else m_daif m = Z.lor (m_daif m0) DIS_INT ∧ m_intena m = Z.b2z (irq_enabled m0).

Lemma within_masked m0 m d : within m0 m d → 0 < d → irq_enabled m = false.
Proof.
  intros (_ & _ & _ & Hd) Hpos. destruct (Z.eqb_spec d 0); [lia|].
  destruct Hd as [Hd _]. rewrite irq_enabled_bit, Hd. change DIS_INT with (bit 7).
  by rewrite testbit_setbit by lia.
Qed.

Lemma within_push m0 m d :
  within m0 m d → d < 2 ^ 31 - 1 →
  ∃ m', pushcli m = Ok tt m' ∧ within m0 m' (d + 1).
Proof.
  intros Hw Hd. pose proof (within_masked _ _ _ Hw) as Hm.
  destruct Hw as (Hn & Hh & Hge & Hcase). eexists.
  rewrite pushcli_ok by (split; [lia|]; rewrite Hn; auto). split; [done|].
  unfold within, pushed; simpl. rewrite Hn. destruct (Z.eqb_spec (d + 1) 0); [lia|].
  repeat split; [done|lia|..].
  - destruct (Z.eqb_spec d 0); [by rewrite Hcase|]. destruct Hcase as [-> _].
    by rewrite <- Z.lor_assoc, Z.lor_diag.
  - destruct (Z.eqb_spec d 0); [|by destruct Hcase].
    unfold irq_enabled. by rewrite Hcase.
Qed.

Lemma within_pop m0 m d :
  within m0 m d → 0 < d < 2 ^ 31 →
  ∃ m', popcli m = Ok tt m' ∧ within m0 m' (d - 1).
Proof.
  intros Hw Hd. pose proof (within_masked _ _ _ Hw) as Hm.
  destruct Hw as (Hn & Hh & Hge & Hcase).
  destruct (Z.eqb_spec d 0); [lia|]. destruct Hcase as [Hdaif Hint].
  unfold popcli, int_enabled. run. rewrite Hm by lia. simpl.
  rewrite Hn, s32_small by lia. destruct (Z.ltb_spec (d - 1) 0); [lia|]. simpl.
  rewrite Hint. unfold within, sti, ztrue. run.
  destruct (Z.eqb_spec (d - 1) 0); simpl; [|by eexists; split; [done|]].
  rewrite irq_enabled_bit. destruct (Z.testbit (m_daif m0) 7) eqn:E; simpl;
    (eexists; split; [done|]); simpl; repeat split; try (done || lia);
    rewrite Hdaif; auto using daif_cli_id, daif_cli_sti.
Qed.

(** The bracketing property of the comment above [pushcli]: "it takes two
    popcli to undo two pushcli.  Also, if interrupts are off, then pushcli,
    popcli leaves them off". *)
Lemma run_ops_within m0 l m n d :
  within m0 m n → depth_from n l = Some d → n + zlen l < 2 ^ 31 - 1 →
  ∃ m', run_ops l m = Ok tt m' ∧ within m0 m' d.
Proof.
  revert m n. induction l as [|[] l IH]; intros m n Hw Hdep Hlen; simpl in *.
  - simplify_eq. by eexists.
  - unfold zlen in *; simpl in *. edestruct within_push as (m1 & Hp & Hw1); [done|lia|].
    step Hp. eapply IH; [done..|lia].
  - unfold zlen in *; simpl in *. destruct (Z.leb_spec n 0); [done|].
    edestruct within_pop as (m1 & Hp & Hw1); [done|lia|].
    step Hp. eapply IH; [done..|lia].
Qed.

(** C-claims of this file. *)

(** Any sequence of [pushcli]/[popcli] with no unmatched pop runs without a
    panic; interrupts are masked at every point inside a section, and when the
    last section is left the DAIF register is what it was at the start. *)
Theorem nested_sections l m d :
  m_ncli m = 0 → depth_from 0 l = Some d → zlen l < 2 ^ 31 - 1 →
  ∃ m', run_ops l m = Ok tt m' ∧ m_ncli m' = d ∧ m_held m' = m_held m ∧
    (0 < d → irq_enabled m' = false) ∧ (d = 0 → m_daif m' = m_daif m).
Proof.
  intros H0 Hdep Hlen.
  destruct (run_ops_within m l m 0 d) as (m' & Hrun & Hw); [done..|].
  exists m'. split; [done|]. pose proof (within_masked _ _ _ Hw).
  destruct Hw as (? & ? & ? & Hd). repeat split; [done..|].
  intros ->. done.
Qed.

Definition nested_demo : mach := Mach 0x40 0 7 ∅ 0.
Lemma nested_sections_witness :
  ∃ m', run_ops [Push; Push; Pop; Pop] nested_demo = Ok tt m' ∧ m_ncli m' = 0 ∧
    m_held m' = ∅ ∧ (0 < 0 → irq_enabled m' = false) ∧ (0 = 0 → m_daif m' = 0x40).
Proof. apply (nested_sections [Push; Push; Pop; Pop] nested_demo 0); done. Defined.

(** An unmatched [popcli] (depth zero) never returns: it panics whether
    interrupts are enabled or not. *)
Theorem unmatched_popcli_panics m :
  m_ncli m = 0 → ∃ msg m', popcli m = Panic msg m'.
Proof.
  intros H0. unfold popcli, int_enabled. run.
  destruct (irq_enabled m); simpl; [by eexists _, _|]. rewrite H0. simpl. by eexists _, _.
Qed.
Lemma unmatched_popcli_panics_witness : ∃ msg m', popcli nested_demo = Panic msg m'.
Proof. apply unmatched_popcli_panics. reflexivity. Defined.
