(* ===== verification/Sched.v ===== *)
(** Processes, sleeping and waking: the scheduling half of [proc.c].

    The base state every sleeping component shares: the machine of [Spin], the
    process table, the current process, [initproc] and [nextpid].  A process
    that calls [swtch] towards the scheduler suspends ([Swtch]); what it does
    when it runs again is the continuation.  The kernel of this port is not
    preemptive (no interrupt handler calls [yield]), so everything between two
    suspensions is one atomic step. *)

From S2P Require Import Prelude Spin.

(** * Data ([proc.h]) *)

Inductive procstate := UNUSED | EMBRYO | SLEEPING | RUNNABLE | RUNNING | ZOMBIE.
#[export] Instance procstate_eq_dec : EqDecision procstate.
Proof. solve_decision. Defined.

Record proc := Proc {
  p_sz : Z;                      (* size of process memory (bytes) *)
  p_pgdir : Z;                   (* page table *)
  p_kstack : Z;                  (* bottom of kernel stack *)
  p_state : procstate;
  p_pid : Z;
  p_parent : option Z;           (* index of the parent in the table *)
  p_tf : list Z;                 (* trap frame: sp, pc, spsr, r0 .. r30 *)
  p_context : Z;                 (* address of the saved context *)
  p_chan : option objaddr;       (* if set, sleeping on it *)
  p_killed : Z;
  p_ofile : list (option Z);     (* open files: index in ftable *)
  p_cwd : option Z;              (* current directory: index in icache *)
  p_name : list Z;
}.
Definition set_p_sz v r := Proc v (p_pgdir r) (p_kstack r) (p_state r) (p_pid
  r) (p_parent r) (p_tf r) (p_context r) (p_chan r) (p_killed r) (p_ofile r)
  (p_cwd r) (p_name r).
Definition set_p_pgdir v r := Proc (p_sz r) v (p_kstack r) (p_state r) (p_pid
  r) (p_parent r) (p_tf r) (p_context r) (p_chan r) (p_killed r) (p_ofile r)
  (p_cwd r) (p_name r).
Definition set_p_kstack v r := Proc (p_sz r) (p_pgdir r) v (p_state r) (p_pid
  r) (p_parent r) (p_tf r) (p_context r) (p_chan r) (p_killed r) (p_ofile r)
  (p_cwd r) (p_name r).
Definition set_p_state v r := Proc (p_sz r) (p_pgdir r) (p_kstack r) v (p_pid
  r) (p_parent r) (p_tf r) (p_context r) (p_chan r) (p_killed r) (p_ofile r)
  (p_cwd r) (p_name r).
Definition set_p_pid v r := Proc (p_sz r) (p_pgdir r) (p_kstack r) (p_state r)
  v (p_parent r) (p_tf r) (p_context r) (p_chan r) (p_killed r) (p_ofile r)
  (p_cwd r) (p_name r).
Definition set_p_parent v r := Proc (p_sz r) (p_pgdir r) (p_kstack r) (p_state
  r) (p_pid r) v (p_tf r) (p_context r) (p_chan r) (p_killed r) (p_ofile r)
  (p_cwd r) (p_name r).
Definition set_p_tf v r := Proc (p_sz r) (p_pgdir r) (p_kstack r) (p_state r)
  (p_pid r) (p_parent r) v (p_context r) (p_chan r) (p_killed r) (p_ofile r)
  (p_cwd r) (p_name r).
Definition set_p_context v r := Proc (p_sz r) (p_pgdir r) (p_kstack r)
  (p_state r) (p_pid r) (p_parent r) (p_tf r) v (p_chan r) (p_killed r)
  (p_ofile r) (p_cwd r) (p_name r).
Definition set_p_chan v r := Proc (p_sz r) (p_pgdir r) (p_kstack r) (p_state
  r) (p_pid r) (p_parent r) (p_tf r) (p_context r) v (p_killed r) (p_ofile r)
  (p_cwd r) (p_name r).
Definition set_p_killed v r := Proc (p_sz r) (p_pgdir r) (p_kstack r) (p_state
  r) (p_pid r) (p_parent r) (p_tf r) (p_context r) (p_chan r) v (p_ofile r)
  (p_cwd r) (p_name r).
Definition set_p_ofile v r := Proc (p_sz r) (p_pgdir r) (p_kstack r) (p_state
  r) (p_pid r) (p_parent r) (p_tf r) (p_context r) (p_chan r) (p_killed r) v
  (p_cwd r) (p_name r).
Definition set_p_cwd v r := Proc (p_sz r) (p_pgdir r) (p_kstack r) (p_state r)
  (p_pid r) (p_parent r) (p_tf r) (p_context r) (p_chan r) (p_killed r)
  (p_ofile r) v (p_name r).
Definition set_p_name v r := Proc (p_sz r) (p_pgdir r) (p_kstack r) (p_state
  r) (p_pid r) (p_parent r) (p_tf r) (p_context r) (p_chan r) (p_killed r)
  (p_ofile r) (p_cwd r) v.

Definition NPROC : Z := 64.
Definition NOFILE : Z := 16.

Definition zero_proc : proc :=
  Proc 0 0 0 UNUSED 0 None (replicate 34 0) 0 None 0 (replicate 16 None) None
    (replicate 16 0).

Record base := Base {
  b_mach : mach;
  b_procs : list proc;           (* ptable.proc[NPROC] *)
  b_cur : option Z;              (* the variable proc *)
  b_init : option Z;             (* initproc *)
  b_nextpid : Z;
}.
Definition set_b_mach v r := Base v (b_procs r) (b_cur r) (b_init r)
  (b_nextpid r).
Definition set_b_procs v r := Base (b_mach r) v (b_cur r) (b_init r)
  (b_nextpid r).
Definition set_b_cur v r := Base (b_mach r) (b_procs r) v (b_init r)
  (b_nextpid r).
Definition set_b_init v r := Base (b_mach r) (b_procs r) (b_cur r) v
  (b_nextpid r).
Definition set_b_nextpid v r := Base (b_mach r) (b_procs r) (b_cur r) (b_init
  r) v.

#[export] Program Instance lens_base_mach : Lens base mach :=
  {| lget := b_mach; lset := set_b_mach |}.
Solve All Obligations with (by intros; repeat match goal with b : base |- _ => destruct b end).

Definition ptable_lock : objaddr := ("ptable", 0).

(** * Operations *)

Section ops.
Context {S : Type} `{LB : Lens S base}.

Definition bacquire (lk : objaddr) : M S unit := zoom (zoom (acquire lk) : M base unit).
Definition brelease (lk : objaddr) : M S unit := zoom (zoom (release lk) : M base unit).
Definition binitlock (lk : objaddr) : M S unit := zoom (zoom (initlock lk) : M base unit).
End ops.

(** The variable [proc]; using it when it is null is undefined. *)
Definition myproc : M base Z :=
  let* c := gets b_cur in must "proc is null" c.
Definition get_proc (i : Z) : M base proc :=
  let* l := gets b_procs in must "ptable.proc[i]" (znth l i).
Definition upd_proc (i : Z) (f : proc → proc) : M base unit :=
  let* p := get_proc i in
  modify (fun b => set_b_procs (zupd i (f p) (b_procs b)) b).

(** ** Switching address spaces ([vm.c]) *)

Definition KERNBASE : Z := 0xFFFFFFFF00000000.
Definition v2p (a : Z) : Z := u64 (a - KERNBASE).
Definition p2v (a : Z) : Z := u64 (a + KERNBASE).

Definition switchuvm (i : Z) : M base unit :=
  zoom pushcli ;;
  let* p := get_proc i in
  panic_if (p_pgdir p =? 0) "switchuvm: no pgdir" ;;
  modify (fun b => set_b_mach (set_ttbr0 (v2p (p_pgdir p)) (b_mach b)) b) ;;
  zoom popcli.

(** ** Giving up the CPU *)

(** The call [swtch(&proc->context, cpu->scheduler)]. *)
Definition swtch_to_scheduler {S} : M S unit := fun s => Swtch s (fun s' => Ok tt s').

Definition sched : M base unit :=
  let* h := zoom (holding ptable_lock) in
  panic_if (negb h) "sched ptable.lock" ;;
  let* n := gets (fun b => m_ncli (b_mach b)) in
  panic_if (negb (n =? 1)) "sched locks" ;;
  let* cur := myproc in
  let* p := get_proc cur in
  panic_if (bool_decide (p_state p = RUNNING)) "sched running" ;;
  let* e := zoom int_enabled in
  panic_if (ztrue e) "sched interruptible" ;;
  let* intena := gets (fun b => m_intena (b_mach b)) in
  swtch_to_scheduler ;;
  modify (fun b => set_b_mach (set_intena intena (b_mach b)) b).

Definition yield : M base unit :=
  bacquire ptable_lock ;;
  let* cur := myproc in
  upd_proc cur (set_p_state RUNNABLE) ;;
  sched ;;
  brelease ptable_lock.

(** [sleep], over the operations that take and drop a lock. *)
Definition sleep_with (acq rel : objaddr → M base unit) (chan : objaddr) (lk : option objaddr) : M base unit :=
  let* c := gets b_cur in
  match c with
  | None => panic "sleep"
  | Some _ =>
    match lk with
    | None => panic "sleep without lk"
    | Some lk =>
      when (bool_decide (lk ≠ ptable_lock))
        (acq ptable_lock ;; rel lk) ;;
      let* cur := myproc in
      upd_proc cur (fun p => set_p_state SLEEPING (set_p_chan (Some chan) p)) ;;
      sched ;;
      let* cur := myproc in
      upd_proc cur (set_p_chan None) ;;
      when (bool_decide (lk ≠ ptable_lock))
        (rel ptable_lock ;; acq lk)
    end
  end.
Definition sleep : objaddr → option objaddr → M base unit := sleep_with bacquire brelease.

(** [p->state == SLEEPING && p->chan == chan] *)
Definition sleeps_on (chan : objaddr) (p : proc) : bool :=
  bool_decide (p_state p = SLEEPING ∧ p_chan p = Some chan).
Definition wake_one (chan : objaddr) (p : proc) : proc :=
  if sleeps_on chan p then set_p_state RUNNABLE p else p.

Definition wakeup1 (chan : objaddr) : M base unit :=
  modify (fun b => set_b_procs (wake_one chan <$> b_procs b) b).

Definition wakeup (chan : objaddr) : M base unit :=
  bacquire ptable_lock ;; wakeup1 chan ;; brelease ptable_lock.

Definition kill (pid : Z) : M base Z :=
  bacquire ptable_lock ;;
  let* r := for_to 0 NPROC (fun i =>
    let* p := get_proc i in
    if p_pid p =? pid then
      upd_proc i (set_p_killed 1) ;;
      when (bool_decide (p_state p = SLEEPING)) (upd_proc i (set_p_state RUNNABLE)) ;;
      brelease ptable_lock ;;
      ret (Some 0)
    else ret None) in
  match r with
  | Some v => ret v
  | None => brelease ptable_lock ;; ret (-1)
  end.

(** ** The scheduler

    A thread is what a process does from its suspension point on; it never
    returns (a process leaves the kernel for good only through [exit], whose
    [sched] is not resumed).  [visit] is one iteration of the inner loop of
    [scheduler], [scheduler_pass] one of the outer loop. *)

Section scheduler.
Context {S : Type} `{LB : Lens S base}.

Definition thread : Type := M S Empty_set.
Definition conf : Type := S * list thread.

Definition visit (i : Z) : M conf unit :=
  fun '(s, ths) =>
    match (let* p := get_proc i in
           if bool_decide (p_state p = RUNNABLE) then
             modify (set_b_cur (Some i)) ;;
             switchuvm i ;;
             upd_proc i (set_p_state RUNNING) ;;
             ret true
           else ret false) (lget s) with
    | Ok false b => Ok tt (lset b s, ths)
    | Ok true b =>
        let s1 := lset b s in
        match znth ths i with
        | None => Undef "no thread" (s1, ths)
        | Some th =>
            match th s1 with
            | Ok e _ => match e with end
            | Swtch s2 k =>
                Ok tt (lset (set_b_cur None (lget s2)) s2, zupd i k ths)
            | Panic m s2 => Panic m (s2, ths)
            | Undef w s2 => Undef w (s2, ths)
            | Fuel s2 => Fuel (s2, ths)
            end
        end
    | Panic m b => Panic m (lset b s, ths)
    | Undef w b => Undef w (lset b s, ths)
    | Swtch b _ => Undef "scheduler" (lset b s, ths)
    | Fuel b => Fuel (lset b s, ths)
    end.

#[local] Instance lens_conf : Lens conf base.
Proof.
  refine {| lget := fun c => lget c.1; lset := fun b c => (lset b c.1, c.2) |}.
  - intros b [s t]; simpl. apply lget_lset.
  - intros [s t]; simpl. by rewrite lset_lget.
  - intros a b [s t]; simpl. by rewrite lset_lset.
Defined.

Definition scheduler_pass : M conf unit :=
  zoom (zoom sti : M base unit) ;;
  bacquire ptable_lock ;;
  for_all (Z.to_nat NPROC) 0 visit ;;
  brelease ptable_lock.
(** The first [n] rounds of [for(;;)]. *)
Fixpoint scheduler (n : nat) : M conf unit :=
  match n with O => ret tt | Datatypes.S n => scheduler_pass ;; scheduler n end.
End scheduler.

(** * Correctness *)

(** The current process runs with exactly the lock [lk] held. *)
Definition in_section (i : Z) (lk : objaddr) (b : base) : Prop :=
  b_cur b = Some i ∧ 0 ≤ i < zlen (b_procs b) ∧
  m_held (b_mach b) = {[lk]} ∧ m_ncli (b_mach b) = 1 ∧
  irq_enabled (b_mach b) = false.

Lemma bacquire_ok {S} `{Lens S base} lk (s : S) :
  cli_wf (b_mach (lget s)) →
  bacquire lk s = Ok tt (lset (set_b_mach (locked lk (b_mach (lget s))) (lget s)) s).
Proof.
  intros Hwf. unfold bacquire. apply (zoom_ok (A:=base)).
  unfold zoom; simpl. by rewrite acquire_ok.
Qed.

Lemma brelease_base lk (b : base) :
  brelease lk b = match release lk (b_mach b) with
                  | Ok _ m => Ok tt (set_b_mach m b)
                  | Panic w m => Panic w (set_b_mach m b)
                  | Undef w m => Undef w (set_b_mach m b)
                  | Swtch m k => brelease lk b
                  | Fuel m => Fuel (set_b_mach m b)
                  end.
Proof.
  unfold brelease, zoom; simpl. destruct (release lk (b_mach b)) as [[]| | | |]; done.
Qed.

Lemma wakeup_ok chan b :
  cli_wf (b_mach b) → ptable_lock ∉ m_held (b_mach b) →
  wakeup chan b =
    Ok tt (set_b_mach (saved (b_mach b)) (set_b_procs (wake_one chan <$> b_procs b) b)).
Proof.
  intros Hwf Hl. unfold wakeup. erewrite bind_ok by (by apply (bacquire_ok (S:=base))).
  unfold wakeup1. run. rewrite brelease_base. simpl.
  by rewrite release_locked.
Qed.

(** [wakeup(chan)] makes exactly the processes sleeping on [chan] runnable,
    changes no other process and leaves the lock and interrupt state as found. *)
Theorem wakeup_spec chan b :
  cli_wf (b_mach b) → ptable_lock ∉ m_held (b_mach b) →
  ∃ b', wakeup chan b = Ok tt b' ∧
    (∀ i p, znth (b_procs b) i = Some p →
       znth (b_procs b') i =
         Some (if sleeps_on chan p then set_p_state RUNNABLE p else p)) ∧
    m_held (b_mach b') = m_held (b_mach b) ∧ m_daif (b_mach b') = m_daif (b_mach b) ∧
    m_ncli (b_mach b') = m_ncli (b_mach b) ∧ b_cur b' = b_cur b.
Proof.
  intros Hwf Hl. eexists. split; [by apply wakeup_ok|]. simpl.
  split; [|unfold saved; by destruct (_ =? 0)].
  intros i p. unfold znth. destruct (0 <=? i); [|done].
  intros Hp. by rewrite list_lookup_fmap, Hp.
Qed.

Definition demo_sleeper (c : objaddr) : proc :=
  set_p_state SLEEPING (set_p_chan (Some c) zero_proc).
Definition demo_base (l : list proc) : base :=
  Base (Mach 0 0 0 ∅ 0) l (Some 0) (Some 0) 5.
Lemma wakeup_spec_witness :
  ∃ b', wakeup ("log", 0) (demo_base [zero_proc; demo_sleeper ("log", 0)]) = Ok tt b' ∧
    p_state <$> znth (b_procs b') 1 = Some RUNNABLE.
Proof.
  destruct (wakeup_spec ("log", 0) (demo_base [zero_proc; demo_sleeper ("log", 0)]))
    as (b' & Hw & Hp & _); [done|set_solver|].
  exists b'. split; [exact Hw|]. by rewrite (Hp 1 _ eq_refl).
Defined.

(** ** Sleep releases its lock atomically *)

Lemma get_proc_ok i p (b : base) : znth (b_procs b) i = Some p → get_proc i b = Ok p b.
Proof. intros H. unfold get_proc. run. by rewrite H. Qed.

Lemma upd_proc_ok i p f (b : base) :
  znth (b_procs b) i = Some p →
  upd_proc i f b = Ok tt (set_b_procs (zupd i (f p) (b_procs b)) b).
Proof. intros H. unfold upd_proc. step (get_proc_ok _ _ _ H). done. Qed.

Lemma sched_ok i p b :
  b_cur b = Some i → znth (b_procs b) i = Some p → p_state p ≠ RUNNING →
  ptable_lock ∈ m_held (b_mach b) → m_ncli (b_mach b) = 1 →
  irq_enabled (b_mach b) = false →
  sched b = Swtch b (fun b' =>
    Ok tt (set_b_mach (set_intena (m_intena (b_mach b)) (b_mach b')) b')).
Proof.
  intros Hc Hp Hs Hl Hn Hi. unfold sched, holding, myproc, int_enabled.
  run. rewrite bool_decide_true by done. simpl. rewrite Hn. simpl.
  rewrite Hc. simpl. unfold get_proc. run. rewrite Hp. simpl.
  rewrite bool_decide_false by done. simpl. rewrite Hi. simpl. by destruct b.
Qed.

(** The states in which the scheduler resumes process [i]: it switched to it
    with [ptable.lock] held. *)
Definition resumed (i : Z) (b : base) : Prop := in_section i ptable_lock b.

(** What sleeping looks like from outside. *)
Definition asleep (i : Z) (chan : objaddr) (b : base) : Prop :=
  ∃ p, znth (b_procs b) i = Some p ∧ p_state p = SLEEPING ∧ p_chan p = Some chan.

Lemma in_section_wf i lk b : in_section i lk b → cli_wf (b_mach b).
Proof. intros (_ & _ & _ & Hn & Hi). split; [rewrite Hn; lia|done]. Qed.

(** Handing the critical section of [l1] over to [l2]. *)
Lemma acquire_release_switch l1 l2 m :
  m_held m = {[l1]} → m_ncli m = 1 → irq_enabled m = false → l1 ≠ l2 →
  release l1 (locked l2 m) = Ok tt (set_held {[l2]} m).
Proof.
  intros Hh Hn Hi Hne. unfold release, locked. run.
  change (set_held _ (set_held _ (pushed m)))
    with (set_held (({[l2]} ∪ m_held m) ∖ {[l1]}) (pushed m)).
  rewrite popcli_pushed by (split; [lia|done]). f_equal.
  rewrite Hh. replace (({[l2]} ∪ {[l1]}) ∖ {[l1]} : gset objaddr) with ({[l2]} : gset objaddr)
    by set_solver.
  unfold saved. by rewrite Hn.
Qed.

(** The suspension state of [sleep]: its lock is released and [ptable.lock] is
    held, and the process is SLEEPING on the channel. *)
Definition put_to_sleep (i : Z) (p : proc) (chan : objaddr) (b : base) : base :=
  set_b_procs (zupd i (set_p_state SLEEPING (set_p_chan (Some chan) p)) (b_procs b))
    (set_b_mach (set_held {[ptable_lock]} (b_mach b)) b).

(** The state after a sleeper that held [lk] has been resumed in [b]. *)
Definition awake (i : Z) (lk : objaddr) (b' : base) : Prop :=
  in_section i lk b' ∧ ∃ p, znth (b_procs b') i = Some p ∧ p_chan p = None.

Lemma myproc_ok i (b : base) : b_cur b = Some i → myproc b = Ok i b.
Proof. intros H. unfold myproc. run. by rewrite H. Qed.

(** After [sched] returns, a sleeper clears its channel and swaps the locks
    back. *)
Definition sleep_tail (lk : objaddr) : M base unit :=
  let* cur := myproc in
  upd_proc cur (set_p_chan None) ;;
  when (bool_decide (lk ≠ ptable_lock)) (brelease ptable_lock ;; bacquire lk).

Lemma sleep_tail_ok i lk b :
  resumed i b → lk ≠ ptable_lock → ∃ b', sleep_tail lk b = Ok tt b' ∧ awake i lk b'.
Proof.
  intros (Hc & Hi & Hh & Hn & Hirq) Hne. destruct (znth_is_Some _ _ Hi) as [p Hp].
  unfold sleep_tail. step (myproc_ok _ _ Hc). step (upd_proc_ok _ _ (set_p_chan None) _ Hp).
  rewrite (bool_decide_true _ Hne), when_true.
  destruct (release_last ptable_lock (b_mach b)) as (m' & Hr & Hn' & Hh'); [done..|].
  erewrite bind_ok by (rewrite brelease_base; simpl; by rewrite Hr).
  eexists. split; [apply (bacquire_ok (S:=base)); split; simpl; lia|].
  destruct (locked_section lk m') as (? & ? & ?); [done..|]. split.
  - repeat split; simpl; rewrite ?zlen_zupd; done || lia.
  - exists (set_p_chan None p). simpl. by rewrite znth_zupd.
Qed.

Lemma sleep_suspends i p chan lk b :
  in_section i lk b → lk ≠ ptable_lock → znth (b_procs b) i = Some p →
  ∃ k, sleep chan (Some lk) b = Swtch (put_to_sleep i p chan b) k ∧
    ∀ b1, resumed i b1 → ∃ b2, k b1 = Ok tt b2 ∧ awake i lk b2.
Proof.
  intros Hin Hne Hp. pose proof (in_section_wf _ _ _ Hin) as Hwf.
  destruct Hin as (Hc & Hi & Hh & Hn & Hirq). unfold sleep, sleep_with.
  erewrite bind_ok by done. rewrite Hc. rewrite (bool_decide_true _ Hne).
  erewrite bind_ok; [|rewrite when_true; erewrite bind_ok by (by apply (bacquire_ok (S:=base)));
    rewrite brelease_base; simpl; by rewrite acquire_release_switch].
  erewrite bind_ok by (by apply myproc_ok). erewrite bind_ok by (by apply upd_proc_ok).
  unfold bind at 1. erewrite sched_ok; simpl; try done;
    [|by rewrite znth_zupd|done].
  eexists. split; [done|]. intros b1 Hr.
  destruct (sleep_tail_ok i lk (set_b_mach
    (set_intena (m_intena (b_mach b)) (b_mach b1)) b1)) as (b2 & Hb2 & Ha);
    [exact Hr|done|]. exists b2. split; [|done]. rewrite <- Hb2.
  unfold sleep_tail. by rewrite (bool_decide_true _ Hne).
Qed.

(** Taking and dropping locks touches only the machine. *)
Lemma bacquire_frame lk b b' : bacquire lk b = Ok tt b' → ∃ m, b' = set_b_mach m b.
Proof.
  unfold bacquire. intros [H _]%zoom_Ok_inv. simpl in H.
  apply zoom_Ok_inv in H as [_ ->]. by eexists.
Qed.
Lemma brelease_frame lk b b' : brelease lk b = Ok tt b' → ∃ m, b' = set_b_mach m b.
Proof.
  unfold brelease. intros [H _]%zoom_Ok_inv. simpl in H.
  apply zoom_Ok_inv in H as [_ ->]. by eexists.
Qed.

Lemma wakeup_procs chan b b' :
  wakeup chan b = Ok tt b' → b_procs b' = wake_one chan <$> b_procs b.
Proof.
  unfold wakeup. intros ([] & b1 & [m1 ->]%bacquire_frame & H)%bind_Ok_inv.
  apply bind_Ok_inv in H as ([] & b2 & Hw & [m2 ->]%brelease_frame).
  unfold wakeup1, modify in Hw. by simplify_eq.
Qed.

(** *** Interrupts

    On one CPU what can come between two steps of a process is an interrupt, and it
    can come whenever the mask is open.  The lock operations open and close the
    mask: [release_irq] is a [release] after which an interrupt is pending, and
    [acquire_irq] an [acquire] before which one is; [irq] is what the handler does,
    such as a [wakeup]. *)
Definition interrupt (irq : M base unit) : M base unit :=
  let* e := zoom int_enabled in when (ztrue e) irq.
Definition acquire_irq (irq : M base unit) (lk : objaddr) : M base unit := interrupt irq ;; bacquire lk.
Definition release_irq (irq : M base unit) (lk : objaddr) : M base unit := brelease lk ;; interrupt irq.

Lemma interrupt_masked irq b : irq_enabled (b_mach b) = false → interrupt irq b = Ok tt b.
Proof. intros H. unfold interrupt. run. rewrite H. by destruct b. Qed.

(** Up to the switch [sleep] never opens the mask: it takes [ptable.lock] first. *)
Lemma sleep_irq_suspends irq i p chan lk b :
  in_section i lk b → lk ≠ ptable_lock → znth (b_procs b) i = Some p →
  ∃ k, sleep_with (acquire_irq irq) (release_irq irq) chan (Some lk) b = Swtch (put_to_sleep i p chan b) k.
Proof.
  intros Hin Hne Hp. pose proof (in_section_wf _ _ _ Hin) as Hwf.
  destruct Hin as (Hc & Hi & Hh & Hn & Hirq). unfold sleep_with.
  erewrite bind_ok by done. rewrite Hc, (bool_decide_true _ Hne).
  set (b1 := set_b_mach (set_held {[ptable_lock]} (b_mach b)) b).
  rewrite (bind_ok _ _ _ tt b1).
  2: { rewrite when_true. unfold acquire_irq, release_irq.
       rewrite (bind_ok _ _ _ tt (set_b_mach (locked ptable_lock (b_mach b)) b))
         by (rewrite (bind_ok _ _ _ tt b) by (by apply interrupt_masked); exact (bacquire_ok (S:=base) ptable_lock b Hwf)).
       rewrite (bind_ok _ _ _ tt b1); [by apply interrupt_masked|].
       rewrite brelease_base. simpl. by rewrite acquire_release_switch. }
  erewrite bind_ok by (by apply myproc_ok). erewrite bind_ok by (by apply upd_proc_ok).
  unfold bind at 1. erewrite sched_ok; simpl; try done; [|by rewrite znth_zupd|done].
  by eexists.
Qed.

(** C10: [sleep(chan, lk)] releases [lk] and goes to sleep without a window for a
    wakeup to slip through.  From the moment the caller holds [lk] up to the switch
    no interrupt is taken, whatever is pending: with any handler [irq] that runs
    whenever the lock operations leave interrupts unmasked, [sleep] suspends in the
    same state as without it.  In that state only the process and the locks have
    changed: [lk] is free, [ptable.lock] is held, and the process is SLEEPING on
    [chan].  A [wakeup(chan)] in any later state in which the process has not been
    touched makes it RUNNABLE; and when it is resumed it holds [lk] again and sleeps
    no more. *)
Theorem sleep_no_lost_wakeup irq i p chan lk b :
  in_section i lk b → lk ≠ ptable_lock → znth (b_procs b) i = Some p →
  let b1 := put_to_sleep i p chan b in
  (∃ k, sleep_with (acquire_irq irq) (release_irq irq) chan (Some lk) b = Swtch b1 k) ∧
  ∃ k, sleep chan (Some lk) b = Swtch b1 k ∧
    m_held (b_mach b1) = {[ptable_lock]} ∧ irq_enabled (b_mach b1) = false ∧ asleep i chan b1 ∧
    (∀ b2 b3, znth (b_procs b2) i = znth (b_procs b1) i →
       wakeup chan b2 = Ok tt b3 → p_state <$> znth (b_procs b3) i = Some RUNNABLE) ∧
    (∀ b2, resumed i b2 → ∃ b3, k b2 = Ok tt b3 ∧ awake i lk b3).
Proof.
  intros Hin Hne Hp b1. pose proof (znth_Some _ _ _ Hp) as Hlt. split; [by apply sleep_irq_suspends|].
  destruct (sleep_suspends i p chan lk b Hin Hne Hp) as (k & Hs & Hk).
  exists k. split; [done|]. split; [done|]. split; [by destruct Hin as (_ & _ & _ & _ & Hirq)|].
  assert (Hz : znth (b_procs b1) i =
    Some (set_p_state SLEEPING (set_p_chan (Some chan) p))) by (by apply znth_zupd).
  split; [by eexists|]. split; [|done]. intros b2 b3 Heq Hw.
  rewrite (wakeup_procs _ _ _ Hw). rewrite Hz in Heq. unfold znth in *.
  destruct (0 <=? i); [|done]. rewrite list_lookup_fmap, Heq. simpl.
  unfold wake_one, sleeps_on. by rewrite bool_decide_true.
Qed.

Definition demo_running (lk : objaddr) : base :=
  Base (Mach 0x80 1 1 {[lk]} 0) [set_p_state RUNNING zero_proc] (Some 0) (Some 0) 5.
Lemma sleep_no_lost_wakeup_witness :
  ∃ b1 k k', sleep ("log", 0) (Some ("log.lock", 0)) (demo_running ("log.lock", 0)) = Swtch b1 k
    ∧ sleep_with (acquire_irq (wakeup ("log", 0))) (release_irq (wakeup ("log", 0))) ("log", 0) (Some ("log.lock", 0))
        (demo_running ("log.lock", 0)) = Swtch b1 k'
    ∧ asleep 0 ("log", 0) b1.
Proof.
  destruct (sleep_no_lost_wakeup (wakeup ("log", 0)) 0 (set_p_state RUNNING zero_proc) ("log", 0)
    ("log.lock", 0) (demo_running ("log.lock", 0))) as ((k' & H0) & k & H1 & _ & _ & H2 & _);
    [repeat split; vm_compute; done|done|reflexivity|].
  eexists _, k, k'. split; [exact H1|]. split; [exact H0|exact H2].
Defined.

(** ** kill *)

(** What [kill] does to the process it finds. *)
Definition kill_one (p : proc) : proc :=
  let p' := set_p_killed 1 p in
  if bool_decide (p_state p = SLEEPING) then set_p_state RUNNABLE p' else p'.

Lemma znth_Zof {A} (l : list A) n x : l !! n = Some x → znth l (Z.of_nat n) = Some x.
Proof. intros H. unfold znth. destruct (Z.leb_spec 0 (Z.of_nat n)); [|lia]. by rewrite Nat2Z.id. Qed.

Lemma brelease_ptable b :
  cli_wf (b_mach b) → ptable_lock ∉ m_held (b_mach b) → ∀ procs,
  brelease ptable_lock (set_b_procs procs (set_b_mach (locked ptable_lock (b_mach b)) b))
  = Ok tt (set_b_procs procs (set_b_mach (saved (b_mach b)) b)).
Proof. intros Hwf Hl procs. rewrite brelease_base. simpl. by rewrite release_locked. Qed.

(** [kill(pid)] marks the first process with that pid killed, wakes it if it
    sleeps, and returns 0; it returns -1 and changes no process when there is
    none. *)
Theorem kill_spec pid b :
  cli_wf (b_mach b) → ptable_lock ∉ m_held (b_mach b) → zlen (b_procs b) = NPROC →
  ∃ r b', kill pid b = Ok r b' ∧
    match list_find (λ p, p_pid p = pid) (b_procs b) with
    | Some (n, p) => r = 0 ∧ b_procs b' = <[n := kill_one p]> (b_procs b)
    | None => r = -1 ∧ b_procs b' = b_procs b
    end.
Proof.
  intros Hwf Hl Hlen. unfold kill. erewrite bind_ok by (by apply (bacquire_ok (S:=base))).
  simpl. set (b1 := set_b_mach _ b).
  destruct (list_find _ _) as [[n p]|] eqn:E.
  - apply list_find_Some in E as (Hn & Hpid & Hfirst).
    pose proof (lookup_lt_Some _ _ _ Hn) as Hlt.
    assert (Hz : znth (b_procs b) (Z.of_nat n) = Some p) by (by apply znth_Zof).
    eexists 0, _. split.
    + erewrite (bind_ok _ _ _ (Some 0)); [reflexivity|].
      apply (for_n_find _ _ _ (Z.of_nat n)).
      * unfold zlen, NPROC in *. lia.
      * intros i Hi. destruct (znth_is_Some (b_procs b) i) as [q Hq]; [unfold zlen in *; lia|].
        step (get_proc_ok i q b1 Hq). destruct (Z.eqb_spec (p_pid q) pid) as [He|]; [|done].
        unfold znth in Hq. destruct (0 <=? i); [|done].
        exfalso. apply (Hfirst _ _ Hq); [lia|done].
      * step (get_proc_ok _ p b1 Hz). rewrite Hpid, Z.eqb_refl.
        erewrite bind_ok by (by apply upd_proc_ok).
        assert (Hw : when (bool_decide (p_state p = SLEEPING))
            (upd_proc (Z.of_nat n) (set_p_state RUNNABLE))
            (set_b_procs (zupd (Z.of_nat n) (set_p_killed 1 p) (b_procs b1)) b1)
          = Ok tt (set_b_procs (zupd (Z.of_nat n) (kill_one p) (b_procs b)) b1)).
        { unfold kill_one. destruct (bool_decide _); [|done]. simpl.
          erewrite upd_proc_ok by (simpl; apply znth_zupd; unfold zlen in *; lia).
          simpl. by rewrite zupd_zupd. }
        step Hw. erewrite bind_ok by (by apply brelease_ptable). done.
    + simpl. split; [done|]. unfold zupd.
      destruct (Z.leb_spec 0 (Z.of_nat n)); [by rewrite Nat2Z.id|lia].
  - apply list_find_None in E. eexists (-1), _. split.
    + erewrite (bind_ok _ _ _ None).
      2: { apply for_n_none. intros i Hi.
        destruct (znth_is_Some (b_procs b) i) as [q Hq]; [unfold NPROC in *; lia|].
        step (get_proc_ok i q b1 Hq). destruct (Z.eqb_spec (p_pid q) pid) as [He|]; [|done].
        unfold znth in Hq. destruct (0 <=? i); [|done].
        rewrite Forall_lookup in E. by destruct (E _ _ Hq). }
      erewrite bind_ok by (by apply (brelease_ptable b Hwf Hl (b_procs b))). done.
    + done.
Qed.

Lemma kill_spec_witness :
  ∃ r b', kill 7 (demo_base (replicate 64 zero_proc)) = Ok r b' ∧ r = -1.
Proof.
  destruct (kill_spec 7 (demo_base (replicate 64 zero_proc))) as (r & b' & H & Hr);
    [done|set_solver|done|]. exists r, b'. split; [exact H|].
  by destruct Hr.
Defined.
