(* ===== verification/Scheduler.v ===== *)
(** The scheduler of [proc.c]: who has the CPU.

    Kernel code gives up the CPU in one place only, the call of [swtch] in [sched];
    [kernel_code] is the code built from calls of [sched] and of operations that do
    not switch.  The checks of [sched] and the scan of [scheduler] together keep at
    most one process RUNNING, and a pass of the scheduler serves every process that
    is ready. *)

From S2P Require Import Prelude Spin Sched.

(** * Code of the kernel *)

(** The process [i] has the CPU and no other process is RUNNING. *)
Definition only_running (i : Z) (b : base) : Prop :=
  ∀ j p, znth (b_procs b) j = Some p → p_state p = RUNNING → j = i.
Definition has_cpu (i : Z) (b : base) : Prop := b_cur b = Some i ∧ only_running i b.
(** The scheduler has the CPU, inside its critical section. *)
Definition quiescent (b : base) : Prop :=
  (∀ j p, znth (b_procs b) j = Some p → p_state p ≠ RUNNING) ∧
  ptable_lock ∈ m_held (b_mach b) ∧ m_ncli (b_mach b) = 1 ∧
  irq_enabled (b_mach b) = false.

Section code.
Context {S : Type} `{LB : Lens S base}.

(** An operation that does not switch, leaves the variable [proc] alone and makes no
    process RUNNING. *)
Definition steady {A} (op : M S A) : Prop := ∀ s,
  match op s with
  | Ok _ s' => b_cur (lget s') = b_cur (lget s) ∧
      ∀ j p', znth (b_procs (lget s')) j = Some p' → p_state p' = RUNNING →
        ∃ p, znth (b_procs (lget s)) j = Some p ∧ p_state p = RUNNING
  | Swtch _ _ => False
  | _ => True
  end.
Inductive kernel_code : ∀ {A}, M S A → Prop :=
| kc_steady {A} (op : M S A) : steady op → kernel_code op
| kc_sched : kernel_code (zoom sched)
| kc_bind {A B} (m : M S A) (f : A → M S B) : kernel_code m → (∀ a, kernel_code (f a)) → kernel_code (bind m f)
| kc_ext {A} (m m' : M S A) : (∀ s, m' s = m s) → kernel_code m → kernel_code m'.

(** What such code can do from an outcome on: whenever it suspends no process is
    RUNNING and [ptable.lock] protects the switch; whenever it has the CPU no other
    process is RUNNING. *)
Inductive protocol {A} (i : Z) : res S A → Prop :=
| pr_ok a s : has_cpu i (lget s) → protocol i (Ok a s)
| pr_panic m s : protocol i (Panic m s)
| pr_undef w s : protocol i (Undef w s)
| pr_fuel s : protocol i (Fuel s)
| pr_swtch s k :
    quiescent (lget s) →
    (∀ s', has_cpu i (lget s') → protocol i (k s')) →
    protocol i (Swtch s k).
End code.
#[export] Hint Constructors protocol : xv6.

Section protocol.
Context {S : Type} `{LB : Lens S base}.

Lemma protocol_bind {A B} i (m : M S A) (f : A → M S B) s :
  protocol i (m s) → (∀ a s, has_cpu i (lget s) → protocol i (f a s)) → protocol i (bind m f s).
Proof. intros Hm Hf. unfold bind. induction Hm; simpl; eauto with xv6. Qed.
Lemma protocol_steady {A} i (op : M S A) s : steady op → has_cpu i (lget s) → protocol i (op s).
Proof.
  intros Hq [Hc Ho]. specialize (Hq s). destruct (op s) as [a s'| | | |]; try done; try constructor.
  destruct Hq as [Hc' Hr]. split; [by rewrite Hc'|]. intros j p Hj Hp. destruct (Hr j p Hj Hp) as (q & Hq & Hqr). eauto.
Qed.
(** [sched]'s own checks establish the hand-over condition. *)
Lemma protocol_sched i (s : S) : has_cpu i (lget s) → protocol i ((zoom sched : M S unit) s).
Proof.
  intros [Hc Ho]. unfold zoom. set (b := lget s) in *. unfold sched, holding, myproc, get_proc, int_enabled. run.
  destruct (bool_decide (ptable_lock ∈ _)) eqn:Hl; simpl; [|constructor].
  destruct (Z.eqb_spec (m_ncli (b_mach b)) 1) as [Hn|]; simpl; [|constructor].
  rewrite Hc. simpl. destruct (znth (b_procs b) i) as [p|] eqn:Hp; simpl; [|constructor].
  destruct (bool_decide (p_state p = RUNNING)) eqn:Hr; simpl; [constructor|].
  destruct (irq_enabled (b_mach b)) eqn:Hi; simpl; [constructor|].
  apply pr_swtch.
  - rewrite lget_lset. apply bool_decide_eq_true in Hl. apply bool_decide_eq_false in Hr.
    repeat split; [|done..]. intros j q Hq Hrun. simpl in Hq. assert (j = i) as -> by eauto. congruence.
  - intros s' Hs'. apply pr_ok. by rewrite lget_lset.
Qed.
Lemma protocol_code {A} i (op : M S A) : kernel_code op → ∀ s, has_cpu i (lget s) → protocol i (op s).
Proof.
  induction 1; intros s Hs; [by apply protocol_steady|by apply protocol_sched|apply protocol_bind; eauto|].
  rename select (∀ s, _ = _) into E. rewrite E. auto.
Qed.
End protocol.

(** ** Operations of [proc.c] are kernel code *)

Section operations.
Lemma steady_mach {A} (op : M base A) : (∀ b, match op b with Ok _ b' => ∃ m, b' = set_b_mach m b | Swtch _ _ => False | _ => True end) → steady op.
Proof. intros H b. specialize (H b). destruct (op b); try done. destruct H as [m ->]. simpl. split; [done|]. eauto. Qed.
Lemma steady_bacquire lk : steady (bacquire lk : M base unit).
Proof. apply steady_mach. intros b. unfold bacquire, acquire, pushcli, int_enabled, cli. run. destruct (m_ncli _ =? 0); simpl; by eexists. Qed.
Lemma steady_brelease lk : steady (brelease lk : M base unit).
Proof.
  apply steady_mach. intros b. unfold brelease, release, popcli, int_enabled, sti. run.
  destruct (irq_enabled _); simpl; [done|]. destruct (s32 _ <? 0); simpl; [done|]. destruct (_ && _); simpl; by eexists.
Qed.
Lemma steady_same {A} (op : M base A) : (∀ b, match op b with Ok _ b' => b' = b | Swtch _ _ => False | _ => True end) → steady op.
Proof. intros H. apply steady_mach. intros b. specialize (H b). destruct (op b); try done. subst. exists (b_mach b). by destruct b. Qed.
Lemma steady_myproc : steady myproc.
Proof. apply steady_same. intros b. unfold myproc. run. by destruct (b_cur b). Qed.
(** A change of the table that makes no process RUNNING. *)
Lemma steady_upd j f : (∀ p, p_state (f p) = RUNNING → p_state p = RUNNING) → steady (upd_proc j f).
Proof.
  intros Hf b. unfold upd_proc, get_proc. run. destruct (znth (b_procs b) j) as [p|] eqn:E; simpl; [|done].
  split; [done|]. intros k q [[-> <-]|[_ Hk]]%znth_zupd_Some Hr; [exists p; auto|exists q; auto].
Qed.
Lemma steady_wakeup1 chan : steady (wakeup1 chan).
Proof.
  intros b. simpl. split; [done|]. intros j p Hj Hr. unfold znth in *. destruct (0 <=? j); [|done].
  rewrite list_lookup_fmap in Hj. apply fmap_Some in Hj as (q & Hq & ->). exists q. split; [done|].
  unfold wake_one in Hr. by destruct (sleeps_on chan q).
Qed.
Lemma code_sched : kernel_code (S:=base) sched.
Proof.
  apply (kc_ext (zoom sched)); [|apply kc_sched]. intros b. unfold zoom. change (lget b) with b. unfold sched, holding, myproc, get_proc, int_enabled. run.
  destruct (bool_decide (ptable_lock ∈ _)); simpl; [|by destruct b]. destruct (m_ncli (b_mach b) =? 1); simpl; [|by destruct b].
  destruct (b_cur b); simpl; [|by destruct b]. destruct (znth (b_procs b) _) as [p|]; simpl; [|by destruct b].
  destruct (bool_decide (p_state p = RUNNING)); simpl; [by destruct b|]. destruct (irq_enabled (b_mach b)); simpl; by destruct b.
Qed.
Lemma code_when (c : bool) (m : M base unit) : kernel_code m → kernel_code (when c m).
Proof. destruct c; [done|]. intros _. apply kc_steady, steady_same. done. Qed.
Lemma code_panic {A} msg : kernel_code (S:=base) (panic (A:=A) msg).
Proof. by apply kc_steady, steady_same. Qed.

Lemma code_sleep chan lk : kernel_code (sleep chan lk).
Proof.
  unfold sleep, sleep_with. apply kc_bind; [by apply kc_steady, steady_same|]. intros [c|]; [|apply code_panic].
  destruct lk as [lk|]; [|apply code_panic].
  apply kc_bind; [apply code_when, kc_bind; intros; apply kc_steady; [apply steady_bacquire|apply steady_brelease]|intros _].
  apply kc_bind; [apply kc_steady, steady_myproc|intros cur]. apply kc_bind; [by apply kc_steady, steady_upd|intros _].
  apply kc_bind; [apply code_sched|intros _]. apply kc_bind; [apply kc_steady, steady_myproc|intros cur'].
  apply kc_bind; [by apply kc_steady, steady_upd|intros _].
  apply code_when, kc_bind; intros; apply kc_steady; [apply steady_brelease|apply steady_bacquire].
Qed.
Lemma code_yield : kernel_code yield.
Proof.
  unfold yield. apply kc_bind; [apply kc_steady, steady_bacquire|intros _]. apply kc_bind; [apply kc_steady, steady_myproc|intros cur].
  apply kc_bind; [by apply kc_steady, steady_upd|intros _]. apply kc_bind; [apply code_sched|intros _]. apply kc_steady, steady_brelease.
Qed.
Lemma code_wakeup chan : kernel_code (wakeup chan).
Proof.
  unfold wakeup. apply kc_bind; [apply kc_steady, steady_bacquire|intros _].
  apply kc_bind; [apply kc_steady, steady_wakeup1|intros _]. apply kc_steady, steady_brelease.
Qed.
End operations.

(** * One round of the scan *)

(** Leaving the outermost critical section. *)
Lemma release_depth lk m : m_ncli m = 1 → irq_enabled m = false → ∃ m', release lk m = Ok tt m' ∧ m_ncli m' = 0 ∧ cli_wf m'.
Proof.
  intros Hn Hi. unfold release, popcli, int_enabled, sti. run.
  change (irq_enabled (set_held _ m)) with (irq_enabled m). rewrite Hi. simpl. rewrite Hn. change (s32 (1 - 1)) with 0. simpl.
  destruct (ztrue _); eexists; (split; [done|]); (split; [done|]); (split; simpl; [lia|intros ?; lia]).
Qed.

Section visit.
Context {S : Type} `{LB : Lens S base}.

(** [b2] is [b] after the scheduler gave the CPU to process [i], which was [p]. *)
Record given_cpu (i : Z) (p : proc) (b b2 : base) : Prop := {
  gc_cur : b_cur b2 = Some i;
  gc_procs : b_procs b2 = zupd i (set_p_state RUNNING p) (b_procs b);
  gc_only : ∀ j q, znth (b_procs b2) j = Some q → p_state q = RUNNING ↔ j = i;
  gc_ttbr : m_ttbr0 (b_mach b2) = v2p (p_pgdir p);
  gc_held : m_held (b_mach b2) = m_held (b_mach b);
  gc_depth : m_ncli (b_mach b2) = 1;
  gc_masked : irq_enabled (b_mach b2) = false;
}.

Lemma popcli_inner m : m_ncli m = 2 → irq_enabled m = false → popcli m = Ok tt (set_ncli 1 m).
Proof. intros Hn Hi. unfold popcli, int_enabled. run. rewrite Hi. simpl. by rewrite Hn. Qed.
Lemma switchuvm_ok i p b : znth (b_procs b) i = Some p → p_pgdir p ≠ 0 → m_ncli (b_mach b) = 1 → irq_enabled (b_mach b) = false →
  ∃ m, switchuvm i b = Ok tt (set_b_mach m b) ∧ m_held m = m_held (b_mach b) ∧ m_ncli m = 1 ∧ irq_enabled m = false ∧ m_ttbr0 m = v2p (p_pgdir p).
Proof.
  intros Hp Hpg Hn Hi. unfold switchuvm. assert (Hwf : cli_wf (b_mach b)) by (split; [lia|done]).
  rewrite (bind_ok _ _ _ _ _ (zoom_ok _ b _ _ (pushcli_ok _ Hwf))). unfold get_proc. run. rewrite Hp. simpl.
  destruct (Z.eqb_spec (p_pgdir p) 0); [done|]. simpl. rewrite popcli_inner; [|simpl; by rewrite Hn|apply (pushed_masked (b_mach b))].
  eexists. split; [done|]. simpl. split; [done|]. split; [done|]. split; [apply (pushed_masked (b_mach b))|done].
Qed.

Lemma visit_skip i (s : S) ths p : znth (b_procs (lget s)) i = Some p → p_state p ≠ RUNNABLE → visit i (s, ths) = Ok tt (s, ths).
Proof.
  intros Hp Hs. unfold visit, get_proc. run. rewrite Hp. simpl. rewrite bool_decide_false by done. simpl. by rewrite lset_lget.
Qed.
(** A RUNNABLE process is given the CPU; what happens then is up to its thread. *)
Lemma visit_run i (s : S) ths p th : quiescent (lget s) → znth (b_procs (lget s)) i = Some p → p_state p = RUNNABLE → p_pgdir p ≠ 0 → znth ths i = Some th →
  ∃ s2, given_cpu i p (lget s) (lget s2) ∧
    visit i (s, ths) = match th s2 with
      | Ok e _ => match e with end
      | Swtch s3 k => Ok tt (lset (set_b_cur None (lget s3)) s3, zupd i k ths)
      | Panic m s3 => Panic m (s3, ths)
      | Undef w s3 => Undef w (s3, ths)
      | Fuel s3 => Fuel (s3, ths)
      end.
Proof.
  intros (Hnone & Hl & Hn & Hi) Hp Hs Hpg Hth. pose proof (znth_Some _ _ _ Hp) as Hir.
  destruct (switchuvm_ok i p (set_b_cur (Some i) (lget s)) Hp Hpg Hn Hi) as (m & Rm & Hm1 & Hm2 & Hm3 & Hm4).
  set (b1 := set_b_procs (zupd i (set_p_state RUNNING p) (b_procs (lget s))) (set_b_mach m (set_b_cur (Some i) (lget s)))).
  exists (lset b1 s). rewrite lget_lset. split.
  - split; try done. intros j q [[-> <-]|[Hne Hj]]%znth_zupd_Some; [done|]. split; [intros Hr; by destruct (Hnone j q Hj)|congruence].
  - unfold visit. rewrite (bind_ok _ _ _ p (lget s)) by (unfold get_proc; run; by rewrite Hp). rewrite bool_decide_true by done.
    rewrite (bind_ok _ _ _ tt (set_b_cur (Some i) (lget s))) by done. rewrite (bind_ok _ _ _ _ _ Rm).
    rewrite (bind_ok _ _ _ tt b1); [cbn [ret]; by rewrite Hth|]. unfold upd_proc, get_proc. run. by rewrite Hp.
Qed.
Lemma given_has_cpu i p b b2 : given_cpu i p b b2 → has_cpu i b2.
Proof. intros [H1 _ H3 _ _ _ _]. split; [done|]. intros j q Hj Hr. by apply (H3 j q). Qed.
End visit.

(** * Mutual exclusion *)

Section mutual_exclusion.
Context {S : Type} `{LB : Lens S base}.
#[local] Existing Instance lens_conf.

Definition in_scheduler (c : conf (S:=S)) : Prop :=
  quiescent (lget c.1) ∧ ∀ j th, znth c.2 j = Some th → ∀ s, has_cpu j (lget s) → protocol j (th s).
(** Between two passes the scheduler holds no lock. *)
Definition between (b : base) : Prop :=
  (∀ j p, znth (b_procs b) j = Some p → p_state p ≠ RUNNING) ∧ m_ncli (b_mach b) = 0.
(** The scheduler about to look at slot [i] in its round [n]. *)
Definition at_slot (n i : nat) : M (conf (S:=S)) unit :=
  scheduler n ;; zoom (zoom sti : M base unit) ;; bacquire ptable_lock ;; for_all i 0 visit.

Lemma switchuvm_frame i b b' :
  switchuvm i b = Ok tt b' → b_procs b' = b_procs b ∧ b_cur b' = b_cur b.
Proof.
  unfold switchuvm. intros H.
  apply bind_Ok_inv in H as ([] & b1 & [_ ->]%zoom_Ok_inv & H). inv_ok.
  unfold get_proc in *. inv_ok. apply zoom_Ok_inv in H as [_ ->]. done.
Qed.
Lemma visit_in_scheduler i c c' :
  in_scheduler c → visit i c = Ok tt c' → in_scheduler c'.
Proof.
  destruct c as [s ths]. intros [Hq Hth]. unfold visit. simpl in Hq.
  destruct ((let* p := get_proc i in _) (lget s)) as [[] b| | | |] eqn:Hpre; try done.
  - destruct (znth ths i) as [th|] eqn:Hti; [|done].
    assert (Hcpu : has_cpu i (lget (lset b s))).
    { rewrite lget_lset. unfold get_proc in Hpre. inv_ok.
      rename select (proc) into p. destruct (bool_decide (p_state p = RUNNABLE)); inv_ok.
      repeat match goal with u : unit |- _ => destruct u end.
      rename select (switchuvm _ _ = _) into Hsw. rename select (upd_proc _ _ _ = _) into Hup.
      destruct (switchuvm_frame i _ _ Hsw) as [Hpr Hc].
      unfold upd_proc, get_proc in Hup. inv_ok. split; [done|].
      intros j q Hj Hr. simpl in Hj. rewrite Hpr in Hj.
      apply znth_zupd_Some in Hj as [[-> _]|[_ Hj]]; [done|].
      destruct Hq as [Hnone _]. by destruct (Hnone j q Hj). }
    pose proof (Hth _ _ Hti _ Hcpu) as Hprot.
    destruct (th (lset b s)) as [[]| | |s2 k|]; try done.
    inversion Hprot as [| | | |s2' k' Hq2 Hk]; subst. intros [=<-]. split; simpl.
    + by rewrite lget_lset.
    + intros j th' Hj. apply znth_zupd_Some in Hj as [[-> <-]|[_ Hj]]; [done|]. by apply Hth.
  - intros [=<-]. split; simpl; [|done]. rewrite lget_lset.
    unfold get_proc in Hpre. inv_ok. destruct (bool_decide _); inv_ok; done.
Qed.
Lemma visits_in_scheduler n : ∀ lo c c', in_scheduler c → for_all n lo visit c = Ok tt c' → in_scheduler c'.
Proof.
  induction n as [|n IH]; simpl; intros lo c c' Hc H; [by inv_ok|].
  apply bind_Ok_inv in H as ([] & c1 & H1 & H2). eapply IH, H2. by eapply visit_in_scheduler.
Qed.

(** Entering and leaving the critical section of a pass. *)
Definition resting (c : conf (S:=S)) : Prop :=
  between (lget c.1) ∧ ∀ j th, znth c.2 j = Some th → ∀ s, has_cpu j (lget s) → protocol j (th s).
Lemma enter_pass c : between (lget c.1) →
  ∃ m, (zoom (zoom sti : M base unit) : M conf unit) c = Ok tt (lset (set_b_mach m (lget c.1)) c.1, c.2) ∧
    bacquire ptable_lock (lset (set_b_mach m (lget c.1)) c.1, c.2) = Ok tt (lset (set_b_mach (locked ptable_lock m) (lget c.1)) c.1, c.2) ∧
    m_ncli m = 0 ∧ quiescent (set_b_mach (locked ptable_lock m) (lget c.1)).
Proof.
  intros [Hnone H0]. destruct c as [s ths]. cbn [fst snd] in *.
  eexists. split; [reflexivity|]. cbn [lget lset lens_base_mach]. rewrite ?lset_lset, ?lget_lset.
  set (m := set_daif _ _). assert (Hn : m_ncli m = 0) by exact H0. assert (Hwf : cli_wf m) by (split; rewrite Hn; [done|lia]).
  split; [|split; [done|]].
  - pose proof (@bacquire_ok (conf (S:=S)) lens_conf ptable_lock (lset (set_b_mach m (lget s)) s, ths)) as R. simpl in R.
    rewrite lget_lset, lset_lset in R. by apply R.
  - split; [done|]. simpl. split; [set_solver|]. split; [change (m_ncli m + 1 = 1); by rewrite Hn|]. apply (pushed_masked m).
Qed.
Lemma leave_pass c c' : in_scheduler c → brelease ptable_lock c = Ok tt c' → resting c'.
Proof.
  intros [(Hnone & Hl & Hn & Hi) Hth]. unfold brelease, zoom. simpl.
  destruct (release_depth ptable_lock (b_mach (lget c.1)) Hn Hi) as (m & -> & Hm & _). simpl. intros [= <-]. split; simpl; [|done].
  rewrite lget_lset. done.
Qed.
Lemma pass_resting c c' : resting c → scheduler_pass c = Ok tt c' → resting c'.
Proof.
  intros [Hb Hth] H. destruct (enter_pass c Hb) as (m & R1 & R2 & _ & Hq). unfold scheduler_pass in H. rewrite (bind_ok _ _ _ _ _ R1), (bind_ok _ _ _ _ _ R2) in H.
  apply bind_Ok_inv in H as ([] & c1 & H1 & H2). apply (leave_pass c1); [|done]. eapply visits_in_scheduler, H1. split; [|done]. simpl. by rewrite lget_lset.
Qed.
Lemma rounds_resting n : ∀ c c', resting c → scheduler n c = Ok tt c' → resting c'.
Proof.
  induction n as [|n IH]; intros c c' Hc H; simpl in H; [by inv_ok|]. apply bind_Ok_inv in H as ([] & c1 & H1 & H2).
  eapply IH, H2. by eapply pass_resting.
Qed.
Lemma at_slot_in_scheduler n i c c' : resting c → at_slot n i c = Ok tt c' → in_scheduler c'.
Proof.
  intros Hc H. unfold at_slot in H. apply bind_Ok_inv in H as ([] & c1 & H1 & H). apply rounds_resting in H1 as [Hb Hth]; [|done].
  destruct (enter_pass c1 Hb) as (m & R1 & R2 & _ & Hq). rewrite (bind_ok _ _ _ _ _ R1), (bind_ok _ _ _ _ _ R2) in H.
  eapply visits_in_scheduler, H. split; [|done]. simpl. by rewrite lget_lset.
Qed.

(** C9: at most one process is RUNNING, the one with the CPU.  The threads of the
    processes are kernel code, which switches only in [sched]; the scheduler starts
    while no process is RUNNING.  Then at every point of every pass at which the
    scheduler looks at a slot, no process is RUNNING, [ptable.lock] is held and
    interrupts are masked; a slot that is not RUNNABLE is passed over; a RUNNABLE
    process is made RUNNING, the current process and the owner of the user page
    table, no other process is RUNNING when its thread goes on, and when the thread
    switches back no process is. *)
Theorem scheduler_mutual_exclusion n i s ths s1 ths1 :
  between (lget s) → (∀ j th, znth ths j = Some th → kernel_code th) → at_slot n i (s, ths) = Ok tt (s1, ths1) →
  quiescent (lget s1) ∧
  ∀ p th, znth (b_procs (lget s1)) (Z.of_nat i) = Some p → znth ths1 (Z.of_nat i) = Some th →
    (p_state p ≠ RUNNABLE → visit (Z.of_nat i) (s1, ths1) = Ok tt (s1, ths1)) ∧
    (p_state p = RUNNABLE → p_pgdir p ≠ 0 → ∃ s2, given_cpu (Z.of_nat i) p (lget s1) (lget s2) ∧
       match th s2 with
       | Swtch s3 k => quiescent (lget s3) ∧ visit (Z.of_nat i) (s1, ths1) = Ok tt (lset (set_b_cur None (lget s3)) s3, zupd (Z.of_nat i) k ths1)
       | Panic m s3 => visit (Z.of_nat i) (s1, ths1) = Panic m (s3, ths1)
       | Undef w s3 => visit (Z.of_nat i) (s1, ths1) = Undef w (s3, ths1)
       | Fuel s3 => visit (Z.of_nat i) (s1, ths1) = Fuel (s3, ths1)
       | Ok _ _ => False
       end).
Proof.
  intros Hb Hth H. apply at_slot_in_scheduler in H as [Hq Hpr]; [|split; [done|intros j th Hj; by apply protocol_code, (Hth j th)]].
  split; [done|]. intros p th Hp Ht. split; [by apply visit_skip|]. intros Hr Hpg.
  destruct (visit_run (Z.of_nat i) s1 ths1 p th Hq Hp Hr Hpg Ht) as (s2 & Hg & ->). exists s2. split; [done|].
  pose proof (Hpr _ _ Ht s2 (given_has_cpu _ _ _ _ Hg)) as Hprot. destruct (th s2) as [[]| | |s3 k|]; try done.
  by inversion Hprot.
Qed.
End mutual_exclusion.

(** ** Witness: processes that yield for ever *)

Fixpoint yielder (n : nat) : M base Empty_set :=
  match n with O => out_of_fuel | S n => yield ;; yielder n end.
Lemma code_yielder n : kernel_code (yielder n).
Proof. induction n as [|n IH]; simpl; [by apply kc_steady, steady_same|]. apply kc_bind; [apply code_yield|done]. Qed.
Definition first_run (n : nat) : M base Empty_set := brelease ptable_lock ;; yielder n.
Lemma code_first_run n : kernel_code (first_run n).
Proof. apply kc_bind; [apply kc_steady, steady_brelease|intros _; apply code_yielder]. Qed.
(** A table with two of them. *)
Definition demo_two : base :=
  Base (Mach 0 0 0 ∅ 0) (replicate 2 (set_p_pgdir 1 (set_p_state RUNNABLE zero_proc)) ++ replicate 62 zero_proc) None (Some 0) 5.
Definition demo_threads : list (M base Empty_set) := replicate 64 (first_run 3).
Lemma znth_replicate {A} n (x y : A) i : znth (replicate n x) i = Some y → y = x.
Proof. unfold znth. destruct (0 <=? i); [|done]. by intros [-> _]%lookup_replicate. Qed.
Lemma demo_two_procs j p : znth (b_procs demo_two) j = Some p → p_state p ≠ RUNNING ∧ (p_state p = RUNNABLE → p_pgdir p ≠ 0).
Proof.
  unfold znth. destruct (0 <=? j); [|done]. cbn [b_procs demo_two]. intros [Hj|[_ Hj]]%lookup_app_Some; apply lookup_replicate in Hj as [-> _]; done.
Qed.
Definition ready_proc (p : proc) : bool := bool_decide (p_state p = RUNNABLE) && negb (p_pgdir p =? 0).
Lemma scheduler_mutual_exclusion_witness : ∃ s1 ths1 p s2 s3 k,
  at_slot 1 1 (demo_two, demo_threads) = Ok tt (s1, ths1) ∧ given_cpu 1 p s1 s2 ∧
  visit 1 (s1, ths1) = Ok tt (set_b_cur None s3, zupd 1 k ths1) ∧ quiescent s3.
Proof.
  assert (Hok : match at_slot 1 1 (demo_two, demo_threads) with
    | Ok _ (s1, ths1) => match znth (b_procs s1) 1, znth ths1 1 with
        | Some p, Some _ => ready_proc p && is_ok (visit 1 (s1, ths1)) | _, _ => false end
    | _ => false end = true) by (vm_compute; reflexivity).
  destruct (at_slot 1 1 _) as [[] [s1 ths1]| | | |] eqn:E; try discriminate Hok.
  destruct (znth (b_procs s1) 1) as [p|] eqn:Hp; [|discriminate Hok]. destruct (znth ths1 1) as [th|] eqn:Et; [|discriminate Hok].
  apply andb_prop in Hok as [[Hr Hg]%andb_prop Hok]. apply bool_decide_eq_true in Hr. apply negb_true_iff, Z.eqb_neq in Hg.
  destruct (scheduler_mutual_exclusion 1 1 demo_two demo_threads s1 ths1) as (_ & H); [split; [|reflexivity]| |exact E|].
  - intros j q Hj. by apply (demo_two_procs j q).
  - intros j t ->%znth_replicate. apply code_first_run.
  - destruct (H p th Hp Et) as [_ Hrun]. destruct (Hrun Hr Hg) as (s2 & Hgc & Hm).
    destruct (th s2) as [[]|m s3|w s3|s3 k|s3]; try (change (Z.of_nat 1) with 1 in Hm; rewrite Hm in Hok; discriminate Hok).
    destruct Hm as [Hq Hv]. exists s1, ths1, p, s2, s3, k. split; [reflexivity|]. split; [exact Hgc|]. split; [exact Hv|exact Hq].
Defined.

(** * Every runnable process gets its turn *)

Section liveness.
Context {S : Type} `{LB : Lens S base}.
#[local] Existing Instance lens_conf.

(** Processes that are RUNNABLE have an address space. *)
Definition ready (b : base) : Prop :=
  zlen (b_procs b) = NPROC ∧ ∀ i p, znth (b_procs b) i = Some p → p_state p = RUNNABLE → p_pgdir p ≠ 0.
Definition runnable (b : base) (i : Z) : Prop := ∃ p, znth (b_procs b) i = Some p ∧ p_state p = RUNNABLE.
(** The scheduler just switched to process [i]. *)
Definition dispatched (i : Z) (b : base) : Prop :=
  ∃ b0 p, quiescent b0 ∧ ready b0 ∧ znth (b_procs b0) i = Some p ∧ p_state p = RUNNABLE ∧ given_cpu i p b0 b.
(** A thread that, given the CPU, gives it back and stops no other process from
    being runnable. *)
Definition takes_turn (i : Z) (th : thread (S:=S)) : Prop :=
  ∀ s, dispatched i (lget s) → ∃ s' k, th s = Swtch s' k ∧ ready (lget s') ∧
    ∀ j, j ≠ i → runnable (lget s) j → runnable (lget s') j.

(** A turn in the scan. *)
Lemma visit_turn i s ths th : quiescent (lget s) → ready (lget s) → runnable (lget s) i → znth ths i = Some th → kernel_code th → takes_turn i th →
  ∃ s1 s2 k, dispatched i (lget s1) ∧ th s1 = Swtch s2 k ∧ quiescent (lget s2) ∧ ready (lget s2) ∧
    (∀ j, j ≠ i → runnable (lget s) j → runnable (lget s2) j) ∧
    visit i (s, ths) = Ok tt (lset (set_b_cur None (lget s2)) s2, zupd i k ths).
Proof.
  intros Hq Hr (p & Hp & Hs) Hth Hk Hturn. destruct (visit_run i s ths p th Hq Hp Hs (proj2 Hr _ _ Hp Hs) Hth) as (s1 & Hg & Rv).
  assert (Hd : dispatched i (lget s1)) by (by exists (lget s), p).
  destruct (Hturn s1 Hd) as (s2 & k & R & Hr2 & Hkeep). rewrite R in Rv. exists s1, s2, k. do 2 (split; [done|]).
  pose proof (protocol_code i th Hk s1 (given_has_cpu _ _ _ _ Hg)) as Hprot. rewrite R in Hprot. inversion Hprot; subst.
  do 2 (split; [done|]). split; [|done]. intros j Hj (q & Hqj & Hqs). apply Hkeep; [done|]. exists q. split; [|done].
  rewrite (gc_procs _ _ _ _ Hg). by rewrite znth_zupd_ne.
Qed.

Lemma visits_turn m : ∀ lo s ths, lo + Z.of_nat m = NPROC → 0 ≤ lo → quiescent (lget s) → ready (lget s) → zlen ths = NPROC →
  (∀ j th, lo ≤ j → znth ths j = Some th → kernel_code th ∧ takes_turn j th) →
  ∃ s' ths', for_all m lo visit (s, ths) = Ok tt (s', ths') ∧ quiescent (lget s') ∧ ready (lget s') ∧
    (∀ j, j < lo → znth ths' j = znth ths j) ∧
    ∀ i th, lo ≤ i → runnable (lget s) i → znth ths i = Some th →
      ∃ s1 s2 k, dispatched i (lget s1) ∧ th s1 = Swtch s2 k ∧ znth ths' i = Some k.
Proof.
  induction m as [|m IH]; intros lo s ths Hlo H0 Hq Hr Hz Hturn.
  { exists s, ths. do 4 (split; [done|]). intros i th Hi _ Hth%znth_Some. lia. }
  cbn [for_all]. destruct (znth_is_Some (b_procs (lget s)) lo) as [p Hp]; [rewrite (proj1 Hr); lia|].
  destruct (znth_is_Some ths lo) as [th0 Hth0]; [lia|].
  destruct (decide (p_state p = RUNNABLE)) as [Hrun|Hrun].
  - destruct (Hturn lo th0 ltac:(lia) Hth0) as [Hk0 Ht0].
    destruct (visit_turn lo s ths th0 Hq Hr ltac:(by exists p) Hth0 Hk0 Ht0) as (s1 & s2 & k & Hd & R & Hq2 & Hr2 & Hkeep & Rv).
    rewrite (bind_ok _ _ _ _ _ Rv). set (s3 := lset (set_b_cur None (lget s2)) s2).
    assert (Hg : lget s3 = set_b_cur None (lget s2)) by apply lget_lset.
    destruct (IH (lo + 1) s3 (zupd lo k ths) ltac:(lia) ltac:(lia)) as (s' & ths' & R' & Hq' & Hr' & Hold & Hnew).
    { by rewrite Hg. }
    { by rewrite Hg. }
    { by rewrite zlen_zupd. }
    { intros j th Hj. rewrite znth_zupd_ne by lia. apply Hturn. lia. }
    exists s', ths'. do 3 (split; [done|]). split.
    + intros j Hj. rewrite Hold, znth_zupd_ne by lia. done.
    + intros i th Hi Hri Hth. destruct (decide (i = lo)) as [->|Hne].
      * replace th0 with th in R by congruence. exists s1, s2, k. split; [done|]. split; [done|]. rewrite Hold by lia. apply znth_zupd. by eapply znth_Some.
      * apply (Hnew i th); [lia| |by rewrite znth_zupd_ne by lia]. rewrite Hg. by apply (Hkeep i Hne Hri).
  - rewrite (bind_ok _ _ _ tt (s, ths)) by (by apply (visit_skip lo s ths p)).
    destruct (IH (lo + 1) s ths ltac:(lia) ltac:(lia) Hq Hr Hz) as (s' & ths' & R' & Hq' & Hr' & Hold & Hnew); [intros j th Hj; apply Hturn; lia|].
    exists s', ths'. do 3 (split; [done|]). split; [intros j Hj; apply Hold; lia|].
    intros i th Hi Hri Hth. destruct (decide (i = lo)) as [->|Hne]; [destruct Hri as (q & Hqi & Hqs); congruence|].
    apply (Hnew i th); [lia|done|done].
Qed.

(** C21: the scheduler is fair to processes that cooperate.  Nothing in the kernel
    takes the CPU away from a process ([yield] is called nowhere), so this assumes
    that every thread given the CPU gives it back through [sched] and leaves the
    other processes as runnable as they were.  Then a pass of the scheduler
    completes, and each process that was RUNNABLE at its beginning has held the CPU
    and run up to its next suspension. *)
Theorem scheduler_runs_all s ths : between (lget s) → ready (lget s) → zlen ths = NPROC →
  (∀ j th, znth ths j = Some th → kernel_code th ∧ takes_turn j th) →
  ∃ s' ths', scheduler_pass (s, ths) = Ok tt (s', ths') ∧ between (lget s') ∧ ready (lget s') ∧
    ∀ i th, runnable (lget s) i → znth ths i = Some th →
      ∃ s1 s2 k, dispatched i (lget s1) ∧ th s1 = Swtch s2 k ∧ znth ths' i = Some k.
Proof.
  intros Hb Hr Hz Hturn. destruct (enter_pass (s, ths) Hb) as (m & R1 & R2 & Hm & Hq). cbn [fst snd] in *.
  set (s0 := lset (set_b_mach (locked ptable_lock m) (lget s)) s) in *.
  assert (E0 : lget s0 = set_b_mach (locked ptable_lock m) (lget s)) by apply lget_lset.
  destruct (visits_turn (Z.to_nat NPROC) 0 s0 ths) as (s2 & ths2 & R & Hq2 & Hr2 & _ & Hran); [done|done|by rewrite E0|by rewrite E0|done|intros j th _; apply Hturn|].
  destruct (release_depth ptable_lock (b_mach (lget s2))) as (m' & Rm & Hm' & _); [apply Hq2..|].
  exists (lset (set_b_mach m' (lget s2)) s2), ths2. rewrite lget_lset. split; [|split; [|split; [done|]]].
  - unfold scheduler_pass. rewrite (bind_ok _ _ _ _ _ R1), (bind_ok _ _ _ _ _ R2). fold s0. rewrite (bind_ok _ _ _ _ _ R).
    unfold brelease, zoom. simpl. by rewrite Rm.
  - by destruct Hq2.
  - intros i th Hi Hth. apply Hran; [by apply znth_Some in Hth as [? _]|by rewrite E0|done].
Qed.
End liveness.

(** A process resumed in [sched] that yields again takes its turn. *)
Lemma first_run_turn i k : takes_turn i (first_run (S k)).
Proof.
  intros b (b0 & p & Hq0 & [Hz Hpg] & Hp & Hr & [Hc Hpr Ho _ Hh Hn Hi]). change (lget b) with b in *.
  destruct (release_depth ptable_lock (b_mach b) Hn Hi) as (m & Rm & Hm0 & Hwm). unfold first_run. cbn [yielder].
  rewrite (bind_ok _ _ _ tt (set_b_mach m b)) by (by rewrite brelease_base, Rm). set (b1 := set_b_mach m b).
  set (b2 := set_b_mach (locked ptable_lock m) b1). assert (Hir : 0 ≤ i < zlen (b_procs b0)) by (by eapply znth_Some).
  assert (Hpb : znth (b_procs b) i = Some (set_p_state RUNNING p)) by (rewrite Hpr; by apply znth_zupd).
  assert (R2 : bacquire ptable_lock b1 = Ok tt b2) by (exact (bacquire_ok (S:=base) ptable_lock b1 Hwm)).
  set (q := set_p_state RUNNABLE (set_p_state RUNNING p)). set (b3 := set_b_procs (zupd i q (b_procs b)) b2).
  assert (Hq3 : znth (b_procs b3) i = Some q) by (simpl; apply znth_zupd; rewrite Hpr, zlen_zupd; done).
  assert (R3 : ∃ kk, yield b1 = Swtch b3 kk).
  { unfold yield. rewrite (bind_ok _ _ _ _ _ R2). rewrite (bind_ok _ _ _ i b2) by (apply myproc_ok; done).
    rewrite (bind_ok _ _ _ tt b3) by (by apply (upd_proc_ok i (set_p_state RUNNING p))). unfold bind.
    rewrite (sched_ok i q b3); [by eexists|done|done|done|simpl; set_solver|simpl; by rewrite Hm0|apply (pushed_masked m)]. }
  destruct R3 as [kk R3]. exists b3, (fun s' => rbind (kk s') (fun _ => yielder k)). split.
  { unfold bind. by rewrite R3. }
  assert (E3 : b_procs b3 = zupd i q (b_procs b0)) by (simpl; by rewrite Hpr, zupd_zupd). change (lget b3) with b3. split.
  - split; [by rewrite E3, zlen_zupd|]. rewrite E3. intros j x [[-> <-]|[Hne Hj]]%znth_zupd_Some Hx; [exact (Hpg _ p Hp Hr)|by apply (Hpg j x)].
  - intros j Hj (x & Hx & Hs). exists x. split; [|done]. rewrite E3, znth_zupd_ne by done. rewrite Hpr, znth_zupd_ne in Hx by done. done.
Qed.
Lemma scheduler_runs_all_witness : ∃ s' ths', scheduler_pass (demo_two, demo_threads) = Ok tt (s', ths') ∧
  ∃ s1 s2 k, dispatched 1 s1 ∧ first_run 3 s1 = Swtch s2 k ∧ znth ths' 1 = Some k.
Proof.
  destruct (scheduler_runs_all (S:=base) demo_two demo_threads) as (s' & ths' & R & _ & _ & H).
  - split; [|reflexivity]. intros j p Hj. by apply (demo_two_procs j p).
  - split; [reflexivity|]. intros j p Hj. by apply (demo_two_procs j p).
  - reflexivity.
  - intros j th ->%znth_replicate. split; [apply code_first_run|apply first_run_turn].
  - exists s', ths'. split; [exact R|]. apply (H 1 (first_run 3)); [|reflexivity]. eexists. split; reflexivity.
Defined.
