(* ===== verification/Mem.v ===== *)
(** Byte-addressed memory, as the string library and the page-table code see
    it: a finite map from addresses to bytes, zero where nothing was stored. *)

From S2P Require Import Prelude.

Definition ld8 (m : gmap Z Z) (a : Z) : Z := u8 (default 0 (m !! a)).
Definition st8 (a v : Z) (m : gmap Z Z) : gmap Z Z := <[a := u8 v]> m.

(** Consecutive bytes: a multi-byte store is the bytes of the value, lowest
    first (the kernel runs little-endian). *)
Fixpoint st_bytes (a : Z) (l : list Z) (m : gmap Z Z) : gmap Z Z :=
  match l with [] => m | b :: l => st_bytes (a + 1) l (st8 a b m) end.
Fixpoint ld_bytes (n : nat) (a : Z) (m : gmap Z Z) : list Z :=
  match n with O => [] | S n => ld8 m a :: ld_bytes n (a + 1) m end.

Definition st32 (a v : Z) : gmap Z Z → gmap Z Z := st_bytes a (le_enc 4 v).
Definition st64 (a v : Z) : gmap Z Z → gmap Z Z := st_bytes a (le_enc 8 v).
Definition ld64 (m : gmap Z Z) (a : Z) : Z := le_dec (ld_bytes 8 a m).

Definition is_byte (z : Z) : Prop := 0 ≤ z < 256.

Lemma u8_byte z : is_byte (u8 z).
Proof. unfold u8, is_byte. by apply Z.mod_pos_bound. Qed.
Lemma u8_id z : is_byte z → u8 z = z.
Proof. apply Z.mod_small. Qed.
Lemma u8_u8 z : u8 (u8 z) = u8 z.
Proof. apply u8_id, u8_byte. Qed.

Lemma ld8_st8 a v m b : ld8 (st8 a v m) b = if a =? b then u8 v else ld8 m b.
Proof.
  unfold ld8, st8. destruct (Z.eqb_spec a b) as [->|].
  - by rewrite lookup_insert_eq; simpl; rewrite u8_u8.
  - by rewrite lookup_insert_ne.
Qed.

Lemma ld8_byte m a : is_byte (ld8 m a).
Proof. apply u8_byte. Qed.
Lemma u8_ld8 m a : u8 (ld8 m a) = ld8 m a.
Proof. apply u8_u8. Qed.

Lemma ld8_st_bytes a l m b :
  ld8 (st_bytes a l m) b =
    if (a <=? b) && (b <? a + zlen l) then u8 (default 0 (l !! Z.to_nat (b - a))) else ld8 m b.
Proof.
  revert a m. induction l as [|x l IH]; intros a m; simpl.
  - unfold zlen; simpl. destruct (Z.leb_spec a b), (Z.ltb_spec b (a + Z.of_nat 0)); lia || done.
  - rewrite IH, ld8_st8. unfold zlen; simpl length. destruct (Z.eqb_spec a b) as [->|Hne].
    + replace (b + 1 <=? b) with false by lia. simpl.
      replace ((b <=? b) && (b <? b + Z.of_nat (S (length l)))) with true by lia.
      by replace (Z.to_nat (b - b)) with O by lia.
    + replace ((a <=? b) && (b <? a + Z.of_nat (S (length l))))
        with ((a + 1 <=? b) && (b <? a + 1 + Z.of_nat (length l))) by lia.
      destruct ((a + 1 <=? b) && _) eqn:E; [|done].
      by replace (Z.to_nat (b - a)) with (S (Z.to_nat (b - (a + 1)))) by lia.
Qed.

Lemma ld_bytes_ext n a m m' :
  (∀ b, a ≤ b < a + Z.of_nat n → ld8 m b = ld8 m' b) → ld_bytes n a m = ld_bytes n a m'.
Proof.
  revert a. induction n as [|n IH]; intros a Hb; simpl; [done|].
  rewrite Hb by lia. f_equal. apply IH. intros b Hbb. apply Hb. lia.
Qed.

Lemma ld_bytes_st_bytes a l m :
  Forall is_byte l → ld_bytes (length l) a (st_bytes a l m) = l.
Proof.
  revert a m. induction l as [|x l IH]; intros a m Hl; simpl; [done|].
  inversion Hl as [|?? Hx Hl']; subst. rewrite IH by done. f_equal.
  rewrite ld8_st_bytes, ld8_st8. replace (a + 1 <=? a) with false by lia. simpl.
  rewrite Z.eqb_refl. by apply u8_id.
Qed.

Lemma le_enc_bytes n z : Forall is_byte (le_enc n z).
Proof.
  revert z. induction n as [|n IH]; intros z; simpl; constructor; [|done].
  by apply Z.mod_pos_bound.
Qed.

Lemma ld64_st64 a v m : ld64 (st64 a v m) a = u64 v.
Proof.
  unfold ld64, st64. pose proof (length_le_enc 8 v) as Hl.
  rewrite <- Hl at 1. rewrite ld_bytes_st_bytes by apply le_enc_bytes. apply le_dec_enc.
Qed.

Lemma ld64_st64_other a v m b :
  b + 8 ≤ a ∨ a + 8 ≤ b → ld64 (st64 a v m) b = ld64 m b.
Proof.
  intros Hd. unfold ld64, st64. f_equal. apply ld_bytes_ext. intros c Hc.
  rewrite ld8_st_bytes. unfold zlen. rewrite length_le_enc.
  by replace ((a <=? c) && (c <? a + Z.of_nat 8)) with false by lia.
Qed.

(** A byte outside a 64-bit store. *)
Lemma ld8_st64_out a v h b : b < a ∨ a + 8 ≤ b → ld8 (st64 a v h) b = ld8 h b.
Proof.
  intros Hb. unfold st64. rewrite ld8_st_bytes. unfold zlen. rewrite length_le_enc.
  destruct (Z.leb_spec a b), (Z.ltb_spec b (a + Z.of_nat 8)); (done || lia).
Qed.

(** ** C strings *)

(** The bytes of the string at [p], up to its NUL or [n] bytes. *)
Fixpoint cstr (n : nat) (m : gmap Z Z) (p : Z) : list Z :=
  match n with
  | O => []
  | S n => if ld8 m p =? 0 then [] else ld8 m p :: cstr n m (p + 1)
  end.

Lemma length_cstr n m p : (length (cstr n m p) ≤ n)%nat.
Proof. revert p. induction n as [|n IH]; intros p; simpl; [lia|]. case_match; simpl; [lia|]. specialize (IH (p + 1)). lia. Qed.
