(* ===== verification/Str.v ===== *)
(** [lib/string.c]: memory and string routines over byte memory. *)

From S2P Require Import Prelude Mem.

(** * Operations *)

(** [for (; n > 0 && p % 4; n--, p++) *p = c]; returns the rest. *)
Fixpoint memset_head (fuel : nat) (m : gmap Z Z) (p c n : Z) : gmap Z Z * Z * Z :=
  match fuel with
  | O => (m, p, n)
  | S f => if (0 <? n) && ztrue (p mod 4)
           then memset_head f (st8 p c m) (p + 1) c (n - 1) else (m, p, n)
  end.
(** [for (; n >= 4; n -= 4, p4++) *p4 = val] *)
Fixpoint memset_words (fuel : nat) (m : gmap Z Z) (p4 val n : Z) : gmap Z Z * Z * Z :=
  match fuel with
  | O => (m, p4, n)
  | S f => if 4 <=? n then memset_words f (st32 p4 val m) (p4 + 4) val (n - 4)
           else (m, p4, n)
  end.
(** [for (; n > 0; n--, p++) *p = c] *)
Fixpoint memset_tail (fuel : nat) (m : gmap Z Z) (p c n : Z) : gmap Z Z :=
  match fuel with
  | O => m
  | S f => if 0 <? n then memset_tail f (st8 p c m) (p + 1) c (n - 1) else m
  end.
Definition memset (m : gmap Z Z) (dst v n : Z) : gmap Z Z :=
  let fuel := Z.to_nat n in
  let c := Z.land v 0xff in
  let val := u32 (Z.lor (Z.lor (Z.lor (Z.shiftl c 24) (Z.shiftl c 16)) (Z.shiftl c 8)) c) in
  let '(m, p, n) := memset_head fuel m dst c n in
  let '(m, p4, n) := memset_words fuel m p val n in
  memset_tail fuel m p4 c n.

Fixpoint memcmp (n : nat) (m : gmap Z Z) (s1 s2 : Z) : Z :=
  match n with
  | O => 0
  | S n => if negb (ld8 m s1 =? ld8 m s2) then ld8 m s1 - ld8 m s2
           else memcmp n m (s1 + 1) (s2 + 1)
  end.

(** [while (n-- > 0) *--d = *--s], with [s] and [d] past the end *)
Fixpoint move_down (n : nat) (m : gmap Z Z) (d s : Z) : gmap Z Z :=
  match n with
  | O => m
  | S n => move_down n (st8 (d - 1) (ld8 m (s - 1)) m) (d - 1) (s - 1)
  end.
(** [while (n-- > 0) *d++ = *s++] *)
Fixpoint move_up (n : nat) (m : gmap Z Z) (d s : Z) : gmap Z Z :=
  match n with
  | O => m
  | S n => move_up n (st8 d (ld8 m s) m) (d + 1) (s + 1)
  end.
Definition memmove (m : gmap Z Z) (dst src n : Z) : gmap Z Z :=
  if (src <? dst) && (dst <? src + n)
  then move_down (Z.to_nat n) m (dst + n) (src + n)
  else move_up (Z.to_nat n) m dst src.
Definition memcpy := memmove.

Fixpoint strncmp (n : nat) (m : gmap Z Z) (p q : Z) : Z :=
  match n with
  | O => 0
  | S n' => if ztrue (ld8 m p) && (ld8 m p =? ld8 m q)
            then strncmp n' m (p + 1) (q + 1) else ld8 m p - ld8 m q
  end.

(** [while (n-- > 0) *s++ = 0] *)
Fixpoint pad_zero (n : nat) (m : gmap Z Z) (s : Z) : gmap Z Z :=
  match n with O => m | S n => pad_zero n (st8 s 0 m) (s + 1) end.
Fixpoint strncpy_loop (n : nat) (m : gmap Z Z) (s t : Z) : gmap Z Z :=
  match n with
  | O => m
  | S n => let m' := st8 s (ld8 m t) m in
           if ld8 m t =? 0 then pad_zero n m' (s + 1)
           else strncpy_loop n m' (s + 1) (t + 1)
  end.
Definition strncpy (m : gmap Z Z) (s t n : Z) : gmap Z Z :=
  strncpy_loop (Z.to_nat n) m s t.

(** [while (--n > 0 && ( *s++ = *t++ ) != 0) ; *s = 0] with [n - 1 = k] *)
Fixpoint safestrcpy_loop (k : nat) (m : gmap Z Z) (s t : Z) : gmap Z Z :=
  match k with
  | O => st8 s 0 m
  | S k => let m' := st8 s (ld8 m t) m in
           if ld8 m t =? 0 then st8 (s + 1) 0 m'
           else safestrcpy_loop k m' (s + 1) (t + 1)
  end.
Definition safestrcpy (m : gmap Z Z) (s t n : Z) : gmap Z Z :=
  if n <=? 0 then m else safestrcpy_loop (Z.to_nat (n - 1)) m s t.

(** [for (n = 0; s[n]; n++) ;] *)
Fixpoint strlen (fuel : nat) (m : gmap Z Z) (s : Z) : option Z :=
  match fuel with
  | O => None
  | S f => if ld8 m s =? 0 then Some 0 else Z.succ <$> strlen f m (s + 1)
  end.

(** * Correctness *)

Lemma memset_tail_spec fuel m p c n a :
  n ≤ Z.of_nat fuel →
  ld8 (memset_tail fuel m p c n) a =
    if (p <=? a) && (a <? p + n) then u8 c else ld8 m a.
Proof.
  revert m p n. induction fuel as [|f IH]; intros m p n Hf; simpl; [by zcase|].
  destruct (Z.ltb_spec 0 n); [rewrite IH, ld8_st8 by lia|]; by zcase.
Qed.

Lemma memset_head_spec fuel m p c n :
  ∃ m' k, memset_head fuel m p c n = (m', p + k, n - k) ∧ 0 ≤ k ≤ Z.max 0 n ∧
    ∀ a, ld8 m' a = if (p <=? a) && (a <? p + k) then u8 c else ld8 m a.
Proof.
  revert m p n. induction fuel as [|f IH]; intros m p n; simpl.
  { exists m, 0. split; [pair_lia|]. split; [lia|]. intros a. by zcase. }
  destruct ((0 <? n) && ztrue (p mod 4)) eqn:E.
  - destruct (IH (st8 p c m) (p + 1) (n - 1)) as (m' & k & -> & Hk & Hm).
    exists m', (k + 1). split; [pair_lia|]. split; [lia|]. intros a.
    rewrite Hm, ld8_st8. by zcase.
  - exists m, 0. split; [pair_lia|]. split; [lia|]. intros a. by zcase.
Qed.

(** Four equal bytes make the word [val]. *)
Lemma memset_val c : is_byte c →
  le_enc 4 (u32 (Z.lor (Z.lor (Z.lor (Z.shiftl c 24) (Z.shiftl c 16)) (Z.shiftl c 8)) c))
  = [c; c; c; c].
Proof.
  intros Hc. assert (Hall : Forall (λ c,
    le_enc 4 (u32 (Z.lor (Z.lor (Z.lor (Z.shiftl c 24) (Z.shiftl c 16)) (Z.shiftl c 8)) c))
    = [c; c; c; c]) (Z.of_nat <$> seq 0 256)).
  { apply (bool_decide_unpack _). by vm_compute. }
  rewrite Forall_forall in Hall. apply Hall. apply list_elem_of_fmap.
  exists (Z.to_nat c). unfold is_byte in Hc. rewrite elem_of_seq. lia.
Qed.

Lemma ld8_st32_val c a m b : is_byte c →
  ld8 (st32 a (u32 (Z.lor (Z.lor (Z.lor (Z.shiftl c 24) (Z.shiftl c 16)) (Z.shiftl c 8)) c)) m) b
  = if (a <=? b) && (b <? a + 4) then c else ld8 m b.
Proof.
  intros Hc. unfold st32. rewrite ld8_st_bytes, memset_val by done.
  unfold zlen; simpl length. destruct ((a <=? b) && _) eqn:E; [|done].
  assert (Hlt : (Z.to_nat (b - a) < 4)%nat) by lia.
  destruct (Z.to_nat (b - a)) as [|[|[|[|]]]]; simpl; rewrite ?u8_id by done; done || lia.
Qed.

Lemma memset_words_spec fuel m p c n :
  is_byte c → n ≤ Z.of_nat fuel →
  ∃ m' k,
    memset_words fuel m p
      (u32 (Z.lor (Z.lor (Z.lor (Z.shiftl c 24) (Z.shiftl c 16)) (Z.shiftl c 8)) c)) n
    = (m', p + k, n - k) ∧ 0 ≤ k ≤ Z.max 0 n ∧
    ∀ a, ld8 m' a = if (p <=? a) && (a <? p + k) then c else ld8 m a.
Proof.
  intros Hc. revert m p n. induction fuel as [|f IH]; intros m p n Hf; simpl.
  { exists m, 0. split; [pair_lia|]. split; [lia|]. intros a. by zcase. }
  destruct (Z.leb_spec 4 n).
  - destruct (IH (st32 p (u32 (Z.lor (Z.lor (Z.lor (Z.shiftl c 24) (Z.shiftl c 16))
      (Z.shiftl c 8)) c)) m) (p + 4) (n - 4)) as (m' & k & -> & Hk & Hm); [lia|].
    exists m', (k + 4). split; [pair_lia|]. split; [lia|]. intros a.
    rewrite Hm, ld8_st32_val by done. by zcase.
  - exists m, 0. split; [pair_lia|]. split; [lia|]. intros a. by zcase.
Qed.

Lemma ld8_memset m dst v n a :
  ld8 (memset m dst v n) a =
    if (dst <=? a) && (a <? dst + n) then u8 v else ld8 m a.
Proof.
  unfold memset. assert (Hv : Z.land v 0xff = u8 v) by (apply (Z.land_ones v 8); lia).
  rewrite Hv. pose proof (u8_byte v) as Hb.
  destruct (memset_head_spec (Z.to_nat n) m dst (u8 v) n) as (m1 & k1 & -> & Hk1 & Hm1).
  destruct (memset_words_spec (Z.to_nat n) m1 (dst + k1) (u8 v) (n - k1))
    as (m2 & k2 & -> & Hk2 & Hm2); [done|lia|].
  rewrite memset_tail_spec, Hm2, Hm1, !u8_u8 by lia.
  by zcase.
Qed.
(** The word-at-a-time [memset] writes the low byte of [v] to exactly the
    [n] bytes from [dst], for every alignment of [dst] and every [n], and no
    other byte. *)
Theorem memset_spec m dst v n a :
  ld8 (memset m dst v n) a =
    if (dst <=? a) && (a <? dst + n) then u8 v else ld8 m a.
Proof. apply ld8_memset. Qed.

Lemma move_up_spec n m d s a :
  d ≤ s ∨ s + Z.of_nat n ≤ d →
  ld8 (move_up n m d s) a =
    if (d <=? a) && (a <? d + Z.of_nat n) then ld8 m (s + (a - d)) else ld8 m a.
Proof.
  revert m d s. induction n as [|n IH]; intros m d s Hd; simpl; [by zcase|].
  rewrite IH, !ld8_st8, u8_ld8 by lia. zcase; done || (f_equal; lia).
Qed.

Lemma move_down_spec n m d s a :
  s ≤ d →
  ld8 (move_down n m d s) a =
    if (d - Z.of_nat n <=? a) && (a <? d) then ld8 m (s + (a - d)) else ld8 m a.
Proof.
  revert m d s. induction n as [|n IH]; intros m d s Hd; simpl; [by zcase|].
  rewrite IH, !ld8_st8, u8_ld8 by lia. zcase; done || (f_equal; lia).
Qed.

Lemma ld8_memmove m dst src n a :
  0 ≤ n →
  ld8 (memmove m dst src n) a =
    if (dst <=? a) && (a <? dst + n) then ld8 m (src + (a - dst)) else ld8 m a.
Proof.
  intros Hn. unfold memmove. destruct ((src <? dst) && (dst <? src + n)) eqn:E.
  - rewrite move_down_spec, Z2Nat.id by lia.
    replace (dst + n - n) with dst by lia. case_match; [f_equal; lia|done].
  - rewrite move_up_spec by lia. by rewrite Z2Nat.id by lia.
Qed.
(** [memmove] copies the [n] source bytes as they were before the call, for
    every overlap of source and destination, and changes nothing else. *)
Theorem memmove_spec m dst src n a :
  0 ≤ n →
  ld8 (memmove m dst src n) a =
    if (dst <=? a) && (a <? dst + n) then ld8 m (src + (a - dst)) else ld8 m a.
Proof. apply ld8_memmove. Qed.
Lemma memmove_spec_witness :
  ld8 (memmove (st_bytes 100 [1; 2; 3; 4] ∅) 101 100 3) 103 = 3.
Proof. rewrite (memmove_spec _ 101 100 3 103) by lia. reflexivity. Defined.

Lemma memcmp_0 n m s1 s2 :
  memcmp n m s1 s2 = 0 ↔ ld_bytes n s1 m = ld_bytes n s2 m.
Proof.
  revert s1 s2. induction n as [|n IH]; intros s1 s2; simpl; [done|].
  destruct (Z.eqb_spec (ld8 m s1) (ld8 m s2)) as [He|]; simpl.
  - rewrite IH, He. split; [by intros ->|naive_solver].
  - split; [lia|naive_solver].
Qed.

(** [memcmp] is 0 exactly when the two [n]-byte regions are equal; otherwise
    it is the difference of the first bytes that differ. *)
Theorem memcmp_spec n m s1 s2 :
  (memcmp n m s1 s2 = 0 ↔ ld_bytes n s1 m = ld_bytes n s2 m) ∧
  (∀ i, 0 ≤ i < Z.of_nat n → (∀ j, 0 ≤ j < i → ld8 m (s1 + j) = ld8 m (s2 + j)) →
     ld8 m (s1 + i) ≠ ld8 m (s2 + i) →
     memcmp n m s1 s2 = ld8 m (s1 + i) - ld8 m (s2 + i)).
Proof.
  split; [apply memcmp_0|]. revert s1 s2.
  induction n as [|n IH]; intros s1 s2 i Hi Hbefore Hne; [lia|]. simpl.
  destruct (decide (i = 0)) as [->|].
  - rewrite !Z.add_0_r in *. by destruct (Z.eqb_spec (ld8 m s1) (ld8 m s2)).
  - replace (ld8 m s1 =? ld8 m s2) with true.
    2: { pose proof (Hbefore 0). rewrite !Z.add_0_r in *. lia. }
    simpl. rewrite (IH _ _ (i - 1)); [f_equal; f_equal; lia|lia| |].
    + intros j Hj. replace (s1 + 1 + j) with (s1 + (j + 1)) by lia.
      replace (s2 + 1 + j) with (s2 + (j + 1)) by lia. apply Hbefore. lia.
    + by replace (s1 + 1 + (i - 1)) with (s1 + i) by lia;
        replace (s2 + 1 + (i - 1)) with (s2 + i) by lia.
Qed.

(** [strncmp] (and so [namecmp] of [fs.c]) is 0 exactly when the two strings
    agree up to their NUL or the first [n] bytes. *)
Lemma strncmp_iff n m p q :
  strncmp n m p q = 0 ↔ cstr n m p = cstr n m q.
Proof.
  revert p q. induction n as [|n IH]; intros p q; simpl; [done|]. unfold ztrue.
  destruct (Z.eqb_spec (ld8 m p) 0) as [Hp|Hp], (Z.eqb_spec (ld8 m q) 0) as [Hq|Hq]; simpl.
  - by rewrite Hp, Hq.
  - split; [lia|done].
  - destruct (Z.eqb_spec (ld8 m p) (ld8 m q)); [lia|]. split; [lia|done].
  - destruct (Z.eqb_spec (ld8 m p) (ld8 m q)) as [He|].
    + rewrite IH, He. split; [by intros ->|naive_solver].
    + split; [lia|naive_solver].
Qed.

Lemma pad_zero_spec n m s a :
  ld8 (pad_zero n m s) a =
    if (s <=? a) && (a <? s + Z.of_nat n) then 0 else ld8 m a.
Proof.
  revert m s. induction n as [|n IH]; intros m s; simpl; [by zcase|].
  rewrite IH, ld8_st8. by zcase.
Qed.

Lemma cstr_ext n m m' p :
  (∀ a, p ≤ a < p + Z.of_nat n → ld8 m a = ld8 m' a) → cstr n m p = cstr n m' p.
Proof.
  revert p. induction n as [|n IH]; intros p Ha; simpl; [done|].
  rewrite (Ha p) by lia. case_match; [done|]. f_equal. apply IH.
  intros a Hr. apply Ha. lia.
Qed.

(** The bytes [strncpy] leaves: the string, then zeros up to [n] bytes. *)
Definition padded (n : nat) (l : list Z) : list Z := take n (l ++ replicate n 0).

Lemma strncpy_loop_frame n m s t a :
  ¬ (s ≤ a < s + Z.of_nat n) → ld8 (strncpy_loop n m s t) a = ld8 m a.
Proof.
  revert m s t. induction n as [|n IH]; intros m s t Ha; simpl; [done|].
  case_match; [rewrite pad_zero_spec|rewrite IH by lia]; rewrite ld8_st8; by zcase.
Qed.

Lemma ld_bytes_pad n m s : ld_bytes n s (pad_zero n m s) = replicate n 0.
Proof.
  revert m s. induction n as [|n IH]; intros m s; simpl; [done|].
  rewrite pad_zero_spec, ld8_st8, IH. f_equal. by zcase.
Qed.

Lemma strncpy_loop_bytes n m s t :
  s + Z.of_nat n ≤ t ∨ t + Z.of_nat n ≤ s →
  ld_bytes n s (strncpy_loop n m s t) = padded n (cstr n m t).
Proof.
  revert m s t. induction n as [|n IH]; intros m s t Hd; simpl; [done|].
  destruct (Z.eqb_spec (ld8 m t) 0) as [H0|H0]; unfold padded.
  - rewrite pad_zero_spec, ld8_st8, ld_bytes_pad. zcase. rewrite H0. simpl. f_equal.
    by rewrite take_replicate, Nat.min_id.
  - rewrite strncpy_loop_frame, ld8_st8, Z.eqb_refl, u8_ld8 by lia.
    rewrite IH by lia. unfold padded. simpl. f_equal.
    rewrite (cstr_ext n (st8 s _ m) m) by (intros; rewrite ld8_st8; zcase; done).
    change (0 :: replicate n 0) with (replicate (S n) 0).
    rewrite !take_app, !take_replicate. f_equal. f_equal.
    pose proof (length_cstr n m (t + 1)). lia.
Qed.

(** [strncpy] fills exactly the [n] destination bytes: the source string up
    to its NUL, then zero padding. *)
Theorem strncpy_spec m s t n :
  0 ≤ n → s + n ≤ t ∨ t + n ≤ s →
  ld_bytes (Z.to_nat n) s (strncpy m s t n) = padded (Z.to_nat n) (cstr (Z.to_nat n) m t) ∧
  ∀ a, ¬ (s ≤ a < s + n) → ld8 (strncpy m s t n) a = ld8 m a.
Proof.
  intros Hn Hd. unfold strncpy. split.
  - apply strncpy_loop_bytes. lia.
  - intros a Ha. apply strncpy_loop_frame. lia.
Qed.
Lemma strncpy_spec_witness :
  ld_bytes 4 0 (strncpy (st_bytes 10 [97; 98; 0; 99] ∅) 0 10 4) = [97; 98; 0; 0].
Proof. rewrite (proj1 (strncpy_spec _ 0 10 4 ltac:(lia) ltac:(lia))). reflexivity. Defined.

Lemma safestrcpy_loop_frame k m s t a :
  ¬ (s ≤ a < s + Z.of_nat (S k)) → ld8 (safestrcpy_loop k m s t) a = ld8 m a.
Proof.
  revert m s t. induction k as [|k IH]; intros m s t Ha; simpl.
  - rewrite ld8_st8. by zcase.
  - case_match; [rewrite ld8_st8|rewrite IH by lia]; rewrite ld8_st8; by zcase.
Qed.

Lemma safestrcpy_loop_cstr k m s t :
  s + Z.of_nat (S k) ≤ t ∨ t + Z.of_nat (S k) ≤ s →
  cstr (S k) (safestrcpy_loop k m s t) s = cstr k m t.
Proof.
  revert m s t. induction k as [|k IH]; intros m s t Hd.
  - simpl. by rewrite ld8_st8, Z.eqb_refl.
  - cbn [safestrcpy_loop]. remember (S k) as k1 eqn:Hk. simpl.
    destruct (Z.eqb_spec (ld8 m t) 0) as [H0|H0].
    + rewrite !ld8_st8, H0. subst k1. simpl.
      replace (s + 1 =? s) with false by lia. rewrite Z.eqb_refl. simpl.
      by rewrite H0.
    + rewrite safestrcpy_loop_frame, ld8_st8, Z.eqb_refl, u8_ld8 by lia.
      destruct (Z.eqb_spec (ld8 m t) 0); [done|]. subst k1. simpl cstr at 2.
      destruct (Z.eqb_spec (ld8 m t) 0); [done|]. f_equal.
      rewrite IH by lia. apply cstr_ext. intros a Ha. rewrite ld8_st8. by zcase.
Qed.

(** [safestrcpy] always leaves a NUL-terminated string within the [n]
    destination bytes: the source string cut to [n - 1] bytes. *)
Theorem safestrcpy_spec m s t n :
  0 < n → s + n ≤ t ∨ t + n ≤ s →
  cstr (Z.to_nat n) (safestrcpy m s t n) s = cstr (Z.to_nat (n - 1)) m t ∧
  (length (cstr (Z.to_nat n) (safestrcpy m s t n) s) < Z.to_nat n)%nat ∧
  ∀ a, ¬ (s ≤ a < s + n) → ld8 (safestrcpy m s t n) a = ld8 m a.
Proof.
  intros Hn Hd. unfold safestrcpy. destruct (Z.leb_spec n 0); [lia|].
  replace (Z.to_nat n) with (S (Z.to_nat (n - 1))) by lia.
  rewrite safestrcpy_loop_cstr by lia. split; [done|]. split.
  - pose proof (length_cstr (Z.to_nat (n - 1)) m t). lia.
  - intros a Ha. apply safestrcpy_loop_frame. lia.
Qed.
Lemma safestrcpy_spec_witness :
  cstr 3 (safestrcpy (st_bytes 10 [97; 98; 99; 0] ∅) 0 10 3) 0 = [97; 98].
Proof. rewrite (proj1 (safestrcpy_spec _ 0 10 3 ltac:(lia) ltac:(lia))). reflexivity. Defined.

(** [strlen] finds the first NUL, when there is one within the bound. *)
Lemma strlen_spec fuel m s k :
  strlen fuel m s = Some k ↔
  0 ≤ k < Z.of_nat fuel ∧ ld8 m (s + k) = 0 ∧ ∀ j, 0 ≤ j < k → ld8 m (s + j) ≠ 0.
Proof.
  revert s k. induction fuel as [|f IH]; intros s k; simpl; [split; [done|lia]|].
  destruct (Z.eqb_spec (ld8 m s) 0) as [H0|H0].
  - split; [intros [=<-]; rewrite Z.add_0_r; repeat split; done || lia|].
    intros (Hk & Hz & Hb). f_equal. destruct (decide (k = 0)) as [->|]; [done|].
    destruct (Hb 0); [lia|]. by rewrite Z.add_0_r.
  - rewrite fmap_Some. setoid_rewrite IH. split.
    + intros (k' & (Hk & Hz & Hb) & ->). split; [lia|].
      replace (s + Z.succ k') with (s + 1 + k') by lia. split; [done|]. intros j Hj.
      destruct (decide (j = 0)) as [->|]; [by rewrite Z.add_0_r|].
      replace (s + j) with (s + 1 + (j - 1)) by lia. apply Hb. lia.
    + intros (Hk & Hz & Hb). assert (k ≠ 0) by (intros ->; by rewrite Z.add_0_r in Hz).
      exists (k - 1). split; [|lia]. replace (s + 1 + (k - 1)) with (s + k) by lia.
      split; [lia|]. split; [done|]. intros j Hj.
      replace (s + 1 + j) with (s + (j + 1)) by lia. apply Hb. lia.
Qed.
