(* ===== verification/Dll.v ===== *)
(** Doubly linked lists threaded through arrays: the free-mark lists of
    [buddy.c] (ended by NIL) and the LRU ring of [bio.c] (closed through its
    head).  A segment is described by its link fields and the list of node
    indices it visits. *)

From S2P Require Import Prelude.

(** [seg pre next p c L q d]: following [next] from pointer [c] visits the nodes
    [L] and arrives at pointer [d]; [pre] of each node is the node before it,
    [p] before the first, and [q] is the last node ([p] when there is none). *)
Fixpoint seg (pre next : Z → Z) (p c : Z) (L : list Z) (q d : Z) : Prop :=
  match L with
  | [] => p = q ∧ c = d
  | i :: L => c = i ∧ pre i = p ∧ seg pre next i (next i) L q d
  end.

Section seg.
Implicit Types (L : list Z) (p c q d i : Z) (pre next : Z → Z).

Lemma seg_app pre next p c L1 L2 q d :
  seg pre next p c (L1 ++ L2) q d ↔
  ∃ p1 c1, seg pre next p c L1 p1 c1 ∧ seg pre next p1 c1 L2 q d.
Proof.
  revert p c. induction L1 as [|i L1 IH]; intros p c; simpl; [naive_solver|].
  rewrite IH. naive_solver.
Qed.

Lemma seg_snoc pre next p c L i q d :
  seg pre next p c (L ++ [i]) q d ↔
  ∃ r, seg pre next p c L r i ∧ pre i = r ∧ q = i ∧ next i = d.
Proof. rewrite seg_app. simpl. naive_solver. Qed.

(** A segment depends only on the links of its nodes. *)
Lemma seg_ext pre next pre' next' p c L q d :
  (∀ i, i ∈ L → pre' i = pre i ∧ next' i = next i) →
  seg pre next p c L q d → seg pre' next' p c L q d.
Proof.
  revert p c. induction L as [|i L IH]; intros p c Hl; simpl; [done|].
  destruct (Hl i) as [-> ->]; [set_solver|]. intros (-> & <- & Hs).
  split; [done|]. split; [done|]. apply IH; [set_solver|done].
Qed.

(** Changing [next] of the last node moves the segment's end pointer. *)
Lemma seg_set_next pre next pre' next' p c L i d :
  (∀ j, pre' j = pre j) → (∀ j, j ≠ i → next' j = next j) → i ∉ L →
  (∃ d0, seg pre next p c (L ++ [i]) i d0) → next' i = d →
  seg pre' next' p c (L ++ [i]) i d.
Proof.
  intros Hp Hn Hi [d0 Hs] Hd. rewrite seg_snoc in *.
  destruct Hs as (r & Hs & Hr & _ & _). exists r. split.
  - eapply seg_ext, Hs. intros j Hj. split; [done|]. apply Hn. set_solver.
  - by rewrite Hp.
Qed.

(** Changing [pre] of the first node moves the segment's start. *)
Lemma seg_set_pre pre next pre' next' p p' c i L q d :
  (∀ j, j ≠ i → pre' j = pre j) → (∀ j, next' j = next j) → i ∉ L →
  seg pre next p c (i :: L) q d → pre' i = p' →
  seg pre' next' p' c (i :: L) q d.
Proof.
  intros Hp Hn Hi (-> & _ & Hs) Hp'. split; [done|]. split; [done|].
  rewrite Hn. eapply seg_ext, Hs. intros j Hj. split; [|done]. apply Hp. set_solver.
Qed.

(** The end pointers of an empty and of a nonempty segment. *)
Lemma seg_last pre next p c L q d :
  seg pre next p c L q d → q = default p (last L).
Proof.
  revert p c. induction L as [|i L IH]; intros p c; simpl; [naive_solver|].
  intros (_ & _ & Hs). rewrite (IH _ _ Hs). change (last (i :: L)) with (last ([i] ++ L)).
  rewrite last_app. by destruct (last L).
Qed.
Lemma seg_first pre next p c L q d :
  seg pre next p c L q d → c = default d (head L).
Proof. destruct L; simpl; naive_solver. Qed.

Lemma elem_of_mid (j i : Z) L1 L2 : j ∈ L1 ++ i :: L2 ↔ j = i ∨ j ∈ L1 ++ L2.
Proof. rewrite !elem_of_app, elem_of_cons. tauto. Qed.
Lemma NoDup_mid (i : Z) L1 L2 : NoDup (L1 ++ i :: L2) ↔ (i ∉ L1 ++ L2) ∧ NoDup (L1 ++ L2).
Proof.
  rewrite <- NoDup_cons. by rewrite (Permutation_middle L1 L2 i).
Qed.

Lemma filter_ne_id (b : Z) L : b ∉ L → filter (.≠ b) L = L.
Proof.
  induction L as [|x L IH]; [done|]. rewrite not_elem_of_cons. intros [? ?].
  by rewrite filter_cons_True, IH by congruence.
Qed.
Lemma filter_ne_mid (b : Z) L1 L2 : NoDup (L1 ++ b :: L2) → filter (.≠ b) (L1 ++ b :: L2) = L1 ++ L2.
Proof.
  intros [Hnb _]%NoDup_mid. rewrite not_elem_of_app in Hnb.
  rewrite filter_app, filter_cons_False by tauto. by rewrite !filter_ne_id by tauto.
Qed.

(** Unlinking node [i]: its neighbours are joined, every other link is kept. *)
Lemma seg_remove pre next pre' next' p c L1 i L2 q d :
  seg pre next p c (L1 ++ i :: L2) q d → NoDup (L1 ++ i :: L2) →
  p ∉ L2 → d ∉ L1 →
  (∀ j, j ∈ L1 ++ L2 → pre' j = if next i =? j then pre i else pre j) →
  (∀ j, j ∈ L1 ++ L2 → next' j = if pre i =? j then next i else next j) →
  seg pre' next' p (default (next i) (head L1)) (L1 ++ L2) (default p (last (L1 ++ L2))) d.
Proof.
  intros Hs Hnd Hp Hd Hpre Hnext. apply seg_app in Hs as (p1 & c1 & Hs1 & Hs2).
  destruct Hs2 as (-> & Hpi & Hs2). apply NoDup_app in Hnd as (Hnd1 & Hdis & Hnd2).
  apply NoDup_cons in Hnd2 as [HiL2 Hnd2]. pose proof (seg_first _ _ _ _ _ _ _ Hs2) as Hf.
  pose proof (seg_last _ _ _ _ _ _ _ Hs1) as Hl. subst p1. apply seg_app.
  exists (pre i), (next i). split.
  - destruct L1 as [|x L1 _] using rev_ind; [simpl in Hs1 |- *; naive_solver|].
    rewrite last_snoc in Hl. simpl in Hl. rewrite Hl in *. rewrite seg_snoc in Hs1 |- *.
    destruct Hs1 as (r & Hs1 & Hr & _ & _). apply NoDup_app in Hnd1 as (Hnd1 & Hx & _).
    assert (Hn1 : ∀ j, j ∈ L1 ++ [x] → (next i =? j) = false).
    { intros j Hj. apply Z.eqb_neq. intros <-. rewrite Hf in Hj.
      destruct L2; simpl in Hj; [done|set_solver]. }
    exists r. rewrite Hpre, Hnext, Hn1, Z.eqb_refl by set_solver. split; [|done].
    assert (Hc : c = default x (head L1)) by (by eapply seg_first).
    replace (default (next i) (head (L1 ++ [x]))) with c by (rewrite Hc; by destruct L1).
    eapply seg_ext, Hs1. intros j Hj. rewrite Hpre, Hnext, Hn1 by set_solver.
    destruct (Z.eqb_spec x j); [set_solver|done].
  - destruct L2 as [|y L2]; [rewrite app_nil_r in *; simpl in *; naive_solver|].
    destruct Hs2 as (Hy & Hpy & Hs2). apply NoDup_cons in Hnd2 as [HyL2 _].
    assert (Hp2 : ∀ j, j ∈ y :: L2 → (pre i =? j) = false).
    { intros j Hj. apply Z.eqb_neq. rewrite Hl. intros <-.
      destruct (last L1) eqn:E; simpl in Hj; [|done].
      apply last_Some in E as [? ->]. set_solver. }
    split; [done|]. rewrite Hpre, Hnext, Hp2, Hy, Z.eqb_refl by set_solver. split; [done|].
    rewrite last_app. rewrite (seg_last _ _ _ _ _ _ _ Hs2) in Hs2.
    replace (default p _) with (default y (last L2))
      by (change (y :: L2) with ([y] ++ L2); rewrite last_app; by destruct (last L2)).
    eapply seg_ext, Hs2. intros j Hj. rewrite Hpre, Hnext, Hp2 by set_solver.
    rewrite Hy. destruct (Z.eqb_spec y j); [set_solver|done].
Qed.

(** Following one link field from [c] visits [L] and arrives at [d]. *)
Fixpoint walk (dir : Z → Z) (c : Z) (L : list Z) (d : Z) : Prop :=
  match L with [] => c = d | i :: L => c = i ∧ walk dir (dir i) L d end.

Lemma seg_walk_next pre next p c L q d : seg pre next p c L q d → walk next c L d.
Proof. revert p c. induction L; simpl; naive_solver. Qed.
Lemma seg_walk_prev pre next p c L q d : seg pre next p c L q d → walk pre q (reverse L) p.
Proof.
  revert q d. induction L as [|i L IH] using rev_ind; intros q d; [simpl; naive_solver|].
  rewrite seg_snoc, reverse_snoc. intros (r & Hs & Hr & -> & _). simpl. split; [done|].
  rewrite Hr. by eapply IH.
Qed.
End seg.

(** ** Rings

    A ring through a sentinel [h]: [L] is the order in which [next] visits the
    other nodes. *)

Definition ring (h : Z) (pre next : Z → Z) (L : list Z) : Prop :=
  seg pre next h (next h) L (pre h) h ∧ NoDup (h :: L).

Section ring.
Implicit Types (L : list Z) (h i : Z) (pre next : Z → Z).

Lemma ring_ext h pre next pre' next' L :
  (∀ j, j ∈ h :: L → pre' j = pre j ∧ next' j = next j) →
  ring h pre next L → ring h pre' next' L.
Proof.
  intros Hl [Hs Hnd]. split; [|done]. destruct (Hl h) as [-> ->]; [by left|].
  eapply seg_ext, Hs. intros j Hj. apply Hl. by right.
Qed.

Lemma ring_remove h pre next pre' next' L1 i L2 :
  ring h pre next (L1 ++ i :: L2) →
  (∀ j, j ∈ h :: L1 ++ L2 → pre' j = if next i =? j then pre i else pre j) →
  (∀ j, j ∈ h :: L1 ++ L2 → next' j = if pre i =? j then next i else next j) →
  ring h pre' next' (L1 ++ L2).
Proof.
  intros [Hs Hnd] Hp Hn. apply NoDup_cons in Hnd as [Hh Hnd].
  rewrite elem_of_mid in Hh. pose proof Hnd as [Hi Hnd2]%NoDup_mid.
  pose proof (seg_last _ _ _ _ _ _ _ Hs) as Hl. pose proof (seg_first _ _ _ _ _ _ _ Hs) as Hf.
  pose proof Hs as (p1 & c1 & Hs1 & -> & Hpi & Hs2)%seg_app.
  pose proof (seg_first _ _ _ _ _ _ _ Hs2) as Hni. pose proof (seg_last _ _ _ _ _ _ _ Hs1) as Hl1.
  split; [|apply NoDup_cons; split; [tauto|done]].
  replace (next' h) with (default (next i) (head L1)).
  - replace (pre' h) with (default h (last (L1 ++ L2))).
    + eapply seg_remove; [exact Hs|done|set_solver|set_solver| |]; intros j Hj.
      * apply Hp. by right.
      * apply Hn. by right.
    + rewrite Hp by (by left). destruct L2 as [|y L2].
      * rewrite app_nil_r, Hni. simpl. rewrite Z.eqb_refl. congruence.
      * simpl in Hni. rewrite Hni. destruct (Z.eqb_spec y h) as [->|]; [set_solver|].
        rewrite Hl, !last_app. change (i :: y :: L2) with ([i] ++ y :: L2). rewrite last_app.
        destruct (last (y :: L2)) eqn:E; [done|]. by apply last_None in E.
  - rewrite Hn by (by left). rewrite Hpi, Hl1. destruct L1 as [|x L1].
    + simpl. by rewrite Z.eqb_refl.
    + destruct (last (x :: L1)) as [y|] eqn:E; [|by apply last_None in E].
      simpl. destruct (Z.eqb_spec y h) as [->|]; [|done].
      apply last_Some in E as [? E]. rewrite E in Hh. set_solver.
Qed.

Lemma ring_push h pre next pre' next' L i :
  ring h pre next L → i ∉ h :: L →
  pre' i = h → next' i = next h →
  (∀ j, j ∈ h :: L → pre' j = if next h =? j then i else pre j) →
  (∀ j, j ∈ h :: L → next' j = if h =? j then i else next j) →
  ring h pre' next' (i :: L).
Proof.
  intros [Hs Hnd] Hi Hpi Hni Hp Hn. pose proof (seg_first _ _ _ _ _ _ _ Hs) as Hf.
  split.
  2: { clear - Hnd Hi. apply NoDup_cons in Hnd as [??]. rewrite !NoDup_cons. set_solver. }
  rewrite Hn, Z.eqb_refl by (by left). split; [done|]. split; [done|]. rewrite Hni.
  apply NoDup_cons in Hnd as [HhL Hnd]. destruct L as [|x L].
  - simpl in Hf. simpl. rewrite Hp, Hf, Z.eqb_refl by (by left). done.
  - simpl in Hf. destruct Hs as (_ & Hpx & Hs). apply NoDup_cons in Hnd as [HxL _].
    assert (Hxh : x ≠ h) by set_solver.
    rewrite (Hp h) by (by left). rewrite (proj2 (Z.eqb_neq (next h) h)) by congruence.
    split; [done|]. rewrite Hp, Hn by set_solver. rewrite Hf, Z.eqb_refl.
    split; [done|]. destruct (Z.eqb_spec h x); [set_solver|].
    eapply seg_ext, Hs. intros j Hj. rewrite Hp, Hn by set_solver. rewrite Hf.
    destruct (Z.eqb_spec x j); [set_solver|]. destruct (Z.eqb_spec h j); [set_solver|done].
Qed.
End ring.
