(* ===== verification/Buddy.v ===== *)
(** The buddy allocator of kernel memory: [buddy.c].

    [kmem] is [struct kmem]: the bounds of the managed memory, the seven
    orders, and the array of marks that starts at [kmem.start].  A mark is read
    only after it was written; reading any other index is undefined. *)

From S2P Require Import Prelude Spin Sched Dll.

(** * Data *)

Definition MAX_ORD : Z := 12.
Definition MIN_ORD : Z := 6.
Definition N_ORD : Z := MAX_ORD - MIN_ORD + 1.
Definition NIL : Z := 0xFFFF.

Record mark := Mark { lnks : Z; bitmap : Z }.
Definition set_lnks v r := Mark v (bitmap r).
Definition set_bitmap v r := Mark (lnks r) v.

Definition PRE_LNK (l : Z) : Z := Z.shiftr l 16.
Definition NEXT_LNK (l : Z) : Z := Z.land l 0xFFFF.
Definition LNKS (pre next : Z) : Z := u32 (Z.lor (Z.shiftl pre 16) (Z.land next 0xFFFF)).

Record order := Order { head : Z; offset : Z }.

Record kmem := Kmem {
  k_start : Z;                (* start of memory for marks *)
  k_start_heap : Z;           (* start of allocatable memory *)
  k_end : Z;
  k_orders : list order;      (* orders[N_ORD] *)
  k_marks : gmap Z mark;      (* the array of marks at k_start *)
}.
Definition set_k_start v r := Kmem v (k_start_heap r) (k_end r) (k_orders r)
  (k_marks r).
Definition set_k_start_heap v r := Kmem (k_start r) v (k_end r) (k_orders r)
  (k_marks r).
Definition set_k_end v r := Kmem (k_start r) (k_start_heap r) v (k_orders r)
  (k_marks r).
Definition set_k_orders v r := Kmem (k_start r) (k_start_heap r) (k_end r) v
  (k_marks r).
Definition set_k_marks v r := Kmem (k_start r) (k_start_heap r) (k_end r)
  (k_orders r) v.

(** * Operations *)

Definition get_order_rec (ord : Z) : M kmem order :=
  let* l := gets k_orders in must "kmem.orders[]" (znth l (ord - MIN_ORD)).
Definition set_head (ord v : Z) : M kmem unit :=
  let* o := get_order_rec ord in
  modify (fun k => set_k_orders (zupd (ord - MIN_ORD) (Order v (offset o)) (k_orders k)) k).

(** [get_mark]: the address of a mark, as its index in the array. *)
Definition get_mark (ord idx : Z) : M kmem Z :=
  let* o := get_order_rec ord in ret (u32 (offset o + idx)).
Definition read_mark (a : Z) : M kmem mark :=
  let* ms := gets k_marks in must "mark" (ms !! a).
Definition write_mark (a : Z) (mk : mark) : M kmem unit :=
  modify (fun k => set_k_marks (<[a := mk]> (k_marks k)) k).

Definition blkid2mem (k : kmem) (ord blkid : Z) : Z :=
  u64 (k_start_heap k + s32 (bit ord * blkid)).
Definition mem2blkid (k : kmem) (ord mem : Z) : Z :=
  s32 (Z.shiftr (u64 (mem - k_start_heap k)) ord).
Definition available (bm blk_id : Z) : bool := ztrue (Z.land bm (bit (Z.land blk_id 0x1F))).

(** Take a mark whose links are [l] off the list of its order: its predecessor
    (or the head), its successor, its own links. *)
Definition unlink_prev (ord i prev next : Z) : M kmem unit :=
  if negb (prev =? NIL) then
    let* pa := get_mark ord prev in
    let* p := read_mark pa in
    write_mark pa (set_lnks (LNKS (PRE_LNK (lnks p)) next) p)
  else
    let* o := get_order_rec ord in
    when (head o =? i) (set_head ord next).
Definition unlink_next (ord prev next : Z) : M kmem unit :=
  when (negb (next =? NIL)) (
    let* pa := get_mark ord next in
    let* p := read_mark pa in
    write_mark pa (set_lnks (LNKS prev (NEXT_LNK (lnks p))) p)).
Definition unlink_mark (ord a i l : Z) : M kmem unit :=
  let prev := PRE_LNK l in
  let next := NEXT_LNK l in
  unlink_prev ord i prev next ;;
  unlink_next ord prev next ;;
  let* mk := read_mark a in
  write_mark a (set_lnks (LNKS NIL NIL) mk).

(** mark a block as unavailable *)
Definition unmark_blk (ord blk_id : Z) : M kmem unit :=
  let* a := get_mark ord (Z.shiftr blk_id 5) in
  let* mk := read_mark a in
  if negb (available (bitmap mk) blk_id) then panic "double alloc" else
  let bm := u32 (Z.land (bitmap mk) (Z.lnot (bit (Z.land blk_id 0x1F)))) in
  write_mark a (set_bitmap bm mk) ;;
  when (bm =? 0) (unlink_mark ord a (Z.shiftr blk_id 5) (lnks mk)).

(** Insert mark [i] at the head of the list: "no need to keep the list
    ordered". *)
Definition link_mark (ord a i : Z) : M kmem unit :=
  let* o := get_order_rec ord in
  let* mk := read_mark a in
  write_mark a (set_lnks (LNKS NIL (head o)) mk) ;;
  when (negb (head o =? NIL)) (
    let* pa := get_mark ord (head o) in
    let* p := read_mark pa in
    write_mark pa (set_lnks (LNKS i (NEXT_LNK (lnks p))) p)) ;;
  set_head ord i.

(** mark a block as available *)
Definition mark_blk (ord blk_id : Z) : M kmem unit :=
  let* a := get_mark ord (Z.shiftr blk_id 5) in
  let* mk := read_mark a in
  let insert := bitmap mk =? 0 in
  if available (bitmap mk) blk_id then panic "double free" else
  let bm := u32 (Z.lor (bitmap mk) (bit (Z.land blk_id 0x1F))) in
  write_mark a (set_bitmap bm mk) ;;
  when insert (link_mark ord a (Z.shiftr blk_id 5)).

(** get a block *)
Definition get_blk (ord : Z) : M kmem Z :=
  let* o := get_order_rec ord in
  let* a := get_mark ord (head o) in
  let* mk := read_mark a in
  if bitmap mk =? 0 then panic "empty mark in the list" else
  let* r := for_to 0 32 (fun i =>
    if ztrue (Z.land (bitmap mk) (bit i)) then
      let blk_id := head o * 32 + i in
      unmark_blk ord blk_id ;;
      let* k := gets (fun k => k) in
      ret (Some (blkid2mem k ord blk_id))
    else ret None) in
  ret (default 0 r).

Fixpoint kfree_rec (fuel : nat) (mem ord : Z) : M kmem unit :=
  match fuel with
  | O => out_of_fuel
  | S fuel =>
      let* k := gets (fun k => k) in
      let blk_id := mem2blkid k ord mem in
      let* a := get_mark ord (Z.shiftr blk_id 5) in
      let* mk := read_mark a in
      if available (bitmap mk) blk_id then panic "kfree: double free" else
      let buddy_id := Z.lxor blk_id 0x0001 in
      if negb (available (bitmap mk) buddy_id) || (ord =? MAX_ORD) then
        mark_blk ord blk_id
      else
        unmark_blk ord buddy_id ;;
        let* k := gets (fun k => k) in
        kfree_rec fuel (blkid2mem k ord (Z.land blk_id (Z.lnot 0x0001))) (ord + 1)
  end.
(** The recursion climbs one order at a time. *)
Definition _kfree (mem ord : Z) : M kmem unit :=
  kfree_rec (Z.to_nat (MAX_ORD - ord + 1)) mem ord.

Fixpoint kmalloc_rec (fuel : nat) (ord : Z) : M kmem Z :=
  match fuel with
  | O => out_of_fuel
  | S fuel =>
      let* o := get_order_rec ord in
      if negb (head o =? NIL) then get_blk ord
      else if ord <? MAX_ORD then
        let* up := kmalloc_rec fuel (ord + 1) in
        when (negb (up =? 0)) (_kfree (u64 (up + bit ord)) ord) ;;
        ret up
      else ret 0
  end.
Definition _kmalloc (ord : Z) : M kmem Z :=
  kmalloc_rec (Z.to_nat (MAX_ORD - ord + 1)) ord.

(** The allocator with its lock. *)
Record kheap := Kheap { h_mach : mach; h_kmem : kmem }.
#[export] Program Instance lens_kheap_mach : Lens kheap mach :=
  {| lget := h_mach; lset := fun m h => Kheap m (h_kmem h) |}.
Solve All Obligations with (by intros; repeat match goal with b : kheap |- _ => destruct b end).
#[export] Program Instance lens_kheap_kmem : Lens kheap kmem :=
  {| lget := h_kmem; lset := fun k h => Kheap (h_mach h) k |}.
Solve All Obligations with (by intros; repeat match goal with b : kheap |- _ => destruct b end).

Definition kmem_lock : objaddr := ("kmem", 0).

Definition kmem_init : M kheap unit := zoom (initlock kmem_lock).

Definition kmalloc (ord : Z) : M kheap Z :=
  if (MAX_ORD <? ord) || (ord <? MIN_ORD) then panic "kmalloc: order out of range" else
  zoom (acquire kmem_lock) ;;
  let* up := zoom (_kmalloc ord) in
  zoom (release kmem_lock) ;;
  ret up.

Definition kfree (mem ord : Z) : M kheap unit :=
  if (MAX_ORD <? ord) || (ord <? MIN_ORD) || ztrue (Z.land mem (bit ord - 1))
  then panic "kfree: order out of range or memory unaligned" else
  zoom (acquire kmem_lock) ;;
  zoom (_kfree mem ord) ;;
  zoom (release kmem_lock).

Definition PTE_SHIFT : Z := 12.
Definition free_page (v : Z) : M kheap unit := kfree v PTE_SHIFT.
Definition alloc_page : M kheap Z := kmalloc PTE_SHIFT.

(** The mark array of order [i + MIN_ORD]: [n] marks set unavailable. *)
Definition init_order (i total n : Z) : M kmem unit :=
  modify (fun k => set_k_orders (zupd i (Order NIL (u32 total)) (k_orders k)) k) ;;
  for_all (Z.to_nat n) 0 (fun j =>
    let* a := get_mark (i + MIN_ORD) j in
    write_mark a (Mark (LNKS NIL NIL) 0)).

(** [for (i = N_ORD - 1; i >= 0; i--)]: [steps] orders from [i] down; returns
    the total number of marks. *)
Fixpoint init_orders (steps : nat) (i total n : Z) : M kmem Z :=
  match steps with
  | O => ret total
  | S steps => init_order i total n ;; init_orders steps (i - 1) (u64 (total + n)) (u64 (n * 2))
  end.

Definition align_up (sz al : Z) : Z := Z.land (u64 (sz + al - 1)) (u64 (Z.lnot (al - 1))).
Definition align_dn (sz al : Z) : Z := Z.land sz (u64 (Z.lnot (al - 1))).

Definition kmem_init2 (vstart vend : Z) : M kheap unit :=
  let* total := zoom (
    modify (fun k => set_k_end vend (set_k_start vstart k)) ;;
    let len := u64 (vend - vstart) in
    let n := u64 (Z.shiftr len (MAX_ORD + 5) + 1) in
    init_orders (Z.to_nat N_ORD) (N_ORD - 1) 0 n) in
  let start_heap := align_up (u64 (vstart + total * 8)) (bit MAX_ORD) in
  zoom (modify (set_k_start_heap start_heap)) ;;
  for_all (Z.to_nat ((vend - start_heap + bit MAX_ORD - 1) / bit MAX_ORD)) 0 (fun j =>
    kfree (u64 (start_heap + j * bit MAX_ORD)) MAX_ORD).

(** round up power of 2, then get the order *)
Definition round_up_pow2 (v : Z) : Z :=
  let v := u32 (v - 1) in
  let v := Z.lor v (Z.shiftr v 1) in
  let v := Z.lor v (Z.shiftr v 2) in
  let v := Z.lor v (Z.shiftr v 4) in
  let v := Z.lor v (Z.shiftr v 8) in
  let v := Z.lor v (Z.shiftr v 16) in
  u32 (v + 1).
(** [for (ord = 0; ord < 32; ord++) if (v & (1 << ord)) break;] *)
Fixpoint first_bit (n : nat) (ord v : Z) : Z :=
  match n with
  | O => ord
  | S n => if ztrue (Z.land v (bit ord)) then ord else first_bit n (ord + 1) v
  end.
Definition get_order {S} (v : Z) : M S Z :=
  let ord := first_bit 32 0 (round_up_pow2 v) in
  if ord <? MIN_ORD then ret MIN_ORD
  else if MAX_ORD <? ord then panic "order too big!"
  else ret ord.

#[local] Arguments Z.eqb : simpl never.

(** * Correctness

    ** Links *)

Lemma lor_shift_low a b w :
  0 ≤ w → 0 ≤ b < 2 ^ w → Z.lor (Z.shiftl a w) b = a * 2 ^ w + b.
Proof.
  intros Hw Hb. rewrite <- Z.shiftl_mul_pow2 by lia. symmetry. apply Z.add_nocarry_lor.
  apply Z.bits_inj_iff'. intros j Hj. rewrite Z.land_spec, Z.bits_0.
  destruct (Z.lt_ge_cases j w).
  - by rewrite Z.shiftl_spec_low.
  - by rewrite (testbit_high b w) by lia; rewrite andb_false_r.
Qed.

Lemma LNKS_eq p n : 0 ≤ p < 2 ^ 16 → 0 ≤ n < 2 ^ 16 → LNKS p n = p * 2 ^ 16 + n.
Proof.
  intros Hp Hn. unfold LNKS. change 0xFFFF with (Z.ones 16). rewrite Z.land_ones, Z.mod_small by lia.
  rewrite lor_shift_low by lia. apply u32_small. lia.
Qed.
Lemma PRE_LNKS p n : 0 ≤ p < 2 ^ 16 → 0 ≤ n < 2 ^ 16 → PRE_LNK (LNKS p n) = p.
Proof.
  intros. rewrite LNKS_eq by lia. unfold PRE_LNK. rewrite Z.shiftr_div_pow2 by lia.
  rewrite Z.div_add_l, Z.div_small by lia. lia.
Qed.
Lemma NEXT_LNKS p n : 0 ≤ p < 2 ^ 16 → 0 ≤ n < 2 ^ 16 → NEXT_LNK (LNKS p n) = n.
Proof.
  intros. rewrite LNKS_eq by lia. unfold NEXT_LNK. change 0xFFFF with (Z.ones 16).
  rewrite Z.land_ones by lia.
  rewrite Z.add_comm, Z_mod_plus_full. apply Z.mod_small. lia.
Qed.

(** ** Geometry

    The managed memory has [NB] blocks of the highest order, and the mark array
    has [N] marks for it and twice as many for each order below. *)

Section buddy.
Context (N NB : Z).

Definition moff (o : Z) : Z := N * (2 ^ (12 - o) - 1).
Definition nmarks (o : Z) : Z := N * 2 ^ (12 - o).
Definition nblks (o : Z) : Z := NB * 2 ^ (12 - o).
Definition is_order (o : Z) : Prop := 6 ≤ o ≤ 12.

Record geo (k : kmem) : Prop := {
  geo_N : 0 < N ≤ 1023;
  geo_NB : 0 ≤ NB ≤ 32 * N;
  geo_len : zlen (k_orders k) = 7;
  geo_off : ∀ o, is_order o → ∃ h, znth (k_orders k) (o - 6) = Some (Order h (moff o));
  geo_marks : ∀ o i, is_order o → 0 ≤ i < nmarks o → is_Some (k_marks k !! (moff o + i));
  geo_base : 0 < k_start_heap k ∧ k_start_heap k mod 4096 = 0 ∧
             k_start_heap k + NB * 4096 < 2 ^ 64;
}.

Definition khead (k : kmem) (o : Z) : Z := default NIL (head <$> znth (k_orders k) (o - 6)).
Definition kmark (k : kmem) (o i : Z) : mark :=
  default (Mark (LNKS NIL NIL) 0) (k_marks k !! (moff o + i)).
Definition pre (k : kmem) (o i : Z) : Z := PRE_LNK (lnks (kmark k o i)).
Definition nxt (k : kmem) (o i : Z) : Z := NEXT_LNK (lnks (kmark k o i)).
Definition bmap (k : kmem) (o i : Z) : Z := bitmap (kmark k o i).
(** Block [b] of order [o] is available. *)
Definition isfree (k : kmem) (o b : Z) : bool :=
  Z.testbit (bmap k o (Z.shiftr b 5)) (Z.land b 0x1F).

(** The pure effects of the writes. *)
Definition wr (o i : Z) (mk : mark) (k : kmem) : kmem :=
  set_k_marks (<[moff o + i := mk]> (k_marks k)) k.
Definition sethead (o v : Z) (k : kmem) : kmem :=
  set_k_orders (zupd (o - 6) (Order v (moff o)) (k_orders k)) k.

Lemma order_cases o : is_order o →
  o = 6 ∨ o = 7 ∨ o = 8 ∨ o = 9 ∨ o = 10 ∨ o = 11 ∨ o = 12.
Proof. unfold is_order. lia. Qed.

Lemma midx_inj o o' i i' : 0 < N →
  is_order o → is_order o' → 0 ≤ i < nmarks o → 0 ≤ i' < nmarks o' →
  moff o + i = moff o' + i' → o = o' ∧ i = i'.
Proof.
  unfold nmarks, moff. intros HN Ho Ho'.
  destruct (order_cases o Ho) as [->|[->|[->|[->|[->|[->| ->]]]]]];
  destruct (order_cases o' Ho') as [->|[->|[->|[->|[->|[->| ->]]]]]];
  cbn; lia.
Qed.

Lemma nmarks_lt_NIL o : N ≤ 1023 → is_order o → nmarks o < NIL.
Proof.
  unfold nmarks, NIL. intros HN Ho.
  destruct (order_cases o Ho) as [->|[->|[->|[->|[->|[->| ->]]]]]]; cbn; lia.
Qed.

Lemma midx_u32 o i : 0 < N ≤ 1023 → is_order o → 0 ≤ i < nmarks o →
  u32 (moff o + i) = moff o + i.
Proof.
  unfold nmarks, moff. intros HN Ho Hi. apply u32_small.
  destruct (order_cases o Ho) as [->|[->|[->|[->|[->|[->| ->]]]]]]; cbn in *; lia.
Qed.

Section steps.
Context (k : kmem) (o : Z) (Hg : geo k) (Ho : is_order o).

Lemma get_order_rec_ok : get_order_rec o k = Ok (Order (khead k o) (moff o)) k.
Proof.
  destruct (geo_off _ Hg o Ho) as [h Hh]. unfold get_order_rec, khead, MIN_ORD. run.
  by rewrite Hh.
Qed.

Lemma get_mark_ok i : 0 ≤ i < nmarks o → get_mark o i k = Ok (moff o + i) k.
Proof.
  intros Hi. unfold get_mark. erewrite bind_ok by apply get_order_rec_ok. simpl.
  rewrite midx_u32; [done|apply Hg|done..].
Qed.

Lemma read_mark_ok i : 0 ≤ i < nmarks o → read_mark (moff o + i) k = Ok (kmark k o i) k.
Proof.
  intros Hi. destruct (geo_marks _ Hg o i Ho Hi) as [mk Hmk].
  unfold read_mark, kmark. run. by rewrite Hmk.
Qed.

Lemma set_head_ok v : set_head o v k = Ok tt (sethead o v k).
Proof. unfold set_head. by erewrite bind_ok by apply get_order_rec_ok. Qed.

Lemma kmark_wr i mk o' i' :
  0 ≤ i < nmarks o → is_order o' → 0 ≤ i' < nmarks o' →
  kmark (wr o i mk k) o' i' = if (o =? o') && (i =? i') then mk else kmark k o' i'.
Proof.
  intros Hi Ho' Hi'. unfold kmark, wr; simpl.
  destruct ((o =? o') && (i =? i')) eqn:E.
  - assert (o = o' ∧ i = i') as [-> ->] by lia. by rewrite lookup_insert_eq.
  - rewrite lookup_insert_ne; [done|]. intros He.
    apply midx_inj in He; [lia|apply Hg|done..].
Qed.

Lemma geo_wr i mk : geo (wr o i mk k).
Proof.
  split; try apply Hg. intros o' i' Ho' Hi'. simpl.
  destruct (decide (moff o + i = moff o' + i')) as [->|].
  - rewrite lookup_insert_eq. by eexists.
  - rewrite lookup_insert_ne by done. by apply Hg.
Qed.

Lemma khead_sethead v o' : is_order o' →
  khead (sethead o v k) o' = if o =? o' then v else khead k o'.
Proof.
  intros Ho'. unfold khead, sethead; simpl. destruct (Z.eqb_spec o o') as [->|].
  - rewrite znth_zupd; [done|]. rewrite (geo_len _ Hg). unfold is_order in *. lia.
  - rewrite znth_zupd_ne by lia. done.
Qed.

Lemma geo_sethead v : geo (sethead o v k).
Proof.
  split; try apply Hg.
  - simpl. rewrite zlen_zupd. apply Hg.
  - intros o' Ho'. simpl. destruct (decide (o = o')) as [->|].
    + exists v. rewrite znth_zupd; [done|]. rewrite (geo_len _ Hg). unfold is_order in *. lia.
    + rewrite znth_zupd_ne by lia. by apply Hg.
Qed.
End steps.

(** ** The free lists *)

(** The marks of order [o] that have an available block, and only they, are on
    the list that starts at its head. *)
Definition list_ok (k : kmem) (o : Z) : Prop :=
  ∃ L q, seg (pre k o) (nxt k o) NIL (khead k o) L q NIL ∧ NoDup L ∧
    ∀ i, i ∈ L ↔ 0 ≤ i < nmarks o ∧ bmap k o i ≠ 0.

Record wf (k : kmem) : Prop := {
  wf_geo : geo k;
  wf_list : ∀ o, is_order o → list_ok k o;
  wf_bm : ∀ o i, is_order o → 0 ≤ i < nmarks o → 0 ≤ bmap k o i < 2 ^ 32;
  wf_blk : ∀ o b, is_order o → 0 ≤ b < 32 * nmarks o → isfree k o b = true → b < nblks o;
}.

Lemma blk_split b : 0 ≤ b → b = 32 * Z.shiftr b 5 + Z.land b 0x1F ∧ 0 ≤ Z.land b 0x1F < 32.
Proof.
  intros Hb. change 0x1F with (Z.ones 5).
  rewrite Z.land_ones, Z.shiftr_div_pow2 by lia. change (2 ^ 5) with 32.
  split; [apply Z.div_mod; lia|apply Z.mod_pos_bound; lia].
Qed.
Lemma blk_mark o b : 0 ≤ b < 32 * nmarks o → 0 ≤ Z.shiftr b 5 < nmarks o.
Proof. intros Hb. destruct (blk_split b) as [He Hr]; lia. Qed.
Lemma nblks_marks o : is_order o → NB ≤ 32 * N → nblks o ≤ 32 * nmarks o.
Proof.
  unfold nblks, nmarks. intros Ho H.
  destruct (order_cases o Ho) as [->|[->|[->|[->|[->|[->| ->]]]]]]; cbn; lia.
Qed.
Lemma available_testbit bm b : 0 ≤ b → available bm b = Z.testbit bm (Z.land b 0x1F).
Proof. intros Hb. unfold available. apply land_bit_ne0. apply blk_split in Hb. lia. Qed.

(** Setting bit [b] of order [o] to [v] and re-establishing its list. *)
Lemma wf_update k k' o b v :
  wf k → is_order o → 0 ≤ b < 32 * nmarks o → (v = true → b < nblks o) →
  geo k' →
  (∀ o' i, is_order o' → 0 ≤ i < nmarks o' → o' ≠ o → kmark k' o' i = kmark k o' i) →
  (∀ o', is_order o' → o' ≠ o → khead k' o' = khead k o') →
  (∀ i, 0 ≤ i < nmarks o → Z.shiftr b 5 ≠ i → bmap k' o i = bmap k o i) →
  0 ≤ bmap k' o (Z.shiftr b 5) < 2 ^ 32 →
  (∀ j, 0 ≤ j → Z.testbit (bmap k' o (Z.shiftr b 5)) j =
     if Z.land b 0x1F =? j then v else Z.testbit (bmap k o (Z.shiftr b 5)) j) →
  list_ok k' o →
  wf k' ∧ ∀ o' b', is_order o' → 0 ≤ b' < 32 * nmarks o' →
    isfree k' o' b' = if (o =? o') && (b =? b') then v else isfree k o' b'.
Proof.
  intros Hwf Ho Hb Hv Hg Hmk Hh Hbm Hr Hbit Hl.
  assert (Hfree : ∀ o' b', is_order o' → 0 ≤ b' < 32 * nmarks o' →
    isfree k' o' b' = if (o =? o') && (b =? b') then v else isfree k o' b').
  { intros o' b' Ho' Hb'. unfold isfree. pose proof (blk_mark o' b' Hb') as Hi.
    destruct (blk_split b) as [He He']; [lia|]. destruct (blk_split b') as [Hf Hf']; [lia|].
    destruct (Z.eqb_spec o o') as [<-|Hne]; simpl.
    2: { unfold bmap. by rewrite Hmk by done. }
    destruct (decide (Z.shiftr b 5 = Z.shiftr b' 5)) as [Hs|Hs].
    - rewrite <- Hs, Hbit by lia. zcase; done.
    - rewrite Hbm by done. zcase; done. }
  split; [|done]. split.
  - done.
  - intros o' Ho'. destruct (decide (o' = o)) as [->|Hne]; [done|].
    destruct (wf_list _ Hwf o' Ho') as (L & q & Hs & Hnd & Hin). exists L, q.
    rewrite Hh by done. split; [|split; [done|]].
    + eapply seg_ext, Hs. intros i Hi. apply Hin in Hi as [Hi _].
      unfold pre, nxt. by rewrite Hmk.
    + intros i. rewrite Hin. split; intros [Hi Hb0]; (split; [done|]);
        unfold bmap in *; [by rewrite Hmk|by rewrite Hmk in Hb0].
  - intros o' i Ho' Hi. destruct (decide (o' = o)) as [->|Hne].
    + destruct (decide (Z.shiftr b 5 = i)) as [<-|]; [done|]. rewrite Hbm by done.
      by apply Hwf.
    + unfold bmap. rewrite Hmk by done. by apply Hwf.
  - intros o' b' Ho' Hb' Hf. rewrite Hfree in Hf by done.
    destruct ((o =? o') && (b =? b')) eqn:E; [|by apply (wf_blk _ Hwf)].
    assert (o = o' ∧ b = b') as [<- <-] by lia. auto.
Qed.

Lemma wf_list_range k o i L q :
  geo k → is_order o → seg (pre k o) (nxt k o) NIL (khead k o) L q NIL →
  (∀ i, i ∈ L → 0 ≤ i < nmarks o) → i ∈ L → i ≠ NIL ∧ 0 ≤ i < 2 ^ 16.
Proof.
  intros Hg Ho _ Hr Hi. specialize (Hr _ Hi).
  pose proof (nmarks_lt_NIL o ltac:(apply Hg) Ho). unfold NIL in *. lia.
Qed.

(** Marking a block of a mark that is already on the list. *)
Lemma list_ok_same k k' o i :
  list_ok k o → is_order o →
  (∀ j, 0 ≤ j < nmarks o → lnks (kmark k' o j) = lnks (kmark k o j)) →
  khead k' o = khead k o →
  (∀ j, 0 ≤ j < nmarks o → i ≠ j → bmap k' o j = bmap k o j) →
  (bmap k o i ≠ 0 ↔ bmap k' o i ≠ 0) →
  list_ok k' o.
Proof.
  intros (L & q & Hs & Hnd & Hin) Ho Hl Hh Hb Hi. exists L, q. rewrite Hh.
  split; [|split; [done|]].
  - eapply seg_ext, Hs. intros j Hj. apply Hin in Hj as [Hj _].
    unfold pre, nxt. by rewrite Hl.
  - intros j. rewrite Hin. split; intros [Hj Hne]; (split; [done|]);
      (destruct (decide (i = j)) as [<-|]; [naive_solver|]);
      [by rewrite Hb|by rewrite Hb in Hne].
Qed.

(** Inserting mark [i] at the head of the list of order [o]. *)
Lemma list_insert_head k k' o i h :
  geo k → is_order o → 0 ≤ i < nmarks o → list_ok k o → khead k o = h → bmap k o i = 0 →
  khead k' o = i → bmap k' o i ≠ 0 →
  (∀ j, 0 ≤ j < nmarks o → i ≠ j → bmap k' o j = bmap k o j) →
  pre k' o i = NIL → nxt k' o i = h →
  (∀ j, 0 ≤ j < nmarks o → i ≠ j → pre k' o j = if h =? j then i else pre k o j) →
  (∀ j, 0 ≤ j < nmarks o → i ≠ j → nxt k' o j = nxt k o j) →
  list_ok k' o.
Proof.
  intros Hg Ho Hi (L & q & Hs & Hnd & Hin) <- Hb0 Hh Hb1 Hb Hp Hn Hpj Hnj.
  assert (HiL : i ∉ L) by (rewrite Hin; naive_solver).
  exists (i :: L), (default i (last L)). rewrite Hh. split; [|split].
  - simpl. split; [done|]. split; [done|]. rewrite Hn.
    destruct L as [|j L].
    + simpl in Hs |- *. naive_solver.
    + simpl in Hs. destruct Hs as (Hhj & Hpre & Hs). pose proof (seg_last _ _ _ _ _ _ _ Hs) as ->.
      assert (Hjr : 0 ≤ j < nmarks o) by (apply Hin; set_solver).
      simpl. split; [done|]. split.
      * rewrite Hpj by set_solver. by rewrite Hhj, Z.eqb_refl.
      * apply NoDup_cons in Hnd as [HjL _]. rewrite Hnj by set_solver.
        replace (default i (last (j :: L))) with (default j (last L))
          by (change (j :: L) with ([j] ++ L); rewrite last_app; by destruct (last L)).
        eapply seg_ext, Hs. intros x Hx.
        assert (Hxr : 0 ≤ x < nmarks o) by (apply Hin; set_solver).
        rewrite Hpj, Hnj by set_solver. split; [|done].
        destruct (Z.eqb_spec (khead k o) x); [set_solver|done].
  - by apply NoDup_cons.
  - intros j. rewrite elem_of_cons, Hin. split.
    + intros [->|[Hj Hne]]; [done|]. split; [done|].
      destruct (decide (i = j)) as [<-|]; [done|]. by rewrite Hb.
    + intros [Hj Hne]. destruct (decide (j = i)) as [->|]; [by left|]. right.
      split; [done|]. by rewrite Hb in Hne by congruence.
Qed.

Lemma khead_range k o : wf k → is_order o →
  khead k o = NIL ∨ 0 ≤ khead k o < nmarks o ∧ bmap k o (khead k o) ≠ 0.
Proof.
  intros Hwf Ho. destruct (wf_list _ Hwf o Ho) as (L & q & Hs & Hnd & Hin).
  destruct L as [|h L]; simpl in Hs; [naive_solver|]. destruct Hs as (-> & _). right.
  apply Hin. set_solver.
Qed.

Definition same_bounds (k k' : kmem) : Prop :=
  k_start k' = k_start k ∧ k_start_heap k' = k_start_heap k ∧ k_end k' = k_end k.

Lemma setbit_bm k o b : wf k → is_order o → 0 ≤ b < 32 * nmarks o →
  let bm := Z.lor (bmap k o (Z.shiftr b 5)) (bit (Z.land b 0x1F)) in
  0 ≤ bm < 2 ^ 32 ∧ u32 bm = bm ∧ bm ≠ 0 ∧
  ∀ j, 0 ≤ j → Z.testbit bm j =
    if Z.land b 0x1F =? j then true else Z.testbit (bmap k o (Z.shiftr b 5)) j.
Proof.
  intros Hwf Ho Hb bm. destruct (blk_split b) as [_ Hr]; [lia|].
  pose proof (wf_bm _ Hwf o _ Ho (blk_mark _ _ Hb)) as Hbm.
  assert (Hbit : ∀ j, 0 ≤ j → Z.testbit bm j =
    if Z.land b 0x1F =? j then true else Z.testbit (bmap k o (Z.shiftr b 5)) j).
  { intros j Hj. unfold bm. rewrite testbit_setbit by lia. by destruct (_ =? j). }
  assert (Hrange : 0 ≤ bm < 2 ^ 32) by (apply setbit_range; lia).
  split; [done|]. split; [by apply u32_small|]. split; [|done].
  intros H0. specialize (Hbit (Z.land b 0x1F) ltac:(lia)).
  by rewrite H0, Z.bits_0, Z.eqb_refl in Hbit.
Qed.

Lemma NEXT_range l : 0 ≤ NEXT_LNK l < 2 ^ 16.
Proof.
  unfold NEXT_LNK. change 0xFFFF with (Z.ones 16). rewrite Z.land_ones by lia.
  by apply Z.mod_pos_bound.
Qed.

(** [k'] differs from [k] only in the links and head of order [o]. *)
Definition relinked (o : Z) (k k' : kmem) : Prop :=
  geo k' ∧ same_bounds k k' ∧
  (∀ o' j, is_order o' → 0 ≤ j < nmarks o' → o' ≠ o → kmark k' o' j = kmark k o' j) ∧
  (∀ o', is_order o' → o' ≠ o → khead k' o' = khead k o') ∧
  (∀ j, 0 ≤ j < nmarks o → bmap k' o j = bmap k o j).

Lemma relinked_refl o k : geo k → relinked o k k.
Proof. intros Hg. split; [done|]. by repeat split. Qed.
Lemma relinked_trans o k1 k2 k3 : relinked o k1 k2 → relinked o k2 k3 → relinked o k1 k3.
Proof.
  intros (_ & (?&?&?) & Hm & Hh & Hb) (Hg & (?&?&?) & Hm' & Hh' & Hb').
  split; [done|]. split; [repeat split; congruence|].
  split; [|split]; intros; rewrite ?Hm', ?Hh', ?Hb' by done; auto.
Qed.

Lemma relinked_wr o i mk k :
  geo k → is_order o → 0 ≤ i < nmarks o → bitmap mk = bmap k o i → relinked o k (wr o i mk k).
Proof.
  intros Hg Ho Hi Hb. split; [by apply geo_wr|]. split; [done|]. split; [|split; [done|]].
  - intros o' j Ho' Hj Hne. rewrite kmark_wr by done. zcase. done.
  - intros j Hj. unfold bmap. rewrite kmark_wr by done. zcase.
    rewrite Hb. unfold bmap. repeat f_equal. lia.
Qed.

Lemma relinked_sethead o v k : geo k → is_order o → relinked o k (sethead o v k).
Proof.
  intros Hg Ho. split; [by apply geo_sethead|]. split; [done|]. split; [done|].
  split; [|done]. intros o' Ho' Hne. rewrite khead_sethead by done. by zcase.
Qed.

Lemma link_mark_ok k o i :
  geo k → is_order o → 0 ≤ i < nmarks o →
  khead k o = NIL ∨ (0 ≤ khead k o < nmarks o ∧ khead k o ≠ i) →
  ∃ k', link_mark o (moff o + i) i k = Ok tt k' ∧ relinked o k k' ∧
    khead k' o = i ∧ pre k' o i = NIL ∧ nxt k' o i = khead k o ∧
    (∀ j, 0 ≤ j < nmarks o → i ≠ j →
       pre k' o j = (if khead k o =? j then i else pre k o j) ∧ nxt k' o j = nxt k o j).
Proof.
  intros Hg Ho Hi Hh. set (h := khead k o) in *.
  pose proof (nmarks_lt_NIL o ltac:(apply Hg) Ho) as HNIL. unfold NIL in HNIL.
  set (k1 := wr o i (set_lnks (LNKS NIL h) (kmark k o i)) k).
  assert (R1 : relinked o k k1) by (by apply relinked_wr).
  assert (Hm1 : ∀ j, 0 ≤ j < nmarks o → kmark k1 o j =
    if i =? j then set_lnks (LNKS NIL h) (kmark k o i) else kmark k o j).
  { intros j Hj. unfold k1. by rewrite kmark_wr, Z.eqb_refl by done. }
  set (k2 := if h =? NIL then k1
             else wr o h (set_lnks (LNKS i (NEXT_LNK (lnks (kmark k1 o h)))) (kmark k1 o h)) k1).
  assert (R2 : relinked o k1 k2).
  { unfold k2. destruct (Z.eqb_spec h NIL); [apply relinked_refl, R1|].
    apply relinked_wr; [apply R1|done|naive_solver|done]. }
  exists (sethead o i k2). split.
  { unfold link_mark. erewrite bind_ok by (by apply get_order_rec_ok).
    erewrite bind_ok by (by apply read_mark_ok).
    rewrite (bind_ok (write_mark _ _) _ _ tt k1) by reflexivity.
    erewrite bind_ok; [apply set_head_ok; [apply R2|done]|]. unfold k2.
    cbn [head]. fold h. destruct (Z.eqb_spec h NIL) as [He|He]; [done|]. simpl.
    destruct Hh as [|[Hh _]]; [done|].
    erewrite bind_ok by (apply get_mark_ok; [apply R1|done..]).
    erewrite bind_ok by (apply read_mark_ok; [apply R1|done..]). done. }
  split; [eapply relinked_trans, relinked_trans; [exact R1|exact R2|]; apply relinked_sethead;
    [apply R2|done]|].
  split; [rewrite khead_sethead, Z.eqb_refl; [done|apply R2|done..]|].
  assert (Hpn : ∀ j, pre (sethead o i k2) o j = pre k2 o j ∧ nxt (sethead o i k2) o j = nxt k2 o j) by done.
  assert (Hm2 : ∀ j, 0 ≤ j < nmarks o → kmark k2 o j =
    if (h =? j) then set_lnks (LNKS i (NEXT_LNK (lnks (kmark k1 o h)))) (kmark k1 o h)
    else kmark k1 o j).
  { intros j Hj. unfold k2. destruct (Z.eqb_spec h NIL) as [He|He].
    - rewrite He. destruct (Z.eqb_spec NIL j); [unfold NIL in *; lia|done].
    - destruct Hh as [|[Hh _]]; [done|].
      rewrite kmark_wr, Z.eqb_refl; [done|apply R1|done..]. }
  assert (Hhi : (h =? i) = false) by (unfold NIL in *; lia).
  assert (Hhr : 0 ≤ h < 2 ^ 16) by (unfold NIL in *; lia).
  unfold pre, nxt. change (kmark (sethead o i k2)) with (kmark k2).
  rewrite Hm2, Hhi, Hm1, Z.eqb_refl by done. simpl.
  rewrite PRE_LNKS, NEXT_LNKS by (unfold NIL; lia). do 2 (split; [done|]).
  intros j Hj Hij. rewrite Hm2 by done. destruct (Z.eqb_spec h j) as [->|].
  - simpl. rewrite PRE_LNKS, NEXT_LNKS by (first [apply NEXT_range|lia]).
    rewrite Hm1 by done. destruct (Z.eqb_spec i j); done.
  - rewrite Hm1 by done. destruct (Z.eqb_spec i j); done.
Qed.

(** [k'] is [k] with block [b] of order [o] made available or unavailable. *)
Definition marked (o b : Z) (v : bool) (k k' : kmem) : Prop :=
  wf k' ∧ same_bounds k k' ∧
  ∀ o' b', is_order o' → 0 ≤ b' < 32 * nmarks o' →
    isfree k' o' b' = if (o =? o') && (b =? b') then v else isfree k o' b'.

Lemma nblk_mark k o b : geo k → is_order o → 0 ≤ b < nblks o → 0 ≤ b < 32 * nmarks o.
Proof. intros Hg Ho Hb. pose proof (nblks_marks o Ho (proj2 (geo_NB _ Hg))). lia. Qed.

(** Rewriting the bitmap of one mark, and then the links of its order. *)
Section rebits.
Context (k : kmem) (o b bm : Z) (v : bool).
Context (Hwf : wf k) (Ho : is_order o) (Hb : 0 ≤ b < nblks o) (Hbr : 0 ≤ bm < 2 ^ 32).
Context (Hbits : ∀ j, 0 ≤ j → Z.testbit bm j =
  if Z.land b 0x1F =? j then v else Z.testbit (bmap k o (Z.shiftr b 5)) j).

Definition rebits : kmem :=
  wr o (Z.shiftr b 5) (set_bitmap bm (kmark k o (Z.shiftr b 5))) k.

Lemma rebits_mark : 0 ≤ b < 32 * nmarks o ∧ 0 ≤ Z.shiftr b 5 < nmarks o.
Proof.
  pose proof (nblk_mark k o b (wf_geo _ Hwf) Ho Hb) as Hb'. pose proof (blk_mark _ _ Hb'). done.
Qed.
Lemma rebits_geo : geo rebits.
Proof. apply geo_wr, Hwf. Qed.
Lemma kmark_rebits o' j : is_order o' → 0 ≤ j < nmarks o' → kmark rebits o' j =
  if (o =? o') && (Z.shiftr b 5 =? j) then set_bitmap bm (kmark k o j) else kmark k o' j.
Proof.
  intros Ho' Hj. unfold rebits. rewrite kmark_wr; [|apply Hwf|done|apply rebits_mark|done..].
  destruct (Z.eqb_spec (Z.shiftr b 5) j) as [->|]; [done|]. by rewrite !andb_false_r.
Qed.
Lemma lnks_rebits j : 0 ≤ j < nmarks o → lnks (kmark rebits o j) = lnks (kmark k o j).
Proof. intros Hj. rewrite kmark_rebits by done. by zcase. Qed.
Lemma bmap_relinked k' j : relinked o rebits k' → 0 ≤ j < nmarks o →
  bmap k' o j = if Z.shiftr b 5 =? j then bm else bmap k o j.
Proof.
  intros (_ & _ & _ & _ & Hr) Hj. rewrite Hr by done. unfold bmap.
  rewrite kmark_rebits, Z.eqb_refl by done. by destruct (_ =? j).
Qed.

Lemma rebits_marked k' : relinked o rebits k' → list_ok k' o → marked o b v k k'.
Proof.
  intros HR Hl. pose proof (λ j, bmap_relinked k' j HR) as Hbm.
  destruct HR as (Hg' & Hs & Hmk & Hh & _). destruct rebits_mark as [Hb' Hi].
  destruct (wf_update k k' o b v Hwf Ho Hb' (λ _, proj2 Hb) Hg') as [Hwf' Hfr'].
  - intros o' j Ho' Hj Hne. rewrite Hmk, kmark_rebits by done. by zcase.
  - intros o' Ho' Hne. by rewrite Hh.
  - intros j Hj Hne. rewrite Hbm by done. by zcase.
  - by rewrite Hbm, Z.eqb_refl.
  - by rewrite Hbm, Z.eqb_refl.
  - done.
  - done.
Qed.

(** Whether the mark is on the list does not change. *)
Lemma rebits_same : (bmap k o (Z.shiftr b 5) ≠ 0 ↔ bm ≠ 0) → marked o b v k rebits.
Proof.
  intros Hiff. pose proof (relinked_refl o _ rebits_geo) as HR.
  apply rebits_marked; [done|]. destruct rebits_mark as [_ Hi].
  apply (list_ok_same k rebits o (Z.shiftr b 5)); [by apply (wf_list _ Hwf)|done|apply lnks_rebits|done| |].
  - intros j Hj Hne. rewrite bmap_relinked by done. by zcase.
  - by rewrite (bmap_relinked rebits), Z.eqb_refl.
Qed.
End rebits.

Lemma mark_blk_ok k o b :
  wf k → is_order o → 0 ≤ b < nblks o → isfree k o b = false →
  ∃ k', mark_blk o b k = Ok tt k' ∧ marked o b true k k'.
Proof.
  intros Hwf Ho Hb Hfr. pose proof (wf_geo _ Hwf) as Hg.
  destruct (rebits_mark k o b Hwf Ho Hb) as [Hb' Hi].
  destruct (setbit_bm k o b Hwf Ho Hb') as (Hbr & Hu & Hne & Hbits).
  set (i := Z.shiftr b 5) in *. set (bm := Z.lor (bmap k o i) _) in *.
  pose proof (rebits_geo k o b bm Hwf) as Hg1.
  assert (Hrun : mark_blk o b k =
    when (bmap k o i =? 0) (link_mark o (moff o + i) i) (rebits k o b bm)).
  { unfold mark_blk. erewrite bind_ok by (by apply get_mark_ok).
    erewrite bind_ok by (by apply read_mark_ok).
    rewrite available_testbit by lia. fold i.
    change (Z.testbit (bitmap (kmark k o i)) (Z.land b 31)) with (isfree k o b). rewrite Hfr.
    change (bitmap (kmark k o i)) with (bmap k o i). fold bm. rewrite Hu.
    by rewrite (bind_ok (write_mark _ _) _ _ tt (rebits k o b bm)) by reflexivity. }
  rewrite Hrun. clear Hrun.
  destruct (Z.eqb_spec (bmap k o i) 0) as [H0|H0].
  2: { eexists. split; [done|]. by apply rebits_same. }
  destruct (link_mark_ok (rebits k o b bm) o i Hg1 Ho Hi) as (k' & Hrun & HR & Hh & Hp & Hn & Hj).
  { destruct (khead_range k o Hwf Ho) as [|[? ?]]; [by left|right].
    split; [done|]. change (khead (rebits k o b bm) o) with (khead k o). congruence. }
  exists k'. split; [done|]. apply (rebits_marked k o b bm); try done.
  pose proof (λ j, bmap_relinked k o b bm Hwf Ho Hb k' j HR) as Hb1. fold i in Hb1.
  pose proof (lnks_rebits k o b bm Hwf Ho Hb) as Hl1.
  eapply (list_insert_head k k' o i (khead k o)); try done.
  - by apply (wf_list _ Hwf).
  - by rewrite Hb1, Z.eqb_refl.
  - intros j Hj' Hne'. rewrite Hb1 by done. by zcase.
  - intros j Hj' Hne'. destruct (Hj j Hj' Hne') as [-> _].
    change (khead (rebits k o b bm) o) with (khead k o). zcase.
    unfold pre. by rewrite Hl1.
  - intros j Hj' Hne'. destruct (Hj j Hj' Hne') as [_ ->]. unfold nxt. by rewrite Hl1.
Qed.

(** Removing mark [i] from the list of order [o]. *)
Lemma list_remove k k' o i :
  geo k → is_order o → 0 ≤ i < nmarks o → list_ok k o → bmap k o i ≠ 0 →
  khead k' o = (if khead k o =? i then nxt k o i else khead k o) →
  bmap k' o i = 0 →
  (∀ j, 0 ≤ j < nmarks o → i ≠ j → bmap k' o j = bmap k o j) →
  (∀ j, 0 ≤ j < nmarks o → i ≠ j → pre k' o j = if nxt k o i =? j then pre k o i else pre k o j) →
  (∀ j, 0 ≤ j < nmarks o → i ≠ j → nxt k' o j = if pre k o i =? j then nxt k o i else nxt k o j) →
  list_ok k' o.
Proof.
  intros Hg Ho Hi (L & q & Hs & Hnd & Hin) Hbi Hh Hb0 Hb Hp Hn.
  assert (HiL : i ∈ L) by (by apply Hin). apply list_elem_of_split in HiL as (L1 & L2 & ->).
  assert (HNIL : NIL ∉ L1 ++ i :: L2).
  { intros Hx%Hin. pose proof (nmarks_lt_NIL o ltac:(apply Hg) Ho). lia. }
  pose proof Hnd as [Hi2 Hnd2]%NoDup_mid.
  assert (Hr : ∀ j, j ∈ L1 ++ L2 → 0 ≤ j < nmarks o ∧ i ≠ j).
  { intros j Hj. split; [apply Hin, elem_of_mid; by right|]. by intros ->. }
  pose proof (seg_first _ _ _ _ _ _ _ Hs) as Hf.
  rewrite elem_of_mid, elem_of_app in HNIL.
  exists (L1 ++ L2), (default NIL (last (L1 ++ L2))). split; [|split; [done|]].
  - replace (khead k' o) with (default (nxt k o i) (list.head L1)).
    { eapply seg_remove; [exact Hs|done|tauto|tauto| |];
        intros j [? ?]%Hr; [by apply Hp|by apply Hn]. }
    rewrite Hh, Hf. destruct L1 as [|x L1]; simpl; [by rewrite Z.eqb_refl|].
    destruct (Z.eqb_spec x i) as [->|]; [|done]. destruct Hi2. by left.
  - intros j. split.
    + intros Hj. destruct (Hr j Hj) as [? Hne]. split; [done|]. rewrite Hb by done.
      apply Hin, elem_of_mid. by right.
    + intros [Hj Hne]. destruct (decide (i = j)) as [<-|Hij]; [done|].
      rewrite Hb in Hne by done.
      assert (j ∈ L1 ++ i :: L2) as [|]%elem_of_mid by (by apply Hin); [congruence|done].
Qed.

(** The neighbours of a listed mark: each is NIL or a mark, and only the head
    has no predecessor. *)
Lemma list_neighbours k o i :
  geo k → is_order o → list_ok k o → 0 ≤ i < nmarks o → bmap k o i ≠ 0 →
  (pre k o i = NIL ∧ khead k o = i ∨
   0 ≤ pre k o i < nmarks o ∧ bmap k o (pre k o i) ≠ 0 ∧ pre k o i ≠ i ∧ khead k o ≠ i) ∧
  (nxt k o i = NIL ∨ 0 ≤ nxt k o i < nmarks o ∧ nxt k o i ≠ i ∧ nxt k o i ≠ pre k o i).
Proof.
  intros Hg Ho (L & q & Hs & Hnd & Hin) Hi Hb.
  assert (HiL : i ∈ L) by (by apply Hin). apply list_elem_of_split in HiL as (L1 & L2 & ->).
  assert (HNIL : NIL ∉ L1 ++ i :: L2).
  { intros Hx%Hin. pose proof (nmarks_lt_NIL o ltac:(apply Hg) Ho). lia. }
  rewrite elem_of_mid, elem_of_app in HNIL.
  pose proof Hnd as [Hi2 Hnd2]%NoDup_mid. apply NoDup_app in Hnd2 as (_ & Hd & _).
  pose proof (seg_first _ _ _ _ _ _ _ Hs) as Hf.
  apply seg_app in Hs as (p1 & c1 & Hs1 & -> & Hp & Hs2).
  pose proof (seg_first _ _ _ _ _ _ _ Hs2) as Hn. pose proof (seg_last _ _ _ _ _ _ _ Hs1) as Hl.
  assert (Hr : ∀ j, j ∈ L1 ++ L2 → 0 ≤ j < nmarks o ∧ bmap k o j ≠ 0 ∧ j ≠ i).
  { intros j Hj. assert (j ∈ L1 ++ i :: L2) as [? ?]%Hin by (apply elem_of_mid; by right).
    split; [done|]. split; [done|]. by intros ->. }
  assert (HL1 : ∀ x, last L1 = Some x → x ∈ L1).
  { intros x [? ->]%last_Some. apply elem_of_app. right. by left. }
  rewrite Hp, Hl, Hn, Hf. split.
  - destruct L1 as [|x L1]; [by left|right].
    destruct (last (x :: L1)) as [y|] eqn:E; [|by apply last_None in E].
    destruct (Hr y) as (? & ? & ?); [apply elem_of_app; auto|]. do 3 (split; [done|]).
    simpl. apply (Hr x). by left.
  - destruct L2 as [|y L2]; [by left|right]. simpl.
    assert (y ∈ L1 ++ y :: L2) by (apply elem_of_mid; by left).
    destruct (Hr y) as (? & ? & ?); [done|].
    split; [done|]. split; [done|]. destruct (last L1) eqn:E; simpl.
    + intros <-. apply (Hd y); [auto|by left].
    + intros ->. apply HNIL. right. right. by left.
Qed.

Lemma unlink_prev_ok k o i p n :
  geo k → is_order o → 0 ≤ n < 2 ^ 16 →
  p = NIL ∧ khead k o = i ∨ 0 ≤ p < nmarks o ∧ 0 ≤ pre k o p < 2 ^ 16 ∧ p ≠ i ∧ khead k o ≠ i →
  ∃ k', unlink_prev o i p n k = Ok tt k' ∧ relinked o k k' ∧
    khead k' o = (if khead k o =? i then n else khead k o) ∧
    ∀ j, 0 ≤ j < nmarks o → pre k' o j = pre k o j ∧
      nxt k' o j = (if p =? j then n else nxt k o j).
Proof.
  intros Hg Ho Hn Hp. pose proof (nmarks_lt_NIL o ltac:(apply Hg) Ho) as HNIL.
  unfold unlink_prev. destruct Hp as [[-> Hh]|(Hpp & Hpre & Hpi & Hh)].
  - rewrite Z.eqb_refl. simpl. erewrite bind_ok by (by apply get_order_rec_ok). simpl.
    rewrite Hh, Z.eqb_refl. exists (sethead o n k). split; [by apply set_head_ok|].
    split; [by apply relinked_sethead|]. split; [by rewrite khead_sethead, Z.eqb_refl|].
    intros j Hj. split; [done|]. by zcase.
  - replace (negb (p =? NIL)) with true by lia.
    set (mk := set_lnks (LNKS (PRE_LNK (lnks (kmark k o p))) n) (kmark k o p)).
    exists (wr o p mk k). split; [|split; [by apply relinked_wr|split; [by zcase|]]].
    + erewrite bind_ok by (by apply get_mark_ok). by erewrite bind_ok by (by apply read_mark_ok).
    + intros j Hj. unfold pre, nxt. rewrite kmark_wr, Z.eqb_refl by done. simpl.
      destruct (Z.eqb_spec p j) as [<-|]; [|done]. simpl. by rewrite PRE_LNKS, NEXT_LNKS.
Qed.

Lemma unlink_next_ok k o p n :
  geo k → is_order o → 0 ≤ p < 2 ^ 16 → n = NIL ∨ 0 ≤ n < nmarks o →
  ∃ k', unlink_next o p n k = Ok tt k' ∧ relinked o k k' ∧ khead k' o = khead k o ∧
    ∀ j, 0 ≤ j < nmarks o → pre k' o j = (if n =? j then p else pre k o j) ∧
      nxt k' o j = nxt k o j.
Proof.
  intros Hg Ho Hp Hn. pose proof (nmarks_lt_NIL o ltac:(apply Hg) Ho) as HNIL.
  unfold unlink_next. destruct Hn as [->|Hn].
  - exists k. split; [done|]. split; [by apply relinked_refl|]. split; [done|].
    intros j Hj. split; [|done]. by zcase.
  - replace (negb (n =? NIL)) with true by lia.
    set (mk := set_lnks (LNKS p (NEXT_LNK (lnks (kmark k o n)))) (kmark k o n)).
    exists (wr o n mk k). split; [|split; [by apply relinked_wr|split; [done|]]].
    + simpl. erewrite bind_ok by (by apply get_mark_ok).
      by erewrite bind_ok by (by apply read_mark_ok).
    + intros j Hj. unfold pre, nxt. rewrite kmark_wr, Z.eqb_refl by done. simpl.
      destruct (Z.eqb_spec n j) as [<-|]; [|done]. simpl.
      rewrite PRE_LNKS, NEXT_LNKS by (first [apply NEXT_range|done]). done.
Qed.

Lemma unlink_mark_ok k o i l p n :
  geo k → is_order o → 0 ≤ i < nmarks o → PRE_LNK l = p → NEXT_LNK l = n →
  p = NIL ∧ khead k o = i ∨ 0 ≤ p < nmarks o ∧ 0 ≤ pre k o p < 2 ^ 16 ∧ p ≠ i ∧ khead k o ≠ i →
  n = NIL ∨ 0 ≤ n < nmarks o →
  ∃ k', unlink_mark o (moff o + i) i l k = Ok tt k' ∧ relinked o k k' ∧
    khead k' o = (if khead k o =? i then n else khead k o) ∧
    ∀ j, 0 ≤ j < nmarks o → i ≠ j →
      pre k' o j = (if n =? j then p else pre k o j) ∧
      nxt k' o j = (if p =? j then n else nxt k o j).
Proof.
  intros Hg Ho Hi Hpl Hnl Hp Hn. pose proof (nmarks_lt_NIL o ltac:(apply Hg) Ho) as HNIL.
  assert (Hnr : 0 ≤ n < 2 ^ 16) by (rewrite <- Hnl; apply NEXT_range).
  assert (Hpr : 0 ≤ p < 2 ^ 16) by (unfold NIL in *; lia).
  destruct (unlink_prev_ok k o i p n Hg Ho Hnr Hp) as (k1 & E1 & R1 & Hh1 & L1).
  destruct (unlink_next_ok k1 o p n ltac:(apply R1) Ho Hpr Hn) as (k2 & E2 & R2 & Hh2 & L2).
  assert (Hg2 : geo k2) by apply R2.
  exists (wr o i (set_lnks (LNKS NIL NIL) (kmark k2 o i)) k2). split; [|split; [|split]].
  - unfold unlink_mark. rewrite Hpl, Hnl, (bind_ok _ _ _ _ _ E1), (bind_ok _ _ _ _ _ E2).
    by erewrite bind_ok by (by apply read_mark_ok).
  - eapply relinked_trans; [exact R1|]. eapply relinked_trans; [exact R2|]. by apply relinked_wr.
  - by rewrite <- Hh1, <- Hh2.
  - intros j Hj Hij. destruct (L1 j Hj) as [A1 B1], (L2 j Hj) as [A2 B2].
    rewrite <- A1, <- A2, <- B1, <- B2. unfold pre, nxt. rewrite kmark_wr by done.
    destruct (Z.eqb_spec i j); [done|]. by rewrite andb_false_r.
Qed.

Lemma clrbit_bm k o b : wf k → is_order o → 0 ≤ b < 32 * nmarks o →
  let bm := Z.land (bmap k o (Z.shiftr b 5)) (Z.lnot (bit (Z.land b 0x1F))) in
  0 ≤ bm < 2 ^ 32 ∧ u32 bm = bm ∧
  ∀ j, 0 ≤ j → Z.testbit bm j =
    if Z.land b 0x1F =? j then false else Z.testbit (bmap k o (Z.shiftr b 5)) j.
Proof.
  intros Hwf Ho Hb bm. destruct (blk_split b) as [_ Hr]; [lia|].
  pose proof (wf_bm _ Hwf o _ Ho (blk_mark _ _ Hb)) as Hbm.
  assert (0 ≤ bm < 2 ^ 32) by (apply clrbit_range; lia).
  split; [done|]. split; [by apply u32_small|]. intros j Hj. unfold bm.
  rewrite testbit_clrbit by lia. by destruct (_ =? j).
Qed.

Lemma unmark_blk_ok k o b :
  wf k → is_order o → 0 ≤ b < nblks o → isfree k o b = true →
  ∃ k', unmark_blk o b k = Ok tt k' ∧ marked o b false k k'.
Proof.
  intros Hwf Ho Hb Hfr. pose proof (wf_geo _ Hwf) as Hg.
  destruct (rebits_mark k o b Hwf Ho Hb) as [Hb' Hi].
  destruct (clrbit_bm k o b Hwf Ho Hb') as (Hbr & Hu & Hbits).
  destruct (blk_split b) as [_ Hlow]; [lia|].
  assert (Hne : bmap k o (Z.shiftr b 5) ≠ 0).
  { intros H0. unfold isfree in Hfr. by rewrite H0, Z.bits_0 in Hfr. }
  set (i := Z.shiftr b 5) in *. set (bm := Z.land (bmap k o i) _) in *.
  pose proof (rebits_geo k o b bm Hwf) as Hg1.
  assert (Hrun : unmark_blk o b k =
    when (bm =? 0) (unlink_mark o (moff o + i) i (lnks (kmark k o i))) (rebits k o b bm)).
  { unfold unmark_blk. erewrite bind_ok by (by apply get_mark_ok).
    erewrite bind_ok by (by apply read_mark_ok).
    rewrite available_testbit by lia. fold i.
    change (Z.testbit (bitmap (kmark k o i)) (Z.land b 31)) with (isfree k o b). rewrite Hfr.
    change (bitmap (kmark k o i)) with (bmap k o i). fold bm. rewrite Hu. cbn [negb].
    by rewrite (bind_ok (write_mark _ _) _ _ tt (rebits k o b bm)) by reflexivity. }
  rewrite Hrun. clear Hrun.
  destruct (Z.eqb_spec bm 0) as [H0|H0].
  2: { eexists. split; [done|]. by apply rebits_same. }
  pose proof (wf_list _ Hwf o Ho) as Hl.
  pose proof (lnks_rebits k o b bm Hwf Ho Hb) as Hl1.
  destruct (list_neighbours k o i Hg Ho Hl Hi Hne) as [Hp Hn].
  destruct (unlink_mark_ok (rebits k o b bm) o i (lnks (kmark k o i)) (pre k o i) (nxt k o i)
    Hg1 Ho Hi eq_refl eq_refl) as (k' & Hrun & HR & Hh & Hj); [|naive_solver|].
  { destruct Hp as [?|(Hpr & Hpb & ? & ?)]; [by left|right]. split; [done|]. split; [|done].
    destruct (list_neighbours k o _ Hg Ho Hl Hpr Hpb) as [Hpp _].
    pose proof (nmarks_lt_NIL o ltac:(apply Hg) Ho). unfold pre at 1 3. rewrite Hl1 by done.
    fold (pre k o (pre k o i)). unfold NIL in *. lia. }
  exists k'. split; [done|]. apply (rebits_marked k o b bm); try done.
  pose proof (λ j, bmap_relinked k o b bm Hwf Ho Hb k' j HR) as Hb1. fold i in Hb1.
  apply (list_remove k k' o i); try done.
  - by rewrite Hb1, Z.eqb_refl.
  - intros j Hj' Hne'. rewrite Hb1 by done. by zcase.
  - intros j Hj' Hne'. destruct (Hj j Hj' Hne') as [-> _]. unfold pre at 2. by rewrite Hl1.
  - intros j Hj' Hne'. destruct (Hj j Hj' Hne') as [_ ->]. unfold nxt at 2. by rewrite Hl1.
Qed.

(** ** Addresses *)

Definition addr (k : kmem) (o b : Z) : Z := k_start_heap k + b * 2 ^ o.

Lemma nblks_bytes o : is_order o → nblks o * 2 ^ o = NB * 4096.
Proof.
  unfold nblks. intros Ho.
  destruct (order_cases o Ho) as [->|[->|[->|[->|[->|[->| ->]]]]]]; cbn; lia.
Qed.

Lemma pow_order o : is_order o → 64 ≤ 2 ^ o ≤ 4096.
Proof.
  intros Ho. destruct (order_cases o Ho) as [->|[->|[->|[->|[->|[->| ->]]]]]]; cbn; lia.
Qed.

(** The block offset is computed as an [int]: it stays below 2^31 because the
    mark indices stay below NIL. *)
Lemma blk_bytes k o b : geo k → is_order o → 0 ≤ b < nblks o →
  0 ≤ b * 2 ^ o ≤ NB * 4096 - 2 ^ o ∧ NB * 4096 < 2 ^ 31.
Proof.
  intros Hg Ho Hb. pose proof (nblks_bytes o Ho). pose proof (pow_order o Ho).
  pose proof (geo_N _ Hg). pose proof (geo_NB _ Hg). nia.
Qed.

Lemma blkid2mem_ok k o b : geo k → is_order o → 0 ≤ b < nblks o →
  blkid2mem k o b = addr k o b.
Proof.
  intros Hg Ho Hb. destruct (blk_bytes k o b Hg Ho Hb) as [? ?].
  pose proof (geo_base _ Hg) as (? & _ & ?). pose proof (pow_order o Ho).
  unfold blkid2mem, addr, bit. rewrite Z.shiftl_1_l, (Z.mul_comm (2 ^ o)), s32_small by lia.
  apply u64_small. lia.
Qed.

Lemma mem2blkid_ok k o b : geo k → is_order o → 0 ≤ b < nblks o →
  mem2blkid k o (addr k o b) = b.
Proof.
  intros Hg Ho Hb. destruct (blk_bytes k o b Hg Ho Hb) as [? ?].
  pose proof (pow_order o Ho). unfold mem2blkid, addr.
  replace (k_start_heap k + b * 2 ^ o - k_start_heap k) with (b * 2 ^ o) by lia.
  rewrite u64_small, Z.shiftr_div_pow2, Z.div_mul by (unfold is_order in *; lia).
  apply s32_small. nia.
Qed.

Lemma get_blk_ok k o :
  wf k → is_order o → khead k o ≠ NIL →
  ∃ b k', 0 ≤ b < nblks o ∧ isfree k o b = true ∧
    get_blk o k = Ok (addr k o b) k' ∧ marked o b false k k'.
Proof.
  intros Hwf Ho Hh. pose proof (wf_geo _ Hwf) as Hg.
  destruct (khead_range k o Hwf Ho) as [|[Hr Hb]]; [done|].
  pose proof (wf_bm _ Hwf o _ Ho Hr) as Hbr.
  unfold get_blk. erewrite bind_ok by (by apply get_order_rec_ok). cbn [head].
  erewrite bind_ok by (by apply get_mark_ok). erewrite bind_ok by (by apply read_mark_ok).
  change (bitmap (kmark k o (khead k o))) with (bmap k o (khead k o)) in *.
  set (h := khead k o) in *. rewrite (proj2 (Z.eqb_neq _ _) Hb).
  destruct (nonzero_has_bit _ 32 Hbr Hb) as (i0 & Hi0 & Ht0).
  destruct (least_true (Z.testbit (bmap k o h)) 0 i0 ltac:(lia) Ht0) as (i & Hi & Ht & Hleast).
  set (b := h * 32 + i).
  assert (Hdiv : Z.shiftr b 5 = h ∧ Z.land b 0x1F = i).
  { destruct (blk_split b) as [He ?]; unfold b in *; lia. }
  assert (Hfr : isfree k o b = true) by (unfold isfree; by rewrite (proj1 Hdiv), (proj2 Hdiv)).
  assert (Hbn : 0 ≤ b < nblks o).
  { split; [lia|]. apply (wf_blk _ Hwf); [done| |done]. lia. }
  destruct (unmark_blk_ok k o b Hwf Ho Hbn Hfr) as (k' & Hrun & Hm).
  exists b, k'. split; [done|]. split; [done|]. split; [|done].
  rewrite (bind_ok _ _ _ (Some (addr k o b)) k'); [reflexivity|]. unfold for_to.
  apply for_n_find with i; [lia| |].
  - intros j Hj. rewrite land_bit_ne0 by lia. by rewrite Hleast.
  - rewrite land_bit_ne0, Ht by lia. fold b. rewrite (bind_ok _ _ _ _ _ Hrun). run.
    rewrite blkid2mem_ok; [|apply Hm|done..]. unfold addr.
    destruct Hm as (_ & (_ & -> & _) & _). done.
Qed.

(** ** The abstract view: which bytes are free

    A byte is named by its offset [u] from [start_heap]; the block of order [o]
    that contains it is [u / 2 ^ o]. *)

Definition indom (u : Z) : Prop := 0 ≤ u < NB * 4096.
Definition free_at (k : kmem) (u : Z) : Prop :=
  ∃ o, is_order o ∧ isfree k o (u / 2 ^ o) = true.

(** No byte is in two available blocks. *)
Definition disj (k : kmem) : Prop :=
  ∀ u o o', indom u → is_order o → is_order o' →
    isfree k o (u / 2 ^ o) = true → isfree k o' (u / 2 ^ o') = true → o = o'.
(** Two available buddies have been merged. *)
Definition coal (k : kmem) : Prop :=
  ∀ o b, is_order o → o < 12 → 0 ≤ b < nblks o →
    isfree k o b = true → isfree k o (Z.lxor b 1) = false.

Record inv (k : kmem) : Prop := {
  inv_wf : wf k; inv_disj : disj k; inv_coal : coal k }.

Lemma dom_blk o u : is_order o → indom u → 0 ≤ u / 2 ^ o < nblks o.
Proof.
  intros Ho Hu. unfold indom in Hu. pose proof (pow_order o Ho).
  rewrite <- (nblks_bytes o Ho) in Hu. split.
  - apply Z.div_pos; lia.
  - apply Z.div_lt_upper_bound; lia.
Qed.
Lemma blk_dom o b u : is_order o → 0 ≤ b < nblks o → u / 2 ^ o = b → indom u.
Proof.
  intros Ho Hb <-. unfold indom. pose proof (pow_order o Ho). pose proof (nblks_bytes o Ho).
  pose proof (Z.mul_div_le u (2 ^ o)). pose proof (Z.mul_succ_div_gt u (2 ^ o)). nia.
Qed.
Lemma blk_first o b : is_order o → (b * 2 ^ o) / 2 ^ o = b.
Proof. intros Ho. pose proof (pow_order o Ho). apply Z.div_mul. lia. Qed.
Lemma div_up o u : is_order o → u / 2 ^ (o + 1) = u / 2 ^ o / 2.
Proof.
  intros Ho. unfold is_order in Ho. pose proof (pow_order o Ho).
  rewrite Z.pow_add_r, Z.div_div by lia. done.
Qed.
(** A block lies within one block of each higher order. *)
Lemma div_nest o o' u v : is_order o → is_order o' → o ≤ o' →
  u / 2 ^ o = v / 2 ^ o → u / 2 ^ o' = v / 2 ^ o'.
Proof.
  unfold is_order. intros Ho Ho' Hle He. replace o' with (o + (o' - o)) by lia.
  rewrite Z.pow_add_r, <- !Z.div_div, He by lia. done.
Qed.
Lemma lxor1 b : Z.lxor b 1 = b + 1 - 2 * (b mod 2).
Proof.
  pose proof (Z.add_lxor_2land b 1) as H. change (Z.land b 1) with (Z.land b (Z.ones 1)) in H.
  rewrite Z.land_ones in H by lia. change (2 ^ 1) with 2 in H. lia.
Qed.
Lemma landn1 b : Z.land b (Z.lnot 1) = 2 * (b / 2).
Proof.
  rewrite <- Z.ldiff_land. change 1 with (Z.ones 1). rewrite Z.ldiff_ones_r by lia.
  rewrite Z.shiftl_mul_pow2, Z.shiftr_div_pow2 by lia. change (2 ^ 1) with 2. lia.
Qed.
Lemma nblks_even o : is_order o → o < 12 → nblks o = 2 * nblks (o + 1).
Proof.
  unfold nblks. intros Ho Hlt.
  destruct (order_cases o Ho) as [->|[->|[->|[->|[->|[->| ->]]]]]]; cbn; lia.
Qed.
(** The buddy of a block: the other half of the block one order up, under the
    same mark. *)
Lemma buddy_ok o b : is_order o → o < 12 → 0 ≤ b < nblks o →
  0 ≤ Z.lxor b 1 < nblks o ∧ Z.lxor b 1 ≠ b ∧ Z.lxor b 1 / 2 = b / 2 ∧
  Z.shiftr (Z.lxor b 1) 5 = Z.shiftr b 5.
Proof.
  intros Ho Hlt Hb. rewrite lxor1, !Z.shiftr_div_pow2 by lia. change (2 ^ 5) with 32.
  rewrite (nblks_even o) in * by done.
  pose proof (Z.div_mod b 2). pose proof (Z.mod_pos_bound b 2).
  assert (b / 2 < nblks (o + 1)) by lia.
  assert ((b + 1 - 2 * (b mod 2)) / 2 = b / 2) as Hd.
  { symmetry. apply Z.div_unique with (1 - b mod 2); lia. }
  split; [lia|]. split; [lia|]. split; [done|].
  change 32 with (2 * 16). by rewrite <- !Z.div_div, Hd by lia.
Qed.

Section flip.
Context (k k' : kmem) (o b : Z) (Ho : is_order o) (Hb : 0 ≤ b < nblks o).

Lemma marked_at v u o' : marked o b v k k' → indom u → is_order o' →
  isfree k' o' (u / 2 ^ o') =
    if (o =? o') && (b =? u / 2 ^ o') then v else isfree k o' (u / 2 ^ o').
Proof.
  intros (Hwf & _ & H) Hu Ho'. apply H; [done|].
  apply (nblk_mark k'); [apply Hwf|done|by apply dom_blk].
Qed.

Lemma free_at_mark u : marked o b true k k' → indom u →
  free_at k' u ↔ free_at k u ∨ u / 2 ^ o = b.
Proof.
  intros Hm Hu. split.
  - intros (o' & Ho' & Hf). rewrite (marked_at true) in Hf by done.
    destruct ((o =? o') && (b =? u / 2 ^ o')) eqn:E; [right|left; by exists o'].
    assert (o = o' ∧ b = u / 2 ^ o') as [-> ->] by lia. done.
  - intros [(o' & Ho' & Hf)|Hub].
    + exists o'. split; [done|]. rewrite (marked_at true), Hf by done. by destruct (_ && _).
    + exists o. split; [done|]. by rewrite (marked_at true), <- Hub, !Z.eqb_refl by done.
Qed.

Lemma free_at_unmark u : disj k → isfree k o b = true → marked o b false k k' → indom u →
  free_at k' u ↔ free_at k u ∧ u / 2 ^ o ≠ b.
Proof.
  intros Hd Hfr Hm Hu. split.
  - intros (o' & Ho' & Hf). rewrite (marked_at false) in Hf by done.
    destruct ((o =? o') && (b =? u / 2 ^ o')) eqn:E; [done|].
    split; [by exists o'|]. intros <-. assert (o = o') as -> by (by eapply Hd).
    rewrite !Z.eqb_refl in E. done.
  - intros [(o' & Ho' & Hf) Hub]. exists o'. split; [done|].
    rewrite (marked_at false) by done. destruct (Z.eqb_spec o o') as [<-|]; [|done].
    destruct (Z.eqb_spec b (u / 2 ^ o)); [congruence|done].
Qed.

(** Making a block available keeps the invariant when no byte of it was
    available and its buddy is not. *)
Lemma inv_mark : inv k → (∀ u, u / 2 ^ o = b → ¬ free_at k u) →
  o = 12 ∨ isfree k o (Z.lxor b 1) = false → marked o b true k k' → inv k'.
Proof.
  intros [Hwf Hd Hc] Hun Hbud Hm. split; [apply Hm| |].
  - intros u o1 o2 Hu Ho1 Ho2. rewrite !(marked_at true) by done.
    destruct ((o =? o1) && (b =? u / 2 ^ o1)) eqn:E1,
             ((o =? o2) && (b =? u / 2 ^ o2)) eqn:E2; intros H1 H2.
    + lia.
    + assert (o = o1 ∧ b = u / 2 ^ o1) as [-> ?] by lia. destruct (Hun u); [done|]. by exists o2.
    + assert (o = o2 ∧ b = u / 2 ^ o2) as [-> ?] by lia. destruct (Hun u); [done|]. by exists o1.
    + by eapply Hd.
  - intros o1 b1 Ho1 Hlt Hb1. destruct Hm as (Hwf' & _ & Hm).
    destruct (buddy_ok o1 b1 Ho1 Hlt Hb1) as (Hx & Hne & _ & _).
    rewrite !Hm by (first [done|by eapply nblk_mark; [apply Hwf|..]]).
    destruct ((o =? o1) && (b =? b1)) eqn:E1.
    + assert (o = o1 ∧ b = b1) as [<- <-] by lia. intros _.
      destruct ((o =? o) && (b =? Z.lxor b 1)) eqn:E2; [lia|]. destruct Hbud; [lia|done].
    + intros Hf1. specialize (Hc _ _ Ho1 Hlt Hb1 Hf1).
      destruct ((o =? o1) && (b =? Z.lxor b1 1)) eqn:E2; [|done].
      assert (o = o1 ∧ b = Z.lxor b1 1) as [-> ->] by lia.
      destruct Hbud as [|Hbud]; [lia|].
      rewrite Z.lxor_assoc, Z.lxor_nilpotent, Z.lxor_0_r in Hbud. congruence.
Qed.

Lemma inv_unmark : inv k → marked o b false k k' → inv k'.
Proof.
  intros [Hwf Hd Hc] Hm. split; [apply Hm| |].
  - intros u o1 o2 Hu Ho1 Ho2. rewrite !(marked_at false) by done.
    destruct (_ && _), (_ && _); try done. by apply Hd.
  - intros o1 b1 Ho1 Hlt Hb1. destruct Hm as (Hwf' & _ & Hm).
    destruct (buddy_ok o1 b1 Ho1 Hlt Hb1) as (Hx & _).
    rewrite !Hm by (first [done|by eapply nblk_mark; [apply Hwf|..]]).
    destruct ((o =? o1) && (b =? b1)); [done|]. intros Hf.
    destruct (_ && _); [done|]. by apply Hc.
Qed.
End flip.

Lemma same_bounds_trans k1 k2 k3 : same_bounds k1 k2 → same_bounds k2 k3 → same_bounds k1 k3.
Proof. unfold same_bounds. naive_solver congruence. Qed.
Lemma addr_same k k' o b : same_bounds k k' → addr k' o b = addr k o b.
Proof. intros (_ & H & _). unfold addr. by rewrite H. Qed.
Lemma addr_up k o b : is_order o → addr k o (2 * (b / 2)) = addr k (o + 1) (b / 2).
Proof. intros Ho. unfold addr. unfold is_order in Ho. rewrite Z.pow_add_r by lia. lia. Qed.

(** ** _kfree *)

Lemma kfree_rec_eq n k o b : wf k → is_order o → 0 ≤ b < nblks o →
  kfree_rec (S n) (addr k o b) o k =
    (if isfree k o b then Panic "kfree: double free" k
     else if (o <? 12) && isfree k o (Z.lxor b 1) then
       (unmark_blk o (Z.lxor b 1) ;;
        let* k := gets (fun k => k) in
        kfree_rec n (blkid2mem k o (2 * (b / 2))) (o + 1)) k
     else mark_blk o b k).
Proof.
  intros Hwf Ho Hb. pose proof (wf_geo _ Hwf) as Hg.
  pose proof (nblk_mark k o b Hg Ho Hb) as Hb'. pose proof (blk_mark _ _ Hb') as Hi.
  cbn [kfree_rec]. erewrite bind_ok by reflexivity. rewrite mem2blkid_ok by done.
  erewrite bind_ok by (by apply get_mark_ok). erewrite bind_ok by (by apply read_mark_ok).
  rewrite available_testbit by lia.
  change (Z.testbit (bitmap (kmark k o (Z.shiftr b 5))) (Z.land b 31)) with (isfree k o b).
  destruct (isfree k o b); [done|]. rewrite landn1.
  destruct (Z.ltb_spec o 12) as [Hlt|Hge].
  - destruct (buddy_ok o b Ho Hlt Hb) as (Hbud & _ & _ & Hbmk).
    rewrite available_testbit, <- Hbmk by lia.
    change (Z.testbit (bitmap (kmark k o (Z.shiftr (Z.lxor b 1) 5))) (Z.land (Z.lxor b 1) 31))
      with (isfree k o (Z.lxor b 1)).
    replace (o =? MAX_ORD) with false by (unfold MAX_ORD; lia).
    by destruct (isfree k o (Z.lxor b 1)).
  - replace (o =? MAX_ORD) with true by (unfold is_order, MAX_ORD in *; lia).
    by rewrite orb_true_r.
Qed.

(** A block and its buddy make up the block one order up. *)
Lemma buddies_split o b u : is_order o → o < 12 → 0 ≤ b < nblks o → indom u →
  u / 2 ^ (o + 1) = b / 2 ↔ u / 2 ^ o = b ∨ u / 2 ^ o = Z.lxor b 1.
Proof.
  intros Ho Hlt Hb Hu. rewrite div_up by done. destruct (buddy_ok o b Ho Hlt Hb) as (_ & _ & Hd & _).
  split; [|intros [->| ->]; done]. rewrite lxor1.
  pose proof (Z.div_mod b 2). pose proof (Z.mod_pos_bound b 2).
  pose proof (Z.div_mod (u / 2 ^ o) 2). pose proof (Z.mod_pos_bound (u / 2 ^ o) 2). lia.
Qed.
Lemma blk_half o b : is_order o → o < 12 → 0 ≤ b < nblks o → 0 ≤ b / 2 < nblks (o + 1).
Proof.
  intros Ho Hlt Hb. rewrite (nblks_even o) in Hb by done. split; [apply Z.div_pos; lia|].
  apply Z.div_lt_upper_bound; lia.
Qed.
Lemma not_free_blk k o b : is_order o →
  (∀ u, u / 2 ^ o = b → ¬ free_at k u) → isfree k o b = false.
Proof.
  intros Ho Hun. destruct (isfree k o b) eqn:E; [|done].
  destruct (Hun (b * 2 ^ o)); [by apply blk_first|]. exists o. by rewrite blk_first.
Qed.

Lemma kfree_rec_ok n : ∀ k o b, inv k → is_order o → 0 ≤ b < nblks o →
  n = Z.to_nat (12 - o + 1) → (∀ u, u / 2 ^ o = b → ¬ free_at k u) →
  ∃ k', kfree_rec n (addr k o b) o k = Ok tt k' ∧ inv k' ∧ same_bounds k k' ∧
    ∀ u, indom u → free_at k' u ↔ free_at k u ∨ u / 2 ^ o = b.
Proof.
  induction n as [|n IH]; intros k o b Hinv Ho Hb Hn Hun; [unfold is_order in Ho; lia|].
  pose proof (inv_wf _ Hinv) as Hwf. pose proof (not_free_blk k o b Ho Hun) as Hfr.
  rewrite kfree_rec_eq, Hfr by done.
  destruct ((o <? 12) && isfree k o (Z.lxor b 1)) eqn:E.
  2: { destruct (mark_blk_ok k o b Hwf Ho Hb Hfr) as (k' & Hrun & Hm).
    exists k'. split; [done|]. split; [|split; [apply Hm|intros u Hu; by apply free_at_mark]].
    apply (inv_mark k k' o b); try done. unfold is_order in Ho.
    destruct (isfree k o (Z.lxor b 1)); [left; lia|by right]. }
  apply andb_prop in E as [Hlt Ebud]. apply Z.ltb_lt in Hlt.
  destruct (buddy_ok o b Ho Hlt Hb) as (Hbud & _ & _ & _).
  destruct (unmark_blk_ok k o _ Hwf Ho Hbud Ebud) as (k1 & Hrun & Hm).
  pose proof (λ u, free_at_unmark k k1 o _ Ho Hbud u (inv_disj _ Hinv) Ebud Hm) as Hfree1.
  pose proof (inv_unmark k k1 o _ Hinv Hm) as Hinv1.
  assert (Ho1 : is_order (o + 1)) by (unfold is_order in *; lia).
  pose proof (blk_half o b Ho Hlt Hb) as Hb1.
  rewrite (bind_ok _ _ _ _ _ Hrun). erewrite bind_ok by reflexivity.
  rewrite blkid2mem_ok, addr_up; [|done|apply Hinv1|done|rewrite (nblks_even o) by done; lia].
  destruct (IH k1 (o + 1) (b / 2) Hinv1 Ho1 Hb1) as (k2 & Hrun2 & Hinv2 & Hs2 & Hfree2); [lia| |].
  { intros u Hu Hf. assert (Hdom : indom u) by (by eapply (blk_dom (o + 1))).
    apply Hfree1 in Hf as [Hf Hx]; [|done]. apply buddies_split in Hu as [Hu|Hu]; try done.
    by eapply Hun. }
  exists k2. split; [done|]. split; [done|].
  split; [eapply same_bounds_trans; [apply Hm|done]|].
  intros u Hu. rewrite Hfree2, Hfree1, buddies_split by done.
  destruct (decide (u / 2 ^ o = Z.lxor b 1)) as [He|He]; [|tauto].
  assert (free_at k u); [|tauto]. exists o. by rewrite He.
Qed.

(** ** _kmalloc *)

Lemma empty_list k o b : wf k → is_order o → khead k o = NIL → 0 ≤ b < nblks o →
  isfree k o b = false.
Proof.
  intros Hwf Ho Hh Hb. destruct (wf_list _ Hwf o Ho) as (L & q & Hs & Hnd & Hin).
  pose proof (blk_mark _ _ (nblk_mark k o b (wf_geo _ Hwf) Ho Hb)) as Hi.
  assert (Hb0 : bmap k o (Z.shiftr b 5) = 0); [|unfold isfree; by rewrite Hb0, Z.bits_0].
  destruct (decide (bmap k o (Z.shiftr b 5) = 0)) as [|Hne]; [done|].
  assert (HL : Z.shiftr b 5 ∈ L) by (by apply Hin). destruct L as [|h L]; [by apply elem_of_nil in HL|].
  destruct Hs as (Hhd & _). assert (Hr : h ∈ h :: L) by (by left). apply Hin in Hr as [Hr _].
  pose proof (nmarks_lt_NIL o ltac:(apply Hwf) Ho). lia.
Qed.

(** What an allocation of order [o] in state [k] yields. *)
Definition alloc_result (k : kmem) (o : Z) (r : res kmem Z) : Prop :=
  (r = Ok 0 k ∧ ∀ o' b, is_order o' → o ≤ o' → 0 ≤ b < nblks o' → isfree k o' b = false) ∨
  ∃ b k', 0 ≤ b < nblks o ∧ r = Ok (addr k o b) k' ∧ inv k' ∧ same_bounds k k' ∧
    (∀ u, u / 2 ^ o = b → free_at k u) ∧
    ∀ u, indom u → free_at k' u ↔ free_at k u ∧ u / 2 ^ o ≠ b.

Lemma addr_pos k o b : geo k → is_order o → 0 ≤ b < nblks o → 0 < addr k o b < 2 ^ 64.
Proof.
  intros Hg Ho Hb. pose proof (blk_bytes k o b Hg Ho Hb). pose proof (geo_base _ Hg).
  pose proof (pow_order o Ho). unfold addr. lia.
Qed.

(** Splitting a block of order [o + 1]: the upper half is freed, the lower half
    is the result. *)
Lemma split_block k k1 o c : geo k → inv k1 → same_bounds k k1 →
  is_order o → o < 12 → 0 ≤ c < nblks (o + 1) →
  (∀ u, u / 2 ^ (o + 1) = c → free_at k u) →
  (∀ u, indom u → free_at k1 u ↔ free_at k u ∧ u / 2 ^ (o + 1) ≠ c) →
  ∃ k', _kfree (u64 (addr k (o + 1) c + bit o)) o k1 = Ok tt k' ∧
    addr k (o + 1) c = addr k o (2 * c) ∧ 0 ≤ 2 * c < nblks o ∧ inv k' ∧ same_bounds k k' ∧
    (∀ u, u / 2 ^ o = 2 * c → free_at k u) ∧
    ∀ u, indom u → free_at k' u ↔ free_at k u ∧ u / 2 ^ o ≠ 2 * c.
Proof.
  intros Hg Hinv1 Hs1 Ho Hlt Hc Hcov Hfree1.
  assert (Hb : 0 ≤ 2 * c < nblks o ∧ 0 ≤ 2 * c + 1 < nblks o) by (rewrite (nblks_even o) by done; lia).
  destruct Hb as [Hb Hb1].
  assert (Hx : Z.lxor (2 * c) 1 = 2 * c + 1 ∧ 2 * c / 2 = c).
  { rewrite lxor1, (Z.mul_comm 2), Z.mod_mul, Z.div_mul by lia. lia. }
  destruct Hx as [Hx Hbc].
  assert (Ha : addr k (o + 1) c = addr k o (2 * c)).
  { pose proof (addr_up k o (2 * c) Ho) as Ha. by rewrite Hbc in Ha. }
  assert (Hup : u64 (addr k (o + 1) c + bit o) = addr k1 o (2 * c + 1)).
  { rewrite (addr_same k k1), Ha by done. pose proof (addr_pos k o _ Hg Ho Hb1).
    unfold bit. rewrite Z.shiftl_1_l. unfold addr in *.
    replace (k_start_heap k + 2 * c * 2 ^ o + 2 ^ o) with (k_start_heap k + (2 * c + 1) * 2 ^ o) by lia.
    apply u64_small. lia. }
  pose proof (λ u, buddies_split o (2 * c) u Ho Hlt Hb) as Hsp. rewrite Hx, Hbc in Hsp.
  destruct (kfree_rec_ok _ k1 o (2 * c + 1) Hinv1 Ho Hb1 eq_refl) as (k' & Hrun & Hinv' & Hs' & Hfree').
  { intros u Hu Hf. assert (Hd : indom u) by (by eapply (blk_dom o (2 * c + 1))).
    apply Hfree1 in Hf as [_ Hf]; [|done]. apply Hf, Hsp; [done|]. by right. }
  exists k'. rewrite Hup. split; [done|]. split; [done|]. split; [done|]. split; [done|].
  split; [by eapply same_bounds_trans|]. split.
  - intros u Hu. assert (Hd : indom u) by (by eapply (blk_dom o (2 * c))).
    apply Hcov, Hsp; [done|]. by left.
  - intros u Hu. rewrite Hfree', Hfree1, Hsp by done.
    destruct (decide (u / 2 ^ o = 2 * c + 1)) as [He|He]; [|tauto].
    assert (free_at k u) by (apply Hcov, Hsp; auto). rewrite He. split; [|tauto].
    intros _. split; [done|]. lia.
Qed.

Lemma kmalloc_rec_ok n : ∀ k o, inv k → is_order o → n = Z.to_nat (12 - o + 1) →
  alloc_result k o (kmalloc_rec n o k).
Proof.
  induction n as [|n IH]; intros k o Hinv Ho Hn; [unfold is_order in Ho; lia|].
  pose proof (inv_wf _ Hinv) as Hwf. pose proof (wf_geo _ Hwf) as Hg. cbn [kmalloc_rec].
  erewrite bind_ok by (by apply get_order_rec_ok). cbn [head].
  destruct (Z.eqb_spec (khead k o) NIL) as [Hh|Hh]; cbn [negb].
  2: { destruct (get_blk_ok k o Hwf Ho Hh) as (b & k' & Hb & Hfr & Hrun & Hm).
    right. exists b, k'. split; [done|]. split; [done|]. split; [by eapply inv_unmark|].
    split; [apply Hm|]. split; [intros u <-; by exists o|].
    intros u Hu. eapply free_at_unmark; eauto. apply Hinv. }
  unfold MAX_ORD. destruct (Z.ltb_spec o 12) as [Hlt|Hge].
  2: { left. split; [done|]. intros o' b Ho' Hle Hb. assert (o' = o) as -> by (unfold is_order in *; lia).
    by apply empty_list. }
  assert (Ho1 : is_order (o + 1)) by (unfold is_order in *; lia).
  destruct (IH k (o + 1) Hinv Ho1 ltac:(lia))
    as [[Hrun Hnone]|(c & k1 & Hc & Hrun & Hinv1 & Hs1 & Hcov & Hfree1)]; unfold bind at 1; rewrite Hrun.
  { left. split; [done|]. intros o' b Ho' Hle Hb.
    destruct (decide (o' = o)) as [->|]; [by apply empty_list|apply Hnone; [done|lia|done]]. }
  right. simpl. pose proof (addr_pos k (o + 1) c Hg Ho1 Hc) as Hpos.
  destruct (split_block k k1 o c Hg Hinv1 Hs1 Ho Hlt Hc Hcov Hfree1)
    as (k' & Hrun' & Ha & Hb & Hrest).
  exists (2 * c), k'. split; [done|]. split; [|done].
  replace (addr k (o + 1) c =? 0) with false by lia. cbn [negb when].
  by rewrite (bind_ok _ _ _ _ _ Hrun'), <- Ha.
Qed.

(** ** Canonical form: the free bytes determine the available blocks *)

(** A block all of whose bytes are free lies in one available block. *)
Lemma covered_block k o b : inv k → is_order o → 0 ≤ b < nblks o →
  (∀ u, u / 2 ^ o = b → free_at k u) →
  ∃ o', is_order o' ∧ o ≤ o' ∧ ∀ u, u / 2 ^ o = b → isfree k o' (u / 2 ^ o') = true.
Proof.
  intros Hinv. remember (Z.to_nat (o - 6)) as n eqn:En.
  revert o b En. induction n as [|n IH]; intros o b En Ho Hb Hcov.
  - assert (o = 6) as -> by (unfold is_order in Ho; lia).
    destruct (Hcov (b * 2 ^ 6)) as (o' & Ho' & Hf); [by apply blk_first|].
    exists o'. split; [done|]. split; [apply Ho'|]. intros u Hu.
    rewrite (div_nest 6 o' u (b * 2 ^ 6)); [done|done|done|apply Ho'|by rewrite blk_first].
  - rename Ho into Ho1. remember (o - 1) as p eqn:Ep. assert (o = p + 1) as -> by lia. clear Ep.
    rename p into o. specialize (IH o).
    destruct (decide (is_order o)) as [Ho|]; [|exfalso; unfold is_order in *; lia].
    assert (Hlt : o < 12) by (unfold is_order in Ho1; lia).
    assert (Hb0 : 0 ≤ 2 * b < nblks o ∧ 0 ≤ 2 * b + 1 < nblks o)
      by (rewrite (nblks_even o) by done; lia). destruct Hb0 as [Hb0 Hb1].
    assert (Hhalf : ∀ c u, c / 2 = b → u / 2 ^ o = c → u / 2 ^ (o + 1) = b).
    { intros c u Hc <-. by rewrite div_up. }
    assert (Hd0 : 2 * b / 2 = b ∧ (2 * b + 1) / 2 = b).
    { rewrite (Z.mul_comm 2 b), Z.div_mul, Z.div_add_l by lia. change (1 / 2) with 0. lia. }
    destruct (IH (2 * b) ltac:(lia) Ho Hb0) as (o0 & Ho0 & Hle0 & Hf0); [naive_solver|].
    destruct (IH (2 * b + 1) ltac:(lia) Ho Hb1) as (o1 & Ho1' & Hle1 & Hf1); [naive_solver|].
    pose proof (blk_first o (2 * b) Ho) as Hfst. pose proof (blk_first o (2 * b + 1) Ho) as Hsnd.
    destruct (decide (o0 = o)) as [->|Hne0].
    + destruct (decide (o1 = o)) as [->|Hne1].
      * specialize (Hf0 _ Hfst). specialize (Hf1 _ Hsnd). rewrite Hfst in Hf0. rewrite Hsnd in Hf1.
        pose proof (inv_coal _ Hinv o (2 * b) Ho Hlt Hb0 Hf0) as Hc.
        rewrite lxor1, (Z.mul_comm 2 b), Z.mod_mul in Hc by lia.
        replace (b * 2 + 1 - 2 * 0) with (2 * b + 1) in Hc by lia. congruence.
      * exists o1. split; [done|]. split; [lia|]. intros u Hu.
        rewrite (div_nest (o + 1) o1 u ((2 * b + 1) * 2 ^ o)); [by apply Hf1|done|done|lia|].
        rewrite Hu. symmetry. apply (Hhalf (2 * b + 1)); [apply Hd0|done].
    + exists o0. split; [done|]. split; [lia|]. intros u Hu.
      rewrite (div_nest (o + 1) o0 u (2 * b * 2 ^ o)); [by apply Hf0|done|done|lia|].
      rewrite Hu. symmetry. apply (Hhalf (2 * b)); [apply Hd0|done].
Qed.

Lemma canonical_le k k' o b : inv k → inv k' → is_order o → 0 ≤ b < nblks o →
  (∀ u, indom u → free_at k u ↔ free_at k' u) →
  isfree k o b = true → isfree k' o b = true.
Proof.
  intros Hinv Hinv' Ho Hb Heq Hf.
  assert (Hcov : ∀ u, u / 2 ^ o = b → free_at k' u).
  { intros u Hu. apply Heq; [by eapply blk_dom|]. exists o. by rewrite Hu. }
  destruct (covered_block k' o b Hinv' Ho Hb Hcov) as (o' & Ho' & Hle & Hf').
  pose proof (blk_first o b Ho) as Hfst. specialize (Hf' _ Hfst).
  set (b' := b * 2 ^ o / 2 ^ o') in *.
  assert (Hdom : indom (b * 2 ^ o)) by (by apply (blk_dom o b)).
  destruct (covered_block k o' b' Hinv Ho') as (o2 & Ho2 & Hle2 & Hf2).
  { by apply dom_blk. }
  { intros u Hu. apply Heq; [eapply blk_dom; [exact Ho'|by apply dom_blk|exact Hu]|].
    exists o'. by rewrite Hu. }
  specialize (Hf2 (b * 2 ^ o) eq_refl).
  assert (o = o2) as ->. { eapply (inv_disj _ Hinv); eauto. by rewrite Hfst. }
  assert (o' = o2) as -> by lia. unfold b' in Hf'. by rewrite Hfst in Hf'.
Qed.

Lemma canonical k k' o b : inv k → inv k' → is_order o → 0 ≤ b < nblks o →
  (∀ u, indom u → free_at k u ↔ free_at k' u) → isfree k o b = isfree k' o b.
Proof.
  intros Hinv Hinv' Ho Hb Heq. apply eq_true_iff_eq. split; apply canonical_le; try done.
  intros u Hu. symmetry. by apply Heq.
Qed.

(** ** The locked operations *)

Definition heap_ok (h : kheap) : Prop :=
  inv (h_kmem h) ∧ cli_wf (h_mach h) ∧ kmem_lock ∉ m_held (h_mach h).

Lemma locked_op {A} (op : M kmem A) h a k' :
  cli_wf (h_mach h) → kmem_lock ∉ m_held (h_mach h) → op (h_kmem h) = Ok a k' →
  (zoom (acquire kmem_lock) ;;
   let* x := zoom op in
   zoom (release kmem_lock) ;; ret x) h = Ok a (Kheap (saved (h_mach h)) k').
Proof.
  intros Hm Hl Hop. erewrite bind_ok by (apply zoom_ok; by apply acquire_ok).
  erewrite bind_ok by (apply zoom_ok; exact Hop).
  erewrite bind_ok by (apply zoom_ok; by apply release_locked). done.
Qed.

Lemma saved_ok m : cli_wf m → cli_wf (saved m).
Proof. unfold saved, cli_wf. by destruct (m_ncli m =? 0). Qed.
Lemma saved_held m : m_held (saved m) = m_held m.
Proof. unfold saved. by destruct (m_ncli m =? 0). Qed.

Lemma heap_ok_saved h k' : heap_ok h → inv k' → heap_ok (Kheap (saved (h_mach h)) k').
Proof.
  intros (_ & Hm & Hl) Hi. split; [done|]. split; [by apply saved_ok|].
  simpl. by rewrite saved_held.
Qed.

Lemma addr_aligned k o b : geo k → is_order o → Z.land (addr k o b) (bit o - 1) = 0.
Proof.
  intros Hg Ho. destruct (geo_base _ Hg) as (_ & Hal & _).
  unfold bit. rewrite Z.shiftl_1_l. replace (2 ^ o - 1) with (Z.ones o) by (rewrite Z.ones_equiv; lia).
  rewrite Z.land_ones by (unfold is_order in Ho; lia). unfold addr.
  rewrite Z_mod_plus_full. assert (He : 4096 = 2 ^ (12 - o) * 2 ^ o).
  { rewrite <- Z.pow_add_r by (unfold is_order in Ho; lia). by replace (12 - o + o) with 12 by lia. }
  apply Z.mod_divide; [pose proof (pow_order o Ho); lia|].
  apply Z.mod_divide in Hal; [|lia]. destruct Hal as [q Hq]. exists (q * 2 ^ (12 - o)).
  rewrite Hq, He. lia.
Qed.

Lemma kmalloc_ok h o : heap_ok h → is_order o →
  (kmalloc o h = Ok 0 (Kheap (saved (h_mach h)) (h_kmem h)) ∧
   ∀ o' b, is_order o' → o ≤ o' → 0 ≤ b < nblks o' → isfree (h_kmem h) o' b = false) ∨
  ∃ b h', 0 ≤ b < nblks o ∧ kmalloc o h = Ok (addr (h_kmem h) o b) h' ∧ heap_ok h' ∧
    (same_bounds (h_kmem h) (h_kmem h') ∧ h_mach h' = saved (h_mach h)) ∧
    (∀ u, u / 2 ^ o = b → free_at (h_kmem h) u) ∧
    ∀ u, indom u → free_at (h_kmem h') u ↔ free_at (h_kmem h) u ∧ u / 2 ^ o ≠ b.
Proof.
  intros Hok Ho. pose proof Hok as (Hinv & Hm & Hl). unfold kmalloc.
  replace ((MAX_ORD <? o) || (o <? MIN_ORD)) with false
    by (unfold is_order, MAX_ORD, MIN_ORD in *; lia).
  destruct (kmalloc_rec_ok _ (h_kmem h) o Hinv Ho eq_refl)
    as [[Hrun Hnone]|(b & k' & Hb & Hrun & Hinv' & Hs & Hc & Hf)].
  - left. split; [|done]. by apply locked_op.
  - right. eexists b, _. split; [done|]. split; [by apply locked_op|].
    split; [by apply heap_ok_saved|]. done.
Qed.

Lemma kfree_ok h o b : heap_ok h → is_order o → 0 ≤ b < nblks o →
  (∀ u, u / 2 ^ o = b → ¬ free_at (h_kmem h) u) →
  ∃ h', kfree (addr (h_kmem h) o b) o h = Ok tt h' ∧ heap_ok h' ∧
    (same_bounds (h_kmem h) (h_kmem h') ∧ h_mach h' = saved (h_mach h)) ∧
    ∀ u, indom u → free_at (h_kmem h') u ↔ free_at (h_kmem h) u ∨ u / 2 ^ o = b.
Proof.
  intros Hok Ho Hb Hun. pose proof Hok as (Hinv & Hm & Hl).
  destruct (kfree_rec_ok _ (h_kmem h) o b Hinv Ho Hb eq_refl Hun) as (k' & Hrun & Hinv' & Hs & Hf).
  exists (Kheap (saved (h_mach h)) k'). split; [|split; [by apply heap_ok_saved|done]].
  unfold kfree. rewrite addr_aligned by (first [done|apply Hinv]).
  replace ((MAX_ORD <? o) || (o <? MIN_ORD) || ztrue 0) with false
    by (unfold is_order, MAX_ORD, MIN_ORD, ztrue in *; lia).
  erewrite bind_ok by (apply zoom_ok; by apply acquire_ok).
  erewrite bind_ok by (apply zoom_ok; exact Hrun).
  by erewrite zoom_ok by (by apply release_locked).
Qed.

(** ** Initialisation *)

Definition mark0 : mark := Mark (LNKS NIL NIL) 0.

(** The orders above index [i] and the marks below [t] are initialised. *)
Definition init_to (i t : Z) (k0 k : kmem) : Prop :=
  zlen (k_orders k) = 7 ∧ same_bounds k0 k ∧
  (∀ o, is_order o → i + 6 < o → znth (k_orders k) (o - 6) = Some (Order NIL (moff o))) ∧
  ∀ a, 0 ≤ a < t → k_marks k !! a = Some mark0.

Lemma init_order_ok k0 k i : 0 < N ≤ 1023 → 0 ≤ i ≤ 6 → init_to i (moff (i + 6)) k0 k →
  ∃ k', init_order i (moff (i + 6)) (nmarks (i + 6)) k = Ok tt k' ∧
    init_to (i - 1) (moff (i + 6) + nmarks (i + 6)) k0 k'.
Proof.
  intros HN Hi (Hlen & Hs & Hord & Hmk). assert (Ho : is_order (i + 6)) by (unfold is_order; lia).
  assert (Hbd : 0 ≤ moff (i + 6) ∧ 0 ≤ nmarks (i + 6) ∧ moff (i + 6) + nmarks (i + 6) < 2 ^ 32).
  { unfold moff, nmarks. destruct (order_cases _ Ho) as [->|[->|[->|[->|[->|[->| ->]]]]]]; cbn; lia. }
  unfold init_order. erewrite bind_ok by reflexivity. rewrite u32_small by lia.
  destruct (for_all_inv (I := λ j k', zlen (k_orders k') = 7 ∧ same_bounds k0 k' ∧
      (∀ o, is_order o → i + 5 < o → znth (k_orders k') (o - 6) = Some (Order NIL (moff o))) ∧
      ∀ a, 0 ≤ a < moff (i + 6) + j → k_marks k' !! a = Some mark0)
    (fun j => let* a := get_mark (i + MIN_ORD) j in write_mark a mark0)
    (Z.to_nat (nmarks (i + 6))) 0
    (set_k_orders (zupd i (Order NIL (moff (i + 6))) (k_orders k)) k)) as (k' & Hrun & HI).
  - simpl. rewrite zlen_zupd. split; [done|]. split; [done|]. split.
    + intros o Ho' Hlt. destruct (decide (o = i + 6)) as [->|].
      * replace (i + 6 - 6) with i by lia. apply znth_zupd. lia.
      * rewrite znth_zupd_ne by lia. apply Hord; [done|lia].
    + intros a Ha. apply Hmk. lia.
  - intros j k1 Hj (Hlen1 & Hs1 & Hord1 & Hmk1). eexists. split.
    + unfold get_mark, get_order_rec. run. replace (i + MIN_ORD - MIN_ORD) with (i + 6 - 6) by lia.
      rewrite Hord1 by (done || lia). reflexivity.
    + simpl. split; [done|]. split; [done|]. split; [done|]. intros a Ha.
      rewrite u32_small by lia. destruct (decide (a = moff (i + 6) + j)) as [->|].
      * apply lookup_insert_eq.
      * rewrite lookup_insert_ne by lia. apply Hmk1. lia.
  - exists k'. split; [exact Hrun|]. destruct HI as (H1 & H2 & H3 & H4). split; [done|]. split; [done|].
    split; [intros o Ho' Hlt; apply H3; [done|lia]|]. intros a Ha. apply H4. lia.
Qed.

Lemma moff_next o : is_order o → u64 (moff o + nmarks o) = u64 (moff (o - 1)) ∧ 
  u64 (nmarks o * 2) = u64 (nmarks (o - 1)).
Proof.
  intros Ho. unfold moff, nmarks.
  destruct (order_cases o Ho) as [->|[->|[->|[->|[->|[->| ->]]]]]]; cbn; split; f_equal; lia.
Qed.

Lemma init_orders_ok k0 n : ∀ i k, 0 < N ≤ 1023 → i ≤ 6 → n = Z.to_nat (i + 1) → -1 ≤ i →
  init_to i (moff (i + 6)) k0 k →
  ∃ k', init_orders n i (moff (i + 6)) (nmarks (i + 6)) k = Ok (127 * N) k' ∧
    init_to (-1) (127 * N) k0 k'.
Proof.
  induction n as [|n IH]; intros i k HN Hi Hn Hge Hk.
  - assert (i = -1) as -> by lia. exists k. assert (He : moff (-1 + 6) = 127 * N).
    { unfold moff. change (2 ^ (12 - (-1 + 6))) with 128. lia. }
    rewrite He in *. done.
  - destruct (init_order_ok k0 k i HN ltac:(lia) Hk) as (k1 & Hrun & Hk1).
    cbn [init_orders]. rewrite (bind_ok _ _ _ _ _ Hrun).
    assert (Ho : is_order (i + 6)) by (unfold is_order; lia).
    destruct (moff_next (i + 6) Ho) as [-> ->].
    replace (i + 6 - 1) with (i - 1 + 6) by lia.
    assert (Hbd : 0 ≤ moff (i - 1 + 6) < 2 ^ 64 ∧ 0 ≤ nmarks (i - 1 + 6) < 2 ^ 64 ∧
      moff (i + 6) + nmarks (i + 6) = moff (i - 1 + 6)).
    { replace (i - 1 + 6) with (i + 6 - 1) by lia. unfold moff, nmarks.
      destruct (order_cases _ Ho) as [->|[->|[->|[->|[->|[->| ->]]]]]]; cbn; lia. }
    destruct Hbd as (? & ? & He). rewrite He in Hk1. rewrite !u64_small by lia.
    apply IH; [done|lia..|done].
Qed.

Lemma kmark_init k0 k o i : 0 < N → init_to (-1) (127 * N) k0 k → is_order o →
  0 ≤ i < nmarks o → k_marks k !! (moff o + i) = Some mark0.
Proof.
  intros HN (_ & _ & _ & Hmk) Ho Hi. apply Hmk. unfold moff, nmarks in *.
  destruct (order_cases o Ho) as [->|[->|[->|[->|[->|[->| ->]]]]]]; cbn in *; lia.
Qed.

Lemma init_inv k0 k : 0 < N ≤ 1023 → 0 ≤ NB ≤ 32 * N → init_to (-1) (127 * N) k0 k →
  0 < k_start_heap k ∧ k_start_heap k mod 4096 = 0 ∧ k_start_heap k + NB * 4096 < 2 ^ 64 →
  inv k ∧ ∀ u, indom u → ¬ free_at k u.
Proof.
  intros HN HNB Hk Hbase.
  assert (Hmk : ∀ o i, is_order o → 0 ≤ i < nmarks o → kmark k o i = mark0).
  { intros o i Ho Hi. unfold kmark. by erewrite kmark_init by (done || lia). }
  assert (Hbm : ∀ o i, is_order o → 0 ≤ i < nmarks o → bmap k o i = 0).
  { intros o i Ho Hi. unfold bmap. by rewrite Hmk. }
  assert (Hfr : ∀ o b, is_order o → 0 ≤ b < 32 * nmarks o → isfree k o b = false).
  { intros o b Ho Hb. unfold isfree. by rewrite Hbm, Z.bits_0 by (done || by apply blk_mark). }
  assert (Hg : geo k).
  { split; try done; [apply Hk| |].
    - intros o Ho. exists NIL. apply Hk; [done|]. unfold is_order in Ho. lia.
    - intros o i Ho Hi. erewrite kmark_init by (done || lia). by eexists. }
  split.
  2: { intros u Hu (o & Ho & Hf). rewrite Hfr in Hf; [done|done|].
       apply (nblk_mark k); [done..|by apply dom_blk]. }
  split; [split| |].
  - done.
  - intros o Ho. exists [], NIL. split; [|split; [apply NoDup_nil_2|]].
    + simpl. split; [done|]. unfold khead. destruct Hk as (_ & _ & Hord & _).
      rewrite Hord; [done|done|]. unfold is_order in Ho. lia.
    + intros i. rewrite elem_of_nil. split; [done|]. intros [Hi Hne]. by rewrite Hbm in Hne.
  - intros o i Ho Hi. by rewrite Hbm.
  - intros o b Ho Hb Hf. by rewrite Hfr in Hf.
  - intros u o o' Hu Ho Ho' Hf. rewrite Hfr in Hf; [done|done|].
    apply (nblk_mark k); [done..|by apply dom_blk].
  - intros o b Ho Hlt Hb Hf. rewrite Hfr in Hf; [done|done|by apply (nblk_mark k)].
Qed.

(** The loop that frees the blocks of the highest order one after the other. *)
Lemma free_all_ok h : heap_ok h → (∀ u, indom u → ¬ free_at (h_kmem h) u) →
  ∃ h', for_all (Z.to_nat NB) 0 (fun j =>
      kfree (u64 (k_start_heap (h_kmem h) + j * bit MAX_ORD)) MAX_ORD) h = Ok tt h' ∧
    heap_ok h' ∧ same_bounds (h_kmem h) (h_kmem h') ∧ ∀ u, indom u → free_at (h_kmem h') u.
Proof.
  intros Hok Hun.
  assert (HNB : 0 ≤ NB) by (pose proof (geo_NB _ (wf_geo _ (inv_wf _ (proj1 Hok)))); lia).
  assert (Ho : is_order 12) by (unfold is_order; lia).
  assert (Hn12 : nblks 12 = NB) by (unfold nblks; change (2 ^ (12 - 12)) with 1; lia).
  destruct (for_all_inv (I := λ j h', heap_ok h' ∧ same_bounds (h_kmem h) (h_kmem h') ∧
      ∀ u, indom u → free_at (h_kmem h') u ↔ u / 2 ^ 12 < j)
    (fun j => kfree (u64 (k_start_heap (h_kmem h) + j * bit MAX_ORD)) MAX_ORD)
    (Z.to_nat NB) 0 h) as (h' & Hrun & Hok' & Hs' & Hf').
  - split; [done|]. split; [done|]. intros u Hu. pose proof (dom_blk 12 u Ho Hu).
    split; [by intros ?%Hun|lia].
  - intros j h1 Hj (Hok1 & Hs1 & Hf1). rewrite Z2Nat.id in Hj by done.
    assert (Ha : u64 (k_start_heap (h_kmem h) + j * bit MAX_ORD) = addr (h_kmem h1) 12 j).
    { rewrite (addr_same (h_kmem h)) by done. apply u64_small.
      pose proof (addr_pos (h_kmem h) 12 j (wf_geo _ (inv_wf _ (proj1 Hok))) Ho ltac:(lia)).
      unfold addr in *. change (bit MAX_ORD) with (2 ^ 12). lia. }
    rewrite Ha. destruct (kfree_ok h1 12 j Hok1 Ho ltac:(lia)) as (h2 & Hrun & Hok2 & [Hs2 _] & Hf2).
    { intros u Hu. rewrite Hf1 by (apply (blk_dom 12 j); [done|lia|done]). lia. }
    exists h2. split; [exact Hrun|]. split; [done|]. split; [by eapply same_bounds_trans|].
    intros u Hu. rewrite Hf2, Hf1 by done. lia.
  - exists h'. split; [done|]. split; [done|]. split; [done|]. intros u Hu. apply Hf'; [done|].
    pose proof (dom_blk 12 u Ho Hu). lia.
Qed.
End buddy.



Lemma align_up_page z : 0 ≤ z → z + 4095 < 2 ^ 64 → align_up z 4096 = (z + 4095) / 4096 * 4096.
Proof.
  intros. unfold align_up. change (4096 - 1) with (2 ^ 12 - 1). rewrite land_mask64.
  - rewrite u64_small by lia. change (2 ^ 12) with 4096. by replace (z + 4096 - 1) with (z + 4095) by lia.
  - apply u64_range.
  - lia.
Qed.

(** The sizes [kmem_init2] computes from the bounds of the memory. *)
Definition init_marks (vstart vend : Z) : Z := (vend - vstart) / 2 ^ 17 + 1.
Definition init_heap (vstart vend : Z) : Z :=
  (vstart + 127 * init_marks vstart vend * 8 + 4095) / 4096 * 4096.
Definition init_blks (vstart vend : Z) : Z := (vend - init_heap vstart vend) / 4096.

Record init_args (vstart vend : Z) : Prop := {
  ia_start : 0 < vstart;
  ia_end : vend < 2 ^ 64 - 4096;
  ia_align : vend mod 4096 = 0;
  ia_marks : init_marks vstart vend ≤ 1023;
  ia_heap : init_heap vstart vend ≤ vend;
}.

Lemma init_args_geo vstart vend (N := init_marks vstart vend) (SH := init_heap vstart vend)
    (NB := init_blks vstart vend) : init_args vstart vend →
  0 < N ≤ 1023 ∧ vstart ≤ SH ∧ vstart + 127 * N * 8 + 4095 < 2 ^ 64 ∧ SH mod 4096 = 0 ∧
  vend = SH + NB * 4096 ∧ 0 ≤ NB ≤ 32 * N ∧ vstart ≤ vend.
Proof.
  intros [H1 H2 H3 H4 H5]. fold N in H4. fold SH in H5.
  assert (HSH : SH = (vstart + 127 * N * 8 + 4095) / 4096 * 4096) by done.
  pose proof (Z.mul_div_le (vstart + 127 * N * 8 + 4095) 4096).
  pose proof (Z.mul_succ_div_gt (vstart + 127 * N * 8 + 4095) 4096).
  assert (Hm : SH mod 4096 = 0) by (rewrite HSH; apply Z.mod_mul; lia).
  assert (HN : N = (vend - vstart) / 131072 + 1) by done.
  pose proof (Z.mul_succ_div_gt (vend - vstart) 131072).
  pose proof (Z.mul_div_le (vend - vstart) 131072).
  assert (HNB : NB = (vend - SH) / 4096) by done.
  assert (Hex : (vend - SH) mod 4096 = 0) by (rewrite Zminus_mod, H3, Hm; done).
  pose proof (Z.div_mod (vend - SH) 4096).
  assert (0 < N).
  { destruct (Z.lt_ge_cases vend vstart); [|lia]. exfalso. lia. }
  lia.
Qed.

Lemma kmem_init2_ok vstart vend h : init_args vstart vend →
  zlen (k_orders (h_kmem h)) = 7 → cli_wf (h_mach h) → kmem_lock ∉ m_held (h_mach h) →
  ∃ h', kmem_init2 vstart vend h = Ok tt h' ∧
    heap_ok (init_marks vstart vend) (init_blks vstart vend) h' ∧
    k_start_heap (h_kmem h') = init_heap vstart vend ∧
    ∀ u, indom (init_blks vstart vend) u → free_at (init_marks vstart vend) (h_kmem h') u.
Proof.
  intros Hargs Hlen Hm Hl. pose proof (init_args_geo vstart vend Hargs) as (HN & HSH & Hov & Hal & Hend & HNB & Hle).
  pose proof (ia_start _ _ Hargs). pose proof (ia_end _ _ Hargs).
  set (N := init_marks vstart vend) in *. set (NB := init_blks vstart vend) in *.
  set (SH := init_heap vstart vend) in *.
  set (k1 := set_k_end vend (set_k_start vstart (h_kmem h))).
  destruct (init_orders_ok N k1 7 6 k1 HN) as (k2 & Hrun & Hk2); [lia..| |].
  { split; [done|]. split; [done|]. split; [unfold is_order; lia|]. unfold moff. intros a Ha. lia. }
  unfold kmem_init2. erewrite bind_ok.
  2: { apply zoom_ok. erewrite bind_ok by reflexivity. fold k1.
       replace (moff N (6 + 6)) with 0 in Hrun by (unfold moff; lia).
       replace (nmarks N (6 + 6)) with N in Hrun by (unfold nmarks; lia).
       replace (u64 (Z.shiftr (u64 (vend - vstart)) (MAX_ORD + 5) + 1)) with N; [exact Hrun|].
       rewrite (u64_small (vend - vstart)), Z.shiftr_div_pow2 by (unfold MAX_ORD; lia).
       symmetry. change (u64 N = N). apply u64_small. lia. }
  change (bit MAX_ORD) with 4096. rewrite (u64_small (vstart + _)), align_up_page by lia.
  replace ((vstart + 127 * N * 8 + 4095) / 4096 * 4096) with SH by done.
  set (h3 := Kheap (h_mach h) (set_k_start_heap SH k2)).
  rewrite (bind_ok _ _ _ tt h3) by reflexivity.
  replace ((vend - SH + 4096 - 1) / 4096) with NB.
  2: { replace (vend - SH + 4096 - 1) with (NB * 4096 + 4095) by lia.
       rewrite Z.div_add_l by lia. change (4095 / 4096) with 0. lia. }
  assert (Hk3 : init_to N (-1) (127 * N) (h_kmem h3) (h_kmem h3)).
  { destruct Hk2 as (? & ? & ? & ?). by repeat split. }
  destruct (init_inv N NB _ _ HN HNB Hk3) as [Hinv Hnone]; [simpl; lia|].
  destruct (free_all_ok N NB h3) as (h' & Hrun' & Hok & (_ & Hs & _) & Hf); [done..|].
  exists h'. split; [exact Hrun'|]. split; [done|]. split; [by rewrite Hs|done].
Qed.

(** ** get_order *)

(** [y] has bit [j] when [x] has one of the [w] bits from [j] up. *)
Definition smeared (w x y : Z) : Prop :=
  0 ≤ y ∧ ∀ j, 0 ≤ j → Z.testbit y j = true ↔ ∃ d, 0 ≤ d < w ∧ Z.testbit x (j + d) = true.

Lemma smear_step w x y : 0 < w → smeared w x y → smeared (2 * w) x (Z.lor y (Z.shiftr y w)).
Proof.
  intros Hw [Hy Hs]. split.
  { apply Z.lor_nonneg. split; [done|]. by apply Z.shiftr_nonneg. }
  intros j Hj. rewrite Z.lor_spec, Z.shiftr_spec, orb_true_iff, !Hs by lia. split.
  - intros [(d & Hd & Ht)|(d & Hd & Ht)]; [by exists d; split; [lia|]|].
    exists (w + d). split; [lia|]. by rewrite Z.add_assoc.
  - intros (d & Hd & Ht). destruct (Z.lt_ge_cases d w); [left; by exists d; split; [lia|]|right].
    exists (d - w). split; [lia|]. by replace (j + w + (d - w)) with (j + d) by lia.
Qed.

Lemma smeared_ones x y : 0 < x < 2 ^ 32 → smeared 32 x y → y = Z.ones (Z.log2 x + 1).
Proof.
  intros Hx [Hy Hs]. pose proof (Z.log2_nonneg x).
  assert (Z.log2 x < 32) by (apply Z.log2_lt_pow2; lia).
  apply Z.bits_inj_iff'. intros j Hj. rewrite Z.testbit_ones_nonneg by lia.
  apply eq_true_iff_eq. rewrite Hs, Z.ltb_lt by lia. split.
  - intros (d & Hd & Ht). destruct (Z.lt_ge_cases (Z.log2 x) (j + d)); [|lia].
    by rewrite Z.bits_above_log2 in Ht by lia.
  - intros Hlt. exists (Z.log2 x - j). split; [lia|].
    replace (j + (Z.log2 x - j)) with (Z.log2 x) by lia. apply Z.bit_log2. lia.
Qed.

Lemma round_up_pow2_spec v : 1 ≤ v < 2 ^ 32 → round_up_pow2 v = u32 (2 ^ Z.log2_up v).
Proof.
  intros Hv. unfold round_up_pow2. rewrite (u32_small (v - 1)) by lia.
  destruct (decide (v = 1)) as [->|]; [done|]. f_equal.
  rewrite Z.log2_up_eqn by lia. rewrite <- Z.sub_1_r.
  set (x := v - 1) in *. assert (H1 : smeared 1 x x).
  { split; [lia|]. intros j Hj. split.
    - intros Ht. exists 0. rewrite Z.add_0_r. split; [lia|done].
    - intros (d & Hd & Ht). assert (d = 0) as -> by lia. by rewrite Z.add_0_r in Ht. }
  do 5 apply smear_step in H1; try lia. apply smeared_ones in H1; [|lia].
  change (2 * 1) with 2 in H1. change (2 * 2) with 4 in H1. change (2 * 4) with 8 in H1.
  change (2 * 8) with 16 in H1. rewrite H1, Z.ones_equiv. unfold Z.succ. lia.
Qed.

Lemma first_bit_pow2 n : ∀ ord m, 0 ≤ ord ≤ m → m < ord + Z.of_nat n →
  first_bit n ord (2 ^ m) = m.
Proof.
  induction n as [|n IH]; intros ord m Ho Hm; [lia|]. cbn [first_bit].
  rewrite land_bit_ne0 by lia. destruct (decide (ord = m)) as [->|].
  - by rewrite Z.pow2_bits_true by lia.
  - rewrite Z.pow2_bits_false by lia. apply IH; lia.
Qed.

(** * Theorems *)

(** C5: an allocation of order [o] returns NULL, with the heap unchanged, exactly
    when no block of order [o] or more is available; otherwise it returns a
    block of size [2 ^ o] all of whose bytes were free, takes exactly those
    bytes out of the free ones, and keeps the allocator's invariant (marks and
    lists agree, blocks are disjoint, free buddies are merged). *)
Theorem kmalloc_spec N NB h o : heap_ok N NB h → is_order o →
  (kmalloc o h = Ok 0 (Kheap (saved (h_mach h)) (h_kmem h)) ∧
   ∀ o' b, is_order o' → o ≤ o' → 0 ≤ b < nblks NB o' → isfree N (h_kmem h) o' b = false) ∨
  ∃ b h', 0 ≤ b < nblks NB o ∧ kmalloc o h = Ok (addr (h_kmem h) o b) h' ∧
    0 < addr (h_kmem h) o b ∧ heap_ok N NB h' ∧
    (∀ u, u / 2 ^ o = b → free_at N (h_kmem h) u) ∧
    ∀ u, indom NB u → free_at N (h_kmem h') u ↔ free_at N (h_kmem h) u ∧ u / 2 ^ o ≠ b.
Proof.
  intros Hok Ho. destruct (kmalloc_ok N NB h o Hok Ho) as [H|(b & h' & Hb & Hrun & Hok' & [Hs _] & Hf)];
    [by left|right]. exists b, h'. do 2 (split; [done|]).
  split; [|done]. apply (addr_pos N NB); [apply Hok|done..].
Qed.

(** C4: freeing a block none of whose bytes is free makes exactly its bytes free
    and keeps the invariant; the merge recursion ends. *)
Theorem kfree_spec N NB h o b : heap_ok N NB h → is_order o → 0 ≤ b < nblks NB o →
  (∀ u, u / 2 ^ o = b → ¬ free_at N (h_kmem h) u) →
  ∃ h', kfree (addr (h_kmem h) o b) o h = Ok tt h' ∧ heap_ok N NB h' ∧
    ∀ u, indom NB u → free_at N (h_kmem h') u ↔ free_at N (h_kmem h) u ∨ u / 2 ^ o = b.
Proof.
  intros Hok Ho Hb Hun. destruct (kfree_ok N NB h o b Hok Ho Hb Hun) as (h' & ? & ? & _ & ?).
  by exists h'.
Qed.

(** Allocating a block and freeing it gives back the same available blocks of
    every order: splitting is undone by merging. *)
Theorem kmalloc_kfree_roundtrip N NB h o p h1 : heap_ok N NB h → is_order o →
  kmalloc o h = Ok p h1 → p ≠ 0 →
  ∃ h2, kfree p o h1 = Ok tt h2 ∧ heap_ok N NB h2 ∧
    ∀ o' b', is_order o' → 0 ≤ b' < nblks NB o' →
      isfree N (h_kmem h2) o' b' = isfree N (h_kmem h) o' b'.
Proof.
  intros Hok Ho Hrun Hp. destruct (kmalloc_ok N NB h o Hok Ho)
    as [[Hrun' _]|(b & h' & Hb & Hrun' & Hok' & [Hs _] & Hc & Hf)]; [congruence|].
  rewrite Hrun in Hrun'. injection Hrun' as -> ->.
  destruct (kfree_ok N NB h' o b Hok' Ho Hb) as (h2 & Hrun2 & Hok2 & _ & Hf2).
  { intros u Hu. rewrite Hf by (by eapply blk_dom). tauto. }
  rewrite (addr_same (h_kmem h)) in Hrun2 by done. exists h2. do 2 (split; [done|]).
  intros o' b' Ho' Hb'. apply (canonical N NB); try done; [apply Hok2|apply Hok|].
  intros u Hu. rewrite Hf2, Hf by done.
  destruct (decide (u / 2 ^ o = b)) as [He|He]; [|tauto]. specialize (Hc u He). tauto.
Qed.

(** Freeing a block that is available is caught: the kernel panics. *)
Theorem kfree_double_free_panics N NB h o b : heap_ok N NB h → is_order o → 0 ≤ b < nblks NB o →
  isfree N (h_kmem h) o b = true →
  ∃ h', kfree (addr (h_kmem h) o b) o h = Panic "kfree: double free" h'.
Proof.
  intros (Hinv & Hm & Hl) Ho Hb Hf. unfold kfree.
  rewrite (addr_aligned N NB) by (first [done|apply Hinv]).
  replace ((MAX_ORD <? o) || (o <? MIN_ORD) || ztrue 0) with false
    by (unfold is_order, MAX_ORD, MIN_ORD, ztrue in *; lia).
  erewrite bind_ok by (apply zoom_ok; by apply acquire_ok). eexists. apply bind_panic, zoom_panic.
  unfold _kfree. replace (Z.to_nat (MAX_ORD - o + 1)) with (S (Z.to_nat (12 - o)))
    by (unfold is_order, MAX_ORD in *; lia).
  cbn [lget lset lens_kheap_kmem lens_kheap_mach h_kmem].
  rewrite (kfree_rec_eq N NB), Hf by (first [done|apply Hinv]). done.
Qed.

(** [kmem_init2] lays out the marks and frees every page-sized block between
    the end of the mark array and [vend]: the allocator's invariant holds and
    every byte of the heap is free. *)
Theorem kmem_init2_spec vstart vend h : init_args vstart vend →
  zlen (k_orders (h_kmem h)) = 7 → cli_wf (h_mach h) → kmem_lock ∉ m_held (h_mach h) →
  ∃ h', kmem_init2 vstart vend h = Ok tt h' ∧
    heap_ok (init_marks vstart vend) (init_blks vstart vend) h' ∧
    k_start_heap (h_kmem h') = init_heap vstart vend ∧
    ∀ u, indom (init_blks vstart vend) u → free_at (init_marks vstart vend) (h_kmem h') u.
Proof. apply kmem_init2_ok. Qed.

(** [get_order] returns the least order whose blocks hold [v] bytes (never
    less than the smallest order), and panics when no order is large enough. *)
Theorem get_order_spec {S} v (s : S) : 1 ≤ v < 2 ^ 32 →
  get_order v s = if v <=? 4096 then Ok (Z.max 6 (Z.log2_up v)) s
                  else Panic "order too big!" s.
Proof.
  intros Hv. unfold get_order. rewrite round_up_pow2_spec by lia.
  pose proof (Z.log2_up_nonneg v). unfold MIN_ORD, MAX_ORD.
  destruct (Z.leb_spec v 4096).
  - assert (Z.log2_up v ≤ 12) by (apply Z.log2_up_le_pow2; lia).
    assert (2 ^ Z.log2_up v ≤ 2 ^ 12) by (apply Z.pow_le_mono_r; lia).
    rewrite u32_small by lia. rewrite first_bit_pow2 by lia. unfold ret, panic. zcase; f_equal; lia.
  - assert (12 < Z.log2_up v) by (apply Z.log2_up_lt_pow2; lia).
    assert (first_bit 32 0 (u32 (2 ^ Z.log2_up v)) = Z.min 32 (Z.log2_up v)) as ->.
    { destruct (Z.lt_ge_cases (Z.log2_up v) 32) as [Hlt|Hge].
      - assert (2 ^ Z.log2_up v < 2 ^ 32) by (apply Z.pow_lt_mono_r; lia).
        rewrite u32_small, first_bit_pow2 by lia. lia.
      - assert (Z.log2_up v ≤ 32) by (apply Z.log2_up_le_pow2; lia).
        replace (Z.log2_up v) with 32 by lia. done. }
    unfold panic. zcase. done.
Qed.
Lemma get_order_spec_witness : 1 ≤ 100 < 2 ^ 32 ∧ get_order 100 tt = Ok 7 tt.
Proof. split; [lia|]. rewrite (get_order_spec 100 tt) by lia. reflexivity. Defined.

(** ** Witnesses: a heap of two pages, and the kernel's own memory map *)

Definition blank_heap : kheap :=
  Kheap (Mach 0 0 0 ∅ 0) (Kmem 0 0 0 (replicate 7 (Order 0 0)) ∅).
Definition demo_heap : kheap :=
  match kmem_init2 4096 16384 blank_heap with Ok _ h => h | _ => blank_heap end.

Lemma blank_ok : cli_wf (h_mach blank_heap) ∧ kmem_lock ∉ m_held (h_mach blank_heap).
Proof. split; [split; done|set_solver]. Qed.
Lemma demo_ok : heap_ok 1 2 demo_heap ∧ ∀ u, indom 2 u → free_at 1 (h_kmem demo_heap) u.
Proof.
  destruct (kmem_init2_ok 4096 16384 blank_heap) as (h & Hrun & Hok & _ & Hf);
    [split; vm_compute; done|done|apply blank_ok|apply blank_ok|].
  change (init_marks 4096 16384) with 1 in *. change (init_blks 4096 16384) with 2 in *.
  unfold demo_heap. rewrite Hrun. exact (conj Hok Hf).
Qed.
Lemma is_order_6 : is_order 6.
Proof. unfold is_order. lia. Qed.

Lemma kmem_init2_spec_witness : ∃ h',
  kmem_init2 0xFFFFFFFF40200000 0xFFFFFFFF48000000 blank_heap = Ok tt h' ∧
  heap_ok 1009 32005 h' ∧ k_start_heap (h_kmem h') = 0xFFFFFFFF402FB000 ∧
  ∀ u, indom 32005 u → free_at 1009 (h_kmem h') u.
Proof.
  apply (kmem_init2_spec 0xFFFFFFFF40200000 0xFFFFFFFF48000000 blank_heap);
    [split; vm_compute; done|done|apply blank_ok|apply blank_ok].
Defined.

Definition demo_heap1 : kheap :=
  match kmalloc 6 demo_heap with Ok _ h => h | _ => blank_heap end.
Lemma demo_alloc : kmalloc 6 demo_heap = Ok 8192 demo_heap1.
Proof. vm_compute. reflexivity. Qed.

Lemma kmalloc_spec_witness : heap_ok 1 2 demo_heap ∧ is_order 6 ∧
  ∃ b h', 0 ≤ b < 128 ∧ kmalloc 6 demo_heap = Ok (addr (h_kmem demo_heap) 6 b) h' ∧ heap_ok 1 2 h'.
Proof.
  split; [apply demo_ok|]. split; [apply is_order_6|].
  destruct (kmalloc_spec 1 2 demo_heap 6 (proj1 demo_ok) is_order_6)
    as [[H _]|(b & h' & Hb & Hrun & _ & Hok & _)].
  - rewrite demo_alloc in H. discriminate H.
  - exists b, h'. exact (conj Hb (conj Hrun Hok)).
Defined.

Lemma kmalloc_kfree_roundtrip_witness :
  kmalloc 6 demo_heap = Ok 8192 demo_heap1 ∧
  ∃ h2, kfree 8192 6 demo_heap1 = Ok tt h2 ∧ heap_ok 1 2 h2 ∧
    ∀ o' b', is_order o' → 0 ≤ b' < nblks 2 o' →
      isfree 1 (h_kmem h2) o' b' = isfree 1 (h_kmem demo_heap) o' b'.
Proof.
  split; [apply demo_alloc|].
  apply (kmalloc_kfree_roundtrip 1 2 demo_heap 6 8192 demo_heap1 (proj1 demo_ok) is_order_6 demo_alloc).
  lia.
Defined.

Lemma kfree_double_free_panics_witness :
  isfree 1 (h_kmem demo_heap) 12 1 = true ∧
  ∃ h', kfree (addr (h_kmem demo_heap) 12 1) 12 demo_heap = Panic "kfree: double free" h'.
Proof.
  assert (Hf : isfree 1 (h_kmem demo_heap) 12 1 = true) by (vm_compute; reflexivity).
  split; [exact Hf|].
  apply (kfree_double_free_panics 1 2 demo_heap 12 1 (proj1 demo_ok)); [split; lia|split; [lia|reflexivity]|exact Hf].
Defined.

(** The heap before anything is freed: every block may be freed. *)
Definition demo_marks : kheap := 
  match init_orders 7 6 0 1 (h_kmem blank_heap) with
  | Ok _ k => Kheap (h_mach blank_heap) (set_k_start_heap 8192 k) | _ => blank_heap end.
Lemma demo_marks_ok : heap_ok 1 2 demo_marks ∧ ∀ u, indom 2 u → ¬ free_at 1 (h_kmem demo_marks) u.
Proof.
  destruct (init_orders_ok 1 (h_kmem blank_heap) 7 6 (h_kmem blank_heap)) as (k & Hrun & Hk); [lia..| |].
  { split; [done|]. split; [done|]. split; [unfold is_order; lia|]. unfold moff. intros a Ha. lia. }
  unfold demo_marks. change (init_orders 7 6 0 1) with (init_orders 7 6 (moff 1 (6 + 6)) (nmarks 1 (6 + 6))).
  rewrite Hrun. assert (Hk' : init_to 1 (-1) 127 (set_k_start_heap 8192 k) (set_k_start_heap 8192 k)).
  { destruct Hk as (? & ? & ? & ?). by repeat split. }
  destruct (init_inv 1 2 _ _ ltac:(lia) ltac:(lia) Hk') as [Hinv Hnone]; [by vm_compute|].
  split; [|done]. split; [done|apply blank_ok].
Qed.
Lemma kfree_spec_witness : ∃ h', kfree (addr (h_kmem demo_marks) 7 3) 7 demo_marks = Ok tt h' ∧
  heap_ok 1 2 h' ∧
  ∀ u, indom 2 u → free_at 1 (h_kmem h') u ↔ free_at 1 (h_kmem demo_marks) u ∨ u / 2 ^ 7 = 3.
Proof.
  apply (kfree_spec 1 2 demo_marks 7 3 (proj1 demo_marks_ok)); [split; lia|split; [lia|reflexivity]|].
  intros u Hu. apply (proj2 demo_marks_ok). apply (blk_dom 2 7 3); [split; lia|split; [lia|reflexivity]|exact Hu].
Defined.
