(* ===== verification/Bio.v ===== *)
(** The buffer cache and the memory disk: [bio.c] and [memide.c].

    Buffers are the elements of [bcache.buf], named by their index; index [NBUF]
    is the list head [bcache.head].  The disk is the list of its 512-byte
    sectors.  [io_writes] is not a variable of the program: it records the
    sectors written in the order in which they reach the disk, for the crash
    theorems of the log. *)

From S2P Require Import Prelude Spin Sched Dll.

(** * Data ([buf.h], [bio.c]) *)

Definition NBUF : Z := 10.
Definition BHEAD : Z := NBUF.

Definition B_BUSY : Z := 0x1.
Definition B_VALID : Z := 0x2.
Definition B_DIRTY : Z := 0x4.

Record buf := Buf {
  b_flags : Z;
  b_dev : Z;
  b_sector : Z;
  b_prev : Z;
  b_next : Z;
  b_data : list Z;
}.
Definition set_b_flags v r := Buf v (b_dev r) (b_sector r) (b_prev r) (b_next
  r) (b_data r).
Definition set_b_dev v r := Buf (b_flags r) v (b_sector r) (b_prev r) (b_next
  r) (b_data r).
Definition set_b_sector v r := Buf (b_flags r) (b_dev r) v (b_prev r) (b_next
  r) (b_data r).
Definition set_b_prev v r := Buf (b_flags r) (b_dev r) (b_sector r) v (b_next
  r) (b_data r).
Definition set_b_next v r := Buf (b_flags r) (b_dev r) (b_sector r) (b_prev r)
  v (b_data r).
Definition set_b_data v r := Buf (b_flags r) (b_dev r) (b_sector r) (b_prev r)
  (b_next r) v.

Record bio := BioSt {
  io_base : base;
  io_bufs : list buf;               (* bcache.buf and bcache.head *)
  io_disk : list (list Z);          (* memdisk, disksize sectors *)
  io_writes : list (Z * list Z);    (* sectors written, oldest first *)
}.
Definition set_io_base v r := BioSt v (io_bufs r) (io_disk r) (io_writes r).
Definition set_io_bufs v r := BioSt (io_base r) v (io_disk r) (io_writes r).
Definition set_io_disk v r := BioSt (io_base r) (io_bufs r) v (io_writes r).
Definition set_io_writes v r := BioSt (io_base r) (io_bufs r) (io_disk r) v.

#[export] Program Instance lens_bio_base : Lens bio base :=
  {| lget := io_base; lset := set_io_base |}.
Solve All Obligations with (by intros; repeat match goal with b : bio |- _ => destruct b end).

Definition bcache_lock : objaddr := ("bcache", 0).
Definition buf_chan (b : Z) : objaddr := ("bcache.buf", b).

(** How often a sleeping process may be woken to find that it has to sleep
    again: the loops around [sleep] are not bounded by the code. *)
Class WaitFuel := wait_fuel : nat.

Definition get_buf (i : Z) : M bio buf :=
  let* l := gets io_bufs in must "buf" (znth l i).
Definition upd_buf (i : Z) (f : buf → buf) : M bio unit :=
  let* b := get_buf i in
  modify (fun s => set_io_bufs (zupd i (f b) (io_bufs s)) s).

Definition flag (m : Z) (b : buf) : bool := ztrue (Z.land (b_flags b) m).

(** * The memory disk ([memide.c]) *)

(** [ideinit]: the disk image linked into the kernel becomes the disk. *)
Definition ideinit (img : list (list Z)) : M bio unit := modify (set_io_disk img).
Definition ideintr : M bio unit := ret tt.

(** The sector at byte offset [b->sector*512] of [memdisk] (computed in
    32 bits). *)
Definition sector_index (sector : Z) : Z := u32 (sector * 512) / 512.

Definition iderw (i : Z) : M bio unit :=
  let* b := get_buf i in
  panic_if (negb (flag B_BUSY b)) "iderw: buf not busy" ;;
  panic_if (Z.land (b_flags b) (Z.lor B_VALID B_DIRTY) =? B_VALID) "iderw: nothing to do" ;;
  panic_if (negb (b_dev b =? 1)) "iderw: request not for disk 1" ;;
  let* disk := gets io_disk in
  panic_if (zlen disk <=? b_sector b) "iderw: sector out of range" ;;
  let p := sector_index (b_sector b) in
  (if flag B_DIRTY b then
     upd_buf i (fun b => set_b_flags (Z.land (b_flags b) (Z.lnot B_DIRTY)) b) ;;
     modify (fun s => set_io_writes (io_writes s ++ [(p, b_data b)])
                        (set_io_disk (zupd p (b_data b) (io_disk s)) s))
   else
     let* data := must "memdisk" (znth disk p) in
     upd_buf i (set_b_data data)) ;;
  upd_buf i (fun b => set_b_flags (Z.lor (b_flags b) B_VALID) b).

(** * The buffer cache ([bio.c]) *)

(** One iteration of the loop of [binit]. *)
Definition binit_step (b : Z) : M bio unit :=
  let* h := get_buf BHEAD in
  upd_buf b (set_b_next (b_next h)) ;;
  upd_buf b (set_b_prev BHEAD) ;;
  upd_buf b (set_b_dev (u32 (-1))) ;;
  let* h := get_buf BHEAD in
  upd_buf (b_next h) (set_b_prev b) ;;
  upd_buf BHEAD (set_b_next b).

Definition binit : M bio unit :=
  binitlock bcache_lock ;;
  upd_buf BHEAD (set_b_prev BHEAD) ;;
  upd_buf BHEAD (set_b_next BHEAD) ;;
  for_all (Z.to_nat NBUF) 0 binit_step.

(** The two scans of [bget]: [next] from the head for the sector, [prev] from
    the head for a buffer to recycle.  Each visits every buffer once, so
    [NBUF + 1] steps reach the head again. *)
Fixpoint scan (fuel : nat) (dir : buf → Z) (ok : buf → bool) (b : Z) : M bio (option Z) :=
  match fuel with
  | O => out_of_fuel
  | S fuel =>
      if b =? BHEAD then ret None else
      let* r := get_buf b in
      if ok r then ret (Some b) else scan fuel dir ok (dir r)
  end.
Definition scan_from_head (dir : buf → Z) (ok : buf → bool) : M bio (option Z) :=
  let* h := get_buf BHEAD in scan (S (Z.to_nat NBUF)) dir ok (dir h).

Section bget.
Context {WF : WaitFuel}.

(** One pass from the label [loop]; [None] is [goto loop] after sleeping. *)
Definition bget_pass (dev sector : Z) : M bio (option Z) :=
  let* hit := scan_from_head b_next (fun b => (b_dev b =? dev) && (b_sector b =? sector)) in
  match hit with
  | Some b =>
      let* r := get_buf b in
      if negb (flag B_BUSY r) then
        upd_buf b (fun b => set_b_flags (Z.lor (b_flags b) B_BUSY) b) ;;
        brelease bcache_lock ;;
        ret (Some b)
      else
        zoom (sleep (buf_chan b) (Some bcache_lock)) ;;
        ret None
  | None =>
      let* free := scan_from_head b_prev (fun b =>
        (Z.land (b_flags b) B_BUSY =? 0) && (Z.land (b_flags b) B_DIRTY =? 0)) in
      match free with
      | Some b =>
          upd_buf b (set_b_dev dev) ;;
          upd_buf b (set_b_sector sector) ;;
          upd_buf b (set_b_flags B_BUSY) ;;
          brelease bcache_lock ;;
          ret (Some b)
      | None => panic "bget: no buffers"
      end
  end.
Fixpoint bget_loop (fuel : nat) (dev sector : Z) : M bio Z :=
  match fuel with
  | O => out_of_fuel
  | S fuel =>
      let* r := bget_pass dev sector in
      match r with Some b => ret b | None => bget_loop fuel dev sector end
  end.
Definition bget (dev sector : Z) : M bio Z :=
  bacquire bcache_lock ;; bget_loop (S wait_fuel) dev sector.

Definition bread (dev sector : Z) : M bio Z :=
  let* b := bget dev sector in
  let* r := get_buf b in
  when (negb (flag B_VALID r)) (iderw b) ;;
  ret b.
End bget.

Definition bwrite (b : Z) : M bio unit :=
  let* r := get_buf b in
  panic_if (Z.land (b_flags r) B_BUSY =? 0) "bwrite" ;;
  upd_buf b (fun b => set_b_flags (Z.lor (b_flags b) B_DIRTY) b) ;;
  iderw b.

Definition brelse (b : Z) : M bio unit :=
  let* r := get_buf b in
  panic_if (Z.land (b_flags r) B_BUSY =? 0) "brelse" ;;
  bacquire bcache_lock ;;
  let* r := get_buf b in
  upd_buf (b_next r) (set_b_prev (b_prev r)) ;;
  let* r := get_buf b in
  upd_buf (b_prev r) (set_b_next (b_next r)) ;;
  let* h := get_buf BHEAD in
  upd_buf b (set_b_next (b_next h)) ;;
  upd_buf b (set_b_prev BHEAD) ;;
  let* h := get_buf BHEAD in
  upd_buf (b_next h) (set_b_prev b) ;;
  upd_buf BHEAD (set_b_next b) ;;
  upd_buf b (fun b => set_b_flags (Z.land (b_flags b) (Z.lnot B_BUSY)) b) ;;
  zoom (wakeup (buf_chan b)) ;;
  brelease bcache_lock.

(** * Correctness

    ** Buffers and flags *)

Definition zero_buf : buf := Buf 0 0 0 0 0 [].
Definition bufof (s : bio) (i : Z) : buf := default zero_buf (znth (io_bufs s) i).
Definition ubuf (i : Z) (f : buf → buf) (s : bio) : bio :=
  set_io_bufs (zupd i (f (bufof s i)) (io_bufs s)) s.

Definition busy (b : buf) : bool := Z.testbit (b_flags b) 0.
Definition valid (b : buf) : bool := Z.testbit (b_flags b) 1.
Definition dirty (b : buf) : bool := Z.testbit (b_flags b) 2.

Lemma flag_busy b : flag B_BUSY b = busy b.
Proof. apply (land_bit_ne0 _ 0). lia. Qed.
Lemma flag_valid b : flag B_VALID b = valid b.
Proof. apply (land_bit_ne0 _ 1). lia. Qed.
Lemma flag_dirty b : flag B_DIRTY b = dirty b.
Proof. apply (land_bit_ne0 _ 2). lia. Qed.
Lemma eq0_flag z m : (Z.land z m =? 0) = negb (ztrue (Z.land z m)).
Proof. unfold ztrue. by rewrite negb_involutive. Qed.
Lemma land_valid_dirty b :
  (Z.land (b_flags b) (Z.lor B_VALID B_DIRTY) =? B_VALID) = valid b && negb (dirty b).
Proof.
  unfold valid, dirty. apply eq_true_iff_eq. rewrite Z.eqb_eq, andb_true_iff, negb_true_iff.
  change (Z.lor B_VALID B_DIRTY) with (Z.lor (bit 1) (bit 2)). change B_VALID with (bit 1). split.
  - intros H. pose proof (f_equal (λ z, Z.testbit z 1) H) as H1.
    pose proof (f_equal (λ z, Z.testbit z 2) H) as H2. cbv beta in H1, H2.
    rewrite Z.land_spec, Z.lor_spec, !bit_spec in H1, H2 by lia. cbn in H1, H2.
    by rewrite !andb_true_r in *.
  - intros [H1 H2]. apply Z.bits_inj_iff'. intros j Hj.
    rewrite Z.land_spec, Z.lor_spec, !bit_spec by lia.
    destruct (Z.eqb_spec 1 j) as [<-|]; [by rewrite H1|].
    destruct (Z.eqb_spec 2 j) as [<-|]; [by rewrite H2|apply andb_false_r].
Qed.

(** Setting and clearing one flag. *)
Section flags.
Context (b : buf).
Lemma busy_set m : busy (set_b_flags (Z.lor (b_flags b) m) b) = busy b || Z.testbit m 0.
Proof. apply Z.lor_spec. Qed.
Lemma valid_set m : valid (set_b_flags (Z.lor (b_flags b) m) b) = valid b || Z.testbit m 1.
Proof. apply Z.lor_spec. Qed.
Lemma dirty_set m : dirty (set_b_flags (Z.lor (b_flags b) m) b) = dirty b || Z.testbit m 2.
Proof. apply Z.lor_spec. Qed.
Lemma busy_clr m : busy (set_b_flags (Z.land (b_flags b) (Z.lnot m)) b) = busy b && negb (Z.testbit m 0).
Proof. unfold busy. cbn [b_flags set_b_flags]. by rewrite Z.land_spec, Z.lnot_spec by lia. Qed.
Lemma valid_clr m : valid (set_b_flags (Z.land (b_flags b) (Z.lnot m)) b) = valid b && negb (Z.testbit m 1).
Proof. unfold valid. cbn [b_flags set_b_flags]. by rewrite Z.land_spec, Z.lnot_spec by lia. Qed.
Lemma dirty_clr m : dirty (set_b_flags (Z.land (b_flags b) (Z.lnot m)) b) = dirty b && negb (Z.testbit m 2).
Proof. unfold dirty. cbn [b_flags set_b_flags]. by rewrite Z.land_spec, Z.lnot_spec by lia. Qed.
End flags.

Section bufs.
Context (s : bio) (Hlen : zlen (io_bufs s) = NBUF + 1).

Lemma get_buf_ok i : 0 ≤ i ≤ NBUF → get_buf i s = Ok (bufof s i) s.
Proof.
  intros Hi. destruct (znth_is_Some (io_bufs s) i) as [b Hb]; [unfold NBUF in *; lia|].
  unfold get_buf, bufof. run. by rewrite Hb.
Qed.
Lemma upd_buf_ok i f : 0 ≤ i ≤ NBUF → upd_buf i f s = Ok tt (ubuf i f s).
Proof. intros Hi. unfold upd_buf. by erewrite bind_ok by (by apply get_buf_ok). Qed.
Lemma bufof_ubuf i f j : 0 ≤ i ≤ NBUF →
  bufof (ubuf i f s) j = if i =? j then f (bufof s i) else bufof s j.
Proof.
  intros Hi. unfold bufof at 1, ubuf; simpl. destruct (Z.eqb_spec i j) as [<-|Hne].
  - rewrite znth_zupd; [done|]. unfold NBUF in *. lia.
  - by rewrite znth_zupd_ne.
Qed.
Lemma len_ubuf i f : zlen (io_bufs (ubuf i f s)) = NBUF + 1.
Proof. simpl. by rewrite zlen_zupd. Qed.
End bufs.

(** ** The invariant

    [brep s V B D]: the cache is well formed, [B] are the sectors whose buffer is
    busy, [D] those whose buffer is dirty, and [V] is the current contents of
    every sector: that of its buffer, if it has a valid one, else that on the
    disk.  A sector whose buffer is neither busy nor dirty is on the disk. *)

Definition isbuf (i : Z) : Prop := 0 ≤ i < NBUF.
Definition ondisk (s : bio) (sec : Z) : list Z := default [] (znth (io_disk s) sec).
Definition indisk (s : bio) (sec : Z) : Prop := 0 ≤ sec < zlen (io_disk s).

(** Buffer [i] holds sector [sec] of disk 1. *)
Definition caches (s : bio) (i sec : Z) : Prop :=
  isbuf i ∧ b_dev (bufof s i) = 1 ∧ b_sector (bufof s i) = sec.

Record idle (b : base) : Prop := {
  idle_cli : cli_wf (b_mach b);
  idle_depth : m_ncli (b_mach b) < 2 ^ 31 - 8;
  idle_bcache : bcache_lock ∉ m_held (b_mach b);
  idle_ptable : ptable_lock ∉ m_held (b_mach b);
}.

Record brep (s : bio) (V : Z → list Z) (B D : gset Z) : Prop := {
  br_idle : idle (io_base s);
  br_len : zlen (io_bufs s) = NBUF + 1;
  br_size : zlen (io_disk s) ≤ 2 ^ 23;
  br_ring : ∃ L, ring BHEAD (λ i, b_prev (bufof s i)) (λ i, b_next (bufof s i)) L ∧
            ∀ i, i ∈ L ↔ isbuf i;
  br_uniq : ∀ i j sec, caches s i sec → caches s j sec → i = j;
  br_used : ∀ i, isbuf i → busy (bufof s i) = true ∨ dirty (bufof s i) = true →
            caches s i (b_sector (bufof s i)) ∧ indisk s (b_sector (bufof s i)) ∧
            valid (bufof s i) = true;
  br_busy : ∀ sec, sec ∈ B ↔ ∃ i, caches s i sec ∧ busy (bufof s i) = true;
  br_dirty : ∀ sec, sec ∈ D ↔ ∃ i, caches s i sec ∧ dirty (bufof s i) = true;
  br_view : ∀ i sec, caches s i sec → valid (bufof s i) = true → b_data (bufof s i) = V sec;
  br_clean : ∀ sec, indisk s sec → sec ∉ B → sec ∉ D → V sec = ondisk s sec;
}.

(** ** The scans *)

Lemma scan_walk s dir ok : zlen (io_bufs s) = NBUF + 1 → ∀ n c L,
  walk (λ i, dir (bufof s i)) c L BHEAD → (∀ i, i ∈ L → isbuf i) → (length L < n)%nat →
  scan n dir ok c s = Ok (List.find (λ i, ok (bufof s i)) L) s.
Proof.
  intros Hlen n. induction n as [|n IH]; intros c L Hw Hin Hn; [lia|]. cbn [scan].
  destruct L as [|i L]; simpl in Hw.
  - rewrite Hw, Z.eqb_refl. done.
  - destruct Hw as [-> Hw]. assert (Hi : isbuf i) by (apply Hin; by left).
    unfold isbuf in Hi. destruct (Z.eqb_spec i BHEAD); [unfold BHEAD in *; lia|].
    erewrite bind_ok by (apply get_buf_ok; [done|lia]). simpl.
    destruct (ok (bufof s i)); [done|]. apply IH; [done| |simpl in Hn; lia].
    intros j Hj. apply Hin. by right.
Qed.

Lemma find_spec (f : Z → bool) (P : Z → Prop) L : (∀ i, i ∈ L ↔ P i) →
  match List.find f L with
  | Some i => P i ∧ f i = true
  | None => ∀ i, P i → f i = false
  end.
Proof.
  intros HP. destruct (List.find f L) as [i|] eqn:E.
  - apply List.find_some in E as [Hi Hf]. split; [|done]. apply HP. by apply list_elem_of_In.
  - intros i Hi. eapply List.find_none; [done|]. apply list_elem_of_In. by apply HP.
Qed.

Lemma ring_length s V B D L : brep s V B D →
  NoDup L → (∀ i, i ∈ L ↔ isbuf i) → length L = 10%nat.
Proof.
  intros _ Hnd HL. assert (Hp : L ≡ₚ seqZ 0 10).
  { apply NoDup_Permutation; [done|apply NoDup_seqZ|]. intros i.
    rewrite HL, elem_of_seqZ. unfold isbuf, NBUF. lia. }
  by rewrite Hp.
Qed.

Section scans.
Context (s : bio) (V : Z → list Z) (B D : gset Z) (Hs : brep s V B D).

Lemma scan_next_ok m ok : ∃ r,
  scan_from_head b_next ok (set_io_base m s) = Ok r (set_io_base m s) ∧
  match r with
  | Some i => isbuf i ∧ ok (bufof s i) = true
  | None => ∀ i, isbuf i → ok (bufof s i) = false
  end.
Proof.
  destruct (br_ring _ _ _ _ Hs) as (L & [Hr Hnd] & HL). pose proof (br_len _ _ _ _ Hs) as Hlen.
  apply NoDup_cons in Hnd as [_ Hnd]. exists (List.find (λ i, ok (bufof s i)) L).
  split; [|by apply (find_spec _ isbuf L)].
  unfold scan_from_head.
  erewrite bind_ok by (apply get_buf_ok; [done|by unfold BHEAD, NBUF]).
  apply (scan_walk (set_io_base m s) b_next ok); [done| |by apply HL|rewrite (ring_length s V B D L) by done; unfold NBUF; lia].
  by eapply (seg_walk_next _ (λ i, b_next (bufof s i))).
Qed.

Lemma scan_prev_ok m ok : ∃ r,
  scan_from_head b_prev ok (set_io_base m s) = Ok r (set_io_base m s) ∧
  match r with
  | Some i => isbuf i ∧ ok (bufof s i) = true
  | None => ∀ i, isbuf i → ok (bufof s i) = false
  end.
Proof.
  destruct (br_ring _ _ _ _ Hs) as (L & [Hr Hnd] & HL). pose proof (br_len _ _ _ _ Hs) as Hlen.
  apply NoDup_cons in Hnd as [_ Hnd].
  assert (HL' : ∀ i, i ∈ reverse L ↔ isbuf i) by (intros i; by rewrite elem_of_reverse, HL).
  exists (List.find (λ i, ok (bufof s i)) (reverse L)).
  split; [|by apply (find_spec _ isbuf (reverse L))].
  unfold scan_from_head.
  erewrite bind_ok by (apply get_buf_ok; [done|by unfold BHEAD, NBUF]).
  apply (scan_walk (set_io_base m s) b_prev ok); [done| |by apply HL'|
    rewrite length_reverse, (ring_length s V B D L) by done; unfold NBUF; lia].
  by eapply (seg_walk_prev (λ i, b_prev (bufof s i))).
Qed.

(** With fewer than [NBUF] busy or dirty sectors some buffer can be recycled. *)
Lemma free_buffer : (size (B ∪ D) < 10)%nat →
  ∃ i, isbuf i ∧ busy (bufof s i) = false ∧ dirty (bufof s i) = false.
Proof.
  intros Hsz.
  destruct (decide (Forall (λ i, busy (bufof s i) = true ∨ dirty (bufof s i) = true) (seqZ 0 10)))
    as [Hall|Hex].
  2: { apply not_Forall_Exists in Hex; [|apply _].
       apply Exists_exists in Hex as (i & Hi & Hx). apply elem_of_seqZ in Hi. exists i.
       split; [unfold isbuf, NBUF; lia|]. split; apply not_true_is_false; intros Hb; apply Hx; auto. }
  exfalso. rewrite Forall_forall in Hall.
  assert (Hu : ∀ i, i ∈ seqZ 0 10 → caches s i (b_sector (bufof s i)) ∧ b_sector (bufof s i) ∈ B ∪ D).
  { intros i Hi. assert (Hb : isbuf i) by (apply elem_of_seqZ in Hi; unfold isbuf, NBUF; lia).
    destruct (br_used _ _ _ _ Hs i Hb (Hall _ Hi)) as (Hc & _ & _). split; [done|].
    apply elem_of_union. destruct (Hall _ Hi); [left|right].
    - apply (br_busy _ _ _ _ Hs). by exists i.
    - apply (br_dirty _ _ _ _ Hs). by exists i. }
  set (secs := (λ i, b_sector (bufof s i)) <$> seqZ 0 10).
  assert (Hnd : NoDup secs).
  { apply NoDup_fmap_2_strong; [|apply NoDup_seqZ]. intros i j Hi Hj He.
    apply (br_uniq _ _ _ _ Hs i j (b_sector (bufof s i))); [by apply Hu|].
    rewrite He. by apply Hu. }
  assert (Hsub : list_to_set secs ⊆ B ∪ D).
  { intros x Hx. apply elem_of_list_to_set, list_elem_of_fmap in Hx as (i & -> & Hi).
    by apply Hu. }
  apply subseteq_size in Hsub. rewrite size_list_to_set in Hsub by done.
  unfold secs in Hsub. rewrite length_fmap, length_seqZ in Hsub. lia.
Qed.
End scans.

(** ** Taking a buffer *)

(** The state with buffer [b] changed by [f] and the machine as after a locked
    section. *)
Definition after_section (b : Z) (f : buf → buf) (s : bio) : bio :=
  set_io_base (set_b_mach (saved (b_mach (io_base s))) (io_base s)) (ubuf b f s).

Definition mark_busy (b : buf) : buf := set_b_flags (Z.lor (b_flags b) B_BUSY) b.
Definition recycle (dev sector : Z) (b : buf) : buf :=
  set_b_flags B_BUSY (set_b_sector sector (set_b_dev dev b)).

Lemma ubuf_ubuf b f g s : zlen (io_bufs s) = NBUF + 1 → isbuf b →
  ubuf b g (ubuf b f s) = ubuf b (λ x, g (f x)) s.
Proof.
  intros Hl Hb. unfold isbuf in Hb. unfold ubuf at 1. rewrite bufof_ubuf, Z.eqb_refl by (done || lia).
  unfold ubuf, zupd. simpl. zcase. by rewrite list_insert_insert_eq.
Qed.

Lemma release_after b f s lk : idle (io_base s) → lk = bcache_lock →
  brelease lk (ubuf b f (set_io_base (set_b_mach (locked lk (b_mach (io_base s))) (io_base s)) s)) =
  Ok tt (after_section b f s).
Proof.
  intros [Hc Hd Hb Hp] ->. unfold brelease. erewrite zoom_ok; [reflexivity|].
  unfold zoom; simpl. by rewrite release_locked.
Qed.

Section bget_spec.
Context {WF : WaitFuel}.

Lemma bget_ok s V B D dev sec : brep s V B D →
  (∀ i, isbuf i → b_dev (bufof s i) = dev → b_sector (bufof s i) = sec → busy (bufof s i) = false) →
  (∃ i, isbuf i ∧ busy (bufof s i) = false ∧ dirty (bufof s i) = false) ∨
  (∃ i, isbuf i ∧ b_dev (bufof s i) = dev ∧ b_sector (bufof s i) = sec) →
  ∃ b, isbuf b ∧
    (b_dev (bufof s b) = dev ∧ b_sector (bufof s b) = sec ∧
     bget dev sec s = Ok b (after_section b mark_busy s) ∨
     (∀ i, isbuf i → b_dev (bufof s i) = dev → b_sector (bufof s i) ≠ sec) ∧
     busy (bufof s b) = false ∧ dirty (bufof s b) = false ∧
     bget dev sec s = Ok b (after_section b (recycle dev sec) s)).
Proof.
  intros Hs Hnb Hfree. pose proof (br_len _ _ _ _ Hs) as Hlen. pose proof (br_idle _ _ _ _ Hs) as Hid.
  set (bl := set_b_mach (locked bcache_lock (b_mach (io_base s))) (io_base s)).
  set (s1 := set_io_base bl s).
  assert (Hacq : bacquire bcache_lock s = Ok tt s1) by (exact (bacquire_ok (S:=bio) bcache_lock s (idle_cli _ Hid))).
  unfold bget. rewrite (bind_ok _ _ _ _ _ Hacq). cbn [bget_loop].
  destruct (scan_next_ok s V B D Hs bl (fun b => (b_dev b =? dev) && (b_sector b =? sec)))
    as (hit & Hscan & Hhit).
  unfold bget_pass. fold s1 in Hscan.
  destruct hit as [b|].
  - destruct Hhit as [Hb Heq]. assert (Hdev : b_dev (bufof s b) = dev ∧ b_sector (bufof s b) = sec) by lia.
    exists b. split; [done|]. left. split; [apply Hdev|]. split; [apply Hdev|].
    assert (Hbi : 0 ≤ b ≤ NBUF) by (unfold isbuf in Hb; lia).
    rewrite (bind_ok _ _ _ (Some b) (after_section b mark_busy s)); [reflexivity|].
    rewrite (bind_ok _ _ _ _ _ Hscan).
    erewrite bind_ok by (by apply get_buf_ok). rewrite flag_busy.
    change (bufof s1 b) with (bufof s b). rewrite Hnb by (tauto). cbn [negb].
    erewrite bind_ok by (by apply upd_buf_ok).
    by rewrite (bind_ok _ _ _ _ _ (release_after b mark_busy s bcache_lock Hid eq_refl)).
  - destruct (scan_prev_ok s V B D Hs bl (fun b =>
      (Z.land (b_flags b) B_BUSY =? 0) && (Z.land (b_flags b) B_DIRTY =? 0))) as (fr & Hscan2 & Hfr).
    fold s1 in Hscan2.
    assert (Hfl : ∀ i, (Z.land (b_flags (bufof s i)) B_BUSY =? 0) && (Z.land (b_flags (bufof s i)) B_DIRTY =? 0)
       = negb (busy (bufof s i)) && negb (dirty (bufof s i))).
    { intros i. rewrite !eq0_flag. fold (flag B_BUSY (bufof s i)) (flag B_DIRTY (bufof s i)).
      by rewrite flag_busy, flag_dirty. }
    destruct fr as [b|].
    2: { exfalso. destruct Hfree as [(i & Hi & H1 & H2)|(i & Hi & H1 & H2)].
         - specialize (Hfr i Hi). rewrite Hfl, H1, H2 in Hfr. done.
         - specialize (Hhit i Hi). rewrite H1, H2, !Z.eqb_refl in Hhit. done. }
    destruct Hfr as [Hb Hbf]. rewrite Hfl in Hbf.
    exists b. split; [done|]. right.
    assert (Hbi : 0 ≤ b ≤ NBUF) by (unfold isbuf in Hb; lia).
    split; [intros i Hi H1 H2; specialize (Hhit i Hi); rewrite H1, H2, !Z.eqb_refl in Hhit; done|].
    split; [by destruct (busy _)|]. split; [by destruct (busy _), (dirty _)|].
    rewrite (bind_ok _ _ _ (Some b) (after_section b (recycle dev sec) s)); [reflexivity|].
    rewrite (bind_ok _ _ _ _ _ Hscan), (bind_ok _ _ _ _ _ Hscan2).
    erewrite bind_ok by (by apply upd_buf_ok).
    erewrite bind_ok by (apply upd_buf_ok; [by apply len_ubuf|done]).
    erewrite bind_ok by (apply upd_buf_ok; [by do 2 apply len_ubuf|done]).
    rewrite ubuf_ubuf, ubuf_ubuf by (done || by apply len_ubuf).
    by rewrite (bind_ok _ _ _ _ _ (release_after b (recycle dev sec) s bcache_lock Hid eq_refl)).
Qed.
End bget_spec.

Definition holds (s : bio) (b sec : Z) : Prop := caches s b sec ∧ busy (bufof s b) = true.

(** Buffer [b] becomes the busy buffer of [sec]; no other buffer changes. *)
Lemma brep_take s s' V B D b sec (x := bufof s b) (x' := bufof s' b) :
  brep s V B D → isbuf b → indisk s sec →
  caches s b sec ∨ (∀ i, ¬ caches s i sec) ∧ busy x = false ∧ dirty x = false →
  idle (io_base s') → io_disk s' = io_disk s → zlen (io_bufs s') = NBUF + 1 →
  (∀ j, j ≠ b → bufof s' j = bufof s j) → b_prev x' = b_prev x → b_next x' = b_next x →
  caches s' b sec → busy x' = true → valid x' = true → dirty x' = dirty x → b_data x' = V sec →
  brep s' V ({[sec]} ∪ B) D.
Proof.
  intros Hs Hb Hsec Hcase Hid Hdisk Hlen Hoth Hpre Hnext Hc' Hbusy Hvalid Hdirty Hdata.
  assert (Hoth' : ∀ i n, i ≠ b → caches s' i n ↔ caches s i n).
  { intros i n Hi. unfold caches. by rewrite Hoth. }
  assert (Hb' : ∀ n, caches s' b n → n = sec) by (intros n (_ & _ & <-); apply Hc').
  assert (Hun : ∀ i, caches s i sec → i = b).
  { intros i Hi. destruct Hcase as [Hc|[Hc _]]; [by eapply Hs|by destruct (Hc i)]. }
  assert (Hold : ∀ n, caches s b n → n ≠ sec → busy x = false ∧ dirty x = false).
  { intros n (_ & _ & Hn) Hne. destruct Hcase as [(_ & _ & Hc)|[_ ?]]; [congruence|done]. }
  split; [done|done|by rewrite Hdisk; apply Hs|..].
  - destruct (br_ring _ _ _ _ Hs) as (L & HL & Hi). exists L. split; [|done].
    eapply ring_ext, HL. intros j _. destruct (decide (j = b)) as [->|]; [done|by rewrite Hoth].
  - intros i j n Hi Hj. destruct (decide (i = b)) as [->|Hib], (decide (j = b)) as [->|Hjb]; [done|..].
    + apply Hb' in Hi as ->. apply Hoth' in Hj; [|done]. symmetry. by apply Hun.
    + apply Hb' in Hj as ->. apply Hoth' in Hi; [|done]. by apply Hun.
    + apply Hoth' in Hi, Hj; [|done..]. by eapply Hs.
  - intros i Hi Hu. unfold indisk. rewrite Hdisk. destruct (decide (i = b)) as [->|Hib].
    + destruct Hc' as (? & ? & Hsc). rewrite Hsc. done.
    + rewrite Hoth in * by done. rewrite Hoth' by done. by apply (br_used _ _ _ _ Hs).
  - intros n. rewrite elem_of_union, elem_of_singleton, (br_busy _ _ _ _ Hs). split.
    + intros [->|(i & Hi & Hbi)]; [by exists b|]. destruct (decide (i = b)) as [->|Hib].
      * destruct (decide (n = sec)) as [->|Hne]; [by exists b|].
        destruct (Hold n Hi Hne). unfold x in *. congruence.
      * exists i. by rewrite Hoth', Hoth.
    + intros (i & Hi & Hbi). destruct (decide (i = b)) as [->|Hib]; [left; by apply Hb'|right].
      exists i. by rewrite Hoth', Hoth in * by done.
  - intros n. rewrite (br_dirty _ _ _ _ Hs). split; intros (i & Hi & Hdi).
    + destruct (decide (i = b)) as [->|Hib].
      * exists b. fold x in Hdi. fold x'. rewrite Hdirty. split; [|done].
        destruct (decide (n = sec)) as [->|Hne]; [done|]. destruct (Hold n Hi Hne). congruence.
      * exists i. by rewrite Hoth', Hoth.
    + destruct (decide (i = b)) as [->|Hib].
      * apply Hb' in Hi as ->. exists b. fold x. rewrite <- Hdirty. split; [|done].
        destruct Hcase as [?|(_ & _ & ?)]; [done|]. fold x' in Hdi. congruence.
      * exists i. by rewrite Hoth', Hoth in * by done.
  - intros i n Hi Hv. destruct (decide (i = b)) as [->|Hib].
    + apply Hb' in Hi as ->. done.
    + rewrite Hoth in * by done. apply (br_view _ _ _ _ Hs); [by apply Hoth'|done].
  - intros n Hn HB HD. unfold ondisk, indisk in *. rewrite Hdisk in *.
    apply (br_clean _ _ _ _ Hs); [done|set_solver|done].
Qed.

Lemma sector_index_ok s V B D sec : brep s V B D → indisk s sec → sector_index sec = sec.
Proof.
  intros Hs Hsec. pose proof (br_size _ _ _ _ Hs). unfold indisk in Hsec. unfold sector_index.
  rewrite u32_small by lia. by rewrite Z.div_mul.
Qed.

Definition fill (data : list Z) (b : buf) : buf :=
  set_b_flags (Z.lor (b_flags b) B_VALID) (set_b_data data b).

Lemma fill_flags data b :
  busy (fill data b) = busy b ∧ dirty (fill data b) = dirty b ∧ valid (fill data b) = true.
Proof.
  unfold busy, dirty, valid, fill. cbn [b_flags set_b_flags]. rewrite !Z.lor_spec.
  cbn. by rewrite orb_true_r, !orb_false_r.
Qed.

Lemma iderw_read s b : zlen (io_bufs s) = NBUF + 1 → isbuf b → zlen (io_disk s) ≤ 2 ^ 23 →
  caches s b (b_sector (bufof s b)) → indisk s (b_sector (bufof s b)) →
  busy (bufof s b) = true → valid (bufof s b) = false → dirty (bufof s b) = false →
  iderw b s = Ok tt (ubuf b (fill (ondisk s (b_sector (bufof s b)))) s).
Proof.
  intros Hlen Hb Hsz (_ & Hdev & _) Hsec Hbusy Hv Hd. unfold indisk in Hsec.
  assert (Hbi : 0 ≤ b ≤ NBUF) by (unfold isbuf in Hb; lia).
  destruct (znth_is_Some _ _ Hsec) as [data Hdata].
  unfold iderw. erewrite bind_ok by (by apply get_buf_ok).
  rewrite flag_busy, Hbusy, land_valid_dirty, Hv, Hdev, flag_dirty, Hd. cbn [negb andb].
  erewrite !bind_ok by reflexivity. replace (zlen (io_disk s) <=? _) with false by lia.
  erewrite (bind_ok (panic_if false _)) by reflexivity.
  unfold sector_index. rewrite u32_small, Z.div_mul by lia. rewrite Hdata.
  erewrite bind_ok.
  2: { erewrite bind_ok by reflexivity. by apply upd_buf_ok. }
  rewrite upd_buf_ok by (done || by apply len_ubuf). rewrite ubuf_ubuf by done.
  unfold ondisk. by rewrite Hdata.
Qed.

Lemma idle_saved b : idle b → idle (set_b_mach (saved (b_mach b)) b).
Proof.
  intros [Hc Hd Hb Hp]. split; simpl.
  - unfold saved, cli_wf in *. by destruct (m_ncli _ =? 0).
  - unfold saved. by destruct (m_ncli _ =? 0).
  - unfold saved. by destruct (m_ncli _ =? 0).
  - unfold saved. by destruct (m_ncli _ =? 0).
Qed.

(** What [bread], [bwrite] and [brelse] keep: the disk's size, the current
    process, and the buffers held for other sectors. *)
Definition same_env (s s' : bio) : Prop :=
  zlen (io_disk s') = zlen (io_disk s) ∧ b_cur (io_base s') = b_cur (io_base s) ∧
  m_held (b_mach (io_base s')) = m_held (b_mach (io_base s)) ∧
  m_ncli (b_mach (io_base s')) = m_ncli (b_mach (io_base s)) ∧
  m_ttbr0 (b_mach (io_base s')) = m_ttbr0 (b_mach (io_base s)).

Lemma same_env_refl s : same_env s s.
Proof. done. Qed.
Lemma same_env_trans s1 s2 s3 : same_env s1 s2 → same_env s2 s3 → same_env s1 s3.
Proof. unfold same_env. naive_solver congruence. Qed.

Lemma bufof_after b f s j : zlen (io_bufs s) = NBUF + 1 → isbuf b →
  bufof (after_section b f s) j = if b =? j then f (bufof s b) else bufof s j.
Proof. intros Hl Hb. unfold isbuf in Hb. apply (bufof_ubuf s); [done|lia]. Qed.

(** Buffer [b] of [s] may be taken for [sec]: it caches it, or nothing does and
    [b] can be recycled. *)
Definition takeable (s : bio) (b sec : Z) : Prop :=
  caches s b sec ∨
  (∀ i, ¬ caches s i sec) ∧ busy (bufof s b) = false ∧ dirty (bufof s b) = false.

(** The buffer [x'] that [bget] makes of [x] for [sec]. *)
Record taken (s : bio) (b sec : Z) (x' : buf) : Prop := {
  tk_case : takeable s b sec;
  tk_busy : busy x' = true;
  tk_dev : b_dev x' = 1;
  tk_sector : b_sector x' = sec;
  tk_dirty : dirty x' = dirty (bufof s b);
  tk_prev : b_prev x' = b_prev (bufof s b);
  tk_next : b_next x' = b_next (bufof s b);
  tk_valid : valid x' = true → caches s b sec ∧ valid (bufof s b) = true ∧
               b_data x' = b_data (bufof s b);
  tk_keep : caches s b sec → valid x' = valid (bufof s b);
}.

Section bread_spec.
Context {WF : WaitFuel}.

Lemma bget_take s V B D sec : brep s V B D → indisk s sec → sec ∉ B →
  (size (B ∪ D) < 10)%nat ∨ sec ∈ D →
  ∃ b f, isbuf b ∧ bget 1 sec s = Ok b (after_section b f s) ∧ taken s b sec (f (bufof s b)).
Proof.
  intros Hs Hsec HB Hroom.
  destruct (bget_ok s V B D 1 sec Hs) as (b & Hb & Hbget).
  { intros i Hi H1 H2. apply not_true_is_false. intros Hbi. apply HB, (br_busy _ _ _ _ Hs).
    by exists i. }
  { destruct Hroom as [Hr|Hr]; [left; by eapply free_buffer|right].
    apply (br_dirty _ _ _ _ Hs) in Hr as (i & (Hi & H1 & H2) & _). eauto. }
  destruct Hbget as [(H1 & H2 & Hr)|(Hno & H1 & H2 & Hr)].
  - exists b, mark_busy. split; [done|]. split; [done|]. unfold mark_busy. split; try done.
    + by left.
    + by rewrite busy_set, orb_true_r.
    + by rewrite dirty_set, orb_false_r.
    + by rewrite valid_set, orb_false_r.
    + by rewrite valid_set, orb_false_r.
  - exists b, (recycle 1 sec). split; [done|]. split; [done|]. split; try done.
    + right. split; [|done]. intros i (Hi & ? & ?). by eapply Hno.
    + intros (_ & ? & ?). by edestruct (Hno b).
Qed.

Lemma taken_brep s s2 V B D b sec x2 : brep s V B D → isbuf b → indisk s sec → sec ∉ B →
  takeable s b sec → idle (io_base s2) → io_disk s2 = io_disk s →
  zlen (io_bufs s2) = NBUF + 1 → (∀ j, bufof s2 j = if b =? j then x2 else bufof s j) →
  taken s b sec x2 ∨ (∃ x1, taken s b sec x1 ∧ valid x1 = false ∧ x2 = fill (V sec) x1) →
  valid x2 = true →
  brep s2 V ({[sec]} ∪ B) D ∧ holds s2 b sec ∧ ∀ b' sec', holds s b' sec' → holds s2 b' sec'.
Proof.
  intros Hs Hb Hsec HB Hcase Hid Hdisk Hlen Hbuf Hx Hv.
  assert (Hx2 : bufof s2 b = x2) by (by rewrite Hbuf, Z.eqb_refl).
  assert (Hoth : ∀ j, j ≠ b → bufof s2 j = bufof s j) by (intros j Hj; rewrite Hbuf; by zcase).
  assert (Hp : busy x2 = true ∧ b_dev x2 = 1 ∧ b_sector x2 = sec ∧ dirty x2 = dirty (bufof s b) ∧
    b_prev x2 = b_prev (bufof s b) ∧ b_next x2 = b_next (bufof s b) ∧ b_data x2 = V sec).
  { destruct Hx as [[]|(x1 & [] & Hv1 & ->)].
    - destruct tk_valid0 as (Hc & Hvb & Hd); [done|]. rewrite Hd. repeat split; try done.
      by apply (br_view _ _ _ _ Hs).
    - destruct (fill_flags (V sec) x1) as (Hfb & Hfd & _). rewrite Hfb, Hfd. done. }
  destruct Hp as (Hbusy & Hdev & Hsc & Hdirty & Hpre & Hnext & Hdata).
  assert (Hc2 : caches s2 b sec) by (unfold caches; by rewrite Hx2).
  split; [|split].
  - apply (brep_take s s2 V B D b sec); rewrite ?Hx2; done.
  - split; [done|]. by rewrite Hx2.
  - intros b' n [Hc' Hbu']. destruct (decide (b' = b)) as [->|Hne].
    + exfalso. destruct Hcase as [Hc|(_ & ? & _)]; [|congruence].
      apply HB, (br_busy _ _ _ _ Hs). by exists b.
    + unfold holds, caches. by rewrite Hoth.
Qed.

Lemma bread_ok s V B D sec : brep s V B D → indisk s sec → sec ∉ B →
  (size (B ∪ D) < 10)%nat ∨ sec ∈ D →
  ∃ b s', bread 1 sec s = Ok b s' ∧ brep s' V ({[sec]} ∪ B) D ∧ holds s' b sec ∧
    io_disk s' = io_disk s ∧ io_writes s' = io_writes s ∧ same_env s s' ∧
    ∀ b' sec', holds s b' sec' → holds s' b' sec'.
Proof.
  intros Hs Hsec HB Hroom. pose proof (br_len _ _ _ _ Hs) as Hlen.
  pose proof (br_size _ _ _ _ Hs) as Hsz.
  destruct (bget_take s V B D sec Hs Hsec HB Hroom) as (b & f & Hb & Hrun & Htk).
  set (s1 := after_section b f s) in *. set (x1 := f (bufof s b)) in *.
  assert (Hbuf1 : ∀ j, bufof s1 j = if b =? j then x1 else bufof s j)
    by (intros j; by apply bufof_after).
  assert (Hx1 : bufof s1 b = x1) by (by rewrite Hbuf1, Z.eqb_refl).
  assert (Hid1 : idle (io_base s1)) by (apply idle_saved, Hs).
  assert (Henv1 : same_env s s1) by (unfold same_env; simpl; unfold saved; by destruct (_ =? 0)).
  assert (Hlen1 : zlen (io_bufs s1) = NBUF + 1) by (unfold s1; simpl; by rewrite zlen_zupd).
  unfold bread. rewrite (bind_ok _ _ _ _ _ Hrun).
  erewrite bind_ok by (apply get_buf_ok; [done|unfold isbuf in Hb; lia]).
  rewrite flag_valid, Hx1. destruct (valid x1) eqn:Ev.
  { exists b, s1. split; [reflexivity|].
    destruct (taken_brep s s1 V B D b sec x1) as (? & ? & ?);
      first [done|apply Htk|by left|idtac]. }
  destruct Htk as [Hcase Hbusy1 Hdev1 Hsec1 Hdirty1 Hpre1 Hnext1 Hval1 Hkeep].
  assert (Hdx1 : dirty (bufof s b) = false).
  { apply not_true_is_false. intros Hdi. destruct Hcase as [Hc|(_ & _ & ?)]; [|congruence].
    destruct (br_used _ _ _ _ Hs b Hb) as (_ & _ & Hv); [by right|]. rewrite Hkeep in Ev by done. congruence. }
  assert (Hnd : sec ∉ D).
  { rewrite (br_dirty _ _ _ _ Hs). intros (i & Hi & Hdi).
    destruct Hcase as [Hc|[Hno _]]; [|by destruct (Hno i)].
    assert (i = b) as -> by (by eapply Hs). congruence. }
  assert (HV : V sec = ondisk s sec) by (by apply (br_clean _ _ _ _ Hs)).
  set (s2 := ubuf b (fill (V sec)) s1).
  assert (Hrw : iderw b s1 = Ok tt s2).
  { rewrite iderw_read; rewrite ?Hx1, ?Hsec1; try done; [| |congruence].
    - unfold s2. by rewrite HV.
    - unfold caches. by rewrite Hx1. }
  cbn [negb when]. rewrite (bind_ok _ _ _ _ _ Hrw). exists b, s2. split; [reflexivity|].
  destruct (taken_brep s s2 V B D b sec (fill (V sec) x1)) as (? & ? & ?); try done.
  - by apply len_ubuf.
  - intros j. unfold s2. rewrite bufof_ubuf by (unfold isbuf in Hb; done || lia).
    rewrite Hx1, Hbuf1. by destruct (b =? j).
  - right. exists x1. done.
  - apply fill_flags.
Qed.
End bread_spec.

(** ** Working on a held buffer *)

Definition same_buf (x y : buf) : Prop :=
  b_flags x = b_flags y ∧ b_dev x = b_dev y ∧ b_sector x = b_sector y ∧ b_data x = b_data y.
Definition ring_ok (s : bio) : Prop :=
  ∃ L, ring BHEAD (λ i, b_prev (bufof s i)) (λ i, b_next (bufof s i)) L ∧ ∀ i, i ∈ L ↔ isbuf i.

(** The busy buffer [b] of [sec] changes its contents or its flags, the sector
    may be written and the ring reordered; nothing else changes. *)
Lemma brep_update s s' V V' B D b sec (x' := bufof s' b) (busy' dirty' : bool) :
  brep s V B D → holds s b sec →
  idle (io_base s') → zlen (io_bufs s') = NBUF + 1 → zlen (io_disk s') = zlen (io_disk s) →
  ring_ok s' → (∀ j, isbuf j → j ≠ b → same_buf (bufof s' j) (bufof s j)) →
  b_dev x' = 1 → b_sector x' = sec → valid x' = true → busy x' = busy' → dirty x' = dirty' →
  b_data x' = V' sec → (∀ n, n ≠ sec → V' n = V n) →
  (∀ n, n ≠ sec → ondisk s' n = ondisk s n) →
  (busy' = false → dirty' = false → V' sec = ondisk s' sec) →
  brep s' V' (if busy' then {[sec]} ∪ B else B ∖ {[sec]}) (if dirty' then {[sec]} ∪ D else D ∖ {[sec]}).
Proof.
  intros Hs [Hc Hbu] Hid Hlen Hdl Hring Hoth Hdev Hsec Hval Hbusy Hdirty Hdata HV Hdisk Hsync.
  assert (Hb : isbuf b) by apply Hc.
  assert (Hoc : ∀ i n, i ≠ b → caches s' i n ↔ caches s i n).
  { intros i n Hi. split; intros (H1 & H2 & H3); destruct (Hoth i H1 Hi) as (? & ? & ? & ?);
      (split; [done|]); split; congruence. }
  assert (Hcb : ∀ n, caches s' b n ↔ n = sec).
  { intros n. unfold caches. fold x'. rewrite Hdev, Hsec. naive_solver. }
  assert (Hfl : ∀ i, isbuf i → i ≠ b → busy (bufof s' i) = busy (bufof s i) ∧
    dirty (bufof s' i) = dirty (bufof s i) ∧ valid (bufof s' i) = valid (bufof s i)).
  { intros i Hi Hne. destruct (Hoth i Hi Hne) as (He & _). unfold busy, dirty, valid. by rewrite He. }
  assert (Hne : ∀ i n, i ≠ b → caches s i n → n ≠ sec).
  { intros i n Hi Hci ->. apply Hi. by eapply Hs. }
  assert (Hset : ∀ (g : buf → bool) (X : gset Z) (v : bool),
    (∀ n, n ∈ X ↔ ∃ i, caches s i n ∧ g (bufof s i) = true) → g x' = v →
    (∀ i, isbuf i → i ≠ b → g (bufof s' i) = g (bufof s i)) →
    ∀ n, n ∈ (if v then {[sec]} ∪ X else X ∖ {[sec]}) ↔ ∃ i, caches s' i n ∧ g (bufof s' i) = true).
  { intros g X v HX Hv Hg n. transitivity (if decide (n = sec) then v = true else n ∈ X);
      [clear; destruct v; case_decide; set_solver|].
    case_decide as Hn; [subst n; split|rewrite HX; split].
    - intros ?. exists b. split; [by apply Hcb|]. fold x'. congruence.
    - intros (i & Hi & Hbi). destruct (decide (i = b)) as [->|Hib]; [fold x' in Hbi; congruence|].
      apply Hoc in Hi; [|done]. by destruct (Hne i sec).
    - intros (i & Hi & Hbi).
      destruct (decide (i = b)) as [->|Hib]; [destruct Hn, Hi as (_ & _ & <-); apply Hc|].
      exists i. rewrite Hoc, Hg by (done || apply Hi). done.
    - intros (i & Hi & Hbi). destruct (decide (i = b)) as [->|Hib]; [by apply Hcb in Hi|].
      exists i. rewrite Hg in Hbi by (done || apply Hi). by rewrite <- Hoc. }
  split; [done|done|by rewrite Hdl; apply Hs|done|..].
  - intros i j n Hi Hj. destruct (decide (i = b)) as [->|Hib], (decide (j = b)) as [->|Hjb]; [done|..].
    + apply Hcb in Hi as ->. apply Hoc in Hj; [|done]. by destruct (Hne j sec).
    + apply Hcb in Hj as ->. apply Hoc in Hi; [|done]. by destruct (Hne i sec).
    + apply Hoc in Hi, Hj; [|done..]. by eapply Hs.
  - intros i Hi Hu. unfold indisk. rewrite Hdl. destruct (decide (i = b)) as [->|Hib].
    + destruct (br_used _ _ _ _ Hs b Hb) as (_ & Hr & _); [by left|]. fold x'. rewrite Hsec.
      split; [by apply Hcb|]. split; [|done]. by destruct Hc as (_ & _ & <-).
    + destruct (Hfl i Hi Hib) as (H1 & H2 & H3). rewrite H1, H2, H3 in *.
      destruct (Hoth i Hi Hib) as (_ & _ & -> & _). rewrite Hoc by done. by apply (br_used _ _ _ _ Hs).
  - apply Hset; [apply Hs|done|]. intros i Hi Hib. by apply Hfl.
  - apply Hset; [apply Hs|done|]. intros i Hi Hib. by apply Hfl.
  - intros i n Hi Hv. destruct (decide (i = b)) as [->|Hib]; [by apply Hcb in Hi as ->|].
    destruct (Hoth i ltac:(apply Hi) Hib) as (_ & _ & _ & ->).
    destruct (Hfl i ltac:(apply Hi) Hib) as (_ & _ & Hvi). apply Hoc in Hi; [|done].
    rewrite HV by (by eapply Hne). apply (br_view _ _ _ _ Hs); congruence.
  - intros n Hn HB HD. destruct (decide (n = sec)) as [->|Hns].
    + apply Hsync; [destruct busy'; [destruct HB|done]|destruct dirty'; [destruct HD|done]];
        apply elem_of_union; left; by apply elem_of_singleton.
    + rewrite HV, Hdisk by done. unfold indisk in *. rewrite Hdl in Hn.
      apply (br_clean _ _ _ _ Hs); [done|..].
      * clear - HB Hns. destruct busy'; set_solver.
      * clear - HD Hns. destruct dirty'; set_solver.
Qed.

Definition vupd (V : Z → list Z) (sec : Z) (d : list Z) : Z → list Z :=
  λ n, if n =? sec then d else V n.

Section held.
Context (s : bio) (V : Z → list Z) (B D : gset Z) (b sec : Z).
Context (Hs : brep s V B D) (Hh : holds s b sec).

Lemma held_buf : 0 ≤ b ≤ NBUF ∧ isbuf b.
Proof. destruct Hh as [(Hb & _) _]. unfold isbuf in *. lia. Qed.
Lemma held_in : sec ∈ B ∧ indisk s sec ∧ b_data (bufof s b) = V sec ∧ valid (bufof s b) = true.
Proof.
  destruct Hh as [Hc Hb]. destruct (br_used _ _ _ _ Hs b ltac:(apply Hc) (or_introl Hb)) as (_ & Hr & Hv).
  split; [apply (br_busy _ _ _ _ Hs); by exists b|].
  split; [by destruct Hc as (_ & _ & <-)|]. split; [by apply (br_view _ _ _ _ Hs)|done].
Qed.
Lemma held_dirty : dirty (bufof s b) = true ↔ sec ∈ D.
Proof.
  destruct Hh as [Hc _]. rewrite (br_dirty _ _ _ _ Hs). split; [by exists b|].
  intros (i & Hi & Hd). by assert (i = b) as -> by (by eapply Hs).
Qed.
Lemma held_B : {[sec]} ∪ B = B.
Proof. destruct held_in as [H _]. set_solver. Qed.
Lemma held_D : (if dirty (bufof s b) then {[sec]} ∪ D else D ∖ {[sec]}) = D.
Proof.
  pose proof held_dirty as H. destruct (dirty _); [|assert (sec ∉ D) by (by intros ?%H)]; set_solver.
Qed.

Lemma upd_ring f : (∀ x, b_prev (f x) = b_prev x ∧ b_next (f x) = b_next x) → ring_ok (ubuf b f s).
Proof.
  intros Hf. destruct (br_ring _ _ _ _ Hs) as (L & HL & Hi). exists L. split; [|done].
  eapply ring_ext, HL. intros j _. rewrite bufof_ubuf by (apply Hs || apply held_buf).
  destruct (Z.eqb_spec b j) as [<-|]; [apply Hf|done].
Qed.
Lemma upd_other f j : j ≠ b → bufof (ubuf b f s) j = bufof s j.
Proof. intros Hj. rewrite bufof_ubuf by (apply Hs || apply held_buf). by zcase. Qed.
Lemma upd_this f : bufof (ubuf b f s) b = f (bufof s b).
Proof. by rewrite bufof_ubuf, Z.eqb_refl by (apply Hs || apply held_buf). Qed.

Definition keeps_holds (s' : bio) : Prop := ∀ b' sec', b' ≠ b → holds s b' sec' → holds s' b' sec'.
Lemma upd_keeps f s' : (∀ j, bufof s' j = bufof (ubuf b f s) j) → keeps_holds s'.
Proof.
  intros He b' n Hne [Hc Hb]. unfold holds, caches. by rewrite He, upd_other.
Qed.

(** [memmove(bp->data + ..., ...)]: the holder changes the contents. *)
Lemma set_data_ok d : ∃ s', upd_buf b (set_b_data d) s = Ok tt s' ∧
  brep s' (vupd V sec d) B D ∧ holds s' b sec ∧ io_disk s' = io_disk s ∧
  io_writes s' = io_writes s ∧ same_env s s' ∧ keeps_holds s'.
Proof.
  destruct Hh as [(_ & Hdev & Hsec) Hb]. destruct held_in as (_ & _ & _ & Hv).
  exists (ubuf b (set_b_data d) s).
  split; [apply upd_buf_ok; [apply Hs|apply held_buf]|]. split; [|split; [|split; [done|]]].
  - rewrite <- held_B. rewrite <- held_D.
    apply (brep_update s _ V _ B D b sec true); rewrite ?upd_this; try done.
    + apply Hs.
    + apply len_ubuf, Hs.
    + by apply upd_ring.
    + intros j _ Hj. by rewrite upd_other.
    + unfold vupd. by rewrite Z.eqb_refl.
    + intros n Hn. unfold vupd. by zcase.
  - split; [|by rewrite upd_this]. split; [apply held_buf|]. by rewrite upd_this.
  - split; [done|]. split; [done|]. by apply (upd_keeps (set_b_data d)).
Qed.

(** [b->flags |= B_DIRTY], the pin of [log_write]. *)
Lemma set_dirty_ok : ∃ s',
  upd_buf b (fun b => set_b_flags (Z.lor (b_flags b) B_DIRTY) b) s = Ok tt s' ∧
  brep s' V B ({[sec]} ∪ D) ∧ holds s' b sec ∧ io_disk s' = io_disk s ∧
  io_writes s' = io_writes s ∧ same_env s s' ∧ keeps_holds s'.
Proof.
  destruct Hh as [(_ & Hdev & Hsec) Hb]. destruct held_in as (_ & _ & Hd & Hv).
  set (f := fun b => set_b_flags (Z.lor (b_flags b) B_DIRTY) b).
  assert (Hbf : busy (f (bufof s b)) = true) by (unfold f; by rewrite busy_set, Hb).
  exists (ubuf b f s).
  split; [apply upd_buf_ok; [apply Hs|apply held_buf]|]. split; [|split; [|split; [done|]]].
  - rewrite <- held_B at 1.
    apply (brep_update s _ V _ B D b sec true true); rewrite ?upd_this; try done.
    + apply Hs.
    + apply len_ubuf, Hs.
    + by apply upd_ring.
    + intros j _ Hj. by rewrite upd_other.
    + unfold f. by rewrite valid_set, Hv.
    + unfold f. by rewrite dirty_set, orb_true_r.
  - split; [|by rewrite upd_this]. split; [apply held_buf|]. by rewrite upd_this.
  - split; [done|]. split; [done|]. by apply (upd_keeps f).
Qed.

Definition written (x : buf) : buf :=
  set_b_flags (Z.lor (Z.land (Z.lor (b_flags x) B_DIRTY) (Z.lnot B_DIRTY)) B_VALID) x.
Lemma written_flags x : busy (written x) = busy x ∧ valid (written x) = true ∧ dirty (written x) = false.
Proof.
  unfold busy, valid, dirty, written. cbn [b_flags set_b_flags].
  rewrite !Z.lor_spec, !Z.land_spec, !Z.lor_spec, !Z.lnot_spec by lia. cbn.
  by rewrite !orb_false_r, !andb_true_r, orb_true_r, andb_false_r.
Qed.

Lemma bwrite_run : bwrite b s = Ok tt
  (set_io_writes (io_writes s ++ [(sec, V sec)]) (set_io_disk (zupd sec (V sec) (io_disk s)) (ubuf b written s))).
Proof.
  pose proof (br_len _ _ _ _ Hs) as Hlen. destruct held_buf as [Hbi Hbb].
  destruct Hh as [(_ & Hdev & Hsec) Hb]. destruct held_in as (_ & Hr & Hd & Hv).
  unfold bwrite. erewrite bind_ok by (by apply get_buf_ok).
  rewrite eq0_flag. fold (flag B_BUSY (bufof s b)). rewrite flag_busy, Hb.
  erewrite (bind_ok (panic_if _ _)) by reflexivity. erewrite bind_ok by (by apply upd_buf_ok).
  set (f := fun x => set_b_flags (Z.lor (b_flags x) B_DIRTY) x). set (s1 := ubuf b f s).
  assert (Hlen1 : zlen (io_bufs s1) = NBUF + 1) by (by apply len_ubuf).
  assert (Hx1 : bufof s1 b = f (bufof s b)) by apply upd_this.
  unfold iderw. erewrite bind_ok by (by apply get_buf_ok). rewrite Hx1.
  assert (Hf : busy (f (bufof s b)) = true ∧ dirty (f (bufof s b)) = true ∧
    b_dev (f (bufof s b)) = 1 ∧ b_sector (f (bufof s b)) = sec ∧ b_data (f (bufof s b)) = V sec).
  { unfold f. by rewrite busy_set, dirty_set, Hb, orb_true_r. }
  destruct Hf as (Hf1 & Hf2 & Hf3 & Hf4 & Hf5).
  rewrite flag_busy, flag_dirty, land_valid_dirty, Hf1, Hf2, Hf3, Hf4, Hf5, andb_false_r. cbn [negb].
  erewrite (bind_ok (panic_if _ _)) by reflexivity. erewrite (bind_ok (panic_if _ _)) by reflexivity.
  erewrite (bind_ok (panic_if _ _)) by reflexivity. erewrite (bind_ok (gets _)) by reflexivity.
  change (io_disk s1) with (io_disk s). unfold indisk in Hr.
  replace (zlen (io_disk s) <=? sec) with false by lia.
  erewrite (bind_ok (panic_if _ _)) by reflexivity.
  rewrite (sector_index_ok s V B D) by done.
  set (g := fun x => set_b_flags (Z.land (b_flags x) (Z.lnot B_DIRTY)) x).
  rewrite (bind_ok _ _ _ tt (set_io_writes (io_writes s ++ [(sec, V sec)])
    (set_io_disk (zupd sec (V sec) (io_disk s)) (ubuf b (λ x, g (f x)) s)))).
  2: { erewrite bind_ok by (by apply upd_buf_ok). unfold s1. by rewrite ubuf_ubuf. }
  rewrite upd_buf_ok; [|simpl; by rewrite zlen_zupd|done].
  f_equal. unfold set_io_writes, set_io_disk. simpl.
  unfold ubuf, set_io_bufs. cbn [io_base io_bufs io_disk io_writes].
  set (s2 := BioSt _ (zupd b (g (f (bufof s b))) (io_bufs s)) _ _). assert (Hx2 : bufof s2 b = g (f (bufof s b))).
  { unfold bufof at 1, s2. simpl. by rewrite znth_zupd by (rewrite Hlen; unfold NBUF in *; lia). }
  by rewrite Hx2, zupd_zupd.
Qed.

(** [bwrite] puts the buffer's contents on the disk as one sector write. *)
Lemma bwrite_ok : ∃ s', bwrite b s = Ok tt s' ∧ brep s' V B (D ∖ {[sec]}) ∧ holds s' b sec ∧
  io_disk s' = zupd sec (V sec) (io_disk s) ∧ io_writes s' = io_writes s ++ [(sec, V sec)] ∧
  same_env s s' ∧ keeps_holds s'.
Proof.
  eexists. split; [apply bwrite_run|]. set (s' := set_io_writes _ _).
  destruct held_buf as [Hbi Hbb]. destruct Hh as [(_ & Hdev & Hsec) Hb].
  destruct held_in as (_ & Hr & Hd & Hv). destruct (written_flags (bufof s b)) as (Hw1 & Hw2 & Hw3).
  assert (Hx : bufof s' b = written (bufof s b)) by apply upd_this.
  assert (Hod : ∀ n, ondisk s' n = if n =? sec then V sec else ondisk s n).
  { intros n. unfold ondisk, s'; simpl. destruct (Z.eqb_spec n sec) as [->|].
    - by rewrite znth_zupd.
    - by rewrite znth_zupd_ne. }
  split; [|split; [|split; [done|split; [done|split]]]].
  - rewrite <- held_B.
    apply (brep_update s s' V V B D b sec true false); rewrite ?Hx; try done.
    + apply Hs.
    + apply len_ubuf, Hs.
    + simpl. apply zlen_zupd.
    + apply (upd_ring written). done.
    + intros j _ Hj. change (bufof s' j) with (bufof (ubuf b written s) j). by rewrite upd_other.
    + congruence.
    + intros n Hn. rewrite Hod. by zcase.
  - split; [|rewrite Hx; congruence]. split; [done|]. by rewrite Hx.
  - unfold same_env; simpl. by rewrite zlen_zupd.
  - by apply (upd_keeps written).
Qed.
End held.

(** ** Releasing a buffer *)

(** The link updates of [brelse] on the buffer array. *)
Definition unlinked (b : Z) (s : bio) : bio :=
  let x := bufof s b in
  ubuf (b_prev x) (set_b_next (b_next x)) (ubuf (b_next x) (set_b_prev (b_prev x)) s).
Definition pushed_front (b : Z) (s : bio) : bio :=
  let h := b_next (bufof s BHEAD) in
  ubuf BHEAD (set_b_next b) (ubuf h (set_b_prev b)
    (ubuf b (set_b_prev BHEAD) (ubuf b (set_b_next h) s))).

Section links.
Context (s : bio) (b : Z) (L1 L2 : list Z).
Context (Hlen : zlen (io_bufs s) = NBUF + 1).
Context (Hr : ring BHEAD (λ i, b_prev (bufof s i)) (λ i, b_next (bufof s i)) (L1 ++ b :: L2)).
Context (HL : ∀ i, i ∈ L1 ++ b :: L2 ↔ isbuf i).

Lemma node_range i : i ∈ BHEAD :: L1 ++ L2 → 0 ≤ i ≤ NBUF ∧ i ≠ b.
Proof.
  destruct Hr as [_ Hnd]. apply NoDup_cons in Hnd as [Hh [Hb _]%NoDup_mid].
  intros [->|Hi]%elem_of_cons.
  - split; [unfold BHEAD, NBUF; lia|]. intros Hx. apply Hh. rewrite Hx. apply elem_of_mid. by left.
  - split; [|by intros ->]. assert (isbuf i) by (apply HL, elem_of_mid; by right).
    unfold isbuf in *. lia.
Qed.
Lemma neighbours : b_prev (bufof s b) ∈ BHEAD :: L1 ++ L2 ∧ b_next (bufof s b) ∈ BHEAD :: L1 ++ L2.
Proof.
  destruct Hr as [Hs _]. apply seg_app in Hs as (p1 & c1 & Hs1 & _ & Hp & Hs2). cbv beta in *.
  rewrite Hp, (seg_last _ _ _ _ _ _ _ Hs1), (seg_first _ _ _ _ _ _ _ Hs2). split.
  - destruct (last L1) eqn:E; [|by left]. right. apply last_Some in E as [? ->].
    simpl. rewrite !elem_of_app. left. right. by left.
  - destruct L2; [by left|right]. apply elem_of_app. right. by left.
Qed.

Lemma bufof_unlinked j : 0 ≤ j ≤ NBUF →
  b_prev (bufof (unlinked b s) j) =
    (if b_next (bufof s b) =? j then b_prev (bufof s b) else b_prev (bufof s j)) ∧
  b_next (bufof (unlinked b s) j) =
    (if b_prev (bufof s b) =? j then b_next (bufof s b) else b_next (bufof s j)) ∧
  same_buf (bufof (unlinked b s) j) (bufof s j).
Proof.
  intros Hj. destruct neighbours as [[Hp _]%node_range [Hn _]%node_range]. unfold unlinked.
  rewrite !bufof_ubuf by (done || by apply len_ubuf).
  destruct (Z.eqb_spec (b_prev (bufof s b)) j) as [He|He]; [rewrite He|];
    (destruct (Z.eqb_spec (b_next (bufof s b)) j) as [Hf|Hf]; [rewrite Hf|]); done.
Qed.
Lemma ring_unlinked : ring BHEAD (λ i, b_prev (bufof (unlinked b s) i))
  (λ i, b_next (bufof (unlinked b s) i)) (L1 ++ L2).
Proof.
  eapply ring_remove; [exact Hr| |]; intros j Hj; cbv beta;
    apply bufof_unlinked; by apply node_range.
Qed.
End links.

Section push.
Context (s : bio) (b : Z) (L : list Z).
Context (Hlen : zlen (io_bufs s) = NBUF + 1) (Hb : isbuf b).
Context (Hr : ring BHEAD (λ i, b_prev (bufof s i)) (λ i, b_next (bufof s i)) L).
Context (HL : ∀ i, i ∈ L → isbuf i ∧ i ≠ b).

Lemma first_range : 0 ≤ b_next (bufof s BHEAD) ≤ NBUF ∧ b_next (bufof s BHEAD) ≠ b.
Proof.
  destruct Hr as [Hs _]. rewrite (seg_first _ _ _ _ _ _ _ Hs). unfold isbuf in *.
  destruct L as [|x L']; simpl; [unfold BHEAD, NBUF in *; lia|].
  assert (Hx : x ∈ x :: L') by (by left). apply HL in Hx as [Hx ?]. lia.
Qed.

Lemma bufof_pushed j : 0 ≤ j ≤ NBUF →
  b_prev (bufof (pushed_front b s) j) =
    (if j =? b then BHEAD else if b_next (bufof s BHEAD) =? j then b else b_prev (bufof s j)) ∧
  b_next (bufof (pushed_front b s) j) =
    (if j =? b then b_next (bufof s BHEAD) else if BHEAD =? j then b else b_next (bufof s j)) ∧
  same_buf (bufof (pushed_front b s) j) (bufof s j).
Proof.
  intros Hj. destruct first_range as [Hf Hfb]. unfold isbuf in Hb.
  assert (HB : 0 ≤ BHEAD ≤ NBUF) by (unfold BHEAD, NBUF; lia).
  assert (Hbb : BHEAD ≠ b) by (unfold BHEAD; lia). assert (Hbi : 0 ≤ b ≤ NBUF) by lia.
  unfold pushed_front. set (h := b_next (bufof s BHEAD)) in *.
  rewrite !bufof_ubuf by (first [done|repeat apply len_ubuf; done]). rewrite !Z.eqb_refl.
  destruct (Z.eqb_spec b BHEAD); [lia|]. destruct (Z.eqb_spec b h); [lia|].
  destruct (Z.eqb_spec BHEAD j) as [<-|Hj1].
  - destruct (Z.eqb_spec BHEAD b); [lia|]. destruct (Z.eqb_spec h BHEAD) as [He|]; [rewrite He|]; done.
  - destruct (Z.eqb_spec h j) as [He|]; [rewrite He|].
    + destruct (Z.eqb_spec j b); [lia|]. done.
    + destruct (Z.eqb_spec b j) as [<-|]; [by rewrite Z.eqb_refl|]. by zcase.
Qed.

Lemma ring_pushed : ring BHEAD (λ i, b_prev (bufof (pushed_front b s) i))
  (λ i, b_next (bufof (pushed_front b s) i)) (b :: L).
Proof.
  unfold isbuf in *. assert (Hbi : 0 ≤ b ≤ NBUF) by lia.
  assert (Hn : ∀ j, j ∈ BHEAD :: L → 0 ≤ j ≤ NBUF ∧ j ≠ b).
  { intros j [->|[? ?]%HL]%elem_of_cons; [unfold BHEAD in *|]; lia. }
  eapply ring_push; [exact Hr|intros [_ ?]%Hn; done|..].
  - destruct (bufof_pushed b Hbi) as (-> & _). by rewrite Z.eqb_refl.
  - destruct (bufof_pushed b Hbi) as (_ & -> & _). by rewrite Z.eqb_refl.
  - intros j [Hj Hne]%Hn. destruct (bufof_pushed j Hj) as (-> & _). by zcase.
  - intros j [Hj Hne]%Hn. destruct (bufof_pushed j Hj) as (_ & -> & _). by zcase.
Qed.
End push.

(** The buffers after [brelse]: [b] unlinked, pushed to the front of the ring
    and no longer busy. *)
Definition released (b : Z) (s : bio) : bio :=
  ubuf b (fun x => set_b_flags (Z.land (b_flags x) (Z.lnot B_BUSY)) x) (pushed_front b (unlinked b s)).

Lemma same_buf_trans x y z : same_buf x y → same_buf y z → same_buf x z.
Proof. unfold same_buf. naive_solver congruence. Qed.

Lemma released_ok s b L : zlen (io_bufs s) = NBUF + 1 → isbuf b →
  ring BHEAD (λ i, b_prev (bufof s i)) (λ i, b_next (bufof s i)) L → (∀ i, i ∈ L ↔ isbuf i) →
  ring BHEAD (λ i, b_prev (bufof (released b s) i)) (λ i, b_next (bufof (released b s) i))
    (b :: filter (.≠ b) L) ∧ zlen (io_bufs (released b s)) = NBUF + 1 ∧
  (∀ j, isbuf j → j ≠ b → same_buf (bufof (released b s) j) (bufof s j)) ∧
  (∃ x, bufof (released b s) b = set_b_flags (Z.land (b_flags x) (Z.lnot B_BUSY)) x ∧
    same_buf x (bufof s b)).
Proof.
  intros Hlen Hb Hr HL. assert (HbL : b ∈ L) by (by apply HL).
  apply list_elem_of_split in HbL as (L1 & L2 & ->).
  pose proof Hr as [_ Hnd]. apply NoDup_cons in Hnd as [_ Hnd]. rewrite filter_ne_mid by done.
  apply NoDup_mid in Hnd as [Hnb _].
  assert (Hlen1 : zlen (io_bufs (unlinked b s)) = NBUF + 1) by (by do 2 apply len_ubuf).
  pose proof (ring_unlinked s b L1 L2 Hlen Hr HL) as Hr1.
  pose proof (bufof_unlinked s b L1 L2 Hlen Hr HL) as Hu.
  assert (HL1 : ∀ i, i ∈ L1 ++ L2 ↔ isbuf i ∧ i ≠ b).
  { intros i. rewrite <- HL, elem_of_mid. split; [intros Hi; split; [by right|by intros ->]|tauto]. }
  assert (HL1' : ∀ i, i ∈ L1 ++ L2 → isbuf i ∧ i ≠ b) by (intros i; apply HL1).
  pose proof (ring_pushed _ b _ Hlen1 Hb Hr1 HL1') as Hr2.
  pose proof (bufof_pushed _ b _ Hlen1 Hb Hr1 HL1') as Hp.
  assert (Hlen2 : zlen (io_bufs (pushed_front b (unlinked b s))) = NBUF + 1) by (by do 4 apply len_ubuf).
  assert (Hbi : 0 ≤ b ≤ NBUF) by (unfold isbuf in Hb; lia).
  split; [|split; [by apply len_ubuf|split]].
  - eapply ring_ext, Hr2. intros j _. unfold released. rewrite bufof_ubuf by done.
    destruct (Z.eqb_spec b j) as [<-|]; done.
  - intros j Hj Hne. unfold released. rewrite bufof_ubuf by done. zcase.
    assert (Hji : 0 ≤ j ≤ NBUF) by (unfold isbuf in Hj; lia).
    eapply same_buf_trans; [apply Hp; done|apply Hu; done].
  - exists (bufof (pushed_front b (unlinked b s)) b). split.
    + unfold released. by rewrite bufof_ubuf, Z.eqb_refl.
    + eapply same_buf_trans; [apply Hp; done|apply Hu; done].
Qed.

Definition woken (b : Z) (s : bio) : base :=
  set_b_mach (saved (b_mach (io_base s)))
    (set_b_procs (wake_one (buf_chan b) <$> b_procs (io_base s)) (io_base s)).

Lemma wakeup_locked chan lk b : cli_wf (b_mach b) → m_ncli (b_mach b) < 2 ^ 31 - 8 →
  lk ≠ ptable_lock → ptable_lock ∉ m_held (b_mach b) →
  wakeup chan (set_b_mach (locked lk (b_mach b)) b) =
    Ok tt (set_b_mach (locked lk (b_mach b)) (set_b_procs (wake_one chan <$> b_procs b) b)).
Proof.
  intros Hc Hd Hlk Hp. rewrite wakeup_ok; simpl.
  - unfold saved at 1. destruct Hc as [Hn _].
    replace (m_ncli (locked lk (b_mach b)) =? 0) with false by (simpl; lia). done.
  - split; [simpl; destruct Hc; lia|]. intros _. apply (pushed_masked (b_mach b)).
  - set_solver.
Qed.

Lemma brelease_bio lk m b r : cli_wf m → lk ∉ m_held m →
  brelease lk (set_io_base (set_b_mach (locked lk m) b) r) =
  Ok tt (set_io_base (set_b_mach (saved m) b) r).
Proof.
  intros Hc Hl. unfold brelease. erewrite zoom_ok; [reflexivity|].
  unfold zoom; simpl. by rewrite release_locked.
Qed.

Lemma brelse_run s V B D b sec : brep s V B D → holds s b sec →
  brelse b s = Ok tt (set_io_base (woken b s) (released b s)).
Proof.
  intros Hs Hh. pose proof (br_len _ _ _ _ Hs) as Hlen. pose proof (br_idle _ _ _ _ Hs) as [Hc Hd Hb Hp].
  destruct (held_buf s b sec Hh) as [Hbi Hbb]. destruct (br_ring _ _ _ _ Hs) as (L & Hr & HL).
  assert (HbL : b ∈ L) by (by apply HL). apply list_elem_of_split in HbL as (L1 & L2 & ->).
  destruct (neighbours s b L1 L2 Hr HL) as [Hpn Hnn].
  apply (node_range s b L1 L2 Hr HL) in Hpn as [Hpr Hpb].
  apply (node_range s b L1 L2 Hr HL) in Hnn as [Hnr Hnb].
  unfold brelse. erewrite bind_ok by (by apply get_buf_ok).
  rewrite eq0_flag. fold (flag B_BUSY (bufof s b)). rewrite flag_busy, (proj2 Hh).
  erewrite (bind_ok (panic_if _ _)) by reflexivity.
  set (bl := set_b_mach (locked bcache_lock (b_mach (io_base s))) (io_base s)).
  rewrite (bind_ok _ _ _ tt (set_io_base bl s)) by (exact (bacquire_ok (S:=bio) bcache_lock s Hc)).
  erewrite bind_ok by (by apply get_buf_ok). erewrite bind_ok by (by apply upd_buf_ok).
  change (bufof (set_io_base bl s)) with (bufof s).
  set (s1 := ubuf (b_next (bufof s b)) _ (set_io_base bl s)).
  assert (Hlen1 : zlen (io_bufs s1) = NBUF + 1) by (by apply len_ubuf).
  assert (Hx1 : bufof s1 b = bufof s b).
  { unfold s1. rewrite bufof_ubuf by done. by zcase. }
  erewrite bind_ok by (by apply get_buf_ok). rewrite Hx1.
  erewrite bind_ok by (by apply upd_buf_ok).
  change (ubuf (b_prev (bufof s b)) (set_b_next (b_next (bufof s b))) s1)
    with (set_io_base bl (unlinked b s)).
  set (s2 := unlinked b s). assert (Hlen2 : zlen (io_bufs s2) = NBUF + 1) by (by do 2 apply len_ubuf).
  pose proof (ring_unlinked s b L1 L2 Hlen Hr HL) as Hr2. fold s2 in Hr2.
  pose proof Hr as [_ Hnd]. apply NoDup_cons in Hnd as [_ Hnd]. apply NoDup_mid in Hnd as [HbL _].
  assert (HL2 : ∀ i, i ∈ L1 ++ L2 → isbuf i ∧ i ≠ b).
  { intros i Hi. rewrite <- HL, elem_of_mid. split; [by right|by intros ->]. }
  destruct (first_range s2 b _ Hbb Hr2 HL2) as [Hf Hfb].
  assert (HB : 0 ≤ BHEAD ≤ NBUF) by (unfold BHEAD, NBUF; lia).
  assert (HBb : b ≠ BHEAD) by (unfold isbuf, BHEAD in *; lia).
  erewrite bind_ok by (by apply get_buf_ok). change (bufof (set_io_base bl s2)) with (bufof s2).
  set (h := b_next (bufof s2 BHEAD)) in *.
  erewrite bind_ok by (by apply upd_buf_ok).
  erewrite bind_ok by (apply upd_buf_ok; [by apply len_ubuf|done]).
  set (s3 := ubuf b (set_b_prev BHEAD) (ubuf b (set_b_next h) (set_io_base bl s2))).
  assert (Hlen3 : zlen (io_bufs s3) = NBUF + 1) by (by do 2 apply len_ubuf).
  assert (Hh3 : b_next (bufof s3 BHEAD) = h).
  { unfold s3. rewrite !bufof_ubuf by (first [done|by apply len_ubuf]). zcase. done. }
  erewrite bind_ok by (by apply get_buf_ok). rewrite Hh3.
  erewrite bind_ok by (by apply upd_buf_ok).
  erewrite bind_ok by (apply upd_buf_ok; [by apply len_ubuf|done]).
  erewrite bind_ok by (apply upd_buf_ok; [by do 2 apply len_ubuf|done]).
  match goal with |- bind _ _ ?t = _ => change t with (set_io_base bl (released b s)) end.
  erewrite bind_ok; [by apply brelease_bio|].
  erewrite zoom_ok by (by apply wakeup_locked). reflexivity.
Qed.

Lemma idle_woken b s : idle (io_base s) → idle (woken b s).
Proof. intros H. by destruct (idle_saved _ H) as [? ? ? ?]. Qed.

Lemma brelse_ok s V B D b sec : brep s V B D → holds s b sec →
  sec ∈ D ∨ V sec = ondisk s sec →
  ∃ s', brelse b s = Ok tt s' ∧ brep s' V (B ∖ {[sec]}) D ∧
    io_disk s' = io_disk s ∧ io_writes s' = io_writes s ∧ same_env s s' ∧
    keeps_holds s b s'.
Proof.
  intros Hs Hh Hsync. eexists. split; [by eapply brelse_run|].
  set (s' := set_io_base _ _). pose proof (br_len _ _ _ _ Hs) as Hlen.
  destruct (held_buf s b sec Hh) as [_ Hbb]. destruct (br_ring _ _ _ _ Hs) as (L & Hr & HL).
  destruct (released_ok s b L Hlen Hbb Hr HL) as (Hr' & Hlen' & Hoth & x & Hx & Hxs).
  destruct (held_in s V B D b sec Hs Hh) as (_ & _ & Hd & Hv).
  pose proof (held_D s V B D b sec Hs Hh) as HD. pose proof (held_dirty s V B D b sec Hs Hh) as Hdi.
  destruct Hh as [(_ & Hdev & Hsec) Hb]. destruct Hxs as (Hfl & Hxd & Hxs & Hxdata).
  assert (Hfl' : busy x = busy (bufof s b) ∧ valid x = valid (bufof s b) ∧ dirty x = dirty (bufof s b)).
  { unfold busy, valid, dirty. by rewrite Hfl. }
  destruct Hfl' as (Hxb & Hxv & Hxdi).
  assert (Hx' : bufof s' b = set_b_flags (Z.land (b_flags x) (Z.lnot B_BUSY)) x) by exact Hx.
  split; [|split; [done|split; [done|split]]].
  - rewrite <- HD.
    apply (brep_update s s' V V B D b sec false (dirty (bufof s b))); rewrite ?Hx'; try done.
    + apply idle_woken, Hs.
    + exists (b :: filter (.≠ b) L). split; [exact Hr'|]. intros i.
      rewrite elem_of_cons, list_elem_of_filter, HL.
      destruct (decide (i = b)) as [->|]; tauto.
    + simpl. congruence.
    + simpl. congruence.
    + rewrite valid_clr, Hxv, Hv. done.
    + rewrite busy_clr, andb_false_r. done.
    + rewrite dirty_clr, andb_true_r. done.
    + simpl. congruence.
    + intros _ Hnd. destruct Hsync as [?%Hdi|?]; [congruence|done].
  - unfold same_env; simpl. unfold saved. by destruct (_ =? 0).
  - intros b' n Hne [Hc' Hbu']. destruct (Hoth b' ltac:(apply Hc') Hne) as (H1 & H2 & H3 & H4).
    change (bufof (released b s)) with (bufof s') in *. destruct Hc' as (? & ? & ?).
    unfold holds, caches, busy. rewrite H1, H2, H3. done.
Qed.

(** ** Initialisation *)

Definition fresh_bio (s : bio) : Prop :=
  zlen (io_bufs s) = NBUF + 1 ∧ zlen (io_disk s) ≤ 2 ^ 23 ∧
  ∀ i, isbuf i → b_flags (bufof s i) = 0.

Lemma binit_step_run t b L : zlen (io_bufs t) = NBUF + 1 → isbuf b →
  ring BHEAD (λ i, b_prev (bufof t i)) (λ i, b_next (bufof t i)) L →
  (∀ i, i ∈ L → isbuf i ∧ i ≠ b) →
  binit_step b t = Ok tt (pushed_front b (ubuf b (set_b_dev (u32 (-1))) t)).
Proof.
  intros Hlen Hb Hr HL. destruct (first_range t b L Hb Hr HL) as [Hf Hfb].
  assert (HB : 0 ≤ BHEAD ≤ NBUF) by (unfold BHEAD, NBUF; lia).
  assert (Hbi : 0 ≤ b ≤ NBUF ∧ b ≠ BHEAD) by (unfold isbuf, BHEAD in *; lia). destruct Hbi as [Hbi HBb].
  unfold binit_step. erewrite bind_ok by (by apply get_buf_ok).
  set (h := b_next (bufof t BHEAD)) in *.
  erewrite bind_ok by (by apply upd_buf_ok).
  erewrite bind_ok by (apply upd_buf_ok; [by apply len_ubuf|done]).
  erewrite bind_ok by (apply upd_buf_ok; [by do 2 apply len_ubuf|done]).
  rewrite !ubuf_ubuf by (first [done|by apply len_ubuf]).
  set (t1 := ubuf b _ t). assert (Hlen1 : zlen (io_bufs t1) = NBUF + 1) by (by apply len_ubuf).
  assert (Hh : b_next (bufof t1 BHEAD) = h).
  { unfold t1. rewrite bufof_ubuf by done. by zcase. }
  erewrite bind_ok by (by apply get_buf_ok). rewrite Hh.
  erewrite bind_ok by (by apply upd_buf_ok).
  rewrite upd_buf_ok by (done || by apply len_ubuf). unfold pushed_front.
  rewrite !ubuf_ubuf by (first [done|by apply len_ubuf]).
  assert (Hh' : b_next (bufof (ubuf b (set_b_dev (u32 (-1))) t) BHEAD) = h).
  { rewrite bufof_ubuf by done. by zcase. }
  by rewrite Hh'.
Qed.

(** The state of the loop of [binit] before iteration [j]. *)
Record binit_inv (s : bio) (m : base) (j : Z) (t : bio) : Prop := {
  bi_base : io_base t = m;
  bi_disk : io_disk t = io_disk s;
  bi_writes : io_writes t = io_writes s;
  bi_len : zlen (io_bufs t) = NBUF + 1;
  bi_flags : ∀ i, isbuf i → b_flags (bufof t i) = 0;
  bi_dev : ∀ i, 0 ≤ i < j → b_dev (bufof t i) = u32 (-1);
  bi_ring : ∃ L, ring BHEAD (λ i, b_prev (bufof t i)) (λ i, b_next (bufof t i)) L ∧
              ∀ i, i ∈ L ↔ 0 ≤ i < j;
}.

Lemma binit_step_ok s m j t : isbuf j → binit_inv s m j t →
  ∃ t', binit_step j t = Ok tt t' ∧ binit_inv s m (j + 1) t'.
Proof.
  intros Hj [Hb Hd Hw Hlen Hfl Hdev (L & Hr & HL)].
  assert (HL' : ∀ i, i ∈ L → isbuf i ∧ i ≠ j) by (intros i ?%HL; unfold isbuf in *; lia).
  eexists. split; [by eapply binit_step_run|]. set (t1 := ubuf j _ t).
  assert (Hji : 0 ≤ j ≤ NBUF) by (unfold isbuf in Hj; lia).
  assert (Hx1 : ∀ i, bufof t1 i = if j =? i then set_b_dev (u32 (-1)) (bufof t j) else bufof t i)
    by (intros i; by apply bufof_ubuf).
  assert (Hlen1 : zlen (io_bufs t1) = NBUF + 1) by (by apply len_ubuf).
  assert (Hr1 : ring BHEAD (λ i, b_prev (bufof t1 i)) (λ i, b_next (bufof t1 i)) L).
  { eapply ring_ext, Hr. intros i _. rewrite Hx1. by destruct (Z.eqb_spec j i) as [<-|]. }
  assert (Hsb : ∀ i, isbuf i → same_buf (bufof (pushed_front j t1) i) (bufof t1 i)).
  { intros i Hi. eapply bufof_pushed; try done. unfold isbuf in Hi. lia. }
  split; try done.
  - by do 4 apply len_ubuf.
  - intros i Hi. destruct (Hsb i Hi) as (-> & _). rewrite Hx1.
    destruct (j =? i); [by apply Hfl|by apply Hfl].
  - intros i Hi. destruct (Hsb i) as (_ & -> & _); [unfold isbuf in *; lia|]. rewrite Hx1.
    destruct (Z.eqb_spec j i); [done|]. apply Hdev. lia.
  - exists (j :: L). split; [by apply ring_pushed|]. intros i. rewrite elem_of_cons, HL.
    unfold isbuf in Hj. lia.
Qed.

Lemma binit_ok s : fresh_bio s → idle (io_base s) →
  ∃ s', binit s = Ok tt s' ∧ brep s' (ondisk s) ∅ ∅ ∧
    io_disk s' = io_disk s ∧ io_writes s' = io_writes s.
Proof.
  intros (Hlen & Hsz & Hfl) Hid. unfold binit.
  set (base1 := set_b_mach (set_held (m_held (b_mach (io_base s)) ∖ {[bcache_lock]}) (b_mach (io_base s))) (io_base s)).
  rewrite (bind_ok _ _ _ tt (set_io_base base1 s)) by reflexivity.
  assert (HB : 0 ≤ BHEAD ≤ NBUF) by (unfold BHEAD, NBUF; lia).
  erewrite bind_ok by (by apply upd_buf_ok).
  erewrite bind_ok by (apply upd_buf_ok; [by apply len_ubuf|done]).
  set (s2 := ubuf BHEAD (set_b_next BHEAD) _).
  assert (Hlen2 : zlen (io_bufs s2) = NBUF + 1) by (by do 2 apply len_ubuf).
  assert (Hx2 : ∀ i, isbuf i → bufof s2 i = bufof s i).
  { intros i Hi. unfold s2, isbuf in *. rewrite !bufof_ubuf by (first [done|by apply len_ubuf]).
    zcase; [unfold BHEAD in *; lia|done]. }
  destruct (for_all_inv (I := binit_inv s base1) binit_step (Z.to_nat NBUF) 0 s2)
    as (s' & Hrun & [Hb Hdk Hw Hl Hf Hdev (L & HL & Hin)]).
  - split; try done.
    + intros i Hi. rewrite Hx2 by done. by apply Hfl.
    + lia.
    + exists []. split; [|intros i; rewrite elem_of_nil; lia].
      assert (HB2 : b_prev (bufof s2 BHEAD) = BHEAD ∧ b_next (bufof s2 BHEAD) = BHEAD).
      { unfold s2. rewrite !bufof_ubuf, !Z.eqb_refl by (first [done|by apply len_ubuf]). done. }
      destruct HB2 as [E1 E2]. split; [simpl; by rewrite E1, E2|apply NoDup_singleton].
  - intros i t Hi Ht. apply binit_step_ok; [unfold isbuf, NBUF in *; lia|done].
  - exists s'. split; [exact Hrun|]. split; [|done].
    assert (Hnc : ∀ i n, ¬ caches s' i n).
    { intros i n (Hi & Hd & _). rewrite Hdev in Hd; [done|]. unfold isbuf, NBUF in *. lia. }
    assert (Hnf : ∀ i, isbuf i → busy (bufof s' i) = false ∧ dirty (bufof s' i) = false).
    { intros i Hi. unfold busy, dirty. by rewrite Hf, !Z.bits_0. }
    split; try done.
    + rewrite Hb. destruct Hid as [H1 H2 H3 H4]. split; simpl; [done|done|set_solver|set_solver].
    + by rewrite Hdk.
    + exists L. split; [done|]. intros i. rewrite Hin. unfold isbuf, NBUF. lia.
    + intros i j n Hi. by destruct (Hnc i n).
    + intros i Hi [?|?]; destruct (Hnf i Hi); congruence.
    + intros n. split; [set_solver|]. intros (i & Hi & _). by destruct (Hnc i n).
    + intros n. split; [set_solver|]. intros (i & Hi & _). by destruct (Hnc i n).
    + intros i n Hi. by destruct (Hnc i n).
    + intros n Hn _ _. unfold ondisk. by rewrite Hdk.
Qed.

(** ** Which buffer is recycled *)

Definition lru_list (s : bio) (L : list Z) : Prop :=
  ring BHEAD (λ i, b_prev (bufof s i)) (λ i, b_next (bufof s i)) L ∧ ∀ i, i ∈ L ↔ isbuf i.
Definition clean (s : bio) (i : Z) : bool := negb (busy (bufof s i)) && negb (dirty (bufof s i)).

Section lru.
Context {WF : WaitFuel}.

Lemma bget_miss s V B D L dev sec : brep s V B D → lru_list s L →
  (∀ i, isbuf i → b_dev (bufof s i) = dev → b_sector (bufof s i) ≠ sec) →
  match List.find (clean s) (reverse L) with
  | Some b => bget dev sec s = Ok b (after_section b (recycle dev sec) s)
  | None => ∃ s', bget dev sec s = Panic "bget: no buffers" s'
  end.
Proof.
  intros Hs [Hr HL] Hno. pose proof (br_len _ _ _ _ Hs) as Hlen. pose proof (br_idle _ _ _ _ Hs) as Hid.
  set (bl := set_b_mach (locked bcache_lock (b_mach (io_base s))) (io_base s)).
  set (s1 := set_io_base bl s).
  assert (Hacq : bacquire bcache_lock s = Ok tt s1) by (exact (bacquire_ok (S:=bio) bcache_lock s (idle_cli _ Hid))).
  destruct (scan_next_ok s V B D Hs bl (fun b => (b_dev b =? dev) && (b_sector b =? sec)))
    as (hit & Hscan & Hhit). fold s1 in Hscan.
  destruct hit as [b|]; [exfalso; destruct Hhit as [Hb He]; apply (Hno b Hb); lia|].
  assert (Hscan2 : scan_from_head b_prev (fun b =>
      (Z.land (b_flags b) B_BUSY =? 0) && (Z.land (b_flags b) B_DIRTY =? 0)) s1 =
    Ok (List.find (clean s) (reverse L)) s1).
  { destruct Hr as [Hseg Hnd]. apply NoDup_cons in Hnd as [_ Hnd]. unfold scan_from_head.
    erewrite bind_ok by (apply get_buf_ok; [done|by unfold BHEAD, NBUF]).
    rewrite (scan_walk s1 _ _ Hlen _ _ (reverse L)).
    - unfold clean. f_equal.
      induction (reverse L) as [|i l IH]; [done|]. simpl. rewrite IH, !eq0_flag.
      fold (flag B_BUSY (bufof s1 i)) (flag B_DIRTY (bufof s1 i)). by rewrite flag_busy, flag_dirty.
    - by eapply (seg_walk_prev (λ i, b_prev (bufof s i))).
    - intros i. by rewrite elem_of_reverse, HL.
    - rewrite length_reverse, (ring_length s V B D L) by done. unfold NBUF. lia. }
  unfold bget. destruct (List.find _ _) as [b|] eqn:E.
  - rewrite (bind_ok _ _ _ _ _ Hacq). cbn [bget_loop]. unfold bget_pass.
    assert (Hb : isbuf b).
    { apply List.find_some in E as [Hi _]. apply list_elem_of_In in Hi.
      by rewrite elem_of_reverse, HL in Hi. }
    assert (Hbi : 0 ≤ b ≤ NBUF) by (unfold isbuf in Hb; lia).
    rewrite (bind_ok _ _ _ (Some b) (after_section b (recycle dev sec) s)); [reflexivity|].
    rewrite (bind_ok _ _ _ _ _ Hscan), (bind_ok _ _ _ _ _ Hscan2).
    erewrite bind_ok by (by apply upd_buf_ok).
    erewrite bind_ok by (apply upd_buf_ok; [by apply len_ubuf|done]).
    erewrite bind_ok by (apply upd_buf_ok; [by do 2 apply len_ubuf|done]).
    rewrite ubuf_ubuf, ubuf_ubuf by (done || by apply len_ubuf).
    by rewrite (bind_ok _ _ _ _ _ (release_after b (recycle dev sec) s bcache_lock Hid eq_refl)).
  - exists s1. rewrite (bind_ok _ _ _ _ _ Hacq). cbn [bget_loop]. unfold bget_pass.
    apply bind_panic. rewrite (bind_ok _ _ _ _ _ Hscan), (bind_ok _ _ _ _ _ Hscan2). done.
Qed.
End lru.

(** * Theorems *)

(** Reading a sector whose buffer is not busy returns a busy buffer with the
    sector's current contents (the cached, possibly uncommitted ones, else those
    on the disk); no sector's contents change, nothing is written, and the other
    held buffers are undisturbed.  It needs a buffer that is neither busy nor
    dirty unless the sector is already cached dirty. *)
Theorem bread_spec {WF : WaitFuel} s V B D sec : brep s V B D → indisk s sec → sec ∉ B →
  (size (B ∪ D) < 10)%nat ∨ sec ∈ D →
  ∃ b s', bread 1 sec s = Ok b s' ∧ brep s' V ({[sec]} ∪ B) D ∧ holds s' b sec ∧
    b_data (bufof s' b) = V sec ∧ io_disk s' = io_disk s ∧ io_writes s' = io_writes s ∧
    ∀ b' sec', holds s b' sec' → holds s' b' sec'.
Proof.
  intros Hs Hsec HB Hroom. destruct (bread_ok s V B D sec Hs Hsec HB Hroom)
    as (b & s' & Hrun & Hs' & Hh & Hd & Hw & _ & Hk).
  exists b, s'. do 3 (split; [done|]). split; [|done]. by eapply held_in.
Qed.

(** The cache is LRU: [brelse] moves the buffer to the most-recently-used end
    of the ring, and a miss recycles the least recently used buffer that is
    neither busy nor dirty; when there is none the kernel panics. *)
Theorem lru_order {WF : WaitFuel} s V B D L : brep s V B D → lru_list s L →
  (∀ b sec, holds s b sec → sec ∈ D ∨ V sec = ondisk s sec →
     ∃ s', brelse b s = Ok tt s' ∧ brep s' V (B ∖ {[sec]}) D ∧ lru_list s' (b :: filter (.≠ b) L)) ∧
  (∀ dev sec, (∀ i, isbuf i → b_dev (bufof s i) = dev → b_sector (bufof s i) ≠ sec) →
     match List.find (clean s) (reverse L) with
     | Some b => bget dev sec s = Ok b (after_section b (recycle dev sec) s)
     | None => ∃ s', bget dev sec s = Panic "bget: no buffers" s'
     end).
Proof.
  intros Hs HL. split; [|intros dev sec Hno; by eapply bget_miss].
  intros b sec Hh Hsync. destruct (brelse_ok s V B D b sec Hs Hh Hsync) as (s' & Hrun & Hs' & _).
  exists s'. split; [done|]. split; [done|]. rewrite (brelse_run s V B D b sec Hs Hh) in Hrun.
  injection Hrun as <-. destruct HL as [Hr HL].
  destruct (held_buf s b sec Hh) as [_ Hbb].
  destruct (released_ok s b L (br_len _ _ _ _ Hs) Hbb Hr HL) as (Hr' & _). split; [exact Hr'|].
  intros i. rewrite elem_of_cons, list_elem_of_filter, HL. destruct (decide (i = b)) as [->|]; tauto.
Qed.

(** ** Witnesses *)

Definition demo_bio : bio :=
  BioSt (demo_base [zero_proc]) (replicate 11 (Buf 0 0 0 0 0 (replicate 512 0)))
    (replicate 40 (replicate 512 7)) [].
Lemma demo_idle : idle (io_base demo_bio).
Proof. split; [by split|done|set_solver|set_solver]. Qed.
Lemma demo_fresh : fresh_bio demo_bio.
Proof.
  split; [done|]. split; [by vm_compute|]. intros i Hi. unfold isbuf, NBUF in Hi.
  unfold bufof, znth, demo_bio. cbn [io_bufs]. destruct (0 <=? i); [|done].
  by rewrite lookup_replicate_2 by lia.
Qed.
Definition demo_cache : bio :=
  match binit demo_bio with Ok _ s => s | _ => demo_bio end.
Lemma demo_brep : brep demo_cache (ondisk demo_bio) ∅ ∅.
Proof.
  destruct (binit_ok demo_bio demo_fresh demo_idle) as (s & Hrun & Hs & _).
  unfold demo_cache. by rewrite Hrun.
Qed.
#[local] Instance demo_fuel : WaitFuel := 0%nat.
Lemma bread_spec_witness : ∃ b s', bread 1 5 demo_cache = Ok b s' ∧ holds s' b 5.
Proof.
  destruct (bread_spec demo_cache (ondisk demo_bio) ∅ ∅ 5 demo_brep)
    as (b & s' & Hrun & _ & Hh & _).
  - vm_compute. split; [discriminate|reflexivity].
  - set_solver.
  - left. vm_compute. lia.
  - exists b, s'. exact (conj Hrun Hh).
Defined.
Lemma demo_order : lru_list demo_cache [9; 8; 7; 6; 5; 4; 3; 2; 1; 0].
Proof.
  split.
  - split; [vm_compute; repeat split|apply (bool_decide_unpack _); vm_compute; exact I].
  - intros i. unfold isbuf, NBUF. rewrite !elem_of_cons, elem_of_nil. lia.
Qed.
Lemma lru_order_witness : ∃ s', bget 1 5 demo_cache = Ok 0 s'.
Proof.
  destruct (lru_order demo_cache (ondisk demo_bio) ∅ ∅ _ demo_brep demo_order) as [_ Hmiss].
  exists (after_section 0 (recycle 1 5) demo_cache). apply (Hmiss 1 5).
  intros i Hi Hd. exfalso. unfold isbuf, NBUF in Hi.
  assert (i = 0 ∨ i = 1 ∨ i = 2 ∨ i = 3 ∨ i = 4 ∨ i = 5 ∨ i = 6 ∨ i = 7 ∨ i = 8 ∨ i = 9) by lia.
  destruct_or!; subst i; vm_compute in Hd; discriminate Hd.
Defined.
