(* ===== verification/Log.v ===== *)
(** The log: [log.c], with [readsb] of [fs.c].

    The log is the last [nlog] sectors of the disk: a header sector with a count
    and that many home sector numbers, then one sector of contents for each. *)

From S2P Require Import Prelude Spin Sched Dll Bio.

(** * Data *)

Definition LOGSIZE : Z := 10.
Definition BSIZE : Z := 512.
Definition ROOTDEV : Z := 1.

Record superblock := Superblock { sb_size : Z; sb_nblocks : Z; sb_ninodes : Z; sb_nlog : Z }.

(** [struct log], with its [struct logheader] inline. *)
Record logst := LogSt {
  lg_bio : bio;
  lg_start : Z;
  lg_size : Z;
  lg_busy : Z;               (* a transaction is active *)
  lg_dev : Z;
  lg_n : Z;                  (* lh.n *)
  lg_sector : list Z;        (* lh.sector[LOGSIZE] *)
}.
Definition set_lg_bio v r := LogSt v (lg_start r) (lg_size r) (lg_busy r)
  (lg_dev r) (lg_n r) (lg_sector r).
Definition set_lg_start v r := LogSt (lg_bio r) v (lg_size r) (lg_busy r)
  (lg_dev r) (lg_n r) (lg_sector r).
Definition set_lg_size v r := LogSt (lg_bio r) (lg_start r) v (lg_busy r)
  (lg_dev r) (lg_n r) (lg_sector r).
Definition set_lg_busy v r := LogSt (lg_bio r) (lg_start r) (lg_size r) v
  (lg_dev r) (lg_n r) (lg_sector r).
Definition set_lg_dev v r := LogSt (lg_bio r) (lg_start r) (lg_size r)
  (lg_busy r) v (lg_n r) (lg_sector r).
Definition set_lg_n v r := LogSt (lg_bio r) (lg_start r) (lg_size r) (lg_busy
  r) (lg_dev r) v (lg_sector r).
Definition set_lg_sector v r := LogSt (lg_bio r) (lg_start r) (lg_size r)
  (lg_busy r) (lg_dev r) (lg_n r) v.

#[export] Program Instance lens_log_bio : Lens logst bio :=
  {| lget := lg_bio; lset := set_lg_bio |}.
Solve All Obligations with (by intros; repeat match goal with b : logst |- _ => destruct b end).
#[export] Program Instance lens_log_base : Lens logst base :=
  {| lget := λ s, io_base (lg_bio s); lset := λ b s, set_lg_bio (set_io_base b (lg_bio s)) s |}.
Solve All Obligations with
  (by intros; repeat match goal with b : logst |- _ => destruct b | b : bio |- _ => destruct b end).

Definition log_lock : objaddr := ("log", 0).
Definition log_chan : objaddr := ("log", 0).

(** * Operations *)

Section ops.
Context {WF : WaitFuel}.

(** [readsb]: the four words at the start of sector 1. *)
Definition readsb (dev : Z) : M bio superblock :=
  let* bp := bread dev 1 in
  let* b := get_buf bp in
  let sb := Superblock (get32 0 (b_data b)) (get32 4 (b_data b))
                       (get32 8 (b_data b)) (get32 12 (b_data b)) in
  brelse bp ;;
  ret sb.

Definition get_sector (i : Z) : M logst Z :=
  let* l := gets lg_sector in must "log.lh.sector" (znth l i).
Definition set_sector (i v : Z) : M logst unit :=
  let* _ := get_sector i in
  modify (fun s => set_lg_sector (zupd i (s32 v) (lg_sector s)) s).

(** One iteration of [install_trans]: copy log block [tail] to its home. *)
Definition install_one (tail : Z) : M logst unit :=
  let* dev := gets lg_dev in
  let* start := gets lg_start in
  let* lbuf := zoom (bread dev (u32 (start + tail + 1))) in
  let* sec := get_sector tail in
  let* dbuf := zoom (bread dev (u32 sec)) in
  let* l := zoom (get_buf lbuf) in
  zoom (upd_buf dbuf (set_b_data (b_data l))) ;;
  zoom (bwrite dbuf) ;;
  zoom (brelse lbuf) ;;
  zoom (brelse dbuf).
Definition install_trans : M logst unit :=
  let* n := gets lg_n in for_all (Z.to_nat n) 0 install_one.

Definition read_head : M logst unit :=
  let* dev := gets lg_dev in
  let* start := gets lg_start in
  let* buf := zoom (bread dev (u32 start)) in
  let* b := zoom (get_buf buf) in
  let lh := b_data b in
  modify (set_lg_n (s32 (get32 0 lh))) ;;
  let* n := gets lg_n in
  for_all (Z.to_nat n) 0 (fun i =>
    if 512 <? 4 * i + 8 then undef "lh->sector[i]" else
    set_sector i (get32 (Z.to_nat (4 * i + 4)) lh)) ;;
  zoom (brelse buf).

(** The header block [lh] with the count and the sector numbers [l] stored. *)
Fixpoint put_sectors (i : nat) (l : list Z) (lh : list Z) : list Z :=
  match l with
  | [] => lh
  | v :: l => put_sectors (S i) l (put32 (4 * i + 4) v lh)
  end.
Definition write_head : M logst unit :=
  let* dev := gets lg_dev in
  let* start := gets lg_start in
  let* buf := zoom (bread dev (u32 start)) in
  let* n := gets lg_n in
  let* l := gets lg_sector in
  zoom (upd_buf buf (fun b => set_b_data (put32 0 n (b_data b)) b)) ;;
  (if zlen l <? n then undef "log.lh.sector" else
   zoom (upd_buf buf (fun b => set_b_data (put_sectors 0 (take (Z.to_nat n) l) (b_data b)) b))) ;;
  zoom (bwrite buf) ;;
  zoom (brelse buf).

Definition recover_from_log : M logst unit :=
  read_head ;;
  install_trans ;;
  modify (set_lg_n 0) ;;
  write_head.

(** [sizeof(struct logheader) >= BSIZE] is 44 >= 512. *)
Definition initlog : M logst unit :=
  panic_if (BSIZE <=? 4 + 4 * LOGSIZE) "initlog: too big logheader" ;;
  binitlock log_lock ;;
  let* sb := zoom (readsb ROOTDEV) in
  modify (set_lg_start (s32 (sb_size sb - sb_nlog sb))) ;;
  modify (set_lg_size (s32 (sb_nlog sb))) ;;
  modify (set_lg_dev ROOTDEV) ;;
  recover_from_log.

Fixpoint begin_wait (fuel : nat) : M logst unit :=
  match fuel with
  | O => out_of_fuel
  | S fuel =>
      let* busy := gets lg_busy in
      if ztrue busy then zoom (sleep log_chan (Some log_lock)) ;; begin_wait fuel
      else ret tt
  end.
Definition begin_trans : M logst unit :=
  bacquire log_lock ;;
  begin_wait (S wait_fuel) ;;
  modify (set_lg_busy 1) ;;
  brelease log_lock.

Definition commit_trans : M logst unit :=
  let* n := gets lg_n in
  when (0 <? n) (
    write_head ;;
    install_trans ;;
    modify (set_lg_n 0) ;;
    write_head) ;;
  bacquire log_lock ;;
  modify (set_lg_busy 0) ;;
  zoom (wakeup log_chan) ;;
  brelease log_lock.

Definition log_write (b : Z) : M logst unit :=
  let* n := gets lg_n in
  let* size := gets lg_size in
  panic_if ((LOGSIZE <=? n) || (s32 (size - 1) <=? n)) "too big a transaction" ;;
  let* busy := gets lg_busy in
  panic_if (negb (ztrue busy)) "write outside of trans" ;;
  let* r := zoom (get_buf b) in
  let* hit := for_to 0 n (fun i =>
    let* v := get_sector i in
    ret (if u32 v =? b_sector r then Some i else None)) in
  let i := default n hit in
  set_sector i (b_sector r) ;;
  let* start := gets lg_start in
  let* lbuf := zoom (bread (b_dev r) (u32 (start + i + 1))) in
  let* r := zoom (get_buf b) in
  zoom (upd_buf lbuf (set_b_data (b_data r))) ;;
  zoom (bwrite lbuf) ;;
  zoom (brelse lbuf) ;;
  let* n := gets lg_n in
  when (i =? n) (modify (set_lg_n (s32 (n + 1)))) ;;
  zoom (upd_buf b (fun b => set_b_flags (Z.lor (b_flags b) B_DIRTY) b)).
End ops.

(** The typical use the comment above [log_write] shows, for one block, and a
    system call's transaction around a sequence of them. *)
Section client.
Context {WF : WaitFuel}.
Definition update (u : Z * list Z) : M logst unit :=
  let* bp := zoom (bread ROOTDEV u.1) in
  zoom (upd_buf bp (set_b_data u.2)) ;;
  log_write bp ;;
  zoom (brelse bp).
Fixpoint updates (ups : list (Z * list Z)) : M logst unit :=
  match ups with [] => ret tt | u :: ups => update u ;; updates ups end.
Definition transaction (ups : list (Z * list Z)) : M logst unit :=
  begin_trans ;; updates ups ;; commit_trans.
End client.

(** Power-on: memory is blank, the disk is [d]; the cache and the log are
    initialised, which recovers from the log. *)
Definition power_on (b : base) (d : list (list Z)) : logst :=
  LogSt (BioSt b (replicate 11 (Buf 0 0 0 0 0 [])) d []) 0 0 0 0 0 (replicate 10 0).
Definition boot {WF : WaitFuel} : M logst unit := zoom binit ;; initlog.

(** * Correctness

    ** Disks and writes *)

Definition blk (d : list (list Z)) (n : Z) : list Z := default [] (znth d n).
Definition apply_writes (d : list (list Z)) (W : list (Z * list Z)) : list (list Z) :=
  fold_left (λ d w, zupd w.1 w.2 d) W d.
Definition vapply (V : Z → list Z) (W : list (Z * list Z)) : Z → list Z :=
  fold_left (λ V w, vupd V w.1 w.2) W V.

Lemma apply_app d W1 W2 : apply_writes d (W1 ++ W2) = apply_writes (apply_writes d W1) W2.
Proof. apply fold_left_app. Qed.
Lemma vapply_app V W1 W2 : vapply V (W1 ++ W2) = vapply (vapply V W1) W2.
Proof. apply fold_left_app. Qed.
Lemma zlen_apply d W : zlen (apply_writes d W) = zlen d.
Proof. revert d. induction W as [|w W IH]; intros d; [done|]. simpl. by rewrite IH, zlen_zupd. Qed.
Lemma blk_zupd d n x m : 0 ≤ n < zlen d → blk (zupd n x d) m = if m =? n then x else blk d m.
Proof.
  intros Hn. unfold blk. destruct (Z.eqb_spec m n) as [->|].
  - by rewrite znth_zupd.
  - by rewrite znth_zupd_ne.
Qed.
Definition writes_in (d : list (list Z)) (W : list (Z * list Z)) : Prop :=
  Forall (λ w, 0 ≤ w.1 < zlen d) W.
(** The contents after a sequence of writes, sector by sector. *)
Lemma blk_apply W : ∀ d V n, writes_in d W → blk d n = V n →
  blk (apply_writes d W) n = vapply V W n.
Proof.
  induction W as [|[m x] W IH]; intros d V n Hin HV; [done|].
  apply Forall_cons in Hin as [Hm Hin]. simpl in *. apply IH.
  - by rewrite <- (zlen_zupd d m x) in Hin.
  - rewrite blk_zupd by done. unfold vupd. by destruct (n =? m).
Qed.
(** A sector that is not written keeps its contents. *)
Lemma vapply_other W : ∀ V n, n ∉ W.*1 → vapply V W n = V n.
Proof.
  induction W as [|[m x] W IH]; intros V n Hn; [done|]. simpl in *.
  rewrite not_elem_of_cons in Hn. rewrite IH by tauto. unfold vupd. destruct (Z.eqb_spec n m); tauto.
Qed.
Lemma vapply_at W : ∀ V i n x, NoDup W.*1 → W !! i = Some (n, x) → vapply V W n = x.
Proof.
  induction W as [|[m y] W IH]; intros V i n x Hnd Hi; [done|].
  simpl in *. apply NoDup_cons in Hnd as [Hm Hnd]. destruct i as [|i]; simpl in Hi.
  - simplify_eq. rewrite vapply_other by done. unfold vupd. by rewrite Z.eqb_refl.
  - by eapply IH.
Qed.

Lemma take_elem (x : Z) j l : x ∈ take j l → x ∈ l.
Proof. intros Hin. apply elem_of_take in Hin as (k & Hk & _). by eapply list_elem_of_lookup_2. Qed.

(** ** The header sector *)

Definition hdr_holds (h : list Z) (secs : list Z) : Prop :=
  length h = 512%nat ∧ get32 0 h = zlen secs ∧ (length secs ≤ 10)%nat ∧
  ∀ i v, secs !! i = Some v → get32 (4 * i + 4) h = v.

Lemma length_put_sectors l : ∀ i h, (4 * (i + length l) + 4 ≤ length h)%nat →
  length (put_sectors i l h) = length h.
Proof.
  induction l as [|v l IH]; intros i h Hh; cbn [put_sectors length] in *; [done|].
  rewrite IH; rewrite length_put32 by lia; lia.
Qed.
Lemma get_put_sectors_other l : ∀ i h o, (4 * (i + length l) + 4 ≤ length h)%nat →
  (o + 4 ≤ 4 * i + 4)%nat → get32 o (put_sectors i l h) = get32 o h.
Proof.
  induction l as [|v l IH]; intros i h o Hh Ho; cbn [put_sectors length] in *; [done|].
  rewrite IH; [|rewrite length_put32 by lia; lia|lia].
  apply get32_put32_other; lia.
Qed.
Lemma get_put_sectors l : ∀ i h k v, (4 * (i + length l) + 4 ≤ length h)%nat →
  l !! k = Some v → get32 (4 * (i + k) + 4) (put_sectors i l h) = u32 v.
Proof.
  induction l as [|w l IH]; intros i h k v Hh Hk; [done|].
  cbn [put_sectors length] in *. destruct k as [|k]; simpl in Hk.
  - simplify_eq. rewrite Nat.add_0_r, get_put_sectors_other; [|rewrite length_put32 by lia; lia|lia].
    apply get32_put32. lia.
  - replace (i + S k)%nat with (S i + k)%nat by lia. apply IH; [|done].
    rewrite length_put32 by lia. lia.
Qed.

Definition head_block (secs : list Z) (h : list Z) : list Z :=
  put_sectors 0 secs (put32 0 (zlen secs) h).

Lemma head_block_holds secs h : length h = 512%nat → (length secs ≤ 10)%nat →
  (∀ v, v ∈ secs → 0 ≤ v < 2 ^ 32) → hdr_holds (head_block secs h) secs.
Proof.
  intros Hh Hl Hr. unfold head_block.
  assert (Hh' : length (put32 0 (zlen secs) h) = 512%nat) by (rewrite length_put32; lia).
  split; [rewrite length_put_sectors; lia|]. split; [|split; [done|]].
  - rewrite get_put_sectors_other by lia. rewrite get32_put32 by lia. apply u32_small. unfold zlen. lia.
  - intros i v Hi. change i with (0 + i)%nat. rewrite (get_put_sectors secs 0 _ i v) by (done || lia).
    apply u32_small. apply Hr. by eapply list_elem_of_lookup_2.
Qed.

(** ** The operations on a quiet cache

    [quiet t V D]: no buffer is held, [D] is dirty, every sector has 512
    bytes. *)

Record quiet (t : bio) (V : Z → list Z) (D : gset Z) : Prop := {
  q_rep : brep t V ∅ D;
  q_blk : ∀ n, indisk t n → length (V n) = 512%nat;
}.

(** What the log's geometry promises. *)
Record lgeo (s : logst) : Prop := {
  lg_dev1 : lg_dev s = 1;
  lg_pos : 0 < lg_start s;
  lg_room : 1 ≤ lg_size s;
  lg_fit : lg_start s + lg_size s ≤ zlen (io_disk (lg_bio s));
  lg_secs : zlen (lg_sector s) = 10;
}.

(** The log's own fields are untouched. *)
Definition same_log (s s' : logst) : Prop :=
  lg_start s' = lg_start s ∧ lg_size s' = lg_size s ∧ lg_busy s' = lg_busy s ∧
  lg_dev s' = lg_dev s ∧ lg_n s' = lg_n s ∧ lg_sector s' = lg_sector s ∧
  same_env (lg_bio s) (lg_bio s').
Lemma same_log_trans s1 s2 s3 : same_log s1 s2 → same_log s2 s3 → same_log s1 s3.
Proof.
  intros (?&?&?&?&?&?&E) (?&?&?&?&?&?&E'). unfold same_log. repeat split; try congruence;
    eapply same_env_trans in E'; try exact E; apply E'.
Qed.
Lemma lgeo_same s s' : same_log s s' → lgeo s → lgeo s'.
Proof.
  intros (E1 & E2 & E3 & E4 & E5 & E6 & (E7 & _)) [H1 H2 H3 H4 H5].
  split; congruence || (rewrite ?E1, ?E2, ?E7; done).
Qed.

Lemma brep_ext t V V' B D : (∀ n, V n = V' n) → brep t V B D → brep t V' B D.
Proof.
  intros He [? ? ? ? ? ? ? ? Hv Hc]. split; try done.
  - intros i n Hi Hval. rewrite <- He. by apply Hv.
  - intros n Hn HB HD. rewrite <- He. by apply Hc.
Qed.
Lemma ondisk_blk t n : ondisk t n = blk (io_disk t) n.
Proof. done. Qed.

Ltac zstep H := erewrite bind_ok by (apply zoom_ok; exact H).

Section ops_spec.
Context {WF : WaitFuel}.

(** Read a sector, replace its contents and write it through to the disk. *)
Lemma write_through t V D sec (f : list Z → list Z) : quiet t V D → indisk t sec → sec ∉ D →
  (size D < 10)%nat → length (f (V sec)) = 512%nat →
  ∃ b t1 t2 t3 t4, bread 1 sec t = Ok b t1 ∧ b_data (bufof t1 b) = V sec ∧ holds t1 b sec ∧
    brep t1 V ({[sec]} ∪ ∅) D ∧
    upd_buf b (set_b_data (f (V sec))) t1 = Ok tt t2 ∧ bwrite b t2 = Ok tt t3 ∧
    brelse b t3 = Ok tt t4 ∧ quiet t4 (vupd V sec (f (V sec))) D ∧
    io_disk t4 = zupd sec (f (V sec)) (io_disk t) ∧
    io_writes t4 = io_writes t ++ [(sec, f (V sec))] ∧ same_env t t4.
Proof.
  intros [Hq Hb] Hsec HD Hsz Hlen.
  destruct (bread_ok t V ∅ D sec Hq Hsec) as (b & t1 & R1 & Q1 & H1 & D1 & W1 & E1 & _).
  { set_solver. } { left. by rewrite union_empty_l_L. }
  destruct (set_data_ok t1 V _ D b sec Q1 H1 (f (V sec))) as (t2 & R2 & Q2 & H2 & D2 & W2 & E2 & _).
  destruct (bwrite_ok t2 _ _ D b sec Q2 H2) as (t3 & R3 & Q3 & H3 & D3 & W3 & E3 & _).
  assert (HV : vupd V sec (f (V sec)) sec = f (V sec)) by (unfold vupd; by rewrite Z.eqb_refl).
  rewrite HV in *. assert (Hin : 0 ≤ sec < zlen (io_disk t)) by exact Hsec.
  destruct (brelse_ok t3 _ _ _ b sec Q3 H3) as (t4 & R4 & Q4 & D4 & W4 & E4 & _).
  { right. rewrite HV. unfold ondisk. rewrite D3, D2, D1, znth_zupd by done. done. }
  replace (D ∖ {[sec]}) with D in Q4 by set_solver.
  replace (({[sec]} ∪ ∅) ∖ {[sec]} : gset Z) with (∅ : gset Z) in Q4 by set_solver.
  assert (E : same_env t t4) by (eapply same_env_trans; [exact E1|]; eapply same_env_trans; [exact E2|];
    by eapply same_env_trans).
  exists b, t1, t2, t3, t4. split; [done|]. split; [by eapply held_in|]. do 5 (split; [done|]).
  split; [|split; [congruence|split; [congruence|done]]].
  split; [done|]. intros n Hn. unfold vupd. destruct (Z.eqb_spec n sec); [done|].
  apply Hb. destruct E as [E _]. unfold indisk in *. by rewrite E in Hn.
Qed.

(** [bp->data] edited in place, once or twice. *)
Lemma edit_eq t b g : zlen (io_bufs t) = NBUF + 1 → isbuf b →
  upd_buf b (fun x => set_b_data (g (b_data x)) x) t =
  upd_buf b (set_b_data (g (b_data (bufof t b)))) t.
Proof. intros Hl Hb. unfold isbuf in Hb. by rewrite !upd_buf_ok by (done || lia). Qed.
Lemma edit2_eq t b g h : zlen (io_bufs t) = NBUF + 1 → isbuf b →
  (upd_buf b (fun x => set_b_data (g (b_data x)) x) ;;
   upd_buf b (fun x => set_b_data (h (b_data x)) x)) t =
  upd_buf b (set_b_data (h (g (b_data (bufof t b))))) t.
Proof.
  intros Hl Hb. assert (Hbi : 0 ≤ b ≤ NBUF) by (unfold isbuf in Hb; lia).
  erewrite bind_ok by (by apply upd_buf_ok). rewrite !upd_buf_ok by (done || by apply len_ubuf).
  by rewrite ubuf_ubuf.
Qed.

Definition logged (s : logst) (secs : list Z) : Prop :=
  lg_n s = zlen secs ∧ (length secs ≤ 10)%nat ∧ take (length secs) (lg_sector s) = secs.

Lemma start_u32 s V D : quiet (lg_bio s) V D → lgeo s → ∀ i, 0 ≤ i < lg_size s →
  u32 (lg_start s + i) = lg_start s + i ∧ indisk (lg_bio s) (lg_start s + i).
Proof.
  intros [Hq _] Hg i Hi. pose proof (br_size _ _ _ _ Hq). pose proof (lg_fit _ Hg).
  pose proof (lg_pos _ Hg). unfold indisk. split; [apply u32_small|]; lia.
Qed.

Lemma write_head_ok s V D secs : quiet (lg_bio s) V D → lgeo s → logged s secs →
  lg_start s ∉ D → (size D < 10)%nat → (∀ v, v ∈ secs → 0 ≤ v < 2 ^ 32) →
  ∃ s', write_head s = Ok tt s' ∧ same_log s s' ∧
    quiet (lg_bio s') (vupd V (lg_start s) (head_block secs (V (lg_start s)))) D ∧
    io_disk (lg_bio s') = zupd (lg_start s) (head_block secs (V (lg_start s))) (io_disk (lg_bio s)) ∧
    io_writes (lg_bio s') =
      io_writes (lg_bio s) ++ [(lg_start s, head_block secs (V (lg_start s)))].
Proof.
  intros Hq Hg (Hn & Hl & Htk) HD Hsz Hr. pose proof (lg_room _ Hg).
  destruct (start_u32 s V D Hq Hg 0 ltac:(lia)) as [Hu Hin]. rewrite Z.add_0_r in *.
  assert (Hb : length (V (lg_start s)) = 512%nat) by (by apply (q_blk _ _ _ Hq)).
  destruct (head_block_holds secs _ Hb Hl Hr) as (Hlen & _).
  destruct (write_through (lg_bio s) V D (lg_start s) (head_block secs) Hq Hin HD Hsz Hlen)
    as (b & t1 & t2 & t3 & t4 & R1 & Hd & Hh & Q1 & R2 & R3 & R4 & Q4 & D4 & W4 & E4).
  exists (set_lg_bio t4 s). split; [|done].
  unfold write_head. erewrite !bind_ok by reflexivity. rewrite (lg_dev1 _ Hg), Hu.
  zstep R1. erewrite !bind_ok by reflexivity.
  cbn [lset lens_log_bio lg_n lg_sector set_lg_bio]. rewrite Hn, (lg_secs _ Hg).
  replace (10 <? zlen secs) with false by (unfold zlen; lia).
  replace (Z.to_nat (zlen secs)) with (length secs) by (unfold zlen; lia). rewrite Htk.
  pose proof (edit2_eq t1 b (put32 0 (zlen secs)) (put_sectors 0 secs) (br_len _ _ _ _ Q1)
    ltac:(apply Hh)) as R2'.
  rewrite Hd in R2'. fold (head_block secs (V (lg_start s))) in R2'. rewrite R2 in R2'.
  apply bind_Ok_inv in R2' as ([] & t1' & R2a & R2b).
  zstep R2a. zstep R2b. zstep R3. by erewrite zoom_ok by exact R4.
Qed.

Lemma get_sector_ok s i v : znth (lg_sector s) i = Some v → get_sector i s = Ok v s.
Proof. intros Hv. unfold get_sector. run. by rewrite Hv. Qed.

Lemma install_one_ok s V D i v (lsec := lg_start s + i + 1) :
  quiet (lg_bio s) V D → lgeo s → znth (lg_sector s) i = Some v →
  0 ≤ v < lg_start s → 0 ≤ i → i + 1 < lg_size s → lsec ∉ D → (size D < 10)%nat → v ∈ D ∨ D = ∅ →
  ∃ s', install_one i s = Ok tt s' ∧ same_log s s' ∧
    quiet (lg_bio s') (vupd V v (V lsec)) (D ∖ {[v]}) ∧
    io_disk (lg_bio s') = zupd v (V lsec) (io_disk (lg_bio s)) ∧
    io_writes (lg_bio s') = io_writes (lg_bio s) ++ [(v, V lsec)].
Proof.
  intros Hq Hg Hv Hvr Hi Hsz HlD HsD HvD. set (t := lg_bio s) in *.
  pose proof (br_size _ _ _ _ (q_rep _ _ _ Hq)) as Hmax. pose proof (lg_fit _ Hg) as Hfit. fold t in Hmax, Hfit.
  assert (Hl : u32 lsec = lsec ∧ indisk t lsec).
  { unfold lsec, indisk. rewrite u32_small; lia. } destruct Hl as [Hlu Hlin].
  assert (Hvu : u32 v = v ∧ indisk t v).
  { unfold indisk. rewrite u32_small; lia. } destruct Hvu as [Hvu Hvin].
  assert (Hne : lsec ≠ v) by (unfold lsec; lia).
  destruct (bread_ok t V ∅ D lsec (q_rep _ _ _ Hq) Hlin) as (lb & t1 & R1 & Q1 & H1 & D1 & W1 & E1 & _).
  { set_solver. } { left. by rewrite union_empty_l_L. }
  assert (Hin1 : indisk t1 v) by (unfold indisk; by rewrite D1).
  destruct (bread_ok t1 V _ D v Q1 Hin1) as (db & t2 & R2 & Q2 & H2 & D2 & W2 & E2 & K2).
  { set_solver. }
  { destruct HvD as [?|HD0]; [by right|left]. rewrite HD0, !union_empty_r_L, size_singleton. lia. }
  pose proof (K2 _ _ H1) as H1'.
  destruct (held_in t2 V _ D lb lsec Q2 H1') as (_ & _ & Hld & _).
  assert (Hdl : lb ≠ db) by (intros ->; destruct H1' as [(_ & _ & ?) _], H2 as [(_ & _ & ?) _]; lia).
  destruct (set_data_ok t2 V _ D db v Q2 H2 (V lsec)) as (t3 & R3 & Q3 & H3 & D3 & W3 & E3 & K3).
  destruct (bwrite_ok t3 _ _ D db v Q3 H3) as (t4 & R4 & Q4 & H4 & D4 & W4 & E4 & K4).
  pose proof (K4 _ _ Hdl (K3 _ _ Hdl H1')) as H1''.
  assert (HVv : vupd V v (V lsec) v = V lsec) by (unfold vupd; by rewrite Z.eqb_refl).
  assert (HVl : vupd V v (V lsec) lsec = V lsec) by (unfold vupd; by rewrite (proj2 (Z.eqb_neq lsec v))).
  rewrite HVv in *.
  assert (Hclean : V lsec = ondisk t lsec) by (apply (br_clean _ _ _ _ (q_rep _ _ _ Hq)); [done|set_solver|done]).
  assert (Hd4 : io_disk t4 = zupd v (V lsec) (io_disk t)) by congruence.
  destruct (brelse_ok t4 _ _ _ lb lsec Q4 H1'') as (t5 & R5 & Q5 & D5 & W5 & E5 & K5).
  { right. rewrite HVl. unfold ondisk. by rewrite Hd4, znth_zupd_ne. }
  destruct (brelse_ok t5 _ _ _ db v Q5 (K5 _ _ (not_eq_sym Hdl) H4)) as (t6 & R6 & Q6 & D6 & W6 & E6 & _).
  { right. rewrite HVv. unfold ondisk. by rewrite D5, Hd4, znth_zupd. }
  exists (set_lg_bio t6 s).
  assert (E : same_env t t6) by (repeat (eapply same_env_trans; [eassumption|]); done).
  split; [|split; [done|split; [|split; [simpl; congruence|simpl; congruence]]]].
  - unfold install_one. erewrite !bind_ok by reflexivity. fold lsec. rewrite (lg_dev1 _ Hg), Hlu.
    zstep R1. erewrite bind_ok by (apply get_sector_ok; exact Hv). rewrite Hvu.
    zstep R2. erewrite bind_ok by (apply zoom_ok, get_buf_ok; [apply Q2|by eapply held_buf]).
    cbn [lget lens_log_bio lg_bio lset set_lg_bio]. rewrite Hld.
    zstep R3. zstep R4. zstep R5. by erewrite zoom_ok by exact R6.
  - cbn [lg_bio set_lg_bio]. split.
    + replace ((({[v]} ∪ ({[lsec]} ∪ ∅)) ∖ {[lsec]}) ∖ {[v]} : gset Z) with (∅ : gset Z) in Q6 by set_solver.
      done.
    + intros n Hn. unfold vupd. destruct E as [E _]. unfold indisk in Hn. rewrite E in Hn.
      destruct (Z.eqb_spec n v); by apply (q_blk _ _ _ Hq).
Qed.

Definition installs (start : Z) (V : Z → list Z) (secs : list Z) : list (Z * list Z) :=
  imap (λ i v, (v, V (start + Z.of_nat i + 1))) secs.
Lemma installs_lookup start V secs i v : secs !! i = Some v →
  installs start V secs !! i = Some (v, V (start + Z.of_nat i + 1)).
Proof. intros Hi. unfold installs. by rewrite list_lookup_imap, Hi. Qed.
Lemma installs_fst start V secs : (installs start V secs).*1 = secs.
Proof.
  apply list_eq. intros i. unfold installs. rewrite list_lookup_fmap, list_lookup_imap.
  by destruct (secs !! i).
Qed.
Lemma take_installs_fst start V secs t : (take t (installs start V secs)).*1 = take t secs.
Proof. by rewrite fmap_take, installs_fst. Qed.

(** The logged sectors are data sectors, without repetition, and their contents
    fit in the log. *)
Record secs_ok (s : logst) (secs : list Z) : Prop := {
  so_data : ∀ v, v ∈ secs → 0 ≤ v < lg_start s;
  so_nodup : NoDup secs;
  so_fit : zlen secs < lg_size s;
}.

Lemma not_logged s secs n : secs_ok s secs → lg_start s ≤ n → n ∉ (list_to_set secs : gset Z).
Proof. intros Hok Hn Hin. apply elem_of_list_to_set in Hin. pose proof (so_data _ _ Hok _ Hin). lia. Qed.

Lemma dirty_rest (secs : list Z) (D : gset Z) t v : NoDup secs → secs !! t = Some v →
  D = list_to_set secs ∨ D = ∅ →
  v ∈ D ∖ list_to_set (take t secs) ∨ D ∖ list_to_set (take t secs) = ∅.
Proof.
  intros Hnd Hv [->| ->]; [left|right; set_solver].
  apply elem_of_difference. rewrite !elem_of_list_to_set.
  split; [by eapply list_elem_of_lookup_2|]. intros Hin.
  rewrite <- (take_drop_middle _ _ _ Hv) in Hnd. apply NoDup_app in Hnd as (_ & Hd & _).
  apply (Hd v Hin). by left.
Qed.

Lemma install_trans_ok s V D secs : quiet (lg_bio s) V D → lgeo s → logged s secs →
  secs_ok s secs → (size D < 10)%nat → D = list_to_set secs ∨ D = ∅ →
  ∃ s', install_trans s = Ok tt s' ∧ same_log s s' ∧
    quiet (lg_bio s') (vapply V (installs (lg_start s) V secs)) ∅ ∧
    io_disk (lg_bio s') = apply_writes (io_disk (lg_bio s)) (installs (lg_start s) V secs) ∧
    io_writes (lg_bio s') = io_writes (lg_bio s) ++ installs (lg_start s) V secs.
Proof.
  intros Hq Hg (Hn & Hl & Htk) Hok HsD HD. set (W := installs (lg_start s) V secs).
  destruct (for_all_inv (I := λ j s', same_log s s' ∧
      quiet (lg_bio s') (vapply V (take (Z.to_nat j) W)) (D ∖ list_to_set (take (Z.to_nat j) secs)) ∧
      io_disk (lg_bio s') = apply_writes (io_disk (lg_bio s)) (take (Z.to_nat j) W) ∧
      io_writes (lg_bio s') = io_writes (lg_bio s) ++ take (Z.to_nat j) W)
    install_one (Z.to_nat (lg_n s)) 0 s) as (s' & Hrun & HI).
  - split; [done|]. change (Z.to_nat 0) with 0%nat. rewrite !take_0, app_nil_r.
    replace (D ∖ list_to_set []) with D by set_solver. done.
  - intros j s1 Hj (Hs1 & Hq1 & Hd1 & Hw1). rewrite Hn in Hj. unfold zlen in Hj.
    destruct (lookup_lt_is_Some_2 secs (Z.to_nat j)) as [v Hv]; [lia|].
    pose proof Hs1 as (Es & Ez & _ & _ & _ & El & _). pose proof (lgeo_same _ _ Hs1 Hg) as Hg1.
    pose proof (so_data _ _ Hok v (list_elem_of_lookup_2 _ _ _ Hv)) as Hvd.
    pose proof (so_fit _ _ Hok) as Hfit. unfold zlen in Hfit.
    assert (Hsv : znth (lg_sector s1) j = Some v).
    { rewrite El. unfold znth. zcase. rewrite <- Htk, lookup_take_lt in Hv by lia. done. }
    set (lsec := lg_start s1 + j + 1).
    assert (HVl : vapply V (take (Z.to_nat j) W) lsec = V (lg_start s + j + 1)).
    { rewrite vapply_other; [unfold lsec; by rewrite Es|]. unfold W. rewrite take_installs_fst.
      intros Hin. apply elem_of_take in Hin as (k & Hk & _). apply list_elem_of_lookup_2 in Hk.
      pose proof (so_data _ _ Hok lsec Hk). unfold lsec in *. lia. }
    destruct (install_one_ok s1 _ _ j v Hq1 Hg1 Hsv) as (s2 & Hrun & Hs2 & Hq2 & Hd2 & Hw2); [lia..| | | |].
    + intros [Hin _]%elem_of_difference. destruct HD as [->| ->]; [|set_solver].
      apply (not_logged s secs lsec Hok); [unfold lsec; lia|done].
    + eapply Nat.le_lt_trans; [apply subseteq_size|exact HsD]. set_solver.
    + apply dirty_rest; [apply Hok|done|done].
    + exists s2. split; [done|]. split; [by eapply same_log_trans|].
      fold lsec in Hq2, Hd2, Hw2. rewrite HVl in *.
      replace (Z.to_nat (j + 1)) with (S (Z.to_nat j)) by lia.
      assert (HW : W !! Z.to_nat j = Some (v, V (lg_start s + j + 1))).
      { unfold W. rewrite (installs_lookup _ _ _ _ v Hv), Z2Nat.id by lia. done. }
      rewrite (take_S_r W _ _ HW), (take_S_r secs _ _ Hv), vapply_app, apply_app.
      split; [|split; [simpl; congruence|rewrite Hw2, Hw1, app_assoc; done]].
      rewrite list_to_set_app_L. simpl.
      replace (D ∖ (list_to_set (take (Z.to_nat j) secs) ∪ ({[v]} ∪ ∅)))
        with (D ∖ list_to_set (take (Z.to_nat j) secs) ∖ {[v]}) by set_solver. done.
  - exists s'. rewrite Hn, Z.add_0_l in HI. unfold zlen in HI. rewrite !Nat2Z.id in HI.
    rewrite (firstn_all2 W), (firstn_all2 secs) in HI by (unfold W, installs; rewrite ?length_imap; lia).
    replace (D ∖ list_to_set secs) with (∅ : gset Z) in HI by (destruct HD as [->| ->]; set_solver).
    unfold install_trans. run. done.
Qed.

Lemma read_sectors_ok s h secs : hdr_holds h secs → zlen (lg_sector s) = 10 →
  (∀ v, v ∈ secs → 0 ≤ v < 2 ^ 31) →
  ∃ l, for_all (length secs) 0 (fun i =>
    if 512 <? 4 * i + 8 then undef "lh->sector[i]" else
    set_sector i (get32 (Z.to_nat (4 * i + 4)) h)) s = Ok tt (set_lg_sector l s) ∧
    zlen l = 10 ∧ take (length secs) l = secs.
Proof.
  intros (Hh & Hn & Hl & Hget) Hlen Hr.
  destruct (for_all_inv (I := λ j s', ∃ l, s' = set_lg_sector l s ∧ zlen l = 10 ∧
      take (Z.to_nat j) l = take (Z.to_nat j) secs)
    (fun i => if 512 <? 4 * i + 8 then undef "lh->sector[i]" else
      set_sector i (get32 (Z.to_nat (4 * i + 4)) h)) (length secs) 0 s) as (s' & Hrun & l & -> & Hll & Ht).
  - exists (lg_sector s). split; [by destruct s|]. by rewrite !take_0.
  - intros j s1 Hj (l & -> & Hll & Ht).
    destruct (lookup_lt_is_Some_2 secs (Z.to_nat j)) as [v Hv]; [lia|].
    destruct (znth_is_Some l j) as [w Hw]; [lia|].
    pose proof (Hr v (list_elem_of_lookup_2 _ _ _ Hv)) as Hvr.
    exists (set_lg_sector (zupd j v l) s). split.
    + replace (512 <? 4 * j + 8) with false by lia. unfold set_sector.
      erewrite bind_ok by (apply get_sector_ok; exact Hw). unfold modify. f_equal.
      replace (Z.to_nat (4 * j + 4)) with (4 * Z.to_nat j + 4)%nat by lia.
      rewrite (Hget _ _ Hv), s32_small by lia. done.
    + exists (zupd j v l). split; [done|]. rewrite zlen_zupd. split; [done|].
      replace (Z.to_nat (j + 1)) with (S (Z.to_nat j)) by lia.
      rewrite (take_S_r secs _ _ Hv), (take_S_r _ _ v).
      * f_equal. rewrite <- Ht. unfold zupd. zcase. by rewrite take_insert_ge.
      * unfold zupd. zcase. apply list_lookup_insert_eq. unfold zlen in Hll. lia.
  - exists l. split; [done|]. split; [done|]. rewrite Z.add_0_l, Nat2Z.id in Ht.
    rewrite Ht. by apply firstn_all.
Qed.

Lemma read_head_ok s V secs : quiet (lg_bio s) V ∅ → lgeo s → hdr_holds (V (lg_start s)) secs →
  (∀ v, v ∈ secs → 0 ≤ v < lg_start s) →
  ∃ s', read_head s = Ok tt s' ∧ lgeo s' ∧ logged s' secs ∧
    lg_start s' = lg_start s ∧ lg_size s' = lg_size s ∧ lg_busy s' = lg_busy s ∧
    quiet (lg_bio s') V ∅ ∧ io_disk (lg_bio s') = io_disk (lg_bio s) ∧
    io_writes (lg_bio s') = io_writes (lg_bio s) ∧ same_env (lg_bio s) (lg_bio s').
Proof.
  intros Hq Hg Hh Hr. pose proof (lg_room _ Hg) as G1. pose proof (lg_pos _ Hg) as G2.
  pose proof (lg_fit _ Hg) as G3. pose proof (br_size _ _ _ _ (q_rep _ _ _ Hq)) as G4.
  destruct (start_u32 s V ∅ Hq Hg 0 ltac:(lia)) as [Hu Hin]. rewrite Z.add_0_r in *.
  destruct (bread_ok (lg_bio s) V ∅ ∅ _ (q_rep _ _ _ Hq) Hin) as (b & t1 & R1 & Q1 & H1 & D1 & W1 & E1 & _).
  { set_solver. } { left. rewrite union_empty_l_L, size_empty. lia. }
  destruct (held_in t1 V _ ∅ b _ Q1 H1) as (_ & _ & Hd & _).
  assert (HV : V (lg_start s) = ondisk (lg_bio s) (lg_start s))
    by (apply (br_clean _ _ _ _ (q_rep _ _ _ Hq)); [done|set_solver|set_solver]).
  destruct (brelse_ok t1 V _ ∅ b _ Q1 H1) as (t2 & R2 & Q2 & D2 & W2 & E2 & _).
  { right. rewrite HV. unfold ondisk. by rewrite D1. }
  replace (({[lg_start s]} ∪ ∅) ∖ {[lg_start s]} : gset Z) with (∅ : gset Z) in Q2 by set_solver.
  pose proof Hh as (_ & Hn & Hl & _).
  assert (Hns : s32 (get32 0 (V (lg_start s))) = zlen secs) by (rewrite Hn; apply s32_small; unfold zlen; lia).
  set (s1 := set_lg_n (zlen secs) (set_lg_bio t1 s)).
  destruct (read_sectors_ok s1 (V (lg_start s)) secs Hh (lg_secs _ Hg)) as (l & R3 & Hl3 & Ht3).
  { intros v Hv. apply Hr in Hv. lia. }
  assert (E : same_env (lg_bio s) t2) by (by eapply same_env_trans).
  exists (set_lg_bio t2 (set_lg_sector l s1)). split.
  - unfold read_head. erewrite !bind_ok by reflexivity. rewrite (lg_dev1 _ Hg), Hu.
    zstep R1. erewrite bind_ok by (apply zoom_ok, get_buf_ok; [apply Q1|by eapply held_buf]).
    cbn [lget lens_log_bio lg_bio lset set_lg_bio]. rewrite Hd, Hns.
    erewrite !bind_ok by reflexivity. cbn [lg_n set_lg_n].
    replace (Z.to_nat (zlen secs)) with (length secs) by (unfold zlen; lia).
    rewrite (bind_ok _ _ _ _ _ R3). by erewrite zoom_ok by exact R2.
  - split; [|split; [done|]].
    + split; simpl; try apply Hg; [|done]. destruct E as [-> _]. done.
    + do 3 (split; [done|]). split; [|simpl; split; [congruence|split; [congruence|done]]].
      split; [done|]. intros n Hn'. apply (q_blk _ _ _ Hq). unfold indisk in *. destruct E as [<- _]. done.
Qed.

Lemma quiet_ext t V V' D : (∀ n, V n = V' n) → quiet t V D → quiet t V' D.
Proof.
  intros He [Hq Hb]. split; [by eapply brep_ext|]. intros n Hn. rewrite <- He. by apply Hb.
Qed.
Lemma logged_nil s : lg_n s = 0 → logged s [].
Proof. intros Hn. split; [done|]. split; [simpl; lia|done]. Qed.
Lemma vapply_start s V secs : secs_ok s secs →
  vapply V (installs (lg_start s) V secs) (lg_start s) = V (lg_start s).
Proof.
  intros Hok. apply vapply_other. rewrite installs_fst. intros Hin.
  pose proof (so_data _ _ Hok _ Hin). lia.
Qed.

(** [install_trans], then clearing the header: what recovery and commit share. *)
Definition install_clear : M logst unit :=
  install_trans ;; modify (set_lg_n 0) ;; write_head.
Definition clear_writes (start : Z) (V : Z → list Z) (secs : list Z) : list (Z * list Z) :=
  installs start V secs ++ [(start, head_block [] (V start))].

Lemma install_clear_ok s V D secs : quiet (lg_bio s) V D → lgeo s → logged s secs →
  secs_ok s secs → (size D < 10)%nat → D = list_to_set secs ∨ D = ∅ →
  ∃ s', install_clear s = Ok tt s' ∧ same_log (set_lg_n 0 s) s' ∧
    quiet (lg_bio s') (vapply V (clear_writes (lg_start s) V secs)) ∅ ∧
    io_disk (lg_bio s') = apply_writes (io_disk (lg_bio s)) (clear_writes (lg_start s) V secs) ∧
    io_writes (lg_bio s') = io_writes (lg_bio s) ++ clear_writes (lg_start s) V secs.
Proof.
  intros Hq Hg Hlg Hok HsD HD.
  destruct (install_trans_ok s V D secs Hq Hg Hlg Hok HsD HD) as (s1 & R1 & S1 & Q1 & D1 & W1).
  set (s2 := set_lg_n 0 s1).
  assert (S2 : same_log (set_lg_n 0 s) s2) by (by destruct S1 as (? & ? & ? & ? & _ & ? & ?)).
  assert (Hg2 : lgeo s2).
  { apply (lgeo_same _ _ S1) in Hg as [? ? ? ? ?]. by split. }
  destruct (write_head_ok s2 _ ∅ [] Q1 Hg2 (logged_nil s2 eq_refl)) as (s3 & R3 & S3 & Q3 & D3 & W3).
  { set_solver. } { rewrite size_empty. lia. } { intros v Hv. by apply elem_of_nil in Hv. }
  assert (Es : lg_start s2 = lg_start s) by apply S2. rewrite Es, (vapply_start s V secs Hok) in *.
  exists s3. split; [|split; [by eapply same_log_trans|]].
  - unfold install_clear. rewrite (bind_ok _ _ _ _ _ R1).
    by rewrite (bind_ok _ _ _ tt s2) by reflexivity.
  - unfold clear_writes. rewrite vapply_app, apply_app, app_assoc. simpl.
    split; [done|]. split; [|by rewrite W3, <- W1]. by rewrite D3, <- D1.
Qed.

Lemma recover_ok s V secs : quiet (lg_bio s) V ∅ → lgeo s → hdr_holds (V (lg_start s)) secs →
  secs_ok s secs →
  ∃ s', recover_from_log s = Ok tt s' ∧ lgeo s' ∧ lg_n s' = 0 ∧
    lg_start s' = lg_start s ∧ lg_size s' = lg_size s ∧ lg_busy s' = lg_busy s ∧
    quiet (lg_bio s') (vapply V (clear_writes (lg_start s) V secs)) ∅ ∧
    io_disk (lg_bio s') = apply_writes (io_disk (lg_bio s)) (clear_writes (lg_start s) V secs) ∧
    io_writes (lg_bio s') = io_writes (lg_bio s) ++ clear_writes (lg_start s) V secs ∧
    same_env (lg_bio s) (lg_bio s').
Proof.
  intros Hq Hg Hh Hok.
  destruct (read_head_ok s V secs Hq Hg Hh (so_data _ _ Hok))
    as (s1 & R1 & G1 & L1 & Es & Ez & Eb & Q1 & D1 & W1 & E1).
  assert (Hok1 : secs_ok s1 secs) by (destruct Hok as [? ? ?]; split; [by rewrite Es|done|by rewrite Ez]).
  destruct (install_clear_ok s1 V ∅ secs Q1 G1 L1 Hok1) as (s2 & R2 & S2 & Q2 & D2 & W2).
  { rewrite size_empty. lia. } { by right. }
  rewrite Es, D1, W1 in *. exists s2. split.
  { unfold recover_from_log. by rewrite (bind_ok _ _ _ _ _ R1). }
  split; [eapply lgeo_same; [exact S2|]; by destruct G1; split|].
  destruct S2 as (F1 & F2 & F3 & F4 & F5 & F6 & F7). simpl in *.
  split; [done|]. split; [congruence|]. split; [congruence|]. split; [congruence|].
  do 3 (split; [done|]). by eapply same_env_trans.
Qed.

(** ** begin_trans and commit_trans *)

Definition log_idle (s : logst) : Prop :=
  idle (io_base (lg_bio s)) ∧ log_lock ∉ m_held (b_mach (io_base (lg_bio s))).

Lemma brep_base t b V B D : brep t V B D → idle b → brep (set_io_base b t) V B D.
Proof. intros [] Hb. by split. Qed.
Lemma quiet_base t b V D : quiet t V D → idle b → quiet (set_io_base b t) V D.
Proof. intros [Hq Hb] Hi. split; [by apply brep_base|done]. Qed.

Lemma log_acquire s : log_idle s → bacquire log_lock s =
  Ok tt (lset (set_b_mach (locked log_lock (b_mach (io_base (lg_bio s)))) (io_base (lg_bio s))) s).
Proof. intros [Hi _]. exact (bacquire_ok (S:=logst) log_lock s (idle_cli _ Hi)). Qed.
Lemma log_release m b (s : logst) : cli_wf m → log_lock ∉ m_held m →
  brelease log_lock (lset (set_b_mach (locked log_lock m) b) s) = Ok tt (lset (set_b_mach (saved m) b) s).
Proof.
  intros Hc Hl. unfold brelease. erewrite zoom_ok; [reflexivity|].
  unfold zoom; simpl. by rewrite release_locked.
Qed.
Lemma same_env_base t b : b_cur b = b_cur (io_base t) →
  m_held (b_mach b) = m_held (b_mach (io_base t)) → m_ncli (b_mach b) = m_ncli (b_mach (io_base t)) →
  m_ttbr0 (b_mach b) = m_ttbr0 (b_mach (io_base t)) → same_env t (set_io_base b t).
Proof. done. Qed.

Lemma begin_trans_ok s : log_idle s → lg_busy s = 0 →
  ∃ b, begin_trans s = Ok tt (set_lg_busy 1 (set_lg_bio (set_io_base b (lg_bio s)) s)) ∧
    idle b ∧ same_env (lg_bio s) (set_io_base b (lg_bio s)).
Proof.
  intros Hid Hb. pose proof Hid as [Hi Hl]. eexists. split; [|split].
  - unfold begin_trans. erewrite bind_ok by (by apply log_acquire).
    cbn [begin_wait]. erewrite (bind_ok (bind (gets lg_busy) _)).
    2: { erewrite bind_ok by reflexivity. cbn [lg_busy lset lens_log_base set_lg_bio]. rewrite Hb. reflexivity. }
    erewrite (bind_ok (modify _)) by reflexivity.
    match goal with |- brelease _ ?x = _ =>
      change x with (lset (set_b_mach (locked log_lock (b_mach (io_base (lg_bio s)))) (io_base (lg_bio s)))
        (set_lg_busy 1 s)) end.
    rewrite log_release by (done || apply Hi). reflexivity.
  - by apply idle_saved.
  - apply same_env_base; simpl; [done|..]; unfold saved; by destruct (_ =? 0).
Qed.

(** The end of [commit_trans]. *)
Definition end_trans : M logst unit :=
  bacquire log_lock ;; modify (set_lg_busy 0) ;; zoom (wakeup log_chan) ;; brelease log_lock.
Lemma end_trans_ok s : log_idle s →
  ∃ b, end_trans s = Ok tt (set_lg_busy 0 (set_lg_bio (set_io_base b (lg_bio s)) s)) ∧
    idle b ∧ same_env (lg_bio s) (set_io_base b (lg_bio s)).
Proof.
  intros Hid. pose proof Hid as [Hi Hl]. pose proof Hi as [Hc Hd Hbc Hp]. eexists. split; [|split].
  - unfold end_trans. erewrite bind_ok by (by apply log_acquire).
    erewrite (bind_ok (modify _)) by reflexivity.
    erewrite bind_ok by (apply zoom_ok; simpl; by apply wakeup_locked).
    match goal with |- brelease _ ?x = _ =>
      change x with (lset (set_b_mach (locked log_lock (b_mach (io_base (lg_bio s))))
        (set_b_procs (wake_one log_chan <$> b_procs (io_base (lg_bio s))) (io_base (lg_bio s))))
        (set_lg_busy 0 s)) end.
    rewrite log_release by done. reflexivity.
  - by destruct (idle_saved _ Hi) as [? ? ? ?].
  - apply same_env_base; simpl; [done|..]; unfold saved; by destruct (_ =? 0).
Qed.

Definition commit_writes (start : Z) (V : Z → list Z) (secs : list Z) : list (Z * list Z) :=
  (start, head_block secs (V start)) ::
  clear_writes start (vupd V start (head_block secs (V start))) secs.

Lemma log_idle_env s s' V D : quiet (lg_bio s') V D → same_env (lg_bio s) (lg_bio s') →
  log_idle s → log_idle s'.
Proof.
  intros [Hq _] (_ & _ & Hm & _) [_ Hl]. split; [apply Hq|]. by rewrite Hm.
Qed.

Lemma commit_ok s V secs : quiet (lg_bio s) V (list_to_set secs) → lgeo s → logged s secs →
  secs_ok s secs → (length secs < 10)%nat → secs ≠ [] → log_idle s →
  ∃ s', commit_trans s = Ok tt s' ∧ lgeo s' ∧ lg_n s' = 0 ∧ lg_busy s' = 0 ∧
    lg_start s' = lg_start s ∧ lg_size s' = lg_size s ∧ log_idle s' ∧
    quiet (lg_bio s') (vapply V (commit_writes (lg_start s) V secs)) ∅ ∧
    io_disk (lg_bio s') = apply_writes (io_disk (lg_bio s)) (commit_writes (lg_start s) V secs) ∧
    io_writes (lg_bio s') = io_writes (lg_bio s) ++ commit_writes (lg_start s) V secs ∧
    same_env (lg_bio s) (lg_bio s').
Proof.
  intros Hq Hg Hlg Hok Hlen Hne Hid.
  assert (Hsz : (size (list_to_set secs : gset Z) < 10)%nat)
    by (rewrite size_list_to_set by apply Hok; done).
  assert (Hr : ∀ v, v ∈ secs → 0 ≤ v < 2 ^ 32).
  { intros v Hv. pose proof (so_data _ _ Hok v Hv). pose proof (lg_fit _ Hg).
    pose proof (br_size _ _ _ _ (q_rep _ _ _ Hq)). pose proof (lg_room _ Hg). lia. }
  destruct (write_head_ok s V _ secs Hq Hg Hlg) as (s1 & R1 & S1 & Q1 & D1 & W1); [|done..|].
  { by apply (not_logged s). }
  pose proof S1 as (E1 & E2 & E3 & E4 & E5 & E6 & E7). pose proof (lgeo_same _ _ S1 Hg) as Hg1.
  assert (Hlg1 : logged s1 secs) by (destruct Hlg as (? & ? & ?); by rewrite <- E5, <- E6 in *).
  assert (Hok1 : secs_ok s1 secs) by (destruct Hok; split; by rewrite ?E1, ?E2).
  destruct (install_clear_ok s1 _ _ secs Q1 Hg1 Hlg1 Hok1 Hsz) as (s2 & R2 & S2 & Q2 & D2 & W2); [by left|].
  assert (Hid2 : log_idle s2).
  { eapply log_idle_env; [exact Q2| |exact Hid]. eapply same_env_trans; [exact E7|]. apply S2. }
  destruct (end_trans_ok s2 Hid2) as (b & R3 & Hb & E8).
  assert (Hg2 : lgeo s2) by (eapply lgeo_same; [exact S2|]; destruct Hg1; by split).
  pose proof S2 as (F1 & F2 & F3 & F4 & F5 & F6 & F7). simpl in *.
  eexists. split.
  { unfold commit_trans. erewrite bind_ok by reflexivity. destruct Hlg as (Hn & _). rewrite Hn.
    replace (0 <? zlen secs) with true by (destruct secs; [done|unfold zlen; simpl; lia]).
    cbn [when]. rewrite (bind_ok _ _ _ tt s2); [exact R3|].
    rewrite (bind_ok _ _ _ _ _ R1). exact R2. }
  simpl. split; [destruct Hg2; by split|]. split; [done|]. split; [done|].
  split; [congruence|]. split; [congruence|]. split; [split; [done|destruct E8 as (_ & _ & E8 & _); simpl in *; rewrite E8; apply Hid2]|].
  rewrite E1 in *. split; [by apply quiet_base|].
  split; [by rewrite D2, D1|]. split; [by rewrite W2, W1, <- app_assoc|].
  eapply same_env_trans; [exact E7|]. by eapply same_env_trans; [exact F7|].
Qed.

(** ** log_write *)

(** The log slot of [sec], and the logged sectors after logging it. *)
Definition slot (secs : list Z) (sec : Z) : nat :=
  default (length secs) (fst <$> list_find (.= sec) secs).
Definition add_sec (secs : list Z) (sec : Z) : list Z :=
  if bool_decide (sec ∈ secs) then secs else secs ++ [sec].

Lemma slot_in secs sec : sec ∈ secs →
  secs !! slot secs sec = Some sec ∧ ∀ j v, (j < slot secs sec)%nat → secs !! j = Some v → v ≠ sec.
Proof.
  intros Hin. unfold slot. destruct (list_find_elem_of (.= sec) secs sec Hin eq_refl) as [[i v] Hi].
  rewrite Hi. apply list_find_Some in Hi as (Hl & -> & Hb). simpl. split; [done|].
  intros j w Hj Hw. by eapply Hb.
Qed.
Lemma slot_out secs sec : sec ∉ secs → slot secs sec = length secs.
Proof.
  intros Hin. unfold slot. destruct (list_find (.= sec) secs) as [[i v]|] eqn:E; [|done].
  apply list_find_Some in E as (Hl & -> & _). destruct Hin. by eapply list_elem_of_lookup_2.
Qed.
Lemma slot_le secs sec : (slot secs sec ≤ length secs)%nat.
Proof.
  destruct (decide (sec ∈ secs)) as [Hin|Hin]; [|by rewrite slot_out].
  apply Nat.lt_le_incl, lookup_lt_Some with sec. by apply slot_in.
Qed.
Lemma add_sec_slot secs sec : add_sec secs sec !! slot secs sec = Some sec.
Proof.
  unfold add_sec. case_bool_decide as Hin; [by apply slot_in|].
  rewrite slot_out by done. by rewrite lookup_app_r, Nat.sub_diag.
Qed.
Lemma add_sec_other secs sec j v : secs !! j = Some v → add_sec secs sec !! j = Some v.
Proof. intros Hj. unfold add_sec. case_bool_decide; [done|]. by apply lookup_app_l_Some. Qed.
Lemma add_sec_NoDup secs sec : NoDup secs → NoDup (add_sec secs sec).
Proof.
  intros Hnd. unfold add_sec. case_bool_decide as Hin; [done|]. apply NoDup_app.
  split; [done|]. split; [|apply NoDup_singleton]. intros x Hx ->%list_elem_of_singleton. done.
Qed.
Lemma elem_add_sec secs sec v : v ∈ add_sec secs sec ↔ v = sec ∨ v ∈ secs.
Proof.
  unfold add_sec. case_bool_decide as Hin; [naive_solver|].
  rewrite elem_of_app, list_elem_of_singleton. tauto.
Qed.

Lemma logged_lookup s secs i v : logged s secs → secs !! i = Some v →
  znth (lg_sector s) (Z.of_nat i) = Some v.
Proof.
  intros (_ & _ & Ht) Hi. unfold znth. zcase. rewrite Nat2Z.id. rewrite <- Ht in Hi.
  by apply lookup_take_Some in Hi as [? _].
Qed.

Lemma find_slot s secs sec : logged s secs → (∀ v, v ∈ secs → 0 ≤ v < 2 ^ 32) →
  for_to 0 (zlen secs) (fun i =>
    let* v := get_sector i in ret (if u32 v =? sec then Some i else None)) s =
  Ok (if bool_decide (sec ∈ secs) then Some (Z.of_nat (slot secs sec)) else None) s.
Proof.
  intros Hlg Hr. unfold for_to. rewrite Z.sub_0_r. unfold zlen. rewrite Nat2Z.id.
  assert (Hbody : ∀ i v, secs !! i = Some v →
    (let* v := get_sector (Z.of_nat i) in ret (if u32 v =? sec then Some (Z.of_nat i) else None)) s =
    Ok (if v =? sec then Some (Z.of_nat i) else None) s).
  { intros i v Hi. erewrite bind_ok by (apply get_sector_ok; by eapply logged_lookup).
    rewrite u32_small; [done|]. apply Hr. by eapply list_elem_of_lookup_2. }
  case_bool_decide as Hin.
  - destruct (slot_in secs sec Hin) as [Hs Hb]. pose proof (lookup_lt_Some _ _ _ Hs).
    apply for_n_find with (Z.of_nat (slot secs sec)); [lia| |].
    + intros i Hi. destruct (lookup_lt_is_Some_2 secs (Z.to_nat i)) as [v Hv]; [lia|].
      pose proof (Hbody _ _ Hv) as Hbd. rewrite Z2Nat.id in Hbd by lia. rewrite Hbd.
      by rewrite (proj2 (Z.eqb_neq v sec)) by (eapply Hb, Hv; lia).
    + rewrite (Hbody _ _ Hs), Z.eqb_refl. done.
  - apply for_n_none. intros i Hi.
    destruct (lookup_lt_is_Some_2 secs (Z.to_nat i)) as [v Hv]; [lia|].
    pose proof (Hbody _ _ Hv) as Hbd. rewrite Z2Nat.id in Hbd by lia. rewrite Hbd.
    rewrite (proj2 (Z.eqb_neq v sec)); [done|]. intros ->. by apply list_elem_of_lookup_2 in Hv.
Qed.

(** Appending the held buffer to its log slot. *)
Lemma log_append t V B D b sec lsec : brep t V B D → holds t b sec → indisk t lsec →
  lsec ∉ B → lsec ∉ D → (size (B ∪ D) < 10)%nat →
  ∃ lb t1 t2 t3 t4, bread 1 lsec t = Ok lb t1 ∧ get_buf b t1 = Ok (bufof t1 b) t1 ∧
    b_data (bufof t1 b) = V sec ∧ upd_buf lb (set_b_data (V sec)) t1 = Ok tt t2 ∧
    bwrite lb t2 = Ok tt t3 ∧ brelse lb t3 = Ok tt t4 ∧
    brep t4 (vupd V lsec (V sec)) B D ∧ (∀ b n, holds t b n → holds t4 b n) ∧
    io_disk t4 = zupd lsec (V sec) (io_disk t) ∧
    io_writes t4 = io_writes t ++ [(lsec, V sec)] ∧ same_env t t4.
Proof.
  intros Hq Hh Hin HB HD Hsz.
  destruct (bread_ok t V _ D lsec Hq Hin) as (lb & t1 & R1 & Q1 & H1 & D1 & W1 & E1 & K1).
  { done. } { by left. }
  assert (Hbl : ∀ j n, holds t j n → j ≠ lb).
  { intros j n Hj ->. apply HB. pose proof (K1 _ _ Hj) as [(_ & _ & E) _]. pose proof H1 as [(_ & _ & E') _].
    rewrite <- E', E. by apply (held_in t V B D lb n Hq Hj). }
  pose proof (K1 _ _ Hh) as Hh1. destruct (held_in t1 V _ D b sec Q1 Hh1) as (_ & _ & Hd & _).
  destruct (set_data_ok t1 V _ D lb lsec Q1 H1 (V sec)) as (t2 & R2 & Q2 & H2 & D2 & W2 & E2 & K2).
  destruct (bwrite_ok t2 _ _ D lb lsec Q2 H2) as (t3 & R3 & Q3 & H3 & D3 & W3 & E3 & K3).
  assert (HV : vupd V lsec (V sec) lsec = V sec) by (unfold vupd; by rewrite Z.eqb_refl).
  rewrite HV in *. assert (Hin' : 0 ≤ lsec < zlen (io_disk t)) by exact Hin.
  destruct (brelse_ok t3 _ _ _ lb lsec Q3 H3) as (t4 & R4 & Q4 & D4 & W4 & E4 & K4).
  { right. rewrite HV. unfold ondisk. rewrite D3, D2, D1, znth_zupd by done. done. }
  replace (D ∖ {[lsec]}) with D in Q4 by set_solver.
  replace (({[lsec]} ∪ B) ∖ {[lsec]} : gset Z) with B in Q4 by set_solver.
  exists lb, t1, t2, t3, t4. split; [done|].
  split; [apply get_buf_ok; [apply Q1|by eapply held_buf]|]. do 5 (split; [done|]).
  split; [intros j n Hj; pose proof (Hbl _ _ Hj); by apply K4, K3, K2, K1|]. split; [congruence|]. split; [congruence|].
  repeat (eapply same_env_trans; [eassumption|]). done.
Qed.

Lemma logged_add s secs sec l : logged s secs → zlen (lg_sector s) = 10 → (length secs < 10)%nat →
  l = zupd (Z.of_nat (slot secs sec)) sec (lg_sector s) →
  take (length (add_sec secs sec)) l = add_sec secs sec ∧ zlen l = 10.
Proof.
  intros (Hn & _ & Ht) Hlen Hl ->. rewrite zlen_zupd. split; [|done].
  unfold zupd. destruct (Z.leb_spec 0 (Z.of_nat (slot secs sec))); [|lia]. rewrite Nat2Z.id.
  unfold zlen in Hlen. unfold add_sec. case_bool_decide as Hin.
  - destruct (slot_in secs sec Hin) as [Hs _]. rewrite list_insert_id; [done|].
    assert (Hs' : take (length secs) (lg_sector s) !! slot secs sec = Some sec) by (by rewrite Ht).
    by apply lookup_take_Some in Hs' as [? _].
  - rewrite slot_out, length_app by done. simpl. rewrite Nat.add_1_r, (take_S_r _ _ sec).
    + rewrite take_insert_ge by lia. by rewrite Ht.
    + apply list_lookup_insert_eq. lia.
Qed.

Lemma add_sec_set secs sec : (list_to_set (add_sec secs sec) : gset Z) = {[sec]} ∪ list_to_set secs.
Proof.
  apply set_eq. intros v. rewrite elem_of_union, elem_of_singleton, !elem_of_list_to_set, elem_add_sec. done.
Qed.
Lemma log_write_ok s V B secs b sec (secs' := add_sec secs sec)
    (lsec := lg_start s + Z.of_nat (slot secs sec) + 1) :
  brep (lg_bio s) V B (list_to_set secs) → holds (lg_bio s) b sec →
  (∀ n, n ∈ B → n < lg_start s) → (size (B ∪ list_to_set secs) < 10)%nat →
  lgeo s → logged s secs → secs_ok s secs' → (length secs' < 10)%nat →
  zlen secs + 1 < lg_size s → lg_busy s = 1 →
  ∃ s', log_write b s = Ok tt s' ∧
    lgeo s' ∧ logged s' secs' ∧ lg_start s' = lg_start s ∧ lg_size s' = lg_size s ∧ lg_busy s' = 1 ∧
    brep (lg_bio s') (vupd V lsec (V sec)) B (list_to_set secs') ∧
    (∀ b n, holds (lg_bio s) b n → holds (lg_bio s') b n) ∧
    io_disk (lg_bio s') = zupd lsec (V sec) (io_disk (lg_bio s)) ∧
    io_writes (lg_bio s') = io_writes (lg_bio s) ++ [(lsec, V sec)] ∧
    same_env (lg_bio s) (lg_bio s').
Proof.
  intros Hq Hh HBs Hsz Hg Hlg Hok Hlen Hcap Hbusy. set (t := lg_bio s) in *.
  assert (Hsub : ∀ v, v ∈ secs' ↔ v = sec ∨ v ∈ secs) by (intros v; apply elem_add_sec).
  pose proof (slot_le secs sec) as Hsl.
  assert (Hl' : (length secs ≤ length secs' ∧ slot secs sec < length secs')%nat).
  { pose proof (lookup_lt_Some _ _ _ (add_sec_slot secs sec)). fold secs' in H.
    unfold secs', add_sec in *. case_bool_decide; [lia|rewrite length_app in *; simpl in *; lia]. }
  pose proof (so_fit _ _ Hok) as Hfit. unfold zlen in Hfit.
  pose proof (lg_fit _ Hg) as Hgf. pose proof (br_size _ _ _ _ Hq) as Hmax. fold t in Hgf, Hmax.
  pose proof (lg_pos _ Hg) as Hpos. pose proof (lg_room _ Hg) as Hroom.
  assert (Hsec : 0 ≤ sec < lg_start s) by (apply (so_data _ _ Hok), Hsub; by left).
  assert (Hlu : u32 lsec = lsec ∧ indisk t lsec) by (unfold lsec, indisk; rewrite u32_small; lia).
  destruct Hlu as [Hlu Hlin].
  assert (HD : {[sec]} ∪ list_to_set secs = (list_to_set secs' : gset Z)).
  { symmetry. apply add_sec_set. }
  destruct (log_append t V B (list_to_set secs) b sec lsec Hq Hh Hlin)
    as (lb & t1 & t2 & t3 & t4 & R1 & Rg & Hd & R2 & R3 & R4 & Q4 & K4 & D4 & W4 & E4).
  { intros Hin%HBs. unfold lsec in Hin. lia. }
  { rewrite elem_of_list_to_set. intros Hin. pose proof (so_data _ _ Hok lsec (proj2 (Hsub _) (or_intror Hin))).
    unfold lsec in *. lia. }
  { done. }
  destruct (set_dirty_ok t4 _ _ _ b sec Q4 (K4 _ _ Hh)) as (t5 & R5 & Q5 & H5 & D5 & W5 & E5 & K5).
  rewrite HD in Q5.
  set (l := zupd (Z.of_nat (slot secs sec)) sec (lg_sector s)).
  destruct (logged_add s secs sec l Hlg (lg_secs _ Hg) ltac:(lia) eq_refl) as [Htk Hll].
  set (n' := zlen secs').
  exists (LogSt t5 (lg_start s) (lg_size s) (lg_busy s) (lg_dev s) n' l).
  assert (Hdz : zlen (io_disk t5) = zlen (io_disk t)) by (rewrite D5, D4; apply zlen_zupd).
  split.
  2: { simpl. split; [destruct Hg; split; simpl; try done; by rewrite Hdz|].
       split; [split; [done|split; [simpl; lia|done]]|]. do 3 (split; [done|]).
       split; [done|]. split; [|split; [congruence|split; [congruence|]]].
       { intros j n Hj. destruct (decide (j = b)) as [->|]; [|by apply K5, K4].
         pose proof Hj as [(_ & _ & <-) _]. pose proof Hh as [(_ & _ & Eb) _]. by rewrite Eb. }
       by eapply same_env_trans. }
  pose proof Hlg as (Hn & _ & _). destruct Hh as [(Hbb & Hdev & Hbs) Hbu].
  assert (Hr : ∀ v, v ∈ secs → 0 ≤ v < 2 ^ 32).
  { intros v Hv. pose proof (so_data _ _ Hok v (proj2 (Hsub v) (or_intror Hv))). lia. }
  unfold log_write. erewrite (bind_ok (gets lg_n)) by reflexivity.
  erewrite (bind_ok (gets lg_size)) by reflexivity.
  rewrite Hn, s32_small by lia.
  replace ((LOGSIZE <=? zlen secs) || (lg_size s - 1 <=? zlen secs)) with false
    by (unfold LOGSIZE, zlen; unfold zlen in *; lia).
  erewrite (bind_ok (panic_if _ _)) by reflexivity. erewrite (bind_ok (gets lg_busy)) by reflexivity.
  rewrite Hbusy. erewrite (bind_ok (panic_if _ _)) by reflexivity.
  erewrite bind_ok by (apply zoom_ok, get_buf_ok; [apply Hq|unfold isbuf in Hbb; lia]).
  change (lset (lget s) s) with (lset t s). replace (lset t s) with s by (by destruct s).
  change (lget s) with t. rewrite Hbs, Hdev. rewrite (bind_ok _ _ _ _ _ (find_slot s secs sec Hlg Hr)).
  replace (default (zlen secs) _) with (Z.of_nat (slot secs sec))
    by (case_bool_decide; [done|]; simpl; unfold zlen; by rewrite slot_out).
  destruct (znth_is_Some (lg_sector s) (Z.of_nat (slot secs sec))) as [w Hw];
    [rewrite (lg_secs _ Hg); lia|].
  rewrite (bind_ok _ _ _ tt (set_lg_sector l s)).
  2: { unfold set_sector. erewrite bind_ok by (apply get_sector_ok; exact Hw).
       unfold modify. rewrite s32_small by lia. done. }
  erewrite (bind_ok (gets lg_start)) by reflexivity. cbn [lg_start set_lg_sector]. fold lsec. rewrite Hlu.
  zstep R1. zstep Rg. rewrite Hd. zstep R2. zstep R3. zstep R4.
  erewrite (bind_ok (gets lg_n)) by reflexivity. cbn [lg_n lset lens_log_bio set_lg_bio set_lg_sector].
  rewrite Hn, (bind_ok _ _ _ tt (LogSt t4 (lg_start s) (lg_size s) 1 (lg_dev s) n' l)).
  { by erewrite zoom_ok by exact R5. }
  unfold n', secs', add_sec. case_bool_decide as Hin.
  - pose proof (lookup_lt_Some _ _ _ (proj1 (slot_in secs sec Hin))).
    replace (Z.of_nat (slot secs sec) =? zlen secs) with false by (unfold zlen; lia).
    unfold when, ret, set_lg_bio. simpl. by rewrite Hn, Hbusy.
  - rewrite slot_out by done. unfold zlen at 1. rewrite Z.eqb_refl. simpl. unfold modify. f_equal.
    unfold set_lg_n. simpl. rewrite Hbusy. f_equal. unfold zlen. rewrite length_app. simpl.
    rewrite s32_small; lia.
Qed.

(** ** Transactions *)

Record intx (s : logst) (V : Z → list Z) (secs : list Z) : Prop := {
  tx_quiet : quiet (lg_bio s) V (list_to_set secs);
  tx_geo : lgeo s;
  tx_log : logged s secs;
  tx_ok : secs_ok s secs;
  tx_busy : lg_busy s = 1;
  tx_idle : log_idle s;
  tx_copy : ∀ i v, secs !! i = Some v → V (lg_start s + Z.of_nat i + 1) = V v;
  tx_hdr : hdr_holds (V (lg_start s)) [];
}.

Lemma update_ok s V secs sec d (secs' := add_sec secs sec)
    (lsec := lg_start s + Z.of_nat (slot secs sec) + 1) :
  intx s V secs → 0 ≤ sec < lg_start s → length d = 512%nat → (length secs' < 10)%nat →
  zlen secs' + 1 < lg_size s →
  ∃ s', update (sec, d) s = Ok tt s' ∧ intx s' (vupd (vupd V sec d) lsec d) secs' ∧
    lg_start s' = lg_start s ∧ lg_size s' = lg_size s ∧
    io_disk (lg_bio s') = zupd lsec d (io_disk (lg_bio s)) ∧
    io_writes (lg_bio s') = io_writes (lg_bio s) ++ [(lsec, d)].
Proof.
  intros [Hq Hg Hlg Hok Hbusy Hid Hcopy Hhdr] Hsec Hd Hlen Hcap. set (t := lg_bio s) in *.
  assert (Hsub : ∀ v, v ∈ secs' ↔ v = sec ∨ v ∈ secs) by (intros v; apply elem_add_sec).
  assert (Hll : zlen secs ≤ zlen secs') by (unfold zlen, secs', add_sec; case_bool_decide;
    rewrite ?length_app; simpl; lia).
  pose proof (lg_fit _ Hg) as Hfit. pose proof (lg_room _ Hg) as Hroom. fold t in Hfit.
  pose proof (br_size _ _ _ _ (q_rep _ _ _ Hq)) as Hmax.
  assert (Hin : indisk t sec) by (unfold indisk; lia).
  assert (Hok' : secs_ok s secs').
  { split; [|apply add_sec_NoDup, Hok|lia]. intros v [->|Hv]%Hsub; [done|by apply (so_data _ _ Hok)]. }
  assert (Hsz : (size (list_to_set secs : gset Z) < 10)%nat).
  { rewrite size_list_to_set by apply Hok. unfold zlen in Hll. lia. }
  assert (Hsz' : (size ({[sec]} ∪ list_to_set secs : gset Z) < 10)%nat).
  { rewrite <- (add_sec_set secs sec), size_list_to_set by apply Hok'. done. }
  destruct (bread_ok t V ∅ _ sec (q_rep _ _ _ Hq) Hin) as (b & t1 & R1 & Q1 & H1 & D1 & W1 & E1 & _).
  { set_solver. } { left. by rewrite union_empty_l_L. }
  rewrite union_empty_r_L in Q1.
  destruct (set_data_ok t1 V _ _ b sec Q1 H1 d) as (t2 & R2 & Q2 & H2 & D2 & W2 & E2 & _).
  set (s2 := set_lg_bio t2 s).
  assert (Hg2 : lgeo s2) by (destruct Hg; split; simpl; try done; rewrite D2, D1; done).
  assert (Hok2 : secs_ok s2 secs') by (by destruct Hok'; split).
  destruct (log_write_ok s2 (vupd V sec d) {[sec]} secs b sec Q2 H2 ltac:(set_solver) Hsz' Hg2 Hlg Hok2 Hlen
    ltac:(simpl; lia) Hbusy) as (s3 & R3 & G3 & L3 & Es3 & Ez3 & Eb3 & Q3 & H3 & D3 & W3 & E3).
  specialize (H3 _ _ H2).
  cbn [lg_start lg_size lg_bio s2 set_lg_bio] in *. fold lsec in Q3, D3, W3. fold secs' in L3, Q3.
  assert (HVs : vupd V sec d sec = d) by (unfold vupd; by rewrite Z.eqb_refl). rewrite HVs in *.
  destruct (brelse_ok (lg_bio s3) _ _ _ b sec Q3 H3) as (t4 & R4 & Q4 & D4 & W4 & E4 & _).
  { left. apply elem_of_list_to_set, Hsub. by left. }
  replace (({[sec]} : gset Z) ∖ {[sec]}) with (∅ : gset Z) in Q4 by set_solver.
  assert (E : same_env t t4) by (repeat (eapply same_env_trans; [eassumption|]); done).
  exists (set_lg_bio t4 s3). split; [|split; [|simpl; split; [done|split; [done|split; congruence]]]].
  - unfold update. zstep R1. zstep R2. fold s2. rewrite (bind_ok _ _ _ _ _ R3).
    by erewrite zoom_ok by exact R4.
  - assert (Hq4 : quiet t4 (vupd (vupd V sec d) lsec d) (list_to_set secs')).
    { split; [done|]. intros n Hn. unfold vupd. destruct (n =? lsec); [done|].
      destruct (n =? sec); [done|]. apply (q_blk _ _ _ Hq). unfold indisk in *. by destruct E as [<- _]. }
    split; simpl; rewrite ?Es3; try done.
    + destruct G3; split; simpl; try done. rewrite D4. done.
    + destruct Hok'; split; simpl; rewrite ?Es3, ?Ez3; done.
    + eapply (log_idle_env s); [exact Hq4|exact E|done].
    + intros i v Hi. pose proof (lookup_lt_Some _ _ _ Hi) as Hil.
      pose proof (so_data _ _ Hok' v (list_elem_of_lookup_2 _ _ _ Hi)) as Hvr.
      unfold vupd. destruct (Z.eqb_spec (lg_start s + Z.of_nat i + 1) sec); [lia|].
      destruct (Z.eqb_spec v lsec); [unfold lsec in *; lia|].
      destruct (Z.eqb_spec (lg_start s + Z.of_nat i + 1) lsec) as [He|He].
      * assert (i = slot secs sec) as -> by (unfold lsec in He; lia).
        unfold secs' in Hi. rewrite add_sec_slot in Hi. simplify_eq. by rewrite Z.eqb_refl.
      * destruct (Z.eqb_spec v sec) as [->|Hvs].
        -- exfalso. apply He. unfold lsec. do 2 f_equal. f_equal.
           eapply NoDup_lookup; [apply Hok'|exact Hi|apply add_sec_slot].
        -- apply Hcopy. unfold secs', add_sec in Hi. case_bool_decide; [done|].
           apply lookup_app_Some in Hi as [?|[_ Hi]]; [done|].
           apply list_lookup_singleton_Some in Hi as [_ <-]. done.
    + replace (vupd (vupd V sec d) lsec d (lg_start s)) with (V (lg_start s)); [done|].
      unfold vupd. destruct (Z.eqb_spec (lg_start s) lsec); [unfold lsec in *; lia|].
      destruct (Z.eqb_spec (lg_start s) sec); [lia|done].
Qed.

Definition add_secs (secs : list Z) (l : list Z) : list Z := fold_left add_sec l secs.
Lemma add_secs_mono l : ∀ secs, (length secs ≤ length (add_secs secs l))%nat.
Proof.
  induction l as [|v l IH]; intros secs; simpl; [done|]. etrans; [|apply IH].
  unfold add_sec. case_bool_decide; [done|]. rewrite length_app. lia.
Qed.
Lemma elem_add_secs l : ∀ secs v, v ∈ add_secs secs l ↔ v ∈ secs ∨ v ∈ l.
Proof.
  induction l as [|w l IH]; intros secs v; simpl; [rewrite elem_of_nil; tauto|].
  rewrite IH, elem_add_sec, elem_of_cons. tauto.
Qed.

Definition ups_ok (start : Z) (ups : list (Z * list Z)) : Prop :=
  Forall (λ u, (0 ≤ u.1 < start ∧ u.1 ≠ 1) ∧ length u.2 = 512%nat) ups.
Definition log_writes (start size : Z) (W : list (Z * list Z)) : Prop :=
  Forall (λ w, start < w.1 < start + size ∧ length w.2 = 512%nat) W.

Lemma vapply_pw W : ∀ V V' n, V n = V' n → vapply V W n = vapply V' W n.
Proof.
  induction W as [|w W IH]; intros V V' n He; [done|]. simpl. apply IH. unfold vupd. by destruct (_ =? _).
Qed.

Lemma updates_ok ups : ∀ s V secs, intx s V secs → ups_ok (lg_start s) ups →
  (length (add_secs secs ups.*1) < 10)%nat → zlen (add_secs secs ups.*1) + 1 < lg_size s →
  ∃ s' V' W, updates ups s = Ok tt s' ∧ intx s' V' (add_secs secs ups.*1) ∧
    lg_start s' = lg_start s ∧ lg_size s' = lg_size s ∧
    io_disk (lg_bio s') = apply_writes (io_disk (lg_bio s)) W ∧
    io_writes (lg_bio s') = io_writes (lg_bio s) ++ W ∧
    log_writes (lg_start s) (lg_size s) W ∧ ∀ n, n < lg_start s → V' n = vapply V ups n.
Proof.
  induction ups as [|[sec d] ups IH]; intros s V secs Htx Hups Hlen Hcap;
    rewrite ?fmap_cons, ?fmap_nil in *; cbn [fst updates] in *.
  { exists s, V, []. rewrite app_nil_r. do 6 (split; [done|]). split; [by apply Forall_nil|done]. }
  apply Forall_cons in Hups as [((Hsec & _) & Hd) Hups]. cbn [fst snd] in *.
  change (add_secs secs (sec :: ups.*1)) with (add_secs (add_sec secs sec) ups.*1) in *.
  pose proof (add_secs_mono ups.*1 (add_sec secs sec)) as Hm.
  destruct (update_ok s V secs sec d Htx Hsec Hd) as (s1 & R1 & T1 & Es & Ez & D1 & W1);
    [lia|unfold zlen in *; lia|].
  set (lsec := lg_start s + Z.of_nat (slot secs sec) + 1) in *.
  assert (Hls : lg_start s < lsec < lg_start s + lg_size s).
  { pose proof (lookup_lt_Some _ _ _ (add_sec_slot secs sec)). unfold lsec, zlen in *. lia. }
  rewrite <- Es in Hups. rewrite <- Ez in Hcap.
  destruct (IH s1 _ _ T1 Hups Hlen Hcap) as (s2 & V2 & W2 & R2 & T2 & Es2 & Ez2 & D2 & Wr2 & HW & HV).
  exists s2, V2, ((lsec, d) :: W2). rewrite Es, Ez in *.
  split; [by rewrite (bind_ok _ _ _ _ _ R1)|]. split; [done|]. split; [done|]. split; [done|].
  split; [by rewrite D2, D1|]. split; [by rewrite Wr2, W1, <- app_assoc|].
  split; [apply Forall_cons; done|]. intros n Hn. rewrite HV by done.
  change (vapply V ((sec, d) :: ups)) with (vapply (vupd V sec d) ups).
  apply vapply_pw. unfold vupd. destruct (Z.eqb_spec n lsec); [lia|done].
Qed.

(** ** Recovery after power-on *)

(** The geometry the superblock of disk [d] records. *)
Record disk_ok (d : list (list Z)) (start size : Z) : Prop := {
  do_max : zlen d ≤ 2 ^ 23;
  do_blk : ∀ n, 0 ≤ n < zlen d → length (blk d n) = 512%nat;
  do_start : 1 < start;
  do_room : 1 ≤ size;
  do_fit : start + size ≤ zlen d;
  do_size : get32 0 (blk d 1) = start + size;
  do_nlog : get32 12 (blk d 1) = size;
}.
(** Header and log sectors on disk [d] describe the committed sectors [secs]. *)
Record committed (d : list (list Z)) (start size : Z) (secs : list Z) : Prop := {
  cm_hdr : hdr_holds (blk d start) secs;
  cm_data : ∀ v, v ∈ secs → 0 ≤ v < start;
  cm_nodup : NoDup secs;
  cm_fit : zlen secs < size;
}.

(** Between transactions: nothing is logged and the header on disk is empty. *)
Record settled (s : logst) (V : Z → list Z) : Prop := {
  st_quiet : quiet (lg_bio s) V ∅;
  st_geo : lgeo s;
  st_n : lg_n s = 0;
  st_busy : lg_busy s = 0;
  st_idle : log_idle s;
  st_hdr : hdr_holds (V (lg_start s)) [];
  st_disk : disk_ok (io_disk (lg_bio s)) (lg_start s) (lg_size s);
}.

Lemma idle_minus b lk : idle b →
  idle (set_b_mach (set_held (m_held (b_mach b) ∖ {[lk]}) (b_mach b)) b).
Proof. intros [? ? ? ?]. split; simpl; [done|done|set_solver|set_solver]. Qed.

Lemma readsb_ok t V d start size : quiet t V ∅ → disk_ok d start size → io_disk t = d →
  (∀ n, V n = blk d n) →
  ∃ t' sb, readsb ROOTDEV t = Ok sb t' ∧ sb_size sb = start + size ∧ sb_nlog sb = size ∧
    quiet t' V ∅ ∧ io_disk t' = d ∧ io_writes t' = io_writes t ∧ same_env t t'.
Proof.
  intros Hq Hd Hdt HV. pose proof (do_start _ _ _ Hd). pose proof (do_room _ _ _ Hd).
  pose proof (do_fit _ _ _ Hd). assert (Hin : indisk t 1) by (unfold indisk; rewrite Hdt; lia).
  destruct (bread_ok t V ∅ ∅ 1 (q_rep _ _ _ Hq) Hin) as (b & t1 & R1 & Q1 & H1' & D1 & W1 & E1 & _).
  { set_solver. } { left. rewrite union_empty_l_L, size_empty. lia. }
  destruct (held_in t1 V _ ∅ b _ Q1 H1') as (_ & _ & Hdat & _).
  destruct (brelse_ok t1 V _ ∅ b _ Q1 H1') as (t2 & R2 & Q2 & D2 & W2 & E2 & _).
  { right. rewrite HV. unfold ondisk, blk. by rewrite D1, Hdt. }
  replace (({[1]} ∪ ∅) ∖ {[1]} : gset Z) with (∅ : gset Z) in Q2 by set_solver.
  eexists t2, _. split.
  { unfold readsb, ROOTDEV. rewrite (bind_ok _ _ _ _ _ R1).
    erewrite bind_ok by (apply get_buf_ok; [apply Q1|by eapply held_buf]).
    rewrite (bind_ok _ _ _ _ _ R2). reflexivity. }
  cbn [sb_size sb_nlog]. rewrite Hdat, HV, (do_size _ _ _ Hd), (do_nlog _ _ _ Hd).
  do 2 (split; [done|]). split; [split; [done|]|split; [congruence|split; [congruence|by eapply same_env_trans]]].
  intros n Hn. rewrite HV. apply (do_blk _ _ _ Hd). unfold indisk in Hn. by rewrite D2, D1, Hdt in Hn.
Qed.

Lemma installs_in start size d V secs : start + size ≤ zlen d → 1 ≤ size →
  (∀ v, v ∈ secs → 0 ≤ v < start) → writes_in d (installs start V secs).
Proof.
  intros Hf Hs Hd. apply Forall_forall. intros [v x] Hin.
  apply list_elem_of_fmap_2 with (f := fst) in Hin. rewrite installs_fst in Hin.
  apply Hd in Hin. simpl in *. lia.
Qed.

Definition safe_writes (d : list (list Z)) (W : list (Z * list Z)) : Prop :=
  Forall (λ w, (0 ≤ w.1 < zlen d ∧ w.1 ≠ 1) ∧ length w.2 = 512%nat) W.

Lemma safe_in d W : safe_writes d W → writes_in d W.
Proof. intros HW. eapply Forall_impl; [exact HW|]. intros w Hw. apply Hw. Qed.
Lemma blk_writes d W n : safe_writes d W → blk (apply_writes d W) n = vapply (blk d) W n.
Proof. intros H. by apply blk_apply; [apply safe_in|]. Qed.
Lemma blk512_apply W : ∀ d, safe_writes d W →
  (∀ n, 0 ≤ n < zlen d → length (blk d n) = 512%nat) →
  ∀ n, 0 ≤ n < zlen d → length (blk (apply_writes d W) n) = 512%nat.
Proof.
  induction W as [|[m x] W IH]; intros d HW Hb n Hn; [by apply Hb|].
  apply Forall_cons in HW as [[[Hm _] Hx] HW]. simpl in *.
  apply IH; [|intros k Hk|]; rewrite ?zlen_zupd in *; [by unfold safe_writes; rewrite zlen_zupd| |done].
  rewrite blk_zupd by done. destruct (k =? m); [done|by apply Hb].
Qed.
Lemma disk_ok_apply d W start size : disk_ok d start size → safe_writes d W →
  disk_ok (apply_writes d W) start size.
Proof.
  intros Hd HW. assert (H1 : blk (apply_writes d W) 1 = blk d 1).
  { rewrite blk_writes by done. apply vapply_other. intros Hin.
    apply list_elem_of_fmap_1 in Hin as ([m x] & Hm & Hx). unfold safe_writes in HW.
    rewrite Forall_forall in HW. apply HW in Hx as [[_ Hne] _]. by rewrite <- Hm in Hne. }
  destruct Hd. split; rewrite ?zlen_apply, ?H1; try done.
  intros n Hn. by apply blk512_apply.
Qed.

Lemma clear_safe d start size secs : disk_ok d start size → committed d start size secs → 1 ∉ secs →
  safe_writes d (clear_writes start (blk d) secs).
Proof.
  intros Hd [Hh Hdata Hnd Hfit] H1. pose proof (do_fit _ _ _ Hd). pose proof (do_start _ _ _ Hd).
  pose proof (do_room _ _ _ Hd).
  apply Forall_app. split; [|apply Forall_singleton; split; [simpl; lia|]].
  - apply Forall_forall. intros [v x] Hin. apply list_elem_of_lookup_1 in Hin as [i Hin].
    unfold installs in Hin. rewrite list_lookup_imap in Hin.
    destruct (secs !! i) as [w|] eqn:E; [|done]. simpl in Hin. injection Hin as -> <-. simpl.
    pose proof (lookup_lt_Some _ _ _ E). apply list_elem_of_lookup_2 in E. pose proof (Hdata v E).
    split; [split; [lia|by intros ->]|]. apply (do_blk _ _ _ Hd). unfold zlen in *. lia.
  - simpl. apply (head_block_holds [] (blk d start)); [apply Hh|simpl; lia|by intros v ?%elem_of_nil].
Qed.

Lemma boot_ok b d start size secs : idle b → log_lock ∉ m_held (b_mach b) →
  disk_ok d start size → committed d start size secs →
  ∃ r, boot (power_on b d) = Ok tt r ∧ lg_start r = start ∧ lg_size r = size ∧
    (1 ∉ secs → settled r (vapply (blk d) (clear_writes start (blk d) secs))) ∧
    io_disk (lg_bio r) = apply_writes d (clear_writes start (blk d) secs) ∧
    io_writes (lg_bio r) = clear_writes start (blk d) secs.
Proof.
  intros Hi Hl Hd [Hh Hdata Hnd Hfit]. set (s := power_on b d).
  pose proof (do_start _ _ _ Hd). pose proof (do_room _ _ _ Hd).
  pose proof (do_fit _ _ _ Hd). pose proof (do_max _ _ _ Hd).
  assert (Hfresh : fresh_bio (lg_bio s)).
  { split; [done|]. split; [done|]. intros i Hir. unfold isbuf, NBUF in Hir.
    unfold bufof, znth, s, power_on. cbn [lg_bio io_bufs]. destruct (0 <=? i); [|done].
    by rewrite lookup_replicate_2 by lia. }
  destruct (binit_ok (lg_bio s) Hfresh Hi) as (t1 & R1 & Q1 & D1 & W1).
  assert (Hq1 : quiet t1 (blk d) ∅).
  { split; [exact Q1|]. intros n Hn. apply (do_blk _ _ _ Hd). unfold indisk in Hn. by rewrite D1 in Hn. }
  set (b2 := set_b_mach (set_held (m_held (b_mach (io_base t1)) ∖ {[log_lock]}) (b_mach (io_base t1))) (io_base t1)).
  set (t2 := set_io_base b2 t1).
  assert (Hq2 : quiet t2 (blk d) ∅).
  { apply quiet_base; [done|]. apply idle_minus, Q1. }
  destruct (readsb_ok t2 (blk d) d start size Hq2 Hd D1) as (t3 & sb & R3 & Esz & Enl & Q3 & D3 & W3 & E3); [done|].
  set (s3 := LogSt t3 start size 0 1 0 (replicate 10 0)).
  assert (Hg3 : lgeo s3).
  { split; [reflexivity|simpl; lia|simpl; lia|simpl; rewrite D3; lia|reflexivity]. }
  assert (Hok3 : secs_ok s3 secs) by (by split).
  destruct (recover_ok s3 (blk d) secs Q3 Hg3 Hh Hok3) as (r & R4 & G4 & N4 & Es4 & Ez4 & Eb4 & Q4 & D4 & W4 & E4).
  exists r. split.
  - unfold boot. zstep R1. unfold initlog, BSIZE, LOGSIZE. erewrite (bind_ok (panic_if _ _)) by reflexivity.
    rewrite (bind_ok _ _ _ tt (set_lg_bio t2 s)) by reflexivity.
    zstep R3. erewrite !(bind_ok (modify _)) by reflexivity.
    rewrite Esz, Enl. replace (start + size - size) with start by lia.
    rewrite !s32_small by lia. exact R4.
  - split; [done|]. split; [done|].
    assert (Hd4 : io_disk (lg_bio r) = apply_writes d (clear_writes start (blk d) secs))
      by (rewrite D4; simpl; by rewrite D3).
    split; [|split; [done|rewrite W4; simpl; rewrite W3; simpl; by rewrite W1]].
    intros H1'. split; [exact Q4|exact G4|exact N4|exact Eb4|..].
    + split; [apply Q4|]. destruct E4 as (_ & _ & -> & _). simpl. destruct E3 as (_ & _ & -> & _).
      simpl. intros [_ Hx]%elem_of_difference. apply Hx, elem_of_singleton. done.
    + rewrite Es4. unfold clear_writes. rewrite vapply_app. simpl. unfold vupd. rewrite Z.eqb_refl.
      apply head_block_holds; [apply Hh|simpl; lia|by intros v ?%elem_of_nil].
    + rewrite Hd4, Es4, Ez4. apply disk_ok_apply; [done|]. by eapply clear_safe.
Qed.

(** After a crash with disk [d], the next boot yields the contents [P] on every
    data sector. *)
Definition survives (b : base) (d : list (list Z)) (start : Z) (P : Z → list Z) : Prop :=
  ∃ r, boot (power_on b d) = Ok tt r ∧ ∀ n, 0 ≤ n < start → blk (io_disk (lg_bio r)) n = P n.

Lemma survive b d start size secs P : idle b → log_lock ∉ m_held (b_mach b) →
  disk_ok d start size → committed d start size secs →
  (∀ i v, secs !! i = Some v → blk d (start + Z.of_nat i + 1) = P v) →
  (∀ n, 0 ≤ n < start → n ∉ secs → blk d n = P n) →
  survives b d start P.
Proof.
  intros Hi Hl Hd Hc Hin Hout.
  destruct (boot_ok b d start size secs Hi Hl Hd Hc) as (r & Hrun & _ & _ & _ & Hdisk & _).
  exists r. split; [done|]. intros n Hn. pose proof (do_fit _ _ _ Hd). pose proof (do_room _ _ _ Hd).
  rewrite Hdisk, (blk_apply _ d (blk d)); [|apply Forall_app; split|done].
  - unfold clear_writes. rewrite vapply_app. simpl. unfold vupd. destruct (Z.eqb_spec n start); [lia|].
    destruct (decide (n ∈ secs)) as [Hs|Hs].
    + apply list_elem_of_lookup_1 in Hs as [i Hs]. rewrite <- (Hin i n Hs).
      apply vapply_at with i; [rewrite installs_fst; apply Hc|]. by apply installs_lookup.
    + rewrite vapply_other by (by rewrite installs_fst). by apply Hout.
  - eapply installs_in; [done..|apply Hc].
  - apply Forall_singleton. simpl. pose proof (do_start _ _ _ Hd). lia.
Qed.

Lemma secs_ok_nil s : 1 ≤ lg_size s → secs_ok s [].
Proof. intros. split; [by intros v ?%elem_of_nil|apply NoDup_nil_2|unfold zlen; simpl; lia]. Qed.

Lemma begin_tx s V : settled s V →
  ∃ s1, begin_trans s = Ok tt s1 ∧ intx s1 V [] ∧ lg_start s1 = lg_start s ∧
    lg_size s1 = lg_size s ∧ io_disk (lg_bio s1) = io_disk (lg_bio s) ∧
    io_writes (lg_bio s1) = io_writes (lg_bio s).
Proof.
  intros [Hq Hg Hn Hb Hi Hh _]. destruct (begin_trans_ok s Hi Hb) as (b & R & Hib & E).
  eexists. split; [exact R|]. split; [|done].
  split; simpl; try done.
  - by apply quiet_base.
  - destruct Hg; by split.
  - by apply logged_nil.
  - apply secs_ok_nil. apply Hg.
  - split; [done|]. destruct E as (_ & _ & E & _). simpl in *. rewrite E. apply Hi.
Qed.

Lemma log_writes_safe d start size W : disk_ok d start size → log_writes start size W → safe_writes d W.
Proof.
  intros Hd HW. eapply Forall_impl; [exact HW|]. intros w [Hw Hl]. destruct Hd. split; [lia|done].
Qed.
Lemma safe_take d W k : safe_writes d W → safe_writes d (take k W).
Proof. apply Forall_take. Qed.
Lemma log_writes_data start size W n : log_writes start size W → n ≤ start → n ∉ W.*1.
Proof.
  intros HW Hn Hin. apply list_elem_of_fmap_1 in Hin as (w & -> & Hw).
  unfold log_writes in HW. rewrite Forall_forall in HW. apply HW in Hw. lia.
Qed.

(** A crash during the body of the transaction: only log sectors were written. *)
Lemma crash_body b d start size W : idle b → log_lock ∉ m_held (b_mach b) →
  disk_ok d start size → hdr_holds (blk d start) [] → log_writes start size W →
  survives b (apply_writes d W) start (blk d).
Proof.
  intros Hi Hl Hd Hh HW. pose proof (log_writes_safe _ _ _ _ Hd HW) as Hsf.
  apply (survive b _ start size []); [done|done|by apply disk_ok_apply| |done|].
  - split; [|by intros v ?%elem_of_nil|apply NoDup_nil_2|].
    + rewrite blk_writes, vapply_other by (done || by eapply log_writes_data). done.
    + pose proof (do_room _ _ _ Hd). unfold zlen. simpl. lia.
  - intros n Hn _. rewrite blk_writes by done. apply vapply_other. eapply log_writes_data; [done|lia].
Qed.

(** A crash after the header was written: the transaction is redone. *)
Section crash_commit.
Context (b : base) (d : list (list Z)) (start size : Z) (V : Z → list Z) (secs : list Z).
Context (Hi : idle b) (Hl : log_lock ∉ m_held (b_mach b)) (Hd : disk_ok d start size).
Context (Hdata : ∀ v, v ∈ secs → 0 ≤ v < start ∧ v ≠ 1) (Hnd : NoDup secs).
Context (Hlen : (length secs ≤ 10)%nat) (Hfit : zlen secs < size).
Context (Hclean : ∀ n, 0 ≤ n < zlen d → n ∉ secs → blk d n = V n).
Context (H512 : ∀ v, v ∈ secs → length (V v) = 512%nat).
Context (Hcopy : ∀ i v, secs !! i = Some v → V (start + Z.of_nat i + 1) = V v).

Definition chdr : list Z := head_block secs (V start).
Definition cinst : list (Z * list Z) := installs start (vupd V start chdr) secs.

Lemma start_not_sec n : start ≤ n → n ∉ secs.
Proof. intros Hn Hin. apply Hdata in Hin. lia. Qed.
Lemma chdr_ok : hdr_holds chdr secs.
Proof.
  destruct Hd. apply head_block_holds; [|done|].
  - rewrite <- Hclean by (lia || by apply start_not_sec). apply do_blk0. lia.
  - intros v Hv. apply Hdata in Hv. lia.
Qed.
Lemma cinst_lookup i v : secs !! i = Some v → cinst !! i = Some (v, V v).
Proof.
  intros Hv. unfold cinst. rewrite (installs_lookup _ _ _ _ v Hv).
  unfold vupd. destruct (Z.eqb_spec (start + Z.of_nat i + 1) start); [lia|]. by rewrite (Hcopy i v Hv).
Qed.
Lemma cinst_fst : cinst.*1 = secs.
Proof. apply installs_fst. Qed.
Lemma commit_writes_eq :
  commit_writes start V secs = (start, chdr) :: cinst ++ [(start, head_block [] chdr)].
Proof.
  unfold commit_writes, clear_writes. fold chdr cinst. do 3 f_equal. unfold vupd. by rewrite Z.eqb_refl.
Qed.
Lemma cinst_safe : safe_writes d cinst.
Proof.
  apply Forall_forall. intros [v x] Hin. apply list_elem_of_lookup_1 in Hin as [i Hin].
  assert (Hv : secs !! i = Some v).
  { rewrite <- cinst_fst, list_lookup_fmap, Hin. done. }
  rewrite (cinst_lookup i v Hv) in Hin. simplify_eq. apply list_elem_of_lookup_2 in Hv. simpl.
  pose proof (Hdata _ Hv). destruct Hd. split; [lia|by apply H512].
Qed.
Lemma commit_safe : safe_writes d (commit_writes start V secs).
Proof.
  pose proof chdr_ok as Hh. destruct Hd. rewrite commit_writes_eq.
  apply Forall_cons. split; [split; [simpl; lia|apply Hh]|]. apply Forall_app. split; [apply cinst_safe|].
  apply Forall_singleton. split; [simpl; lia|]. simpl.
  apply (head_block_holds [] chdr); [apply Hh|simpl; lia|by intros v ?%elem_of_nil].
Qed.

(** Before the header is cleared. *)
Lemma crash_installing j : survives b (apply_writes d ((start, chdr) :: take j cinst)) start V.
Proof.
  set (W := (start, chdr) :: take j cinst).
  assert (Hsf : safe_writes d W).
  { pose proof commit_safe as H. rewrite commit_writes_eq in H. apply Forall_cons in H as [H1 H2].
    apply Forall_app in H2 as [H2 _]. apply Forall_cons. split; [done|]. by apply Forall_take. }
  assert (Hother : ∀ n, n ≠ start → n ∉ secs → blk (apply_writes d W) n = blk d n).
  { intros n Hn Hs. rewrite blk_writes by done. apply vapply_other. simpl.
    rewrite not_elem_of_cons. split; [done|]. rewrite fmap_take, cinst_fst.
    intros Hin. apply Hs. by eapply take_elem. }
  pose proof (do_fit _ _ _ Hd). pose proof (do_start _ _ _ Hd). pose proof (do_room _ _ _ Hd).
  apply (survive b _ start size secs); [done|done|by apply disk_ok_apply| | |].
  - split; [|apply Hdata|done|done]. rewrite blk_writes by done. unfold W. simpl.
    rewrite vapply_other; [unfold vupd; rewrite Z.eqb_refl; apply chdr_ok|].
    rewrite fmap_take, cinst_fst. intros Hin%take_elem.
    by apply (start_not_sec start).
  - intros i v Hv. pose proof (lookup_lt_Some _ _ _ Hv). unfold zlen in Hfit.
    rewrite Hother by (lia || apply start_not_sec; lia).
    rewrite Hclean by (lia || apply start_not_sec; lia). by apply Hcopy.
  - intros n Hn Hs. rewrite Hother by (lia || done). apply Hclean; [lia|done].
Qed.

(** After the header is cleared. *)
Lemma crash_cleared : survives b (apply_writes d (commit_writes start V secs)) start V.
Proof.
  pose proof commit_safe as Hsf. pose proof chdr_ok as Hh.
  pose proof (do_fit _ _ _ Hd). pose proof (do_start _ _ _ Hd). pose proof (do_room _ _ _ Hd).
  apply (survive b _ start size []); [done|done|by apply disk_ok_apply| |done|].
  - split; [|by intros v ?%elem_of_nil|apply NoDup_nil_2|unfold zlen; simpl; lia].
    rewrite blk_writes, commit_writes_eq by done. simpl. rewrite vapply_app. simpl.
    unfold vupd at 1. rewrite Z.eqb_refl.
    apply head_block_holds; [apply Hh|simpl; lia|by intros v ?%elem_of_nil].
  - intros n Hn _. rewrite blk_writes, commit_writes_eq by done. simpl. rewrite vapply_app. simpl.
    unfold vupd at 1. destruct (Z.eqb_spec n start); [lia|].
    destruct (decide (n ∈ secs)) as [Hs|Hs].
    + apply list_elem_of_lookup_1 in Hs as [i Hs].
      apply vapply_at with i; [by rewrite cinst_fst|by apply cinst_lookup].
    + rewrite vapply_other by (by rewrite cinst_fst). unfold vupd.
      destruct (Z.eqb_spec n start); [lia|]. apply Hclean; [lia|done].
Qed.

Lemma crash_commit j : (0 < j)%nat →
  survives b (apply_writes d (take j (commit_writes start V secs))) start V.
Proof.
  intros Hj. destruct j as [|j]; [lia|]. rewrite commit_writes_eq.
  destruct (decide (j ≤ length cinst)%nat) as [Hle|Hgt].
  - cbn [take]. rewrite take_app_le by done. apply crash_installing.
  - rewrite take_ge by (simpl; rewrite length_app; simpl; lia). rewrite <- commit_writes_eq.
    apply crash_cleared.
Qed.
End crash_commit.

Lemma settled_blk s V n : settled s V → indisk (lg_bio s) n → V n = blk (io_disk (lg_bio s)) n.
Proof.
  intros Hs Hn. apply (br_clean _ _ _ _ (q_rep _ _ _ (st_quiet _ _ Hs))); [done|set_solver|set_solver].
Qed.

(** The end of a transaction that logged nothing. *)
Lemma commit_empty s V : intx s V [] → disk_ok (io_disk (lg_bio s)) (lg_start s) (lg_size s) →
  ∃ s', commit_trans s = Ok tt s' ∧ settled s' V ∧ lg_start s' = lg_start s ∧ lg_size s' = lg_size s ∧
    io_disk (lg_bio s') = io_disk (lg_bio s) ∧ io_writes (lg_bio s') = io_writes (lg_bio s) ∧
    same_env (lg_bio s) (lg_bio s').
Proof.
  intros [Hq Hg (Hn & _) Hok Hb Hi Hc Hh] Hd. destruct (end_trans_ok s Hi) as (b & R & Hib & E).
  eexists. split.
  { unfold commit_trans. erewrite bind_ok by reflexivity. rewrite Hn. cbn [when].
    erewrite (bind_ok (when _ _)) by reflexivity. exact R. }
  split; [|done]. split; simpl; try done.
  - apply quiet_base; [|done]. by rewrite list_to_set_nil in Hq.
  - destruct Hg; by split.
  - split; [done|]. destruct E as (_ & _ & E & _). simpl in *. rewrite E. apply Hi.
Qed.

(** The end of a transaction that logged [secs]. *)
Lemma commit_full s V secs : intx s V secs → secs ≠ [] → (length secs < 10)%nat → 1 ∉ secs →
  disk_ok (io_disk (lg_bio s)) (lg_start s) (lg_size s) →
  ∃ s' V', commit_trans s = Ok tt s' ∧ settled s' V' ∧ lg_start s' = lg_start s ∧
    lg_size s' = lg_size s ∧ (∀ n, n < lg_start s → V' n = V n) ∧
    io_disk (lg_bio s') = apply_writes (io_disk (lg_bio s)) (commit_writes (lg_start s) V secs) ∧
    io_writes (lg_bio s') = io_writes (lg_bio s) ++ commit_writes (lg_start s) V secs ∧
    same_env (lg_bio s) (lg_bio s') ∧
    ∀ b j, idle b → log_lock ∉ m_held (b_mach b) → (0 < j)%nat →
      survives b (apply_writes (io_disk (lg_bio s)) (take j (commit_writes (lg_start s) V secs)))
        (lg_start s) V.
Proof.
  intros [Hq Hg Hlg Hok Hb Hi Hc Hh] Hne Hlen H1 Hd.
  assert (Hdata : ∀ v, v ∈ secs → 0 ≤ v < lg_start s ∧ v ≠ 1).
  { intros v Hv. split; [by apply (so_data _ _ Hok)|]. by intros ->. }
  assert (Hclean : ∀ n, 0 ≤ n < zlen (io_disk (lg_bio s)) → n ∉ secs → blk (io_disk (lg_bio s)) n = V n).
  { intros n Hn Hs. symmetry. apply (br_clean _ _ _ _ (q_rep _ _ _ Hq)); [done|set_solver|].
    by rewrite elem_of_list_to_set. }
  assert (H512 : ∀ v, v ∈ secs → length (V v) = 512%nat).
  { intros v Hv. apply (q_blk _ _ _ Hq). pose proof (so_data _ _ Hok v Hv). destruct Hd. unfold indisk. lia. }
  destruct (commit_ok s V secs Hq Hg Hlg Hok Hlen Hne Hi)
    as (s' & R & Hg' & Hn' & Hb' & Es & Ez & Hi' & Hq' & Hd' & Hw' & He').
  pose proof (commit_safe _ _ _ V secs Hd Hdata ltac:(lia) Hclean H512 Hc) as Hsf.
  pose proof (chdr_ok _ _ _ V secs Hd Hdata ltac:(lia) Hclean) as Hch.
  eexists s', _. split; [exact R|]. split; [|split; [done|split; [done|split; [|split; [done|split; [done|split; [done|]]]]]]].
  - split; try done.
    + rewrite Es, (commit_writes_eq (lg_start s)) by done.
      change (vapply V (?w :: ?l)) with (vapply (vupd V w.1 w.2) l). rewrite vapply_app. simpl.
      unfold vupd at 1. rewrite Z.eqb_refl.
      apply head_block_holds; [apply Hch|simpl; lia|by intros v ?%elem_of_nil].
    + rewrite Hd', Es, Ez. by apply disk_ok_apply.
  - intros n Hn. rewrite (commit_writes_eq (lg_start s)) by done.
    change (vapply V (?w :: ?l)) with (vapply (vupd V w.1 w.2) l). rewrite vapply_app. simpl.
    unfold vupd at 1. destruct (Z.eqb_spec n (lg_start s)); [lia|].
    destruct (decide (n ∈ secs)) as [Hs|Hs].
    + apply list_elem_of_lookup_1 in Hs as [i Hs]. apply vapply_at with i.
      * rewrite cinst_fst. apply Hok.
      * by apply cinst_lookup; [lia|..].
    + rewrite vapply_other by (by rewrite cinst_fst). unfold vupd.
      destruct (Z.eqb_spec n (lg_start s)); [lia|done].
  - intros b j Hib Hlb Hj. apply (crash_commit b _ _ (lg_size s)); try done; [apply Hok|lia|apply Hok].
Qed.
End ops_spec.

(** * Theorems *)

(** C2: transactions are atomic with respect to crashes.  Run a system call's
    transaction (begin, any updates of data sectors that fit in the log, commit)
    from a settled state; it completes, leaves a settled state with the new
    contents, and its disk writes have a commit point [c]: if the machine stops
    after any number [k] of them and is booted again, recovery yields exactly
    the old contents of every data sector when [k <= c] and exactly the new ones
    when [k > c]. *)
Theorem transaction_atomic {WF : WaitFuel} b s V ups (secs := add_secs [] ups.*1) :
  idle b → log_lock ∉ m_held (b_mach b) → settled s V → ups_ok (lg_start s) ups →
  (length secs < 10)%nat → zlen secs + 1 < lg_size s →
  ∃ s' V' W c, transaction ups s = Ok tt s' ∧ settled s' V' ∧
    (∀ n, 0 ≤ n < lg_start s → V' n = vapply V ups n) ∧
    io_writes (lg_bio s') = io_writes (lg_bio s) ++ W ∧
    io_disk (lg_bio s') = apply_writes (io_disk (lg_bio s)) W ∧
    ∀ k, survives b (apply_writes (io_disk (lg_bio s)) (take k W)) (lg_start s)
           (if decide (k ≤ c)%nat then V else vapply V ups).
Proof.
  intros Hib Hlb Hs Hups Hlen Hcap. pose proof (st_disk _ _ Hs) as Hd0.
  destruct (begin_tx s V Hs) as (s0 & R0 & T0 & Es0 & Ez0 & D0 & W0).
  destruct (updates_ok ups s0 V [] T0) as (s1 & V1 & W1 & R1 & T1 & Es1 & Ez1 & D1 & Wr1 & HW & HV);
    [by rewrite Es0|done|by rewrite Ez0|].
  rewrite Es0, Ez0, D0, W0 in *. fold secs in T1.
  assert (Hold : ∀ W, log_writes (lg_start s) (lg_size s) W →
    survives b (apply_writes (io_disk (lg_bio s)) W) (lg_start s) V).
  { intros W HWl. pose proof (lg_fit _ (st_geo _ _ Hs)). pose proof (lg_room _ (st_geo _ _ Hs)).
    pose proof (lg_pos _ (st_geo _ _ Hs)).
    destruct (crash_body b (io_disk (lg_bio s)) (lg_start s) (lg_size s) W Hib Hlb Hd0) as (r & Rr & Hr); [|done|].
    - rewrite <- (settled_blk s V) by (done || unfold indisk; lia). apply Hs.
    - exists r. split; [done|]. intros n Hn. rewrite Hr by done. symmetry. apply (settled_blk s V); [done|].
      unfold indisk. lia. }
  assert (Hd1 : disk_ok (io_disk (lg_bio s1)) (lg_start s1) (lg_size s1)).
  { rewrite D1, Es1, Ez1. apply disk_ok_apply; [done|]. by eapply log_writes_safe. }
  assert (Htx : ∀ s2, commit_trans s1 = Ok tt s2 → transaction ups s = Ok tt s2).
  { intros s2 R2. unfold transaction. by rewrite (bind_ok _ _ _ _ _ R0), (bind_ok _ _ _ _ _ R1). }
  destruct (decide (secs = [])) as [He|Hne].
  - rewrite He in T1. destruct (commit_empty s1 V1 T1 Hd1) as (s2 & R2 & S2 & Es2 & Ez2 & D2 & W2 & _).
    exists s2, V1, W1, (length W1). split; [by apply Htx|]. split; [done|].
    split; [intros n Hn; apply HV; lia|]. split; [congruence|]. split; [congruence|].
    intros k. destruct (decide (k ≤ length W1)%nat); [apply Hold; by apply Forall_take|].
    rewrite take_ge by lia. assert (Hups0 : ups = []).
    { destruct ups as [|u ups]; [done|]. exfalso.
      assert (Hin : u.1 ∈ secs) by (apply elem_add_secs; right; by left).
      rewrite He in Hin. by apply elem_of_nil in Hin. }
    rewrite Hups0. by apply Hold.
  - assert (H1 : 1 ∉ secs).
    { intros Hin. apply elem_add_secs in Hin as [Hin|Hin]; [by apply elem_of_nil in Hin|].
      apply list_elem_of_fmap_1 in Hin as (u & Hu & Hin). unfold ups_ok in Hups.
      rewrite Forall_forall in Hups. apply Hups in Hin as [[_ Hu1] _]. congruence. }
    destruct (commit_full s1 V1 secs T1 Hne Hlen H1 Hd1)
      as (s2 & V2 & R2 & S2 & Es2 & Ez2 & HV2 & D2 & W2 & _ & Hcr).
    rewrite Es1 in *. set (Wc := commit_writes (lg_start s) V1 secs) in *.
    exists s2, V2, (W1 ++ Wc), (length W1). split; [by apply Htx|]. split; [done|].
    split; [intros n Hn; rewrite HV2, HV by lia; done|].
    split; [by rewrite W2, Wr1, app_assoc|]. split; [by rewrite D2, D1, apply_app|].
    intros k. destruct (decide (k ≤ length W1)%nat).
    + rewrite take_app_le by done. apply Hold. by apply Forall_take.
    + rewrite take_app_ge, apply_app, <- D1 by lia.
      destruct (Hcr b (k - length W1)%nat Hib Hlb ltac:(lia)) as (r & Rr & Hr).
      exists r. split; [done|]. intros x Hx. rewrite Hr by done. apply HV. lia.
Qed.

(** C24: recovery can itself be interrupted: if the machine stops after any number
    [k] of the writes recovery makes and boots again, the data sectors end up
    exactly as the uninterrupted recovery leaves them. *)
Theorem recovery_restartable {WF : WaitFuel} b d start size secs :
  idle b → log_lock ∉ m_held (b_mach b) → disk_ok d start size → committed d start size secs →
  1 ∉ secs →
  ∃ r, boot (power_on b d) = Ok tt r ∧
    ∀ k, survives b (apply_writes d (take k (io_writes (lg_bio r)))) start
           (blk (io_disk (lg_bio r))).
Proof.
  intros Hi Hl Hd Hc H1. pose proof Hc as [Hh Hdata Hnd Hfit].
  pose proof (do_fit _ _ _ Hd) as G1. pose proof (do_start _ _ _ Hd) as G2. pose proof (do_room _ _ _ Hd) as G3.
  destruct (boot_ok b d start size secs Hi Hl Hd Hc) as (r & Hrun & _ & _ & _ & Hdisk & Hw).
  exists r. split; [done|]. intros k. rewrite Hw, Hdisk.
  set (W := clear_writes start (blk d) secs) in *.
  pose proof (clear_safe d start size secs Hd Hc H1) as Hsf. fold W in Hsf.
  assert (Hfin : ∀ n, blk (apply_writes d W) n = vapply (blk d) W n) by (intros n; by apply blk_writes).
  destruct (decide (k ≤ length secs)%nat) as [Hk|Hk].
  - assert (Htk : take k W = take k (installs start (blk d) secs)).
    { unfold W, clear_writes. apply take_app_le. unfold installs. by rewrite length_imap. }
    assert (Hsk : safe_writes d (take k W)) by (by apply Forall_take).
    assert (Hother : ∀ n, n ∉ secs → blk (apply_writes d (take k W)) n = blk d n).
    { intros n Hn. rewrite blk_writes by done. apply vapply_other. rewrite Htk, take_installs_fst.
      intros Hin. apply Hn. by eapply take_elem. }
    assert (Hlog : ∀ n, start ≤ n → n ∉ secs) by (intros n Hn Hin; apply Hdata in Hin; lia).
    apply (survive b _ start size secs); [done|done|by apply disk_ok_apply| | |].
    + split; [|done..]. by rewrite Hother by (by apply Hlog).
    + intros i v Hv. rewrite Hother by (apply Hlog; lia). rewrite Hfin. unfold W, clear_writes.
      rewrite vapply_app. pose proof (Hdata v (list_elem_of_lookup_2 _ _ _ Hv)). simpl. unfold vupd at 1.
      destruct (Z.eqb_spec v start); [lia|]. symmetry.
      apply vapply_at with i; [by rewrite installs_fst|by apply installs_lookup].
    + intros n Hn Hs. rewrite Hother, Hfin by done. symmetry. apply vapply_other. unfold W, clear_writes.
      rewrite fmap_app, installs_fst, elem_of_app. simpl. rewrite list_elem_of_singleton. intros [?|?]; [done|lia].
  - rewrite take_ge by (unfold W, clear_writes, installs; rewrite length_app, length_imap; simpl; lia).
    apply (survive b _ start size []); [done|done|by apply disk_ok_apply| |done|done].
    split; [|by intros v ?%elem_of_nil|apply NoDup_nil_2|unfold zlen; simpl; lia].
    rewrite Hfin. unfold W, clear_writes. rewrite vapply_app. simpl. unfold vupd. rewrite Z.eqb_refl.
    apply head_block_holds; [apply Hh|simpl; lia|by intros v ?%elem_of_nil].
Qed.

(** [log_write] refuses a block outside a transaction and one that does not
    fit in the log, before it touches the disk. *)
Theorem log_write_guards {WF : WaitFuel} s b :
  LOGSIZE ≤ lg_n s ∨ s32 (lg_size s - 1) ≤ lg_n s ∨ lg_busy s = 0 →
  ∃ msg, log_write b s = Panic msg s.
Proof.
  intros H. unfold log_write. erewrite (bind_ok (gets lg_n)) by reflexivity.
  erewrite (bind_ok (gets lg_size)) by reflexivity.
  destruct ((LOGSIZE <=? lg_n s) || (s32 (lg_size s - 1) <=? lg_n s)) eqn:E; [by eexists|].
  erewrite (bind_ok (panic_if _ _)) by reflexivity. erewrite (bind_ok (gets lg_busy)) by reflexivity.
  assert (lg_busy s = 0) as -> by lia. by eexists.
Qed.

(** ** Witnesses *)

#[local] Instance log_fuel : WaitFuel := 0%nat.
Definition demo_sb : list Z := put32 12 15 (put32 0 60 (replicate 512 0)).
Definition demo_disk : list (list Z) :=
  replicate 1 (replicate 512 3) ++ [demo_sb] ++ replicate 58 (replicate 512 0).
Definition demo_boot : logst :=
  match boot (power_on (demo_base [zero_proc]) demo_disk) with
  | Ok _ r => r | _ => power_on (demo_base [zero_proc]) demo_disk end.

Lemma demo_base_idle : idle (demo_base [zero_proc]) ∧ log_lock ∉ m_held (b_mach (demo_base [zero_proc])).
Proof. split; [split; [by split|done|set_solver|set_solver]|set_solver]. Qed.
Lemma demo_disk_ok : disk_ok demo_disk 45 15.
Proof.
  split; try (vm_compute; done). intros n Hn.
  assert (HF : Forall (λ x, length x = 512%nat) demo_disk).
  { apply (bool_decide_unpack _). vm_compute. exact I. }
  rewrite Forall_forall in HF. destruct (znth_is_Some _ _ Hn) as [x Hx]. unfold blk. rewrite Hx. simpl.
  apply HF. unfold znth in Hx. destruct (0 <=? n); [|done]. by eapply list_elem_of_lookup_2.
Qed.
Lemma demo_committed : committed demo_disk 45 15 [].
Proof.
  split; [|by intros v ?%elem_of_nil|apply NoDup_nil_2|vm_compute; done].
  split; [vm_compute; done|]. split; [vm_compute; done|]. split; [simpl; lia|done].
Qed.
Lemma demo_settled : ∃ V, settled demo_boot V ∧ lg_start demo_boot = 45 ∧ lg_size demo_boot = 15.
Proof.
  destruct (boot_ok (demo_base [zero_proc]) demo_disk 45 15 [] (proj1 demo_base_idle) (proj2 demo_base_idle)
    demo_disk_ok demo_committed) as (r & Hrun & Es & Ez & Hs & _).
  eexists. unfold demo_boot. rewrite Hrun. exact (conj (Hs (not_elem_of_nil 1)) (conj Es Ez)).
Qed.
Lemma transaction_atomic_witness : ∃ V V' s' W c,
  let ups := [(20, replicate 512 1); (21, replicate 512 2); (20, replicate 512 9)] in
  transaction ups demo_boot = Ok tt s' ∧ settled s' V' ∧
  ∀ k, survives (demo_base [zero_proc]) (apply_writes (io_disk (lg_bio demo_boot)) (take k W)) 45
         (if decide (k ≤ c)%nat then V else vapply V ups).
Proof.
  destruct demo_settled as (V & Hs & Es & Ez). exists V.
  destruct (transaction_atomic (demo_base [zero_proc]) demo_boot V
    [(20, replicate 512 1); (21, replicate 512 2); (20, replicate 512 9)]
    (proj1 demo_base_idle) (proj2 demo_base_idle) Hs) as (s' & V' & W & c & R & S' & _ & _ & _ & Hk).
  - rewrite Es. repeat (apply Forall_cons; split; [split; [cbn [fst]; lia|reflexivity]|]).
    apply Forall_nil. exact I.
  - vm_compute. lia.
  - rewrite Ez. vm_compute. reflexivity.
  - exists V', s', W, c. rewrite Es in Hk. exact (conj R (conj S' Hk)).
Defined.
(** A disk whose log holds a committed transaction of two blocks. *)
Definition demo_full : list (list Z) :=
  zupd 45 (put32 8 21 (put32 4 20 (put32 0 2 (replicate 512 0)))) (zupd 46 (replicate 512 7) (zupd 47 (replicate 512 9) demo_disk)).
Lemma demo_full_ok : disk_ok demo_full 45 15.
Proof.
  split; try (vm_compute; done). intros n Hn.
  assert (HF : Forall (λ x, length x = 512%nat) demo_full).
  { apply (bool_decide_unpack _). vm_compute. exact I. }
  rewrite Forall_forall in HF. destruct (znth_is_Some _ _ Hn) as [x Hx]. unfold blk. rewrite Hx. simpl.
  apply HF. unfold znth in Hx. destruct (0 <=? n); [|done]. by eapply list_elem_of_lookup_2.
Qed.
Lemma demo_full_committed : committed demo_full 45 15 [20; 21].
Proof.
  split; [|intros v [->|[->|[]%elem_of_nil]%elem_of_cons]%elem_of_cons; lia|apply (bool_decide_unpack _); vm_compute; exact I|vm_compute; done].
  split; [vm_compute; done|]. split; [vm_compute; done|]. split; [simpl; lia|].
  intros [|[|k]] v Hv; [injection Hv as <-; vm_compute; reflexivity..|discriminate Hv].
Qed.
Lemma recovery_restartable_witness : ∃ r, boot (power_on (demo_base [zero_proc]) demo_full) = Ok tt r ∧
  length (io_writes (lg_bio r)) = 3%nat ∧ blk (io_disk (lg_bio r)) 21 = replicate 512 9 ∧
  ∀ k, survives (demo_base [zero_proc]) (apply_writes demo_full (take k (io_writes (lg_bio r)))) 45
         (blk (io_disk (lg_bio r))).
Proof.
  destruct (recovery_restartable (demo_base [zero_proc]) demo_full 45 15 [20; 21] (proj1 demo_base_idle)
    (proj2 demo_base_idle) demo_full_ok demo_full_committed) as (r & R & Hk).
  - apply (bool_decide_unpack _). vm_compute. exact I.
  - exists r. assert (H : match boot (power_on (demo_base [zero_proc]) demo_full) with
      | Ok _ r => bool_decide (length (io_writes (lg_bio r)) = 3%nat) && bool_decide (blk (io_disk (lg_bio r)) 21 = replicate 512 9) | _ => false end = true) by (vm_compute; reflexivity).
    rewrite R in H. apply andb_prop in H as [H1%bool_decide_eq_true H2%bool_decide_eq_true].
    split; [exact R|]. split; [exact H1|]. split; [exact H2|exact Hk].
Defined.
Lemma log_write_guards_witness : ∃ msg, log_write 0 (power_on (demo_base [zero_proc]) demo_disk) =
  Panic msg (power_on (demo_base [zero_proc]) demo_disk).
Proof. apply log_write_guards. right. right. reflexivity. Defined.

(** A transaction of [LOGSIZE] distinct blocks passes both checks of
    [log_write] and still panics: every logged block pins its buffer, so the
    tenth leaves no buffer for its log sector. *)
Theorem full_log_exhausts_buffers :
  lg_size demo_boot = 15 ∧
  panics (transaction ((λ n, (n, replicate 512 n)) <$> seqZ 20 9) demo_boot) = false ∧
  (∃ s', transaction ((λ n, (n, replicate 512 n)) <$> seqZ 20 10) demo_boot =
     Panic "bget: no buffers" s' ∧ lg_n s' < LOGSIZE).
Proof.
  split; [vm_compute; reflexivity|]. split; [vm_compute; reflexivity|].
  assert (H : match transaction ((λ n, (n, replicate 512 n)) <$> seqZ 20 10) demo_boot with
    | Panic m s' => bool_decide (m = "bget: no buffers") && (lg_n s' <? LOGSIZE)
    | _ => false end = true) by (vm_compute; reflexivity).
  destruct (transaction _ _) as [| msg s' | | |]; try discriminate H.
  apply andb_prop in H as [Hm Hn]. apply bool_decide_eq_true in Hm. apply Z.ltb_lt in Hn.
  exists s'. by rewrite Hm.
Qed.
