(* ===== verification/Tx.v ===== *)
(** What the log promises to the file system: a transaction seen from above.

    [tx s V B L X] holds inside a transaction of state [s]: [V] is the contents
    of every block below the log, [B] the blocks whose buffer the caller holds,
    [L] the blocks logged so far and [X] the held blocks modified since they were
    last logged.  The lemmas are the rules the file system is verified with: read
    a block, change it, log it, release it; and begin and commit.  [steps] is the
    part a crash sees: until the commit only log sectors reach the disk. *)

From S2P Require Import Prelude Spin Sched Dll Bio Log.

(** * Effects on the disk *)

Record steps (s s' : logst) : Prop := {
  sp_start : lg_start s' = lg_start s;
  sp_size : lg_size s' = lg_size s;
  sp_env : same_env (lg_bio s) (lg_bio s');
  sp_log : ∃ W, io_writes (lg_bio s') = io_writes (lg_bio s) ++ W ∧
    io_disk (lg_bio s') = apply_writes (io_disk (lg_bio s)) W ∧
    log_writes (lg_start s) (lg_size s) W;
}.

#[export] Instance steps_refl : Reflexive steps.
Proof.
  intros s. split; [done|done|apply same_env_refl|]. exists []. rewrite app_nil_r.
  split; [done|]. split; [done|]. by apply Forall_nil.
Qed.
#[export] Instance steps_trans : Transitive steps.
Proof.
  intros s1 s2 s3 [E1 Z1 N1 (W1 & A1 & D1 & L1)] [E2 Z2 N2 (W2 & A2 & D2 & L2)].
  split; [congruence|congruence|by eapply same_env_trans|]. exists (W1 ++ W2).
  split; [by rewrite A2, A1, app_assoc|]. split; [by rewrite D2, D1, apply_app|].
  rewrite E1, Z1 in L2. by apply Forall_app.
Qed.
(** A step that writes nothing. *)
Lemma steps_quiet s s' : lg_start s' = lg_start s → lg_size s' = lg_size s →
  same_env (lg_bio s) (lg_bio s') → io_disk (lg_bio s') = io_disk (lg_bio s) →
  io_writes (lg_bio s') = io_writes (lg_bio s) → steps s s'.
Proof.
  intros. split; [done..|]. exists []. rewrite app_nil_r. do 2 (split; [done|]). by apply Forall_nil.
Qed.

(** * The invariant *)

Record txw (s : logst) (U : Z → list Z) (secs : list Z) (V : Z → list Z) (B L X : gset Z) : Prop := {
  w_set : L = list_to_set secs;
  w_rep : brep (lg_bio s) U B L;
  w_view : ∀ n, n < lg_start s → U n = V n;
  w_blk : ∀ n, indisk (lg_bio s) n → length (U n) = 512%nat;
  w_geo : lgeo s;
  w_log : logged s secs;
  w_ok : secs_ok s secs;
  w_busy : lg_busy s = 1;
  w_lock : log_lock ∉ m_held (b_mach (io_base (lg_bio s)));
  w_copy : ∀ i v, secs !! i = Some v → v ∉ X → U (lg_start s + Z.of_nat i + 1) = U v;
  w_hdr : hdr_holds (U (lg_start s)) [];
  w_below : ∀ n, n ∈ B → n < lg_start s;
  w_mod : X ⊆ B;
  w_sync : ∀ n, n ∈ B → n ∉ X → n ∈ L ∨ U n = ondisk (lg_bio s) n;
}.
Definition tx s V B L X : Prop := ∃ U secs, txw s U secs V B L X.

Lemma tx_view s V V' B L X : (∀ n, n < lg_start s → V n = V' n) → tx s V B L X → tx s V' B L X.
Proof.
  intros He (U & secs & []). exists U, secs. split; try done. intros n Hn. by rewrite <- He, w_view0.
Qed.
Lemma tx_intx s V secs : intx s V secs → tx s V ∅ (list_to_set secs) ∅.
Proof.
  intros [[Hq Hb] Hg Hl Ho Hu [Hi Hk] Hc Hh]. exists V, secs. split; try done.
  - intros i v Hv _. by apply Hc.
Qed.
Lemma intx_tx s V L : tx s V ∅ L ∅ → ∃ U secs, intx s U secs ∧ L = list_to_set secs ∧
  ∀ n, n < lg_start s → U n = V n.
Proof.
  intros (U & secs & []). exists U, secs. split; [|by rewrite w_set0]. subst L. split; try done.
  - split; [by apply w_rep0|done].
  - intros i v Hv. apply w_copy0; [done|]. set_solver.
Qed.
Lemma tx_unmod s V B L X n : tx s V B L X → n ∉ B → n ∉ X.
Proof. intros (U & secs & []) Hn Hx. by apply Hn, w_mod0. Qed.
Lemma tx_block s V B L X n : tx s V B L X → 0 ≤ n < lg_start s → length (V n) = 512%nat.
Proof.
  intros (U & secs & []) Hn. rewrite <- w_view0 by lia. apply w_blk0.
  destruct w_geo0. unfold indisk. lia.
Qed.
Lemma tx_in s V B L X n : tx s V B L X → 0 ≤ n < lg_start s → indisk (lg_bio s) n.
Proof. intros (U & secs & []) Hn. destruct w_geo0. unfold indisk. lia. Qed.
Lemma tx_held s V B L X : tx s V B L X → ∀ b n, holds (lg_bio s) b n →
  n ∈ B ∧ 0 ≤ n < lg_start s ∧ get_buf b (lg_bio s) = Ok (bufof (lg_bio s) b) (lg_bio s) ∧
  b_data (bufof (lg_bio s) b) = V n.
Proof.
  intros (U & secs & []) b n Hb. destruct (held_in _ U B L b n w_rep0 Hb) as (HB & Hin & Hd & _).
  split; [done|]. specialize (w_below0 n HB). unfold indisk in Hin. split; [lia|].
  split; [apply get_buf_ok; [apply w_rep0|by eapply held_buf]|]. rewrite Hd. by apply w_view0.
Qed.

(** Blocks whose buffer stays held across an operation. *)
Definition keep (s s' : logst) : Prop := ∀ b n, holds (lg_bio s) b n → holds (lg_bio s') b n.

(** * The rules *)

Section rules.
Context {WF : WaitFuel}.

Lemma zoom_bio {A} (m : M bio A) s a t : m (lg_bio s) = Ok a t → (zoom m : M logst A) s = Ok a (set_lg_bio t s).
Proof. unfold zoom; simpl. by intros ->. Qed.
Lemma lgeo_bio s t : lgeo s → zlen (io_disk t) = zlen (io_disk (lg_bio s)) → lgeo (set_lg_bio t s).
Proof. intros [] E. split; simpl; try done. by rewrite E. Qed.

Lemma tx_bread s V B L X sec : tx s V B L X → 0 ≤ sec < lg_start s → sec ∉ B →
  (size (B ∪ L) < 10)%nat ∨ sec ∈ L →
  ∃ b s', (zoom (bread 1 sec) : M logst Z) s = Ok b s' ∧ tx s' V ({[sec]} ∪ B) L X ∧
    holds (lg_bio s') b sec ∧ b_data (bufof (lg_bio s') b) = V sec ∧ steps s s' ∧ keep s s'.
Proof.
  intros Htx Hsec HB Hroom. pose proof (tx_in _ _ _ _ _ _ Htx Hsec) as Hin.
  destruct Htx as (U & secs & []).
  destruct (bread_ok (lg_bio s) U B L sec w_rep0 Hin HB Hroom) as (b & t & R & Q & Hh & D & W & E & K).
  exists b, (set_lg_bio t s). split; [by apply zoom_bio|].
  assert (T : tx (set_lg_bio t s) V ({[sec]} ∪ B) L X).
  { exists U, secs. pose proof E as (Ez & _ & Em & _).
    split; simpl; try done; [|by apply lgeo_bio|by destruct w_ok0|by rewrite Em| |set_solver|].
    - intros n Hn. apply w_blk0. unfold indisk in *. by rewrite <- Ez.
    - intros n [Hn|Hn]%elem_of_union; [|by apply w_below0]. apply elem_of_singleton in Hn. lia.
    - intros n Hn HM. unfold ondisk. rewrite D. apply elem_of_union in Hn as [Hn|Hn]; [|by apply w_sync0].
      apply elem_of_singleton in Hn as ->. destruct (decide (sec ∈ L)); [by left|right].
      by apply (br_clean _ _ _ _ w_rep0). }
  split; [done|]. split; [done|]. split; [by apply (tx_held _ _ _ _ _ T b sec)|].
  split; [by apply steps_quiet|done].
Qed.

Lemma tx_put s V B L X b sec f : tx s V B L X → holds (lg_bio s) b sec →
  length (f (V sec)) = 512%nat →
  ∃ s', (zoom (upd_buf b (λ r, set_b_data (f (b_data r)) r)) : M logst unit) s = Ok tt s' ∧
    tx s' (vupd V sec (f (V sec))) B L ({[sec]} ∪ X) ∧ holds (lg_bio s') b sec ∧ steps s s' ∧ keep s s'.
Proof.
  intros Htx Hb Hlen. destruct (tx_held _ _ _ _ _ Htx b sec Hb) as (HB & Hsec & Hget & Hdat).
  destruct Htx as (U & secs & []).
  destruct (set_data_ok (lg_bio s) U B L b sec w_rep0 Hb (f (V sec))) as (t & R & Q & Hh & D & W & E & K).
  exists (set_lg_bio t s). split.
  { apply zoom_bio. rewrite <- R. unfold upd_buf. rewrite !(bind_ok _ _ _ _ _ Hget). by rewrite Hdat. }
  split; [|split; [done|split; [by apply steps_quiet|]]].
  - exists (vupd U sec (f (V sec))), secs. pose proof E as (Ez & _ & Em & _).
    split; simpl; try done; [| |by apply lgeo_bio|by destruct w_ok0|by rewrite Em| | |set_solver|].
    + intros n Hn. unfold vupd. destruct (n =? sec); [done|]. by apply w_view0.
    + intros n Hn. unfold vupd. destruct (n =? sec); [done|]. apply w_blk0. unfold indisk in *. by rewrite <- Ez.
    + intros i v Hv Hm. unfold vupd.
      destruct (Z.eqb_spec v sec); [set_solver|]. destruct (Z.eqb_spec (lg_start s + Z.of_nat i + 1) sec); [lia|].
      apply w_copy0; [done|set_solver].
    + unfold vupd. destruct (Z.eqb_spec (lg_start s) sec); [lia|done].
    + intros n Hn Hm. unfold vupd, ondisk. rewrite D. destruct (Z.eqb_spec n sec); [set_solver|].
      apply w_sync0; [done|set_solver].
  - intros j n Hj. destruct (decide (j = b)) as [->|]; [|by apply K].
    assert (n = sec) as -> by (destruct Hj as [(_ & _ & <-) _], Hb as [(_ & _ & <-) _]; done). done.
Qed.

Lemma tx_log_write s V B L X b sec : tx s V B L X → holds (lg_bio s) b sec →
  (size (B ∪ L) < 10)%nat → Z.of_nat (size L) + 1 < lg_size s →
  ∃ s', log_write b s = Ok tt s' ∧ tx s' V B ({[sec]} ∪ L) (X ∖ {[sec]}) ∧
    holds (lg_bio s') b sec ∧ steps s s' ∧ keep s s'.
Proof.
  intros Htx Hb Hsz Hcap. destruct (tx_held _ _ _ _ _ Htx b sec Hb) as (HB & Hsec & _ & Hdat).
  pose proof (tx_block _ _ _ _ _ _ Htx Hsec) as H512.
  destruct Htx as (U & secs & []). subst L. pose proof w_ok0 as [Hdata Hnd Hfit].
  rewrite size_list_to_set in Hcap by done. set (secs' := add_sec secs sec).
  assert (Hsub : ∀ v, v ∈ secs' ↔ v = sec ∨ v ∈ secs) by (intros v; apply elem_add_sec).
  assert (Hnd' : NoDup secs') by (by apply add_sec_NoDup).
  assert (Hlen' : (length secs' ≤ S (length secs) ∧ length secs' < 10)%nat).
  { split; [unfold secs', add_sec; case_bool_decide; rewrite ?length_app; simpl; lia|].
    rewrite <- (size_list_to_set (C:=gset Z)) by done. unfold secs'. rewrite add_sec_set.
    eapply Nat.le_lt_trans; [|exact Hsz]. apply subseteq_size. set_solver. }
  assert (Hok' : secs_ok s secs').
  { split; [|done|unfold zlen; lia]. intros v [->|Hv]%Hsub; [done|by apply Hdata]. }
  destruct (log_write_ok s U B secs b sec w_rep0 Hb w_below0 Hsz w_geo0 w_log0 Hok' (proj2 Hlen')
    ltac:(unfold zlen; lia) w_busy0) as (s' & R & G & Lg & Es & Ez & Hbu & Q & K & D & W & E).
  set (lsec := lg_start s + Z.of_nat (slot secs sec) + 1) in *.
  assert (Hls : lg_start s < lsec < lg_start s + lg_size s).
  { pose proof (lookup_lt_Some _ _ _ (add_sec_slot secs sec)). fold secs' in H. pose proof (so_fit _ _ Hok').
    unfold lsec, zlen in *. lia. }
  pose proof E as (Ed & _ & Em & _). exists s'. split; [done|]. split; [|split; [by apply K|split; [|done]]].
  2: { split; [done..|]. exists [(lsec, U sec)]. split; [done|]. split; [done|]. apply Forall_cons.
       split; [|by apply Forall_nil]. split; [done|]. simpl. by rewrite w_view0 by lia. }
  exists (vupd U lsec (U sec)), secs'. fold secs' in Lg, Q.
  split; simpl; try done; [|by rewrite <- add_sec_set| | |by destruct Hok'; split; rewrite ?Es, ?Ez|by rewrite Em
    | | |by rewrite Es|set_solver|].
  - by rewrite <- add_sec_set.
  - intros n Hn. rewrite Es in Hn. unfold vupd. destruct (Z.eqb_spec n lsec); [lia|]. by apply w_view0.
  - intros n Hn. unfold vupd. destruct (n =? lsec); [by rewrite w_view0 by lia|]. apply w_blk0.
    unfold indisk in *. by rewrite <- Ed.
  - intros i v Hi Hv. rewrite Es. pose proof (so_data _ _ Hok' v (list_elem_of_lookup_2 _ _ _ Hi)).
    unfold vupd. destruct (Z.eqb_spec v lsec); [lia|].
    destruct (Z.eqb_spec (lg_start s + Z.of_nat i + 1) lsec) as [He|He].
    + assert (i = slot secs sec) as -> by (unfold lsec in He; lia).
      unfold secs' in Hi. rewrite add_sec_slot in Hi. by simplify_eq.
    + assert (v ≠ sec).
      { intros ->. apply He. unfold lsec. do 2 f_equal. f_equal. eapply NoDup_lookup; [exact Hnd'|exact Hi|].
        apply add_sec_slot. }
      apply w_copy0; [|set_solver]. unfold secs', add_sec in Hi. case_bool_decide; [done|].
      apply lookup_app_Some in Hi as [?|[_ Hi]]; [done|].
      apply list_lookup_singleton_Some in Hi as [_ <-]. done.
  - rewrite Es. unfold vupd. destruct (Z.eqb_spec (lg_start s) lsec); [lia|done].
  - intros n Hn HM. destruct (decide (n = sec)) as [->|]; [left; set_solver|].
    assert (n < lg_start s) by (by apply w_below0).
    destruct (w_sync0 n Hn) as [?|Hs]; [set_solver|left; set_solver|right].
    unfold vupd, ondisk. rewrite D. destruct (Z.eqb_spec n lsec); [lia|]. by rewrite znth_zupd_ne by lia.
Qed.

Lemma tx_brelse s V B L X b sec : tx s V B L X → holds (lg_bio s) b sec → sec ∉ X →
  ∃ s', (zoom (brelse b) : M logst unit) s = Ok tt s' ∧ tx s' V (B ∖ {[sec]}) L X ∧ steps s s' ∧
    ∀ b' n, n ≠ sec → holds (lg_bio s) b' n → holds (lg_bio s') b' n.
Proof.
  intros (U & secs & []) Hb HM.
  assert (HB : sec ∈ B) by (by apply (held_in _ U B L b sec w_rep0 Hb)).
  destruct (brelse_ok (lg_bio s) U B L b sec w_rep0 Hb) as (t & R & Q & D & W & E & K); [by apply w_sync0|].
  exists (set_lg_bio t s). split; [by apply zoom_bio|]. split; [|split; [by apply steps_quiet|]].
  - exists U, secs. pose proof E as (Ez & _ & Em & _).
    split; simpl; try done; [|by apply lgeo_bio|by destruct w_ok0|by rewrite Em| |set_solver|].
    + intros n Hn. apply w_blk0. unfold indisk in *. by rewrite <- Ez.
    + intros n Hn. apply w_below0. set_solver.
    + intros n Hn HMn. unfold ondisk. rewrite D. apply w_sync0; [set_solver|done].
  - intros b' n Hn Hh. apply K; [|done]. intros ->. destruct Hh as [(_ & _ & <-) _], Hb as [(_ & _ & Eb) _]. done.
Qed.

Lemma tx_begin s V : settled s V → ∃ s', begin_trans s = Ok tt s' ∧ tx s' V ∅ ∅ ∅ ∧ steps s s'.
Proof.
  intros Hs. destruct (begin_tx s V Hs) as (s' & R & T & Es & Ez & D & W). exists s'.
  split; [done|]. split; [by apply tx_intx in T|].
  destruct (begin_trans_ok s (st_idle _ _ Hs) (st_busy _ _ Hs)) as (b & R' & _ & E).
  rewrite R in R'. simplify_eq. by apply steps_quiet.
Qed.

(** ** The end of a transaction *)

(** Until the commit a crash finds the contents from before the transaction. *)
Lemma tx_crash_before b s V W : idle b → log_lock ∉ m_held (b_mach b) → settled s V →
  log_writes (lg_start s) (lg_size s) W → survives b (apply_writes (io_disk (lg_bio s)) W) (lg_start s) V.
Proof.
  intros Hib Hlb Hs HW. pose proof (lg_fit _ (st_geo _ _ Hs)). pose proof (lg_room _ (st_geo _ _ Hs)).
  pose proof (lg_pos _ (st_geo _ _ Hs)).
  destruct (crash_body b (io_disk (lg_bio s)) (lg_start s) (lg_size s) W Hib Hlb (st_disk _ _ Hs)) as (r & Rr & Hr); [|done|].
  - rewrite <- (settled_blk s V) by (done || unfold indisk; lia). apply Hs.
  - exists r. split; [done|]. intros n Hn. rewrite Hr by done. symmetry. apply (settled_blk s V); [done|].
    unfold indisk. lia.
Qed.

(** Commit: the writes since the beginning have a commit point [c]; a crash after
    at most [c] of them leaves the old contents [V0], a later one the new [V]. *)
Lemma tx_commit s0 V0 s V L : settled s0 V0 → steps s0 s → tx s V ∅ L ∅ → 1 ∉ L → (size L < 10)%nat →
  ∃ s' V' W c, commit_trans s = Ok tt s' ∧ settled s' V' ∧ lg_start s' = lg_start s0 ∧ lg_size s' = lg_size s0 ∧
    (∀ n, 0 ≤ n < lg_start s0 → V' n = V n) ∧ same_env (lg_bio s) (lg_bio s') ∧
    io_writes (lg_bio s') = io_writes (lg_bio s0) ++ W ∧
    ∀ b k, idle b → log_lock ∉ m_held (b_mach b) →
      survives b (apply_writes (io_disk (lg_bio s0)) (take k W)) (lg_start s0)
        (if decide (k ≤ c)%nat then V0 else V).
Proof.
  intros Hs [Es Ez _ (W1 & Wr1 & D1 & HW1)] T H1 Hsz.
  destruct (intx_tx s V L T) as (U & secs & Tx & -> & HU).
  assert (Hd1 : disk_ok (io_disk (lg_bio s)) (lg_start s) (lg_size s)).
  { rewrite D1, Es, Ez. apply disk_ok_apply; [apply Hs|]. eapply log_writes_safe; [apply Hs|done]. }
  assert (Hfit : lg_start s0 + lg_size s0 ≤ zlen (io_disk (lg_bio s0))) by apply (st_geo _ _ Hs).
  destruct (decide (secs = [])) as [->|Hne].
  - destruct (commit_empty s U Tx Hd1) as (s' & R & S' & Es' & Ez' & D' & W' & Ee).
    exists s', U, W1, (length W1). split; [done|]. split; [done|]. split; [congruence|]. split; [congruence|].
    split; [intros n Hn; apply HU; lia|]. split; [done|]. split; [congruence|].
    intros b k Hib Hlb. destruct (decide (k ≤ length W1)%nat).
    { apply tx_crash_before; [done|done|done|by apply Forall_take]. }
    rewrite take_ge by lia. destruct (tx_crash_before b s0 V0 W1 Hib Hlb Hs HW1) as (r & Rr & Hr).
    exists r. split; [done|]. intros x Hx. rewrite Hr by done. pose proof (lg_pos _ (st_geo _ _ Hs)).
    assert (Hin : 0 ≤ x < zlen (io_disk (lg_bio s0))) by (pose proof (lg_room _ (st_geo _ _ Hs)); lia).
    rewrite (settled_blk s0 V0) by done. rewrite <- HU by lia.
    rewrite (settled_blk s' U) by (done || unfold indisk; rewrite D', D1, zlen_apply; done).
    rewrite D', D1, blk_writes by (eapply log_writes_safe; [apply Hs|done]). symmetry. apply vapply_other.
    eapply log_writes_data; [done|lia].
  - assert (Hns : 1 ∉ secs) by (intros Hin; apply H1; by apply elem_of_list_to_set).
    rewrite size_list_to_set in Hsz by (destruct Tx as [? ? ? []]; done).
    destruct (commit_full s U secs Tx Hne Hsz Hns Hd1) as (s' & V' & R & S' & Es' & Ez' & HV' & D' & W' & Ee & Hcr).
    set (Wc := commit_writes (lg_start s) U secs) in *.
    exists s', V', (W1 ++ Wc), (length W1). split; [done|]. split; [done|]. split; [congruence|]. split; [congruence|].
    split; [intros n Hn; rewrite HV', HU by lia; done|]. split; [done|]. split; [by rewrite W', Wr1, app_assoc|].
    intros b k Hib Hlb. destruct (decide (k ≤ length W1)%nat).
    { apply tx_crash_before; [done|done|done|]. rewrite take_app_le by done. by apply Forall_take. }
    rewrite take_app_ge by lia. rewrite apply_app, <- D1.
    destruct (Hcr b (k - length W1)%nat Hib Hlb ltac:(lia)) as (r & Rr & Hr). exists r. split; [done|].
    intros x Hx. rewrite Hr, HU by lia. done.
Qed.

(** A transaction begun right after a boot from a disk whose log is empty. *)
Lemma boot_begin b d start size : idle b → log_lock ∉ m_held (b_mach b) → disk_ok d start size →
  committed d start size [] →
  ∃ r s, boot (power_on b d) = Ok tt r ∧ begin_trans r = Ok tt s ∧ tx s (blk d) ∅ ∅ ∅ ∧
    lg_start s = start ∧ lg_size s = size.
Proof.
  intros Hi Hl Hd Hc. destruct (boot_ok b d start size [] Hi Hl Hd Hc) as (r & R & Es & Ez & Hs & _).
  destruct (tx_begin r _ (Hs (not_elem_of_nil 1))) as (s & R' & T & [Es' Ez' _ _]).
  exists r, s. split; [done|]. split; [done|]. split; [|by rewrite Es', Ez'].
  eapply tx_view; [|exact T]. intros n Hn. simpl. unfold vupd. destruct (Z.eqb_spec n start); [lia|done].
Qed.
End rules.
