(* ===== verification/Fs.v ===== *)
(** The file system: [fs.c] above the block layer (whose [readsb] is in [Log]).

    Inodes are the entries of [icache.inode], named by their index; a null inode
    pointer is [None].  A byte buffer the code fills or reads through a pointer
    ([readi]'s [dst], [writei]'s [src]) is the list of its bytes. *)

From S2P Require Import Prelude Spin Sched Mem Str Dll Bio Log.

(** * Data ([fs.h], [file.h], [stat.h]) *)

Definition NINODE : Z := 50.
Definition NDEV : Z := 10.
Definition ROOTINO : Z := 1.
Definition NDIRECT : Z := 12.
Definition NINDIRECT : Z := BSIZE / 4.
Definition MAXFILE : Z := NDIRECT + NINDIRECT.
Definition DINODE : Z := 64.                  (* sizeof(struct dinode) *)
Definition IPB : Z := BSIZE / DINODE.
Definition BPB : Z := BSIZE * 8.
Definition DIRSIZ : Z := 14.
Definition DIRENT : Z := 16.                  (* sizeof(struct dirent) *)
Definition IBLOCK (i : Z) : Z := u32 (i / IPB + 2).
Definition BBLOCK (b ninodes : Z) : Z := u32 (b / BPB + ninodes / IPB + 3).

Definition T_DIR : Z := 1.
Definition T_FILE : Z := 2.
Definition T_DEV : Z := 3.
Definition I_BUSY : Z := 0x1.
Definition I_VALID : Z := 0x2.

(** [struct inode], the in-memory copy. *)
Record inode := Inode {
  i_dev : Z;
  i_inum : Z;
  i_ref : Z;
  i_flags : Z;
  i_type : Z;
  i_major : Z;
  i_minor : Z;
  i_nlink : Z;
  i_size : Z;
  i_addrs : list Z;          (* addrs[NDIRECT+1] *)
}.
Definition set_i_dev v r := Inode v (i_inum r) (i_ref r) (i_flags r) (i_type
  r) (i_major r) (i_minor r) (i_nlink r) (i_size r) (i_addrs r).
Definition set_i_inum v r := Inode (i_dev r) v (i_ref r) (i_flags r) (i_type
  r) (i_major r) (i_minor r) (i_nlink r) (i_size r) (i_addrs r).
Definition set_i_ref v r := Inode (i_dev r) (i_inum r) v (i_flags r) (i_type
  r) (i_major r) (i_minor r) (i_nlink r) (i_size r) (i_addrs r).
Definition set_i_flags v r := Inode (i_dev r) (i_inum r) (i_ref r) v (i_type
  r) (i_major r) (i_minor r) (i_nlink r) (i_size r) (i_addrs r).
Definition set_i_type v r := Inode (i_dev r) (i_inum r) (i_ref r) (i_flags r)
  v (i_major r) (i_minor r) (i_nlink r) (i_size r) (i_addrs r).
Definition set_i_major v r := Inode (i_dev r) (i_inum r) (i_ref r) (i_flags r)
  (i_type r) v (i_minor r) (i_nlink r) (i_size r) (i_addrs r).
Definition set_i_minor v r := Inode (i_dev r) (i_inum r) (i_ref r) (i_flags r)
  (i_type r) (i_major r) v (i_nlink r) (i_size r) (i_addrs r).
Definition set_i_nlink v r := Inode (i_dev r) (i_inum r) (i_ref r) (i_flags r)
  (i_type r) (i_major r) (i_minor r) v (i_size r) (i_addrs r).
Definition set_i_size v r := Inode (i_dev r) (i_inum r) (i_ref r) (i_flags r)
  (i_type r) (i_major r) (i_minor r) (i_nlink r) v (i_addrs r).
Definition set_i_addrs v r := Inode (i_dev r) (i_inum r) (i_ref r) (i_flags r)
  (i_type r) (i_major r) (i_minor r) (i_nlink r) (i_size r) v.

Record stat := Stat { st_type : Z; st_dev : Z; st_ino : Z; st_nlink : Z; st_size : Z }.

Record fsst := FsSt {
  fs_log : logst;
  fs_inode : list inode;     (* icache.inode[NINODE] *)
}.
Definition set_fs_log v r := FsSt v (fs_inode r).
Definition set_fs_inode v r := FsSt (fs_log r) v.

#[export] Program Instance lens_fs_log : Lens fsst logst :=
  {| lget := fs_log; lset := set_fs_log |}.
Solve All Obligations with (by intros; repeat match goal with b : fsst |- _ => destruct b end).
#[export] Program Instance lens_fs_bio : Lens fsst bio :=
  {| lget := λ s, lg_bio (fs_log s); lset := λ b s, set_fs_log (set_lg_bio b (fs_log s)) s |}.
Solve All Obligations with
  (by intros; repeat match goal with b : fsst |- _ => destruct b | b : logst |- _ => destruct b end).
#[export] Program Instance lens_fs_base : Lens fsst base :=
  {| lget := λ s, io_base (lg_bio (fs_log s));
     lset := λ b s, set_fs_log (set_lg_bio (set_io_base b (lg_bio (fs_log s))) (fs_log s)) s |}.
Solve All Obligations with
  (by intros; repeat match goal with b : fsst |- _ => destruct b | b : logst |- _ => destruct b
                     | b : bio |- _ => destruct b end).

Definition icache_lock : objaddr := ("icache", 0).
Definition inode_chan (i : Z) : objaddr := ("icache.inode", i).

Definition get_inode (i : Z) : M fsst inode :=
  let* l := gets fs_inode in must "inode" (znth l i).
Definition upd_inode (i : Z) (f : inode → inode) : M fsst unit :=
  let* r := get_inode i in
  modify (fun s => set_fs_inode (zupd i (f r) (fs_inode s)) s).
Definition iflag (m : Z) (r : inode) : bool := ztrue (Z.land (i_flags r) m).

(** ** The on-disk inode at byte [o] of a block *)

Fixpoint get_words (n : nat) (o : nat) (d : list Z) : list Z :=
  match n with O => [] | S n => get32 o d :: get_words n (o + 4) d end.
Fixpoint put_words (o : nat) (l : list Z) (d : list Z) : list Z :=
  match l with [] => d | v :: l => put_words (o + 4) l (put32 o v d) end.

(** [dip->type = ip->type; ...; memmove(dip->addrs, ip->addrs, ...)] *)
Definition put_dinode (o : nat) (ip : inode) (d : list Z) : list Z :=
  put_words (o + 12) (i_addrs ip)
    (put32 (o + 8) (i_size ip)
      (put16 (o + 6) (i_nlink ip)
        (put16 (o + 4) (i_minor ip)
          (put16 (o + 2) (i_major ip)
            (put16 o (i_type ip) d))))).
(** [ip->type = dip->type; ...; memmove(ip->addrs, dip->addrs, ...)] *)
Definition get_dinode (o : nat) (d : list Z) (ip : inode) : inode :=
  Inode (i_dev ip) (i_inum ip) (i_ref ip) (i_flags ip)
    (s16 (get16 o d)) (s16 (get16 (o + 2) d)) (s16 (get16 (o + 4) d)) (s16 (get16 (o + 6) d))
    (get32 (o + 8) d) (get_words 13 (o + 12) d).
(** The offset of inode [inum] in its block. *)
Definition dip_off (inum : Z) : nat := Z.to_nat (inum mod IPB * DINODE).

(** * Blocks *)

Section blocks.
Context {WF : WaitFuel}.

Definition bzero (dev bno : Z) : M logst unit :=
  let* bp := zoom (bread dev (u32 bno)) in
  zoom (upd_buf bp (set_b_data (replicate (Z.to_nat BSIZE) 0))) ;;
  log_write bp ;;
  zoom (brelse bp).

Definition get_byte (bp i : Z) : M logst Z :=
  let* r := zoom (get_buf bp) in must "bp->data" (znth (b_data r) i).
Definition set_byte (bp i v : Z) : M logst unit :=
  let* _ := get_byte bp i in
  zoom (upd_buf bp (fun r => set_b_data (zupd i (u8 v) (b_data r)) r)).

(** The loop over the bits of one bitmap block; the result is the block found. *)
Definition balloc_bits (dev size bp b : Z) : M logst (option Z) :=
  for_n (Z.to_nat (Z.min BPB (size - b))) 0 (fun bi =>
    let m := Z.shiftl 1 (bi mod 8) in
    let* v := get_byte bp (bi / 8) in
    if Z.land v m =? 0 then
      set_byte bp (bi / 8) (Z.lor v m) ;;
      log_write bp ;;
      zoom (brelse bp) ;;
      bzero dev (b + bi) ;;
      ret (Some (b + bi))
    else ret None).
(** [for (b = 0; b < sb.size; b += BPB)] runs [sb.size / BPB] times, rounded up. *)
Definition balloc (dev : Z) : M logst Z :=
  let* sb := zoom (readsb dev) in
  let* r := for_to 0 ((sb_size sb + (BPB - 1)) / BPB) (fun k =>
    let b := k * BPB in
    let* bp := zoom (bread dev (BBLOCK b (sb_ninodes sb))) in
    let* r := balloc_bits dev (sb_size sb) bp b in
    match r with
    | Some x => ret (Some x)
    | None => zoom (brelse bp) ;; ret None
    end) in
  match r with Some x => ret x | None => panic "balloc: out of blocks" end.

Definition bfree (dev b : Z) : M logst unit :=
  let* sb := zoom (readsb dev) in
  let* bp := zoom (bread dev (BBLOCK b (sb_ninodes sb))) in
  let bi := b mod BPB in
  let m := Z.shiftl 1 (bi mod 8) in
  let* v := get_byte bp (bi / 8) in
  panic_if (Z.land v m =? 0) "freeing free block" ;;
  set_byte bp (bi / 8) (Z.land v (Z.lnot m)) ;;
  log_write bp ;;
  zoom (brelse bp).
End blocks.

(** * Inodes *)

Section inodes.
Context {WF : WaitFuel}.

Definition iinit : M fsst unit := binitlock icache_lock.

(** The scan of [iget]: the entry that caches the inode, and the first free
    entry seen before the scan stopped. *)
Fixpoint iget_scan (fuel : nat) (ip dev inum : Z) (empty : option Z) : M fsst (option Z * option Z) :=
  match fuel with
  | O => ret (None, empty)
  | S fuel =>
      let* r := get_inode ip in
      if (0 <? i_ref r) && (i_dev r =? dev) && (i_inum r =? inum) then ret (Some ip, empty)
      else
        let empty := match empty with
                     | None => if i_ref r =? 0 then Some ip else None
                     | _ => empty end in
        iget_scan fuel (ip + 1) dev inum empty
  end.
Definition iget (dev inum : Z) : M fsst Z :=
  bacquire icache_lock ;;
  let* (hit, empty) := iget_scan (Z.to_nat NINODE) 0 dev inum None in
  match hit with
  | Some ip =>
      upd_inode ip (fun r => set_i_ref (s32 (i_ref r + 1)) r) ;;
      brelease icache_lock ;;
      ret ip
  | None =>
      match empty with
      | None => panic "iget: no inodes"
      | Some ip =>
          upd_inode ip (set_i_dev dev) ;;
          upd_inode ip (set_i_inum inum) ;;
          upd_inode ip (set_i_ref 1) ;;
          upd_inode ip (set_i_flags 0) ;;
          brelease icache_lock ;;
          ret ip
      end
  end.

Definition ialloc (dev type : Z) : M fsst Z :=
  let* sb := zoom (readsb dev) in
  let* r := for_to 1 (sb_ninodes sb) (fun inum =>
    let* bp := zoom (bread dev (IBLOCK inum)) in
    let* b := zoom (get_buf bp) in
    let o := dip_off inum in
    if s16 (get16 o (b_data b)) =? 0 then
      zoom (upd_buf bp (fun b => set_b_data
        (put16 o type (splice o (replicate (Z.to_nat DINODE) 0) (b_data b))) b)) ;;
      zoom (log_write bp) ;;
      zoom (brelse bp) ;;
      let* ip := iget dev inum in
      ret (Some ip)
    else
      zoom (brelse bp) ;;
      ret None) in
  match r with Some ip => ret ip | None => panic "ialloc: no inodes" end.

Definition iupdate (ip : Z) : M fsst unit :=
  let* r := get_inode ip in
  let* bp := zoom (bread (i_dev r) (IBLOCK (i_inum r))) in
  zoom (upd_buf bp (fun b => set_b_data (put_dinode (dip_off (i_inum r)) r (b_data b)) b)) ;;
  zoom (log_write bp) ;;
  zoom (brelse bp).

Definition idup (ip : Z) : M fsst Z :=
  bacquire icache_lock ;;
  upd_inode ip (fun r => set_i_ref (s32 (i_ref r + 1)) r) ;;
  brelease icache_lock ;;
  ret ip.

Fixpoint ilock_wait (fuel : nat) (ip : Z) : M fsst unit :=
  match fuel with
  | O => out_of_fuel
  | S fuel =>
      let* r := get_inode ip in
      if iflag I_BUSY r then zoom (sleep (inode_chan ip) (Some icache_lock)) ;; ilock_wait fuel ip
      else ret tt
  end.
Definition ilock (ip : option Z) : M fsst unit :=
  match ip with
  | None => panic "ilock"
  | Some ip =>
      let* r := get_inode ip in
      panic_if (i_ref r <? 1) "ilock" ;;
      bacquire icache_lock ;;
      ilock_wait (S wait_fuel) ip ;;
      upd_inode ip (fun r => set_i_flags (Z.lor (i_flags r) I_BUSY) r) ;;
      brelease icache_lock ;;
      let* r := get_inode ip in
      when (negb (iflag I_VALID r)) (
        let* bp := zoom (bread (i_dev r) (IBLOCK (i_inum r))) in
        let* b := zoom (get_buf bp) in
        upd_inode ip (get_dinode (dip_off (i_inum r)) (b_data b)) ;;
        zoom (brelse bp) ;;
        upd_inode ip (fun r => set_i_flags (Z.lor (i_flags r) I_VALID) r) ;;
        let* r := get_inode ip in
        panic_if (i_type r =? 0) "ilock: no type")
  end.

Definition iunlock (ip : option Z) : M fsst unit :=
  match ip with
  | None => panic "iunlock"
  | Some ip =>
      let* r := get_inode ip in
      panic_if (negb (iflag I_BUSY r) || (i_ref r <? 1)) "iunlock" ;;
      bacquire icache_lock ;;
      upd_inode ip (fun r => set_i_flags (Z.land (i_flags r) (Z.lnot I_BUSY)) r) ;;
      zoom (wakeup (inode_chan ip)) ;;
      brelease icache_lock
  end.

(** ** Inode content *)

Definition get_addr (ip i : Z) : M fsst Z :=
  let* r := get_inode ip in must "ip->addrs" (znth (i_addrs r) i).
Definition set_addr (ip i v : Z) : M fsst unit :=
  let* _ := get_addr ip i in
  upd_inode ip (fun r => set_i_addrs (zupd i v (i_addrs r)) r).
(** [a[i]] of the indirect block in buffer [bp]. *)
Definition get_word (bp i : Z) : M fsst Z :=
  let* b := zoom (get_buf bp) in ret (get32 (Z.to_nat (4 * i)) (b_data b)).

(** [if ((addr = ip->addrs[i]) == 0) ip->addrs[i] = addr = balloc(ip->dev)] *)
Definition addr_or_alloc (ip i : Z) : M fsst Z :=
  let* addr := get_addr ip i in
  if addr =? 0 then
    let* r := get_inode ip in
    let* addr := zoom (balloc (i_dev r)) in
    set_addr ip i addr ;;
    ret addr
  else ret addr.
Definition bmap (ip bn : Z) : M fsst Z :=
  if bn <? NDIRECT then addr_or_alloc ip bn
  else
    let bn := u32 (bn - NDIRECT) in
    if bn <? NINDIRECT then
      let* addr := addr_or_alloc ip NDIRECT in
      let* r := get_inode ip in
      let* bp := zoom (bread (i_dev r) addr) in
      let* addr := get_word bp bn in
      let* addr :=
        (if addr =? 0 then
           let* addr := zoom (balloc (i_dev r)) in
           zoom (upd_buf bp (fun b => set_b_data (put32 (Z.to_nat (4 * bn)) addr (b_data b)) b)) ;;
           zoom (log_write bp) ;;
           ret addr
         else ret addr) in
      zoom (brelse bp) ;;
      ret addr
    else panic "bmap: out of range".

Definition itrunc (ip : Z) : M fsst unit :=
  for_all (Z.to_nat NDIRECT) 0 (fun i =>
    let* addr := get_addr ip i in
    when (ztrue addr) (
      let* r := get_inode ip in
      zoom (bfree (i_dev r) addr) ;;
      set_addr ip i 0)) ;;
  let* ind := get_addr ip NDIRECT in
  when (ztrue ind) (
    let* r := get_inode ip in
    let* bp := zoom (bread (i_dev r) ind) in
    for_all (Z.to_nat NINDIRECT) 0 (fun j =>
      let* a := get_word bp j in
      when (ztrue a) (zoom (bfree (i_dev r) a))) ;;
    zoom (brelse bp) ;;
    zoom (bfree (i_dev r) ind) ;;
    set_addr ip NDIRECT 0) ;;
  upd_inode ip (set_i_size 0) ;;
  iupdate ip.

Definition iput (ip : Z) : M fsst unit :=
  bacquire icache_lock ;;
  let* r := get_inode ip in
  when ((i_ref r =? 1) && iflag I_VALID r && (i_nlink r =? 0)) (
    panic_if (iflag I_BUSY r) "iput busy" ;;
    upd_inode ip (fun r => set_i_flags (Z.lor (i_flags r) I_BUSY) r) ;;
    brelease icache_lock ;;
    itrunc ip ;;
    upd_inode ip (set_i_type 0) ;;
    iupdate ip ;;
    bacquire icache_lock ;;
    upd_inode ip (set_i_flags 0) ;;
    zoom (wakeup (inode_chan ip))) ;;
  upd_inode ip (fun r => set_i_ref (s32 (i_ref r - 1)) r) ;;
  brelease icache_lock.

Definition iunlockput (ip : Z) : M fsst unit :=
  iunlock (Some ip) ;; iput ip.

Definition stati (ip : Z) : M fsst stat :=
  let* r := get_inode ip in
  ret (Stat (i_type r) (s32 (i_dev r)) (i_inum r) (i_nlink r) (i_size r)).
End inodes.

(** ** Reading and writing

    [devsw]: the device functions other parts of the kernel install (the console
    does) run on the whole kernel's state [S].  They take the inode, and the
    count or the bytes; a read yields its value and the bytes it stored. *)

Class Devsw (S : Type) := {
  dev_read : Z → option (Z → Z → M S (Z * list Z));
  dev_write : Z → option (Z → list Z → Z → M S Z);
}.

Section content.
Context {WF : WaitFuel} {S : Type} `{LF : Lens S fsst} {DS : Devsw S}.

(** Each iteration copies to the end of a block or of the request, so
    [n / BSIZE + 2] iterations are enough. *)
Definition io_fuel (n : Z) : nat := Z.to_nat (n / BSIZE + 2).

Fixpoint readi_loop (fuel : nat) (ip off n tot : Z) (acc : list Z) : M fsst (list Z) :=
  if tot <? n then
    match fuel with
    | O => out_of_fuel
    | Datatypes.S fuel =>
        let* r := get_inode ip in
        let* bno := bmap ip (off / BSIZE) in
        let* bp := zoom (bread (i_dev r) bno) in
        let m := Z.min (n - tot) (BSIZE - off mod BSIZE) in
        let* b := zoom (get_buf bp) in
        let piece := slice (Z.to_nat (off mod BSIZE)) (Z.to_nat m) (b_data b) in
        zoom (brelse bp) ;;
        readi_loop fuel ip (u32 (off + m)) n (tot + m) (acc ++ piece)
    end
  else ret acc.
(** The value returned and the bytes stored at [dst]. *)
Definition readi (ip off n : Z) : M S (Z * list Z) :=
  let* r := zoom (get_inode ip) in
  if i_type r =? T_DEV then
    if (i_major r <? 0) || (NDEV <=? i_major r) then ret (-1, []) else
    match dev_read (i_major r) with
    | None => ret (-1, [])
    | Some f => f ip (s32 n)
    end
  else if (i_size r <? off) || (u32 (off + n) <? off) then ret (-1, [])
  else
    let n := if i_size r <? u32 (off + n) then u32 (i_size r - off) else n in
    let* l := zoom (readi_loop (io_fuel n) ip off n 0 []) in
    ret (s32 n, l).

(** Returns the offset after the loop. *)
Fixpoint writei_loop (fuel : nat) (ip : Z) (src : list Z) (off n tot : Z) : M fsst Z :=
  if tot <? n then
    match fuel with
    | O => out_of_fuel
    | Datatypes.S fuel =>
        let* r := get_inode ip in
        let* bno := bmap ip (off / BSIZE) in
        let* bp := zoom (bread (i_dev r) bno) in
        let m := Z.min (n - tot) (BSIZE - off mod BSIZE) in
        (if zlen src <? tot + m then undef "src" else
         zoom (upd_buf bp (fun b => set_b_data
           (splice (Z.to_nat (off mod BSIZE)) (slice (Z.to_nat tot) (Z.to_nat m) src) (b_data b)) b))) ;;
        zoom (log_write bp) ;;
        zoom (brelse bp) ;;
        writei_loop fuel ip src (u32 (off + m)) n (tot + m)
    end
  else ret off.
Definition writei (ip : Z) (src : list Z) (off n : Z) : M S Z :=
  let* r := zoom (get_inode ip) in
  if i_type r =? T_DEV then
    if (i_major r <? 0) || (NDEV <=? i_major r) then ret (-1) else
    match dev_write (i_major r) with
    | None => ret (-1)
    | Some f => f ip src (s32 n)
    end
  else if (i_size r <? off) || (u32 (off + n) <? off) then ret (-1)
  else if MAXFILE * BSIZE <? u32 (off + n) then ret (-1)
  else
    let* off := zoom (writei_loop (io_fuel n) ip src off n 0) in
    let* r := zoom (get_inode ip) in
    zoom (when ((0 <? n) && (i_size r <? off)) (
      upd_inode ip (set_i_size off) ;;
      iupdate ip)) ;;
    ret (s32 n).

(** * Directories *)

(** A name is the bytes at its pointer; [strncmp] runs on a memory that holds
    the two names at two places. *)
Definition name_mem (s t : list Z) : gmap Z Z := st_bytes 0 s (st_bytes 4096 t ∅).
Definition namecmp (s t : list Z) : Z := strncmp (Z.to_nat DIRSIZ) (name_mem s t) 0 4096.

(** Reads of one directory entry, as both loops over a directory do. *)
Definition read_dirent (dp off : Z) : M S (list Z) :=
  let* (c, de) := readi dp off DIRENT in
  panic_if (negb (c =? DIRENT)) "dirlink read" ;;
  ret de.
(** The loops advance by [DIRENT] up to [dp->size]: [size / DIRENT + 1] steps. *)
Definition dir_fuel (dp : Z) : M S nat :=
  let* r := zoom (get_inode dp) in ret (Z.to_nat (i_size r / DIRENT + 1)).

Fixpoint dirlookup_loop (fuel : nat) (dp : Z) (name : list Z) (off : Z) : M S (option (Z * Z)) :=
  let* r := zoom (get_inode dp) in
  if off <? i_size r then
    match fuel with
    | O => out_of_fuel
    | Datatypes.S fuel =>
        let* de := read_dirent dp off in
        if get16 0 de =? 0 then dirlookup_loop fuel dp name (u32 (off + DIRENT))
        else if namecmp name (drop 2 de) =? 0 then
          let* ip := zoom (iget (i_dev r) (get16 0 de)) in
          ret (Some (ip, off))
        else dirlookup_loop fuel dp name (u32 (off + DIRENT))
    end
  else ret None.
(** The inode and, for [poff], the byte offset of its entry. *)
Definition dirlookup (dp : Z) (name : list Z) : M S (option (Z * Z)) :=
  let* r := zoom (get_inode dp) in
  panic_if (negb (i_type r =? T_DIR)) "dirlookup not DIR" ;;
  let* f := dir_fuel dp in
  dirlookup_loop f dp name 0.

(** The offset of an empty entry, or the end of the directory. *)
Fixpoint dirlink_scan (fuel : nat) (dp off : Z) : M S Z :=
  let* r := zoom (get_inode dp) in
  if u32 off <? i_size r then
    match fuel with
    | O => out_of_fuel
    | Datatypes.S fuel =>
        let* de := read_dirent dp (u32 off) in
        if get16 0 de =? 0 then ret off else dirlink_scan fuel dp (s32 (off + DIRENT))
    end
  else ret off.
(** [strncpy(de.name, name, DIRSIZ); de.inum = inum] *)
Definition dirent_bytes (name : list Z) (inum : Z) : list Z :=
  le_enc 2 inum ++ ld_bytes (Z.to_nat DIRSIZ) 0 (strncpy (st_bytes 4096 name ∅) 0 4096 DIRSIZ).
Definition dirlink (dp : Z) (name : list Z) (inum : Z) : M S Z :=
  let* hit := dirlookup dp name in
  match hit with
  | Some (ip, _) => zoom (iput ip) ;; ret (-1)
  | None =>
      let* f := dir_fuel dp in
      let* off := dirlink_scan f dp 0 in
      let* c := writei dp (dirent_bytes name inum) (u32 off) DIRENT in
      panic_if (negb (c =? DIRENT)) "dirlink" ;;
      ret 0
  end.
End content.

(** * Paths

    A path is the bytes of the C string before its NUL. *)

Definition SLASH : Z := 47.
Fixpoint skip_slashes (p : list Z) : list Z :=
  match p with c :: p' => if c =? SLASH then skip_slashes p' else p | [] => [] end.
(** The element at the front of [p], and what follows it. *)
Fixpoint take_elem_path (p : list Z) : list Z * list Z :=
  match p with
  | [] => ([], [])
  | c :: p' => if c =? SLASH then ([], p)
               else let (s, rest) := take_elem_path p' in (c :: s, rest)
  end.
(** [None] is the null result; otherwise the rest of the path and the buffer
    [name] after the call (of which only the bytes copied change). *)
Definition skipelem (path name : list Z) : option (list Z * list Z) :=
  match skip_slashes path with
  | [] => None
  | path =>
      let (s, path) := take_elem_path path in
      let len := zlen s in
      let name := if DIRSIZ <=? len then splice 0 (take (Z.to_nat DIRSIZ) s) name
                  else splice 0 (s ++ [0]) name in
      Some (skip_slashes path, name)
  end.

Section names.
Context {WF : WaitFuel} {S : Type} `{LF : Lens S fsst} {DS : Devsw S}.

(** Every iteration consumes a character of the path. *)
Fixpoint namex_loop (fuel : nat) (path name : list Z) (parent : bool) (ip : Z)
  : M S (option Z * list Z) :=
  match skipelem path name with
  | None =>
      if parent then zoom (iput ip) ;; ret (None, name) else ret (Some ip, name)
  | Some (path, name) =>
      match fuel with
      | O => out_of_fuel
      | Datatypes.S fuel =>
          zoom (ilock (Some ip)) ;;
          let* r := zoom (get_inode ip) in
          if negb (i_type r =? T_DIR) then
            zoom (iunlockput ip) ;; ret (None, name)
          else if parent && bool_decide (path = []) then
            zoom (iunlock (Some ip)) ;; ret (Some ip, name)
          else
            let* next := dirlookup ip name in
            match next with
            | None => zoom (iunlockput ip) ;; ret (None, name)
            | Some (next, _) => zoom (iunlockput ip) ;; namex_loop fuel path name parent next
            end
      end
  end.
Definition namex (path : list Z) (parent : bool) (name : list Z) : M S (option Z * list Z) :=
  let* ip := zoom (
    match path with
    | c :: _ => if c =? SLASH then iget ROOTDEV ROOTINO else
                let* cur := zoom myproc in
                let* p := zoom (get_proc cur) in
                let* cwd := must "proc->cwd" (p_cwd p) in idup cwd
    | [] => let* cur := zoom myproc in
            let* p := zoom (get_proc cur) in
            let* cwd := must "proc->cwd" (p_cwd p) in idup cwd
    end) in
  namex_loop (length path) path name parent ip.

Definition namei (path : list Z) : M S (option Z) :=
  let* (ip, _) := namex path false (replicate (Z.to_nat DIRSIZ) 0) in ret ip.
(** The parent directory and the final element in [name]. *)
Definition nameiparent (path name : list Z) : M S (option Z * list Z) :=
  namex path true name.
End names.
