(* ===== verification/Inode.v ===== *)
(** Correctness of the path parser and of the inode cache of [fs.c]. *)

From S2P Require Import Prelude Spin Sched Mem Str Dll Bio Log Tx Fs.

(** * Paths

    [path_elems]: the non-empty pieces of a path between its slashes. *)

Fixpoint pieces (cur p : list Z) : list (list Z) :=
  match p with
  | [] => if bool_decide (cur = []) then [] else [cur]
  | c :: p =>
      if c =? SLASH then (if bool_decide (cur = []) then pieces [] p else cur :: pieces [] p)
      else pieces (cur ++ [c]) p
  end.
Definition path_elems (p : list Z) : list (list Z) := pieces [] p.

Lemma pieces_skip p : path_elems (skip_slashes p) = path_elems p.
Proof.
  unfold path_elems. induction p as [|c p IH]; [done|]. simpl.
  destruct (c =? SLASH) eqn:E; [exact IH|]. simpl. by rewrite E.
Qed.
Lemma skip_slashes_le p : (length (skip_slashes p) ≤ length p)%nat.
Proof. induction p as [|c p IH]; simpl; [done|]. destruct (_ =? _); simpl; lia. Qed.
Lemma skip_slashes_head p c q : skip_slashes p = c :: q → c ≠ SLASH.
Proof.
  induction p as [|d p IH]; simpl; [done|]. destruct (Z.eqb_spec d SLASH); [done|]. intros. by simplify_eq.
Qed.
Lemma skip_slashes_elems p : skip_slashes p = [] ↔ path_elems p = [].
Proof.
  rewrite <- pieces_skip. split; [by intros ->|]. intros H. destruct (skip_slashes p) as [|c q] eqn:E; [done|].
  pose proof (skip_slashes_head _ _ _ E) as Hc. unfold path_elems in H. simpl in H.
  destruct (Z.eqb_spec c SLASH); [done|].
  assert (∀ q cur, cur ≠ [] → pieces cur q ≠ []) as Hne.
  { clear. induction q as [|d q IH]; intros cur Hc; simpl; [by rewrite bool_decide_false|].
    destruct (d =? SLASH); [by rewrite bool_decide_false|]. apply IH. by destruct cur. }
  by destruct (Hne q [c]).
Qed.

(** Taking one element off the front. *)
Lemma take_elem_pieces p : ∀ cur s rest, take_elem_path p = (s, rest) →
  p = (s ++ rest) ∧ (SLASH ∉ s) ∧ (cur ++ s ≠ [] → pieces cur p = ((cur ++ s) :: path_elems rest)) ∧
  (rest = [] ∨ ∃ q, rest = SLASH :: q).
Proof.
  induction p as [|c p IH]; intros cur s rest Ht; simpl in Ht.
  - simplify_eq. split; [done|]. split; [set_solver|]. split; [|by left]. rewrite app_nil_r. intros Hc. simpl.
    by rewrite bool_decide_false.
  - destruct (Z.eqb_spec c SLASH) as [->|Hne].
    + simplify_eq. split; [done|]. split; [set_solver|]. split; [|right; by eexists]. rewrite app_nil_r.
      intros Hc. simpl. by rewrite bool_decide_false.
    + destruct (take_elem_path p) as [s1 rest1] eqn:E. simplify_eq.
      destruct (IH (cur ++ [c]) s1 rest eq_refl) as (-> & Hs & Hp & Hr). split; [done|].
      split; [by rewrite not_elem_of_cons|]. split; [|done]. intros _. simpl.
      destruct (Z.eqb_spec c SLASH); [done|]. rewrite Hp by (by destruct cur). by rewrite <- app_assoc.
Qed.

(** [skipelem] peels one element off a path: it fails exactly on a path
    without elements; otherwise [name] holds the first element, cut at [DIRSIZ]
    bytes, and the path returned has the remaining elements, starts with none of
    the separating slashes (so it is empty exactly when the element was the last
    one) and is shorter, so the loop of [namex] ends. *)
Theorem skipelem_spec path name : length name = Z.to_nat DIRSIZ → 0 ∉ path →
  match skipelem path name with
  | None => path_elems path = []
  | Some (rest, name') =>
      ∃ e es, path_elems path = e :: es ∧ path_elems rest = es ∧
        str_of name' = take (Z.to_nat DIRSIZ) e ∧ length name' = length name ∧
        (rest = [] ↔ es = []) ∧ (length rest < length path)%nat
  end.
Proof.
  intros Hname Hnul. unfold skipelem. pose proof (skip_slashes_le path) as Hle.
  destruct (skip_slashes path) as [|c p] eqn:Ep; [by apply skip_slashes_elems|].
  destruct (take_elem_path (c :: p)) as [s rest] eqn:Et.
  destruct (take_elem_pieces (c :: p) [] s rest Et) as (Hcp & Hsl & Hpc & Hrest).
  assert (Hs0 : s ≠ []).
  { pose proof (skip_slashes_head _ _ _ Ep). simpl in Et. destruct (Z.eqb_spec c SLASH); [done|].
    destruct (take_elem_path p). by simplify_eq. }
  assert (Hnuls : 0 ∉ s).
  { intros Hin. apply Hnul. assert (Hsub : ∀ q, 0 ∈ skip_slashes q → 0 ∈ q).
    { clear. induction q as [|d q IH]; simpl; [done|]. destruct (_ =? _); [|done]. intros. right. auto. }
    apply Hsub. rewrite Ep, Hcp. set_solver. }
  exists s, (path_elems rest). rewrite <- (pieces_skip path), Ep. specialize (Hpc Hs0).
  split; [exact Hpc|]. split; [apply pieces_skip|].
  assert (Hl : (1 ≤ length s)%nat) by (destruct s; simpl; [done|lia]).
  pose proof (f_equal length Hcp) as Hlen. rewrite length_app in Hlen.
  pose proof (skip_slashes_le rest) as Hle'.
  split; [|split; [|split; [|lia]]].
  - unfold DIRSIZ in *. destruct (Z.leb_spec 14 (zlen s)) as [Hz|Hz]; unfold zlen in Hz; unfold splice.
    + rewrite drop_ge by (rewrite length_take; lia). simpl. rewrite app_nil_r.
      apply str_of_nonul. intros Hin. apply Hnuls. by eapply elem_of_take in Hin as (? & ? & _); eapply list_elem_of_lookup_2.
    + simpl. rewrite <- app_assoc. simpl. rewrite str_of_nul by done. by rewrite take_ge by lia.
  - unfold DIRSIZ in *. destruct (Z.leb_spec 14 (zlen s)) as [Hz|Hz]; unfold zlen in Hz; apply length_splice.
    + rewrite length_take. lia.
    + rewrite length_app. simpl. lia.
  - apply skip_slashes_elems.
Qed.
Lemma skipelem_spec_witness : length (replicate 14 0) = Z.to_nat DIRSIZ ∧ ∃ e es,
  path_elems [47; 47; 97; 47; 47; 98] = e :: es ∧ path_elems [98] = es ∧ e = [97].
Proof.
  split; [reflexivity|].
  destruct (skipelem_spec [47; 47; 97; 47; 47; 98] (replicate 14 0)) as (e & es & H1 & H2 & _);
    [reflexivity|set_solver|].
  exists e, es. split; [exact H1|]. split; [exact H2|]. by inversion H1.
Defined.

(** * The inode cache

    The cache is a multiset of references: [refs l (dev, inum)] counts those to an
    inode.  The invariant says that no inode is cached twice. *)

Definition live (k : Z * Z) (x : inode) : bool :=
  (0 <? i_ref x) && (i_dev x =? k.1) && (i_inum x =? k.2).
Record icache_ok (l : list inode) : Prop := {
  ic_len : zlen l = NINODE;
  ic_ref : ∀ i x, znth l i = Some x → 0 ≤ i_ref x < 2 ^ 31 - 1;
  ic_uniq : ∀ k i j x y, znth l i = Some x → znth l j = Some y → live k x = true →
    live k y = true → i = j;
}.
Definition refs (l : list inode) (k : Z * Z) : Z := default 0 (i_ref <$> List.find (live k) l).

Lemma live_iff k x : live k x = true ↔ 0 < i_ref x ∧ i_dev x = k.1 ∧ i_inum x = k.2.
Proof. unfold live. rewrite !andb_true_iff, !Z.eqb_eq, Z.ltb_lt. tauto. Qed.
Lemma znth_In {A} (l : list A) x : In x l ↔ ∃ i, znth l i = Some x.
Proof.
  rewrite <- list_elem_of_In. split.
  - intros [i Hi]%list_elem_of_lookup_1. exists (Z.of_nat i). unfold znth.
    destruct (Z.leb_spec 0 (Z.of_nat i)); [by rewrite Nat2Z.id|lia].
  - intros [i Hi]. unfold znth in Hi. destruct (_ <=? _); [|done]. by eapply list_elem_of_lookup_2.
Qed.

Section refs.
Context (l : list inode).

Lemma refs_live k i x : icache_ok l → znth l i = Some x → live k x = true → refs l k = i_ref x.
Proof.
  intros Hok Hx Hl. unfold refs. destruct (List.find (live k) l) as [y|] eqn:E; simpl.
  - apply find_some in E as [Hy Hly]. apply znth_In in Hy as [j Hy].
    assert (i = j) as -> by (by eapply (ic_uniq _ Hok k)). congruence.
  - pose proof (find_none _ _ E x). rewrite Hl in H. exfalso. assert (In x l); [|naive_solver].
    apply znth_In. by exists i.
Qed.
Lemma refs_dead k : (∀ i x, znth l i = Some x → live k x = false) → refs l k = 0.
Proof.
  intros H. unfold refs. destruct (List.find (live k) l) as [y|] eqn:E; [|done].
  apply find_some in E as [Hy Hly]. apply znth_In in Hy as [j Hy]. by rewrite (H _ _ Hy) in Hly.
Qed.
Lemma refs_cases k : icache_ok l → (∀ i x, znth l i = Some x → live k x = false) ∨
  ∃ i x, znth l i = Some x ∧ live k x = true.
Proof.
  intros Hok. destruct (List.find (live k) l) as [y|] eqn:E.
  - right. apply find_some in E as [Hy Hly]. apply znth_In in Hy as [j Hy]. by exists j, y.
  - left. intros i x Hx. apply (find_none _ _ E). apply znth_In. by exists i.
Qed.
End refs.

(** Entry [i] changes from [x] to [y]: to another count of the same inode, or
    from unused to the first reference of an inode that is not cached. *)
Lemma refs_update l i x y k : icache_ok l → znth l i = Some x → 0 ≤ i_ref y < 2 ^ 31 - 1 →
  i_dev y = k.1 → i_inum y = k.2 →
  live k x = true ∨ i_ref x = 0 ∧ refs l k = 0 →
  icache_ok (zupd i y l) ∧ ∀ k', refs (zupd i y l) k' = if decide (k' = k) then i_ref y else refs l k'.
Proof.
  intros Hok Hx Hr Hd Hn Hcase. pose proof (znth_Some _ _ _ Hx) as Hi.
  assert (Hy : ∀ k', live k' y = true → k' = k).
  { intros [] (_ & ? & ?)%live_iff. destruct k; simpl in *. congruence. }
  assert (Hother : ∀ j z, i ≠ j → znth l j = Some z → live k z = false).
  { intros j z Hj Hz. destruct (live k z) eqn:E; [|done]. exfalso. destruct Hcase as [Hl|[_ H0]].
    - apply Hj. by eapply (ic_uniq _ Hok k).
    - rewrite (refs_live l k j z Hok Hz E) in H0. apply live_iff in E. lia. }
  assert (Hok' : icache_ok (zupd i y l)).
  { split; [rewrite zlen_zupd; apply Hok| |].
    - intros j z [[<- <-]|[_ Hz]]%znth_zupd_Some; [done|]. by apply (ic_ref _ Hok) in Hz.
    - intros k' a b u v [[<- <-]|[Ha Hu]]%znth_zupd_Some [[<- <-]|[Hb Hv]]%znth_zupd_Some Hlu Hlv; [done| | |].
      + apply Hy in Hlu as ->. by rewrite (Hother _ _ Hb Hv) in Hlv.
      + apply Hy in Hlv as ->. by rewrite (Hother _ _ Ha Hu) in Hlu.
      + by eapply (ic_uniq _ Hok k'). }
  split; [done|]. intros k'. pose proof (znth_zupd l i y Hi) as Hyi. case_decide as Hk.
  - subst k'. destruct (decide (0 < i_ref y)).
    + apply (refs_live _ k i); [done..|]. by apply live_iff.
    + replace (i_ref y) with 0 by lia. apply refs_dead.
      intros j z [[<- <-]|[Hj Hz]]%znth_zupd_Some; [|by eapply Hother].
      apply not_true_iff_false. rewrite live_iff. lia.
  - assert (Hxk : live k' x = false).
    { apply not_true_iff_false. intros E. destruct Hcase as [Hl|[H0 _]]; apply live_iff in E; [|lia].
      apply live_iff in Hl. apply Hk. destruct k', k; simpl in *. intuition congruence. }
    assert (Hyk : live k' y = false) by (apply not_true_iff_false; by intros ?%Hy).
    destruct (refs_cases l k' Hok) as [Hall|(j & z & Hz & Hlz)].
    + rewrite (refs_dead l k' Hall). apply refs_dead.
      intros j z [[<- <-]|[Hj Hz]]%znth_zupd_Some; [done|by eapply Hall].
    + rewrite (refs_live l k' j z Hok Hz Hlz). apply (refs_live _ k' j); [done| |done].
      rewrite znth_zupd_ne; [done|]. intros <-. congruence.
Qed.

(** ** Critical sections of the file system *)

Definition fs_base (s : fsst) : base := io_base (lg_bio (fs_log s)).
Definition fs_set_base (b : base) (s : fsst) : fsst := lset b s.
Record fidle (s : fsst) : Prop := {
  fi_cli : cli_wf (b_mach (fs_base s));
  fi_depth : m_ncli (b_mach (fs_base s)) < 2 ^ 31 - 8;
  fi_icache : icache_lock ∉ m_held (b_mach (fs_base s));
  fi_ptable : ptable_lock ∉ m_held (b_mach (fs_base s));
}.
Definition flocked (s : fsst) : fsst :=
  fs_set_base (set_b_mach (locked icache_lock (b_mach (fs_base s))) (fs_base s)) s.
Definition ffreed (s : fsst) : fsst :=
  fs_set_base (set_b_mach (saved (b_mach (fs_base s))) (fs_base s)) s.
Definition fwoken (chan : objaddr) (s : fsst) : fsst :=
  fs_set_base (set_b_procs (wake_one chan <$> b_procs (fs_base s)) (fs_base s)) s.

Lemma facquire s : fidle s → bacquire icache_lock s = Ok tt (flocked s).
Proof. intros []. exact (bacquire_ok (S:=fsst) icache_lock s fi_cli0). Qed.
Lemma frelease s : fidle s → brelease icache_lock (flocked s) = Ok tt (ffreed s).
Proof.
  intros []. unfold brelease, flocked. erewrite zoom_ok; [reflexivity|].
  unfold zoom; simpl. by rewrite release_locked.
Qed.
Lemma fwakeup chan s : fidle s →
  (zoom (wakeup chan) : M fsst unit) (flocked s) = Ok tt (flocked (fwoken chan s)).
Proof.
  intros []. unfold zoom. change (lget (flocked s)) with (set_b_mach (locked icache_lock (b_mach (fs_base s))) (fs_base s)).
  by rewrite wakeup_locked.
Qed.
Lemma fidle_inodes l s : fidle s → fidle (set_fs_inode l s).
Proof. by intros []. Qed.
Lemma fidle_woken chan s : fidle s → fidle (fwoken chan s).
Proof. by intros []. Qed.

Lemma get_inode_ok s i x : znth (fs_inode s) i = Some x → get_inode i s = Ok x s.
Proof. intros H. unfold get_inode. run. by rewrite H. Qed.
Lemma upd_inode_ok s i x f : znth (fs_inode s) i = Some x →
  upd_inode i f s = Ok tt (set_fs_inode (zupd i (f x) (fs_inode s)) s).
Proof. intros H. unfold upd_inode. by rewrite (bind_ok _ _ _ _ _ (get_inode_ok _ _ _ H)). Qed.

(** The scan of [iget]: the entry of the inode if it is cached, else the first
    unused entry. *)
Lemma iget_scan_ok dev inum s n : ∀ i e, i + Z.of_nat n = zlen (fs_inode s) → 0 ≤ i →
  ∃ hit e', iget_scan n i dev inum e s = Ok (hit, e') s ∧
    match hit with
    | Some ip => ∃ x, znth (fs_inode s) ip = Some x ∧ live (dev, inum) x = true
    | None => (∀ j x, i ≤ j → znth (fs_inode s) j = Some x → live (dev, inum) x = false) ∧
        match e' with
        | Some ip => e = Some ip ∨ ∃ x, znth (fs_inode s) ip = Some x ∧ i_ref x = 0
        | None => e = None ∧ ∀ j x, i ≤ j → znth (fs_inode s) j = Some x → i_ref x ≠ 0
        end
    end.
Proof.
  induction n as [|n IH]; intros i e Hn Hi; cbn [iget_scan].
  { exists None, e. split; [done|]. split.
    - intros j x Hj Hx%znth_Some. lia.
    - destruct e; [by left|]. split; [done|]. intros j x Hj Hx%znth_Some. lia. }
  destruct (znth_is_Some (fs_inode s) i) as [x Hx]; [lia|].
  rewrite (bind_ok _ _ _ _ _ (get_inode_ok _ _ _ Hx)).
  change ((0 <? i_ref x) && (i_dev x =? dev) && (i_inum x =? inum)) with (live (dev, inum) x).
  destruct (live (dev, inum) x) eqn:El; [exists (Some i), e; eauto|].
  set (e1 := match e with None => if i_ref x =? 0 then Some i else None | _ => e end).
  destruct (IH (i + 1) e1) as (hit & e' & R & H); [lia..|]. exists hit, e'. split; [exact R|].
  destruct hit as [ip|]; [done|]. destruct H as [Hall He]. split.
  { intros j y Hj Hy. destruct (decide (j = i)) as [->|]; [congruence|]. apply (Hall j y); [lia|done]. }
  destruct e' as [ip|].
  - destruct He as [He|?]; [|by right]. unfold e1 in He. destruct e as [z|]; [by left|].
    destruct (Z.eqb_spec (i_ref x) 0); [|done]. simplify_eq. right. eauto.
  - destruct He as [He Hnz]. unfold e1 in He. destruct e as [z|]; [done|]. split; [done|].
    destruct (Z.eqb_spec (i_ref x) 0); [done|].
    intros j y Hj Hy. destruct (decide (j = i)) as [->|]; [congruence|]. apply (Hnz j y); [lia|done].
Qed.

(** The entry [iget] takes: of the same inode, or unused. *)
Definition got (dev inum : Z) (x y : inode) : Prop :=
  live (dev, inum) x = true ∧ y = set_i_ref (i_ref x + 1) x ∨
  i_ref x = 0 ∧ y = set_i_flags 0 (set_i_ref 1 (set_i_inum inum (set_i_dev dev x))).
Lemma iget_entry dev inum s : fidle s → icache_ok (fs_inode s) →
  refs (fs_inode s) (dev, inum) < 2 ^ 31 - 2 →
  (∃ ip x y s', iget dev inum s = Ok ip s' ∧ znth (fs_inode s) ip = Some x ∧ got dev inum x y ∧
    (i_ref x = 0 → refs (fs_inode s) (dev, inum) = 0) ∧
    fs_log s' = fs_log (ffreed s) ∧ fs_inode s' = zupd ip y (fs_inode s)) ∨
  (∃ s', iget dev inum s = Panic "iget: no inodes" s') ∧ refs (fs_inode s) (dev, inum) = 0 ∧
    ∀ i x, znth (fs_inode s) i = Some x → i_ref x ≠ 0.
Proof.
  intros Hi Hok Hlt. pose proof (ic_len _ Hok) as Hlen.
  destruct (iget_scan_ok dev inum (flocked s) (Z.to_nat NINODE) 0 None) as (hit & e & R & H).
  { change (fs_inode (flocked s)) with (fs_inode s). rewrite Hlen. reflexivity. } { lia. }
  change (fs_inode (flocked s)) with (fs_inode s) in H.
  unfold iget. rewrite (bind_ok _ _ _ _ _ (facquire s Hi)), (bind_ok _ _ _ _ _ R). destruct hit as [ip|].
  - destruct H as (x & Hx & Hl). left. rewrite (bind_ok _ _ _ _ _ (upd_inode_ok (flocked s) ip x _ Hx)).
    pose proof (refs_live _ _ _ _ Hok Hx Hl) as Hr. pose proof (ic_ref _ Hok _ _ Hx) as Hrr.
    apply live_iff in Hl as Hl'. destruct Hl' as (Hp & _). rewrite s32_small by lia.
    set (y := set_i_ref (i_ref x + 1) x). exists ip, x, y. eexists. split.
    { rewrite (bind_ok _ _ _ _ _ (frelease _ (fidle_inodes (zupd ip y (fs_inode s)) s Hi))). reflexivity. }
    split; [done|]. split; [by left|]. split; [lia|done].
  - destruct H as [Hall He].
    assert (Hr0 : refs (fs_inode s) (dev, inum) = 0).
    { apply refs_dead. intros j x Hx. apply (Hall j x); [|done]. apply znth_Some in Hx. lia. }
    destruct e as [ip|].
    + destruct He as [|(x & Hx & Hz)]; [done|]. left. pose proof (znth_Some _ _ _ Hx) as Hir.
      set (y := set_i_flags 0 (set_i_ref 1 (set_i_inum inum (set_i_dev dev x)))).
      exists ip, x, y. eexists. split.
      { erewrite bind_ok by (by apply upd_inode_ok). simpl.
        do 3 (erewrite bind_ok by (apply upd_inode_ok; simpl; apply znth_zupd; rewrite ?zlen_zupd; done); simpl).
        rewrite !zupd_zupd. fold y.
        rewrite (bind_ok _ _ _ _ _ (frelease _ (fidle_inodes (zupd ip y (fs_inode s)) s Hi))). reflexivity. }
      split; [done|]. split; [by right|done].
    + right. split; [by eexists|]. split; [done|]. intros i x Hx. apply (proj2 He i x); [|done].
      apply znth_Some in Hx. lia.
Qed.
(** One more reference to that inode. *)
Lemma got_refs l dev inum ip x y : icache_ok l → refs l (dev, inum) < 2 ^ 31 - 2 → znth l ip = Some x → got dev inum x y →
  (i_ref x = 0 → refs l (dev, inum) = 0) →
  i_dev y = dev ∧ i_inum y = inum ∧ 0 < i_ref y ∧ icache_ok (zupd ip y l) ∧
  ∀ k, refs (zupd ip y l) k = if decide (k = (dev, inum)) then refs l k + 1 else refs l k.
Proof.
  intros Hok Hlt Hx Hg H0. assert (Hy : i_dev y = dev ∧ i_inum y = inum ∧ i_ref y = refs l (dev, inum) + 1).
  { destruct Hg as [[Hl ->]|[Hz ->]]; [|simpl; rewrite H0 by done; done].
    rewrite (refs_live _ _ _ _ Hok Hx Hl). apply live_iff in Hl as (_ & Hd & Hn). done. }
  destruct Hy as (Hd & Hn & Hr). assert (Hp : 0 ≤ refs l (dev, inum)).
  { destruct (refs_cases l (dev, inum) Hok) as [Hdead|(j & z & Hz & Hl)]; [by rewrite refs_dead|].
    rewrite (refs_live _ _ _ _ Hok Hz Hl). by apply (ic_ref _ Hok) in Hz as [? _]. }
  destruct (refs_update l ip x y (dev, inum) Hok Hx) as [Hok' Hrefs]; [lia|done|done|destruct Hg as [[]|[]]; auto|].
  split; [done|]. split; [done|]. split; [lia|]. split; [done|]. intros k. rewrite Hrefs. case_decide; [|done]. subst k. lia.
Qed.
Lemma iget_ok dev inum s : fidle s → icache_ok (fs_inode s) →
  refs (fs_inode s) (dev, inum) < 2 ^ 31 - 2 →
  (∃ ip x s', iget dev inum s = Ok ip s' ∧ znth (fs_inode s') ip = Some x ∧
    i_dev x = dev ∧ i_inum x = inum ∧ 0 < i_ref x ∧
    fs_log s' = fs_log (ffreed s) ∧ icache_ok (fs_inode s') ∧
    ∀ k, refs (fs_inode s') k = if decide (k = (dev, inum)) then refs (fs_inode s) k + 1
                                else refs (fs_inode s) k) ∨
  (∃ s', iget dev inum s = Panic "iget: no inodes" s') ∧ refs (fs_inode s) (dev, inum) = 0 ∧
    ∀ i x, znth (fs_inode s) i = Some x → i_ref x ≠ 0.
Proof.
  intros Hi Hok Hlt. destruct (iget_entry dev inum s Hi Hok Hlt) as [(ip & x & y & s' & R & Hx & Hg & H0 & Hl & Hs)|]; [left|by right].
  destruct (got_refs _ _ _ _ _ _ Hok Hlt Hx Hg H0) as (Hd & Hn & Hp & Hok' & Hrefs).
  exists ip, y, s'. rewrite Hs. split; [done|]. split; [by eapply znth_zupd, znth_Some|]. done.
Qed.

(** [iget] returns the one cache entry of the inode and adds exactly one
    reference to it: the cache keeps at most one entry per inode, and the count
    of every other inode is unchanged.  It panics exactly when the inode is not
    cached and every entry is in use. *)
Theorem iget_spec dev inum s : fidle s → icache_ok (fs_inode s) →
  refs (fs_inode s) (dev, inum) < 2 ^ 31 - 2 →
  (∃ ip x s', iget dev inum s = Ok ip s' ∧ znth (fs_inode s') ip = Some x ∧
    i_dev x = dev ∧ i_inum x = inum ∧ 0 < i_ref x ∧
    fs_log s' = fs_log (ffreed s) ∧ icache_ok (fs_inode s') ∧
    ∀ k, refs (fs_inode s') k = if decide (k = (dev, inum)) then refs (fs_inode s) k + 1
                                else refs (fs_inode s) k) ∨
  (∃ s', iget dev inum s = Panic "iget: no inodes" s') ∧ refs (fs_inode s) (dev, inum) = 0 ∧
    ∀ i x, znth (fs_inode s) i = Some x → i_ref x ≠ 0.
Proof. apply iget_ok. Qed.

(** Dropping a reference that does not free the inode. *)
Lemma iput_entry {WF : WaitFuel} ip x s : fidle s → znth (fs_inode s) ip = Some x → 0 < i_ref x < 2 ^ 31 →
  i_ref x ≠ 1 ∨ iflag I_VALID x = false ∨ i_nlink x ≠ 0 →
  ∃ s', iput ip s = Ok tt s' ∧ fs_log s' = fs_log (ffreed s) ∧ fs_inode s' = zupd ip (set_i_ref (i_ref x - 1) x) (fs_inode s).
Proof.
  intros Hi Hx Hr Hcase. set (y := set_i_ref (i_ref x - 1) x). eexists. split.
  { unfold iput. rewrite (bind_ok _ _ _ _ _ (facquire s Hi)).
    rewrite (bind_ok _ _ _ _ _ (get_inode_ok (flocked s) ip x Hx)).
    replace ((i_ref x =? 1) && iflag I_VALID x && (i_nlink x =? 0)) with false.
    2: { symmetry. apply andb_false_iff. destruct Hcase as [H|[H|H]].
         - left. apply andb_false_iff. left. lia.
         - left. rewrite H. apply andb_false_r.
         - right. lia. }
    erewrite (bind_ok (when _ _)) by reflexivity.
    rewrite (bind_ok _ _ _ _ _ (upd_inode_ok (flocked s) ip x _ Hx)), s32_small by lia. fold y.
    exact (frelease _ (fidle_inodes (zupd ip y (fs_inode s)) s Hi)). }
  done.
Qed.
Lemma put_refs l ip x : icache_ok l → znth l ip = Some x → 0 < i_ref x →
  icache_ok (zupd ip (set_i_ref (i_ref x - 1) x) l) ∧ ∀ k, refs (zupd ip (set_i_ref (i_ref x - 1) x) l) k =
    if decide (k = (i_dev x, i_inum x)) then refs l k - 1 else refs l k.
Proof.
  intros Hok Hx Hr. pose proof (ic_ref _ Hok _ _ Hx). assert (Hl : live (i_dev x, i_inum x) x = true) by (by apply live_iff).
  destruct (refs_update l ip x (set_i_ref (i_ref x - 1) x) (i_dev x, i_inum x) Hok Hx) as [Hok' Hrefs]; [simpl; lia|done|done|by left|].
  split; [done|]. intros k. rewrite Hrefs. case_decide; [|done]. subst k. by rewrite (refs_live _ _ _ _ Hok Hx Hl).
Qed.

(** Dropping a reference that is not the last one of an unlinked inode takes
    exactly one reference away and touches neither the disk nor the log. *)
Theorem iput_spec {WF : WaitFuel} ip x s : fidle s → icache_ok (fs_inode s) →
  znth (fs_inode s) ip = Some x → 0 < i_ref x →
  i_ref x ≠ 1 ∨ iflag I_VALID x = false ∨ i_nlink x ≠ 0 →
  ∃ s', iput ip s = Ok tt s' ∧ fs_log s' = fs_log (ffreed s) ∧ icache_ok (fs_inode s') ∧
    ∀ k, refs (fs_inode s') k =
      if decide (k = (i_dev x, i_inum x)) then refs (fs_inode s) k - 1 else refs (fs_inode s) k.
Proof.
  intros Hi Hok Hx Hr Hcase. pose proof (ic_ref _ Hok _ _ Hx) as Hrr.
  destruct (iput_entry ip x s Hi Hx) as (s' & R & Hlog & Hs); [lia|done|]. exists s'. rewrite Hs.
  split; [done|]. split; [done|]. by apply put_refs.
Qed.

(** ** Witnesses *)

#[local] Instance inode_fuel : WaitFuel := 0%nat.
Definition zero_inode : inode := Inode 0 0 0 0 0 0 0 0 0 (replicate 13 0).
Definition demo_inodes : list inode :=
  Inode 1 5 2 2 2 0 0 1 0 (replicate 13 0) :: replicate 49 zero_inode.
Definition demo_fs : fsst := FsSt (power_on (demo_base [zero_proc]) []) demo_inodes.
Lemma demo_fs_idle : fidle demo_fs.
Proof. split; [split; simpl; [lia|done]|simpl; lia|set_solver|set_solver]. Qed.
Lemma demo_inodes_ok : icache_ok demo_inodes.
Proof.
  assert (H : ∀ i x, znth demo_inodes i = Some x → (i = 0 ∧ i_ref x = 2) ∨ i_ref x = 0).
  { intros i x Hx. unfold demo_inodes, znth in Hx. destruct (Z.leb_spec 0 i); [|done].
    destruct (Z.to_nat i) as [|n] eqn:En; [simpl in Hx; simplify_eq; left; split; [lia|done]|].
    right. change (replicate 49 zero_inode !! n = Some x) in Hx. apply lookup_replicate in Hx as [-> _]. done. }
  split; [reflexivity| |].
  - intros i x Hx. destruct (H i x Hx) as [[_ ->]| ->]; lia.
  - intros k i j x y Hx Hy Hlx%live_iff Hly%live_iff. destruct (H _ _ Hx), (H _ _ Hy); lia.
Qed.
Lemma iget_spec_witness : ∃ ip s', iget 1 7 demo_fs = Ok ip s' ∧ refs (fs_inode s') (1, 7) = 1.
Proof.
  destruct (iget_spec 1 7 demo_fs demo_fs_idle demo_inodes_ok) as [(ip & x & s' & R & H)|(_ & _ & H)].
  - vm_compute. reflexivity.
  - exists ip, s'. split; [exact R|]. destruct H as (_ & _ & _ & _ & _ & _ & ->). vm_compute. reflexivity.
  - exfalso. apply (H 1 zero_inode); reflexivity.
Defined.
Lemma iput_spec_witness : ∃ s', iput 0 demo_fs = Ok tt s' ∧ refs (fs_inode s') (1, 5) = 1.
Proof.
  destruct (iput_spec 0 (Inode 1 5 2 2 2 0 0 1 0 (replicate 13 0)) demo_fs demo_fs_idle demo_inodes_ok)
    as (s' & R & _ & _ & H); [reflexivity|simpl; lia|left; simpl; lia|].
  exists s'. split; [exact R|]. rewrite H. vm_compute. reflexivity.
Defined.
