(* ===== verification/Balloc.v ===== *)
(** Correctness of the block allocator of [fs.c]: [readsb], [balloc], [bzero] and
    [bfree], inside a transaction. *)

From S2P Require Import Prelude Spin Sched Mem Str Dll Bio Log Tx Fs.

(** * The bitmap *)

Definition sbsize (V : Z → list Z) : Z := get32 0 (V 1).
Definition ninodes (V : Z → list Z) : Z := get32 8 (V 1).
(** The bitmap block and the byte of block [b]. *)
Definition bmblock (V : Z → list Z) (b : Z) : Z := b / 4096 + ninodes V / 8 + 3.
Definition bmbyte (b : Z) : Z := b mod 4096 / 8.
Definition used (V : Z → list Z) (b : Z) : bool :=
  Z.testbit (default 0 (znth (V (bmblock V b)) (bmbyte b))) (b mod 8).

(** The layout: the bitmap lies below the log, whose first sector is [start]. *)
Record fsgeo (V : Z → list Z) (start : Z) : Prop := {
  g_max : start ≤ 2 ^ 23;
  g_size : 0 ≤ sbsize V ≤ 2 ^ 31;
  g_nin : 0 ≤ ninodes V;
  g_bm : ∀ b, 0 ≤ b < sbsize V → bmblock V b < start;
  g_data : ∀ b, 0 ≤ b < sbsize V → used V b = false → ∀ b', 0 ≤ b' < sbsize V → bmblock V b' < b;
}.

Lemma testbit_u8 z j : 0 ≤ j < 8 → Z.testbit (u8 z) j = Z.testbit z j.
Proof. intros. unfold u8. apply Z.mod_pow2_bits_low. lia. Qed.
Lemma eq0_bit v i : 0 ≤ i → (Z.land v (Z.shiftl 1 i) =? 0) = negb (Z.testbit v i).
Proof. intros. rewrite eq0_flag. by rewrite <- (land_bit_ne0 v i). Qed.
Lemma bm_index b : 0 ≤ b → 0 ≤ bmbyte b < 512 ∧ b mod 4096 mod 8 = b mod 8.
Proof.
  intros Hb. unfold bmbyte. pose proof (Z.mod_pos_bound b 4096 ltac:(lia)). split.
  - split; [apply Z.div_pos; lia|]. apply Z.div_lt_upper_bound; lia.
  - apply Z.mod_mod_divide. by exists 512.
Qed.
Lemma bm_inj V b b' : 0 ≤ b → 0 ≤ b' → bmblock V b = bmblock V b' → bmbyte b = bmbyte b' →
  b mod 8 = b' mod 8 → b = b'.
Proof.
  intros Hb Hb' H1 H2 H3. unfold bmblock, bmbyte in *. assert (b / 4096 = b' / 4096) by lia.
  rewrite <- (proj2 (bm_index b Hb)), <- (proj2 (bm_index b' Hb')) in H3.
  pose proof (Z.div_mod b 4096 ltac:(lia)). pose proof (Z.div_mod b' 4096 ltac:(lia)).
  pose proof (Z.div_mod (b mod 4096) 8 ltac:(lia)). pose proof (Z.div_mod (b' mod 4096) 8 ltac:(lia)). lia.
Qed.

(** Storing one bitmap byte. *)
Section setbyte.
Context (V : Z → list Z) (b : Z) (v : Z).
Context (Hlen : length (V (bmblock V b)) = 512%nat) (Hb : 0 ≤ b) (Hnin : 0 ≤ ninodes V).

Definition set_bmbyte : Z → list Z :=
  vupd V (bmblock V b) (zupd (bmbyte b) (u8 v) (V (bmblock V b))).

Lemma bm_not_sb : bmblock V b ≠ 1.
Proof. unfold bmblock. pose proof (Z.div_pos b 4096). pose proof (Z.div_pos (ninodes V) 8). lia. Qed.
Lemma set_bmbyte_sb : set_bmbyte 1 = V 1.
Proof. unfold set_bmbyte, vupd. destruct (Z.eqb_spec 1 (bmblock V b)) as [E|]; [|done]. by destruct bm_not_sb. Qed.
Lemma set_bmbyte_block b' : bmblock set_bmbyte b' = bmblock V b'.
Proof. unfold bmblock, ninodes. by rewrite set_bmbyte_sb. Qed.
Lemma set_bmbyte_used b' : 0 ≤ b' →
  (∀ j, 0 ≤ j < 8 → j ≠ b mod 8 →
     Z.testbit v j = Z.testbit (default 0 (znth (V (bmblock V b)) (bmbyte b))) j) →
  used set_bmbyte b' = if b' =? b then Z.testbit v (b mod 8) else used V b'.
Proof.
  intros Hb' Hv. unfold used. rewrite set_bmbyte_block. pose proof (bm_index b Hb) as [Hi _].
  pose proof (Z.mod_pos_bound b 8 ltac:(lia)) as Hm. pose proof (Z.mod_pos_bound b' 8 ltac:(lia)) as Hm'.
  assert (Hz : 0 ≤ bmbyte b < zlen (V (bmblock V b))) by (unfold zlen; lia).
  unfold set_bmbyte, vupd. destruct (Z.eqb_spec (bmblock V b') (bmblock V b)) as [Eb|Eb].
  2: { destruct (Z.eqb_spec b' b) as [->|]; done. }
  destruct (decide (bmbyte b' = bmbyte b)) as [Ey|Ey].
  - rewrite Ey, znth_zupd by done. simpl. rewrite testbit_u8 by done.
    destruct (Z.eqb_spec b' b) as [->|Hne]; [done|]. rewrite Eb. apply Hv; [done|].
    intros E. apply Hne. by eapply (bm_inj V).
  - rewrite znth_zupd_ne by done. destruct (Z.eqb_spec b' b) as [->|]; [done|]. by rewrite Eb.
Qed.
End setbyte.

Lemma size_add (x : Z) (Y : gset Z) : (size ({[x]} ∪ Y) ≤ S (size Y))%nat.
Proof.
  destruct (decide (x ∈ Y)).
  - replace ({[x]} ∪ Y) with Y by set_solver. lia.
  - rewrite size_union by set_solver. rewrite size_singleton. lia.
Qed.

(** * The operations *)

Section ops.
Context {WF : WaitFuel}.

Definition sb_of (V : Z → list Z) : superblock :=
  Superblock (get32 0 (V 1)) (get32 4 (V 1)) (get32 8 (V 1)) (get32 12 (V 1)).

Lemma tx_readsb s V B L X : tx s V B L X → 1 < lg_start s → 1 ∉ B → (size (B ∪ L) < 10)%nat →
  ∃ s', (zoom (readsb 1) : M logst superblock) s = Ok (sb_of V) s' ∧ tx s' V B L X ∧ steps s s' ∧ keep s s'.
Proof.
  intros Htx Hst HB Hsz. destruct (tx_bread s V B L X 1 Htx ltac:(lia) HB (or_introl Hsz))
    as (b & s1 & R1 & T1 & H1 & D1 & S1 & K1).
  pose proof (tx_unmod _ _ _ _ _ _ Htx HB) as HX.
  destruct (tx_brelse s1 V _ L X b 1 T1 H1 HX) as (s2 & R2 & T2 & S2 & K2).
  exists s2. replace (({[1]} ∪ B) ∖ {[1]} : gset Z) with B in T2 by set_solver. split; [|split; [done|]].
  - unfold readsb, zoom in *. unfold bind. simpl in *.
    destruct (bread 1 1 (lg_bio s)) as [b' t| | | |]; simpl in *; try done. simplify_eq.
    destruct (tx_held _ _ _ _ _ T1 b 1 H1) as (_ & _ & Hg & _).
    change (lg_bio (set_lg_bio t s)) with t in *. rewrite Hg. simpl.
    destruct (brelse b t) as [[] t2| | | |]; simpl in *; try done. simplify_eq. unfold ret, sb_of. simpl. rewrite D1. by destruct s.
  - split; [by etrans|]. intros b' n Hn. apply K2; [|by apply K1].
    destruct (tx_held _ _ _ _ _ Htx b' n Hn) as (Hin & _). set_solver.
Qed.

(** Read a block, change it, log it and release it. *)
Lemma tx_modify s V B L X sec (f : list Z → list Z) : tx s V B L X → 0 ≤ sec < lg_start s → sec ∉ B →
  length (f (V sec)) = 512%nat → (size ({[sec]} ∪ B ∪ L) < 10)%nat → Z.of_nat (size L) + 1 < lg_size s →
  ∃ b s1 s2 s3 s4, (zoom (bread 1 sec) : M logst Z) s = Ok b s1 ∧
    holds (lg_bio s1) b sec ∧ b_data (bufof (lg_bio s1) b) = V sec ∧ tx s1 V ({[sec]} ∪ B) L X ∧
    (zoom (upd_buf b (λ r, set_b_data (f (b_data r)) r)) : M logst unit) s1 = Ok tt s2 ∧
    log_write b s2 = Ok tt s3 ∧ (zoom (brelse b) : M logst unit) s3 = Ok tt s4 ∧
    tx s4 (vupd V sec (f (V sec))) B ({[sec]} ∪ L) X ∧ steps s s4 ∧ keep s s4.
Proof.
  intros Htx Hsec HB Hlen Hsz Hcap.
  pose proof (tx_unmod _ _ _ _ _ _ Htx HB) as HX.
  assert (Hsz' : (size (B ∪ L) < 10)%nat).
  { eapply Nat.le_lt_trans; [apply subseteq_size|exact Hsz]. set_solver. }
  destruct (tx_bread s V B L X sec Htx Hsec HB (or_introl Hsz')) as (b & s1 & R1 & T1 & H1 & D1 & S1 & K1).
  destruct (tx_put s1 V _ L X b sec f T1 H1 Hlen) as (s2 & R2 & T2 & H2 & S2 & K2).
  destruct (tx_log_write s2 _ _ L _ b sec T2 H2) as (s3 & R3 & T3 & H3 & S3 & K3).
  { done. } { by rewrite (sp_size _ _ S2), (sp_size _ _ S1). }
  destruct (tx_brelse s3 _ _ _ _ b sec T3 H3) as (s4 & R4 & T4 & S4 & K4); [set_solver|].
  exists b, s1, s2, s3, s4. do 7 (split; [done|]). split.
  - replace (({[sec]} ∪ B) ∖ {[sec]} : gset Z) with B in T4 by set_solver.
    by replace (({[sec]} ∪ X) ∖ {[sec]} : gset Z) with X in T4 by set_solver.
  - split; [by etrans; [|etrans; [|etrans]]|]. intros b' n Hn. apply K4; [|by apply K3, K2, K1].
    destruct (tx_held _ _ _ _ _ Htx b' n Hn) as (Hin & _). set_solver.
Qed.

Lemma bzero_ok s V B L X b : tx s V B L X → 0 ≤ b < lg_start s → b < 2 ^ 32 → b ∉ B →
  (size ({[b]} ∪ B ∪ L) < 10)%nat → Z.of_nat (size L) + 1 < lg_size s →
  ∃ s', bzero 1 b s = Ok tt s' ∧ tx s' (vupd V b (replicate 512 0)) B ({[b]} ∪ L) X ∧ steps s s' ∧ keep s s'.
Proof.
  intros Htx Hb Hu HB Hsz Hcap.
  destruct (tx_modify s V B L X b (λ _, replicate 512 0) Htx Hb HB) as (p & s1 & s2 & s3 & s4 & R1 & _ & _ & _ & R2 & R3 & R4 & T & S & K);
    [reflexivity|done|done|].
  exists s4. split; [|done]. unfold bzero. rewrite u32_small by lia.
  rewrite (bind_ok _ _ _ _ _ R1), (bind_ok _ _ _ _ _ R2), (bind_ok _ _ _ _ _ R3). exact R4.
Qed.

Lemma get_byte_ok s V B L X b sec i v : tx s V B L X → holds (lg_bio s) b sec → znth (V sec) i = Some v →
  get_byte b i s = Ok v s.
Proof.
  intros Htx Hb Hv. destruct (tx_held _ _ _ _ _ Htx b sec Hb) as (_ & _ & Hg & Hd).
  unfold get_byte. rewrite (bind_ok _ _ _ (bufof (lg_bio s) b) s).
  - rewrite Hd, Hv. done.
  - rewrite (zoom_bio _ _ _ _ Hg). by destruct s.
Qed.

(** ** One bitmap block *)

Lemma bit_of V k j : 0 ≤ k → 0 ≤ j < 4096 →
  bmblock V (k * 4096 + j) = bmblock V (k * 4096) ∧ bmbyte (k * 4096 + j) = j / 8 ∧
  (k * 4096 + j) mod 8 = j mod 8.
Proof.
  intros Hk Hj. unfold bmblock, bmbyte. rewrite (Z.add_comm _ j), Z.div_add, Z.div_mul, Z.div_small by lia.
  rewrite Z.mod_add, (Z.mod_small j 4096) by lia. split; [lia|]. split; [done|].
  replace (k * 4096) with (k * 512 * 8) by lia. by apply Z.mod_add.
Qed.

Section block.
Context (s : logst) (V : Z → list Z) (B L X : gset Z) (bp k size : Z).
Context (Hk : 0 ≤ k) (bm := bmblock V (k * 4096)).
Context (Htx : tx s V ({[bm]} ∪ B) L X) (Hh : holds (lg_bio s) bp bm) (HbX : bm ∉ X).

Definition block_bits : nat := Z.to_nat (Z.min 4096 (size - k * 4096)).

Lemma bm_get j : 0 ≤ j < 4096 → ∃ v, get_byte bp (j / 8) s = Ok v s ∧ znth (V bm) (j / 8) = Some v ∧
  (Z.land v (Z.shiftl 1 (j mod 8)) =? 0) = negb (used V (k * 4096 + j)).
Proof.
  intros Hj. destruct (tx_held _ _ _ _ _ Htx bp bm Hh) as (_ & Hr & _).
  pose proof (tx_block _ _ _ _ _ bm Htx Hr) as Hlen.
  destruct (znth_is_Some (V bm) (j / 8)) as [v Hv].
  { unfold zlen. rewrite Hlen. split; [apply Z.div_pos; lia|]. apply Z.div_lt_upper_bound; lia. }
  exists v. split; [by eapply get_byte_ok|]. split; [done|].
  rewrite eq0_bit by (apply Z.mod_pos_bound; lia). f_equal. unfold used.
  destruct (bit_of V k j Hk Hj) as (-> & -> & ->). fold bm. by rewrite Hv.
Qed.

Lemma bits_none : (∀ j, 0 ≤ j < Z.of_nat block_bits → used V (k * 4096 + j) = true) →
  balloc_bits 1 size bp (k * 4096) s = Ok None s.
Proof.
  intros Hall. unfold balloc_bits. apply for_n_none. intros j Hj. change BPB with 4096 in Hj.
  assert (Hj' : 0 ≤ j < 4096) by lia.
  destruct (bm_get j Hj') as (v & Hg & _ & Hb). rewrite (bind_ok _ _ _ _ _ Hg), Hb, (Hall j); [done|].
  unfold block_bits. lia.
Qed.

Lemma bits_found j (x := k * 4096 + j) (v := default 0 (znth (V bm) (bmbyte x)))
    (V1 := set_bmbyte V x (Z.lor v (Z.shiftl 1 (x mod 8)))) :
  0 ≤ j < Z.of_nat block_bits → (∀ i, 0 ≤ i < j → used V (k * 4096 + i) = true) → used V x = false →
  x ∉ B → x < lg_start s → x < 2 ^ 32 → bm ∉ B → 0 ≤ ninodes V → bm ≠ x →
  (base.size (B ∪ L) + 2 < 10)%nat → Z.of_nat (base.size L) + 2 < lg_size s →
  ∃ s', balloc_bits 1 size bp (k * 4096) s = Ok (Some x) s' ∧
    tx s' (vupd V1 x (replicate 512 0)) B ({[x]} ∪ ({[bm]} ∪ L)) X ∧ steps s s' ∧
    ∀ b n, n ≠ bm → holds (lg_bio s) b n → holds (lg_bio s') b n.
Proof.
  intros Hj Hlt Hfree HxB Hxs Hx32 HbB Hnin Hne Hsz Hcap.
  assert (Hj' : 0 ≤ j < 4096) by (unfold block_bits in Hj; lia).
  destruct (bit_of V k j Hk Hj') as (E1 & E2 & E3). fold x bm in E1, E2, E3.
  destruct (bm_get j Hj') as (w & Hg & Hw & Hbit). fold x in Hbit. rewrite Hfree in Hbit.
  assert (v = w) as -> by (unfold v; by rewrite E2, Hw).
  destruct (tx_held _ _ _ _ _ Htx bp bm Hh) as (_ & Hr & _). pose proof (tx_block _ _ _ _ _ bm Htx Hr) as Hlen.
  pose proof (size_add bm (B ∪ L)) as Ha1. pose proof (size_add x ({[bm]} ∪ (B ∪ L))) as Ha2.
  destruct (tx_put s V _ L X bp bm (zupd (j / 8) (u8 (Z.lor w (Z.shiftl 1 (j mod 8))))) Htx Hh)
    as (s1 & R1 & T1 & H1 & S1 & K1).
  { pose proof (zlen_zupd (V bm) (j / 8) (u8 (Z.lor w (Z.shiftl 1 (j mod 8))))) as Hz. unfold zlen in Hz. lia. }
  rewrite <- E2, <- E3, <- E1 in T1. fold (set_bmbyte V x (Z.lor w (Z.shiftl 1 (x mod 8)))) in T1. fold V1 in T1.
  rewrite E1 in T1.
  destruct (tx_log_write s1 V1 _ L _ bp bm T1 H1) as (s2 & R2 & T2 & H2 & S2 & K2).
  { rewrite <- (union_assoc_L {[bm]} B L). lia. } { rewrite (sp_size _ _ S1). lia. }
  destruct (tx_brelse s2 V1 _ _ _ bp bm T2 H2) as (s3 & R3 & T3 & S3 & K3); [set_solver|].
  replace (({[bm]} ∪ X) ∖ {[bm]} : gset Z) with X in T3 by set_solver.
  replace (({[bm]} ∪ B) ∖ {[bm]} : gset Z) with B in T3 by set_solver.
  pose proof (sp_start _ _ S1) as Q1. pose proof (sp_start _ _ S2) as Q2. pose proof (sp_start _ _ S3) as Q3.
  pose proof (sp_size _ _ S1) as Z1. pose proof (sp_size _ _ S2) as Z2. pose proof (sp_size _ _ S3) as Z3.
  assert (Hx0 : 0 ≤ x) by (unfold x; lia).
  destruct (bzero_ok s3 V1 B ({[bm]} ∪ L) X x T3) as (s4 & R4 & T4 & S4 & K4); [lia|done|done| | |].
  { replace ({[x]} ∪ B ∪ ({[bm]} ∪ L)) with ({[x]} ∪ ({[bm]} ∪ (B ∪ L)) : gset Z) by set_solver. lia. }
  { pose proof (size_add bm L). lia. }
  exists s4. split; [|split; [done|split; [by etrans; [|etrans; [|etrans]]|]]].
  - unfold balloc_bits. apply (for_n_find _ _ _ j).
    + change BPB with 4096. unfold block_bits in Hj. lia.
    + intros i Hi. destruct (bm_get i ltac:(lia)) as (u & Hgu & _ & Hbu).
      rewrite (bind_ok _ _ _ _ _ Hgu), Hbu, Hlt by lia. done.
    + rewrite (bind_ok _ _ _ _ _ Hg), Hbit. cbn [negb]. unfold set_byte.
      rewrite (bind_ok _ _ _ tt s1) by (by rewrite (bind_ok _ _ _ _ _ Hg)).
      rewrite (bind_ok _ _ _ _ _ R2), (bind_ok _ _ _ _ _ R3), (bind_ok _ _ _ _ _ R4). done.
  - intros b n Hn Hb. apply K4, K3; [done|]. by apply K2, K1.
Qed.
End block.

(** ** The whole bitmap *)

(** The blocks a caller may hold while it allocates: not the superblock, not the
    bitmap, not the block that will be found. *)
Definition clear_of (V : Z → list Z) (B : gset Z) (x : Z) : Prop :=
  (1 ∉ B) ∧ (x ∉ B) ∧ ∀ b, 0 ≤ b < sbsize V → bmblock V b ∉ B.

Lemma bblock_eq V start b : fsgeo V start → 0 ≤ b < sbsize V →
  BBLOCK b (ninodes V) = bmblock V b ∧ 1 < bmblock V b < start.
Proof.
  intros [] Hb. pose proof (g_bm0 b Hb) as Hlt. unfold BBLOCK, bmblock in *.
  change BPB with 4096. change IPB with 8.
  pose proof (Z.div_pos b 4096 ltac:(lia)). pose proof (Z.div_pos (ninodes V) 8 ltac:(lia)).
  rewrite u32_small by lia. lia.
Qed.

Definition allocated (V : Z → list Z) (x : Z) : Z → list Z :=
  vupd (set_bmbyte V x (Z.lor (default 0 (znth (V (bmblock V x)) (bmbyte x))) (Z.shiftl 1 (x mod 8))))
    x (replicate 512 0).

(** The step over one bitmap block, as [balloc] runs it. *)
Definition balloc_block (V : Z → list Z) (k : Z) : M logst (option Z) :=
  let* bp := zoom (bread 1 (BBLOCK (k * 4096) (ninodes V))) in
  let* r := balloc_bits 1 (sbsize V) bp (k * 4096) in
  match r with Some x => ret (Some x) | None => zoom (brelse bp) ;; ret None end.

Lemma balloc_eq s V B L X : tx s V B L X → fsgeo V (lg_start s) → 1 < lg_start s → 1 ∉ B →
  (size (B ∪ L) < 10)%nat → ∃ s0, tx s0 V B L X ∧ steps s s0 ∧ keep s s0 ∧
    balloc 1 s = (let* r := for_to 0 ((sbsize V + 4095) / 4096) (balloc_block V) in
                  match r with Some x => ret x | None => panic "balloc: out of blocks" end) s0.
Proof.
  intros Htx Hg Hst HB Hsz. destruct (tx_readsb s V B L X Htx Hst HB Hsz) as (s0 & R0 & T0 & S0 & K0).
  exists s0. do 3 (split; [done|]). unfold balloc. by rewrite (bind_ok _ _ _ _ _ R0).
Qed.

Lemma keep_but s s' V B L X n : tx s V B L X → n ∉ B →
  (∀ b m, m ≠ n → holds (lg_bio s) b m → holds (lg_bio s') b m) → keep s s'.
Proof.
  intros Htx Hn K b m Hm. apply K; [|done]. destruct (tx_held _ _ _ _ _ Htx b m Hm) as (Hin & _).
  by intros ->.
Qed.

Section step.
Context (s : logst) (V : Z → list Z) (B L X : gset Z) (k : Z).
Context (Htx : tx s V B L X) (Hg : fsgeo V (lg_start s)) (Hk : 0 ≤ k) (Hkb : k * 4096 < sbsize V).
Context (HB : bmblock V (k * 4096) ∉ B) (Hroom : (size (B ∪ L) + 2 < 10)%nat).

Lemma block_skip : (∀ j, 0 ≤ j < 4096 → k * 4096 + j < sbsize V → used V (k * 4096 + j) = true) →
  ∃ s', balloc_block V k s = Ok None s' ∧ tx s' V B L X ∧ steps s s' ∧ keep s s'.
Proof.
  intros Hall. assert (Hr : 0 ≤ k * 4096 < sbsize V) by lia. assert (Hroom' : (size (B ∪ L) < 10)%nat) by lia.
  unfold balloc_block. destruct (bblock_eq V _ (k * 4096) Hg Hr) as [-> Hbm].
  set (bm := bmblock V (k * 4096)) in *. pose proof (tx_unmod _ _ _ _ _ _ Htx HB) as HbX.
  destruct (tx_bread s V B L X bm Htx ltac:(lia) HB (or_introl Hroom')) as (bp & t1 & Q1 & T1 & H1 & _ & S1 & K1).
  destruct (tx_brelse t1 V _ L X bp bm T1 H1 HbX) as (t2 & Q2 & T2 & S2 & K2).
  rewrite (bind_ok _ _ _ _ _ Q1), (bind_ok _ _ _ None t1).
  2: { apply (bits_none t1 V B L X bp k (sbsize V)); [lia|done|done|].
       intros j Hj. unfold block_bits in Hj. apply Hall; lia. }
  rewrite (bind_ok _ _ _ _ _ Q2). exists t2. split; [done|].
  replace (({[bm]} ∪ B) ∖ {[bm]} : gset Z) with B in T2 by set_solver. split; [done|].
  split; [by etrans|]. eapply keep_but; [exact Htx|exact HB|]. intros b m Hm Hh. by apply K2, K1.
Qed.

Lemma block_take x : x = k * 4096 + x mod 4096 → x < sbsize V → x < lg_start s → used V x = false → x ∉ B →
  (∀ b, k * 4096 ≤ b < x → used V b = true) → Z.of_nat (size L) + 2 < lg_size s →
  ∃ s', balloc_block V k s = Ok (Some x) s' ∧
    tx s' (allocated V x) B ({[x]} ∪ ({[bmblock V x]} ∪ L)) X ∧ steps s s' ∧ keep s s'.
Proof.
  intros Ex Hx Hxs Hfree HxB Hleast Hcap. assert (Hr : 0 ≤ k * 4096 < sbsize V) by lia.
  pose proof (Z.mod_pos_bound x 4096 ltac:(lia)) as Hmod. set (j := x mod 4096) in *.
  assert (Hroom' : (size (B ∪ L) < 10)%nat) by lia. pose proof Hg as [G1 G2 G3 G4 G5].
  unfold balloc_block. destruct (bblock_eq V _ (k * 4096) Hg Hr) as [-> Hbm].
  assert (Eb : bmblock V x = bmblock V (k * 4096)) by (rewrite Ex; by apply bit_of).
  rewrite Eb. pose proof (G5 x ltac:(lia) Hfree _ Hr) as Hlt.
  set (bm := bmblock V (k * 4096)) in *. pose proof (tx_unmod _ _ _ _ _ _ Htx HB) as HbX.
  destruct (tx_bread s V B L X bm Htx ltac:(lia) HB (or_introl Hroom')) as (bp & t1 & Q1 & T1 & H1 & _ & S1 & K1).
  pose proof (sp_start _ _ S1) as Es. pose proof (sp_size _ _ S1) as Ez.
  destruct (bits_found t1 V B L X bp k (sbsize V) Hk T1 H1 HbX j) as (t2 & Q2 & T2 & S2 & K2);
    rewrite <- ?Ex; try done; try lia.
  { unfold block_bits. lia. } { intros i Hi. apply Hleast. lia. }
  rewrite <- Ex in Q2, T2. fold bm in T2. rewrite (bind_ok _ _ _ _ _ Q1), (bind_ok _ _ _ _ _ Q2).
  exists t2. split; [done|]. split; [|split; [by etrans|]].
  - unfold allocated. by rewrite Eb.
  - eapply keep_but; [exact Htx|exact HB|]. intros b m Hm Hh. by apply K2, K1.
Qed.
End step.

Lemma blocks_up V : 0 ≤ sbsize V → ∀ k, k < (sbsize V + 4095) / 4096 ↔ k * 4096 < sbsize V.
Proof.
  intros H k. pose proof (Z.div_mod (sbsize V + 4095) 4096 ltac:(lia)).
  pose proof (Z.mod_pos_bound (sbsize V + 4095) 4096 ltac:(lia)). lia.
Qed.

Lemma balloc_ok s V B L X x : tx s V B L X → fsgeo V (lg_start s) → clear_of V B x →
  0 ≤ x < sbsize V → x < lg_start s → used V x = false → (∀ b, 0 ≤ b < x → used V b = true) →
  (size (B ∪ L) + 2 < 10)%nat → Z.of_nat (size L) + 2 < lg_size s →
  ∃ s', balloc 1 s = Ok x s' ∧ tx s' (allocated V x) B ({[x]} ∪ ({[bmblock V x]} ∪ L)) X ∧
    steps s s' ∧ keep s s'.
Proof.
  intros Htx Hg (H1B & HxB & HbB) Hx Hxs Hfree Hleast Hsz Hcap.
  pose proof (bblock_eq V _ x Hg Hx) as [_ Hbmx]. assert (Hroom : (size (B ∪ L) < 10)%nat) by lia.
  destruct (balloc_eq s V B L X Htx Hg ltac:(lia) H1B Hroom) as (s0 & T0 & S0 & K0 & ->).
  pose proof (Z.div_mod x 4096 ltac:(lia)) as Hdm. pose proof (Z.mod_pos_bound x 4096 ltac:(lia)) as Hmod.
  destruct (for_n_inv (B:=Z) (I := λ k t, k ≤ x / 4096 ∧ tx t V B L X ∧ steps s t ∧ keep s t)
    (Q := λ b t, b = x ∧ tx t (allocated V x) B ({[x]} ∪ ({[bmblock V x]} ∪ L)) X ∧ steps s t ∧ keep s t)
    (balloc_block V) (Z.to_nat ((sbsize V + 4095) / 4096 - 0)) 0 s0) as (r & s' & R & HQ).
  { split; [apply Z.div_pos; lia|done]. }
  { intros k t Hk (Hle & Tt & St & Kt). pose proof (sp_start _ _ St) as Es. pose proof (sp_size _ _ St) as Ez.
    assert (Hgt : fsgeo V (lg_start t)) by (by rewrite Es).
    destruct (decide (k = x / 4096)) as [Ek|Hne].
    - destruct (block_take t V B L X k Tt Hgt ltac:(lia) ltac:(lia) ltac:(apply HbB; lia) Hsz x)
        as (t' & R & T' & S' & K'); try done; try lia.
      { intros b Hb. apply Hleast. lia. }
      exists (Some x), t'. split; [done|]. do 2 (split; [done|]). split; [by etrans|]. intros b n Hn. by apply K', Kt.
    - destruct (block_skip t V B L X k Tt Hgt ltac:(lia) ltac:(lia) ltac:(apply HbB; lia) Hsz)
        as (t' & R & T' & S' & K').
      { intros j Hj _. apply Hleast. lia. }
      exists None, t'. split; [done|]. split; [lia|]. split; [done|]. split; [by etrans|].
      intros b n Hn. by apply K', Kt. }
  exists s'. unfold for_to. rewrite (bind_ok _ _ _ _ _ R).
  pose proof (proj2 (blocks_up V ltac:(lia) (x / 4096)) ltac:(lia)).
  destruct r as [b|]; [|lia]. by destruct HQ as (-> & HT & HS & HK).
Qed.

Lemma balloc_full s V B L X : tx s V B L X → fsgeo V (lg_start s) → 1 < lg_start s → clear_of V B 1 →
  (∀ b, 0 ≤ b < sbsize V → used V b = true) → (size (B ∪ L) + 2 < 10)%nat →
  ∃ s', balloc 1 s = Panic "balloc: out of blocks" s' ∧ tx s' V B L X ∧ steps s s'.
Proof.
  intros Htx Hg Hst (H1B & _ & HbB) Hall Hsz. assert (Hroom : (size (B ∪ L) < 10)%nat) by lia.
  destruct (balloc_eq s V B L X Htx Hg Hst H1B Hroom) as (s0 & T0 & S0 & K0 & ->).
  destruct (for_n_inv (B:=Z) (I := λ k t, tx t V B L X ∧ steps s t ∧ keep s t) (Q := λ b t, False)
    (balloc_block V) (Z.to_nat ((sbsize V + 4095) / 4096 - 0)) 0 s0) as (r & s' & R & HQ).
  { done. }
  { intros k t Hk (Tt & St & Kt). pose proof (g_size _ _ Hg).
    pose proof (proj1 (blocks_up V ltac:(lia) k) ltac:(lia)).
    destruct (block_skip t V B L X k Tt ltac:(by rewrite (sp_start _ _ St)) ltac:(lia) ltac:(lia) ltac:(apply HbB; lia) Hsz)
        as (t' & R & T' & S' & K').
    { intros j Hj ?. apply Hall. lia. }
    exists None, t'. split; [done|]. split; [done|]. split; [by etrans|]. intros b n Hn. by apply K', Kt. }
  unfold for_to. rewrite (bind_ok _ _ _ _ _ R). destruct r; [done|]. exists s'. by destruct HQ as (? & ? & _).
Qed.

Lemma testbit_clear v i j : 0 ≤ i → 0 ≤ j →
  Z.testbit (Z.land v (Z.lnot (Z.shiftl 1 i))) j = Z.testbit v j && negb (j =? i).
Proof.
  intros Hi Hj. rewrite Z.land_spec, Z.lnot_spec, Z.shiftl_1_l, Z.pow2_bits_eqb by lia.
  by rewrite (Z.eqb_sym i j).
Qed.
Lemma testbit_set v i j : 0 ≤ i → 0 ≤ j →
  Z.testbit (Z.lor v (Z.shiftl 1 i)) j = Z.testbit v j || (j =? i).
Proof.
  intros Hi Hj. rewrite Z.lor_spec, Z.shiftl_1_l, Z.pow2_bits_eqb by lia. by rewrite (Z.eqb_sym i j).
Qed.

Definition freed (V : Z → list Z) (x : Z) : Z → list Z :=
  set_bmbyte V x (Z.land (default 0 (znth (V (bmblock V x)) (bmbyte x))) (Z.lnot (Z.shiftl 1 (x mod 8)))).

Section bfree.
Context (s : logst) (V : Z → list Z) (B L X : gset Z) (x : Z).
Context (Htx : tx s V B L X) (Hg : fsgeo V (lg_start s)) (Hx : 0 ≤ x < sbsize V).
Context (H1B : 1 ∉ B) (HbB : bmblock V x ∉ B) (Hroom : (size (B ∪ L) + 2 < 10)%nat).

Lemma bfree_free : used V x = false →
  ∃ s', bfree 1 x s = Panic "freeing free block" s' ∧ steps s s'.
Proof.
  intros Hfree. destruct (bblock_eq V _ x Hg Hx) as [Ebm Hbm]. assert (Hr : (size (B ∪ L) < 10)%nat) by lia.
  destruct (tx_readsb s V B L X Htx ltac:(lia) H1B Hr) as (s0 & R0 & T0 & S0 & K0).
  pose proof (sp_start _ _ S0) as Es.
  destruct (tx_bread s0 V B L X (bmblock V x) T0 ltac:(lia) HbB (or_introl Hr))
    as (bp & s1 & R1 & T1 & H1 & D1 & S1 & K1).
  unfold bfree. rewrite (bind_ok _ _ _ _ _ R0). cbn [sb_ninodes sb_of]. fold (ninodes V).
  rewrite Ebm, (bind_ok _ _ _ _ _ R1). change BPB with 4096.
  pose proof (tx_block _ _ _ _ _ (bmblock V x) T0 ltac:(lia)) as Hlen.
  destruct (znth_is_Some (V (bmblock V x)) (bmbyte x)) as [v Hv].
  { unfold zlen. rewrite Hlen. apply bm_index. lia. }
  change (x mod 4096 / 8) with (bmbyte x).
  rewrite (bind_ok _ _ _ _ _ (get_byte_ok s1 V _ L X bp _ _ _ T1 H1 Hv)).
  rewrite (proj2 (bm_index x ltac:(lia))), eq0_bit by (apply Z.mod_pos_bound; lia).
  unfold used in Hfree. rewrite Hv in Hfree. simpl in Hfree. rewrite Hfree.
  exists s1. split; [done|by etrans].
Qed.

Lemma bfree_used : used V x = true → Z.of_nat (size L) + 1 < lg_size s →
  ∃ s', bfree 1 x s = Ok tt s' ∧ tx s' (freed V x) B ({[bmblock V x]} ∪ L) X ∧ steps s s' ∧ keep s s'.
Proof.
  intros Huse Hcap. destruct (bblock_eq V _ x Hg Hx) as [Ebm Hbm]. assert (Hr : (size (B ∪ L) < 10)%nat) by lia.
  destruct (tx_readsb s V B L X Htx ltac:(lia) H1B Hr) as (s0 & R0 & T0 & S0 & K0).
  pose proof (sp_start _ _ S0) as Es. pose proof (sp_size _ _ S0) as Ez.
  set (f := λ d, zupd (bmbyte x) (u8 (Z.land (default 0 (znth (V (bmblock V x)) (bmbyte x)))
                                             (Z.lnot (Z.shiftl 1 (x mod 8))))) d).
  pose proof (tx_block _ _ _ _ _ (bmblock V x) T0 ltac:(lia)) as Hlen.
  pose proof (size_add (bmblock V x) (B ∪ L)) as Hadd.
  destruct (tx_modify s0 V B L X (bmblock V x) f T0 ltac:(lia) HbB)
    as (bp & s1 & s2 & s3 & s4 & R1 & H1 & D1 & T1 & R2 & R3 & R4 & T4 & S4 & K4).
  { pose proof (zlen_zupd (V (bmblock V x)) (bmbyte x) (u8 (Z.land (default 0 (znth (V (bmblock V x)) (bmbyte x))) (Z.lnot (Z.shiftl 1 (x mod 8)))))) as E. unfold f, zlen in *. lia. } { rewrite <- union_assoc_L. lia. } { by rewrite Ez. }
  unfold bfree. rewrite (bind_ok _ _ _ _ _ R0). cbn [sb_ninodes sb_of]. fold (ninodes V).
  rewrite Ebm, (bind_ok _ _ _ _ _ R1). change BPB with 4096.
  destruct (znth_is_Some (V (bmblock V x)) (bmbyte x)) as [v Hv].
  { unfold zlen. rewrite Hlen. apply bm_index. lia. }
  change (x mod 4096 / 8) with (bmbyte x).
  pose proof (get_byte_ok s1 V _ L X bp _ _ _ T1 H1 Hv) as Gb. rewrite (bind_ok _ _ _ _ _ Gb).
  rewrite (proj2 (bm_index x ltac:(lia))), eq0_bit by (apply Z.mod_pos_bound; lia).
  unfold used in Huse. rewrite Hv in Huse. simpl in Huse. rewrite Huse. cbn [negb panic_if].
  unfold f in R2. rewrite Hv in R2. simpl in R2.
  rewrite (bind_ok _ _ _ tt s1) by done. unfold set_byte. rewrite (bind_ok _ _ _ tt s2).
  2: { rewrite (bind_ok _ _ _ _ _ Gb). exact R2. }
  rewrite (bind_ok _ _ _ _ _ R3). exists s4. split; [exact R4|]. split; [done|]. split; [by etrans|].
  intros b n Hn. by apply K4, K0.
Qed.
End bfree.

Lemma freed_used s V B L X x b : tx s V B L X → fsgeo V (lg_start s) → 0 ≤ x < sbsize V → 0 ≤ b →
  used (freed V x) b = used V b && negb (b =? x).
Proof.
  intros Htx Hg Hx Hb. pose proof (bblock_eq V _ x Hg Hx) as [_ Hbm]. pose proof (Z.mod_pos_bound x 8 ltac:(lia)).
  unfold freed. rewrite set_bmbyte_used; [|by apply (tx_block _ _ _ _ _ _ Htx); lia|lia|apply Hg|done|].
  - destruct (Z.eqb_spec b x) as [->|]; [|by rewrite andb_true_r].
    by rewrite testbit_clear, Z.eqb_refl, !andb_false_r by lia.
  - intros j Hj Hne. rewrite testbit_clear by lia. destruct (Z.eqb_spec j (x mod 8)); [done|]. by rewrite andb_true_r.
Qed.

Lemma allocated_used s V B L X x b : tx s V B L X → fsgeo V (lg_start s) → 0 ≤ x < sbsize V → used V x = false →
  0 ≤ b < sbsize V → used (allocated V x) b = used V b || (b =? x).
Proof.
  intros Htx Hg Hx Hfree Hb. pose proof (bblock_eq V _ x Hg Hx) as [_ Hbm].
  pose proof (Z.mod_pos_bound x 8 ltac:(lia)).
  assert (Hnin : 0 ≤ ninodes V) by apply Hg.
  pose proof (tx_block _ _ _ _ _ (bmblock V x) Htx ltac:(lia)) as Hlen.
  pose proof (g_data _ _ Hg x Hx Hfree b Hb) as Hlt. pose proof (bblock_eq V _ b Hg Hb) as [_ Hb1].
  unfold allocated. set (v := Z.lor _ _). set (V1 := set_bmbyte V x v).
  assert (Hb' : bmblock (vupd V1 x (replicate 512 0)) b = bmblock V b).
  { unfold bmblock, ninodes, vupd. destruct (Z.eqb_spec 1 x); [lia|].
    unfold V1. by rewrite set_bmbyte_sb by lia. }
  transitivity (used V1 b).
  { unfold used at 1. rewrite Hb'. unfold vupd. destruct (Z.eqb_spec (bmblock V b) x); [lia|].
    unfold used, V1. by rewrite set_bmbyte_block by lia. }
  unfold V1. rewrite set_bmbyte_used; [|by apply (tx_block _ _ _ _ _ _ Htx); lia|lia|done|lia|].
  - destruct (Z.eqb_spec b x) as [->|]; [|by rewrite orb_false_r].
    unfold v. by rewrite testbit_set, Z.eqb_refl, !orb_true_r by lia.
  - intros j Hj Hne. unfold v. rewrite testbit_set by lia.
    destruct (Z.eqb_spec j (x mod 8)); [done|]. by rewrite orb_false_r.
Qed.
End ops.

(** * Theorems *)

(** C34: inside a transaction, [balloc] returns the least block whose bitmap bit is
    clear, when that block lies below the log (the search itself does not stop
    there); afterwards its bit is set and no other bit has changed, the block is
    zeroed, every other block is as it was, the bitmap block and the new block are
    logged and released, and only sectors of the log have been written to the
    disk.  When every bit is set it panics. *)
Theorem balloc_spec {WF : WaitFuel} s V B L X :
  tx s V B L X → fsgeo V (lg_start s) → 1 < lg_start s →
  (1 ∉ B) → (∀ b, 0 ≤ b < sbsize V → bmblock V b ∉ B) →
  (size (B ∪ L) + 2 < 10)%nat → Z.of_nat (size L) + 2 < lg_size s →
  (∀ x, 0 ≤ x < sbsize V → used V x = false → (∀ b, 0 ≤ b < x → used V b = true) →
     x < lg_start s → x ∉ B →
     ∃ s' V', balloc 1 s = Ok x s' ∧ tx s' V' B ({[x]} ∪ ({[bmblock V x]} ∪ L)) X ∧ steps s s' ∧
       V' x = replicate 512 0 ∧
       (∀ b, 0 ≤ b < sbsize V → used V' b = used V b || (b =? x)) ∧
       (∀ n, n ≠ x → n ≠ bmblock V x → V' n = V n)) ∧
  ((∀ b, 0 ≤ b < sbsize V → used V b = true) →
     ∃ s', balloc 1 s = Panic "balloc: out of blocks" s' ∧ steps s s').
Proof.
  intros Htx Hg Hst H1 HbB Hsz Hcap. split.
  - intros x Hx Hfree Hleast Hxs HxB.
    destruct (balloc_ok s V B L X x) as (s' & R & T & S & _); try done.
    exists s', (allocated V x). do 3 (split; [done|]). split; [|split].
    + unfold allocated, vupd. by rewrite Z.eqb_refl.
    + intros b Hb. by eapply allocated_used.
    + intros n H2 H3. unfold allocated, set_bmbyte, vupd.
      destruct (Z.eqb_spec n x); [done|]. by destruct (Z.eqb_spec n (bmblock V x)).
  - intros Hall. destruct (balloc_full s V B L X) as (s' & R & _ & S); try done. by exists s'.
Qed.

(** [bfree] of an allocated block clears its bitmap bit, and no other bit and
    no other block changes; of a free block it panics. *)
Theorem bfree_spec {WF : WaitFuel} s V B L X x :
  tx s V B L X → fsgeo V (lg_start s) → 0 ≤ x < sbsize V → (1 ∉ B) → (bmblock V x ∉ B) →
  (size (B ∪ L) + 2 < 10)%nat → Z.of_nat (size L) + 1 < lg_size s →
  if used V x then
    ∃ s' V', bfree 1 x s = Ok tt s' ∧ tx s' V' B ({[bmblock V x]} ∪ L) X ∧ steps s s' ∧
      (∀ b, 0 ≤ b → used V' b = used V b && negb (b =? x)) ∧
      (∀ n, n ≠ bmblock V x → V' n = V n)
  else ∃ s', bfree 1 x s = Panic "freeing free block" s' ∧ steps s s'.
Proof.
  intros Htx Hg Hx H1 HbB Hsz Hcap. destruct (used V x) eqn:Hu; [|by eapply bfree_free].
  destruct (bfree_used s V B L X x) as (s' & R & T & S & _); try done.
  exists s', (freed V x). do 3 (split; [done|]). split.
  - intros b Hb. by eapply freed_used.
  - intros n Hn. unfold freed, set_bmbyte, vupd. by destruct (Z.eqb_spec n (bmblock V x)).
Qed.

(** ** Witnesses *)

#[local] Instance balloc_fuel : WaitFuel := 0%nat.

(** A small image laid out as the image builder does it: the superblock in block
    1, inodes in 2 and 3, the bitmap in 4, data from 5 on and the log in 45-59;
    the bits of the blocks in use are the first ones. *)
Definition demo_bits (n : Z) : list Z := zupd (n / 8) (2 ^ (n mod 8) - 1) (replicate (Z.to_nat (n / 8)) 255 ++
  replicate (Z.to_nat (512 - n / 8)) 0).
Definition demo_image (inodes : list Z) (n : Z) : list (list Z) :=
  [replicate 512 0; put32 12 15 (put32 8 8 (put32 4 40 (put32 0 60 (replicate 512 0)))); inodes;
   replicate 512 0; demo_bits n] ++ replicate 55 (replicate 512 0).
Definition demo_img : list (list Z) := demo_image (replicate 512 0) 21.

Lemma blocks512 (d : list (list Z)) : forallb (λ x, Nat.eqb (length x) 512) d = true →
  ∀ n, 0 ≤ n < zlen d → length (blk d n) = 512%nat.
Proof.
  intros HF n Hn. destruct (znth_is_Some _ _ Hn) as [x Hx]. unfold blk. rewrite Hx. simpl.
  apply Nat.eqb_eq. rewrite forallb_forall in HF. apply HF. unfold znth in Hx. destruct (0 <=? n); [|done].
  by eapply list_elem_of_In, list_elem_of_lookup_2.
Qed.
Lemma demo_image_ok : disk_ok demo_img 45 15 ∧ committed demo_img 45 15 [].
Proof.
  split.
  - split; try (vm_compute; done). by apply blocks512.
  - split; [|by intros v ?%elem_of_nil|apply NoDup_nil_2|vm_compute; done].
    split; [vm_compute; done|]. split; [vm_compute; done|]. split; [simpl; lia|done].
Qed.
Lemma demo_fsgeo : fsgeo (blk demo_img) 45.
Proof.
  assert (Hbm : ∀ b, 0 ≤ b < 60 → bmblock (blk demo_img) b = 4).
  { intros b Hb. unfold bmblock. rewrite Z.div_small by lia. vm_compute. done. }
  split; [lia|vm_compute; split; discriminate|vm_compute; discriminate| |]; change (sbsize (blk demo_img)) with 60.
  - intros b Hb. rewrite Hbm by done. lia.
  - intros b Hb Hu b' Hb'. rewrite Hbm by done. destruct (Z.le_gt_cases b 4); [|lia].
    assert (b = 0 ∨ b = 1 ∨ b = 2 ∨ b = 3 ∨ b = 4) as Hc by lia.
    by destruct Hc as [->|[->|[->|[->| ->]]]].
Qed.
Lemma demo_tx : ∃ r s, boot (power_on (demo_base [zero_proc]) demo_img) = Ok tt r ∧
  begin_trans r = Ok tt s ∧ tx s (blk demo_img) ∅ ∅ ∅ ∧ lg_start s = 45 ∧ lg_size s = 15.
Proof.
  apply boot_begin; [apply demo_base_idle|apply demo_base_idle|apply demo_image_ok|apply demo_image_ok].
Qed.

Lemma balloc_spec_witness : ∃ s s' V', balloc 1 s = Ok 21 s' ∧ tx s' V' ∅ ({[21]} ∪ ({[4]} ∪ ∅)) ∅ ∧
  used V' 21 = true ∧ used V' 22 = false.
Proof.
  destruct demo_tx as (r & s & _ & _ & T & Es & Ez). exists s.
  destruct (balloc_spec s (blk demo_img) ∅ ∅ ∅ T) as [H _].
  - rewrite Es. apply demo_fsgeo.
  - lia.
  - set_solver.
  - set_solver.
  - vm_compute. lia.
  - rewrite Ez. vm_compute. reflexivity.
  - destruct (H 21) as (s' & V' & R & T' & _ & _ & Hu & _).
    + vm_compute. split; [discriminate|reflexivity].
    + vm_compute. reflexivity.
    + intros b Hb. assert (Hall : forallb (used (blk demo_img)) (seqZ 0 21) = true) by (vm_compute; reflexivity).
      rewrite forallb_forall in Hall. apply Hall. apply list_elem_of_In, elem_of_seqZ. lia.
    + lia.
    + set_solver.
    + exists s', V'. split; [exact R|]. split; [exact T'|]. split.
      * rewrite Hu; [vm_compute; reflexivity|]. vm_compute. split; [discriminate|reflexivity].
      * rewrite Hu; [vm_compute; reflexivity|]. vm_compute. split; [discriminate|reflexivity].
Defined.

Lemma bfree_spec_witness : ∃ s,
  (∃ s' V', bfree 1 20 s = Ok tt s' ∧ tx s' V' ∅ ({[4]} ∪ ∅) ∅ ∧ used V' 20 = false ∧ used V' 19 = true) ∧
  (∃ s', bfree 1 30 s = Panic "freeing free block" s').
Proof.
  destruct demo_tx as (r & s & _ & _ & T & Es & Ez). exists s.
  assert (Hg : fsgeo (blk demo_img) (lg_start s)) by (rewrite Es; apply demo_fsgeo).
  assert (Hsz : (size (∅ ∪ ∅ : gset Z) + 2 < 10)%nat) by (vm_compute; lia).
  assert (Hcap : Z.of_nat (size (∅ : gset Z)) + 1 < lg_size s) by (rewrite Ez; vm_compute; reflexivity).
  split.
  - destruct (bfree_spec s (blk demo_img) ∅ ∅ ∅ 20 T Hg ltac:(vm_compute; split; [discriminate|reflexivity])
      ltac:(set_solver) ltac:(set_solver) Hsz Hcap) as (s' & V' & R & T' & _ & Hu & _).
    exists s', V'. split; [exact R|]. split; [exact T'|]. split; (rewrite Hu; [vm_compute; reflexivity|lia]).
  - destruct (bfree_spec s (blk demo_img) ∅ ∅ ∅ 30 T Hg ltac:(vm_compute; split; [discriminate|reflexivity])
      ltac:(set_solver) ltac:(set_solver) Hsz Hcap) as (s' & R & _).
    exists s'. exact R.
Defined.

(** The image builder marks only the first blocks of the image as used, so the
    bits of the log's own sectors are clear: once the data blocks are all in use,
    [balloc], which searches up to the size of the whole image, returns the first
    sector of the log instead of reporting a full disk. *)
Theorem balloc_hands_out_log : ∃ r s s',
  boot (power_on (demo_base [zero_proc]) (demo_image (replicate 512 0) 45)) = Ok tt r ∧
  begin_trans r = Ok tt s ∧ lg_start s = 45 ∧ balloc 1 s = Ok (lg_start s) s'.
Proof.
  assert (H : match boot (power_on (demo_base [zero_proc]) (demo_image (replicate 512 0) 45)) with
    | Ok _ r => match begin_trans r with
      | Ok _ s => match balloc 1 s with Ok x _ => (lg_start s =? 45) && (x =? lg_start s) | _ => false end
      | _ => false end
    | _ => false end = true) by (vm_compute; reflexivity).
  destruct (boot _) as [[] r| | | |]; try discriminate H.
  destruct (begin_trans r) as [[] s| | | |] eqn:Hb; try discriminate H.
  destruct (balloc 1 s) as [x s'| | | |] eqn:Ha; try discriminate H.
  apply andb_prop in H as [H1 H2]. apply Z.eqb_eq in H1, H2. subst x. by exists r, s, s'.
Qed.
