(* ===== verification/Dinode.v ===== *)
(** On-disk inodes: [iupdate] and [ilock] of [fs.c] inside a transaction, and the
    round trip of an inode through the disk. *)

From S2P Require Import Prelude Spin Sched Mem Str Dll Bio Log Tx Fs Inode Balloc.

(** * The encoding *)

Lemma length_put16 o v d : (o + 2 ≤ length d)%nat → length (put16 o v d) = length d.
Proof. intros. apply length_splice. by rewrite length_le_enc. Qed.
Lemma get16_put16 o v d : (o + 2 ≤ length d)%nat → get16 o (put16 o v d) = u16 v.
Proof.
  intros. unfold get16, put16. pose proof (length_le_enc 2 v) as Hl.
  rewrite <- Hl at 1. rewrite slice_splice by lia. apply le_dec_enc.
Qed.
Lemma slice_put16 o o' n v d : (o + 2 ≤ length d)%nat → (o' + n ≤ o ∨ o + 2 ≤ o')%nat →
  slice o' n (put16 o v d) = slice o' n d.
Proof. intros. apply slice_splice_other; rewrite length_le_enc; lia. Qed.
Lemma slice_put32 o o' n v d : (o + 4 ≤ length d)%nat → (o' + n ≤ o ∨ o + 4 ≤ o')%nat →
  slice o' n (put32 o v d) = slice o' n d.
Proof. intros. apply slice_splice_other; rewrite length_le_enc; lia. Qed.
Lemma length_put_words l : ∀ o d, (o + 4 * length l ≤ length d)%nat → length (put_words o l d) = length d.
Proof.
  induction l as [|v l IH]; intros o d H; [done|]. simpl in *.
  rewrite IH; rewrite length_put32; lia.
Qed.
Lemma slice_put_words l : ∀ o o' n d, (o + 4 * length l ≤ length d)%nat →
  (o' + n ≤ o ∨ o + 4 * length l ≤ o')%nat → slice o' n (put_words o l d) = slice o' n d.
Proof.
  induction l as [|v l IH]; intros o o' n d H Hd; [done|]. simpl in *.
  rewrite IH by (rewrite ?length_put32; lia). apply slice_put32; lia.
Qed.
Lemma get_words_put l : ∀ o d, (o + 4 * length l ≤ length d)%nat →
  get_words (length l) o (put_words o l d) = u32 <$> l.
Proof.
  induction l as [|v l IH]; intros o d H; [done|]. simpl in *. f_equal.
  - unfold get32. rewrite slice_put_words by (rewrite ?length_put32; lia). apply get32_put32. lia.
  - apply IH. rewrite length_put32; lia.
Qed.
Lemma s16_u16 z : - 2 ^ 15 ≤ z < 2 ^ 15 → s16 (u16 z) = z.
Proof.
  intros H. unfold s16, u16. rewrite Zplus_mod_idemp_l, Z.mod_small by lia. lia.
Qed.

(** The values the fields of an inode can have in C. *)
Record inode_fields (r : inode) : Prop := {
  if_type : - 2 ^ 15 ≤ i_type r < 2 ^ 15;
  if_major : - 2 ^ 15 ≤ i_major r < 2 ^ 15;
  if_minor : - 2 ^ 15 ≤ i_minor r < 2 ^ 15;
  if_nlink : - 2 ^ 15 ≤ i_nlink r < 2 ^ 15;
  if_size : 0 ≤ i_size r < 2 ^ 32;
  if_len : length (i_addrs r) = 13%nat;
  if_addrs : ∀ i a, znth (i_addrs r) i = Some a → 0 ≤ a < 2 ^ 32;
}.
(** Same contents, whatever the reference count and the flags. *)
Definition same_inode (r r' : inode) : Prop :=
  i_type r' = i_type r ∧ i_major r' = i_major r ∧ i_minor r' = i_minor r ∧
  i_nlink r' = i_nlink r ∧ i_size r' = i_size r ∧ i_addrs r' = i_addrs r.

(** Lengths of blocks with fields stored in them. *)
Ltac len := repeat first [rewrite length_put_words by len | rewrite length_put32 by len | rewrite length_put16 by len];
  lia.

Section dinode.
Context (o : nat) (d : list Z) (Hlen : (o + 64 ≤ length d)%nat).
Context (r : inode) (Hr : inode_fields r).

Lemma length_put_dinode : length (put_dinode o r d) = length d.
Proof. pose proof (if_len _ Hr) as Ha. unfold put_dinode. len. Qed.
Lemma slice_put_dinode o' n : (o' + n ≤ o ∨ o + 64 ≤ o')%nat →
  slice o' n (put_dinode o r d) = slice o' n d.
Proof.
  intros Hd. pose proof (if_len _ Hr) as Ha. unfold put_dinode.
  rewrite slice_put_words, slice_put32, !slice_put16; (done || len).
Qed.
Lemma get_put_dinode x : same_inode r (get_dinode o (put_dinode o r d) x).
Proof.
  pose proof (if_len _ Hr) as Ha. destruct Hr. unfold same_inode, get_dinode.
  cbn [i_type i_major i_minor i_nlink i_size i_addrs].
  unfold put_dinode, get16, get32.
  assert (H16 : ∀ p v e, (p + 2 ≤ length e)%nat → - 2 ^ 15 ≤ v < 2 ^ 15 → s16 (le_dec (slice p 2 (put16 p v e))) = v).
  { intros p v e Hp Hv. fold (get16 p (put16 p v e)). rewrite get16_put16 by done. by apply s16_u16. }
  repeat split.
  - rewrite slice_put_words, slice_put32, !slice_put16 by len. apply H16; [len|done].
  - rewrite slice_put_words, slice_put32, !slice_put16 by len. apply H16; [len|done].
  - rewrite slice_put_words, slice_put32, slice_put16 by len. apply H16; [len|done].
  - rewrite slice_put_words, slice_put32 by len. apply H16; [len|done].
  - rewrite slice_put_words by len.
    match goal with |- le_dec (slice ?p 4 ?e) = _ => change (get32 p e = i_size r) end.
    rewrite get32_put32 by len. by apply u32_small.
  - rewrite <- Ha, get_words_put by len.
    apply list_eq. intros i. rewrite list_lookup_fmap. destruct (i_addrs r !! i) as [a|] eqn:E; [|done]. simpl.
    f_equal. apply u32_small, (if_addrs0 (Z.of_nat i)). unfold znth.
    destruct (Z.leb_spec 0 (Z.of_nat i)); [by rewrite Nat2Z.id|lia].
Qed.
End dinode.

(** * The file system inside a transaction *)

Definition ftx (s : fsst) (V : Z → list Z) (B L X : gset Z) : Prop :=
  tx (fs_log s) V B L X ∧ icache_lock ∉ m_held (b_mach (fs_base s)).

(** Two states of the file system between which only log sectors were written
    and the buffers held stay held. *)
Definition fsteps (s s' : fsst) : Prop := steps (fs_log s) (fs_log s') ∧ keep (fs_log s) (fs_log s').
#[export] Instance fsteps_refl : Reflexive fsteps.
Proof. intros s. split; [reflexivity|]. by intros b n. Qed.
#[export] Instance fsteps_trans : Transitive fsteps.
Proof.
  intros s1 s2 s3 [H1 K1] [H2 K2]. split; [by etrans|]. intros b n Hn. by apply K2, K1.
Qed.

Lemma ftx_idle s V B L X : ftx s V B L X → fidle s.
Proof. intros [(U & secs & []) H]. destruct (br_idle _ _ _ _ w_rep). by split. Qed.
Lemma ftx_log s V B L X t V' B' L' X' : ftx s V B L X → tx t V' B' L' X' → steps (fs_log s) t →
  ftx (set_fs_log t s) V' B' L' X'.
Proof.
  intros [_ H] T S. split; [done|]. destruct (sp_env _ _ S) as (_ & _ & E & _). unfold fs_base in *. simpl.
  by rewrite E.
Qed.
Lemma ftx_inodes s V B L X l : ftx s V B L X → ftx (set_fs_inode l s) V B L X.
Proof. done. Qed.
(** Changing only the process table and the saved interrupt state. *)
Lemma ftx_base s V B L X b : ftx s V B L X → idle b → b_cur b = b_cur (fs_base s) →
  m_held (b_mach b) = m_held (b_mach (fs_base s)) → m_ncli (b_mach b) = m_ncli (b_mach (fs_base s)) →
  m_ttbr0 (b_mach b) = m_ttbr0 (b_mach (fs_base s)) → ftx (fs_set_base b s) V B L X ∧ fsteps s (fs_set_base b s).
Proof.
  intros [(U & secs & []) H] Hb Hc Hh Hn Ht. split; [split|split].
  - exists U, secs. split; simpl; try done; [by apply brep_base|by apply lgeo_bio|by destruct w_ok|by rewrite Hh].
  - unfold fs_base. simpl. by rewrite Hh.
  - by apply steps_quiet.
  - by intros i n Hi.
Qed.
Lemma ftx_freed s V B L X : ftx s V B L X → ftx (ffreed s) V B L X ∧ fsteps s (ffreed s).
Proof.
  intros T. apply ftx_base; try done.
  - destruct T as [(U & secs & []) _]. apply idle_saved, w_rep.
  - unfold saved. simpl. by destruct (_ =? 0).
  - unfold saved. simpl. by destruct (_ =? 0).
  - unfold saved. simpl. by destruct (_ =? 0).
Qed.
Lemma idle_wake c b : idle b → idle (set_b_procs (wake_one c <$> b_procs b) b).
Proof. by intros []. Qed.
Lemma ftx_woken s V B L X c : ftx s V B L X → ftx (fwoken c s) V B L X ∧ fsteps s (fwoken c s).
Proof.
  intros T. apply ftx_base; try done. destruct T as [(U & secs & []) _]. apply idle_wake, w_rep.
Qed.

Section zooms.
Context {A : Type}.
Lemma zoom_fslog (m : M logst A) s a t : m (fs_log s) = Ok a t → (zoom m : M fsst A) s = Ok a (set_fs_log t s).
Proof. unfold zoom; simpl. by intros ->. Qed.
Lemma zoom_fsbio (m : M bio A) s a t : (zoom m : M logst A) (fs_log s) = Ok a t →
  (zoom m : M fsst A) s = Ok a (set_fs_log t s).
Proof.
  unfold zoom; simpl. destruct (m (lg_bio (fs_log s))); simpl; intros; simplify_eq; done.
Qed.
End zooms.

(** The block and the offset of an inode. *)
Definition iblock (inum : Z) : Z := inum / 8 + 2.
Lemma iblock_eq inum start : 0 ≤ inum → iblock inum < start → start ≤ 2 ^ 23 →
  IBLOCK inum = iblock inum ∧ 1 < iblock inum.
Proof.
  intros H Hs Hm. unfold IBLOCK, iblock in *. change IPB with 8. pose proof (Z.div_pos inum 8 H).
  rewrite u32_small by lia. lia.
Qed.
Lemma dip_off_le inum : (dip_off inum + 64 ≤ 512)%nat.
Proof. unfold dip_off. change IPB with 8. change DINODE with 64. pose proof (Z.mod_pos_bound inum 8). lia. Qed.
(** Two inodes of one block do not overlap. *)
Lemma dip_off_disj i j : 0 ≤ i → 0 ≤ j → i ≠ j → iblock i = iblock j →
  (dip_off i + 64 ≤ dip_off j ∨ dip_off j + 64 ≤ dip_off i)%nat.
Proof.
  unfold iblock, dip_off. change IPB with 8. change DINODE with 64. intros Hi Hj Hne Hb.
  pose proof (Z.mod_pos_bound i 8). pose proof (Z.mod_pos_bound j 8).
  pose proof (Z.div_mod i 8). pose proof (Z.div_mod j 8). lia.
Qed.

(** What [ilock] finds on the disk for inode [inum]. *)
Definition dinode_of (V : Z → list Z) (inum : Z) (x : inode) : inode :=
  get_dinode (dip_off inum) (V (iblock inum)) x.
Definition iupdated (V : Z → list Z) (r : inode) : Z → list Z :=
  vupd V (iblock (i_inum r)) (put_dinode (dip_off (i_inum r)) r (V (iblock (i_inum r)))).

(** ** Flags of an entry *)

Definition busied (r : inode) : inode := set_i_flags (Z.lor (i_flags r) I_BUSY) r.
Definition unbusied (r : inode) : inode := set_i_flags (Z.land (i_flags r) (Z.lnot I_BUSY)) r.

Lemma iflag_bits r : iflag I_BUSY r = Z.testbit (i_flags r) 0 ∧ iflag I_VALID r = Z.testbit (i_flags r) 1.
Proof. split; [apply (land_bit_ne0 _ 0)|apply (land_bit_ne0 _ 1)]; lia. Qed.
Lemma busied_flags r : iflag I_BUSY (busied r) = true ∧ iflag I_VALID (busied r) = iflag I_VALID r.
Proof.
  rewrite (proj1 (iflag_bits (busied r))), (proj2 (iflag_bits (busied r))), (proj2 (iflag_bits r)). simpl. rewrite !Z.lor_spec.
  change (Z.testbit I_BUSY 0) with true. change (Z.testbit I_BUSY 1) with false. by rewrite orb_true_r, orb_false_r.
Qed.
Lemma unbusied_flags r : iflag I_BUSY (unbusied r) = false ∧ iflag I_VALID (unbusied r) = iflag I_VALID r.
Proof.
  rewrite (proj1 (iflag_bits (unbusied r))), (proj2 (iflag_bits (unbusied r))), (proj2 (iflag_bits r)). simpl.
  rewrite !Z.land_spec, !Z.lnot_spec by lia.
  change (Z.testbit I_BUSY 0) with true. change (Z.testbit I_BUSY 1) with false. by rewrite andb_false_r, andb_true_r.
Qed.

Section ops.
Context {WF : WaitFuel}.

(** Locking and unlocking an entry that is loaded, whatever the log does. *)
Lemma iunlock_idle s ip r : fidle s → znth (fs_inode s) ip = Some r → 0 < i_ref r → iflag I_BUSY r = true →
  iunlock (Some ip) s = Ok tt (ffreed (fwoken (inode_chan ip) (set_fs_inode (zupd ip (unbusied r) (fs_inode s)) s))).
Proof.
  intros Hf Hr Href Hbusy. set (s1 := set_fs_inode (zupd ip (unbusied r) (fs_inode s)) s). assert (Hf1 : fidle s1) by (by apply fidle_inodes).
  unfold iunlock. rewrite (bind_ok _ _ _ _ _ (get_inode_ok _ _ _ Hr)), Hbusy.
  replace (i_ref r <? 1) with false by lia. rewrite (bind_ok _ _ _ tt s) by done.
  rewrite (bind_ok _ _ _ _ _ (facquire s Hf)).
  rewrite (bind_ok _ _ _ _ _ (upd_inode_ok (flocked s) ip r _ Hr)).
  change (set_fs_inode _ (flocked s)) with (flocked s1).
  rewrite (bind_ok _ _ _ _ _ (fwakeup (inode_chan ip) _ Hf1)).
  exact (frelease _ (fidle_woken _ _ Hf1)).
Qed.
Lemma ilock_idle s ip r : fidle s → znth (fs_inode s) ip = Some r → 0 < i_ref r → iflag I_BUSY r = false → iflag I_VALID r = true →
  ilock (Some ip) s = Ok tt (set_fs_inode (zupd ip (busied r) (fs_inode s)) (ffreed s)).
Proof.
  intros Hf Hr Href Hbusy Hv. set (s1 := set_fs_inode (zupd ip (busied r) (fs_inode s)) (ffreed s)).
  unfold ilock. rewrite (bind_ok _ _ _ _ _ (get_inode_ok _ _ _ Hr)).
  replace (i_ref r <? 1) with false by lia. rewrite (bind_ok _ _ _ tt s) by done.
  rewrite (bind_ok _ _ _ _ _ (facquire s Hf)). cbn [ilock_wait]. rewrite (bind_ok _ _ _ tt (flocked s)).
  2: { rewrite (bind_ok _ _ _ _ _ (get_inode_ok (flocked s) _ _ Hr)). by rewrite Hbusy. }
  rewrite (bind_ok _ _ _ _ _ (upd_inode_ok (flocked s) ip r _ Hr)).
  rewrite (bind_ok _ _ _ _ _ (frelease _ (fidle_inodes (zupd ip (busied r) (fs_inode s)) s Hf))).
  rewrite (bind_ok _ _ _ (busied r) s1) by (apply get_inode_ok; by eapply znth_zupd, znth_Some).
  by rewrite (proj2 (busied_flags r)), Hv.
Qed.

Lemma iupdate_ok s V B L X ip r : ftx s V B L X → znth (fs_inode s) ip = Some r → i_dev r = 1 →
  inode_fields r → 0 ≤ i_inum r → iblock (i_inum r) < lg_start (fs_log s) → lg_start (fs_log s) ≤ 2 ^ 23 →
  iblock (i_inum r) ∉ B → (size ({[iblock (i_inum r)]} ∪ B ∪ L) < 10)%nat →
  Z.of_nat (size L) + 1 < lg_size (fs_log s) →
  ∃ t, iupdate ip s = Ok tt (set_fs_log t s) ∧
    ftx (set_fs_log t s) (iupdated V r) B ({[iblock (i_inum r)]} ∪ L) X ∧ fsteps s (set_fs_log t s).
Proof.
  intros T Hr Hd Hf Hi Hib Hm HB Hsz Hcap.
  destruct (iblock_eq _ _ Hi Hib Hm) as [Eb Hb1]. set (ib := iblock (i_inum r)) in *.
  pose proof (tx_block _ _ _ _ _ ib (proj1 T) ltac:(lia)) as H512. pose proof (dip_off_le (i_inum r)).
  destruct (tx_modify (fs_log s) V B L X ib (put_dinode (dip_off (i_inum r)) r) (proj1 T) ltac:(lia) HB)
    as (bp & s1 & s2 & s3 & s4 & R1 & H1 & D1 & T1 & R2 & R3 & R4 & T4 & S4 & K4); [|done|done|].
  { by rewrite length_put_dinode by (lia || done). }
  exists s4. split; [|split; [by eapply ftx_log|done]].
  unfold iupdate. rewrite (bind_ok _ _ _ _ _ (get_inode_ok _ _ _ Hr)), Hd, Eb.
  rewrite (bind_ok _ _ _ _ _ (zoom_fsbio _ s _ _ R1)).
  rewrite (bind_ok _ _ _ _ _ (zoom_fsbio _ (set_fs_log s1 s) _ _ R2)).
  rewrite (bind_ok _ _ _ _ _ (zoom_fslog _ (set_fs_log s2 s) _ _ R3)).
  exact (zoom_fsbio _ (set_fs_log s3 s) _ _ R4).
Qed.

Lemma valid_of_busy f : ztrue (Z.land (Z.lor f I_BUSY) I_VALID) = ztrue (Z.land f I_VALID).
Proof.
  change I_VALID with (bit 1). rewrite !land_bit_ne0 by lia. rewrite Z.lor_spec.
  change (Z.testbit I_BUSY 1) with false. by rewrite orb_false_r.
Qed.

(** The entry [ilock] leaves: busy, and loaded when it was not valid. *)
Definition ilocked (V : Z → list Z) (r : inode) : inode :=
  if iflag I_VALID r then set_i_flags (Z.lor (i_flags r) I_BUSY) r
  else set_i_flags (Z.lor (Z.lor (i_flags r) I_BUSY) I_VALID) (dinode_of V (i_inum r) r).

Section lock.
Context (s : fsst) (V : Z → list Z) (B L X : gset Z) (ip : Z) (r : inode).
Context (T : ftx s V B L X) (Hr : znth (fs_inode s) ip = Some r) (Href : 0 < i_ref r).

Lemma ilock_ok : i_dev r = 1 → 0 ≤ i_inum r → iblock (i_inum r) < lg_start (fs_log s) →
  lg_start (fs_log s) ≤ 2 ^ 23 → iblock (i_inum r) ∉ B → (size (B ∪ L) < 10)%nat →
  iflag I_BUSY r = false → iflag I_VALID r = true ∨ i_type (dinode_of V (i_inum r) r) ≠ 0 →
  ∃ s', ilock (Some ip) s = Ok tt s' ∧ ftx s' V B L X ∧ fsteps s s' ∧
    fs_inode s' = zupd ip (ilocked V r) (fs_inode s).
Proof.
  intros Hd Hi Hib Hm HB Hsz Hbusy Hty. pose proof (znth_Some _ _ _ Hr) as Hip.
  destruct (iblock_eq _ _ Hi Hib Hm) as [Eb Hb1]. set (ib := iblock (i_inum r)) in *.
  pose proof (ftx_idle _ _ _ _ _ T) as Hf.
  set (r1 := set_i_flags (Z.lor (i_flags r) I_BUSY) r).
  set (s1 := set_fs_inode (zupd ip r1 (fs_inode s)) (ffreed s)).
  destruct (ftx_freed _ _ _ _ _ T) as [T1 S1]. apply (ftx_inodes _ _ _ _ _ (zupd ip r1 (fs_inode s))) in T1. fold s1 in T1.
  assert (Hr1 : znth (fs_inode s1) ip = Some r1) by (by apply znth_zupd).
  assert (Hpre : ilock (Some ip) s = when (negb (iflag I_VALID r)) (
        let* bp := zoom (bread (i_dev r1) (IBLOCK (i_inum r1))) in
        let* b := zoom (get_buf bp) in
        upd_inode ip (get_dinode (dip_off (i_inum r1)) (b_data b)) ;;
        zoom (brelse bp) ;;
        upd_inode ip (fun r => set_i_flags (Z.lor (i_flags r) I_VALID) r) ;;
        let* r := get_inode ip in
        panic_if (i_type r =? 0) "ilock: no type") s1).
  { unfold ilock. rewrite (bind_ok _ _ _ _ _ (get_inode_ok _ _ _ Hr)).
    replace (i_ref r <? 1) with false by lia. rewrite (bind_ok _ _ _ tt s) by done.
    rewrite (bind_ok _ _ _ _ _ (facquire s Hf)). cbn [ilock_wait].
    rewrite (bind_ok _ _ _ tt (flocked s)).
    2: { rewrite (bind_ok _ _ _ _ _ (get_inode_ok (flocked s) _ _ Hr)). by rewrite Hbusy. }
    rewrite (bind_ok _ _ _ _ _ (upd_inode_ok (flocked s) ip r _ Hr)). fold r1.
    rewrite (bind_ok _ _ _ _ _ (frelease _ (fidle_inodes (zupd ip r1 (fs_inode s)) s Hf))).
    rewrite (bind_ok _ _ _ _ _ (get_inode_ok s1 ip r1 Hr1)). f_equal. f_equal.
    unfold iflag. simpl. apply valid_of_busy. }
  rewrite Hpre. clear Hpre. unfold ilocked. destruct (iflag I_VALID r) eqn:Hv; cbn [negb].
  { exists s1. done. }
  destruct Hty as [?|Hty]; [done|]. rewrite when_true.
  change (i_dev r1) with (i_dev r). change (i_inum r1) with (i_inum r). rewrite Hd, Eb.
  destruct (tx_bread (fs_log s1) V B L X ib (proj1 T1) ltac:(change (0 ≤ ib < lg_start (fs_log s)); lia) HB (or_introl Hsz))
    as (bp & t1 & R1 & U1 & H1 & D1 & St1 & K1).
  destruct (tx_brelse t1 V _ L X bp ib U1 H1 (tx_unmod _ _ _ _ _ _ (proj1 T) HB)) as (t2 & R2 & U2 & St2 & K2).
  replace (({[ib]} ∪ B) ∖ {[ib]} : gset Z) with B in U2 by set_solver.
  destruct (tx_held _ _ _ _ _ U1 bp ib H1) as (_ & _ & Hg & _).
  rewrite (bind_ok _ _ _ _ _ (zoom_fsbio _ s1 _ _ R1)).
  rewrite (bind_ok _ _ _ (bufof (lg_bio t1) bp) (set_fs_log t1 s1)).
  2: { unfold zoom; simpl. rewrite Hg. simpl. by destruct t1. }
  rewrite D1. set (r2 := get_dinode (dip_off (i_inum r)) (V ib) r1).
  rewrite (bind_ok _ _ _ _ _ (upd_inode_ok (set_fs_log t1 s1) ip r1 _ Hr1)). fold r2.
  set (l2 := zupd ip r2 (fs_inode s1)).
  change (fs_inode (set_fs_log t1 s1)) with (fs_inode s1). fold l2.
  rewrite (bind_ok _ _ _ _ _ (zoom_fsbio _ (set_fs_inode l2 (set_fs_log t1 s1)) _ _ R2)).
  change (set_fs_log t2 (set_fs_inode l2 (set_fs_log t1 s1))) with (FsSt t2 l2).
  assert (Hr2 : znth l2 ip = Some r2) by (unfold l2; apply znth_zupd; unfold s1; simpl; by rewrite zlen_zupd).
  rewrite (bind_ok _ _ _ _ _ (upd_inode_ok (FsSt t2 l2) ip r2 _ Hr2)).
  set (r3 := set_i_flags (Z.lor (i_flags r2) I_VALID) r2).
  rewrite (bind_ok _ _ _ r3 (FsSt t2 (zupd ip r3 l2))).
  2: { apply get_inode_ok. simpl. apply znth_zupd. unfold l2, s1. simpl. by rewrite !zlen_zupd. }
  change (i_type r3) with (i_type (dinode_of V (i_inum r) r)).
  destruct (Z.eqb_spec (i_type (dinode_of V (i_inum r) r)) 0); [done|].
  eexists. split; [reflexivity|]. split; [|split].
  - by apply (ftx_log s1 V B L X t2 V B L X T1); [|etrans].
  - etrans; [exact S1|]. split; simpl; [by etrans|]. eapply keep_but; [exact (proj1 T1)|exact HB|].
    intros b m Hmm Hh. by apply K2, K1.
  - simpl. unfold l2, s1. simpl. rewrite !zupd_zupd. done.
Qed.

Lemma iunlock_ok : iflag I_BUSY r = true →
  ∃ s', iunlock (Some ip) s = Ok tt s' ∧ ftx s' V B L X ∧ fsteps s s' ∧
    fs_inode s' = zupd ip (set_i_flags (Z.land (i_flags r) (Z.lnot I_BUSY)) r) (fs_inode s).
Proof.
  intros Hbusy. set (s1 := set_fs_inode (zupd ip (unbusied r) (fs_inode s)) s). assert (T1 : ftx s1 V B L X) by done.
  destruct (ftx_woken _ _ _ _ _ (inode_chan ip) T1) as [T2 S2]. destruct (ftx_freed _ _ _ _ _ T2) as [T3 S3].
  eexists. split; [|split; [exact T3|split; [by etrans|done]]]. apply iunlock_idle; (done || by eapply ftx_idle).
Qed.
End lock.
End ops.

(** Storing one inode leaves the others on the disk as they are. *)
Lemma dinode_of_other V r j x : inode_fields r → length (V (iblock (i_inum r))) = 512%nat →
  0 ≤ i_inum r → 0 ≤ j → j ≠ i_inum r → dinode_of (iupdated V r) j x = dinode_of V j x.
Proof.
  intros Hf Hlen Hi Hj Hne. unfold dinode_of, iupdated, vupd.
  destruct (Z.eqb_spec (iblock j) (iblock (i_inum r))) as [E|]; [|done]. rewrite E.
  pose proof (dip_off_disj _ _ Hj Hi Hne E). pose proof (dip_off_le (i_inum r)).
  pose proof (dip_off_le j).
  assert (Hs : ∀ o n, (o + n ≤ dip_off (i_inum r) ∨ dip_off (i_inum r) + 64 ≤ o)%nat →
    slice o n (put_dinode (dip_off (i_inum r)) r (V (iblock (i_inum r)))) = slice o n (V (iblock (i_inum r)))).
  { intros o n Ho. apply slice_put_dinode; [lia|done|done]. }
  unfold get_dinode, get16, get32. cbn [get_words]. unfold get32. rewrite !Hs by lia. done.
Qed.
Lemma dinode_of_same V r x : inode_fields r → length (V (iblock (i_inum r))) = 512%nat →
  same_inode r (dinode_of (iupdated V r) (i_inum r) x).
Proof.
  intros Hf Hlen. unfold dinode_of, iupdated, vupd. rewrite Z.eqb_refl.
  apply get_put_dinode; [|done]. pose proof (dip_off_le (i_inum r)). lia.
Qed.

(** C26: an inode survives its trip through the disk.  [iupdate] writes the entry
    to its place in the inode blocks, inside the transaction and without touching
    any other inode; whenever [ilock] later loads that inode into an entry that
    does not hold it, the type, device numbers, link count, size and block
    addresses are the ones [iupdate] stored. *)
Theorem iupdate_ilock_roundtrip {WF : WaitFuel} s V B L X ip r :
  ftx s V B L X → znth (fs_inode s) ip = Some r → i_dev r = 1 → inode_fields r → i_type r ≠ 0 →
  0 ≤ i_inum r → iblock (i_inum r) < lg_start (fs_log s) → lg_start (fs_log s) ≤ 2 ^ 23 →
  iblock (i_inum r) ∉ B → (size ({[iblock (i_inum r)]} ∪ B ∪ L) < 10)%nat →
  Z.of_nat (size L) + 1 < lg_size (fs_log s) →
  ∃ s' V', iupdate ip s = Ok tt s' ∧ ftx s' V' B ({[iblock (i_inum r)]} ∪ L) X ∧ fsteps s s' ∧
    fs_inode s' = fs_inode s ∧
    (∀ j x, 0 ≤ j → j ≠ i_inum r → dinode_of V' j x = dinode_of V j x) ∧
    (∀ s1 B1 L1 X1 jp x, ftx s1 V' B1 L1 X1 → lg_start (fs_log s1) = lg_start (fs_log s) →
       znth (fs_inode s1) jp = Some x → i_dev x = 1 → i_inum x = i_inum r → 0 < i_ref x →
       i_flags x = 0 → iblock (i_inum r) ∉ B1 → (size (B1 ∪ L1) < 10)%nat →
       ∃ s2 y, ilock (Some jp) s1 = Ok tt s2 ∧ ftx s2 V' B1 L1 X1 ∧
         znth (fs_inode s2) jp = Some y ∧ same_inode r y).
Proof.
  intros T Hr Hd Hf Hty Hi Hib Hm HB Hsz Hcap.
  pose proof (tx_block _ _ _ _ _ (iblock (i_inum r)) (proj1 T)) as Hlen.
  pose proof (iblock_eq _ _ Hi Hib Hm) as [_ Hb1]. specialize (Hlen ltac:(lia)).
  destruct (iupdate_ok s V B L X ip r) as (t & R & T' & S'); try done.
  exists (set_fs_log t s), (iupdated V r). do 4 (split; [done|]). split.
  { intros j x Hj Hne. by apply dinode_of_other. }
  intros s1 B1 L1 X1 jp x T1 Es Hx Hdx Hnx Hrx Hfx HB1 Hsz1.
  destruct (dinode_of_same V r x Hf Hlen) as (E1 & E2 & E3 & E4 & E5 & E6).
  destruct (ilock_ok s1 (iupdated V r) B1 L1 X1 jp x T1 Hx Hrx) as (s2 & R2 & T2 & _ & Hl);
    rewrite ?Hnx, ?Es; try done.
  { unfold iflag. by rewrite Hfx. } { right. by rewrite E1. }
  exists s2, (ilocked (iupdated V r) x). split; [done|]. split; [done|].
  split; [rewrite Hl; by apply znth_zupd, (znth_Some _ _ _ Hx)|].
  unfold ilocked, iflag. rewrite Hfx. change (ztrue (Z.land 0 I_VALID)) with false. rewrite Hnx. done.
Qed.

(** ** Witness *)

#[local] Instance dinode_fuel : WaitFuel := 0%nat.
Definition demo_ino : inode := Inode 1 3 1 3 2 0 0 1 700 [20; 21; 0; 0; 0; 0; 0; 0; 0; 0; 0; 0; 0].
Definition demo_fresh_ino : inode := Inode 1 3 1 0 0 0 0 0 0 (replicate 13 0).
Lemma demo_ino_fields : inode_fields demo_ino.
Proof.
  split; simpl; try lia. intros i a Ha. unfold znth in Ha. destruct (0 <=? i); [|done].
  apply list_elem_of_lookup_2 in Ha.
  assert (HF : Forall (λ a, 0 ≤ a < 2 ^ 32) [20; 21; 0; 0; 0; 0; 0; 0; 0; 0; 0; 0; 0])
    by (repeat constructor; lia).
  rewrite Forall_forall in HF. by apply HF.
Qed.
Lemma demo_held r s : boot (power_on (demo_base [zero_proc]) demo_img) = Ok tt r → begin_trans r = Ok tt s →
  m_held (b_mach (io_base (lg_bio s))) = ∅.
Proof.
  intros Hb Ht.
  assert (H : match boot (power_on (demo_base [zero_proc]) demo_img) with
    | Ok _ r => match begin_trans r with
      | Ok _ s => bool_decide (m_held (b_mach (io_base (lg_bio s))) = ∅) | _ => false end
    | _ => false end = true) by (vm_compute; reflexivity).
  rewrite Hb, Ht in H. by apply bool_decide_eq_true in H.
Qed.
(** A transaction on the example image with any inode cache. *)
Lemma demo_ftx l : ∃ s, ftx (FsSt s l) (blk demo_img) ∅ ∅ ∅ ∧ lg_start s = 45 ∧ lg_size s = 15.
Proof.
  destruct demo_tx as (r & s & Hb & Ht & T & Es & Ez). exists s. split; [|exact (conj Es Ez)]. split; [exact T|]. clear T Es Ez.
  unfold fs_base. cbn [fs_log]. rewrite (demo_held r s Hb Ht). apply not_elem_of_empty.
Qed.
Lemma iupdate_ilock_roundtrip_witness : ∃ s s' s2 y,
  iupdate 0 (FsSt s (demo_ino :: replicate 49 zero_inode)) = Ok tt s' ∧
  ilock (Some 0) (set_fs_inode (demo_fresh_ino :: replicate 49 zero_inode) s') = Ok tt s2 ∧
  znth (fs_inode s2) 0 = Some y ∧ i_size y = 700 ∧ i_addrs y = i_addrs demo_ino.
Proof.
  destruct (demo_ftx (demo_ino :: replicate 49 zero_inode)) as (s & T & Es & Ez). exists s.
  destruct (iupdate_ilock_roundtrip (FsSt s (demo_ino :: replicate 49 zero_inode)) (blk demo_img) ∅ ∅ ∅ 0 demo_ino T)
    as (s' & V' & R & T' & [S' _] & _ & _ & H).
  - reflexivity.
  - reflexivity.
  - apply demo_ino_fields.
  - simpl. lia.
  - simpl. lia.
  - cbn [fs_log]. rewrite Es. vm_compute. reflexivity.
  - cbn [fs_log]. rewrite Es. vm_compute. congruence.
  - set_solver.
  - vm_compute. lia.
  - cbn [fs_log]. rewrite Ez. vm_compute. reflexivity.
  - destruct (H (set_fs_inode (demo_fresh_ino :: replicate 49 zero_inode) s') ∅ ({[iblock 3]} ∪ ∅) ∅ 0 demo_fresh_ino)
      as (s2 & y & R2 & _ & Hy & Hs).
    + exact T'.
    + apply S'.
    + reflexivity.
    + reflexivity.
    + reflexivity.
    + simpl. lia.
    + reflexivity.
    + set_solver.
    + vm_compute. lia.
    + exists s', s2, y. split; [exact R|]. split; [exact R2|]. split; [exact Hy|].
      destruct Hs as (_ & _ & _ & _ & Hsz & Ha). split; [exact Hsz|exact Ha].
Defined.
