(* ===== verification/Content.v ===== *)
(** Contents of files: [bmap], [readi] and [writei] of [fs.c].

    A file is the list of its bytes: byte [i] is found in the block [bmap] gives
    for [i / BSIZE].  Reading returns a piece of the list; writing replaces a
    piece of it, allocating blocks as the file grows. *)

From S2P Require Import Prelude Spin Sched Mem Str Dll Bio Log Tx Fs Inode Balloc Dinode.

(** * Files as byte sequences *)

Definition baddr (r : inode) (i : Z) : Z := default 0 (znth (i_addrs r) i).
(** The indirect block. *)
Definition ind (r : inode) : Z := baddr r 12.
(** Block [bn] of the file, 0 when there is none. *)
Definition fblk (V : Z → list Z) (r : inode) (bn : Z) : Z :=
  if bn <? 12 then baddr r bn
  else if ind r =? 0 then 0 else get32 (Z.to_nat (4 * (bn - 12))) (V (ind r)).
Definition fbyte (V : Z → list Z) (r : inode) (i : Z) : Z :=
  default 0 (znth (V (fblk V r (i / 512))) (i mod 512)).
Definition fbytes (V : Z → list Z) (r : inode) (off n : Z) : list Z := fbyte V r <$> seqZ off n.

(** A block of the data area that is in use. *)
Record isdata (V : Z → list Z) (start b : Z) : Prop := {
  id_size : 0 ≤ b < sbsize V;
  id_start : b < start;
  id_used : used V b = true;
  id_high : ∀ b', 0 ≤ b' < sbsize V → bmblock V b' < b;
}.
Record file_ok (V : Z → list Z) (start : Z) (r : inode) : Prop := {
  fo_len : length (i_addrs r) = 13%nat;
  fo_size : 0 ≤ i_size r ≤ 140 * 512;
  fo_blk : ∀ bn, 0 ≤ bn < 140 → fblk V r bn ≠ 0 → isdata V start (fblk V r bn);
  fo_ind : ind r ≠ 0 → isdata V start (ind r);
  fo_inj : ∀ bn bn', 0 ≤ bn < 140 → 0 ≤ bn' < 140 → fblk V r bn ≠ 0 →
    fblk V r bn = fblk V r bn' → bn = bn';
  fo_sep : ∀ bn, 0 ≤ bn < 140 → ind r ≠ 0 → fblk V r bn ≠ ind r;
  fo_full : ∀ bn, 0 ≤ bn → bn * 512 < i_size r → fblk V r bn ≠ 0;
}.

Lemma isdata_pos V start b : fsgeo V start → isdata V start b → 1 < b < start ∧ bmblock V b < b.
Proof.
  intros Hg [H1 H2 _ H4]. specialize (H4 b H1). pose proof (bblock_eq V start b Hg H1). lia.
Qed.

Lemma znth_addrs r i : length (i_addrs r) = 13%nat → 0 ≤ i < 13 → znth (i_addrs r) i = Some (baddr r i).
Proof.
  intros Hl Hi. unfold baddr. destruct (znth_is_Some (i_addrs r) i) as [x Hx]; [unfold zlen; lia|]. by rewrite Hx.
Qed.

(** * The block map *)

Section content.
Context {WF : WaitFuel}.

Section hit.
Context (s : fsst) (V : Z → list Z) (B L X : gset Z) (ip : Z) (r : inode).
Context (T : ftx s V B L X) (Hr : znth (fs_inode s) ip = Some r) (Hd : i_dev r = 1).
Context (Hg : fsgeo V (lg_start (fs_log s))) (Hf : file_ok V (lg_start (fs_log s)) r).
Context (Hsz : (size (B ∪ L) < 10)%nat).

Lemma get_addr_ok i : 0 ≤ i < 13 → get_addr ip i s = Ok (baddr r i) s.
Proof.
  intros Hi. unfold get_addr. rewrite (bind_ok _ _ _ _ _ (get_inode_ok _ _ _ Hr)).
  by rewrite znth_addrs by (done || apply Hf).
Qed.
Lemma addr_hit i : 0 ≤ i < 13 → baddr r i ≠ 0 → addr_or_alloc ip i s = Ok (baddr r i) s.
Proof.
  intros Hi Hne. unfold addr_or_alloc. rewrite (bind_ok _ _ _ _ _ (get_addr_ok i Hi)).
  by destruct (Z.eqb_spec (baddr r i) 0).
Qed.

(** The block that holds the map entry, read and released. *)
Lemma bmap_hit bn : 0 ≤ bn < 140 → fblk V r bn ≠ 0 → ind r ∉ B →
  ∃ s', bmap ip bn s = Ok (fblk V r bn) s' ∧ ftx s' V B L X ∧ fsteps s s' ∧ fs_inode s' = fs_inode s.
Proof.
  intros Hbn Hne HB. unfold bmap, fblk in *. change NDIRECT with 12. change NINDIRECT with 128.
  destruct (Z.ltb_spec bn 12).
  { exists s. split; [by apply addr_hit; [lia|]|]. done. }
  rewrite u32_small by lia. destruct (Z.ltb_spec (bn - 12) 128); [|lia].
  destruct (Z.eqb_spec (ind r) 0) as [|Hi]; [done|].
  rewrite (bind_ok _ _ _ _ _ (addr_hit 12 ltac:(lia) Hi)). change (baddr r 12) with (ind r).
  rewrite (bind_ok _ _ _ _ _ (get_inode_ok _ _ _ Hr)), Hd.
  pose proof (isdata_pos _ _ _ Hg (fo_ind _ _ _ Hf Hi)) as [Hpos _].
  destruct (tx_bread (fs_log s) V B L X (ind r) (proj1 T) ltac:(lia) HB (or_introl Hsz))
    as (bp & t1 & R1 & U1 & H1 & D1 & St1 & K1).
  destruct (tx_brelse t1 V _ L X bp (ind r) U1 H1 (tx_unmod _ _ _ _ _ _ (proj1 T) HB)) as (t2 & R2 & U2 & St2 & K2).
  replace (({[ind r]} ∪ B) ∖ {[ind r]} : gset Z) with B in U2 by set_solver.
  destruct (tx_held _ _ _ _ _ U1 bp (ind r) H1) as (_ & _ & Hget & _).
  rewrite (bind_ok _ _ _ _ _ (zoom_fsbio _ s _ _ R1)).
  rewrite (bind_ok _ _ _ (get32 (Z.to_nat (4 * (bn - 12))) (V (ind r))) (set_fs_log t1 s)).
  2: { unfold get_word. rewrite (bind_ok _ _ _ (bufof (lg_bio t1) bp) (set_fs_log t1 s)); [by rewrite D1|].
       unfold zoom; simpl. rewrite Hget. simpl. by destruct t1. }
  destruct (Z.eqb_spec (get32 (Z.to_nat (4 * (bn - 12))) (V (ind r))) 0); [done|].
  rewrite (bind_ok _ _ _ _ (set_fs_log t1 s)) by done.
  rewrite (bind_ok _ _ _ _ _ (zoom_fsbio _ (set_fs_log t1 s) _ _ R2)).
  exists (set_fs_log t2 s). split; [done|]. split; [by eapply ftx_log; [exact T|exact U2|etrans]|].
  split; [|done]. split; [by etrans|]. eapply keep_but; [exact (proj1 T)|exact HB|].
  intros b m Hm Hh. by apply K2, K1.
Qed.
End hit.

(** * Reading *)

Lemma slice_fbytes V r off m : 0 ≤ off → 0 ≤ m → off mod 512 + m ≤ 512 →
  length (V (fblk V r (off / 512))) = 512%nat →
  slice (Z.to_nat (off mod 512)) (Z.to_nat m) (V (fblk V r (off / 512))) = fbytes V r off m.
Proof.
  intros Ho Hm Hle Hlen. pose proof (Z.mod_pos_bound off 512 ltac:(lia)). pose proof (Z.div_mod off 512 ltac:(lia)).
  apply list_eq. intros i. unfold fbytes, slice. rewrite list_lookup_fmap.
  destruct (decide (Z.of_nat i < m)).
  - rewrite lookup_take_lt, lookup_drop by lia.
    rewrite (lookup_seqZ_lt) by lia. simpl. unfold fbyte.
    assert (Hdm : (off + Z.of_nat i) / 512 = off / 512 ∧ (off + Z.of_nat i) mod 512 = off mod 512 + Z.of_nat i).
    { replace (off + Z.of_nat i) with (off / 512 * 512 + (off mod 512 + Z.of_nat i)) by lia.
      rewrite Z.add_comm, Z.div_add, Z.mod_add by lia. rewrite Z.div_small, Z.mod_small by lia. lia. }
    destruct Hdm as [-> ->]. unfold znth. destruct (Z.leb_spec 0 (off mod 512 + Z.of_nat i)); [|lia].
    replace (Z.to_nat (off mod 512 + Z.of_nat i)) with (Z.to_nat (off mod 512) + i)%nat by lia.
    destruct (lookup_lt_is_Some_2 (V (fblk V r (off / 512))) (Z.to_nat (off mod 512) + i)) as [x ->]; [lia|done].
  - rewrite lookup_take_ge by lia. rewrite lookup_seqZ_ge by lia. done.
Qed.
Lemma fbytes_app V r off m n : 0 ≤ m → 0 ≤ n → fbytes V r off (m + n) = fbytes V r off m ++ fbytes V r (off + m) n.
Proof. intros. unfold fbytes. rewrite seqZ_app by lia. by rewrite fmap_app. Qed.

(** The fuel covers what is left of the request from [off] on. *)
Lemma io_step off rem fuel : 0 ≤ off → 0 < rem → off mod 512 + rem ≤ 512 * Z.of_nat (S fuel) →
  let m := Z.min rem (512 - off mod 512) in
  0 < m ≤ rem ∧ off mod 512 + m ≤ 512 ∧ (rem - m = 0 ∨ (off + m) mod 512 + (rem - m) ≤ 512 * Z.of_nat fuel).
Proof.
  intros Ho Hr Hf m. pose proof (Z.mod_pos_bound off 512 ltac:(lia)). pose proof (Z.div_mod off 512 ltac:(lia)).
  unfold m. split; [lia|]. split; [lia|]. destruct (Z.le_gt_cases rem (512 - off mod 512)); [left; lia|right].
  rewrite Z.min_r by lia. replace (off + (512 - off mod 512)) with ((off / 512 + 1) * 512) by lia.
  rewrite Z.mod_mul by lia. lia.
Qed.
Lemma io_fuel_ok off n : 0 ≤ n → off mod 512 + n ≤ 512 * Z.of_nat (io_fuel n).
Proof.
  intros Hn. unfold io_fuel. change BSIZE with 512. pose proof (Z.mod_pos_bound off 512 ltac:(lia)).
  pose proof (Z.div_mod n 512 ltac:(lia)). pose proof (Z.mod_pos_bound n 512 ltac:(lia)).
  pose proof (Z.div_pos n 512 ltac:(lia)). lia.
Qed.

Lemma readi_loop_ok V B L X ip r start fuel : i_dev r = 1 → fsgeo V start → file_ok V start r →
  (size (B ∪ L) < 10)%nat → ind r ∉ B → (∀ bn, fblk V r bn ≠ 0 → fblk V r bn ∉ B) →
  ∀ s off n tot acc, ftx s V B L X → lg_start (fs_log s) = start → znth (fs_inode s) ip = Some r →
  0 ≤ off → 0 ≤ tot ≤ n → off + (n - tot) ≤ i_size r →
  tot = n ∨ off mod 512 + (n - tot) ≤ 512 * Z.of_nat fuel →
  ∃ s', readi_loop fuel ip off n tot acc s = Ok (acc ++ fbytes V r off (n - tot)) s' ∧
    ftx s' V B L X ∧ fsteps s s' ∧ fs_inode s' = fs_inode s.
Proof.
  intros Hd Hg Hf Hsz HiB HbB. induction fuel as [|fuel IH]; intros s off n tot acc T Est Hr Ho Ht Hle Hfu; cbn [readi_loop].
  { pose proof (Z.mod_pos_bound off 512 ltac:(lia)). destruct (Z.ltb_spec tot n); [lia|]. exists s. replace (n - tot) with 0 by lia.
    split; [by rewrite app_nil_r|done]. }
  destruct (Z.ltb_spec tot n).
  2: { exists s. replace (n - tot) with 0 by lia. split; [by rewrite app_nil_r|done]. }
  destruct Hfu as [?|Hfu]; [lia|]. destruct (io_step off (n - tot) fuel Ho ltac:(lia) Hfu) as (Hm & Hmb & Hfu').
  change BSIZE with 512. set (m := Z.min (n - tot) (512 - off mod 512)) in *. set (bn := off / 512).
  pose proof (fo_size _ _ _ Hf) as Hsize. pose proof (Z.div_mod off 512 ltac:(lia)) as Hdm.
  pose proof (Z.mod_pos_bound off 512 ltac:(lia)) as Hmod. fold bn in Hdm.
  assert (Hne : fblk V r bn ≠ 0) by (apply (fo_full _ _ _ Hf); lia).
  rewrite (bind_ok _ _ _ _ _ (get_inode_ok _ _ _ Hr)). subst start.
  destruct (bmap_hit s V B L X ip r T Hr Hd Hg Hf Hsz bn ltac:(lia) Hne HiB) as (s1 & R1 & T1 & S1 & E1).
  pose proof (isdata_pos _ _ _ Hg (fo_blk _ _ _ Hf bn ltac:(lia) Hne)) as [Hpos _].
  pose proof (sp_start _ _ (proj1 S1)) as Es1. set (b := fblk V r bn) in *.
  destruct (tx_bread (fs_log s1) V B L X b (proj1 T1) ltac:(lia) (HbB _ Hne) (or_introl Hsz))
    as (bp & t1 & Q1 & U1 & H1 & D1 & St1 & K1).
  destruct (tx_brelse t1 V _ L X bp b U1 H1 (tx_unmod _ _ _ _ _ _ (proj1 T) (HbB _ Hne))) as (t2 & Q2 & U2 & St2 & K2).
  replace (({[b]} ∪ B) ∖ {[b]} : gset Z) with B in U2 by (pose proof (HbB _ Hne); set_solver).
  destruct (tx_held _ _ _ _ _ U1 bp b H1) as (_ & _ & Hget & _).
  rewrite (bind_ok _ _ _ _ _ R1), Hd. rewrite (bind_ok _ _ _ _ _ (zoom_fsbio _ s1 _ _ Q1)).
  rewrite (bind_ok _ _ _ (bufof (lg_bio t1) bp) (set_fs_log t1 s1)).
  2: { unfold zoom; simpl. rewrite Hget. simpl. by destruct t1. }
  rewrite (bind_ok _ _ _ _ _ (zoom_fsbio _ (set_fs_log t1 s1) _ _ Q2)), D1.
  pose proof (tx_block _ _ _ _ _ b (proj1 T) ltac:(lia)) as H512.
  unfold b, bn at 1. rewrite slice_fbytes by (done || lia). rewrite u32_small by lia.
  set (s2 := set_fs_log t2 (set_fs_log t1 s1)).
  assert (T2 : ftx s2 V B L X) by (by apply (ftx_log s1 V B L X t2 V B L X T1); [|etrans]).
  assert (S2 : fsteps s1 s2).
  { split; [by etrans|]. eapply keep_but; [exact (proj1 T1)|exact (HbB _ Hne)|]. intros c k Hk Hh. by apply K2, K1. }
  destruct (IH s2 (off + m) n (tot + m) (acc ++ fbytes V r off m) T2) as (s' & R & T' & S' & E').
  { rewrite (sp_start _ _ (proj1 S2)). by rewrite Es1. } { unfold s2. simpl. by rewrite E1. }
  { lia. } { lia. } { lia. } { destruct Hfu' as [?|Hfu']; [left; lia|right].
    by replace (n - (tot + m)) with (n - tot - m) by lia. }
  exists s'. split; [|split; [done|split; [by etrans; [|etrans]|]]].
  - fold s2. rewrite R. f_equal. rewrite <- app_assoc. f_equal. replace (n - tot) with (m + (n - (tot + m))) by lia.
    by rewrite fbytes_app by lia.
  - rewrite E'. unfold s2. simpl. by rewrite E1.
Qed.

(** * Allocating blocks for a file *)

(** At least [k] blocks of the data area are free. *)
Definition has_free (V : Z → list Z) (start : Z) (k : nat) : Prop :=
  ∃ F : gset Z, (k ≤ size F)%nat ∧ ∀ b, b ∈ F → 0 ≤ b < sbsize V ∧ b < start ∧ used V b = false.

Lemma least_free V start k : has_free V start (S k) →
  ∃ x, 0 ≤ x < sbsize V ∧ x < start ∧ used V x = false ∧ ∀ b, 0 ≤ b < x → used V b = true.
Proof.
  intros (F & Hk & HF). destruct (decide (F = ∅)) as [->|Hne]; [rewrite size_empty in Hk; lia|].
  apply set_choose_L in Hne as [b Hb]. destruct (HF b Hb) as (Hr & Hs & Hu).
  destruct (least_true (λ i, negb (used V i)) 0 b) as (x & Hx & Hfx & Hlt); [lia|by rewrite Hu|].
  exists x. split; [lia|]. split; [lia|]. split; [by apply negb_true_iff|].
  intros c Hc. specialize (Hlt c Hc). by apply negb_false_iff in Hlt.
Qed.

Section alloc.
Context (s : logst) (V : Z → list Z) (B L X : gset Z) (x : Z) (T : tx s V B L X).
Context (Hg : fsgeo V (lg_start s)) (Hx : 0 ≤ x < sbsize V) (Hxs : x < lg_start s) (Hfree : used V x = false).
Abbreviation V1 := (allocated V x).
Abbreviation start := (lg_start s).

Lemma alloc_high b : 0 ≤ b < sbsize V → 1 < bmblock V b < x.
Proof.
  intros Hb. pose proof (bblock_eq V _ b Hg Hb). pose proof (g_data _ _ Hg x Hx Hfree b Hb). lia.
Qed.
Lemma alloc_other n : n ≠ x → n ≠ bmblock V x → V1 n = V n.
Proof.
  intros H1 H2. unfold allocated, set_bmbyte, vupd. destruct (Z.eqb_spec n x); [done|].
  by destruct (Z.eqb_spec n (bmblock V x)).
Qed.
Lemma alloc_sb : V1 1 = V 1.
Proof. pose proof (alloc_high x Hx). apply alloc_other; lia. Qed.
Lemma alloc_sbsize : sbsize V1 = sbsize V.
Proof. unfold sbsize. by rewrite alloc_sb. Qed.
Lemma alloc_bm b : bmblock V1 b = bmblock V b.
Proof. unfold bmblock, ninodes. by rewrite alloc_sb. Qed.
Lemma alloc_used b : 0 ≤ b < sbsize V → used V1 b = used V b || (b =? x).
Proof. intros Hb. by eapply allocated_used. Qed.
Lemma alloc_fsgeo : fsgeo V1 start.
Proof.
  pose proof Hg as [G1 G2 G3 G4 G5]. split; rewrite ?alloc_sbsize; try done.
  - unfold ninodes. by rewrite alloc_sb.
  - intros b Hb. rewrite alloc_bm. by apply G4.
  - intros b Hb Hu b' Hb'. rewrite alloc_bm. rewrite alloc_used in Hu by done.
    apply orb_false_iff in Hu as [Hu _]. by apply G5.
Qed.
Lemma alloc_isdata b : isdata V start b → isdata V1 start b.
Proof.
  intros [H1 H2 H3 H4]. split; rewrite ?alloc_sbsize; try done.
  - by rewrite alloc_used, H3 by done.
  - intros b' Hb'. rewrite alloc_bm. by apply H4.
Qed.
Lemma alloc_isdata_new : isdata V1 start x.
Proof.
  split; rewrite ?alloc_sbsize; try done.
  - by rewrite alloc_used, Z.eqb_refl, orb_true_r by done.
  - intros b' Hb'. rewrite alloc_bm. apply alloc_high, Hb'.
Qed.
Lemma alloc_fresh b : isdata V start b → b ≠ x.
Proof. intros [_ _ H3 _] ->. congruence. Qed.
Lemma alloc_data b : isdata V start b → V1 b = V b.
Proof.
  intros Hb. apply alloc_other; [by apply alloc_fresh|]. pose proof (id_high _ _ _ Hb x Hx). lia.
Qed.
Lemma alloc_zero : V1 x = replicate 512 0.
Proof. unfold allocated, vupd. by rewrite Z.eqb_refl. Qed.
Lemma alloc_free k : has_free V start (S k) → has_free V1 start k.
Proof.
  intros (F & Hk & HF). exists (F ∖ {[x]}). split.
  - assert (F ⊆ (F ∖ {[x]}) ∪ {[x]}) as Hsub.
    { intros b Hb. destruct (decide (b = x)); set_solver. }
    apply subseteq_size in Hsub. rewrite size_union, size_singleton in Hsub by set_solver. lia.
  - intros b Hb. apply elem_of_difference in Hb as [Hb Hne]. destruct (HF b Hb) as (Hr & Hs & Hu).
    rewrite alloc_sbsize. split; [done|]. split; [done|]. rewrite alloc_used, Hu by done.
    destruct (Z.eqb_spec b x); [set_solver|done].
Qed.

(** The file does not notice. *)
Section file.
Context (r : inode) (Hf : file_ok V start r).
Lemma alloc_fblk bn : fblk V1 r bn = fblk V r bn.
Proof.
  unfold fblk. destruct (bn <? 12); [done|]. destruct (Z.eqb_spec (ind r) 0); [done|].
  by rewrite alloc_data by (by apply Hf).
Qed.
Lemma alloc_file : file_ok V1 start r.
Proof.
  destruct Hf as [F1 F2 F3 F4 F5 F6 F7]. split; try done.
  - intros bn Hbn. rewrite alloc_fblk. intros Hne. by apply alloc_isdata, F3.
  - intros Hne. by apply alloc_isdata, F4.
  - intros bn bn' Hbn Hbn'. rewrite !alloc_fblk. by apply F5.
  - intros bn Hbn. rewrite alloc_fblk. by apply F6.
  - intros bn Hbn. rewrite alloc_fblk. by apply F7.
Qed.
End file.
End alloc.

(** Entering the block [x] as block [bn] of a file that has none there. *)
Lemma file_add V V' start r r' bn x : file_ok V start r → 0 ≤ bn < 140 → i_size r' = i_size r →
  length (i_addrs r') = 13%nat → ind r' = ind r →
  (∀ b, isdata V start b → isdata V' start b) → isdata V start x →
  (∀ bn', 0 ≤ bn' < 140 → fblk V r bn' ≠ x) → x ≠ ind r → x ≠ 0 →
  (∀ bn', 0 ≤ bn' < 140 → fblk V' r' bn' = if bn' =? bn then x else fblk V r bn') →
  file_ok V' start r'.
Proof.
  intros [F1 F2 F3 F4 F5 F6 F7] Hbn Es Hl Ei Hd Hx Hfr Hxi Hx0 Hb. split; rewrite ?Es, ?Ei; try done.
  - intros b Hr. rewrite Hb by done. destruct (b =? bn); [by intros; apply Hd|]. intros; by apply Hd, F3.
  - intros. by apply Hd, F4.
  - intros b b' Hr Hr'. rewrite !Hb by done. pose proof (Hfr b Hr). pose proof (Hfr b' Hr').
    destruct (Z.eqb_spec b bn), (Z.eqb_spec b' bn); try congruence. by apply F5.
  - intros b Hr Hi. rewrite Hb by done. destruct (b =? bn); [done|]. by apply F6.
  - intros b Hr Hlt. rewrite Hb by lia. destruct (b =? bn); [done|]. by apply F7.
Qed.

(** ** How a file grows *)

(** From [V], [r] to [V'], [r'] some blocks were added to the file, all of them
    zero; nothing else changed but bitmap blocks (which are in [BM]) and the
    indirect block. *)
Record grow (BM : gset Z) (start : Z) (V : Z → list Z) (r : inode) (V' : Z → list Z) (r' : inode) : Prop := {
  gr_geo : fsgeo V' start;
  gr_file : file_ok V' start r';
  gr_sb : V' 1 = V 1;
  gr_mono : ∀ b, isdata V start b → isdata V' start b;
  gr_ino : r' = set_i_addrs (i_addrs r') r;
  gr_ind : ind r ≠ 0 → ind r' = ind r;
  gr_fresh : ind r = 0 → ind r' ≠ 0 → ¬ isdata V start (ind r');
  gr_blk : ∀ bn, 0 ≤ bn < 140 → fblk V r bn ≠ 0 → fblk V' r' bn = fblk V r bn;
  gr_data : ∀ b, isdata V start b → b ≠ ind r → V' b = V b;
  gr_new : ∀ bn, 0 ≤ bn < 140 → fblk V r bn = 0 → fblk V' r' bn ≠ 0 → V' (fblk V' r' bn) = replicate 512 0;
  gr_frame : ∀ n, n ∉ BM → n ≠ 0 → n ≠ ind r' → (∀ bn, 0 ≤ bn < 140 → n ≠ fblk V' r' bn) → V' n = V n;
}.

Section grow.
Context (BM : gset Z) (start : Z).

Lemma grow_refl V r : fsgeo V start → file_ok V start r → grow BM start V r V r.
Proof. intros Hg Hf. split; try done; try congruence. by destruct r. Qed.
Lemma grow_trans V r V' r' V'' r'' : file_ok V start r → grow BM start V r V' r' → grow BM start V' r' V'' r'' →
  grow BM start V r V'' r''.
Proof.
  intros Hf [A1 A2 A3 A4 A5 A6 A7 A8 A9 A10 A11] [B1 B2 B3 B4 B5 B6 B7 B8 B9 B10 B11]. split.
  - done.
  - done.
  - by rewrite B3.
  - intros b Hb. by apply B4, A4.
  - rewrite B5, A5. done.
  - intros Hi. rewrite B6, A6; [done|done|]. by rewrite A6.
  - intros H0 H2. destruct (decide (ind r' = 0)) as [E|E].
    + intros Hd. by apply (B7 E H2), A4.
    + rewrite B6 by done. by apply A7.
  - intros bn Hbn Hne. rewrite B8, A8; [done|done|done|done|]. by rewrite A8.
  - intros b Hb Hne. rewrite B9, A9; [done|done|done|by apply A4|].
    intros ->. destruct (decide (ind r = 0)) as [E|E]; [|by rewrite A6 in Hne].
    apply (A7 E); [|done]. intros E'. rewrite E' in Hb. by pose proof (isdata_pos _ _ _ A1 (A4 _ Hb)); lia.
  - intros bn Hbn H0 Hne. destruct (decide (fblk V' r' bn = 0)) as [E|E]; [by apply B10|].
    rewrite B8 by done. rewrite B9, A10; [done|done|done|done|by apply A2|].
    destruct (decide (ind r' = 0)) as [->|E']; [done|]. by apply (fo_sep _ _ _ A2).
  - intros n H1 Hn0 H2 H3. rewrite B11, A11; [done|done|done| | |done|done|done|done].
    + intros ->. destruct (decide (ind r' = 0)) as [E|E]; [congruence|]. by rewrite B6 in H2.
    + intros bn Hbn ->. apply (H3 bn Hbn). by rewrite B8.
Qed.
End grow.

Definition with_addr (i x : Z) (r : inode) : inode := set_i_addrs (zupd i x (i_addrs r)) r.
Lemma baddr_with i x r j : length (i_addrs r) = 13%nat → 0 ≤ i < 13 →
  baddr (with_addr i x r) j = if j =? i then x else baddr r j.
Proof.
  intros Hl Hi. unfold baddr, with_addr. simpl. destruct (Z.eqb_spec j i) as [->|].
  - rewrite znth_zupd by (unfold zlen; lia). done.
  - by rewrite znth_zupd_ne by done.
Qed.
Lemma length_with i x r : length (i_addrs (with_addr i x r)) = length (i_addrs r).
Proof. pose proof (zlen_zupd (i_addrs r) i x). unfold zlen, with_addr in *. simpl. lia. Qed.
Lemma get32_zero o : get32 o (replicate 512 0) = 0.
Proof.
  unfold get32, slice. rewrite drop_replicate, take_replicate. generalize (4 `min` (512 - o))%nat.
  induction n as [|n IH]; [done|]. simpl. by rewrite IH.
Qed.

Section steps.
Context (BM : gset Z) (s : logst) (V : Z → list Z) (B L X : gset Z) (x : Z) (T : tx s V B L X).
Context (Hg : fsgeo V (lg_start s)) (Hx : 0 ≤ x < sbsize V) (Hxs : x < lg_start s) (Hfree : used V x = false).
Context (Hbm : bmblock V x ∈ BM) (r : inode) (Hf : file_ok V (lg_start s) r).
Abbreviation V1 := (allocated V x).
Abbreviation start := (lg_start s).

Lemma new_pos : x ≠ 0.
Proof. pose proof (alloc_high s V x Hg Hx Hfree x Hx). lia. Qed.
Lemma new_ind : x ≠ ind r.
Proof.
  destruct (decide (ind r = 0)) as [->|E]; [apply new_pos|]. intros Ex. symmetry in Ex. revert Ex.
  by apply (alloc_fresh s V x Hfree), Hf.
Qed.
Lemma new_blk bn : 0 ≤ bn < 140 → fblk V r bn ≠ x.
Proof.
  intros Hbn. destruct (decide (fblk V r bn = 0)) as [->|E]; [pose proof new_pos; congruence|].
  by apply (alloc_fresh s V x Hfree), Hf.
Qed.

Lemma grow_direct i : 0 ≤ i < 12 → baddr r i = 0 → grow BM start V r V1 (with_addr i x r).
Proof.
  intros Hi H0. pose proof (fo_len _ _ _ Hf) as Hl. pose proof new_pos as Hx0.
  assert (Hind : ind (with_addr i x r) = ind r).
  { unfold ind. rewrite baddr_with by (done || lia). by destruct (Z.eqb_spec 12 i); [lia|]. }
  assert (Hb : ∀ bn, fblk V1 (with_addr i x r) bn = if bn =? i then x else fblk V r bn).
  { intros bn. rewrite <- (alloc_fblk s V x Hx Hfree r Hf bn). unfold fblk. rewrite Hind, baddr_with by (done || lia).
    destruct (Z.ltb_spec bn 12); [done|]. by destruct (Z.eqb_spec bn i); [lia|]. }
  assert (HfA : file_ok V1 start r) by (by eapply alloc_file).
  split.
  - by eapply alloc_fsgeo.
  - apply (file_add V1 V1 start r _ i x); try done; [lia|by rewrite length_with|by eapply alloc_isdata_new| |by apply new_ind|].
    + intros bn Hbn. rewrite (alloc_fblk s V x Hx Hfree r Hf). by apply new_blk.
    + intros bn _. rewrite (alloc_fblk s V x Hx Hfree r Hf). apply Hb.
  - by eapply alloc_sb.
  - intros b. by eapply alloc_isdata.
  - done.
  - done.
  - intros E E'. by rewrite Hind in E'.
  - intros bn Hbn Hne. rewrite Hb. destruct (Z.eqb_spec bn i) as [->|]; [|done].
    destruct Hne. unfold fblk. by destruct (Z.ltb_spec i 12); [|lia].
  - intros b Hb' _. by eapply alloc_data.
  - intros bn Hbn H1. rewrite Hb. destruct (Z.eqb_spec bn i); [by rewrite alloc_zero|done].
  - intros n H1 H2 H3 H4. eapply alloc_other; [|by intros ->]. specialize (H4 i ltac:(lia)).
    rewrite Hb, Z.eqb_refl in H4. done.
Qed.

Lemma grow_ind : ind r = 0 → grow BM start V r V1 (with_addr 12 x r).
Proof.
  intros H0. pose proof (fo_len _ _ _ Hf) as Hl. pose proof new_pos as Hx0.
  assert (Hind : ind (with_addr 12 x r) = x) by (unfold ind; by rewrite baddr_with by (done || lia)).
  assert (Hb : ∀ bn, fblk V1 (with_addr 12 x r) bn = fblk V r bn).
  { intros bn. unfold fblk. rewrite Hind, H0, baddr_with by (done || lia). destruct (Z.ltb_spec bn 12).
    - by destruct (Z.eqb_spec bn 12); [lia|].
    - destruct (Z.eqb_spec x 0); [done|]. rewrite alloc_zero. apply get32_zero. }
  destruct Hf as [F1 F2 F3 F4 F5 F6 F7]. split.
  - by eapply alloc_fsgeo.
  - split; rewrite ?length_with, ?Hind; try done.
    + intros bn Hbn. rewrite Hb. intros Hne. by eapply alloc_isdata, F3.
    + intros _. by eapply alloc_isdata_new.
    + intros bn bn'. rewrite !Hb. apply F5.
    + intros bn Hbn _. rewrite Hb. by apply new_blk.
    + intros bn Hbn. rewrite Hb. by apply F7.
  - by eapply alloc_sb.
  - intros b. by eapply alloc_isdata.
  - done.
  - done.
  - intros _ _ Hd. rewrite Hind in Hd. by eapply (alloc_fresh s V x Hfree); [exact Hd|].
  - intros bn _ _. apply Hb.
  - intros b Hb' _. by eapply alloc_data.
  - intros bn Hbn H1. by rewrite Hb.
  - intros n H1 H2 H3 H4. rewrite Hind in H3. eapply alloc_other; [done|by intros ->].
Qed.

(** The new block is entered in the indirect block. *)
Definition entered (bn : Z) : Z → list Z :=
  vupd V1 (ind r) (put32 (Z.to_nat (4 * (bn - 12))) x (V1 (ind r))).

Lemma grow_entry bn : 12 ≤ bn < 140 → ind r ≠ 0 → fblk V r bn = 0 → length (V (ind r)) = 512%nat →
  grow BM start V r (entered bn) r.
Proof.
  intros Hbn Hi H0 Hlen. pose proof new_pos as Hx0. pose proof (fo_ind _ _ _ Hf Hi) as Hdi.
  assert (Hx32 : 0 ≤ x < 2 ^ 32) by (pose proof (g_size _ _ Hg); lia).
  assert (HVi : V1 (ind r) = V (ind r)) by (by eapply alloc_data).
  pose proof (isdata_pos _ _ _ Hg Hdi) as [Hpi _].
  assert (Hoth : ∀ n, n ≠ ind r → entered bn n = V1 n).
  { intros n Hn. unfold entered, vupd. by destruct (Z.eqb_spec n (ind r)). }
  assert (Hsb : entered bn 1 = V 1) by (rewrite Hoth by lia; by eapply alloc_sb).
  assert (Hsz : sbsize (entered bn) = sbsize V) by (unfold sbsize; by rewrite Hsb).
  assert (Hnb : ∀ b, bmblock (entered bn) b = bmblock V b) by (intros b; unfold bmblock, ninodes; by rewrite Hsb).
  assert (Hus : ∀ b, 0 ≤ b < sbsize V → used (entered bn) b = used V1 b).
  { intros b Hb. unfold used. rewrite Hnb, (alloc_bm s V x Hg Hx Hfree). rewrite Hoth; [done|].
    pose proof (id_high _ _ _ Hdi b Hb). lia. }
  assert (Hmono : ∀ b, isdata V1 start b → isdata (entered bn) start b).
  { intros b [D1 D2 D3 D4]. rewrite (alloc_sbsize s V x Hg Hx Hfree) in D1, D4. split; rewrite ?Hsz; try done.
    - by rewrite Hus. - intros b' Hb'. rewrite Hnb. rewrite <- (alloc_bm s V x Hg Hx Hfree). by apply D4. }
  assert (Hb : ∀ b, 0 ≤ b < 140 → fblk (entered bn) r b = if b =? bn then x else fblk V r b).
  { intros b Hr. unfold fblk. destruct (Z.ltb_spec b 12); [by destruct (Z.eqb_spec b bn); [lia|]|].
    destruct (Z.eqb_spec (ind r) 0); [done|]. unfold entered, vupd. rewrite Z.eqb_refl, HVi.
    destruct (Z.eqb_spec b bn) as [->|].
    - rewrite get32_put32 by lia. by apply u32_small.
    - apply get32_put32_other; lia. }
  assert (HfA : file_ok V1 start r) by (by eapply alloc_file).
  split.
  - pose proof (alloc_fsgeo s V B L X x T Hg Hx Hfree) as [G1 G2 G3 G4 G5].
    rewrite (alloc_sbsize s V x Hg Hx Hfree) in G2, G4, G5. split; rewrite ?Hsz; try done.
    + unfold ninodes in *. rewrite Hsb. by rewrite (alloc_sb s V x Hg Hx Hfree) in G3.
    + intros b Hbr. rewrite Hnb. rewrite <- (alloc_bm s V x Hg Hx Hfree). by apply G4.
    + intros b Hbr Hu b' Hb'. rewrite Hnb. rewrite <- (alloc_bm s V x Hg Hx Hfree). rewrite Hus in Hu by done. by apply G5.
  - apply (file_add V1 (entered bn) start r r bn x); try done; [lia|apply HfA|by eapply alloc_isdata_new| |by apply new_ind|].
    + intros b Hr. rewrite (alloc_fblk s V x Hx Hfree r Hf). by apply new_blk.
    + intros b Hr. rewrite (alloc_fblk s V x Hx Hfree r Hf). by apply Hb.
  - done.
  - intros b Hd. apply Hmono. by eapply alloc_isdata.
  - by destruct r.
  - done.
  - done.
  - intros b Hr Hne. rewrite Hb by done. destruct (Z.eqb_spec b bn) as [->|]; [congruence|done].
  - intros b Hd Hne. rewrite Hoth by done. by eapply alloc_data.
  - intros b Hr H1. rewrite Hb by done. destruct (Z.eqb_spec b bn) as [->|]; [|congruence].
    intros _. rewrite Hoth by apply new_ind. by apply alloc_zero.
  - intros n H1 H2 H3 H4. rewrite Hoth by done. eapply alloc_other; [|by intros ->]. specialize (H4 bn ltac:(lia)).
    rewrite Hb, Z.eqb_refl in H4 by lia. done.
Qed.
End steps.

(** ** [bmap] in general *)

Definition indset (r : inode) : gset Z := if ind r =? 0 then ∅ else {[ind r]}.
Lemma zupd_same {A} (l : list A) i x : znth l i = Some x → zupd i x l = l.
Proof.
  unfold znth, zupd. destruct (0 <=? i); [|done]. intros H. by apply list_insert_id.
Qed.
Lemma tx_nohold s V L X : tx s V ∅ L X → X = ∅.
Proof. intros (U & secs & W). pose proof (w_mod _ _ _ _ _ _ _ W). set_solver. Qed.

Section miss.
Context (BM : gset Z) (s : fsst) (V : Z → list Z) (L : gset Z) (ip : Z) (r : inode) (k : nat).
Context (T : ftx s V ∅ L ∅) (Hr : znth (fs_inode s) ip = Some r) (Hd : i_dev r = 1).
Context (Hg : fsgeo V (lg_start (fs_log s))) (Hf : file_ok V (lg_start (fs_log s)) r).
Context (Hbm : ∀ b, 0 ≤ b < sbsize V → bmblock V b ∈ BM).
Context (Hlg : 10 ≤ lg_size (fs_log s)).
Abbreviation start := (lg_start (fs_log s)).

Lemma clear_empty x : clear_of V ∅ x.
Proof. split; [set_solver|]. split; set_solver. Qed.
Lemma room_cap n : (size (∅ ∪ L : gset Z) + n < 10)%nat → Z.of_nat (size L) + Z.of_nat n < lg_size (fs_log s).
Proof. rewrite union_empty_l_L. lia. Qed.

(** An address that is missing in the inode. *)
Lemma addr_miss i : 0 ≤ i < 13 → baddr r i = 0 → has_free V start (S k) → (size (∅ ∪ L : gset Z) + 2 < 10)%nat →
  ∃ x s', addr_or_alloc ip i s = Ok x s' ∧ ftx s' (allocated V x) ∅ ({[x]} ∪ ({[bmblock V x]} ∪ L)) ∅ ∧
    fsteps s s' ∧ fs_inode s' = zupd ip (with_addr i x r) (fs_inode s) ∧
    0 ≤ x < sbsize V ∧ x < start ∧ used V x = false ∧ has_free (allocated V x) start k.
Proof.
  intros Hi H0 Hfr Hroom. destruct (least_free _ _ _ Hfr) as (x & Hx & Hxs & Hu & Hleast).
  destruct (balloc_ok (fs_log s) V ∅ L ∅ x (proj1 T) Hg (clear_empty x) Hx Hxs Hu Hleast Hroom (room_cap 2 Hroom))
    as (t & R & U & St & K).
  set (s1 := set_fs_log t s). assert (Hr1 : znth (fs_inode s1) ip = Some r) by done.
  exists x, (set_fs_inode (zupd ip (with_addr i x r) (fs_inode s)) s1). split.
  { unfold addr_or_alloc. rewrite (bind_ok _ _ _ _ _ (get_addr_ok s V ip r Hr Hf i Hi)), H0. cbn [Z.eqb].
    rewrite (bind_ok _ _ _ _ _ (get_inode_ok _ _ _ Hr)), Hd.
    rewrite (bind_ok _ _ _ _ _ (zoom_fslog _ s _ _ R)). fold s1. unfold set_addr.
    rewrite (bind_ok _ _ _ tt (set_fs_inode (zupd ip (with_addr i x r) (fs_inode s)) s1)); [done|].
    rewrite (bind_ok _ _ _ (baddr r i) s1).
    - by rewrite (upd_inode_ok s1 ip r _ Hr1).
    - unfold get_addr. rewrite (bind_ok _ _ _ _ _ (get_inode_ok _ _ _ Hr1)).
      by rewrite znth_addrs by (done || apply Hf). }
  split; [apply ftx_inodes; by eapply ftx_log|]. split; [done|]. do 4 (split; [done|]).
  by eapply alloc_free; [exact (proj1 T)|..].
Qed.

(** The first half of the indirect case: the indirect block, allocated if it is
    missing. *)
Lemma ind_ok : has_free V start (S k) → (size (∅ ∪ L : gset Z) + 2 < 10)%nat →
  ∃ s' V' L' r', addr_or_alloc ip 12 s = Ok (ind r') s' ∧ ftx s' V' ∅ L' ∅ ∧ fsteps s s' ∧
    fs_inode s' = zupd ip r' (fs_inode s) ∧ grow BM start V r V' r' ∧ ind r' ≠ 0 ∧ has_free V' start k ∧
    L' ⊆ L ∪ BM ∪ indset r' ∧ (ind r ≠ 0 → r' = r).
Proof.
  intros Hfr Hroom. destruct (decide (ind r = 0)) as [E|E].
  - destruct (addr_miss 12 ltac:(lia) E Hfr Hroom) as (x & s' & R & T' & S' & Ei & Hx & Hxs & Hu & Hfr').
    assert (Eind : ind (with_addr 12 x r) = x).
    { unfold ind. rewrite baddr_with by (apply Hf || lia). done. }
    pose proof (grow_ind BM (fs_log s) V ∅ L ∅ x (proj1 T) Hg Hx Hxs Hu (Hbm x Hx) r Hf E) as G.
    pose proof (new_pos (fs_log s) V x Hg Hx Hu) as Hx0.
    exists s', (allocated V x), ({[x]} ∪ ({[bmblock V x]} ∪ L)), (with_addr 12 x r). rewrite Eind.
    do 7 (split; [done|]). unfold indset. rewrite Eind. destruct (Z.eqb_spec x 0); [done|]. split.
    + pose proof (Hbm x Hx). set_solver.
    + done.
  - exists s, V, L, r. split; [by apply (addr_hit s V ip r Hr Hf); [lia|]|]. split; [done|]. split; [done|].
    split; [by rewrite zupd_same|]. split; [by apply grow_refl|]. split; [done|]. split; [|split; [set_solver|done]].
    destruct Hfr as (F & HF & H). exists F. split; [lia|done].
Qed.
End miss.

Lemma has_free_le V start j k : (j ≤ k)%nat → has_free V start k → has_free V start j.
Proof. intros Hle (F & HF & H). exists F. split; [lia|done]. Qed.

(** The second half: the entry of the indirect block. *)
Section entry.
Context (BM : gset Z) (s : fsst) (V : Z → list Z) (L : gset Z) (ip : Z) (r : inode) (k : nat) (bn : Z).
Context (T : ftx s V ∅ L ∅) (Hr : znth (fs_inode s) ip = Some r).
Context (Hg : fsgeo V (lg_start (fs_log s))) (Hf : file_ok V (lg_start (fs_log s)) r).
Context (Hbm : ∀ b, 0 ≤ b < sbsize V → bmblock V b ∈ BM).
Context (Hlg : 10 ≤ lg_size (fs_log s)) (Hi : ind r ≠ 0) (Hbn : 12 ≤ bn < 140).
Context (Hroom : (size ({[ind r]} ∪ L) + 3 < 10)%nat).
Abbreviation start := (lg_start (fs_log s)).

Lemma entry_ok : has_free V start (S k) →
  ∃ s' V' L', (let* bp := zoom (bread 1 (ind r)) in
      let* addr := get_word bp (bn - 12) in
      let* addr :=
        (if addr =? 0 then
           let* addr := zoom (balloc 1) in
           zoom (upd_buf bp (fun b => set_b_data (put32 (Z.to_nat (4 * (bn - 12))) addr (b_data b)) b)) ;;
           zoom (log_write bp) ;;
           ret addr
         else ret addr) in
      zoom (brelse bp) ;;
      ret addr) s = Ok (fblk V' r bn) s' ∧
    ftx s' V' ∅ L' ∅ ∧ fsteps s s' ∧ fs_inode s' = fs_inode s ∧ grow BM start V r V' r ∧
    fblk V' r bn ≠ 0 ∧ has_free V' start k ∧ L' ⊆ L ∪ BM ∪ {[ind r]} ∪ {[fblk V' r bn]}.
Proof.
  intros Hfr. set (a := ind r) in *. pose proof (fo_ind _ _ _ Hf Hi) as Hda. fold a in Hda.
  pose proof (isdata_pos _ _ _ Hg Hda) as [Hpos _].
  pose proof (size_add a L) as Ha. set (o := Z.to_nat (4 * (bn - 12))).
  assert (Hsz : (size (∅ ∪ L : gset Z) < 10)%nat).
  { rewrite union_empty_l_L. pose proof (subseteq_size L ({[a]} ∪ L) ltac:(set_solver)). lia. }
  destruct (tx_bread (fs_log s) V ∅ L ∅ a (proj1 T) ltac:(lia) ltac:(set_solver) (or_introl Hsz))
    as (bp & t1 & R1 & U1 & H1 & D1 & St1 & K1).
  rewrite union_empty_r_L in U1. destruct (tx_held _ _ _ _ _ U1 bp a H1) as (_ & _ & Hget & _).
  pose proof (sp_start _ _ St1) as Es1. pose proof (sp_size _ _ St1) as Ez1.
  pose proof (tx_block _ _ _ _ _ a (proj1 T) ltac:(lia)) as H512.
  rewrite (bind_ok _ _ _ _ _ (zoom_fsbio _ s _ _ R1)).
  assert (Hw : get32 o (V a) = fblk V r bn).
  { unfold fblk. destruct (Z.ltb_spec bn 12); [lia|]. by destruct (Z.eqb_spec (ind r) 0). }
  rewrite (bind_ok _ _ _ (fblk V r bn) (set_fs_log t1 s)).
  2: { unfold get_word. rewrite (bind_ok _ _ _ (bufof (lg_bio t1) bp) (set_fs_log t1 s)); [by rewrite D1, <- Hw|].
       unfold zoom; simpl. rewrite Hget. simpl. by destruct t1. }
  destruct (Z.eqb_spec (fblk V r bn) 0) as [E0|E0].
  - destruct (least_free _ _ _ Hfr) as (x & Hx & Hxs & Hu & Hleast).
    pose proof (new_ind (fs_log s) V x Hg Hx Hu r Hf) as Hxa. fold a in Hxa.
    assert (HbmA : ∀ b, 0 ≤ b < sbsize V → bmblock V b ≠ a) by (intros b Hb; pose proof (id_high _ _ _ Hda b Hb); lia).
    destruct (balloc_ok t1 V {[a]} L ∅ x U1 ltac:(by rewrite Es1)) as (t2 & R2 & U2 & St2 & K2); try done; [|lia|lia| |].
    { split; [set_solver by lia|]. split; [set_solver|]. intros b Hb. pose proof (HbmA b Hb). set_solver. }
    { rewrite Ez1. pose proof (subseteq_size L ({[a]} ∪ L) ltac:(set_solver)). lia. }
    set (V1 := allocated V x) in *. set (L2 := {[x]} ∪ ({[bmblock V x]} ∪ L)) in *.
    pose proof (sp_start _ _ St2) as Es2. pose proof (sp_size _ _ St2) as Ez2.
    assert (HL2 : (size ({[a]} ∪ L2) < 10)%nat).
    { pose proof (size_add x ({[bmblock V x]} ∪ ({[a]} ∪ L))). pose proof (size_add (bmblock V x) ({[a]} ∪ L)).
      replace ({[a]} ∪ L2) with ({[x]} ∪ ({[bmblock V x]} ∪ ({[a]} ∪ L))) by set_solver. lia. }
    destruct (tx_put t2 V1 {[a]} L2 ∅ bp a (put32 o x) U2 (K2 _ _ H1)) as (t3 & R3 & U3 & H3 & St3 & K3).
    { rewrite length_put32; [by apply (tx_block _ _ _ _ _ a U2); lia|].
      rewrite (tx_block _ _ _ _ _ a U2) by lia. unfold o. lia. }
    pose proof (sp_start _ _ St3) as Es3. pose proof (sp_size _ _ St3) as Ez3.
    destruct (tx_log_write t3 _ {[a]} L2 _ bp a U3 H3 HL2) as (t4 & R4 & U4 & H4 & St4 & K4).
    { rewrite Ez3, Ez2, Ez1. pose proof (subseteq_size L ({[a]} ∪ L) ltac:(set_solver)).
      pose proof (size_add x ({[bmblock V x]} ∪ L)) as Hx2. pose proof (size_add (bmblock V x) L). fold L2 in Hx2. lia. }
    destruct (tx_brelse t4 _ {[a]} _ _ bp a U4 H4 ltac:(set_solver)) as (t5 & R5 & U5 & St5 & K5).
    replace ({[a]} ∖ {[a]} : gset Z) with (∅ : gset Z) in U5 by set_solver.
    replace (({[a]} ∪ ∅) ∖ {[a]} : gset Z) with (∅ : gset Z) in U5 by set_solver.
    pose proof (grow_entry BM (fs_log s) V ∅ L ∅ x (proj1 T) Hg Hx Hxs Hu (Hbm x Hx) r Hf bn Hbn Hi E0 H512) as G.
    change (vupd V1 a (put32 o x (V1 a))) with (entered V x r bn) in U5.
    assert (Hfb : fblk (entered V x r bn) r bn = x).
    { unfold fblk. destruct (Z.ltb_spec bn 12); [lia|]. destruct (Z.eqb_spec (ind r) 0); [done|].
      unfold entered, vupd. rewrite Z.eqb_refl. fold o. rewrite get32_put32.
      - apply u32_small. pose proof (g_size _ _ Hg). lia.
      - fold a V1. rewrite (tx_block _ _ _ _ _ a U2) by lia. unfold o. lia. }
    assert (St : steps (fs_log s) t5) by (by do 4 (etrans; [eassumption|])).
    exists (set_fs_log t5 s), (entered V x r bn), ({[a]} ∪ L2). rewrite Hfb. split; [|split; [|split; [|split; [done|split; [done|]]]]].
    + rewrite (bind_ok _ _ _ x (set_fs_log t4 s)).
      { by rewrite (bind_ok _ _ _ _ _ (zoom_fsbio _ (set_fs_log t4 s) _ _ R5)). }
      rewrite (bind_ok _ _ _ _ _ (zoom_fslog _ (set_fs_log t1 s) _ _ R2)).
      rewrite (bind_ok _ _ _ _ _ (zoom_fsbio _ (set_fs_log t2 (set_fs_log t1 s)) _ _ R3)).
      by rewrite (bind_ok _ _ _ _ _ (zoom_fslog _ (set_fs_log t3 (set_fs_log t2 (set_fs_log t1 s))) _ _ R4)).
    + by eapply ftx_log.
    + split; [done|]. intros b n Hn. destruct (tx_held _ _ _ _ _ (proj1 T) b n Hn) as (Hin & _). set_solver.
    + split; [by apply (new_pos (fs_log s) V x)|]. split; [|pose proof (Hbm x Hx); set_solver].
      assert (has_free (allocated V x) start k) as (F & HF & HFb) by (by eapply alloc_free; [exact (proj1 T)|..]).
      exists F. split; [done|]. intros b Hb. destruct (HFb b Hb) as (B1 & B2 & B3).
      rewrite (alloc_sbsize (fs_log s) V x Hg Hx Hu) in B1.
      assert (Hsb : entered V x r bn 1 = V 1) by apply G.
      assert (Hb1 : sbsize (entered V x r bn) = sbsize V) by (unfold sbsize; by rewrite Hsb).
      rewrite Hb1. split; [done|]. split; [done|]. rewrite <- B3. unfold used.
      rewrite (alloc_bm (fs_log s) V x Hg Hx Hu).
      replace (bmblock (entered V x r bn) b) with (bmblock V b) by (unfold bmblock, ninodes; by rewrite Hsb).
      unfold entered, vupd. fold a. destruct (Z.eqb_spec (bmblock V b) a); [by destruct (HbmA b B1)|done].
  - destruct (tx_brelse t1 V {[a]} L ∅ bp a U1 H1 ltac:(set_solver)) as (t2 & R2 & U2 & St2 & K2).
    replace ({[a]} ∖ {[a]} : gset Z) with (∅ : gset Z) in U2 by set_solver.
    rewrite (bind_ok _ _ _ _ (set_fs_log t1 s)) by done.
    rewrite (bind_ok _ _ _ _ _ (zoom_fsbio _ (set_fs_log t1 s) _ _ R2)).
    exists (set_fs_log t2 s), V, L. split; [done|]. split; [by eapply ftx_log; [exact T|exact U2|etrans]|].
    split. { split; [by etrans|]. intros b n Hn. destruct (tx_held _ _ _ _ _ (proj1 T) b n Hn) as (Hin & _). set_solver. }
    split; [done|]. split; [by apply grow_refl|]. split; [done|]. split; [|set_solver].
    by eapply has_free_le; [|exact Hfr]; lia.
Qed.
End entry.

(** The log blocks a write may use: those logged, the bitmap, the indirect block
    and one more if that block is missing. *)
Definition log_cost (BM L : gset Z) (r : inode) : nat :=
  (size (L ∪ BM ∪ indset r) + if (ind r =? 0)%Z then 1 else 0)%nat.

Lemma bmap_ok BM s V L ip r k bn : ftx s V ∅ L ∅ → znth (fs_inode s) ip = Some r → i_dev r = 1 →
  fsgeo V (lg_start (fs_log s)) → file_ok V (lg_start (fs_log s)) r →
  (∀ b, 0 ≤ b < sbsize V → bmblock V b ∈ BM) → 10 ≤ lg_size (fs_log s) → 0 ≤ bn < 140 →
  has_free V (lg_start (fs_log s)) (S (S k)) → (log_cost BM L r + 3 < 10)%nat →
  ∃ s' V' L' r', bmap ip bn s = Ok (fblk V' r' bn) s' ∧ ftx s' V' ∅ L' ∅ ∧ fsteps s s' ∧
    fs_inode s' = zupd ip r' (fs_inode s) ∧ grow BM (lg_start (fs_log s)) V r V' r' ∧ fblk V' r' bn ≠ 0 ∧
    has_free V' (lg_start (fs_log s)) k ∧ L' ⊆ L ∪ BM ∪ indset r' ∪ {[fblk V' r' bn]} ∧
    (fblk V r bn ≠ 0 → r' = r).
Proof.
  intros T Hr Hd Hg Hf Hbm Hlg Hbn Hfr Hcost. unfold log_cost in Hcost.
  assert (HL : (size (∅ ∪ L : gset Z) + 3 < 10)%nat).
  { rewrite union_empty_l_L. pose proof (subseteq_size L (L ∪ BM ∪ indset r) ltac:(set_solver)). lia. }
  destruct (Z.ltb_spec bn 12) as [Hlt|Hge].
  - destruct (decide (baddr r bn = 0)) as [E|E].
    + destruct (addr_miss BM s V L ip r (S k) T Hr Hd Hg Hf Hbm Hlg bn ltac:(lia) E Hfr ltac:(lia))
        as (x & s' & R & T' & S' & Ei & Hx & Hxs & Hu & Hfr').
      pose proof (grow_direct BM (fs_log s) V ∅ L ∅ x (proj1 T) Hg Hx Hxs Hu (Hbm x Hx) r Hf bn ltac:(lia) E) as G.
      assert (Hb : fblk (allocated V x) (with_addr bn x r) bn = x).
      { unfold fblk. destruct (Z.ltb_spec bn 12); [|lia]. rewrite baddr_with by (apply Hf || lia). by rewrite Z.eqb_refl. }
      exists s', (allocated V x), ({[x]} ∪ ({[bmblock V x]} ∪ L)), (with_addr bn x r). rewrite Hb.
      split. { unfold bmap. change NDIRECT with 12. by destruct (Z.ltb_spec bn 12); [|lia]. }
      do 4 (split; [done|]). split; [by apply (new_pos (fs_log s) V x)|]. split; [by eapply has_free_le; [|exact Hfr']; lia|].
      split; [pose proof (Hbm x Hx); set_solver|]. unfold fblk. by destruct (Z.ltb_spec bn 12); [|lia].
    + assert (Hb : fblk V r bn = baddr r bn) by (unfold fblk; by destruct (Z.ltb_spec bn 12); [|lia]).
      exists s, V, L, r. rewrite Hb. split.
      { unfold bmap. change NDIRECT with 12. destruct (Z.ltb_spec bn 12); [|lia]. by apply (addr_hit s V ip r Hr Hf); [lia|]. }
      do 2 (split; [done|]). split; [by rewrite zupd_same|]. split; [by apply grow_refl|]. split; [done|].
      split; [by eapply has_free_le; [|exact Hfr]; lia|]. split; [set_solver|done].
  - destruct (ind_ok BM s V L ip r (S k) T Hr Hd Hg Hf Hbm Hlg Hfr ltac:(lia))
      as (s1 & V1 & L1 & r1 & R1 & T1 & S1 & E1 & G1 & Hi1 & Hfr1 & HL1 & Hk1).
    pose proof (sp_start _ _ (proj1 S1)) as Es1. pose proof (sp_size _ _ (proj1 S1)) as Ez1.
    assert (Hr1 : znth (fs_inode s1) ip = Some r1) by (rewrite E1; by apply znth_zupd, (znth_Some _ _ _ Hr)).
    pose proof (gr_sb _ _ _ _ _ _ G1) as Hsb.
    assert (Hroom1 : (size ({[ind r1]} ∪ L1) + 3 < 10)%nat).
    { assert ({[ind r1]} ∪ L1 ⊆ L ∪ BM ∪ indset r1) as Hsub.
      { unfold indset in *. destruct (Z.eqb_spec (ind r1) 0); [done|]. set_solver. }
      apply subseteq_size in Hsub. unfold indset in *. destruct (Z.eqb_spec (ind r1) 0); [done|].
      destruct (Z.eqb_spec (ind r) 0) as [E|E].
      - pose proof (size_add (ind r1) (L ∪ BM)). rewrite union_empty_r_L in Hcost.
        replace (L ∪ BM ∪ {[ind r1]}) with ({[ind r1]} ∪ (L ∪ BM)) in Hsub by set_solver. lia.
      - rewrite (gr_ind _ _ _ _ _ _ G1 E) in *. lia. }
    rewrite <- Es1 in Hfr1.
    destruct (entry_ok BM s1 V1 L1 ip r1 k bn T1 Hr1 ltac:(rewrite Es1; apply G1) ltac:(rewrite Es1; apply G1))
      as (s2 & V2 & L2 & R2 & T2 & S2 & E2 & G2 & Hne & Hfr2 & HL2); try done; [|by rewrite Ez1|lia|].
    { intros b Hb. unfold bmblock, ninodes, sbsize in *. rewrite Hsb in *. by apply Hbm. }
    exists s2, V2, L2, r1. split; [|split; [done|split; [by etrans|split; [by rewrite E2|split]]]].
    + unfold bmap. change NDIRECT with 12. change NINDIRECT with 128. destruct (Z.ltb_spec bn 12); [lia|].
      rewrite u32_small by lia. destruct (Z.ltb_spec (bn - 12) 128); [|lia].
      rewrite (bind_ok _ _ _ _ _ R1), (bind_ok _ _ _ _ _ (get_inode_ok _ _ _ Hr1)).
      replace (i_dev r1) with 1 by (rewrite (gr_ino _ _ _ _ _ _ G1); done). exact R2.
    + rewrite <- Es1 in G1 |- *. by eapply grow_trans; [rewrite Es1|exact G1|exact G2].
    + split; [done|]. rewrite <- Es1. split; [done|]. split.
      * unfold indset in *. destruct (Z.eqb_spec (ind r1) 0); [done|]. set_solver.
      * intros Hnz. apply Hk1. unfold fblk in Hnz. destruct (Z.ltb_spec bn 12); [lia|].
        by destruct (Z.eqb_spec (ind r) 0).
Qed.

(** * Writing *)

(** Changing a block of the file's data leaves the map as it is. *)
Section update.
Context (V : Z → list Z) (start : Z) (r : inode) (bn : Z) (new : list Z).
Context (Hg : fsgeo V start) (Hf : file_ok V start r) (Hbn : 0 ≤ bn < 140) (Hne : fblk V r bn ≠ 0).
Abbreviation b := (fblk V r bn).
Abbreviation V' := (vupd V b new).

Lemma upd_block n : n ≠ b → V' n = V n.
Proof. intros Hn. unfold vupd. by destruct (Z.eqb_spec n b). Qed.
Lemma upd_data : isdata V start b.
Proof. by apply Hf. Qed.
Lemma upd_sb : V' 1 = V 1.
Proof. pose proof (isdata_pos _ _ _ Hg upd_data). apply upd_block. lia. Qed.
Lemma upd_sbsize : sbsize V' = sbsize V.
Proof. unfold sbsize. by rewrite upd_sb. Qed.
Lemma upd_bm c : bmblock V' c = bmblock V c.
Proof. unfold bmblock, ninodes. by rewrite upd_sb. Qed.
Lemma upd_used c : 0 ≤ c < sbsize V → used V' c = used V c.
Proof.
  intros Hc. unfold used. rewrite upd_bm, upd_block; [done|]. pose proof (id_high _ _ _ upd_data c Hc). lia.
Qed.
Lemma upd_isdata c : isdata V start c → isdata V' start c.
Proof.
  intros [D1 D2 D3 D4]. split; rewrite ?upd_sbsize; try done; [by rewrite upd_used|].
  intros c' Hc. rewrite upd_bm. by apply D4.
Qed.
Lemma upd_fblk i : fblk V' r i = fblk V r i.
Proof.
  assert (Hi : ind r ≠ 0 → V' (ind r) = V (ind r)).
  { intros Hi. apply upd_block. intros E. by apply (fo_sep _ _ _ Hf bn Hbn). }
  set (W := V') in *. unfold fblk. destruct (i <? 12); [done|]. destruct (Z.eqb_spec (ind r) 0); [done|].
  by rewrite Hi.
Qed.
Lemma upd_fsgeo : fsgeo V' start.
Proof.
  pose proof Hg as [G1 G2 G3 G4 G5]. split; rewrite ?upd_sbsize; try done.
  - unfold ninodes. by rewrite upd_sb.
  - intros c Hc. rewrite upd_bm. by apply G4.
  - intros c Hc Hu c' Hc'. rewrite upd_bm. rewrite upd_used in Hu by done. by apply G5.
Qed.
Lemma upd_file : file_ok V' start r.
Proof.
  destruct Hf as [F1 F2 F3 F4 F5 F6 F7]. split; try done.
  - intros i Hi. rewrite upd_fblk. intros. by apply upd_isdata, F3.
  - intros. by apply upd_isdata, F4.
  - intros i j Hi Hj. rewrite !upd_fblk. by apply F5.
  - intros i Hi. rewrite upd_fblk. by apply F6.
  - intros i Hi. rewrite upd_fblk. by apply F7.
Qed.
Lemma upd_free k : has_free V start k → has_free V' start k.
Proof.
  intros (F & HF & H). exists F. split; [done|]. intros c Hc. destruct (H c Hc) as (H1 & H2 & H3).
  rewrite upd_sbsize. by rewrite upd_used.
Qed.
End update.

(** The bytes [data] were written at [off]: nothing but these bytes, the map, and
    the bitmap blocks in [BM] changed. *)
Record wrote (BM : gset Z) (start : Z) (V : Z → list Z) (r : inode) (V' : Z → list Z) (r' : inode)
    (off : Z) (data : list Z) : Prop := {
  wr_geo : fsgeo V' start;
  wr_file : file_ok V' start r';
  wr_sb : V' 1 = V 1;
  wr_mono : ∀ b, isdata V start b → isdata V' start b;
  wr_ino : r' = set_i_addrs (i_addrs r') r;
  wr_ind : ind r ≠ 0 → ind r' = ind r;
  wr_blk : ∀ bn, 0 ≤ bn < 140 → fblk V r bn ≠ 0 → fblk V' r' bn = fblk V r bn;
  wr_in : ∀ i, off ≤ i < off + zlen data →
    fblk V' r' (i / 512) ≠ 0 ∧ znth data (i - off) = Some (fbyte V' r' i);
  wr_out : ∀ i, 0 ≤ i < 140 * 512 → i < off ∨ off + zlen data ≤ i → fblk V r (i / 512) ≠ 0 →
    fbyte V' r' i = fbyte V r i;
  wr_frame : ∀ n, n ∉ BM → n ≠ 0 → n ≠ ind r' → (∀ bn, 0 ≤ bn < 140 → n ≠ fblk V' r' bn) → V' n = V n;
  wr_keep : (∀ i, off ≤ i < off + zlen data → fblk V r (i / 512) ≠ 0) → r' = r;
}.

Lemma div_range i : 0 ≤ i < 140 * 512 → 0 ≤ i / 512 < 140.
Proof. intros. split; [apply Z.div_pos; lia|apply Z.div_lt_upper_bound; lia]. Qed.

Lemma wrote_nil BM start V r off : fsgeo V start → file_ok V start r → wrote BM start V r V r off [].
Proof.
  intros Hg Hf. split; try done; [by destruct r|]. intros i Hi. unfold zlen in Hi. simpl in Hi. lia.
Qed.
Lemma znth_app_l {A} (l l' : list A) i : 0 ≤ i < zlen l → znth (l ++ l') i = znth l i.
Proof. unfold znth, zlen. intros. destruct (0 <=? i); [|done]. apply lookup_app_l. lia. Qed.
Lemma znth_app_r {A} (l l' : list A) i : zlen l ≤ i → znth (l ++ l') i = znth l' (i - zlen l).
Proof.
  unfold znth, zlen. intros. destruct (Z.leb_spec 0 i); [|lia]. destruct (Z.leb_spec 0 (i - Z.of_nat (length l))); [|lia].
  rewrite lookup_app_r by lia. f_equal. lia.
Qed.
Lemma wrote_app BM start V r V1 r1 V2 r2 off d1 d2 : 0 ≤ off → off + zlen d1 + zlen d2 ≤ 140 * 512 →
  wrote BM start V r V1 r1 off d1 → wrote BM start V1 r1 V2 r2 (off + zlen d1) d2 →
  wrote BM start V r V2 r2 off (d1 ++ d2).
Proof.
  intros Hoff Hmax [A1 A2 A3 A4 A5 A6 A7 A8 A9 A10 A11] [B1 B2 B3 B4 B5 B6 B7 B8 B9 B10 B11].
  assert (Hz : zlen (d1 ++ d2) = zlen d1 + zlen d2) by (unfold zlen; rewrite length_app; lia).
  assert (0 ≤ zlen d1 ∧ 0 ≤ zlen d2) as [] by (unfold zlen; lia).
  split; rewrite ?Hz.
  - done.
  - done.
  - by rewrite B3.
  - intros c Hc. by apply B4, A4.
  - by rewrite B5, A5.
  - intros Hi. rewrite B6, A6; [done|done|]. by rewrite A6.
  - intros bn Hbn Hne. rewrite B7, A7; [done|done|done|done|]. by rewrite A7.
  - intros i Hi. destruct (Z.lt_ge_cases i (off + zlen d1)).
    + destruct (A8 i ltac:(lia)) as [P1 P2]. pose proof (div_range i ltac:(lia)).
      rewrite B7, B9 by (done || lia). split; [done|]. by rewrite znth_app_l by lia.
    + destruct (B8 i ltac:(lia)) as [P1 P2]. split; [done|]. rewrite znth_app_r by lia. rewrite <- P2. f_equal. lia.
  - intros i Hr Hi Hne. pose proof (div_range i Hr). rewrite B9, A9; [done|done|lia|done|done|lia|]. by rewrite A7.
  - intros n H1 Hn0 H2 H3. rewrite B10, A10; [done|done|done| | |done|done|done|done].
    + intros ->. destruct (decide (ind r1 = 0)) as [E|E]; [congruence|]. by rewrite B6 in H2.
    + intros bn Hbn ->. apply (H3 bn Hbn). by rewrite B7.
  - intros Hall. rewrite B11, A11; [done| |].
    + intros i Hi. apply Hall. lia.
    + intros i Hi. rewrite A7; [|apply div_range; lia|]; apply Hall; lia.
Qed.

(** One round of the loop. *)
Lemma wrote_step BM start V r V1 r1 off data (bn := off / 512) (b := fblk V1 r1 bn) :
  file_ok V start r → grow BM start V r V1 r1 → (fblk V r bn ≠ 0 → r1 = r) → b ≠ 0 → 0 ≤ off → off + zlen data ≤ 140 * 512 → 0 < zlen data →
  off mod 512 + zlen data ≤ 512 → length (V1 b) = 512%nat →
  wrote BM start V r (vupd V1 b (splice (Z.to_nat (off mod 512)) data (V1 b))) r1 off data.
Proof.
  intros Hf G Hk Hne Hoff Hmax Hpos Hfit Hlen. pose proof G as [A1 A2 A3 A4 A5 A6 A7 A8 A9 A10 A11].
  pose proof (Z.mod_pos_bound off 512 ltac:(lia)) as Hmod. pose proof (Z.div_mod off 512 ltac:(lia)) as Hdm. fold bn in Hdm.
  assert (Hbn : 0 ≤ bn < 140) by (apply div_range; lia).
  set (new := splice (Z.to_nat (off mod 512)) data (V1 b)). set (V2 := vupd V1 b new).
  assert (Hoth : ∀ n, n ≠ b → V2 n = V1 n) by (intros n Hn; by apply (upd_block V1 r1 bn new)).
  assert (Hfb : ∀ i, fblk V2 r1 i = fblk V1 r1 i) by (intros i; by eapply upd_fblk).
  assert (Hin : ∀ i, 0 ≤ i → i / 512 = bn → i mod 512 = i - bn * 512) by (intros i Hi E; pose proof (Z.div_mod i 512); lia).
  assert (Hby : ∀ i, 0 ≤ i < 140 * 512 → fblk V1 r1 (i / 512) ≠ 0 → i / 512 ≠ bn → fbyte V2 r1 i = fbyte V1 r1 i).
  { intros i Hi Hn Hd. unfold fbyte. rewrite Hfb, Hoth; [done|].
    intros E. apply Hd. apply (fo_inj _ _ _ A2 _ _ (div_range i Hi) Hbn Hn E). }
  assert (Hnew : ∀ i, 0 ≤ i → i / 512 = bn → fbyte V2 r1 i = default 0 (new !! Z.to_nat (i - bn * 512))).
  { intros i Hi E. unfold fbyte. rewrite Hfb, E. fold b. unfold V2, vupd. rewrite Z.eqb_refl, (Hin i Hi E).
    unfold znth. destruct (Z.leb_spec 0 (i - bn * 512)); [done|].
    pose proof (Z.mod_pos_bound i 512 ltac:(lia)). pose proof (Hin i Hi E). lia. }
  assert (Hz : zlen data = Z.of_nat (length data)) by done.
  split.
  - by eapply upd_fsgeo.
  - by eapply upd_file.
  - rewrite <- A3. by eapply upd_sb.
  - intros c Hc. eapply upd_isdata; [done|done|done|done|]. by apply A4.
  - done.
  - done.
  - intros i Hi Hn. rewrite Hfb. by apply A8.
  - intros i Hi. assert (E : i / 512 = bn).
    { symmetry. apply (Z.div_unique_pos i 512 bn (i - bn * 512)); lia. }
    split; [by rewrite Hfb, E|]. rewrite Hnew by (done || lia).
    unfold new. replace (Z.to_nat (i - bn * 512)) with (Z.to_nat (off mod 512) + Z.to_nat (i - off))%nat by lia.
    rewrite lookup_splice_in by lia. unfold znth. destruct (Z.leb_spec 0 (i - off)); [|lia].
    destruct (lookup_lt_is_Some_2 data (Z.to_nat (i - off))) as [c ->]; [lia|done].
  - intros i Hi Hio Hn. pose proof (div_range i Hi) as Hd. pose proof (A8 _ Hd Hn) as Hb1.
    assert (HV : fbyte V1 r1 i = fbyte V r i).
    { unfold fbyte. rewrite Hb1, A9; [done|by apply Hf|]. destruct (decide (ind r = 0)) as [->|E]; [done|].
      by apply (fo_sep _ _ _ Hf). }
    rewrite <- HV. destruct (decide (i / 512 = bn)) as [E|E]; [|apply Hby; [done|by rewrite Hb1|done]].
    rewrite Hnew by (done || lia). unfold new. pose proof (Hin i ltac:(lia) E) as Hm. pose proof (Z.mod_pos_bound i 512 ltac:(lia)).
    rewrite lookup_splice_out by lia. unfold fbyte. rewrite E, Hm. fold b. unfold znth.
    by destruct (Z.leb_spec 0 (i - bn * 512)); [|lia].
  - intros n H1 H2 H3 H4. rewrite Hoth.
    + apply A11; [done|done|done|]. intros k Hkr. rewrite <- Hfb. by apply H4.
    + intros ->. apply (H4 bn Hbn). by rewrite Hfb.
  - intros Hall. apply Hk. apply (Hall off). lia.
Qed.
End content.
