(* ===== verification/Writei.v ===== *)
(** [readi] and [writei] of [fs.c] as operations on the bytes of a file. *)

From S2P Require Import Prelude Spin Sched Mem Str Dll Bio Log Tx Fs Inode Balloc Dinode Content.

Section loop.
Context {WF : WaitFuel}.

Lemma cost_step BM start V r V' r' L L' b : grow BM start V r V' r' → L' ⊆ L ∪ BM ∪ indset r' ∪ {[b]} →
  (log_cost BM ({[b]} ∪ L') r' ≤ log_cost BM L r + 1)%nat.
Proof.
  intros G HL. unfold log_cost. pose proof (gr_ind _ _ _ _ _ _ G) as Hi.
  assert (Hsub : {[b]} ∪ L' ∪ BM ∪ indset r' ⊆ {[b]} ∪ (L ∪ BM ∪ indset r')) by set_solver.
  apply subseteq_size in Hsub. pose proof (size_add b (L ∪ BM ∪ indset r')) as Hb.
  unfold indset in *. destruct (Z.eqb_spec (ind r) 0) as [E|E].
  - destruct (Z.eqb_spec (ind r') 0).
    + lia.
    + pose proof (size_add (ind r') (L ∪ BM)).
      replace (L ∪ BM ∪ {[ind r']}) with ({[ind r']} ∪ (L ∪ BM)) in * by set_solver.
      rewrite union_empty_r_L. lia.
  - rewrite (Hi E) in *. destruct (Z.eqb_spec (ind r) 0); [done|]. lia.
Qed.
Lemma cost_log BM L r : (size L ≤ log_cost BM L r)%nat.
Proof.
  unfold log_cost. pose proof (subseteq_size L (L ∪ BM ∪ indset r) ltac:(set_solver)). lia.
Qed.

Lemma slice_app {A} (l : list A) o m n : slice o (m + n) l = slice o m l ++ slice (o + m) n l.
Proof. unfold slice. by rewrite <- drop_drop, take_take_drop. Qed.
Lemma length_slice {A} (l : list A) o n : (o + n ≤ length l)%nat → length (slice o n l) = n.
Proof. intros. unfold slice. rewrite length_take, length_drop. lia. Qed.

Lemma writei_loop_ok BM ip src n : n ≤ zlen src → ∀ K fuel s V L r off tot, (K ≤ fuel)%nat →
  ftx s V ∅ L ∅ → znth (fs_inode s) ip = Some r → i_dev r = 1 →
  fsgeo V (lg_start (fs_log s)) → file_ok V (lg_start (fs_log s)) r →
  (∀ b, 0 ≤ b < sbsize V → bmblock V b ∈ BM) → 10 ≤ lg_size (fs_log s) →
  0 ≤ off → 0 ≤ tot ≤ n → off + (n - tot) ≤ 140 * 512 →
  tot = n ∨ off mod 512 + (n - tot) ≤ 512 * Z.of_nat K →
  has_free V (lg_start (fs_log s)) (2 * K) → (log_cost BM L r + K + 2 < 10)%nat →
  ∃ s' V' L' r', writei_loop fuel ip src off n tot s = Ok (off + (n - tot)) s' ∧ ftx s' V' ∅ L' ∅ ∧
    fsteps s s' ∧ fs_inode s' = zupd ip r' (fs_inode s) ∧
    wrote BM (lg_start (fs_log s)) V r V' r' off (slice (Z.to_nat tot) (Z.to_nat (n - tot)) src) ∧
    (log_cost BM L' r' + 2 < 10)%nat ∧ (1 ∉ L ∪ BM → 1 ∉ L').
Proof.
  intros Hsrc. induction K as [|K IH]; intros fuel s V L r off tot HK T Hr Hd Hg Hf Hbm Hlg Ho Ht Hmax Hfu Hfr Hcost.
  - pose proof (Z.mod_pos_bound off 512 ltac:(lia)). assert (tot = n) as -> by lia.
    exists s, V, L, r. replace (n - n) with 0 by lia. rewrite Z.add_0_r.
    split; [by destruct fuel; cbn [writei_loop]; destruct (Z.ltb_spec n n); (lia || done)|].
    do 2 (split; [done|]). split; [by rewrite zupd_same|]. split; [by apply wrote_nil|]. split; [lia|set_solver].
  - destruct fuel as [|fuel]; [lia|]. cbn [writei_loop]. destruct (Z.ltb_spec tot n) as [Hlt|Hge].
    2: { assert (tot = n) as -> by lia. exists s, V, L, r. replace (n - n) with 0 by lia. rewrite Z.add_0_r.
         do 3 (split; [done|]). split; [by rewrite zupd_same|]. split; [by apply wrote_nil|]. split; [lia|set_solver]. }
    pose proof (Z.mod_pos_bound off 512 ltac:(lia)) as Hmod.
    destruct Hfu as [?|Hfu]; [lia|]. destruct (io_step off (n - tot) K Ho ltac:(lia) Hfu) as (Hm & Hmb & Hfu').
    change BSIZE with 512. set (m := Z.min (n - tot) (512 - off mod 512)) in *. set (bn := off / 512).
    assert (Hbn : 0 ≤ bn < 140) by (apply div_range; lia).
    destruct (bmap_ok BM s V L ip r (2 * K) bn T Hr Hd Hg Hf Hbm Hlg Hbn) as (s1 & V1 & L1 & r1 & R1 & T1 & S1 & E1 & G1 & Hne & Hfr1 & HL1 & Hk1);
      [by replace (S (S (2 * K))) with (2 * S K)%nat by lia|lia|].
    pose proof (sp_start _ _ (proj1 S1)) as Es1. pose proof (sp_size _ _ (proj1 S1)) as Ez1.
    pose proof (gr_geo _ _ _ _ _ _ G1) as Hg1. pose proof (gr_file _ _ _ _ _ _ G1) as Hf1.
    pose proof (isdata_pos _ _ _ Hg1 (fo_blk _ _ _ Hf1 bn Hbn Hne)) as [Hpos _]. set (b := fblk V1 r1 bn) in *.
    assert (Hr1 : znth (fs_inode s1) ip = Some r1) by (rewrite E1; by apply znth_zupd, (znth_Some _ _ _ Hr)).
    pose proof (cost_step _ _ _ _ _ _ _ _ _ G1 HL1) as Hc1. pose proof (cost_log BM ({[b]} ∪ L1) r1) as Hc2.
    pose proof (subseteq_size L1 ({[b]} ∪ L1) ltac:(set_solver)) as Hc3.
    pose proof (tx_block _ _ _ _ _ b (proj1 T1) ltac:(lia)) as H512.
    set (piece := slice (Z.to_nat tot) (Z.to_nat m) src).
    assert (Hpl : length piece = Z.to_nat m) by (apply length_slice; unfold zlen in Hsrc; lia).
    destruct (tx_modify (fs_log s1) V1 ∅ L1 ∅ b (splice (Z.to_nat (off mod 512)) piece) (proj1 T1) ltac:(lia) ltac:(set_solver))
      as (bp & t1 & t2 & t3 & t4 & Q1 & H1 & D1 & U1 & Q2 & Q3 & Q4 & U4 & St4 & K4).
    { rewrite length_splice; [done|]. rewrite Hpl, H512. lia. } { rewrite union_empty_r_L. lia. } { rewrite Ez1. lia. }
    set (V2 := vupd V1 b _) in U4. set (s2 := set_fs_log t4 s1).
    assert (W : wrote BM (lg_start (fs_log s)) V r V2 r1 off piece).
    { apply wrote_step; try done; unfold zlen; rewrite ?Hpl; lia. }
    assert (S2 : fsteps s s2) by (etrans; [exact S1|]; done).
    assert (T2 : ftx s2 V2 ∅ ({[b]} ∪ L1) ∅) by (by eapply ftx_log).
    pose proof (sp_start _ _ (proj1 S2)) as Es2. pose proof (sp_size _ _ (proj1 S2)) as Ez2.
    destruct (IH fuel s2 V2 ({[b]} ∪ L1) r1 (off + m) (tot + m)) as (s' & V' & L' & r' & R & T' & S' & E' & W' & C' & H1');
      rewrite ?Es2, ?Ez2; try done; try lia.
    { rewrite (gr_ino _ _ _ _ _ _ G1). done. } { apply W. } { apply W. }
    { intros c Hc. pose proof (wr_sb _ _ _ _ _ _ _ _ W) as Hsb. unfold bmblock, ninodes, sbsize in *. rewrite Hsb in *. by apply Hbm. }
    { by eapply upd_free. }
    exists s', V', L', r'. split; [|split; [done|split; [by etrans|split; [|split; [|split; [done|]]]]]].
    + rewrite (bind_ok _ _ _ _ _ (get_inode_ok _ _ _ Hr)), (bind_ok _ _ _ _ _ R1), Hd.
      rewrite (bind_ok _ _ _ _ _ (zoom_fsbio _ s1 _ _ Q1)).
      destruct (Z.ltb_spec (zlen src) (tot + m)); [lia|].
      rewrite (bind_ok _ _ _ _ _ (zoom_fsbio _ (set_fs_log t1 s1) _ _ Q2)).
      rewrite (bind_ok _ _ _ _ _ (zoom_fslog _ (set_fs_log t2 (set_fs_log t1 s1)) _ _ Q3)).
      rewrite (bind_ok _ _ _ _ _ (zoom_fsbio _ (set_fs_log t3 (set_fs_log t2 (set_fs_log t1 s1))) _ _ Q4)).
      rewrite u32_small by lia. change (set_fs_log t4 _) with s2. rewrite R. f_equal. lia.
    + rewrite E'. unfold s2. simpl. rewrite E1. apply zupd_zupd.
    + replace (Z.to_nat (n - tot)) with (Z.to_nat m + Z.to_nat (n - (tot + m)))%nat by lia.
      rewrite slice_app. replace (Z.to_nat tot + Z.to_nat m)%nat with (Z.to_nat (tot + m)) by lia. fold piece.
      assert (Hzp : zlen piece = m) by (unfold zlen; lia). rewrite Es2 in W'.
      eapply wrote_app; [done| |exact W|by rewrite Hzp].
      rewrite Hzp. unfold zlen. rewrite length_slice by (unfold zlen in Hsrc; lia). lia.
    + intros H1nL. apply H1'.
      assert (ind r1 ≠ 0 → ind r1 ≠ 1) by (intros Hi; pose proof (isdata_pos _ _ _ Hg1 (fo_ind _ _ _ Hf1 Hi)); lia).
      assert (1 ∉ indset r1) by (unfold indset; destruct (Z.eqb_spec (ind r1) 0); set_solver).
      assert (1 ≠ b) by lia. set_solver.
Qed.
End loop.

(** The inode blocks come before the bitmap. *)
Definition ino_below (V : Z → list Z) (inum : Z) : Prop :=
  0 ≤ inum ∧ 0 < sbsize V ∧ ∀ b, 0 ≤ b < sbsize V → iblock inum < bmblock V b.

(** Storing the inode changes nothing the files or the bitmap are made of. *)
Section inode_store.
Context (V : Z → list Z) (start : Z) (r : inode) (Hg : fsgeo V start) (Hb : ino_below V (i_inum r)).
Abbreviation ib := (iblock (i_inum r)).
Abbreviation V' := (iupdated V r).

Lemma store_ib : 1 < ib.
Proof. destruct Hb as (Hi & _). unfold iblock. pose proof (Z.div_pos (i_inum r) 8 Hi). lia. Qed.
Lemma store_other n : n ≠ ib → V' n = V n.
Proof. intros Hn. unfold iupdated, vupd. by destruct (Z.eqb_spec n ib). Qed.
Lemma store_sb : V' 1 = V 1.
Proof. pose proof store_ib. apply store_other. lia. Qed.
Lemma store_sbsize : sbsize V' = sbsize V.
Proof. unfold sbsize. by rewrite store_sb. Qed.
Lemma store_bm b : bmblock V' b = bmblock V b.
Proof. unfold bmblock, ninodes. by rewrite store_sb. Qed.
Lemma store_used b : 0 ≤ b < sbsize V → used V' b = used V b.
Proof.
  intros H. unfold used. rewrite store_bm, store_other; [done|]. destruct Hb as (_ & _ & Hlt). specialize (Hlt b H). lia.
Qed.
Lemma store_fsgeo : fsgeo V' start.
Proof.
  pose proof Hg as [G1 G2 G3 G4 G5]. split; rewrite ?store_sbsize; try done.
  - unfold ninodes. by rewrite store_sb.
  - intros c Hc. rewrite store_bm. by apply G4.
  - intros c Hc Hu c' Hc'. rewrite store_bm. rewrite store_used in Hu by done. by apply G5.
Qed.
Lemma store_high b : isdata V start b → b ≠ ib.
Proof.
  intros [D1 _ _ D4] ->. destruct Hb as (_ & _ & Hlt). specialize (Hlt _ D1). specialize (D4 _ D1). lia.
Qed.
Lemma store_isdata b : isdata V start b → isdata V' start b.
Proof.
  intros [D1 D2 D3 D4]. split; rewrite ?store_sbsize; try done; [by rewrite store_used|].
  intros c' Hc. rewrite store_bm. by apply D4.
Qed.
Lemma store_fblk x bn : file_ok V start x → fblk V' x bn = fblk V x bn.
Proof.
  intros Hf. assert (Hi : ind x ≠ 0 → V' (ind x) = V (ind x)) by (intros; by apply store_other, store_high, Hf).
  set (W := V') in *. unfold fblk. destruct (bn <? 12); [done|]. destruct (Z.eqb_spec (ind x) 0); [done|]. by rewrite Hi.
Qed.
Lemma store_fbyte x i : file_ok V start x → 0 ≤ i < 140 * 512 → fblk V x (i / 512) ≠ 0 → fbyte V' x i = fbyte V x i.
Proof.
  intros Hf Hi Hne. unfold fbyte. rewrite store_fblk by done. rewrite store_other; [done|].
  by apply store_high, Hf; [apply div_range|].
Qed.
Lemma store_file x : file_ok V start x → file_ok V' start x.
Proof.
  intros Hf. pose proof Hf as [F1 F2 F3 F4 F5 F6 F7]. split; try done.
  - intros i Hi. rewrite store_fblk by done. intros. by apply store_isdata, F3.
  - intros. by apply store_isdata, F4.
  - intros i j Hi Hj. rewrite !store_fblk by done. by apply F5.
  - intros i Hi. rewrite store_fblk by done. by apply F6.
  - intros i Hi. rewrite store_fblk by done. by apply F7.
Qed.
End inode_store.

(** The size of a file whose blocks up to the new size are mapped. *)
Lemma file_resize V start r size : file_ok V start r → 0 ≤ size ≤ 140 * 512 →
  (∀ bn, 0 ≤ bn → bn * 512 < size → fblk V r bn ≠ 0) → file_ok V start (set_i_size size r).
Proof. intros [F1 F2 F3 F4 F5 F6 F7] Hs Hfull. by split. Qed.

(** * Files opened in a transaction *)

(** Entry [ip] of the inode cache holds the file [r] of the file system [V]. *)
Record opened (f : fsst) (V : Z → list Z) (L : gset Z) (ip : Z) (r : inode) : Prop := {
  op_tx : ftx f V ∅ L ∅;
  op_ino : znth (fs_inode f) ip = Some r;
  op_dev : i_dev r = 1;
  op_type : i_type r ≠ T_DEV;
  op_fields : inode_fields r;
  op_geo : fsgeo V (lg_start (fs_log f));
  op_file : file_ok V (lg_start (fs_log f)) r;
  op_below : ino_below V (i_inum r);
  op_log : 10 ≤ lg_size (fs_log f);
}.
(** A set with the blocks of the bitmap, and not the inode's block or the
    superblock. *)
Definition bitmap_set (V : Z → list Z) (inum : Z) (BM : gset Z) : Prop :=
  (∀ b, 0 ≤ b < sbsize V → bmblock V b ∈ BM) ∧ (iblock inum ∉ BM) ∧ 1 ∉ BM.

(** What a write of [data] at [off] leaves. *)
Record written (BM : gset Z) (f0 : fsst) (V : Z → list Z) (L : gset Z) (ip : Z) (r : inode) (off : Z) (data : list Z)
    (f : fsst) (V' : Z → list Z) (L' : gset Z) (r' : inode) : Prop := {
  wn_open : opened f V' L' ip r';
  wn_steps : fsteps f0 f;
  wn_inodes : fs_inode f = zupd ip r' (fs_inode f0);
  wn_sb : V' 1 = V 1;
  wn_ino : r' = set_i_size (Z.max (i_size r) (off + zlen data)) (set_i_addrs (i_addrs r') r);
  wn_bytes : ∀ i, 0 ≤ i < i_size r' → Some (fbyte V' r' i) =
    if decide (off ≤ i < off + zlen data) then znth data (i - off) else Some (fbyte V r i);
  wn_frame : ∀ b, b ∉ BM → b ≠ 0 → b ≠ iblock (i_inum r) → b ≠ ind r' →
    (∀ bn, 0 ≤ bn < 140 → b ≠ fblk V' r' bn) → V' b = V b;
  wn_disk : ∀ x, same_inode r (dinode_of V (i_inum r) x) → same_inode r' (dinode_of V' (i_inum r) x);
  wn_log : (size L' < 10)%nat ∧ (1 ∉ L → 1 ∉ L');
}.

Lemma file_fields V start r r' : fsgeo V start → file_ok V start r' → inode_fields r → 0 ≤ i_size r' < 2 ^ 32 →
  r' = set_i_size (i_size r') (set_i_addrs (i_addrs r') r) → inode_fields r'.
Proof.
  intros Hg Hf Hif Hs E. destruct Hif. rewrite E. split; simpl; try done; [by rewrite (fo_len _ _ _ Hf)|].
  intros i a Ha. pose proof (znth_Some _ _ _ Ha) as Hir. unfold zlen in Hir. rewrite (fo_len _ _ _ Hf) in Hir.
  destruct (decide (a = 0)) as [->|Ha0]; [lia|].
  assert (Hba : baddr r' i = a) by (unfold baddr; by rewrite Ha).
  assert (isdata V start a) as [? _ _ _]; [|pose proof (g_size _ _ Hg); lia].
  rewrite <- Hba in *. destruct (decide (i = 12)) as [->|]; [by apply (fo_ind _ _ _ Hf)|].
  assert (Hfb : fblk V r' i = baddr r' i) by (unfold fblk; destruct (Z.ltb_spec i 12); [done|lia]).
  rewrite <- Hfb in *. apply (fo_blk _ _ _ Hf); [lia|done].
Qed.
Lemma full_byte V start r i : file_ok V start r → 0 ≤ i < i_size r → fblk V r (i / 512) ≠ 0.
Proof.
  intros Hf Hi. apply (fo_full _ _ _ Hf); [apply Z.div_pos; lia|].
  pose proof (Z.div_mod i 512). pose proof (Z.mod_pos_bound i 512). lia.
Qed.

Section tail.
Context {WF : WaitFuel}.
Context (BM : gset Z) (f : fsst) (V : Z → list Z) (L : gset Z) (ip : Z) (r : inode) (off : Z) (data : list Z).
Context (Hop : opened f V L ip r) (HBM : bitmap_set V (i_inum r) BM).
Context (Hoff : 0 ≤ off ≤ i_size r) (Hmax : off + zlen data ≤ 140 * 512).
(** What the loop leaves. *)
Context (f1 : fsst) (V1 : Z → list Z) (L1 : gset Z) (r1 : inode).
Context (T1 : ftx f1 V1 ∅ L1 ∅) (S1 : fsteps f f1) (E1 : fs_inode f1 = zupd ip r1 (fs_inode f)).
Context (W : wrote BM (lg_start (fs_log f)) V r V1 r1 off data).
Context (C1 : (log_cost BM L1 r1 + 2 < 10)%nat) (N1 : 1 ∉ L ∪ BM → 1 ∉ L1).
Abbreviation start := (lg_start (fs_log f)).

Lemma tail_start : lg_start (fs_log f1) = start ∧ lg_size (fs_log f1) = lg_size (fs_log f).
Proof. split; [apply (sp_start _ _ (proj1 S1))|apply (sp_size _ _ (proj1 S1))]. Qed.
Lemma tail_entry : znth (fs_inode f1) ip = Some r1.
Proof. rewrite E1. by apply znth_zupd, (znth_Some _ _ _ (op_ino _ _ _ _ _ Hop)). Qed.
Lemma tail_below : ino_below V1 (i_inum r1).
Proof.
  pose proof (op_below _ _ _ _ _ Hop). pose proof (wr_sb _ _ _ _ _ _ _ _ W) as Hsb.
  rewrite (wr_ino _ _ _ _ _ _ _ _ W). unfold ino_below, sbsize, bmblock, ninodes in *. by rewrite Hsb.
Qed.
Lemma tail_size : (size L1 < 8)%nat.
Proof. pose proof (cost_log BM L1 r1). lia. Qed.

(** The write stayed inside the file: the inode is as it was. *)
Lemma tail_keep : zlen data = 0 ∨ off + zlen data ≤ i_size r → written BM f V L ip r off data f1 V1 L1 r1.
Proof.
  intros Hle'. assert (Hle : off + zlen data ≤ i_size r) by lia.
  pose proof Hop as [P1 P2 P3 P4 P5 P6 P7 P8 P9]. pose proof W as [A1 A2 A3 A4 A5 A6 A7 A8 A9 A10 A11].
  pose proof tail_below as Hb1. pose proof tail_entry as He. destruct tail_start as [Es1 Ez1]. pose proof tail_size.
  assert (Hk : r1 = r) by (apply A11; intros i Hi; eapply full_byte; [done|lia]).
  destruct HBM as (Hbm & HibM & H1M).
  rewrite Hk in *. split; try done.
  - split; rewrite ?Es1, ?Ez1; try done.
  - rewrite Z.max_l by lia. by destruct r.
  - intros i Hi. pose proof (fo_size _ _ _ P7). case_decide; [by destruct (A8 i ltac:(lia)) as [_ <-]|].
    f_equal. apply A9; [lia|lia|by eapply full_byte].
  - intros b B1 B2 _ B4 B5. by apply A10.
  - intros x Hx. unfold dinode_of in *. pose proof (store_ib V1 r Hb1). rewrite A10; [done|done|lia| |].
    + destruct (decide (ind r = 0)) as [->|E]; [lia|]. intros Ei. symmetry in Ei. revert Ei.
      by apply (store_high V1 start r Hb1), A2.
    + intros bn Hbn. destruct (decide (fblk V1 r bn = 0)) as [->|E]; [lia|]. intros Ei. symmetry in Ei. revert Ei.
      by apply (store_high V1 start r Hb1), A2.
  - split; [lia|set_solver].
Qed.

(** The file grew: the new size goes to the inode and the inode to the disk. *)
Lemma tail_grow : 0 < zlen data → i_size r < off + zlen data → ∃ f' V' L' r',
  (upd_inode ip (set_i_size (off + zlen data)) ;; iupdate ip) f1 = Ok tt f' ∧
  written BM f V L ip r off data f' V' L' r'.
Proof.
  intros Hn0 Hgr. pose proof Hop as [P1 P2 P3 P4 P5 P6 P7 P8 P9].
  pose proof W as [A1 A2 A3 A4 A5 A6 A7 A8 A9 A10 A11].
  pose proof tail_below as Hb1. pose proof tail_entry as He. destruct tail_start as [Es1 Ez1]. pose proof tail_size as Hsz1.
  destruct HBM as (Hbm & HibM & H1M). set (n := zlen data) in *.
  set (r2 := set_i_size (off + n) r1). set (f2 := set_fs_inode (zupd ip r2 (fs_inode f1)) f1).
  assert (Hin1 : i_inum r1 = i_inum r) by (by rewrite A5).
  assert (Hfull : ∀ bn, 0 ≤ bn → bn * 512 < off + n → fblk V1 r1 bn ≠ 0).
  { intros bn Hbn Hlt. destruct (Z.lt_ge_cases (bn * 512) (i_size r)).
    - rewrite A7; [by apply (fo_full _ _ _ P7)|lia|by apply (fo_full _ _ _ P7)].
    - destruct (A8 (bn * 512) ltac:(lia)) as [Hz _]. by rewrite Z.div_mul in Hz by lia. }
  assert (Hf2 : file_ok V1 start r2) by (apply file_resize; [done|lia|done]).
  assert (Hr2 : r2 = set_i_size (i_size r2) (set_i_addrs (i_addrs r2) r)) by (unfold r2; rewrite A5; done).
  assert (Hif2 : inode_fields r2) by (eapply file_fields; [exact A1|exact Hf2|exact P5|simpl; lia|exact Hr2]).
  assert (He2 : znth (fs_inode f2) ip = Some r2) by (by apply znth_zupd, (znth_Some _ _ _ He)).
  assert (Hibs : 1 < iblock (i_inum r2) < start).
  { split; [by apply (store_ib V1 r2 Hb1)|]. change (i_inum r2) with (i_inum r1). destruct Hb1 as (_ & Hsb & Hlt).
    specialize (Hlt 0 ltac:(lia)). pose proof (g_bm _ _ A1 0 ltac:(lia)). lia. }
  pose proof (size_add (iblock (i_inum r2)) L1) as Hsa.
  destruct (iupdate_ok f2 V1 ∅ L1 ∅ ip r2) as (t & R2 & T2 & S2);
    try change (lg_start (fs_log f2)) with (lg_start (fs_log f1));
    try change (lg_size (fs_log f2)) with (lg_size (fs_log f1)); rewrite ?Es1, ?Ez1; try done; try lia.
  { change (i_dev r2) with (i_dev r1). by rewrite A5. } { apply Hb1. } { apply A1. } { rewrite union_empty_r_L. lia. }
  pose proof (store_fsgeo V1 start r2 A1 Hb1) as G2. pose proof (store_file V1 start r2 Hb1 r2 Hf2) as F2.
  assert (Hfb2 : ∀ bn, fblk V1 r2 bn = fblk V1 r1 bn) by done.
  exists (set_fs_log t f2), (iupdated V1 r2), ({[iblock (i_inum r2)]} ∪ L1), r2. split.
  { by rewrite (bind_ok _ _ _ _ _ (upd_inode_ok f1 ip r1 _ He)). }
  assert (Hst : steps (fs_log f) t) by (etrans; [apply S1|apply S2]).
  split.
  - split; try done.
    + change (i_dev r2) with (i_dev r1). by rewrite A5.
    + change (i_type r2) with (i_type r1). by rewrite A5.
    + simpl. by rewrite (sp_start _ _ Hst).
    + simpl. by rewrite (sp_start _ _ Hst).
    + change (i_inum r2) with (i_inum r1). pose proof (store_sb V1 r2 Hb1) as Hsb.
      unfold ino_below, sbsize, bmblock, ninodes in *. by rewrite Hsb.
    + simpl. by rewrite (sp_size _ _ Hst).
  - by etrans.
  - unfold f2. simpl. rewrite E1. apply zupd_zupd.
  - by rewrite (store_sb V1 r2 Hb1).
  - rewrite Z.max_r by (unfold n in *; lia). exact Hr2.
  - intros i Hi. change (i_size r2) with (off + n) in Hi.
    rewrite (store_fbyte V1 start r2 Hb1 r2 i Hf2); [|lia|by eapply full_byte].
    change (fbyte V1 r2 i) with (fbyte V1 r1 i). case_decide.
    + by destruct (A8 i ltac:(lia)) as [_ <-].
    + f_equal. apply A9; [lia|lia|]. eapply full_byte; [done|lia].
  - intros b B1 B2 B3 B4 B5. rewrite store_other by (change (i_inum r2) with (i_inum r1); by rewrite Hin1).
    apply A10; try done. intros bn Hbn. rewrite <- Hfb2, <- (store_fblk V1 start r2 Hb1 r2 bn Hf2). by apply B5.
  - intros x _. rewrite <- Hin1. apply (dinode_of_same V1 r2 x Hif2).
    apply (tx_block _ _ _ _ _ _ (proj1 T1)). rewrite Es1. lia.
  - split; [lia|]. assert (iblock (i_inum r2) ≠ 1) by lia. set_solver.
Qed.
End tail.

(** Blocks a request of [n] bytes at [off] touches. *)
Definition nblocks (off n : Z) : nat := Z.to_nat ((off mod 512 + n + 511) / 512).
Lemma nblocks_ok off n : 0 ≤ n → off mod 512 + n ≤ 512 * Z.of_nat (nblocks off n).
Proof.
  intros Hn. unfold nblocks. pose proof (Z.mod_pos_bound off 512 ltac:(lia)).
  pose proof (Z.div_mod (off mod 512 + n + 511) 512 ltac:(lia)).
  pose proof (Z.mod_pos_bound (off mod 512 + n + 511) 512 ltac:(lia)).
  pose proof (Z.div_pos (off mod 512 + n + 511) 512). lia.
Qed.

Section specs.
Context {WF : WaitFuel} {S : Type} `{LF : Lens S fsst} {DS : Devsw S}.
Implicit Types s : S.

Lemma zoom_inode s ip r : znth (fs_inode (lget s)) ip = Some r → (zoom (get_inode ip) : M S inode) s = Ok r s.
Proof.
  intros Hr. rewrite (zoom_ok (get_inode ip) s r (lget s) (get_inode_ok _ _ _ Hr)). by rewrite lset_lget.
Qed.

Lemma readi_ok s V L ip r off n : opened (lget s) V L ip r → (size L < 10)%nat →
  0 ≤ off → 0 ≤ n → off ≤ i_size r → off + n < 2 ^ 32 →
  let m := Z.min n (i_size r - off) in
  ∃ f, readi ip off n s = Ok (m, fbytes V r off m) (lset f s) ∧ opened f V L ip r ∧ fsteps (lget s) f ∧
    fs_inode f = fs_inode (lget s).
Proof.
  intros Hop Hsz Ho Hn Hle Hov m. pose proof Hop as [T Hr Hd Hty Hif Hg Hf Hb Hlg]. pose proof (fo_size _ _ _ Hf) as Hfs.
  assert (Hn' : (if i_size r <? u32 (off + n) then u32 (i_size r - off) else n) = m).
  { rewrite (u32_small (off + n)) by lia. unfold m. destruct (Z.ltb_spec (i_size r) (off + n)); [|lia].
    rewrite u32_small by lia. lia. }
  assert (Hsz' : (size (∅ ∪ L : gset Z) < 10)%nat) by (by rewrite union_empty_l_L).
  destruct (readi_loop_ok V ∅ L ∅ ip r (lg_start (fs_log (lget s))) (io_fuel m) Hd Hg Hf Hsz' ltac:(set_solver)
    ltac:(set_solver) (lget s) off m 0 [] T) as (f & R & T' & S' & E'); try done; try lia.
  { right. rewrite Z.sub_0_r. apply io_fuel_ok. lia. }
  exists f. split; [|split; [|done]].
  - unfold readi. rewrite (bind_ok _ _ _ _ _ (zoom_inode s ip r Hr)). destruct (Z.eqb_spec (i_type r) T_DEV); [done|].
    replace ((i_size r <? off) || (u32 (off + n) <? off)) with false by (rewrite u32_small; lia).
    rewrite Hn'. rewrite (bind_ok _ _ _ _ _ (zoom_ok _ s _ _ R)). rewrite Z.sub_0_r, s32_small by lia. done.
  - pose proof (sp_start _ _ (proj1 S')) as Es. pose proof (sp_size _ _ (proj1 S')) as Ez.
    split; rewrite ?Es, ?Ez; try done. by rewrite E'.
Qed.

Lemma writei_ok s BM V L ip r data off : opened (lget s) V L ip r → bitmap_set V (i_inum r) BM →
  0 ≤ off ≤ i_size r → off + zlen data ≤ 140 * 512 →
  has_free V (lg_start (fs_log (lget s))) (2 * nblocks off (zlen data)) →
  (log_cost BM L r + nblocks off (zlen data) + 2 < 10)%nat →
  ∃ f V' L' r', writei ip data off (zlen data) s = Ok (zlen data) (lset f s) ∧
    written BM (lget s) V L ip r off data f V' L' r'.
Proof.
  intros Hop HBM Ho Hmax Hfr Hcost. pose proof Hop as [T Hr Hd Hty Hif Hg Hf Hb Hlg]. pose proof (fo_size _ _ _ Hf) as Hfs.
  set (n := zlen data) in *. assert (Hn : 0 ≤ n) by (unfold n, zlen; lia).
  pose proof (io_fuel_ok off n Hn) as Hfu. pose proof (nblocks_ok off n Hn) as HK. set (K := nblocks off n) in *.
  assert (Hmin : (K `min` io_fuel n = K ∨ K `min` io_fuel n = io_fuel n)%nat) by lia.
  destruct (writei_loop_ok BM ip data n ltac:(done) (K `min` io_fuel n)%nat (io_fuel n) (lget s) V L r off 0)
    as (f1 & V1 & L1 & r1 & R1 & T1 & S1 & E1 & W1 & C1 & N1); try done; try lia.
  { apply HBM. } { by eapply has_free_le; [|exact Hfr]; lia. }
  rewrite Z.sub_0_r in R1, W1.
  replace (slice (Z.to_nat 0) (Z.to_nat n) data) with data in W1
    by (unfold slice, n, zlen; rewrite drop_0, take_ge by lia; done).
  assert (Hpre : writei ip data off n s = (let* r := zoom (get_inode ip) in
    zoom (when ((0 <? n) && (i_size r <? off + n)) (upd_inode ip (set_i_size (off + n)) ;; iupdate ip)) ;;
    ret (s32 n)) (lset f1 s)).
  { unfold writei. rewrite (bind_ok _ _ _ _ _ (zoom_inode s ip r Hr)). destruct (Z.eqb_spec (i_type r) T_DEV); [done|].
    replace ((i_size r <? off) || (u32 (off + n) <? off)) with false by (rewrite u32_small; lia).
    change (MAXFILE * BSIZE) with (140 * 512).
    replace (140 * 512 <? u32 (off + n)) with false by (rewrite u32_small; lia).
    by rewrite (bind_ok _ _ _ _ _ (zoom_ok _ s _ _ R1)). }
  rewrite Hpre. clear Hpre. rewrite (bind_ok _ _ _ r1 (lset f1 s)).
  2: { apply zoom_inode. rewrite lget_lset, E1. by apply znth_zupd, (znth_Some _ _ _ Hr). }
  replace (i_size r1) with (i_size r) by (rewrite (wr_ino _ _ _ _ _ _ _ _ W1); done). rewrite s32_small by lia.
  destruct ((0 <? n) && (i_size r <? off + n)) eqn:Egrow.
  - apply andb_true_iff in Egrow as [Hn0%Z.ltb_lt Hgr%Z.ltb_lt].
    destruct (tail_grow BM (lget s) V L ip r off data Hop HBM Ho Hmax f1 V1 L1 r1 T1 S1 E1 W1 C1 N1 Hn0 Hgr)
      as (f & V' & L' & r' & R & Hw).
    exists f, V', L', r'. split; [|done]. rewrite (bind_ok _ _ _ tt (lset f s)); [done|].
    rewrite (zoom_ok _ (lset f1 s) tt f); [by rewrite lset_lset|]. by rewrite lget_lset, when_true.
  - exists f1, V1, L1, r1. split.
    + rewrite (bind_ok _ _ _ tt (lset f1 s)); [done|].
      rewrite (zoom_ok _ (lset f1 s) tt f1); [by rewrite lset_lset|]. by rewrite lget_lset.
    + apply tail_keep; try done. apply andb_false_iff in Egrow as [E%Z.ltb_ge|E%Z.ltb_ge]; fold n; lia.
Qed.
End specs.

(** * Theorems *)

Section theorems.
Context {WF : WaitFuel} {S : Type} `{LF : Lens S fsst} {DS : Devsw S}.
Implicit Types s : S.

(** [readi] returns the bytes of the file from [off] on, cut at the end of the
    file, and changes neither the file system nor the log; a request that starts
    beyond the end or wraps around is refused with -1 and has no effect. *)
Theorem readi_spec s V L ip r off n : opened (lget s) V L ip r → (size L < 10)%nat →
  0 ≤ off < 2 ^ 32 → 0 ≤ n < 2 ^ 32 →
  if decide (off ≤ i_size r ∧ off + n < 2 ^ 32) then
    ∃ f, readi ip off n s = Ok (Z.min n (i_size r - off), fbytes V r off (Z.min n (i_size r - off))) (lset f s) ∧
      opened f V L ip r ∧ fsteps (lget s) f ∧ fs_inode f = fs_inode (lget s)
  else readi ip off n s = Ok (-1, []) s.
Proof.
  intros Hop Hsz Ho Hn. case_decide as Hc; [apply readi_ok; (done || lia)|].
  unfold readi. rewrite (bind_ok _ _ _ _ _ (zoom_inode s ip r (op_ino _ _ _ _ _ Hop))).
  destruct (Z.eqb_spec (i_type r) T_DEV); [by destruct (op_type _ _ _ _ _ Hop)|].
  replace ((i_size r <? off) || (u32 (off + n) <? off)) with true; [done|]. symmetry. apply orb_true_iff.
  destruct (Z.lt_ge_cases (i_size r) off); [left; lia|right]. apply Z.ltb_lt. unfold u32.
  rewrite <- (Z_mod_plus_full _ (-1)), Z.mod_small; lia.
Qed.

(** C13: [writei] replaces the bytes of the file at [off] by the data and leaves the
    others, extending the file (and allocating blocks for it) as needed; every
    block that is not the file's, its inode's or a bitmap block is unchanged, the
    inode on the disk agrees with the one in memory if it did before, and until
    the commit only log sectors are written.  A write that starts beyond the end
    of the file or ends beyond the largest file is refused with -1. *)
Theorem writei_spec s BM V L ip r data off : opened (lget s) V L ip r → bitmap_set V (i_inum r) BM →
  0 ≤ off < 2 ^ 32 → off + zlen data < 2 ^ 32 →
  has_free V (lg_start (fs_log (lget s))) (2 * nblocks off (zlen data)) →
  (log_cost BM L r + nblocks off (zlen data) + 2 < 10)%nat →
  if decide (off ≤ i_size r ∧ off + zlen data ≤ MAXFILE * BSIZE) then
    ∃ f V' L' r', writei ip data off (zlen data) s = Ok (zlen data) (lset f s) ∧
      written BM (lget s) V L ip r off data f V' L' r'
  else writei ip data off (zlen data) s = Ok (-1) s.
Proof.
  intros Hop HBM Ho Hov Hfr Hcost. change (MAXFILE * BSIZE) with (140 * 512).
  assert (0 ≤ zlen data) by (unfold zlen; lia).
  case_decide as Hc; [apply writei_ok; (done || lia)|].
  unfold writei. rewrite (bind_ok _ _ _ _ _ (zoom_inode s ip r (op_ino _ _ _ _ _ Hop))).
  destruct (Z.eqb_spec (i_type r) T_DEV); [by destruct (op_type _ _ _ _ _ Hop)|].
  rewrite u32_small by lia. destruct (Z.ltb_spec (i_size r) off); [done|]. cbn [orb].
  destruct (Z.ltb_spec (off + zlen data) off); [lia|]. change (MAXFILE * BSIZE) with (140 * 512).
  by destruct (Z.ltb_spec (140 * 512) (off + zlen data)); [|lia].
Qed.

(** C25: what was written is what is read back, and the rest of the file reads as
    before. *)
Theorem write_read_roundtrip s BM V L ip r data off : opened (lget s) V L ip r → bitmap_set V (i_inum r) BM →
  0 ≤ off ≤ i_size r → off + zlen data ≤ MAXFILE * BSIZE →
  has_free V (lg_start (fs_log (lget s))) (2 * nblocks off (zlen data)) →
  (log_cost BM L r + nblocks off (zlen data) + 2 < 10)%nat →
  ∃ s1 s2, writei ip data off (zlen data) s = Ok (zlen data) s1 ∧
    readi ip off (zlen data) s1 = Ok (zlen data, data) s2 ∧
    ∀ o n, 0 ≤ o → 0 ≤ n → o + n ≤ i_size r → o + n ≤ off ∨ off + zlen data ≤ o →
      ∃ s3, readi ip o n s1 = Ok (n, fbytes V r o n) s3.
Proof.
  change (MAXFILE * BSIZE) with (140 * 512). intros Hop HBM Ho Hmax Hfr Hcost.
  destruct (writei_ok s BM V L ip r data off Hop HBM Ho Hmax Hfr Hcost) as (f & V' & L' & r' & R & [Hwo _ _ _ Hwi Hwb _ _ Hwl]).
  assert (Hz : 0 ≤ zlen data) by (unfold zlen; lia).
  assert (Hsz : i_size r' = Z.max (i_size r) (off + zlen data)) by (by rewrite Hwi).
  pose proof (fo_size _ _ _ (op_file _ _ _ _ _ Hop)) as Hfs.
  assert (Hop' : opened (lget (lset f s)) V' L' ip r') by (by rewrite lget_lset).
  destruct (readi_ok (lset f s) V' L' ip r' off (zlen data) Hop' (proj1 Hwl)) as (f2 & R2 & _); [lia..|].
  exists (lset f s), (lset f2 (lset f s)). split; [done|]. split.
  - assert (Heq : fbytes V' r' off (zlen data) = data); [|by rewrite R2, Z.min_l, Heq by lia].
    apply list_eq. intros i. unfold fbytes. rewrite list_lookup_fmap.
    destruct (decide (Z.of_nat i < zlen data)).
    + rewrite lookup_seqZ_lt by lia. simpl. rewrite Hwb by lia. rewrite decide_True by lia. unfold znth.
      destruct (Z.leb_spec 0 (off + Z.of_nat i - off)); [|lia]. f_equal. lia.
    + rewrite lookup_seqZ_ge by lia. simpl. symmetry. apply lookup_ge_None_2. unfold zlen in *. lia.
  - intros o n Hon Hn Hle Hout.
    destruct (readi_ok (lset f s) V' L' ip r' o n Hop' (proj1 Hwl)) as (f3 & R3 & _); [lia..|].
    assert (Heq : fbytes V' r' o n = fbytes V r o n); [|eexists; by rewrite R3, Z.min_l, Heq by lia].
    unfold fbytes. apply list_fmap_ext. intros i x Hx.
    apply lookup_seqZ in Hx as [-> Hi]. assert (Hb : Some (fbyte V' r' (o + Z.of_nat i)) = Some (fbyte V r (o + Z.of_nat i))).
    { rewrite Hwb by lia. by rewrite decide_False by lia. }
    by injection Hb.
Qed.
End theorems.

(** ** Witnesses *)

#[local] Instance writei_fuel : WaitFuel := 0%nat.
#[local] Instance no_devices : Devsw fsst := {| dev_read := λ _, None; dev_write := λ _, None |}.

(** A file of 700 bytes in blocks 19 and 20 of the example image. *)
Definition demo_file : inode := Inode 1 3 1 3 2 0 0 1 700 [19; 20; 0; 0; 0; 0; 0; 0; 0; 0; 0; 0; 0].
Definition demo_cache : list inode := demo_file :: replicate 49 zero_inode.

Lemma demo_fblk bn : fblk (blk demo_img) demo_file bn = if bn =? 0 then 19 else if bn =? 1 then 20 else 0.
Proof.
  unfold fblk. change (ind demo_file) with 0. cbn [Z.eqb].
  destruct (Z.ltb_spec bn 12).
  - destruct (Z.lt_ge_cases bn 0).
    + unfold baddr, znth. destruct (Z.leb_spec 0 bn); [lia|]. destruct (Z.eqb_spec bn 0), (Z.eqb_spec bn 1); (lia || done).
    + assert (bn ∈ seqZ 0 12) as Hin by (apply elem_of_seqZ; lia). vm_compute in Hin.
      repeat (apply elem_of_cons in Hin as [->|Hin]; [reflexivity|]). by apply elem_of_nil in Hin.
  - destruct (Z.eqb_spec bn 0), (Z.eqb_spec bn 1); (lia || done).
Qed.
Lemma demo_isdata b : b = 19 ∨ b = 20 → isdata (blk demo_img) 45 b.
Proof.
  intros Hb. assert (Hbm : ∀ b', 0 ≤ b' < 60 → bmblock (blk demo_img) b' = 4).
  { intros b' Hb'. unfold bmblock. rewrite Z.div_small by lia. vm_compute. done. }
  split; change (sbsize (blk demo_img)) with 60; [lia|lia| |intros b' Hb'; rewrite Hbm by done; lia].
  destruct Hb as [->| ->]; vm_compute; reflexivity.
Qed.
Lemma demo_file_ok : file_ok (blk demo_img) 45 demo_file.
Proof.
  split; [reflexivity|simpl; lia| |done| |done|].
  - intros bn Hbn. rewrite demo_fblk. intros Hne. apply demo_isdata.
    destruct (Z.eqb_spec bn 0), (Z.eqb_spec bn 1); (lia || done).
  - intros bn bn' H1 H2. rewrite !demo_fblk.
    destruct (Z.eqb_spec bn 0), (Z.eqb_spec bn 1), (Z.eqb_spec bn' 0), (Z.eqb_spec bn' 1); (lia || done).
  - intros bn Hbn Hlt. simpl in Hlt. rewrite demo_fblk. destruct (Z.eqb_spec bn 0), (Z.eqb_spec bn 1); (lia || done).
Qed.
Lemma demo_file_fields : inode_fields demo_file.
Proof.
  split; simpl; try lia. intros i a Ha. unfold znth in Ha. destruct (0 <=? i); [|done].
  apply list_elem_of_lookup_2 in Ha.
  assert (HF : Forall (λ a, 0 ≤ a < 2 ^ 32) [19; 20; 0; 0; 0; 0; 0; 0; 0; 0; 0; 0; 0]) by (repeat constructor; lia).
  rewrite Forall_forall in HF. by apply HF.
Qed.
Lemma demo_bitmap : bitmap_set (blk demo_img) 3 {[4]}.
Proof.
  split; [|split; [vm_compute; intros H; discriminate H|set_solver]].
  change (sbsize (blk demo_img)) with 60. intros b Hb. unfold bmblock. rewrite Z.div_small by lia.
  change (0 + ninodes (blk demo_img) / 8 + 3) with 4. set_solver.
Qed.
Lemma demo_below : ino_below (blk demo_img) 3.
Proof.
  split; [lia|]. split; [vm_compute; reflexivity|]. change (sbsize (blk demo_img)) with 60. intros b Hb.
  unfold bmblock. rewrite Z.div_small by lia. change (0 + ninodes (blk demo_img) / 8 + 3) with 4.
  change (iblock 3) with 2. lia.
Qed.
Lemma demo_free : has_free (blk demo_img) 45 6.
Proof.
  exists (list_to_set (seqZ 21 6)). split; [vm_compute; lia|]. change (sbsize (blk demo_img)) with 60.
  intros b Hb. apply elem_of_list_to_set, elem_of_seqZ in Hb. split; [lia|]. split; [lia|].
  assert (Hall : forallb (λ b, negb (used (blk demo_img) b)) (seqZ 21 6) = true) by (vm_compute; reflexivity).
  rewrite forallb_forall in Hall. apply negb_true_iff, Hall, list_elem_of_In, elem_of_seqZ. lia.
Qed.
Lemma demo_opened : ∃ s, opened (FsSt s demo_cache) (blk demo_img) ∅ 0 demo_file ∧ lg_start s = 45.
Proof.
  destruct (demo_ftx demo_cache) as (s & T & Es & Ez). exists s. split; [|exact Es].
  split; cbn [fs_log]; [exact T|reflexivity|reflexivity|by vm_compute|apply demo_file_fields| | |apply demo_below|].
  - rewrite Es. apply demo_fsgeo.
  - rewrite Es. apply demo_file_ok.
  - rewrite Ez. lia.
Qed.

Lemma readi_spec_witness : ∃ s, opened (FsSt s demo_cache) (blk demo_img) ∅ 0 demo_file ∧
  (∃ f, readi 0 690 100 (FsSt s demo_cache) = Ok (10, replicate 10 0) f) ∧
  readi 0 701 1 (FsSt s demo_cache) = Ok (-1, []) (FsSt s demo_cache).
Proof.
  destruct demo_opened as (s & Hop & _). exists s. split; [exact Hop|]. split.
  - destruct (readi_spec (S:=fsst) (LF:=lens_id fsst) (FsSt s demo_cache) (blk demo_img) ∅ 0 demo_file 690 100 Hop) as (f & R & _).
    + vm_compute. lia.
    + lia.
    + lia.
    + exists f. exact R.
  - pose proof (readi_spec (S:=fsst) (LF:=lens_id fsst) (FsSt s demo_cache) (blk demo_img) ∅ 0 demo_file 701 1 Hop) as H.
    rewrite decide_False in H by (simpl; lia). apply H; [vm_compute|..]; lia.
Defined.
Lemma writei_spec_witness : ∃ s, opened (FsSt s demo_cache) (blk demo_img) ∅ 0 demo_file ∧
  ∃ f V' L' r', writei 0 (replicate 1000 7) 600 1000 (FsSt s demo_cache) = Ok 1000 f ∧
    i_size r' = 1600 ∧ fbyte V' r' 1599 = 7 ∧ opened f V' L' 0 r'.
Proof.
  destruct demo_opened as (s & Hop & Es). exists s. split; [exact Hop|].
  destruct (writei_spec (S:=fsst) (LF:=lens_id fsst) (FsSt s demo_cache) {[4]} (blk demo_img) ∅ 0 demo_file (replicate 1000 7) 600 Hop demo_bitmap)
    as (f & V' & L' & r' & R & W).
  - lia.
  - vm_compute. reflexivity.
  - cbn [lget lens_id fs_log]. rewrite Es. exact demo_free.
  - vm_compute. lia.
  - exists f, V', L', r'. split; [exact R|].
    assert (Hsz : i_size r' = 1600) by (rewrite (wn_ino _ _ _ _ _ _ _ _ _ _ _ _ W); reflexivity).
    split; [exact Hsz|]. split; [|apply W].
    pose proof (wn_bytes _ _ _ _ _ _ _ _ _ _ _ _ W 1599 ltac:(lia)) as Hb.
    rewrite decide_True in Hb by (vm_compute; split; congruence). vm_compute in Hb. by injection Hb.
Defined.
Lemma write_read_roundtrip_witness : ∃ s s1 s2,
  writei 0 (replicate 300 7) 600 300 (FsSt s demo_cache) = Ok 300 s1 ∧
  readi 0 600 300 s1 = Ok (300, replicate 300 7) s2.
Proof.
  destruct demo_opened as (s & Hop & Es). exists s.
  destruct (write_read_roundtrip (S:=fsst) (LF:=lens_id fsst) (FsSt s demo_cache) {[4]} (blk demo_img) ∅ 0 demo_file (replicate 300 7) 600
    Hop demo_bitmap) as (s1 & s2 & R1 & R2 & _).
  - simpl. lia.
  - vm_compute. congruence.
  - cbn [lget lens_id fs_log]. rewrite Es. apply (has_free_le _ _ _ 6); [vm_compute; lia|exact demo_free].
  - vm_compute. lia.
  - exists s1, s2. split; [exact R1|exact R2].
Defined.
