(* ===== verification/Dir.v ===== *)
(** Directories: [namecmp], [dirlookup] and [dirlink] of [fs.c].

    A directory is the list of its 16-byte entries, and as such a map from names to
    inode numbers: an entry with number 0 is empty, and a name is found in the
    first entry that has it.  [dirlookup] reads this map, [dirlink] adds to it. *)

From S2P Require Import Prelude Spin Sched Mem Str Dll Bio Log Tx Fs Inode Balloc Dinode Content Writei.

(** * Directories as maps *)

(** The name in a buffer of [DIRSIZ] bytes. *)
Definition dname (l : list Z) : list Z := str_of (u8 <$> take 14 l).
Definition dinum (e : list Z) : Z := get16 0 e.
Definition is_entry (nm e : list Z) : Prop := dinum e ≠ 0 ∧ dname (drop 2 e) = nm.
#[export] Instance is_entry_dec nm e : Decision (is_entry nm e).
Proof. unfold is_entry. apply _. Defined.
(** Entry [k] of the directory [r], and all of them. *)
Definition dent (V : Z → list Z) (r : inode) (k : Z) : list Z := fbytes V r (16 * k) 16.
Definition dents (V : Z → list Z) (r : inode) : list (list Z) := dent V r <$> seqZ 0 (i_size r / 16).
Definition dmap (E : list (list Z)) (nm : list Z) : option Z := (λ x, dinum x.2) <$> list_find (is_entry nm) E.

(** Adding an entry whose name is new, at the end or in the place of an empty one. *)
Lemma dmap_snoc E nm e nm' : list_find (is_entry nm) E = None → is_entry nm e →
  dmap (E ++ [e]) nm' = if decide (nm' = nm) then Some (dinum e) else dmap E nm'.
Proof.
  intros Hn He. unfold dmap. case_decide as Hc; [subst|].
  - rewrite (list_find_app_r _ _ _ Hn). simpl. by rewrite decide_True.
  - destruct (list_find (is_entry nm') E) as [[i x]|] eqn:Ef; [by rewrite (list_find_app_l _ _ _ _ _ Ef)|].
    rewrite (list_find_app_r _ _ _ Ef). simpl. rewrite decide_False; [done|]. intros [_ Hx']. destruct He as [_ He']. congruence.
Qed.
Lemma dmap_insert E k nm e e0 nm' : list_find (is_entry nm) E = None → is_entry nm e → E !! k = Some e0 → dinum e0 = 0 →
  dmap (<[k := e]> E) nm' = if decide (nm' = nm) then Some (dinum e) else dmap E nm'.
Proof.
  intros Hn He Hk H0. rewrite list_find_None, Forall_forall in Hn. pose proof (lookup_lt_Some _ _ _ Hk) as Hlt. unfold dmap. case_decide as Hc; [subst|].
  - rewrite (proj2 (list_find_Some _ _ k e)); [done|]. split; [by rewrite list_lookup_insert_eq|]. split; [done|].
    intros j y Hj Hjk. rewrite list_lookup_insert_ne in Hj by lia. apply Hn. by eapply list_elem_of_lookup_2.
  - f_equal. destruct (list_find (is_entry nm') E) as [[i x]|] eqn:Ef.
    + apply list_find_Some in Ef as (Hi & Hx & Hj). apply list_find_Some. assert (i ≠ k) by (intros ->; rewrite Hk in Hi; injection Hi as ->; by destruct Hx).
      split; [by rewrite list_lookup_insert_ne|]. split; [done|]. intros j y Hy Hlt'. destruct (decide (j = k)) as [->|].
      * rewrite list_lookup_insert_eq in Hy by done. injection Hy as <-. intros [_ Hx']. destruct He as [_ He']. congruence.
      * rewrite list_lookup_insert_ne in Hy by done. by apply (Hj j).
    + rewrite list_find_None, Forall_forall in *. intros y [j Hy]%list_elem_of_lookup. destruct (decide (j = k)) as [->|].
      * rewrite list_lookup_insert_eq in Hy by done. injection Hy as <-. intros [_ Hx']. destruct He as [_ He']. congruence.
      * rewrite list_lookup_insert_ne in Hy by done. apply Ef. by eapply list_elem_of_lookup_2.
Qed.

(** * Names *)

Lemma cstr_at n : ∀ m p l, (∀ i : nat, (i < n)%nat → ld8 m (p + Z.of_nat i) = u8 (default 0 (l !! i))) → cstr n m p = str_of (u8 <$> take n l).
Proof.
  induction n as [|n IH]; intros m p l H; [done|]. cbn [cstr]. pose proof (H O ltac:(lia)) as H0. rewrite Z.add_0_r in H0. rewrite H0.
  destruct l as [|c l]; [done|]. cbn [take fmap list_fmap str_of lookup list_lookup default]. unfold from_option, id. case_match; [done|]. f_equal.
  apply IH. intros i Hi. pose proof (H (S i) ltac:(lia)) as Hi'. rewrite Nat2Z.inj_succ in Hi'. replace (p + 1 + Z.of_nat i) with (p + Z.succ (Z.of_nat i)) by lia. exact Hi'.
Qed.
Lemma ld8_empty a : ld8 ∅ a = 0.
Proof. unfold ld8. by rewrite lookup_empty. Qed.
(** [namecmp] compares names. *)
Lemma namecmp_ok s t : zlen s ≤ 4096 → (namecmp s t =? 0) = bool_decide (dname s = dname t).
Proof.
  intros Hs. assert (H : namecmp s t = 0 ↔ dname s = dname t); [|case_bool_decide; [apply Z.eqb_eq|apply Z.eqb_neq]; tauto].
  unfold namecmp, name_mem, dname. etrans; [apply strncmp_iff|]. change (Z.to_nat DIRSIZ) with 14%nat.
  rewrite (cstr_at 14 _ 0 s), (cstr_at 14 _ 4096 t); [done|..].
  - intros i Hi. rewrite !ld8_st_bytes. replace ((0 <=? 4096 + Z.of_nat i) && (4096 + Z.of_nat i <? 0 + zlen s)) with false by lia.
    unfold zlen. destruct (Z.ltb_spec (4096 + Z.of_nat i) (4096 + Z.of_nat (length t))).
    + replace (4096 <=? 4096 + Z.of_nat i) with true by lia. cbn [andb]. by replace (Z.to_nat (4096 + Z.of_nat i - 4096)) with i by lia.
    + rewrite andb_false_r, ld8_empty. rewrite lookup_ge_None_2 by lia. done.
  - intros i Hi. rewrite !ld8_st_bytes. unfold zlen. replace (0 <=? 0 + Z.of_nat i) with true by lia. cbn [andb].
    destruct (Z.ltb_spec (0 + Z.of_nat i) (0 + Z.of_nat (length s))).
    + by replace (Z.to_nat (0 + Z.of_nat i - 0)) with i by lia.
    + replace (4096 <=? 0 + Z.of_nat i) with false by lia. cbn [andb]. rewrite ld8_empty, lookup_ge_None_2 by lia. done.
Qed.

(** * Scanning a directory *)

Section dir.
Context {WF : WaitFuel} {S : Type} `{LF : Lens S fsst} {DS : Devsw S}.
Context (V : Z → list Z) (L : gset Z) (dp : Z) (r : inode) (Hsz : (size L < 10)%nat).
Implicit Types s : S.

(** A state that differs from [f0] by reads only. *)
Definition scanned (f0 f : fsst) : Prop := opened f V L dp r ∧ fsteps f0 f ∧ fs_inode f = fs_inode f0.
Lemma scanned_trans f0 f1 f2 : scanned f0 f1 → scanned f1 f2 → scanned f0 f2.
Proof. intros (H1 & S1 & E1) (H2 & S2 & E2). split; [done|]. split; [by etrans|congruence]. Qed.
Lemma scanned_refl f : opened f V L dp r → scanned f f.
Proof. done. Qed.

Lemma size_bound f : opened f V L dp r → 0 ≤ i_size r ≤ 140 * 512.
Proof. intros Hop. apply (fo_size _ _ _ (op_file _ _ _ _ _ Hop)). Qed.
Lemma read_dirent_ok s k : opened (lget s) V L dp r → 0 ≤ k → 16 * k + 16 ≤ i_size r →
  ∃ f, read_dirent dp (16 * k) s = Ok (dent V r k) (lset f s) ∧ scanned (lget s) f.
Proof.
  intros Hop Hk Hle. pose proof (size_bound _ Hop).
  destruct (readi_ok s V L dp r (16 * k) 16 Hop Hsz ltac:(lia) ltac:(lia) ltac:(lia) ltac:(lia)) as (f & R & Ho & St & Ei).
  rewrite Z.min_l in R by lia. exists f. split; [|done]. unfold read_dirent, DIRENT. by rewrite (bind_ok _ _ _ _ _ R).
Qed.
Lemma dir_inode s f : opened f V L dp r → (zoom (get_inode dp) : M S inode) (lset f s) = Ok r (lset f s).
Proof. intros Hop. apply zoom_inode. rewrite lget_lset. apply (op_ino _ _ _ _ _ Hop). Qed.
Lemma lset_self s : lset (lget s) s = s.
Proof. apply lset_lget. Qed.

Lemma lookup_loop_ok name n : zlen name ≤ 4096 → ∀ k fuel s, opened (lget s) V L dp r → 0 ≤ k → i_size r = 16 * (k + Z.of_nat n) → (n ≤ fuel)%nat →
  ∃ f, scanned (lget s) f ∧ dirlookup_loop fuel dp name (16 * k) s =
    match list_find (is_entry (dname name)) (dent V r <$> seqZ k (Z.of_nat n)) with
    | None => Ok None (lset f s)
    | Some (i, e) => (let* ip := zoom (iget 1 (dinum e)) in ret (Some (ip, 16 * (k + Z.of_nat i)))) (lset f s)
    end.
Proof.
  intros Hl. induction n as [|n IH]; intros k fuel s Hop Hk Hs Hf.
  - exists (lget s). split; [by apply scanned_refl|]. pose proof (dir_inode s _ Hop) as Hd. rewrite lset_self in *.
    destruct fuel; cbn [dirlookup_loop]; rewrite (bind_ok _ _ _ _ _ Hd); destruct (Z.ltb_spec (16 * k) (i_size r)); (lia || done).
  - destruct fuel as [|fuel]; [lia|]. pose proof (dir_inode s _ Hop) as Hd. rewrite lset_self in Hd. cbn [dirlookup_loop].
    rewrite (bind_ok _ _ _ _ _ Hd). destruct (Z.ltb_spec (16 * k) (i_size r)); [|lia]. pose proof (size_bound _ Hop).
    destruct (read_dirent_ok s k Hop Hk ltac:(lia)) as (f1 & R1 & S1). rewrite (bind_ok _ _ _ _ _ R1).
    rewrite seqZ_cons by lia. cbn [fmap list_fmap list_find]. replace (Z.pred (Z.of_nat (Datatypes.S n))) with (Z.of_nat n) by lia.
    destruct (IH (k + 1) fuel (lset f1 s)) as (f2 & S2 & E2); [rewrite lget_lset; apply S1|lia|lia|lia|]. rewrite lget_lset in S2.
    assert (Eoff : u32 (16 * k + DIRENT) = 16 * (k + 1)) by (unfold DIRENT; rewrite u32_small; lia). rewrite Eoff.
    change (get16 0 (dent V r k)) with (dinum (dent V r k)). replace (Z.succ k) with (k + 1) by lia.
    destruct (decide (is_entry (dname name) (dent V r k))) as [[Hi0 Hn]|Hne].
    + exists f1. split; [done|]. rewrite (proj2 (Z.eqb_neq _ 0)) by done. rewrite namecmp_ok, bool_decide_eq_true_2 by done.
      rewrite (op_dev _ _ _ _ _ Hop). by rewrite Z.add_0_r.
    + exists f2. split; [by eapply scanned_trans|]. assert (Ego : (if dinum (dent V r k) =? 0 then dirlookup_loop fuel dp name (16 * (k + 1)) else
        if namecmp name (drop 2 (dent V r k)) =? 0 then let* ip := zoom (iget (i_dev r) (dinum (dent V r k))) in ret (Some (ip, 16 * k))
        else dirlookup_loop fuel dp name (16 * (k + 1))) (lset f1 s) = dirlookup_loop fuel dp name (16 * (k + 1)) (lset f1 s)).
      { destruct (Z.eqb_spec (dinum (dent V r k)) 0); [done|]. rewrite namecmp_ok by done. rewrite bool_decide_eq_false_2; [done|]. intros Hq. by apply Hne. }
      rewrite Ego, E2. rewrite !lset_lset. destruct (list_find _ _) as [[i e]|]; cbn [fmap option_fmap option_map prod_map]; [|done].
      by replace (k + 1 + Z.of_nat i) with (k + Z.of_nat (Datatypes.S i)) by lia.
Qed.

(** The first empty entry from [k] on, or the end. *)
Lemma scan_loop_ok n : ∀ k fuel s, opened (lget s) V L dp r → 0 ≤ k → i_size r = 16 * (k + Z.of_nat n) → (n ≤ fuel)%nat →
  ∃ f k', scanned (lget s) f ∧ dirlink_scan fuel dp (16 * k) s = Ok (16 * k') (lset f s) ∧ k ≤ k' ≤ k + Z.of_nat n ∧
    (k' < k + Z.of_nat n → dinum (dent V r k') = 0).
Proof.
  induction n as [|n IH]; intros k fuel s Hop Hk Hs Hf; pose proof (dir_inode s _ Hop) as Hd; rewrite lset_self in Hd; pose proof (size_bound _ Hop).
  - exists (lget s), k. split; [by apply scanned_refl|]. rewrite lset_self. split; [|lia].
    destruct fuel; cbn [dirlink_scan]; rewrite (bind_ok _ _ _ _ _ Hd), u32_small by lia; destruct (Z.ltb_spec (16 * k) (i_size r)); (lia || done).
  - destruct fuel as [|fuel]; [lia|]. cbn [dirlink_scan]. rewrite (bind_ok _ _ _ _ _ Hd), u32_small by lia. destruct (Z.ltb_spec (16 * k) (i_size r)); [|lia].
    destruct (read_dirent_ok s k Hop Hk ltac:(lia)) as (f1 & R1 & S1). rewrite (bind_ok _ _ _ _ _ R1). change (get16 0 (dent V r k)) with (dinum (dent V r k)).
    destruct (Z.eqb_spec (dinum (dent V r k)) 0) as [E0|E0]; [exists f1, k; split; [done|split; [done|lia]]|].
    replace (s32 (16 * k + DIRENT)) with (16 * (k + 1)) by (unfold DIRENT; rewrite s32_small; lia).
    destruct (IH (k + 1) fuel (lset f1 s)) as (f2 & k' & S2 & E2 & Hr & He); [rewrite lget_lset; apply S1|lia|lia|lia|]. rewrite lget_lset, lset_lset in *.
    exists f2, k'. split; [by eapply scanned_trans|]. split; [done|]. split; [lia|]. intros Hlt. apply He. lia.
Qed.
Lemma dir_fuel_ok s : opened (lget s) V L dp r → dir_fuel dp s = Ok (Z.to_nat (i_size r / 16 + 1)) s.
Proof. intros Hop. pose proof (dir_inode s _ Hop) as Hd. rewrite lset_self in Hd. unfold dir_fuel. by rewrite (bind_ok _ _ _ _ _ Hd). Qed.
Lemma dirlookup_ok s name : opened (lget s) V L dp r → i_type r = T_DIR → i_size r mod 16 = 0 → zlen name ≤ 4096 →
  ∃ f, scanned (lget s) f ∧ dirlookup dp name s =
    match list_find (is_entry (dname name)) (dents V r) with
    | None => Ok None (lset f s)
    | Some (i, e) => (let* ip := zoom (iget 1 (dinum e)) in ret (Some (ip, 16 * Z.of_nat i))) (lset f s)
    end.
Proof.
  intros Hop Ht Hm Hl. pose proof (size_bound _ Hop). pose proof (Z.div_mod (i_size r) 16 ltac:(lia)). pose proof (Z.div_pos (i_size r) 16 ltac:(lia) ltac:(lia)).
  destruct (lookup_loop_ok name (Z.to_nat (i_size r / 16)) Hl 0 (Z.to_nat (i_size r / 16 + 1)) s Hop ltac:(lia) ltac:(lia) ltac:(lia)) as (f & Sc & E).
  exists f. split; [done|]. pose proof (dir_inode s _ Hop) as Hd. rewrite lset_self in Hd. unfold dirlookup. rewrite (bind_ok _ _ _ _ _ Hd), Ht.
  rewrite (bind_ok _ _ _ tt s) by done. rewrite (bind_ok _ _ _ _ _ (dir_fuel_ok s Hop)). rewrite Z2Nat.id in E by lia. exact E.
Qed.
End dir.

(** * The bytes of a new entry *)

Lemma str_of_nonzero l : 0 ∉ str_of l.
Proof. induction l as [|c l IH]; [by intros ?%elem_of_nil|]. simpl. destruct (Z.eqb_spec c 0); [by intros ?%elem_of_nil|]. rewrite not_elem_of_cons. split; [congruence|done]. Qed.
Lemma length_str_of l : (length (str_of l) ≤ length l)%nat.
Proof. induction l as [|c l IH]; [done|]. simpl. case_match; simpl; lia. Qed.
Lemma u8_str_of l : u8 <$> str_of (u8 <$> l) = str_of (u8 <$> l).
Proof. induction l as [|c l IH]; [done|]. cbn [fmap list_fmap str_of]. case_match; [done|]. cbn [fmap list_fmap]. rewrite u8_u8. by f_equal. Qed.
Lemma dname_padded l : dname (padded 14 (dname l)) = dname l.
Proof.
  assert (Hl : (length (dname l) ≤ 14)%nat) by (unfold dname; etrans; [apply length_str_of|]; rewrite length_fmap, length_take; lia).
  unfold dname at 1, padded. rewrite take_take, Nat.min_id, take_app_ge by done. rewrite take_replicate, fmap_app, fmap_replicate.
  change (u8 0) with 0. unfold dname. rewrite u8_str_of. destruct (14 - _)%nat as [|j] eqn:Ej.
  - rewrite Nat.min_0_l. cbn [replicate]. rewrite app_nil_r. apply str_of_nonul, str_of_nonzero.
  - replace (S j `min` 14)%nat with (S (j `min` 13)) by lia. cbn [replicate]. apply str_of_nul, str_of_nonzero.
Qed.
Lemma dirent_ok name inum (e := dirent_bytes name inum) : 0 ≤ inum < 2 ^ 16 → zlen e = 16 ∧ dinum e = inum ∧ dname (drop 2 e) = dname name.
Proof.
  intros Hi. assert (E : e = le_enc 2 inum ++ padded 14 (dname name)).
  { unfold e, dirent_bytes. f_equal. unfold strncpy. change (Z.to_nat DIRSIZ) with 14%nat. rewrite strncpy_loop_bytes by lia. f_equal. apply cstr_at.
    intros i Hi'. rewrite ld8_st_bytes. unfold zlen. replace (4096 <=? 4096 + Z.of_nat i) with true by lia. cbn [andb].
    destruct (Z.ltb_spec (4096 + Z.of_nat i) (4096 + Z.of_nat (length name))); [by replace (Z.to_nat (4096 + Z.of_nat i - 4096)) with i by lia|].
    rewrite ld8_empty, lookup_ge_None_2 by lia. done. }
  assert (Hp : length (padded 14 (dname name)) = 14%nat) by (unfold padded; rewrite length_take, length_app, length_replicate; lia).
  rewrite E. split; [unfold zlen; rewrite length_app, length_le_enc, Hp; done|]. split.
  - unfold dinum, get16, slice. rewrite drop_0, take_app_le by (rewrite length_le_enc; lia). rewrite take_ge by (by rewrite length_le_enc).
    rewrite le_dec_enc. change (256 ^ Z.of_nat 2) with (2 ^ 16). apply Z.mod_small. lia.
  - rewrite drop_app_ge by (rewrite length_le_enc; lia). rewrite length_le_enc. cbn [Nat.sub]. rewrite drop_0. apply dname_padded.
Qed.

(** * The directory after the write *)

Lemma fbytes_lookup V r off n i : (i < Z.to_nat n)%nat → fbytes V r off n !! i = Some (fbyte V r (off + Z.of_nat i)).
Proof. intros Hi. unfold fbytes. rewrite list_lookup_fmap, lookup_seqZ_lt by lia. done. Qed.
Lemma length_fbytes V r off n : length (fbytes V r off n) = Z.to_nat n.
Proof. unfold fbytes. by rewrite length_fmap, length_seqZ. Qed.
Lemma dents_lookup V r (i : nat) : (i < Z.to_nat (i_size r / 16))%nat → dents V r !! i = Some (dent V r (Z.of_nat i)).
Proof. intros Hi. unfold dents. rewrite list_lookup_fmap, lookup_seqZ_lt by lia. done. Qed.
Lemma length_dents V r : length (dents V r) = Z.to_nat (i_size r / 16).
Proof. unfold dents. by rewrite length_fmap, length_seqZ. Qed.

Section write.
Context (V V' : Z → list Z) (r r' : inode) (k : Z) (e : list Z) (He : zlen e = 16).
Context (Hm : i_size r mod 16 = 0) (H0 : 0 ≤ i_size r) (Hk : 0 ≤ k ≤ i_size r / 16) (Hs : i_size r' = Z.max (i_size r) (16 * k + 16)).
Context (Hb : ∀ i, 0 ≤ i < i_size r' → Some (fbyte V' r' i) =
  if decide (16 * k ≤ i < 16 * k + 16) then znth e (i - 16 * k) else Some (fbyte V r i)).

Lemma write_sizes : i_size r = 16 * (i_size r / 16) ∧ i_size r' / 16 = Z.max (i_size r / 16) (k + 1) ∧ i_size r' mod 16 = 0.
Proof.
  pose proof (Z.div_mod (i_size r) 16 ltac:(lia)). set (q := i_size r / 16) in *. clearbody q. split; [lia|]. rewrite Hs.
  replace (Z.max (i_size r) (16 * k + 16)) with (Z.max q (k + 1) * 16) by lia. by rewrite Z.div_mul, Z.mod_mul by lia.
Qed.
Lemma dent_new : dent V' r' k = e.
Proof.
  destruct write_sizes as (E1 & E2 & _). apply list_eq_same_length with 16%nat; [unfold zlen in He; lia|by unfold dent; rewrite length_fbytes|].
  intros i x y Hi Hx Hy. unfold dent in Hx. rewrite fbytes_lookup in Hx by lia. injection Hx as <-.
  pose proof (Hb (16 * k + Z.of_nat i) ltac:(lia)) as Hbi. rewrite decide_True in Hbi by lia. unfold znth in Hbi.
  replace (16 * k + Z.of_nat i - 16 * k) with (Z.of_nat i) in Hbi by lia. rewrite Nat2Z.id in Hbi. rewrite (proj2 (Z.leb_le 0 (Z.of_nat i))) in Hbi by lia. rewrite Hy in Hbi. congruence.
Qed.
Lemma dent_old j : 0 ≤ j < i_size r / 16 → j ≠ k → dent V' r' j = dent V r j.
Proof.
  intros Hj Hne. destruct write_sizes as (E1 & E2 & _). apply list_eq_same_length with 16%nat; [by unfold dent; rewrite length_fbytes|by unfold dent; rewrite length_fbytes|].
  intros i x y Hi Hx Hy. unfold dent in *. rewrite fbytes_lookup in Hx, Hy by lia. injection Hx as <-. injection Hy as <-.
  pose proof (Hb (16 * j + Z.of_nat i) ltac:(lia)) as Hbi. rewrite decide_False in Hbi by lia. congruence.
Qed.
Lemma dents_write : dents V' r' = if decide (k < i_size r / 16) then <[Z.to_nat k := e]> (dents V r) else dents V r ++ [e].
Proof.
  destruct write_sizes as (E1 & E2 & _). apply list_eq_same_length with (Z.to_nat (i_size r' / 16)); [|by rewrite length_dents|].
  { case_decide; [rewrite length_insert|rewrite length_app]; rewrite length_dents; simpl; lia. }
  intros i x y Hi Hx Hy. rewrite dents_lookup in Hx by lia. injection Hx as <-. case_decide as Hc.
  - destruct (decide (i = Z.to_nat k)) as [->|Hne].
    + rewrite list_lookup_insert_eq in Hy by (rewrite length_dents; lia). rewrite Z2Nat.id by lia. rewrite dent_new. congruence.
    + rewrite list_lookup_insert_ne, dents_lookup in Hy by lia. rewrite dent_old by lia. congruence.
  - assert (k = i_size r / 16) by lia. destruct (decide (i < Z.to_nat (i_size r / 16))%nat).
    + rewrite lookup_app_l, dents_lookup in Hy by (rewrite ?length_dents; lia). rewrite dent_old by lia. congruence.
    + rewrite lookup_app_r, length_dents in Hy by (rewrite length_dents; lia). replace (i - Z.to_nat (i_size r / 16))%nat with O in Hy by lia. injection Hy as <-.
      replace (Z.of_nat i) with k by lia. apply dent_new.
Qed.
End write.

(** * Theorems *)

Section theorems.
Context {WF : WaitFuel} {S : Type} `{LF : Lens S fsst} {DS : Devsw S}.
Implicit Types s : S.

(** [dirlookup] finds the inode a directory maps the name to, with the offset of
    its entry, and takes one reference to it; a name that is not in the directory
    gives null and changes nothing.  It panics only when the inode is not cached
    and the cache is full. *)
Theorem dirlookup_spec s V L dp r name : opened (lget s) V L dp r → (size L < 10)%nat → i_type r = T_DIR → i_size r mod 16 = 0 → zlen name ≤ 4096 →
  icache_ok (fs_inode (lget s)) → (∀ k, refs (fs_inode (lget s)) k < 2 ^ 31 - 2) →
  match dmap (dents V r) (dname name) with
  | None => ∃ f, dirlookup dp name s = Ok None (lset f s) ∧ scanned V L dp r (lget s) f
  | Some inum =>
      (∃ ip i x f, dirlookup dp name s = Ok (Some (ip, 16 * Z.of_nat i)) (lset f s) ∧ (dinum <$> dents V r !! i = Some inum) ∧
         znth (fs_inode f) ip = Some x ∧ i_dev x = 1 ∧ i_inum x = inum ∧ icache_ok (fs_inode f) ∧
         ∀ k, refs (fs_inode f) k = if decide (k = (1, inum)) then refs (fs_inode (lget s)) k + 1 else refs (fs_inode (lget s)) k) ∨
      (∃ s', dirlookup dp name s = Panic "iget: no inodes" s') ∧ refs (fs_inode (lget s)) (1, inum) = 0
  end.
Proof.
  intros Hop Hsz Ht Hm Hl Hic Hrf. destruct (dirlookup_ok V L dp r Hsz s name Hop Ht Hm Hl) as (f & Sc & E). unfold dmap.
  destruct (list_find _ _) as [[i e]|] eqn:Ef; cbn [fmap option_fmap option_map snd]; [|by exists f].
  destruct Sc as (Ho & _ & Ei). apply list_find_Some in Ef as (Hi & _ & _).
  destruct (iget_ok 1 (dinum e) f) as [(ip & x & f' & R & Hx & Hd & Hn & _ & _ & Hok & Hrefs)|([s' R] & H0 & _)].
  - eapply ftx_idle, (op_tx _ _ _ _ _ Ho).
  - by rewrite Ei.
  - by rewrite Ei.
  - left. exists ip, i, x, f'. split; [|split; [by rewrite Hi|]].
    + rewrite E. rewrite (bind_ok _ _ _ ip (lset f' s)); [done|]. rewrite (zoom_ok _ (lset f s) ip f'); [by rewrite lset_lset|by rewrite lget_lset].
    + split; [done|]. split; [done|]. split; [done|]. split; [done|]. by rewrite <- Ei.
  - right. split; [|by rewrite <- Ei]. exists (lset s' (lset f s)). rewrite E. apply bind_panic, zoom_panic. by rewrite lget_lset.
Qed.

(** C14: [dirlink] adds exactly one name to a directory that does not have it: the
    name then leads to the inode, every other name to what it led to before, and
    blocks outside the directory, its inode and the bitmap are unchanged. *)
Theorem dirlink_spec s BM V L dp r name inum : opened (lget s) V L dp r → bitmap_set V (i_inum r) BM → (size L < 10)%nat →
  i_type r = T_DIR → i_size r mod 16 = 0 → i_size r + 16 ≤ MAXFILE * BSIZE → zlen name ≤ 4096 → 0 < inum < 2 ^ 16 →
  dmap (dents V r) (dname name) = None →
  has_free V (lg_start (fs_log (lget s))) 2 → (log_cost BM L r + 3 < 10)%nat →
  ∃ f V' L' r', dirlink dp name inum s = Ok 0 (lset f s) ∧ opened f V' L' dp r' ∧ i_type r' = T_DIR ∧ i_size r' mod 16 = 0 ∧
    (∀ nm, dmap (dents V' r') nm = if decide (nm = dname name) then Some inum else dmap (dents V r) nm) ∧
    ∀ b, b ∉ BM → b ≠ 0 → b ≠ iblock (i_inum r) → b ≠ ind r' → (∀ bn, 0 ≤ bn < 140 → b ≠ fblk V' r' bn) → V' b = V b.
Proof.
  change (MAXFILE * BSIZE) with (140 * 512). intros Hop HBM Hsz Ht Hm Hmax Hl Hin Hno Hfr Hcost. pose proof (size_bound _ _ _ _ _ Hop) as Hs0.
  assert (Hnone : list_find (is_entry (dname name)) (dents V r) = None) by (unfold dmap in Hno; by destruct (list_find _ _)).
  destruct (dirlookup_ok V L dp r Hsz s name Hop Ht Hm Hl) as (f1 & S1 & E1). rewrite Hnone in E1.
  assert (Ho1 : opened (lget (lset f1 s)) V L dp r) by (rewrite lget_lset; apply S1). pose proof (dir_fuel_ok V L dp r _ Ho1) as Hfu.
  pose proof (Z.div_mod (i_size r) 16 ltac:(lia)). pose proof (Z.div_pos (i_size r) 16 ltac:(lia) ltac:(lia)).
  destruct (scan_loop_ok V L dp r Hsz (Z.to_nat (i_size r / 16)) 0 (Z.to_nat (i_size r / 16 + 1)) (lset f1 s) Ho1 ltac:(lia) ltac:(lia) ltac:(lia))
    as (f2 & k & S2 & E2 & Hk & Hempty). rewrite lget_lset, lset_lset in *.
  destruct (dirent_ok name inum ltac:(lia)) as (He1 & He2 & He3). set (e := dirent_bytes name inum) in *.
  assert (Hnb : nblocks (16 * k) (zlen e) = 1%nat).
  { rewrite He1. unfold nblocks. assert (H16 : (16 * k) mod 512 = 16 * (k mod 32)) by (change 512 with (16 * 32); apply Z.mul_mod_distr_l; lia). rewrite H16.
    pose proof (Z.mod_pos_bound k 32 ltac:(lia)). replace ((16 * (k mod 32) + 16 + 511) / 512) with 1; [done|]. apply Z.div_unique with (16 * (k mod 32) + 15); lia. }
  destruct S2 as (Ho2 & St2 & Ei2). destruct S1 as (_ & St1 & Ei1).
  destruct (writei_ok (lset f2 s) BM V L dp r e (16 * k)) as (f & V' & L' & r' & R & W); rewrite ?lget_lset; try done; [lia|lia| | |].
  { rewrite Hnb. rewrite (sp_start _ _ (proj1 St2)), (sp_start _ _ (proj1 St1)). exact Hfr. }
  { rewrite Hnb. lia. }
  rewrite lget_lset, lset_lset in *. exists f, V', L', r'. split.
  { unfold dirlink. rewrite (bind_ok _ _ _ _ _ E1), (bind_ok _ _ _ _ _ Hfu), (bind_ok _ _ _ _ _ E2). fold e. rewrite u32_small by lia.
    rewrite He1 in R. unfold DIRENT. by rewrite (bind_ok _ _ _ _ _ R). }
  pose proof (wn_ino _ _ _ _ _ _ _ _ _ _ _ _ W) as Er. pose proof (wn_bytes _ _ _ _ _ _ _ _ _ _ _ _ W) as Hb.
  assert (Hs' : i_size r' = Z.max (i_size r) (16 * k + 16)) by (rewrite Er, <- He1; done).
  assert (Hb' : ∀ i, 0 ≤ i < i_size r' → Some (fbyte V' r' i) = if decide (16 * k ≤ i < 16 * k + 16) then znth e (i - 16 * k) else Some (fbyte V r i)) by (rewrite <- He1; exact Hb).
  split; [apply W|]. split; [by rewrite Er|]. split; [apply (write_sizes r r' k Hm Hs')|]. split; [|apply W].
  intros nm. rewrite (dents_write V V' r r' k e) by (done || lia).
  assert (Hent : is_entry (dname name) e) by (split; [lia|done]). case_decide as Hc.
  - rewrite (dmap_insert _ _ (dname name) e (dent V r k)); [by rewrite He2|done|done| |apply Hempty; lia].
    rewrite dents_lookup by lia. by rewrite Z2Nat.id by lia.
  - rewrite (dmap_snoc _ (dname name)) by done. by rewrite He2.
Qed.
End theorems.

(** ** Witnesses *)

#[local] Existing Instance no_devices.
#[local] Instance dir_fuel_wait : WaitFuel := 0%nat.
(** A directory of 43 empty entries in the blocks of the example file. *)
Definition demo_dir : inode := Inode 1 3 1 3 1 0 0 1 688 [19; 20; 0; 0; 0; 0; 0; 0; 0; 0; 0; 0; 0].
Definition demo_dirs : list inode := demo_dir :: replicate 49 zero_inode.
Lemma demo_dir_opened : ∃ s, opened (FsSt s demo_dirs) (blk demo_img) ∅ 0 demo_dir ∧ lg_start s = 45.
Proof.
  destruct (demo_ftx demo_dirs) as (s & T & Es & Ez). exists s. split; [|exact Es].
  split; cbn [fs_log]; [exact T|reflexivity|reflexivity|by vm_compute| | | |apply demo_below|].
  - destruct demo_file_fields. by split.
  - rewrite Es. apply demo_fsgeo.
  - rewrite Es. destruct (file_resize (blk demo_img) 45 demo_file 688 demo_file_ok ltac:(lia)); [|by split].
    intros bn H1 H2. apply (fo_full _ _ _ demo_file_ok); simpl; lia.
  - rewrite Ez. lia.
Qed.
Lemma demo_dirs_entry i x : znth demo_dirs i = Some x → i = 0 ∧ x = demo_dir ∨ x = zero_inode.
Proof.
  intros Hx. unfold znth in Hx. destruct (Z.leb_spec 0 i); [|done]. destruct (Z.to_nat i) as [|n] eqn:E; [left; split; [lia|by injection Hx]|right].
  change (replicate 49 zero_inode !! n = Some x) in Hx. by apply lookup_replicate in Hx as [-> _].
Qed.
Lemma demo_dirs_ok : icache_ok demo_dirs.
Proof.
  split; [done|..].
  - intros i x [[_ ->]| ->]%demo_dirs_entry; simpl; lia.
  - intros k i j x y [[-> ->]| ->]%demo_dirs_entry [[-> ->]| ->]%demo_dirs_entry Hlx%live_iff Hly%live_iff; simpl in *; lia.
Qed.
Lemma demo_dirs_refs k : refs (fs_inode (FsSt (power_on (demo_base [zero_proc]) []) demo_dirs)) k < 2 ^ 31 - 2.
Proof.
  destruct (refs_cases demo_dirs k demo_dirs_ok) as [H|(i & x & Hx & Hl)]; cbn [fs_inode].
  - rewrite (refs_dead _ _ H). lia.
  - rewrite (refs_live _ _ _ _ demo_dirs_ok Hx Hl). apply demo_dirs_entry in Hx as [[_ ->]| ->]; simpl; lia.
Qed.
Lemma demo_dents : Forall (λ e, dinum e = 0) (dents (blk demo_img) demo_dir).
Proof. apply (bool_decide_eq_true_1 _). by vm_compute. Qed.
Lemma demo_dmap nm : dmap (dents (blk demo_img) demo_dir) nm = None.
Proof.
  unfold dmap. rewrite (proj2 (list_find_None _ _)); [done|]. apply (Forall_impl _ _ _ demo_dents). by intros e He [Hne _].
Qed.

Lemma dirlookup_spec_witness : ∃ s f, dirlookup 0 (chars "usr") (FsSt s demo_dirs) = Ok None f.
Proof.
  destruct demo_dir_opened as (s & Hop & _). exists s.
  pose proof (dirlookup_spec (S:=fsst) (LF:=lens_id fsst) (FsSt s demo_dirs) (blk demo_img) ∅ 0 demo_dir (chars "usr") Hop) as H.
  rewrite demo_dmap in H. destruct H as (f & R & _).
  - vm_compute. lia.
  - reflexivity.
  - reflexivity.
  - vm_compute. congruence.
  - apply demo_dirs_ok.
  - apply demo_dirs_refs.
  - exists f. exact R.
Defined.
Lemma dirlink_spec_witness : ∃ s f V' r', dirlink 0 (chars "usr") 7 (FsSt s demo_dirs) = Ok 0 f ∧
  dmap (dents V' r') (chars "usr") = Some 7 ∧ dmap (dents V' r') (chars "bin") = None.
Proof.
  destruct demo_dir_opened as (s & Hop & Es). exists s.
  destruct (dirlink_spec (S:=fsst) (LF:=lens_id fsst) (FsSt s demo_dirs) {[4]} (blk demo_img) ∅ 0 demo_dir (chars "usr") 7 Hop demo_bitmap)
    as (f & V' & L' & r' & R & _ & _ & _ & Hd & _).
  - vm_compute. lia.
  - reflexivity.
  - reflexivity.
  - vm_compute. congruence.
  - vm_compute. congruence.
  - lia.
  - apply demo_dmap.
  - cbn [lget lens_id fs_log]. rewrite Es. apply (has_free_le _ _ _ 6); [lia|exact demo_free].
  - vm_compute. lia.
  - exists f, V', r'. split; [exact R|]. rewrite !Hd, demo_dmap. split; vm_compute; reflexivity.
Defined.
