(* ===== verification/Path.v ===== *)
(** Path names: [namex], [namei] and [nameiparent] of [fs.c].

    The directories on the disk give every path a meaning, [resolve]: follow its
    elements from an inode, each in the map that a directory is.  The theorems say
    that [namei] and [nameiparent] compute it, that they hold one reference to the
    inode they return and none to the directories on the way, and that two unused
    entries of the inode cache are enough for a path of any length. *)

From S2P Require Import Prelude Spin Sched Mem Str Dll Bio Log Tx Fs Inode Balloc Dinode Content Writei Dir.

(** * The meaning of a path *)

Definition no_inode : inode := Inode 0 0 0 0 0 0 0 0 0 [].
(** Inode [n] on the disk. *)
Definition dino (V : Z → list Z) (n : Z) : inode := dinode_of V n no_inode.
Definition is_dir (V : Z → list Z) (n : Z) : bool := i_type (dino V n) =? T_DIR.
(** The inode a directory has under a name. *)
Definition child (V : Z → list Z) (n : Z) (nm : list Z) : option Z := dmap (dents V (dino V n)) nm.
(** Names are compared up to [DIRSIZ] bytes. *)
Definition elem_name (e : list Z) : list Z := take (Z.to_nat DIRSIZ) e.
Fixpoint resolve (V : Z → list Z) (n : Z) (es : list (list Z)) : option Z :=
  match es with
  | [] => Some n
  | e :: es => if is_dir V n then child V n (elem_name e) ≫= λ m, resolve V m es else None
  end.
(** The directory the last element of a path is looked up in. *)
Definition resolve_parent (V : Z → list Z) (n : Z) (es : list (list Z)) : option (Z * list Z) :=
  e ← last es;
  m ← resolve V n (take (length es - 1) es);
  if is_dir V m then Some (m, elem_name e) else None.

Lemma resolve_app V n es es' : resolve V n (es ++ es') = resolve V n es ≫= λ m, resolve V m es'.
Proof.
  revert n. induction es as [|e es IH]; intros n; [done|]. cbn [app resolve]. destruct (is_dir V n); [|done].
  destruct (child V n (elem_name e)) as [m|]; [apply IH|done].
Qed.
Lemma resolve_parent_cons V n e e' es : resolve_parent V n (e :: e' :: es) =
  if is_dir V n then child V n (elem_name e) ≫= λ m, resolve_parent V m (e' :: es) else None.
Proof.
  unfold resolve_parent. rewrite last_cons_cons. destruct (last (e' :: es)) as [x|] eqn:El.
  2: { apply last_None in El. done. }
  replace (length (e :: e' :: es) - 1)%nat with (S (length (e' :: es) - 1)) by (simpl; lia). cbn [take resolve mbind option_bind].
  destruct (is_dir V n); [|done]. by destruct (child V n (elem_name e)).
Qed.

(** * The file system on the disk *)

Section disk.
Context (V : Z → list Z) (start : Z).

(** A directory as the kernel reads it, whose entries lead into [G]. *)
Record dir_ok (G : gset Z) (n : Z) : Prop := {
  do_fields : inode_fields (dino V n);
  do_file : file_ok V start (dino V n);
  do_size : i_size (dino V n) mod 16 = 0;
  do_closed : ∀ nm m, child V n nm = Some m → m ∈ G;
}.
(** [G] is a set of linked inodes, closed under the entries of its directories. *)
Record tree_ok (G : gset Z) : Prop := {
  to_geo : fsgeo V start;
  to_below : ∀ n, n ∈ G → ino_below V n;
  to_type : ∀ n, n ∈ G → i_type (dino V n) ≠ 0;
  to_link : ∀ n, n ∈ G → i_nlink (dino V n) ≠ 0;
  to_dir : ∀ n, n ∈ G → is_dir V n = true → dir_ok G n;
}.
Lemma resolve_in G : tree_ok G → ∀ es n m, n ∈ G → resolve V n es = Some m → m ∈ G.
Proof.
  intros Ht. induction es as [|e es IH]; intros n m Hn Hr; [by simplify_eq/=|]. cbn [resolve] in Hr.
  destruct (is_dir V n) eqn:Ed; [|done]. destruct (child V n (elem_name e)) as [c|] eqn:Ec; [|done].
  apply (IH c m); [|done]. by apply (do_closed _ _ (to_dir _ Ht n Hn Ed) (elem_name e)).
Qed.
End disk.
Arguments tree_ok V start G : clear implicits.

(** * The inode cache on the way *)

(** Entries without a reference. *)
Definition nfree (l : list inode) : nat := length (filter (λ x, i_ref x = 0) l).
Definition unused (x : inode) : nat := if decide (i_ref x = 0) then 1 else 0.
Lemma nfree_cons x l : nfree (x :: l) = (unused x + nfree l)%nat.
Proof. unfold nfree, unused. rewrite filter_cons. by case_decide. Qed.
Lemma nfree_zupd l i x y : znth l i = Some x → (nfree (zupd i y l) + unused x = nfree l + unused y)%nat.
Proof.
  unfold znth, zupd. destruct (0 <=? i); [|done]. generalize (Z.to_nat i). clear i. induction l as [|z l IH]; intros i H; [done|].
  destruct i as [|i]; simplify_eq/=; rewrite !nfree_cons; [lia|]. specialize (IH i H). lia.
Qed.
Lemma nfree_pos l : nfree l ≠ 0%nat → ∃ i x, znth l i = Some x ∧ i_ref x = 0.
Proof.
  intros H. destruct (filter (λ x, i_ref x = 0) l) as [|x l'] eqn:E; [unfold nfree in H; by rewrite E in H|].
  assert (Hx : x ∈ filter (λ x, i_ref x = 0) l) by (rewrite E; left). apply list_elem_of_filter in Hx as [H0 Hx].
  apply list_elem_of_In, znth_In in Hx as [i Hi]. by exists i, x.
Qed.

Section cache.
Context (V : Z → list Z) (start : Z) (G : gset Z) (Ht : tree_ok V start G).

(** A referenced entry is an inode of the tree, and what it holds is on the disk. *)
Record entry_ok (busy : bool) (x : inode) : Prop := {
  en_dev : i_dev x = 1;
  en_in : i_inum x ∈ G;
  en_busy : iflag I_BUSY x = busy;
  en_disk : iflag I_VALID x = true → dinode_of V (i_inum x) x = x;
  en_valid : busy = true → iflag I_VALID x = true;
}.
(** Nobody has an entry locked but, when [lk] says so, the caller. *)
Record cache_ok (lk : option Z) (l : list inode) : Prop := {
  co_cache : icache_ok l;
  co_entry : ∀ i x, znth l i = Some x → 0 < i_ref x → entry_ok (bool_decide (lk = Some i)) x;
}.

Lemma cache_upd lk lk' l i y : cache_ok lk l → icache_ok (zupd i y l) → (0 < i_ref y → entry_ok (bool_decide (lk' = Some i)) y) →
  (∀ j, j ≠ i → lk = Some j ↔ lk' = Some j) → cache_ok lk' (zupd i y l).
Proof.
  intros [Hc He] Hok Hy Hlk. split; [done|]. intros j z [[<- <-]|[Hj Hz]]%znth_zupd_Some Hp; [by apply Hy|].
  rewrite <- (bool_decide_ext (lk = Some j) (lk' = Some j) (Hlk j ltac:(congruence))). by apply He.
Qed.
Lemma cache_same lk lk' l i x y : cache_ok lk l → znth l i = Some x → 0 < i_ref x → i_ref y = i_ref x → i_dev y = i_dev x → i_inum y = i_inum x →
  entry_ok (bool_decide (lk' = Some i)) y → (∀ j, j ≠ i → lk = Some j ↔ lk' = Some j) →
  cache_ok lk' (zupd i y l) ∧ (∀ k, refs (zupd i y l) k = refs l k) ∧ nfree (zupd i y l) = nfree l.
Proof.
  intros Hc Hx Hr Er Ed En Hy Hlk. pose proof (ic_ref _ (co_cache _ _ Hc) _ _ Hx) as Hb.
  destruct (refs_update l i x y (i_dev x, i_inum x) (co_cache _ _ Hc) Hx) as [Hok Hrefs]; [lia|done|done|left; by apply live_iff|].
  split; [by apply (cache_upd lk)|]. split.
  - intros k. rewrite Hrefs. destruct (decide (k = _)) as [->|]; [|done]. rewrite Er. symmetry. apply (refs_live _ _ i); [apply Hc|done|by apply live_iff].
  - pose proof (nfree_zupd l i x y Hx) as H. unfold unused in H. rewrite Er in H. destruct (decide _); lia.
Qed.

(** What [ilock] and [iunlock] make of an entry. *)
Lemma disk_flags x f : dinode_of V (i_inum x) x = x → dinode_of V (i_inum x) (set_i_flags f x) = set_i_flags f x.
Proof. intros H. change (set_i_flags f (dinode_of V (i_inum x) x) = set_i_flags f x). by rewrite H. Qed.
Lemma disk_ref x r : dinode_of V (i_inum x) x = x → dinode_of V (i_inum x) (set_i_ref r x) = set_i_ref r x.
Proof. intros H. change (set_i_ref r (dinode_of V (i_inum x) x) = set_i_ref r x). by rewrite H. Qed.
Lemma ilocked_ok x : entry_ok false x → entry_ok true (ilocked V x) ∧ i_ref (ilocked V x) = i_ref x ∧ i_dev (ilocked V x) = i_dev x ∧ i_inum (ilocked V x) = i_inum x.
Proof.
  intros [H1 H2 H3 H4 _]. unfold ilocked. destruct (iflag I_VALID x) eqn:Ev.
  - split; [|done]. destruct (busied_flags x) as [Hb Hv]. split; [done|done|done| |intros _; by etrans; [exact Hv|]].
    intros _. exact (disk_flags x _ (H4 eq_refl)).
  - split; [|done]. split; [done|done| |done|intros _].
    + rewrite (proj1 (iflag_bits _)). simpl. rewrite !Z.lor_spec. change (Z.testbit I_BUSY 0) with true. by rewrite orb_true_r.
    + rewrite (proj2 (iflag_bits _)). simpl. rewrite !Z.lor_spec. change (Z.testbit I_VALID 1) with true. by rewrite orb_true_r.
Qed.
Lemma unbusied_ok x : entry_ok true x → entry_ok false (unbusied x).
Proof.
  intros [H1 H2 H3 H4 H5]. destruct (unbusied_flags x) as [Hb Hv]. split; [done|done|done| |done].
  intros _. exact (disk_flags x _ (H4 (H5 eq_refl))).
Qed.
Lemma entry_ref b x r : entry_ok b x → entry_ok b (set_i_ref r x).
Proof. intros [H1 H2 H3 H4 H5]. split; try done. intros Hv. exact (disk_ref x _ (H4 Hv)). Qed.

(** A valid entry has the fields of the inode on the disk. *)
Lemma entry_dino b x : entry_ok b x → iflag I_VALID x = true → same_inode (dino V (i_inum x)) x.
Proof. intros [_ _ _ H4 _] Hv. specialize (H4 Hv). rewrite <- H4. repeat split. Qed.

Lemma inode_low n : n ∈ G → 0 ≤ n ∧ iblock n < start.
Proof.
  intros Hn. destruct (to_below _ _ _ Ht n Hn) as (H0 & Hs & Hlt). split; [done|].
  specialize (Hlt 0 ltac:(lia)). pose proof (g_bm _ _ (to_geo _ _ _ Ht) 0 ltac:(lia)). lia.
Qed.
End cache.

(** * Inodes with the same contents *)

Section same.
Context (V : Z → list Z) (a b : inode) (H : same_inode a b).
Lemma same_fblk bn : fblk V b bn = fblk V a bn.
Proof. destruct H as (_ & _ & _ & _ & _ & E). unfold fblk, ind, baddr. by rewrite E. Qed.
Lemma same_ind : ind b = ind a.
Proof. destruct H as (_ & _ & _ & _ & _ & E). unfold ind, baddr. by rewrite E. Qed.
Lemma same_file start : file_ok V start a → file_ok V start b.
Proof.
  intros []. pose proof H as (_ & _ & _ & _ & Es & Ea). split; rewrite ?Es, ?Ea, ?same_ind; try done; intros *; rewrite ?same_fblk; auto.
Qed.
Lemma same_fields : inode_fields a → inode_fields b.
Proof. intros []. pose proof H as (E1 & E2 & E3 & E4 & E5 & E6). split; rewrite ?E1, ?E2, ?E3, ?E4, ?E5, ?E6; done. Qed.
Lemma same_dents : dents V b = dents V a.
Proof.
  unfold dents. pose proof H as (_ & _ & _ & _ & -> & _). apply list_fmap_ext. intros _ k _. unfold dent, fbytes.
  apply list_fmap_ext. intros _ i _. unfold fbyte. by rewrite same_fblk.
Qed.
End same.

(** * The operations on the way *)

Definition bump (n : Z) (R : Z * Z → Z) (k : Z * Z) : Z := R k + if decide (k = (1, n)) then 1 else 0.
Lemma bump_comm n m R k : bump n (bump m R) k = bump m (bump n R) k.
Proof. unfold bump. lia. Qed.

Section walk.
Context {WF : WaitFuel} (V : Z → list Z) (start : Z) (G : gset Z) (Ht : tree_ok V start G) (L : gset Z) (Hsz : (size L < 10)%nat).

(** A state with the references [R], in a transaction that has logged [L]. *)
Record at_rest (R : Z * Z → Z) (lk : option Z) (f : fsst) : Prop := {
  ar_tx : ftx f V ∅ L ∅;
  ar_start : lg_start (fs_log f) = start;
  ar_log : 10 ≤ lg_size (fs_log f);
  ar_cache : cache_ok V G lk (fs_inode f);
  ar_refs : ∀ k, refs (fs_inode f) k = R k;
}.
(** Entry [ip] is inode [n]. *)
Record at_entry (f : fsst) (ip n : Z) (r : inode) : Prop := {
  ae_ino : znth (fs_inode f) ip = Some r;
  ae_ref : 0 < i_ref r;
  ae_inum : i_inum r = n;
}.
Lemma at_rest_ext R R' lk f : (∀ k, R k = R' k) → at_rest R lk f → at_rest R' lk f.
Proof. intros E []. split; try done. intros k. by rewrite <- E. Qed.
Lemma at_rest_to R R' lk lk' f f' : at_rest R lk f → ftx f' V ∅ L ∅ → fsteps f f' → cache_ok V G lk' (fs_inode f') →
  (∀ k, refs (fs_inode f') k = R' k) → at_rest R' lk' f'.
Proof. intros [] T' [S _] C' Hr. split; [done|by rewrite (sp_start _ _ S)|by rewrite (sp_size _ _ S)|done|done]. Qed.
Lemma entry_at R lk f ip n r : at_rest R lk f → at_entry f ip n r → entry_ok V G (bool_decide (lk = Some ip)) r ∧ n ∈ G.
Proof.
  intros [] [H1 H2 H3]. pose proof (co_entry _ _ _ _ ar_cache0 _ _ H1 H2) as He. split; [done|]. rewrite <- H3. apply He.
Qed.

Lemma lock_step R f ip n r : at_rest R None f → at_entry f ip n r →
  ∃ f', ilock (Some ip) f = Ok tt f' ∧ fsteps f f' ∧ at_rest R (Some ip) f' ∧ at_entry f' ip n (ilocked V r) ∧
    nfree (fs_inode f') = nfree (fs_inode f).
Proof.
  intros Hs Ha. destruct (entry_at _ _ _ _ _ _ Hs Ha) as [He Hn]. rewrite bool_decide_eq_false_2 in He by done.
  pose proof Ha as [H1 H2 H3]. destruct (inode_low _ _ _ Ht n Hn) as [H0 Hlow]. pose proof (ar_start _ _ _ Hs) as Es.
  destruct (ilocked_ok V G r He) as (Hl & E1 & E2 & E3).
  destruct (ilock_ok f V ∅ L ∅ ip r (ar_tx _ _ _ Hs) H1 H2) as (f' & R1 & T1 & S1 & Ei); rewrite ?H3, ?Es; try done.
  - apply (en_dev _ _ _ _ He).
  - apply (to_geo _ _ _ Ht).
  - by rewrite union_empty_l_L.
  - apply (en_busy _ _ _ _ He).
  - right. apply (to_type _ _ _ Ht n Hn).
  - destruct (cache_same V G None (Some ip) (fs_inode f) ip r (ilocked V r) (ar_cache _ _ _ Hs)) as (C & Rf & Nf); try done.
    + by rewrite bool_decide_eq_true_2.
    + intros j Hj. split; [done|]. intros [= ->]. done.
    + rewrite <- Ei in C, Rf, Nf. exists f'. split; [done|]. split; [done|]. split; [|split; [|done]].
      * apply (at_rest_to R R None (Some ip) f f' Hs T1 S1 C). intros k. rewrite Rf. apply Hs.
      * split; [rewrite Ei; by eapply znth_zupd, znth_Some|by rewrite E1|by rewrite E3].
Qed.
Lemma unlock_step R f ip n r : at_rest R (Some ip) f → at_entry f ip n r →
  ∃ f', iunlock (Some ip) f = Ok tt f' ∧ fsteps f f' ∧ at_rest R None f' ∧ fs_inode f' = zupd ip (unbusied r) (fs_inode f) ∧
    at_entry f' ip n (unbusied r) ∧ nfree (fs_inode f') = nfree (fs_inode f).
Proof.
  intros Hs Ha. destruct (entry_at _ _ _ _ _ _ Hs Ha) as [He Hn]. rewrite bool_decide_eq_true_2 in He by done.
  pose proof Ha as [H1 H2 H3].
  destruct (iunlock_ok f V ∅ L ∅ ip r (ar_tx _ _ _ Hs) H1 H2 (en_busy _ _ _ _ He)) as (f' & R1 & T1 & S1 & Ei).
  destruct (cache_same V G (Some ip) None (fs_inode f) ip r (unbusied r) (ar_cache _ _ _ Hs)) as (C & Rf & Nf); try done.
  - rewrite bool_decide_eq_false_2 by done. by apply unbusied_ok.
  - intros j Hj. split; [intros [= ->]; done|done].
  - change (fs_inode f' = zupd ip (unbusied r) (fs_inode f)) in Ei. rewrite <- Ei in C, Rf, Nf. exists f'. do 2 (split; [done|]).
    split; [|split; [done|split; [|done]]].
    + apply (at_rest_to R R (Some ip) None f f' Hs T1 S1 C). intros k. rewrite Rf. apply Hs.
    + split; [rewrite Ei; by eapply znth_zupd, znth_Some|done|done].
Qed.
(** The state after a step that changes no block. *)
Lemma freed_step R lk f f' : at_rest R lk f → fs_log f' = fs_log (ffreed f) → ftx f' V ∅ L ∅ ∧ fsteps f f'.
Proof.
  intros Hs El. destruct (ftx_freed _ _ _ _ _ (ar_tx _ _ _ Hs)) as [T S].
  assert (E : f' = set_fs_inode (fs_inode f') (ffreed f)) by (destruct f'; simpl in *; by rewrite El). rewrite E.
  split; [by apply ftx_inodes|exact S].
Qed.
Lemma put_step R f ip n r : at_rest (bump n R) None f → at_entry f ip n r →
  ∃ f', iput ip f = Ok tt f' ∧ fsteps f f' ∧ at_rest R None f' ∧ fs_inode f' = zupd ip (set_i_ref (i_ref r - 1) r) (fs_inode f).
Proof.
  intros Hs Ha. destruct (entry_at _ _ _ _ _ _ Hs Ha) as [He Hn]. pose proof Ha as [H1 H2 H3].
  pose proof (ic_ref _ (co_cache _ _ _ _ (ar_cache _ _ _ Hs)) _ _ H1) as Hb.
  destruct (iput_entry ip r f (ftx_idle _ _ _ _ _ (ar_tx _ _ _ Hs)) H1) as (f' & R1 & El & Ei); [lia| |].
  { destruct (iflag I_VALID r) eqn:Ev; [right; right|auto]. destruct (entry_dino _ _ _ _ He Ev) as (_ & _ & _ & -> & _).
    rewrite H3. apply (to_link _ _ _ Ht n Hn). }
  destruct (freed_step _ _ _ _ Hs El) as [T1 S1].
  destruct (put_refs (fs_inode f) ip r (co_cache _ _ _ _ (ar_cache _ _ _ Hs)) H1 H2) as [Hok Hrf].
  exists f'. do 2 (split; [done|]). split; [|done]. apply (at_rest_to _ R None None f f' Hs T1 S1); rewrite Ei.
  - apply (cache_upd V G None); [apply Hs|done| |done]. intros _. by apply entry_ref.
  - intros k. rewrite Hrf, (ar_refs _ _ _ Hs), (en_dev _ _ _ _ He), H3. unfold bump. destruct (decide (k = _)); lia.
Qed.
Lemma get_step R lk f m : at_rest R lk f → m ∈ G → R (1, m) < 2 ^ 31 - 2 → nfree (fs_inode f) ≠ 0%nat →
  (∀ ip, lk = Some ip → ∃ n r, at_entry f ip n r) → ∃ f' np x y, iget 1 m f = Ok np f' ∧ fsteps f f' ∧ at_rest (bump m R) lk f' ∧ at_entry f' np m y ∧
    fs_inode f' = zupd np y (fs_inode f) ∧ znth (fs_inode f) np = Some x ∧ got 1 m x y.
Proof.
  intros Hs Hm HR Hfree Hlk. pose proof (co_cache _ _ _ _ (ar_cache _ _ _ Hs)) as Hc.
  destruct (iget_entry 1 m f (ftx_idle _ _ _ _ _ (ar_tx _ _ _ Hs)) Hc) as [(np & x & y & f' & R1 & Hx & Hg & H0 & El & Ei)|(_ & _ & Hall)].
  - by rewrite (ar_refs _ _ _ Hs).
  - destruct (freed_step _ _ _ _ Hs El) as [T1 S1].
    destruct (got_refs (fs_inode f) 1 m np x y Hc) as (Hd & Hn & Hp & Hok & Hrf); [by rewrite (ar_refs _ _ _ Hs)|done..|].
    exists f', np, x, y. do 2 (split; [done|]). split; [|split; [split; [rewrite Ei; by eapply znth_zupd, znth_Some|done|done]|done]].
    apply (at_rest_to R _ lk lk f f' Hs T1 S1); rewrite Ei.
    + apply (cache_upd V G lk); [apply Hs|done| |done]. intros _. destruct Hg as [[Hl ->]|[Hz ->]].
      * apply entry_ref, (co_entry _ _ _ _ (ar_cache _ _ _ Hs)); [done|]. by apply live_iff in Hl as [? _].
      * rewrite bool_decide_eq_false_2; [by split|]. intros E. destruct (Hlk np E) as (n' & r' & [Hr' Hp' _]). rewrite Hx in Hr'. injection Hr' as <-. lia.
    + intros k. rewrite Hrf, (ar_refs _ _ _ Hs). unfold bump. destruct (decide (k = _)); lia.
  - destruct (nfree_pos _ Hfree) as (i & x & Hx & H0). by apply Hall in Hx.
Qed.

(** A locked directory can be read. *)
Lemma locked_dino R f ip n r : at_rest R (Some ip) f → at_entry f ip n r → same_inode (dino V n) r.
Proof.
  intros Hs Ha. destruct (entry_at _ _ _ _ _ _ Hs Ha) as [He _]. rewrite bool_decide_eq_true_2 in He by done.
  rewrite <- (ae_inum _ _ _ _ Ha). apply (entry_dino _ _ _ _ He), (en_valid _ _ _ _ He). done.
Qed.
Lemma locked_dir R f ip n r : at_rest R (Some ip) f → at_entry f ip n r → is_dir V n = true →
  opened f V L ip r ∧ i_type r = T_DIR ∧ i_size r mod 16 = 0 ∧ dents V r = dents V (dino V n).
Proof.
  intros Hs Ha Hd. pose proof (locked_dino _ _ _ _ _ Hs Ha) as Hsame. destruct (entry_at _ _ _ _ _ _ Hs Ha) as [He Hn].
  destruct (to_dir _ _ _ Ht n Hn Hd) as [D1 D2 D3 _]. unfold is_dir in Hd. apply Z.eqb_eq in Hd. pose proof Hsame as (Et & _ & _ & _ & Es & _).
  split; [|split; [by rewrite Et|split; [by rewrite Es|by apply same_dents]]].
  pose proof Hs as [H1 H2 H3 H4 H5]. pose proof Ha as [A1 A2 A3]. split; rewrite ?H2, ?A3; try done.
  - apply (en_dev _ _ _ _ He).
  - by rewrite Et, Hd.
  - by eapply same_fields.
  - apply Ht.
  - by eapply same_file.
  - by apply (to_below _ _ _ Ht).
Qed.

Lemma unlockput_step R f ip n r : at_rest (bump n R) (Some ip) f → at_entry f ip n r →
  ∃ f', iunlockput ip f = Ok tt f' ∧ fsteps f f' ∧ at_rest R None f' ∧
    fs_inode f' = zupd ip (set_i_ref (i_ref r - 1) (unbusied r)) (fs_inode f).
Proof.
  intros Hs Ha. destruct (unlock_step _ _ _ _ _ Hs Ha) as (f1 & R1 & S1 & Hs1 & Ei1 & Ha1 & _).
  destruct (put_step _ _ _ _ _ Hs1 Ha1) as (f2 & R2 & S2 & Hs2 & Ei2). exists f2.
  split; [unfold iunlockput; by rewrite (bind_ok _ _ _ _ _ R1)|]. split; [by etrans|]. split; [done|]. by rewrite Ei2, Ei1, zupd_zupd.
Qed.

(** Besides the entry held there is room for one more, also after it is dropped. *)
Definition lone (x : inode) : nat := if decide (i_ref x = 1) then 1 else 0.
Definition slack (f : fsst) (r : inode) : Prop := (2 ≤ nfree (fs_inode f) + lone r)%nat.
Lemma slack_got l ip r np x y : znth l ip = Some r → 0 < i_ref r → znth l np = Some x → 0 ≤ i_ref x →
  got 1 (i_inum y) x y → (2 ≤ nfree l + lone r)%nat →
  let r' := if decide (np = ip) then y else r in let l' := zupd ip (set_i_ref (i_ref r' - 1) (unbusied r')) (zupd np y l) in
  ∃ z, znth l' np = Some z ∧ 0 < i_ref z ∧ i_inum z = i_inum y ∧ (2 ≤ nfree l' + lone z)%nat.
Proof.
  intros Hr Hp Hx Hx0 Hg Hs r' l'. pose proof (znth_Some _ _ _ Hr). pose proof (znth_Some _ _ _ Hx). unfold l', r'. clear l' r'.
  destruct (decide (np = ip)) as [->|Hne].
  - rewrite Hr in Hx. injection Hx as <-. rewrite zupd_zupd. destruct Hg as [[_ ->]|[? _]]; [|lia].
    eexists. split; [by apply znth_zupd|]. simpl. replace (i_ref r + 1 - 1) with (i_ref r) by lia.
    pose proof (nfree_zupd l ip r (set_i_ref (i_ref r) (unbusied (set_i_ref (i_ref r + 1) r))) Hr) as Hn. unfold unused in Hn. unfold lone in *. simpl in *.
    split; [done|]. split; [done|]. destruct (decide (i_ref r = 0)); lia.
  - exists y. rewrite znth_zupd_ne by done. split; [by apply znth_zupd|].
    assert (Hr' : znth (zupd np y l) ip = Some r) by (by rewrite znth_zupd_ne).
    pose proof (nfree_zupd _ _ _ (set_i_ref (i_ref r - 1) (unbusied r)) Hr') as H1. pose proof (nfree_zupd l np x y Hx) as H2.
    unfold unused, lone in *. simpl in *. assert (Hy : 0 < i_ref x ∧ i_ref y = i_ref x + 1 ∨ i_ref x = 0 ∧ i_ref y = 1).
    { destruct Hg as [[Hl%live_iff ->]|[Hz E]]; [left; simpl; lia|right]. by rewrite E. }
    repeat destruct (decide _); lia.
Qed.
Lemma next_step R f ip n r m : at_rest (bump n R) (Some ip) f → at_entry f ip n r → slack f r → m ∈ G → (∀ k, R k < 2 ^ 31 - 3) →
  ∃ f1 np f2 y, iget 1 m f = Ok np f1 ∧ iunlockput ip f1 = Ok tt f2 ∧ fsteps f f2 ∧
    at_rest (bump m R) None f2 ∧ at_entry f2 np m y ∧ slack f2 y.
Proof.
  intros Hs Ha Hsl Hm HR. pose proof Ha as [A1 A2 A3].
  destruct (get_step (bump n R) (Some ip) f m Hs Hm) as (f1 & np & x & y & R1 & S1 & Hs1 & Ha1 & Ei1 & Hx & Hg).
  - unfold bump. specialize (HR (1, m)). destruct (decide _); lia.
  - unfold slack, lone in Hsl. destruct (decide _); lia.
  - intros ? [= <-]. by exists n, r.
  - pose proof (ic_ref _ (co_cache _ _ _ _ (ar_cache _ _ _ Hs)) _ _ Hx) as [Hx0 _].
    rewrite <- (ae_inum _ _ _ _ Ha1) in Hg.
    destruct (slack_got _ _ _ _ _ _ A1 A2 Hx Hx0 Hg Hsl) as (z & Hz & Hzp & Hzn & Hzs). set (r' := if decide (np = ip) then y else r) in *.
    assert (Ha' : at_entry f1 ip n r').
    { unfold r'. pose proof (znth_Some _ _ _ Hx). destruct (decide (np = ip)) as [->|Hne].
      - rewrite A1 in Hx. injection Hx as <-. split; [rewrite Ei1; by apply znth_zupd|apply Ha1|]. destruct Hg as [[_ ->]|[? _]]; [done|lia].
      - split; [by rewrite Ei1, znth_zupd_ne|done|done]. }
    apply (at_rest_ext _ _ _ _ (bump_comm m n R)) in Hs1. destruct (unlockput_step _ _ _ _ _ Hs1 Ha') as (f2 & R2 & S2 & Hs2 & Ei2).
    exists f1, np, f2, z. do 2 (split; [done|]). split; [by etrans|]. split; [done|]. rewrite Ei1 in Ei2. unfold slack. rewrite Ei2.
    split; [|done]. split; [by rewrite Ei2|done|]. rewrite Hzn. apply Ha1.
Qed.
End walk.

(** * Elements and names *)

Definition path_bytes (p : list Z) : Prop := Forall (λ c, 0 < c < 256) p.
Lemma path_bytes_nul p : path_bytes p → 0 ∉ p.
Proof. intros H Hin. unfold path_bytes in H. rewrite Forall_forall in H. specialize (H 0 Hin). lia. Qed.
Lemma pieces_bytes p : ∀ cur, path_bytes cur → path_bytes p → Forall path_bytes (pieces cur p).
Proof.
  induction p as [|c p IH]; intros cur Hc Hp; cbn [pieces].
  - case_bool_decide; [apply Forall_nil_2|by apply Forall_singleton].
  - apply Forall_cons in Hp as [H1 H2]. destruct (c =? SLASH).
    { pose proof (IH [] (Forall_nil_2 _) H2). case_bool_decide; [done|by constructor]. }
    apply IH; [|done]. apply Forall_app_2; [done|by apply Forall_singleton].
Qed.
Lemma skip_slashes_suffix p : skip_slashes p `suffix_of` p.
Proof. induction p as [|c p IH]; simpl; [done|]. destruct (_ =? _); [by apply suffix_cons_r|done]. Qed.
Lemma skipelem_suffix p name rest name' : skipelem p name = Some (rest, name') → rest `suffix_of` p.
Proof.
  unfold skipelem. pose proof (skip_slashes_suffix p) as Hs. destruct (skip_slashes p) as [|c q] eqn:E; [done|].
  destruct (take_elem_path (c :: q)) as [e rest1] eqn:Et. destruct (take_elem_pieces (c :: q) [] e rest1 Et) as (Ecq & _).
  intros [= <- _]. etrans; [apply skip_slashes_suffix|]. etrans; [|exact Hs]. rewrite Ecq. by exists e.
Qed.
(** The name [skipelem] stores is the one [dirlookup] compares. *)
Lemma dname_str l e : length l = 14%nat → path_bytes e → str_of l = e → dname l = e.
Proof.
  intros Hl He Hs. unfold dname. rewrite take_ge by lia. revert e He Hs. clear Hl. induction l as [|c l IH]; intros e He Hs; [done|].
  cbn [str_of fmap list_fmap] in *. destruct (Z.eqb_spec c 0) as [->|Hc]; [by subst e|]. subst e. apply Forall_cons in He as [Hc' He].
  assert (u8 c = c) as -> by (unfold u8; rewrite Z.mod_small; lia). destruct (Z.eqb_spec c 0); [done|]. f_equal. by apply IH.
Qed.

(** * The loop *)

(** What [namex] looks for: the inode of the path, or of its last directory. *)
Definition target (V : Z → list Z) (parent : bool) (n : Z) (es : list (list Z)) : option Z :=
  if parent then fst <$> resolve_parent V n es else resolve V n es.
Lemma target_cons V parent n e es : target V parent n (e :: es) =
  if is_dir V n then if parent && bool_decide (es = []) then Some n else child V n (elem_name e) ≫= λ m, target V parent m es else None.
Proof.
  destruct parent; [|by cbn]. unfold target. destruct es as [|e' es].
  - rewrite bool_decide_eq_true_2 by done. unfold resolve_parent. cbn. by destruct (is_dir V n).
  - rewrite resolve_parent_cons, bool_decide_eq_false_2 by done. cbn [andb]. destruct (is_dir V n); [|done].
    by destruct (child V n (elem_name e)).
Qed.

Section loop.
Context {WF : WaitFuel} {S : Type} `{LF : Lens S fsst} {DS : Devsw S}.
Context (V : Z → list Z) (start : Z) (G : gset Z) (Ht : tree_ok V start G) (L : gset Z) (Hsz : (size L < 10)%nat).
Context (R : Z * Z → Z) (HR : ∀ k, R k < 2 ^ 31 - 3) (parent : bool).
Implicit Types s : S.

Lemma zoom_at {A} (m : M fsst A) s f a f' : m f = Ok a f' → (zoom m : M S A) (lset f s) = Ok a (lset f' s).
Proof. intros H. rewrite (zoom_ok m (lset f s) a f'); [by rewrite lset_lset|by rewrite lget_lset]. Qed.

(** How a walk ends: with one reference to the inode found, or with none. *)
Definition ends (es : list (list Z)) (n : Z) (f0 : fsst) (s : S) (out : res S (option Z * list Z)) : Prop :=
  match target V parent n es with
  | Some m => ∃ jp x nm f, out = Ok (Some jp, nm) (lset f s) ∧ fsteps f0 f ∧ at_rest V start G L (bump m R) None f ∧ at_entry f jp m x ∧
      (parent = true → ∃ e, last es = Some e ∧ str_of nm = elem_name e ∧ length nm = 14%nat)
  | None => ∃ nm f, out = Ok (None, nm) (lset f s) ∧ fsteps f0 f ∧ at_rest V start G L R None f
  end.

Lemma scanned_step lk f f' ip n r : at_rest V start G L (bump n R) lk f → at_entry f ip n r → slack f r → scanned V L ip r f f' →
  at_rest V start G L (bump n R) lk f' ∧ at_entry f' ip n r ∧ slack f' r.
Proof.
  intros Hs Ha Hsl (Ho & St & Ei). split; [|split; [|by unfold slack; rewrite Ei]].
  - apply (at_rest_to V start G L _ _ lk lk f f' Hs (op_tx _ _ _ _ _ Ho) St); rewrite Ei; apply Hs.
  - destruct Ha. split; [by rewrite Ei|done|done].
Qed.

(** The path has no more elements. *)
Lemma namex_end name f s ip n r : at_rest V start G L (bump n R) None f → at_entry f ip n r →
  ends [] n f s ((if parent then zoom (iput ip) ;; ret (None, name) else ret (Some ip, name)) (lset f s)).
Proof.
  intros Hs Ha. unfold ends. destruct parent.
  - destruct (put_step V start G Ht L Hsz _ _ _ _ _ Hs Ha) as (f' & R1 & S1 & Hs1 & _). exists name, f'.
    by rewrite (bind_ok _ _ _ _ _ (zoom_at _ _ _ _ _ R1)).
  - by exists ip, r, name, f.
Qed.
(** One round of the loop. *)
Lemma namex_round fuel e es rest nm f s ip n r :
  (∀ f s ip n r, at_rest V start G L (bump n R) None f → at_entry f ip n r → slack f r →
     ends es n f s (namex_loop fuel rest nm parent ip (lset f s))) →
  dname nm = elem_name e → str_of nm = elem_name e → length nm = 14%nat → (rest = [] ↔ es = []) →
  at_rest V start G L (bump n R) None f → at_entry f ip n r → slack f r →
  ends (e :: es) n f s ((zoom (ilock (Some ip)) ;;
    let* r := zoom (get_inode ip) in
    if negb (i_type r =? T_DIR) then zoom (iunlockput ip) ;; ret (None, nm)
    else if parent && bool_decide (rest = []) then zoom (iunlock (Some ip)) ;; ret (Some ip, nm)
    else let* next := dirlookup ip nm in
         match next with
         | None => zoom (iunlockput ip) ;; ret (None, nm)
         | Some (next, _) => zoom (iunlockput ip) ;; namex_loop fuel rest nm parent next
         end) (lset f s)).
Proof.
  intros IH Hdn Hnm Hlen Hend Hs Ha Hsl.
  destruct (lock_step V start G Ht L Hsz _ _ _ _ _ Hs Ha) as (f1 & R1 & S1 & Hs1 & Ha1 & Nf1). set (r1 := ilocked V r) in *.
  assert (Hsl1 : slack f1 r1) by (unfold slack, lone in *; rewrite Nf1; unfold r1, ilocked; by destruct (iflag I_VALID r)).
  rewrite (bind_ok _ _ _ _ _ (zoom_at _ s _ _ _ R1)). rewrite (bind_ok _ _ _ _ _ (zoom_inode (lset f1 s) ip r1 ltac:(rewrite lget_lset; apply Ha1))).
  assert (Ety : (i_type r1 =? T_DIR) = is_dir V n) by (destruct (locked_dino V start G L _ _ _ _ _ Hs1 Ha1) as (E & _); unfold is_dir; by rewrite E).
  unfold ends. rewrite Ety, target_cons. destruct (is_dir V n) eqn:Ed; cbn [negb].
  2: { destruct (unlockput_step V start G Ht L Hsz _ _ _ _ _ Hs1 Ha1) as (f2 & R2 & S2 & Hs2 & _). exists nm, f2.
       rewrite (bind_ok _ _ _ _ _ (zoom_at _ s _ _ _ R2)). split; [done|]. split; [by etrans|done]. }
  rewrite (bool_decide_ext (rest = []) (es = []) Hend). destruct (parent && bool_decide (es = [])) eqn:Elast.
  { apply andb_true_iff in Elast as [_ ->%bool_decide_eq_true].
    destruct (unlock_step V start G L _ _ _ _ _ Hs1 Ha1) as (f2 & R2 & S2 & Hs2 & _ & Ha2 & _). exists ip, (unbusied r1), nm, f2.
    rewrite (bind_ok _ _ _ _ _ (zoom_at _ s _ _ _ R2)). split; [done|]. split; [by etrans|]. split; [done|]. split; [done|].
    intros _. by exists e. }
  destruct (locked_dir V start G Ht L _ _ _ _ _ Hs1 Ha1 Ed) as (Ho & Hty & Hmod & Hdents).
  destruct (dirlookup_ok V L ip r1 Hsz (lset f1 s) nm) as (f2 & Sc & E2); [by rewrite lget_lset|done|done|unfold zlen; lia|].
  rewrite lget_lset in Sc. rewrite lset_lset in E2. destruct (scanned_step _ _ _ _ _ _ Hs1 Ha1 Hsl1 Sc) as (Hs2 & Ha2 & Hsl2).
  rewrite Hdents, Hdn in E2. pose proof Sc as (_ & S2 & _). unfold child, dmap.
  destruct (list_find (is_entry (elem_name e)) (dents V (dino V n))) as [[i x]|] eqn:Ef; cbn [fmap option_fmap option_map mbind option_bind snd].
  - assert (Hm : dinum x ∈ G).
    { destruct (entry_at V start G L _ _ _ _ _ _ Hs Ha) as [_ Hn]. apply (do_closed _ _ _ _ (to_dir _ _ _ Ht n Hn Ed) (elem_name e)). unfold child, dmap. by rewrite Ef. }
    destruct (next_step V start G Ht L Hsz _ _ _ _ _ _ Hs2 Ha2 Hsl2 Hm HR) as (f3 & np & f4 & y & R3 & R4 & S4 & Hs4 & Ha4 & Hsl4).
    rewrite (bind_ok _ _ _ (Some (np, 16 * Z.of_nat i)) (lset f3 s)).
    2: { rewrite E2. by rewrite (bind_ok _ _ _ _ _ (zoom_at _ s _ _ _ R3)). }
    rewrite (bind_ok _ _ _ _ _ (zoom_at _ s _ _ _ R4)). specialize (IH f4 s np (dinum x) y Hs4 Ha4 Hsl4). unfold ends in IH.
    assert (S04 : fsteps f f4) by (by do 2 (etrans; [eassumption|])).
    destruct (target V parent (dinum x) es) as [m|].
    + destruct IH as (jp & z & nm' & f5 & E5 & S5 & H5 & A5 & N5). exists jp, z, nm', f5. split; [done|]. split; [by etrans|].
      split; [done|]. split; [done|]. intros Hp. destruct (N5 Hp) as (e' & El & N5'). exists e'. split; [|done].
      destruct es; [done|]. by rewrite last_cons_cons.
    + destruct IH as (nm' & f5 & E5 & S5 & H5). exists nm', f5. split; [done|]. split; [by etrans|done].
  - rewrite (bind_ok _ _ _ _ _ E2). destruct (unlockput_step V start G Ht L Hsz _ _ _ _ _ Hs2 Ha2) as (f3 & R3 & S3 & Hs3 & _).
    exists nm, f3. rewrite (bind_ok _ _ _ _ _ (zoom_at _ s _ _ _ R3)). split; [done|]. split; [by do 2 (etrans; [eassumption|])|done].
Qed.

Lemma namex_loop_ok fuel : ∀ path name f s ip n r, (length path ≤ fuel)%nat → length name = 14%nat → path_bytes path →
  at_rest V start G L (bump n R) None f → at_entry f ip n r → slack f r →
  ends (path_elems path) n f s (namex_loop fuel path name parent ip (lset f s)).
Proof.
  induction fuel as [|fuel IH]; intros path name f s ip n r Hf Hn Hb Hs Ha Hsl;
    pose proof (skipelem_spec path name Hn (path_bytes_nul _ Hb)) as Hsk; pose proof (skipelem_suffix path name) as Hsuf;
    cbn [namex_loop]; destruct (skipelem path name) as [[rest nm]|].
  - destruct Hsk as (_ & _ & _ & _ & _ & _ & _ & Hlt). lia.
  - rewrite Hsk. by eapply namex_end.
  - destruct Hsk as (e & es & Ep & Er & Hnm & Hlen & Hend & Hlt). rewrite Ep. rewrite Hn in Hlen.
    assert (Hrb : path_bytes rest) by (destruct (Hsuf _ _ eq_refl) as [pre E]; rewrite E in Hb; by apply Forall_app in Hb as [_ ?]).
    assert (Heb : path_bytes (elem_name e)).
    { pose proof (pieces_bytes path [] (Forall_nil_2 _) Hb) as Hall. change (pieces [] path) with (path_elems path) in Hall.
      rewrite Ep in Hall. apply Forall_cons in Hall as [He _]. by apply Forall_take. }
    apply (namex_round fuel e es rest nm f s ip n r); [|by apply dname_str|done..]. intros. rewrite <- Er. apply (IH rest nm _ _ _ _ r0); (done || lia).
  - rewrite Hsk. by eapply namex_end.
Qed.
End loop.

(** * Theorems *)

(** The tree [G] of the disk [V] in a transaction that has logged [L]: nobody has an
    inode of it locked, and the cache has two unused entries. *)
Record fs_ready (f : fsst) (V : Z → list Z) (G L : gset Z) : Prop := {
  fr_tx : ftx f V ∅ L ∅;
  fr_room : (size L < 10)%nat;
  fr_log : 10 ≤ lg_size (fs_log f);
  fr_tree : tree_ok V (lg_start (fs_log f)) G;
  fr_root : ROOTINO ∈ G;
  fr_cache : cache_ok V G None (fs_inode f);
  fr_free : (2 ≤ nfree (fs_inode f))%nat;
  fr_refs : ∀ k, refs (fs_inode f) k < 2 ^ 31 - 3;
}.
(** The same file system with one more reference, to the inode found. *)
Record fs_found (f0 f : fsst) (V : Z → list Z) (G L : gset Z) (found : option Z) : Prop := {
  ff_tx : ftx f V ∅ L ∅;
  ff_steps : fsteps f0 f;
  ff_cache : cache_ok V G None (fs_inode f);
  ff_refs : ∀ k, refs (fs_inode f) k = refs (fs_inode f0) k + if decide (Some k = pair 1 <$> found) then 1 else 0;
}.
(** The inode a path starts from. *)
Definition cwd_is (f : fsst) (n : Z) : Prop :=
  ∃ c p w r, b_cur (fs_base f) = Some c ∧ znth (b_procs (fs_base f)) c = Some p ∧ p_cwd p = Some w ∧ at_entry f w n r.
Definition starts_at (f : fsst) (path : list Z) (n : Z) : Prop :=
  match path with c :: _ => if c =? SLASH then n = ROOTINO else cwd_is f n | [] => cwd_is f n end.

Section theorems.
Context {WF : WaitFuel} {S : Type} `{LF : Lens S fsst} {DS : Devsw S}.
Implicit Types s : S.

Lemma ready_rest f V G L : fs_ready f V G L → at_rest V (lg_start (fs_log f)) G L (refs (fs_inode f)) None f.
Proof. intros []. by split. Qed.
Lemma rest_found f0 f V start G L m : fsteps f0 f → at_rest V start G L (bump m (refs (fs_inode f0))) None f → fs_found f0 f V G L (Some m).
Proof.
  intros Hst []. split; try done. intros k. rewrite ar_refs0. unfold bump. cbn [fmap option_fmap option_map].
  f_equal. destruct (decide (k = (1, m))) as [->|Hk]; [by rewrite decide_True|]. rewrite decide_False; [done|]. congruence.
Qed.
Lemma rest_none f0 f V start G L : fsteps f0 f → at_rest V start G L (refs (fs_inode f0)) None f → fs_found f0 f V G L None.
Proof. intros Hst []. split; try done. intros k. rewrite ar_refs0, decide_False by done. lia. Qed.

Lemma root_step f V G L : fs_ready f V G L →
  ∃ f' ip r, iget ROOTDEV ROOTINO f = Ok ip f' ∧ fsteps f f' ∧
    at_rest V (lg_start (fs_log f)) G L (bump ROOTINO (refs (fs_inode f))) None f' ∧ at_entry f' ip ROOTINO r ∧ slack f' r.
Proof.
  intros Hr. pose proof (fr_free _ _ _ _ Hr) as Hfree. pose proof (fr_refs _ _ _ _ Hr (1, ROOTINO)) as Hlt.
  destruct (get_step V _ G L (fr_room _ _ _ _ Hr) _ None f ROOTINO (ready_rest _ _ _ _ Hr) (fr_root _ _ _ _ Hr))
    as (f' & ip & x & y & R1 & S1 & Hs1 & Ha1 & Ei & Hx & Hg); [lia|lia|done|].
  exists f', ip, y. do 4 (split; [done|]). unfold slack. rewrite Ei. pose proof (nfree_zupd _ _ _ y Hx) as Hn.
  unfold unused, lone in *. destruct Hg as [[Hl%live_iff ->]|[Hz ->]]; simpl in *; repeat destruct (decide _); lia.
Qed.
Lemma idup_step f V G L w n r : fs_ready f V G L → at_entry f w n r →
  ∃ f', idup w f = Ok w f' ∧ fsteps f f' ∧ at_rest V (lg_start (fs_log f)) G L (bump n (refs (fs_inode f))) None f' ∧
    at_entry f' w n (set_i_ref (i_ref r + 1) r) ∧ slack f' (set_i_ref (i_ref r + 1) r).
Proof.
  intros Hr Ha. pose proof Ha as [A1 A2 A3]. pose proof (ready_rest _ _ _ _ Hr) as Hs. destruct (entry_at _ _ _ _ _ _ _ _ _ _ Hs Ha) as [He Hn].
  pose proof (ftx_idle _ _ _ _ _ (fr_tx _ _ _ _ Hr)) as Hi. pose proof (co_cache _ _ _ _ (fr_cache _ _ _ _ Hr)) as Hc.
  assert (Hl : live (1, n) r = true) by (apply live_iff; split; [done|split; [apply He|done]]).
  pose proof (refs_live _ _ _ _ Hc A1 Hl) as Er. pose proof (fr_refs _ _ _ _ Hr (1, n)) as Hlt.
  set (y := set_i_ref (i_ref r + 1) r). set (f' := ffreed (set_fs_inode (zupd w y (fs_inode f)) f)).
  assert (R1 : idup w f = Ok w f').
  { unfold idup. rewrite (bind_ok _ _ _ _ _ (facquire f Hi)), (bind_ok _ _ _ _ _ (upd_inode_ok (flocked f) w r _ A1)), s32_small by lia.
    by rewrite (bind_ok _ _ _ _ _ (frelease _ (fidle_inodes (zupd w y (fs_inode f)) f Hi))). }
  destruct (got_refs (fs_inode f) 1 n w r y Hc) as (_ & _ & Hp & Hok & Hrf); [lia|done|by left|lia|].
  destruct (freed_step V _ G L _ _ f f' Hs eq_refl) as [T1 S1]. exists f'. do 2 (split; [done|]). split; [|split].
  - apply (at_rest_to V _ G L _ _ None None f f' Hs T1 S1).
    + apply (cache_upd V G None); [apply Hr|done| |done]. intros _. by apply entry_ref.
    + intros k. change (fs_inode f') with (zupd w y (fs_inode f)). rewrite Hrf. unfold bump. destruct (decide (k = _)); lia.
  - split; [by eapply znth_zupd, znth_Some|done|done].
  - unfold slack. change (fs_inode f') with (zupd w y (fs_inode f)). pose proof (nfree_zupd _ _ _ y A1) as Hz. pose proof (fr_free _ _ _ _ Hr).
    unfold unused in Hz. simpl in Hz. repeat destruct (decide _); lia.
Qed.
(** [iget] of the root, or [idup] of the current directory. *)
Lemma begin_step f V G L n path : fs_ready f V G L → starts_at f path n →
  ∃ f' ip r, (match path with
    | c :: _ => if c =? SLASH then iget ROOTDEV ROOTINO else
                let* cur := zoom myproc in let* p := zoom (get_proc cur) in let* cwd := must "proc->cwd" (p_cwd p) in idup cwd
    | [] => let* cur := zoom myproc in let* p := zoom (get_proc cur) in let* cwd := must "proc->cwd" (p_cwd p) in idup cwd
    end) f = Ok ip f' ∧ fsteps f f' ∧ at_rest V (lg_start (fs_log f)) G L (bump n (refs (fs_inode f))) None f' ∧ at_entry f' ip n r ∧ slack f' r.
Proof.
  intros Hr Hst. assert (Hcwd : cwd_is f n → ∃ f' ip r, (let* cur := zoom myproc in let* p := zoom (get_proc cur) in
      let* cwd := must "proc->cwd" (p_cwd p) in idup cwd) f = Ok ip f' ∧ fsteps f f' ∧
      at_rest V (lg_start (fs_log f)) G L (bump n (refs (fs_inode f))) None f' ∧ at_entry f' ip n r ∧ slack f' r).
  { intros (c & p & w & r & Hc & Hp & Hw & Ha). destruct (idup_step f V G L w n r Hr Ha) as (f' & R1 & H1). exists f', w, (set_i_ref (i_ref r + 1) r).
    split; [|done]. assert (Hz : ∀ A (m : M base A) a, m (fs_base f) = Ok a (fs_base f) → (zoom m : M fsst A) f = Ok a f).
    { intros A m a Hm. etrans; [apply (zoom_ok (S:=fsst) (A:=base) m f a (fs_base f)), Hm|]. f_equal. exact (lset_lget (S:=fsst) (A:=base) f). }
    rewrite (bind_ok _ _ _ _ _ (Hz _ _ _ (myproc_ok _ _ Hc))), (bind_ok _ _ _ _ _ (Hz _ _ _ (get_proc_ok _ _ _ Hp))), Hw. exact R1. }
  unfold starts_at in Hst. destruct path as [|c path]; [by apply Hcwd|]. destruct (c =? SLASH); [|by apply Hcwd]. subst n. by apply root_step.
Qed.
Lemma namex_ok s V G L path name parent n : fs_ready (lget s) V G L → starts_at (lget s) path n → path_bytes path → length name = 14%nat →
  ends V (lg_start (fs_log (lget s))) G L (refs (fs_inode (lget s))) parent (path_elems path) n (lget s) s (namex path parent name s).
Proof.
  intros Hr Hst Hb Hn. destruct (begin_step _ _ _ _ _ _ Hr Hst) as (f & ip & r & R1 & S1 & Hs & Ha & Hsl).
  pose proof (namex_loop_ok V _ G (fr_tree _ _ _ _ Hr) L (fr_room _ _ _ _ Hr) _ (fr_refs _ _ _ _ Hr) parent (length path) path name f s ip n r
    ltac:(lia) Hn Hb Hs Ha Hsl) as H.
  unfold namex. rewrite (bind_ok _ _ _ ip (lset f s)); [|by apply zoom_ok]. unfold ends in *. destruct (target V parent n (path_elems path)).
  - destruct H as (jp & x & nm & f' & E & S2 & H). exists jp, x, nm, f'. split; [done|]. split; [by etrans|done].
  - destruct H as (nm & f' & E & S2 & H). exists nm, f'. split; [done|]. split; [by etrans|done].
Qed.

(** C3: [namei] is path resolution: it returns the cache entry of the inode the
    elements of the path lead to, directory by directory, from the root or from the
    current directory, and null when one of them is missing or is looked up in
    something that is not a directory.  It takes one reference to the inode it
    returns and keeps none to the directories it went through, and changes no block;
    two unused entries of the inode cache are enough for any path. *)
Theorem namei_spec s V G L path n : fs_ready (lget s) V G L → starts_at (lget s) path n → path_bytes path →
  match resolve V n (path_elems path) with
  | Some m => ∃ ip x f, namei path s = Ok (Some ip) (lset f s) ∧ at_entry f ip m x ∧ fs_found (lget s) f V G L (Some m)
  | None => ∃ f, namei path s = Ok None (lset f s) ∧ fs_found (lget s) f V G L None
  end.
Proof.
  intros Hr Hst Hb. pose proof (namex_ok s V G L path (replicate (Z.to_nat DIRSIZ) 0) false n Hr Hst Hb eq_refl) as H.
  unfold ends, target in H. unfold namei. destruct (resolve V n (path_elems path)) as [m|].
  - destruct H as (jp & x & nm & f & E & St & Hs & Ha & _). exists jp, x, f. rewrite (bind_ok _ _ _ _ _ E).
    split; [done|]. split; [done|]. by eapply rest_found.
  - destruct H as (nm & f & E & St & Hs). exists f. rewrite (bind_ok _ _ _ _ _ E). split; [done|]. by eapply rest_none.
Qed.
(** C15: [nameiparent] returns the directory in which the last element of the path
    is to be looked up, with one reference, and that element in [name], cut at
    [DIRSIZ] bytes; null when the path has no elements or an earlier one does not
    lead to a directory. *)
Theorem nameiparent_spec s V G L path name n : fs_ready (lget s) V G L → starts_at (lget s) path n → path_bytes path → length name = 14%nat →
  match resolve_parent V n (path_elems path) with
  | Some (m, e) => ∃ ip x name' f, nameiparent path name s = Ok (Some ip, name') (lset f s) ∧ at_entry f ip m x ∧
      str_of name' = e ∧ fs_found (lget s) f V G L (Some m)
  | None => ∃ name' f, nameiparent path name s = Ok (None, name') (lset f s) ∧ fs_found (lget s) f V G L None
  end.
Proof.
  intros Hr Hst Hb Hn. pose proof (namex_ok s V G L path name true n Hr Hst Hb Hn) as H.
  unfold ends, target in H. unfold nameiparent. destruct (resolve_parent V n (path_elems path)) as [[m e]|] eqn:Er; cbn [fmap option_fmap option_map fst] in H.
  - destruct H as (jp & x & nm & f & E & St & Hs & Ha & Hnm). exists jp, x, nm, f. split; [done|]. split; [done|].
    split; [|by eapply rest_found]. destruct (Hnm eq_refl) as (e' & El & -> & _). unfold resolve_parent in Er. rewrite El in Er. cbn in Er.
    destruct (resolve V n _) as [m'|]; [|done]. cbn in Er. destruct (is_dir V m'); by simplify_eq.
  - destruct H as (nm & f & E & St & Hs). exists nm, f. split; [done|]. by eapply rest_none.
Qed.
End theorems.

(** ** Witnesses *)

(** A file of at most one block. *)
Lemma one_block V start r a : fsgeo V start → i_addrs r = a :: replicate 12 0 → 0 < i_size r ≤ 512 → a ≠ 0 → isdata V start a → file_ok V start r.
Proof.
  intros Hg Ea Hs Ha Hd. assert (Hind : ind r = 0) by (unfold ind, baddr; by rewrite Ea).
  assert (Hf : ∀ bn, 0 ≤ bn → fblk V r bn = if bn =? 0 then a else 0).
  { intros bn Hbn. unfold fblk. rewrite Hind. cbn [Z.eqb]. destruct (Z.eqb_spec bn 0) as [->|Hne]; [unfold baddr; by rewrite Ea|].
    destruct (Z.ltb_spec bn 12); [|done]. unfold baddr. rewrite Ea. unfold znth. rewrite (proj2 (Z.leb_le 0 bn)) by lia.
    destruct (Z.to_nat bn) as [|k] eqn:E; [lia|]. change ((a :: replicate 12 0) !! S k) with (replicate 12 0 !! k).
    destruct (replicate 12 0 !! k) as [z|] eqn:Ez; [|done]. by apply lookup_replicate in Ez as [-> _]. }
  split; [by rewrite Ea|lia| |by rewrite Hind| |by rewrite Hind|].
  - intros bn Hbn. rewrite Hf by lia. by destruct (bn =? 0).
  - intros b b' Hb Hb'. rewrite !Hf by lia. destruct (Z.eqb_spec b 0), (Z.eqb_spec b' 0); (lia || done).
  - intros bn Hbn Hlt. rewrite Hf by lia. destruct (Z.eqb_spec bn 0); [done|lia].
Qed.

#[local] Existing Instance no_devices.
#[local] Instance path_fuel_wait : WaitFuel := 0%nat.
(** A disk with the directories [/] and [/usr] and the file [/usr/cat]. *)
Definition tree_inodes : list Z :=
  put_dinode 192 (Inode 0 0 0 0 2 0 0 1 0 (replicate 13 0))
    (put_dinode 128 (Inode 0 0 0 0 1 0 0 1 16 (20 :: replicate 12 0))
      (put_dinode 64 (Inode 0 0 0 0 1 0 0 1 16 (19 :: replicate 12 0)) (replicate 512 0))).
Definition tree_img : list (list Z) :=
  zupd 20 (splice 0 (dirent_bytes (chars "cat") 3) (replicate 512 0))
    (zupd 19 (splice 0 (dirent_bytes (chars "usr") 2) (replicate 512 0)) (demo_image tree_inodes 21)).
Definition tree_set : gset Z := {[1; 2; 3]}.
Lemma tree_img_ok : disk_ok tree_img 45 15 ∧ committed tree_img 45 15 [].
Proof.
  split.
  - split; try (vm_compute; done). by apply blocks512.
  - split; [|by intros v ?%elem_of_nil|apply NoDup_nil_2|vm_compute; done].
    split; [vm_compute; done|]. split; [vm_compute; done|]. split; [simpl; lia|done].
Qed.
Lemma tree_bm b : 0 ≤ b < 60 → bmblock (blk tree_img) b = 4.
Proof. intros Hb. unfold bmblock. rewrite Z.div_small by lia. vm_compute. done. Qed.
Lemma tree_fsgeo : fsgeo (blk tree_img) 45.
Proof.
  split; [lia|vm_compute; split; discriminate|vm_compute; discriminate| |]; change (sbsize (blk tree_img)) with 60.
  - intros b Hb. rewrite tree_bm by done. lia.
  - intros b Hb Hu b' Hb'. rewrite tree_bm by done. destruct (Z.le_gt_cases b 4); [|lia].
    assert (b = 0 ∨ b = 1 ∨ b = 2 ∨ b = 3 ∨ b = 4) as Hc by lia. by destruct Hc as [->|[->|[->|[->| ->]]]].
Qed.
Lemma tree_members n : n ∈ tree_set → n = 1 ∨ n = 2 ∨ n = 3.
Proof. unfold tree_set. set_solver. Qed.
Lemma child_in V n nm m (G : gset Z) : Forall (λ e, dinum e ∈ G) (dents V (dino V n)) → child V n nm = Some m → m ∈ G.
Proof.
  intros HF Hc. unfold child, dmap in Hc. destruct (list_find _ _) as [[i e]|] eqn:E; simplify_eq/=.
  apply list_find_Some in E as (Hi & _). rewrite Forall_forall in HF. apply HF. by eapply list_elem_of_lookup_2.
Qed.
Lemma tree_dir n a : i_addrs (dino (blk tree_img) n) = a :: replicate 12 0 → i_size (dino (blk tree_img) n) = 16 →
  i_type (dino (blk tree_img) n) = 1 → i_major (dino (blk tree_img) n) = 0 → i_minor (dino (blk tree_img) n) = 0 → i_nlink (dino (blk tree_img) n) = 1 →
  a = 19 ∨ a = 20 → Forall (λ e, dinum e ∈ tree_set) (dents (blk tree_img) (dino (blk tree_img) n)) → dir_ok (blk tree_img) 45 tree_set n.
Proof.
  intros Ea Es E1 E2 E3 E4 Ha HF. split; [| |by rewrite Es|intros nm m; by apply child_in].
  - split; rewrite ?E1, ?E2, ?E3, ?E4, ?Es; try lia; [by rewrite Ea|]. rewrite Ea. intros i z Hz. unfold znth in Hz. destruct (0 <=? i); [|done].
    apply list_elem_of_lookup_2, elem_of_cons in Hz as [->|Hz]; [lia|]. apply elem_of_replicate in Hz as [-> _]. lia.
  - apply (one_block _ _ _ a tree_fsgeo Ea); [lia|lia|]. split; change (sbsize (blk tree_img)) with 60; [lia|lia| |intros b Hb; rewrite tree_bm by done; lia].
    destruct Ha as [->| ->]; vm_compute; reflexivity.
Qed.
Lemma tree_tree : tree_ok (blk tree_img) 45 tree_set.
Proof.
  split; [apply tree_fsgeo| | | |]; intros n Hn%tree_members.
  - split; [lia|]. split; [vm_compute; reflexivity|]. change (sbsize (blk tree_img)) with 60. intros b Hb. rewrite tree_bm by done.
    destruct Hn as [->|[->| ->]]; vm_compute; reflexivity.
  - destruct Hn as [->|[->| ->]]; vm_compute; discriminate.
  - destruct Hn as [->|[->| ->]]; vm_compute; discriminate.
  - assert (H3 : is_dir (blk tree_img) 3 = false) by (vm_compute; reflexivity). destruct Hn as [->|[->| ->]]; intros Hd; [| |congruence].
    + apply (tree_dir 1 19); [vm_compute; reflexivity..|left; reflexivity|]. apply (bool_decide_eq_true_1 _). vm_compute. reflexivity.
    + apply (tree_dir 2 20); [vm_compute; reflexivity..|right; reflexivity|]. apply (bool_decide_eq_true_1 _). vm_compute. reflexivity.
Qed.
Definition tree_cache : list inode := replicate 50 zero_inode.
Lemma tree_cache_entry i x : znth tree_cache i = Some x → x = zero_inode.
Proof. unfold znth. destruct (0 <=? i); [|done]. by intros [-> _]%lookup_replicate. Qed.
Lemma tree_ready : ∃ s, fs_ready (FsSt s tree_cache) (blk tree_img) tree_set ∅.
Proof.
  destruct (boot_begin (demo_base [zero_proc]) tree_img 45 15 (proj1 demo_base_idle) (proj2 demo_base_idle) (proj1 tree_img_ok) (proj2 tree_img_ok))
    as (r & s & Hb & Hbt & T & Es & Ez). exists s.
  assert (Hh : m_held (b_mach (io_base (lg_bio s))) = ∅).
  { assert (H : match boot (power_on (demo_base [zero_proc]) tree_img) with
      | Ok _ r => match begin_trans r with
        | Ok _ s => bool_decide (m_held (b_mach (io_base (lg_bio s))) = ∅) | _ => false end
      | _ => false end = true) by (vm_compute; reflexivity).
    rewrite Hb, Hbt in H. by apply bool_decide_eq_true in H. }
  clear Hb Hbt. split; cbn [fs_log fs_inode].
  - split; [exact T|]. unfold fs_base. cbn [fs_log]. rewrite Hh. apply not_elem_of_empty.
  - vm_compute. lia.
  - rewrite Ez. lia.
  - rewrite Es. apply tree_tree.
  - unfold tree_set, ROOTINO. set_solver.
  - split; [split|].
    + reflexivity.
    + intros i x ->%tree_cache_entry. simpl. lia.
    + intros k i j x y ->%tree_cache_entry _ H%live_iff. simpl in H. lia.
    + intros i x ->%tree_cache_entry H. simpl in H. lia.
  - vm_compute. lia.
  - intros k. rewrite refs_dead; [lia|]. intros i x ->%tree_cache_entry. apply not_true_iff_false. rewrite live_iff. simpl. lia.
Qed.

Lemma namei_spec_witness : ∃ s ip x f, namei (chars "/usr//cat") (FsSt s tree_cache) = Ok (Some ip) f ∧ at_entry f ip 3 x.
Proof.
  destruct tree_ready as (s & Hr). exists s.
  pose proof (namei_spec (S:=fsst) (LF:=lens_id fsst) (FsSt s tree_cache) (blk tree_img) tree_set ∅ (chars "/usr//cat") 1 Hr) as H.
  assert (Er : resolve (blk tree_img) 1 (path_elems (chars "/usr//cat")) = Some 3) by (vm_compute; reflexivity). rewrite Er in H.
  destruct H as (ip & x & f & R & Ha & _).
  - vm_compute. reflexivity.
  - apply (bool_decide_eq_true_1 _). vm_compute. reflexivity.
  - exists ip, x, f. split; [exact R|exact Ha].
Defined.
Lemma nameiparent_spec_witness : ∃ s ip x f name', nameiparent (chars "/usr/new") (replicate 14 0) (FsSt s tree_cache) = Ok (Some ip, name') f ∧
  at_entry f ip 2 x ∧ str_of name' = chars "new".
Proof.
  destruct tree_ready as (s & Hr). exists s.
  pose proof (nameiparent_spec (S:=fsst) (LF:=lens_id fsst) (FsSt s tree_cache) (blk tree_img) tree_set ∅ (chars "/usr/new") (replicate 14 0) 1 Hr) as H.
  assert (Er : resolve_parent (blk tree_img) 1 (path_elems (chars "/usr/new")) = Some (2, chars "new")) by (vm_compute; reflexivity). rewrite Er in H.
  destruct H as (ip & x & name' & f & R & Ha & Hn & _).
  - vm_compute. reflexivity.
  - apply (bool_decide_eq_true_1 _). vm_compute. reflexivity.
  - reflexivity.
  - exists ip, x, f, name'. split; [exact R|]. split; [exact Ha|exact Hn].
Defined.
