(* ===== verification/Vm.v ===== *)
(** Virtual memory: [vm.c] ([switchuvm] is in [Sched], [loaduvm] in [Exec]).

    Page tables are three levels of 512 (four at the top) 64-bit entries in
    kernel memory, which is byte-addressed ([Mem]); pages and tables come from
    the buddy allocator or, for tables, from the list of boot-time pages
    [kpt_mem.freelist] threaded through their first word.  The message [allocuvm]
    prints when memory runs out is not part of this state. *)

From S2P Require Import Prelude Spin Sched Mem Str Dll Buddy.

(** * Data ([mmu.h], [memlayout.h]) *)

Definition ENTRY_VALID : Z := 0x01.
Definition ENTRY_TABLE : Z := 0x02.
Definition ENTRY_PAGE : Z := 0x02.
Definition MEM_ATTR_IDX_4 : Z := Z.shiftl 4 2.
Definition NON_SECURE_PA : Z := Z.shiftl 1 5.
Definition AP_RW_1 : Z := 0.
Definition AP_RW_1_0 : Z := Z.shiftl 1 6.
Definition AP_MASK : Z := Z.shiftl 3 6.
Definition SH_IN_SH : Z := Z.shiftl 3 8.
Definition ACCESS_FLAG : Z := Z.shiftl 1 10.
Definition PG_ADDR_MASK : Z := 0xFFFFFFFFF000.

Definition PTRS_PER_PGD : Z := 4.
Definition PTRS_PER_PMD : Z := 512.
Definition PGD_IDX (v : Z) : Z := Z.land (Z.shiftr v 30) (PTRS_PER_PGD - 1).
Definition PMD_SZ : Z := Z.shiftl 1 21.
Definition PMD_IDX (v : Z) : Z := Z.land (Z.shiftr v 21) (PTRS_PER_PMD - 1).
Definition PTE_SZ : Z := Z.shiftl 1 PTE_SHIFT.
Definition PTE_IDX (v : Z) : Z := Z.land (Z.shiftr v PTE_SHIFT) (512 - 1).
Definition PTE_ADDR (v : Z) : Z := align_dn v PTE_SZ.
Definition PTE_AP (pte : Z) : Z := Z.land pte AP_MASK.
Definition UADDR_SZ : Z := Z.shiftl 1 28.
Definition PT_SZ : Z := Z.shiftl 512 3.
Definition PT_ADDR (v : Z) : Z := align_dn v PT_SZ.
Definition PT_ORDER : Z := 10.
Definition PHY_START : Z := 0x40000000.
Definition INIT_KERNMAP : Z := 0x200000 + PHY_START.

Record vmst := VmSt {
  v_heap : kheap;
  v_freelist : Z;             (* kpt_mem.freelist *)
  v_mem : gmap Z Z;           (* kernel memory *)
}.
Definition set_v_heap v r := VmSt v (v_freelist r) (v_mem r).
Definition set_v_freelist v r := VmSt (v_heap r) v (v_mem r).
Definition set_v_mem v r := VmSt (v_heap r) (v_freelist r) v.

#[export] Program Instance lens_vm_heap : Lens vmst kheap :=
  {| lget := v_heap; lset := set_v_heap |}.
Solve All Obligations with (by intros; repeat match goal with b : vmst |- _ => destruct b end).
#[export] Program Instance lens_vm_mach : Lens vmst mach :=
  {| lget := λ s, h_mach (v_heap s); lset := λ m s, set_v_heap (Kheap m (h_kmem (v_heap s))) s |}.
Solve All Obligations with
  (by intros; repeat match goal with b : vmst |- _ => destruct b | b : kheap |- _ => destruct b end).

Definition kpt_lock : objaddr := ("kpt_mem", 0).

Definition load64 (a : Z) : M vmst Z := let* m := gets v_mem in ret (ld64 m a).
Definition store64 (a v : Z) : M vmst unit := modify (fun s => set_v_mem (st64 a v (v_mem s)) s).
(** [memset] and [memmove] through a pointer that must not be null. *)
Definition kmemset (dst v n : Z) : M vmst unit :=
  if dst =? 0 then undef "memset of a null pointer"
  else modify (fun s => set_v_mem (memset (v_mem s) dst v n) s).
Definition kmemmove (dst src n : Z) : M vmst unit :=
  if dst =? 0 then undef "memmove to a null pointer"
  else modify (fun s => set_v_mem (memmove (v_mem s) dst src n) s).
(** [memmove] from a buffer with the bytes [l]. *)
Definition kcopyin (dst : Z) (l : list Z) : M vmst unit :=
  if dst =? 0 then undef "memmove to a null pointer"
  else modify (fun s => set_v_mem (st_bytes dst l (v_mem s)) s).

(** * Page-table memory *)

Definition init_vmm : M vmst unit :=
  zoom (initlock kpt_lock) ;; modify (set_v_freelist 0).

Definition _kpt_free (v : Z) : M vmst unit :=
  let* l := gets v_freelist in
  store64 v l ;;
  modify (set_v_freelist v).

Definition kpt_free (v : Z) : M vmst unit :=
  if p2v INIT_KERNMAP <=? v then zoom (kfree v PT_ORDER)
  else
    zoom (acquire kpt_lock) ;;
    _kpt_free v ;;
    zoom (release kpt_lock).

(** [while (low < hi)]: [low] grows by [PT_SZ]. *)
Definition kpt_freerange (low hi : Z) : M vmst unit :=
  for_all (Z.to_nat ((hi - low + (PT_SZ - 1)) / PT_SZ)) 0 (fun i => _kpt_free (u64 (low + i * PT_SZ))).

Definition kpt_alloc : M vmst Z :=
  zoom (acquire kpt_lock) ;;
  let* r := gets v_freelist in
  when (negb (r =? 0)) (let* next := load64 r in modify (set_v_freelist next)) ;;
  zoom (release kpt_lock) ;;
  let* r := (if r =? 0 then
               let* r := zoom (kmalloc PT_ORDER) in
               panic_if (r =? 0) "oom: kpt_alloc" ;;
               ret r
             else ret r) in
  kmemset r 0 PT_SZ ;;
  ret r.

(** * Page tables *)

(** One level of [walkpgdir]: the table that the entry at [e] refers to, created
    when it is missing and [alloc] is set; 0 when there is none. *)
Definition walk_level (e : Z) (alloc : bool) : M vmst Z :=
  let* v := load64 e in
  if ztrue (Z.land v (Z.lor ENTRY_TABLE ENTRY_VALID)) then ret (p2v (Z.land v PG_ADDR_MASK))
  else if negb alloc then ret 0
  else
    let* base := kpt_alloc in
    if base =? 0 then ret 0 else
    kmemset base 0 PT_SZ ;;
    store64 e (Z.lor (Z.lor (v2p base) ENTRY_TABLE) ENTRY_VALID) ;;
    ret base.
Definition walkpgdir (pgdbase va : Z) (alloc : bool) : M vmst Z :=
  let* pmdbase := walk_level (u64 (pgdbase + 8 * PGD_IDX va)) alloc in
  if pmdbase =? 0 then ret 0 else
  let* ptebase := walk_level (u64 (pmdbase + 8 * PMD_IDX va)) alloc in
  if ptebase =? 0 then ret 0 else
  ret (u64 (ptebase + 8 * PTE_IDX va)).

Definition pte_of (pa ap : Z) : Z :=
  Z.lor (Z.lor (Z.lor (Z.lor (Z.lor (Z.lor (Z.lor pa ACCESS_FLAG) SH_IN_SH) ap) NON_SECURE_PA)
    MEM_ATTR_IDX_4) ENTRY_PAGE) ENTRY_VALID.
(** The loop of [mappages] from page [a] to page [last], both page-aligned: it
    ends when [a] reaches [last]. *)
Fixpoint map_loop (fuel : nat) (pgdir a last pa ap : Z) : M vmst Z :=
  match fuel with
  | O => out_of_fuel
  | S fuel =>
      let* pte := walkpgdir pgdir a true in
      if pte =? 0 then ret (-1) else
      let* v := load64 pte in
      panic_if (ztrue (Z.land v (Z.lor ENTRY_PAGE ENTRY_VALID))) "remap" ;;
      store64 pte (pte_of pa ap) ;;
      if a =? last then ret 0
      else map_loop fuel pgdir (u64 (a + PTE_SZ)) last (u32 (pa + PTE_SZ)) ap
  end.
Definition mappages (pgdir va size pa ap : Z) : M vmst Z :=
  let a := align_dn va PTE_SZ in
  let last := align_dn (u64 (va + size - 1)) PTE_SZ in
  map_loop (Z.to_nat (u64 (last - a) / PTE_SZ + 1)) pgdir a last (u32 pa) ap.

(** The bytes of [init] are in kernel memory at that address. *)
Definition inituvm (pgdir init sz : Z) : M vmst unit :=
  panic_if (PTE_SZ <=? sz) "inituvm: more than a page" ;;
  let* mem := zoom alloc_page in
  kmemset mem 0 PTE_SZ ;;
  let* _ := mappages pgdir 0 PTE_SZ (v2p mem) AP_RW_1_0 in
  kmemmove mem init sz.

(** [for (; a < oldsz; a += PTE_SZ)]: every iteration advances [a] by at least a
    page. *)
Fixpoint dealloc_loop (fuel : nat) (pgdir a oldsz : Z) : M vmst unit :=
  if a <? oldsz then
    match fuel with
    | O => out_of_fuel
    | S fuel =>
        let* pte := walkpgdir pgdir a false in
        let* a :=
          (if pte =? 0 then ret (align_up a PMD_SZ)
           else
             let* v := load64 pte in
             when (ztrue (Z.land v (Z.lor ENTRY_PAGE ENTRY_VALID))) (
               let pa := u32 (PTE_ADDR v) in
               panic_if (pa =? 0) "deallocuvm" ;;
               zoom (free_page (p2v pa)) ;;
               store64 pte 0) ;;
             ret a) in
        dealloc_loop fuel pgdir (u64 (a + PTE_SZ)) oldsz
    end
  else ret tt.
Definition deallocuvm (pgdir oldsz newsz : Z) : M vmst Z :=
  if oldsz <=? newsz then ret (s32 oldsz) else
  let a := align_up newsz PTE_SZ in
  dealloc_loop (Z.to_nat ((oldsz - a) / PTE_SZ + 1)) pgdir a oldsz ;;
  ret (s32 newsz).

(** [for (; a < newsz; a += PTE_SZ)]; [false] when memory ran out. *)
Fixpoint alloc_loop (fuel : nat) (pgdir a newsz : Z) : M vmst bool :=
  if a <? newsz then
    match fuel with
    | O => out_of_fuel
    | S fuel =>
        let* mem := zoom alloc_page in
        if mem =? 0 then ret false else
        kmemset mem 0 PTE_SZ ;;
        let* _ := mappages pgdir a PTE_SZ (v2p mem) AP_RW_1_0 in
        alloc_loop fuel pgdir (u64 (a + PTE_SZ)) newsz
    end
  else ret true.
Definition allocuvm (pgdir oldsz newsz : Z) : M vmst Z :=
  if UADDR_SZ <=? newsz then ret 0
  else if newsz <? oldsz then ret (s32 oldsz)
  else
    let a := align_up oldsz PTE_SZ in
    let* ok := alloc_loop (Z.to_nat ((newsz - a) / PTE_SZ + 1)) pgdir a newsz in
    if ok then ret (s32 newsz)
    else
      let* _ := deallocuvm pgdir newsz oldsz in
      ret 0.

Definition freevm (pgdir : Z) : M vmst unit :=
  panic_if (pgdir =? 0) "freevm: no pgdir" ;;
  let* _ := deallocuvm pgdir UADDR_SZ 0 in
  for_all (Z.to_nat PTRS_PER_PGD) 0 (fun j =>
    let* e := load64 (u64 (pgdir + 8 * j)) in
    when (ztrue (Z.land e (Z.lor ENTRY_TABLE ENTRY_VALID))) (
      let pmdbase := p2v (Z.land e PG_ADDR_MASK) in
      for_all (Z.to_nat PTRS_PER_PMD) 0 (fun i =>
        let* f := load64 (u64 (pmdbase + 8 * i)) in
        when (ztrue (Z.land f (Z.lor ENTRY_TABLE ENTRY_VALID))) (kpt_free (p2v (PT_ADDR f)))) ;;
      kpt_free pmdbase)) ;;
  kpt_free pgdir.

Definition clearpteu (pgdir uva : Z) : M vmst unit :=
  let* pte := walkpgdir pgdir uva false in
  panic_if (pte =? 0) "clearpteu" ;;
  let* v := load64 pte in
  store64 pte (Z.lor (Z.land v (Z.lnot (Z.shiftl 0x03 6))) AP_RW_1).

(** The loop of [copyuvm] over the pages below [sz]; [false] is [goto bad]. *)
Fixpoint copy_loop (fuel : nat) (pgdir d i sz : Z) : M vmst bool :=
  if i <? sz then
    match fuel with
    | O => out_of_fuel
    | S fuel =>
        let* pte := walkpgdir pgdir i false in
        panic_if (pte =? 0) "copyuvm: pte should exist" ;;
        let* v := load64 pte in
        panic_if (negb (ztrue (Z.land v (Z.lor ENTRY_PAGE ENTRY_VALID)))) "copyuvm: page not present" ;;
        let* mem := zoom alloc_page in
        if mem =? 0 then ret false else
        kmemmove mem (p2v (PTE_ADDR v)) PTE_SZ ;;
        let* r := mappages d i PTE_SZ (v2p mem) (PTE_AP v) in
        if r <? 0 then ret false else
        copy_loop fuel pgdir d (i + PTE_SZ) sz
    end
  else ret true.
Definition copyuvm (pgdir sz : Z) : M vmst Z :=
  let* d := kpt_alloc in
  if d =? 0 then ret 0 else
  let* ok := copy_loop (Z.to_nat (sz / PTE_SZ + 1)) pgdir d 0 sz in
  if ok then ret d else freevm d ;; ret 0.

(** A missing page table is dereferenced: [walkpgdir]'s null is not checked. *)
Definition uva2ka (pgdir uva : Z) : M vmst Z :=
  let* pte := walkpgdir pgdir uva false in
  if pte =? 0 then undef "uva2ka: null pte" else
  let* v := load64 pte in
  if Z.land v (Z.lor ENTRY_PAGE ENTRY_VALID) =? 0 then ret 0
  else if negb (PTE_AP v =? AP_RW_1_0) then ret 0
  else ret (p2v (PTE_ADDR v)).

(** [p] is a buffer with the bytes [buf]; every iteration copies up to the end
    of a page. *)
Fixpoint copyout_loop (fuel : nat) (pgdir va : Z) (buf : list Z) (len : Z) : M vmst Z :=
  if 0 <? len then
    match fuel with
    | O => out_of_fuel
    | S fuel =>
        let va0 := align_dn va PTE_SZ in
        let* pa0 := uva2ka pgdir va0 in
        if pa0 =? 0 then ret (-1) else
        let n := PTE_SZ - (va - va0) in
        let n := if len <? n then len else n in
        (if zlen buf <? n then undef "copyout: buf" else
         kcopyin (u64 (pa0 + (va - va0))) (take (Z.to_nat n) buf)) ;;
        copyout_loop fuel pgdir (u32 (va0 + PTE_SZ)) (drop (Z.to_nat n) buf) (len - n)
    end
  else ret 0.
Definition copyout (pgdir va : Z) (p : list Z) (len : Z) : M vmst Z :=
  copyout_loop (Z.to_nat (len / PTE_SZ + 2)) pgdir va p len.

Definition paging_init (kernel_pgtbl phy_low phy_hi : Z) : M vmst unit :=
  let* _ := mappages (p2v kernel_pgtbl) (p2v phy_low) (u32 (phy_hi - phy_low)) phy_low AP_RW_1_0 in
  ret tt.

(** * Correctness

    ** Walking without allocating *)

(** The table the entry at [e] refers to, or 0. *)
Definition level_at (m : gmap Z Z) (e : Z) : Z :=
  let v := ld64 m e in
  if ztrue (Z.land v (Z.lor ENTRY_TABLE ENTRY_VALID)) then p2v (Z.land v PG_ADDR_MASK) else 0.
(** The address of the entry for [va], or 0. *)
Definition pte_addr (m : gmap Z Z) (pgd va : Z) : Z :=
  let pmd := level_at m (u64 (pgd + 8 * PGD_IDX va)) in
  if pmd =? 0 then 0 else
  let pte := level_at m (u64 (pmd + 8 * PMD_IDX va)) in
  if pte =? 0 then 0 else u64 (pte + 8 * PTE_IDX va).

Lemma walk_level_false e s : walk_level e false s = Ok (level_at (v_mem s) e) s.
Proof. unfold walk_level, level_at, load64. run. by destruct (ztrue _). Qed.
Lemma walkpgdir_false pgd va s : walkpgdir pgd va false s = Ok (pte_addr (v_mem s) pgd va) s.
Proof.
  unfold walkpgdir, pte_addr. rewrite (bind_ok _ _ _ _ _ (walk_level_false _ s)).
  destruct (_ =? 0); [done|]. rewrite (bind_ok _ _ _ _ _ (walk_level_false _ s)). by destruct (_ =? 0).
Qed.
