(* ===== verification/Pgtab.v ===== *)
(** Page tables as maps: [walkpgdir], [mappages] and the users of [vm.c].

    A page table is a tree of tables in kernel memory.  Every table has a role,
    its position in the tree, so tables at different positions are different
    tables.  [ptes] is what the tree says: the entry of every page. *)

From S2P Require Import Prelude Spin Sched Mem Str Dll Buddy Vm.

(** * Addresses and entries *)

(** A page of kernel memory: physical memory below 4 GB, mapped at [KERNBASE]. *)
Definition kva (t : Z) : Prop := KERNBASE ≤ t ∧ t + 4096 ≤ 2 ^ 64 ∧ t mod 4096 = 0.

Lemma kva_v2p t : kva t → 0 ≤ v2p t < 2 ^ 32 ∧ v2p t mod 4096 = 0 ∧ p2v (v2p t) = t.
Proof.
  unfold kva, v2p, p2v, KERNBASE. intros (H1 & H2 & H3). rewrite (u64_small (t - _)) by lia.
  split; [lia|]. split; [|rewrite u64_small by lia; lia].
  rewrite Zminus_mod, H3. reflexivity.
Qed.
Lemma testbit_aligned p j : p mod 4096 = 0 → 0 ≤ j < 12 → Z.testbit p j = false.
Proof.
  intros Hp Hj. rewrite <- (Z.mod_pow2_bits_low p 12 j) by lia. change (2 ^ 12) with 4096. rewrite Hp. apply Z.bits_0.
Qed.

(** An entry is a page address and attributes in the low 12 bits. *)
Lemma entry_addr p v : 0 ≤ p < 2 ^ 32 → p mod 4096 = 0 → 0 ≤ v < 4096 → Z.land (Z.lor p v) PG_ADDR_MASK = p.
Proof.
  intros Hp Hm Hv. change PG_ADDR_MASK with (Z.shiftl (Z.ones 36) 12). apply Z.bits_inj'. intros j Hj.
  rewrite Z.land_spec, Z.lor_spec, Z.shiftl_spec by lia.
  destruct (Z.lt_ge_cases j 12) as [H|H].
  - rewrite (testbit_aligned p j Hm), (Z.testbit_neg_r _ (j - 12)) by lia. apply andb_false_r.
  - rewrite (testbit_high v 12) by lia. rewrite orb_false_r.
    destruct (Z.lt_ge_cases j 48) as [H'|H'].
    + rewrite Z.ones_spec_low by lia. apply andb_true_r.
    + by rewrite (testbit_high p 32) by lia.
Qed.
Lemma entry_low p v : p mod 4096 = 0 → 0 ≤ v < 4096 → Z.land (Z.lor p v) 3 = Z.land v 3.
Proof.
  intros Hm Hv. apply Z.bits_inj'. intros j Hj. rewrite !Z.land_spec, Z.lor_spec.
  destruct (Z.lt_ge_cases j 12) as [H|H]; [by rewrite (testbit_aligned p j Hm) by lia|].
  by rewrite (testbit_high 3 12), !andb_false_r by lia.
Qed.
Lemma entry_bound p v : 0 ≤ p < 2 ^ 32 → 0 ≤ v < 4096 → 0 ≤ Z.lor p v < 2 ^ 32.
Proof.
  intros Hp Hv. split; [by apply Z.lor_nonneg; lia|]. apply bits_lt_pow2; [lia|apply Z.lor_nonneg; lia|].
  intros j Hj. by rewrite Z.lor_spec, (testbit_high p 32), (testbit_high v 12) by lia.
Qed.

Definition table_entry (t : Z) : Z := Z.lor (Z.lor (v2p t) ENTRY_TABLE) ENTRY_VALID.
Lemma table_entry_eq t : table_entry t = Z.lor (v2p t) 3.
Proof. unfold table_entry. by rewrite <- Z.lor_assoc. Qed.
Lemma table_entry_ok t : kva t → u64 (table_entry t) = table_entry t ∧ Z.land (table_entry t) 3 = 3 ∧
  p2v (Z.land (table_entry t) PG_ADDR_MASK) = t.
Proof.
  intros Ht. destruct (kva_v2p t Ht) as (Hp & Hm & E). rewrite table_entry_eq.
  pose proof (entry_bound _ 3 Hp ltac:(lia)). split; [apply u64_small; lia|]. split; [by rewrite entry_low by lia|].
  by rewrite entry_addr by lia.
Qed.
Lemma pte_of_eq pa ap : pte_of pa ap = Z.lor pa (Z.lor ap 0x733).
Proof.
  unfold pte_of. apply Z.bits_inj'. intros j Hj. rewrite !Z.lor_spec.
  change 0x733 with (Z.lor (Z.lor (Z.lor (Z.lor (Z.lor ACCESS_FLAG SH_IN_SH) NON_SECURE_PA) MEM_ATTR_IDX_4) ENTRY_PAGE) ENTRY_VALID).
  rewrite !Z.lor_spec. by destruct (Z.testbit pa j), (Z.testbit ap j), (Z.testbit ACCESS_FLAG j), (Z.testbit SH_IN_SH j).
Qed.
(** The permissions a caller passes: the [AP] bits. *)
Definition is_ap (ap : Z) : Prop := Z.land ap AP_MASK = ap.
Lemma is_ap_bound ap : is_ap ap → 0 ≤ Z.lor ap 0x733 < 4096 ∧ Z.land (Z.lor ap 0x733) 3 = 3.
Proof.
  intros Ha. assert (Hb : 0 ≤ ap < 2 ^ 12).
  { unfold is_ap in Ha. rewrite <- Ha. split; [by apply Z.land_nonneg; right|].
    apply bits_lt_pow2; [lia|by apply Z.land_nonneg; right|]. intros j Hj.
    by rewrite Z.land_spec, (testbit_high AP_MASK 12), andb_false_r by (done || lia). }
  split; [split; [by apply Z.lor_nonneg; lia|]|].
  - change 4096 with (2 ^ 12). apply bits_lt_pow2; [lia|by apply Z.lor_nonneg; lia|]. intros j Hj.
    by rewrite Z.lor_spec, (testbit_high ap 12), (testbit_high 0x733 12) by lia.
  - apply Z.bits_inj'. intros j Hj. rewrite Z.land_spec, Z.lor_spec.
    destruct (Z.testbit 3 j) eqn:E; [|apply andb_false_r]. rewrite andb_true_r.
    assert (j = 0 ∨ j = 1) as [->| ->]; [|by rewrite orb_true_r..].
    destruct (Z.lt_ge_cases j 2); [lia|]. by rewrite (testbit_high 3 2) in E by lia.
Qed.
Lemma pte_of_ok pa ap : 0 ≤ pa < 2 ^ 32 → pa mod 4096 = 0 → is_ap ap →
  u64 (pte_of pa ap) = pte_of pa ap ∧ Z.land (pte_of pa ap) 3 = 3 ∧ Z.land (pte_of pa ap) PG_ADDR_MASK = pa.
Proof.
  intros Hp Hm Ha. destruct (is_ap_bound ap Ha) as [Hb H3]. rewrite pte_of_eq.
  pose proof (entry_bound _ _ Hp Hb). split; [apply u64_small; lia|]. by rewrite entry_low, entry_addr.
Qed.

(** * The tree *)

Inductive role := Root | Pmd (i : Z) | Pt (i j : Z).

(** The entry at [e] refers to a table. *)
Definition present (m : gmap Z Z) (e : Z) : bool := ztrue (Z.land (ld64 m e) (Z.lor ENTRY_TABLE ENTRY_VALID)).
Lemma present_level m e : level_at m e ≠ 0 → present m e = true.
Proof. unfold level_at, present. by destruct (ztrue _). Qed.

(** The tables of the tree at [pgd], with their roles. *)
Record ptree (m : gmap Z Z) (pgd : Z) (R : gmap Z role) : Prop := {
  pt_root : R !! pgd = Some Root;
  pt_kva : ∀ t r, R !! t = Some r → kva t;
  pt_pmd : ∀ i, 0 ≤ i < 4 → present m (pgd + 8 * i) = true → R !! level_at m (pgd + 8 * i) = Some (Pmd i);
  pt_pt : ∀ t i j, R !! t = Some (Pmd i) → 0 ≤ j < 512 → present m (t + 8 * j) = true →
    R !! level_at m (t + 8 * j) = Some (Pt i j);
}.
(** The entry of the page of [va]; 0 when it has no table. *)
Definition ptes (m : gmap Z Z) (pgd va : Z) : Z :=
  let a := pte_addr m pgd va in if a =? 0 then 0 else ld64 m a.
(** The boot-time tables: the chain from [f]. *)
Fixpoint chain (m : gmap Z Z) (f : Z) (F : list Z) : Prop :=
  match F with
  | [] => f = 0
  | t :: F => f = t ∧ kva t ∧ chain m (ld64 m t) F
  end.
(** Free tables are distinct and not in the tree. *)
Record spare (m : gmap Z Z) (f : Z) (F : list Z) (R : gmap Z role) : Prop := {
  sp_chain : chain m f F;
  sp_nodup : NoDup F;
  sp_out : ∀ t, t ∈ F → R !! t = None;
}.

(** ** Memory seen as 64-bit words *)

(** Two memories that agree on the pages [P]. *)
Definition agree (m m' : gmap Z Z) (P : Z → Prop) : Prop :=
  ∀ t b, P t → t ≤ b < t + 4096 → ld8 m' b = ld8 m b.
Lemma agree_ld64 m m' (P : Z → Prop) t k : agree m m' P → P t → 0 ≤ k < 512 → ld64 m' (t + 8 * k) = ld64 m (t + 8 * k).
Proof. intros Ha Ht Hk. unfold ld64. f_equal. apply ld_bytes_ext. intros b Hb. apply (Ha t); [done|lia]. Qed.
Lemma agree_level m m' (P : Z → Prop) t k : agree m m' P → P t → 0 ≤ k < 512 → level_at m' (t + 8 * k) = level_at m (t + 8 * k).
Proof. intros Ha Ht Hk. unfold level_at. by erewrite agree_ld64. Qed.
Lemma kva_disjoint t t' b b' : kva t → kva t' → t ≠ t' → t ≤ b < t + 4096 → t' ≤ b' < t' + 4096 → b ≠ b'.
Proof.
  intros (_ & _ & H) (_ & _ & H') Hne Hb Hb' ->. apply Z.mod_divide in H as [q Hq], H' as [q' Hq']; lia.
Qed.
Lemma kva_word t k : kva t → 0 ≤ k < 512 → u64 (t + 8 * k) = t + 8 * k ∧ 0 < t + 8 * k.
Proof. unfold kva, KERNBASE. intros (H1 & H2 & _) Hk. rewrite u64_small by lia. lia. Qed.
Lemma kva_pos t : kva t → 0 < t.
Proof. unfold kva, KERNBASE. lia. Qed.

Lemma PGD_range va : 0 ≤ PGD_IDX va < 4.
Proof. unfold PGD_IDX. change (PTRS_PER_PGD - 1) with (Z.ones 2). rewrite Z.land_ones by lia. by apply Z.mod_pos_bound. Qed.
Lemma PMD_range va : 0 ≤ PMD_IDX va < 512.
Proof. unfold PMD_IDX. change (PTRS_PER_PMD - 1) with (Z.ones 9). rewrite Z.land_ones by lia. by apply Z.mod_pos_bound. Qed.
Lemma PTE_range va : 0 ≤ PTE_IDX va < 512.
Proof. unfold PTE_IDX. change (512 - 1) with (Z.ones 9). rewrite Z.land_ones by lia. by apply Z.mod_pos_bound. Qed.
#[export] Hint Resolve PGD_range PMD_range PTE_range : core.

(** The path to the entry of [va] in a tree. *)
Section path.
Context (m : gmap Z Z) (pgd : Z) (R : gmap Z role) (Ht : ptree m pgd R).

Definition pmd_of (va : Z) : Z := level_at m (pgd + 8 * PGD_IDX va).
Definition pt_of (va : Z) : Z := level_at m (pmd_of va + 8 * PMD_IDX va).
Lemma pmd_role va : pmd_of va ≠ 0 → R !! pmd_of va = Some (Pmd (PGD_IDX va)).
Proof. intros H. by apply (pt_pmd _ _ _ Ht); [|apply present_level]. Qed.
Lemma pt_role va : pmd_of va ≠ 0 → pt_of va ≠ 0 → R !! pt_of va = Some (Pt (PGD_IDX va) (PMD_IDX va)).
Proof. intros H1 H2. apply (pt_pt _ _ _ Ht); [by apply pmd_role|done|by apply present_level]. Qed.
Lemma pte_addr_eq va : pte_addr m pgd va =
  if pmd_of va =? 0 then 0 else if pt_of va =? 0 then 0 else pt_of va + 8 * PTE_IDX va.
Proof.
  pose proof (PGD_range va). pose proof (pt_kva _ _ _ Ht _ _ (pt_root _ _ _ Ht)) as Hk.
  unfold pte_addr. rewrite (proj1 (kva_word pgd (PGD_IDX va) Hk ltac:(lia))). fold (pmd_of va).
  destruct (Z.eqb_spec (pmd_of va) 0) as [|H1]; [done|].
  rewrite (proj1 (kva_word _ (PMD_IDX va) (pt_kva _ _ _ Ht _ _ (pmd_role va H1)) ltac:(done))). fold (pt_of va).
  destruct (Z.eqb_spec (pt_of va) 0) as [|H2]; [done|].
  by rewrite (proj1 (kva_word _ (PTE_IDX va) (pt_kva _ _ _ Ht _ _ (pt_role va H1 H2)) ltac:(done))).
Qed.
Lemma ptes_eq va : ptes m pgd va =
  if pmd_of va =? 0 then 0 else if pt_of va =? 0 then 0 else ld64 m (pt_of va + 8 * PTE_IDX va).
Proof.
  unfold ptes. rewrite pte_addr_eq. destruct (Z.eqb_spec (pmd_of va) 0) as [|H1]; [done|].
  destruct (Z.eqb_spec (pt_of va) 0) as [|H2]; [done|].
  destruct (kva_word _ (PTE_IDX va) (pt_kva _ _ _ Ht _ _ (pt_role va H1 H2)) ltac:(done)) as [_ Hp].
  by destruct (Z.eqb_spec (pt_of va + 8 * PTE_IDX va) 0); [lia|].
Qed.
End path.

(** ** Allocating a table *)

Definition vquiet (s : vmst) : Prop := cli_wf (h_mach (v_heap s)) ∧ kpt_lock ∉ m_held (h_mach (v_heap s)).
Definition vsaved (s : vmst) : kheap := Kheap (saved (h_mach (v_heap s))) (h_kmem (v_heap s)).

Lemma saved_wf m : cli_wf m → cli_wf (saved m) ∧ m_held (saved m) = m_held m ∧ m_ncli (saved m) = m_ncli m.
Proof. intros [H1 H2]. unfold saved. by destruct (m_ncli m =? 0). Qed.

Lemma saved_id m : 0 < m_ncli m → saved m = m.
Proof. intros H. unfold saved. by rewrite (proj2 (Z.eqb_neq _ _)) by lia. Qed.
Lemma kpt_alloc_ok s t F : vquiet s → chain (v_mem s) (v_freelist s) (t :: F) →
  kpt_alloc s = Ok t (VmSt (vsaved s) (ld64 (v_mem s) t) (memset (v_mem s) t 0 PT_SZ)).
Proof.
  intros [Hw Hl] (Ef & Hk & _). pose proof (kva_pos t Hk). unfold kpt_alloc.
  rewrite (bind_ok _ _ _ _ _ (zoom_ok _ s _ _ (acquire_ok kpt_lock (h_mach (v_heap s)) Hw))).
  unfold bind at 1. cbn [gets rbind]. simpl. rewrite Ef. destruct (Z.eqb_spec t 0); [lia|]. cbn [negb when].
  unfold bind, load64, gets, modify, ret, zoom. simpl.
  rewrite (release_locked kpt_lock (h_mach (v_heap s)) Hw Hl). simpl. unfold kmemset.
  by destruct (Z.eqb_spec t 0); [lia|].
Qed.

(** Tables whose entries refer to tables. *)
Definition inner (r : role) : Prop := match r with Pt _ _ => False | _ => True end.

(** What growing a tree leaves: the tree, the spare tables, and everything that is
    neither a table of the tree nor was a spare one. *)
Record walked (pgd : Z) (s : vmst) (R : gmap Z role) (F : list Z) (s' : vmst) (R' : gmap Z role) (F' : list Z) : Prop := {
  wk_tree : ptree (v_mem s') pgd R';
  wk_spare : spare (v_mem s') (v_freelist s') F' R';
  wk_mono : R ⊆ R';
  wk_new : ∀ t, is_Some (R' !! t) → is_Some (R !! t) ∨ t ∈ F;
  wk_left : F' ⊆ F;
  wk_quiet : vquiet s';
  wk_kmem : h_kmem (v_heap s') = h_kmem (v_heap s);
  wk_held : m_held (h_mach (v_heap s')) = m_held (h_mach (v_heap s));
  wk_frame : agree (v_mem s) (v_mem s') (λ t, kva t ∧ R !! t = None ∧ t ∉ F);
  wk_keep : ∀ q r j, R !! q = Some r → inner r → 0 ≤ j < 512 → present (v_mem s) (q + 8 * j) = true →
    ld64 (v_mem s') (q + 8 * j) = ld64 (v_mem s) (q + 8 * j);
}.
Lemma walked_refl pgd s R F : ptree (v_mem s) pgd R → spare (v_mem s) (v_freelist s) F R → vquiet s → walked pgd s R F s R F.
Proof. by split; auto; intros ?? _ _. Qed.
Lemma walked_trans pgd s R F s1 R1 F1 s2 R2 F2 :
  walked pgd s R F s1 R1 F1 → walked pgd s1 R1 F1 s2 R2 F2 → walked pgd s R F s2 R2 F2.
Proof.
  intros [A1 A2 A3 A4 A5 A6 A7 A8 A9 A10] [B1 B2 B3 B4 B5 B6 B7 B8 B9 B10]. split; try done.
  - by etrans.
  - intros t Ht. destruct (B4 t Ht) as [H|H]; [by apply A4|right; by apply A5].
  - by etrans.
  - congruence.
  - congruence.
  - intros t b (Hk & HR & HF) Hb. rewrite (B9 t b); [by apply (A9 t b)| |done]. split; [done|]. split.
    + destruct (R1 !! t) eqn:E; [|done]. destruct (A4 t ltac:(by eexists)) as [[? H]|H]; [congruence|done].
    + intros H. by apply HF, A5.
  - intros q r j Hr Hi Hj Hp. rewrite <- (A10 q r j Hr Hi Hj Hp). apply (B10 q r j); try done.
    + by eapply lookup_weaken.
    + unfold present in *. by rewrite (A10 q r j Hr Hi Hj Hp).
Qed.

(** [m'] is [m] with the zeroed page [t] linked at the word [e]. *)
Record linked (m m' : gmap Z Z) (t e : Z) : Prop := {
  lk_zero : ∀ b, t ≤ b < t + 4096 → ld8 m' b = 0;
  lk_word : ld64 m' e = table_entry t;
  lk_other : ∀ b, ¬ (t ≤ b < t + 4096) → ¬ (e ≤ b < e + 8) → ld8 m' b = ld8 m b;
}.
Lemma ld64_zero m a : (∀ b, a ≤ b < a + 8 → ld8 m b = 0) → ld64 m a = 0.
Proof.
  intros H. change 0 with (ld64 ∅ 0). unfold ld64. f_equal. simpl. rewrite !H by lia. reflexivity.
Qed.
Lemma linked_st m t e : kva t → ¬ (t ≤ e < t + 4096) → ¬ (t ≤ e + 7 < t + 4096) →
  linked m (st64 e (table_entry t) (memset (memset m t 0 PT_SZ) t 0 PT_SZ)) t e.
Proof.
  intros Ht H1 H2. change PT_SZ with 4096. split.
  - intros b Hb. unfold st64. rewrite ld8_st_bytes. unfold zlen. rewrite length_le_enc.
    case_match; [lia|]. rewrite ld8_memset. by case_match; [|lia].
  - rewrite ld64_st64. by apply table_entry_ok.
  - intros b Hb1 Hb2. unfold st64. rewrite ld8_st_bytes. unfold zlen. rewrite length_le_enc.
    case_match; [lia|]. rewrite !ld8_memset. by case_match; [lia|].
Qed.

Section level.
Context (s : vmst) (pgd : Z) (R : gmap Z role) (F : list Z).
Context (Ht : ptree (v_mem s) pgd R) (Hs : spare (v_mem s) (v_freelist s) F R) (Hq : vquiet s).
(** The entry [k] of table [p], whose table has the role [c]. *)
Context (p k : Z) (rp c : role) (Hp : R !! p = Some rp).
Context (Hc : (rp = Root ∧ p = pgd ∧ 0 ≤ k < 4 ∧ c = Pmd k) ∨ (∃ i, rp = Pmd i ∧ 0 ≤ k < 512 ∧ c = Pt i k)).

Lemma level_k : 0 ≤ k < 512.
Proof. destruct Hc as [|(? & ?)]; lia. Qed.
Lemma level_hit : present (v_mem s) (p + 8 * k) = true →
  walk_level (p + 8 * k) true s = Ok (level_at (v_mem s) (p + 8 * k)) s ∧ R !! level_at (v_mem s) (p + 8 * k) = Some c.
Proof.
  intros Hne. split.
  - unfold walk_level, level_at, load64, present in *. unfold bind, gets, ret. simpl. by rewrite Hne.
  - destruct Hc as [(-> & -> & Hk & ->)|(i & -> & Hk & ->)]; [by apply (pt_pmd _ _ _ Ht)|by apply (pt_pt _ _ _ Ht)].
Qed.

Section miss.
Context (t : Z) (F' : list Z) (EF : F = t :: F').
Context (m' : gmap Z Z) (Hm : linked (v_mem s) m' t (p + 8 * k)) (Hz : present (v_mem s) (p + 8 * k) = false).
Lemma miss_null : level_at (v_mem s) (p + 8 * k) = 0.
Proof. unfold level_at. fold (present (v_mem s) (p + 8 * k)). by rewrite Hz. Qed.

Lemma new_kva : kva t.
Proof. pose proof (sp_chain _ _ _ _ Hs) as H. rewrite EF in H. apply H. Qed.
Lemma new_out : R !! t = None.
Proof. apply (sp_out _ _ _ _ Hs). rewrite EF. left. Qed.
Lemma miss_ne q r : R !! q = Some r → q ≠ t.
Proof. intros H ->. by rewrite new_out in H. Qed.
(** Other words of tables are unchanged. *)
Lemma miss_word q r j : R !! q = Some r → 0 ≤ j < 512 → (q, j) ≠ (p, k) → ld64 m' (q + 8 * j) = ld64 (v_mem s) (q + 8 * j).
Proof.
  intros Hr Hj Hne. pose proof level_k. pose proof (pt_kva _ _ _ Ht _ _ Hr) as Kq. pose proof (pt_kva _ _ _ Ht _ _ Hp) as Kp.
  unfold ld64. f_equal. apply ld_bytes_ext. intros b Hb. apply (lk_other _ _ _ _ Hm).
  - intros Hbt. by apply (kva_disjoint q t b b Kq new_kva (miss_ne _ _ Hr)); lia.
  - intros Hbe. destruct (decide (q = p)) as [->|Hqp].
    + assert (j ≠ k) by congruence. lia.
    + by apply (kva_disjoint q p b b Kq Kp Hqp); lia.
Qed.
Lemma miss_level q r j : R !! q = Some r → 0 ≤ j < 512 →
  level_at m' (q + 8 * j) = if decide ((q, j) = (p, k)) then t else level_at (v_mem s) (q + 8 * j).
Proof.
  intros Hr Hj. unfold level_at. case_decide as E; [|by rewrite (miss_word q r j)].
  injection E as -> ->. rewrite (lk_word _ _ _ _ Hm). destruct (table_entry_ok t new_kva) as (_ & H3 & Ha).
  change (Z.lor ENTRY_TABLE ENTRY_VALID) with 3. by rewrite H3, Ha.
Qed.
Lemma miss_present q r j : R !! q = Some r → 0 ≤ j < 512 → (q, j) ≠ (p, k) →
  present m' (q + 8 * j) = present (v_mem s) (q + 8 * j).
Proof. intros Hr Hj Hne. unfold present. by rewrite (miss_word q r j). Qed.
Lemma miss_zero j : 0 ≤ j < 512 → ld64 m' (t + 8 * j) = 0.
Proof. intros Hj. apply ld64_zero. intros b Hb. apply (lk_zero _ _ _ _ Hm). lia. Qed.
Lemma miss_zero_level j : 0 ≤ j < 512 → level_at m' (t + 8 * j) = 0.
Proof. intros Hj. unfold level_at. by rewrite miss_zero. Qed.

Lemma miss_ptree : ptree m' pgd (<[t := c]> R).
Proof.
  pose proof (pt_root _ _ _ Ht) as Hr. split.
  - by rewrite lookup_insert_ne by (apply not_eq_sym, (miss_ne _ _ Hr)).
  - intros q r Hq'. apply lookup_insert_Some in Hq' as [[<- _]|[_ H]]; [apply new_kva|by apply (pt_kva _ _ _ Ht _ _ H)].
  - intros i Hi. rewrite (miss_level _ _ _ Hr) by lia. case_decide as E.
    + injection E as Ep Ek. rewrite lookup_insert_eq. intros _. rewrite Ep in Hr.
      destruct Hc as [(_ & _ & _ & ->)|(j & -> & _)]; congruence.
    + rewrite (miss_present _ _ _ Hr) by (done || lia). intros Hne. pose proof (pt_pmd _ _ _ Ht i Hi Hne) as H. by rewrite lookup_insert_ne by (apply not_eq_sym, (miss_ne _ _ H)).
  - intros q i j Hqi Hj. apply lookup_insert_Some in Hqi as [[<- _]|[_ H]]; [unfold present; by rewrite miss_zero|].
    rewrite (miss_level _ _ _ H) by lia. case_decide as E.
    + injection E as Ep Ek. rewrite lookup_insert_eq. intros _. rewrite Ep in H.
      destruct Hc as [(-> & _)|(j' & -> & _ & ->)]; congruence.
    + rewrite (miss_present _ _ _ H) by done. intros Hne. pose proof (pt_pt _ _ _ Ht q i j H Hj Hne) as H'. by rewrite lookup_insert_ne by (apply not_eq_sym, (miss_ne _ _ H')).
Qed.
Lemma chain_agree m1 m2 f G : (∀ q, q ∈ G → kva q → ld64 m2 q = ld64 m1 q) → chain m1 f G → chain m2 f G.
Proof.
  revert f. induction G as [|q G IH]; intros f H; [done|]. intros (-> & Hk & Hch). split; [done|]. split; [done|].
  rewrite H by (done || left). apply IH; [|done]. intros q' Hq' ?. apply H; [by right|done].
Qed.
Lemma miss_spare : spare m' (ld64 (v_mem s) t) F' (<[t := c]> R).
Proof.
  destruct Hs as [Hch Hnd Hout]. rewrite EF in Hch, Hnd, Hout. apply NoDup_cons in Hnd as [Hnt Hnd]. pose proof level_k.
  split; [|done|].
  - destruct Hch as (_ & Kt & Hch). eapply chain_agree; [|exact Hch]. intros q Hq' Kq. unfold ld64. f_equal.
    apply ld_bytes_ext. intros b Hb. apply (lk_other _ _ _ _ Hm); intros Hb'.
    + assert (q ≠ t) by (by intros ->). by apply (kva_disjoint q t b b); (done || lia).
    + assert (q ≠ p) by (intros ->; rewrite Hout in Hp by (by right); done).
      apply (kva_disjoint q p b b Kq (pt_kva _ _ _ Ht _ _ Hp)); (done || lia).
  - intros q Hq'. rewrite lookup_insert_ne by (by intros ->). apply Hout. by right.
Qed.
Lemma miss_ptes va : ptes m' pgd va = ptes (v_mem s) pgd va.
Proof.
  rewrite (ptes_eq _ _ _ miss_ptree), (ptes_eq _ _ _ Ht). pose proof (kva_pos t new_kva).
  pose proof (PGD_range va). unfold pt_of. replace (pmd_of m' pgd va) with
    (if decide ((pgd, PGD_IDX va) = (p, k)) then t else pmd_of (v_mem s) pgd va)
    by (unfold pmd_of; by rewrite (miss_level _ _ _ (pt_root _ _ _ Ht)) by lia).
  case_decide as E.
  - injection E as Ep Ek. unfold pmd_of. rewrite Ep, Ek, miss_null. cbn [Z.eqb].
    rewrite miss_zero_level by done. by destruct (t =? 0).
  - destruct (Z.eqb_spec (pmd_of (v_mem s) pgd va) 0) as [|H1]; [done|].
    pose proof (pmd_role _ _ _ Ht va H1) as Hr. rewrite (miss_level _ _ _ Hr) by done. case_decide as E'.
    + injection E' as Ep' Ek'. rewrite Ep', Ek', miss_null. cbn [Z.eqb]. rewrite miss_zero by done. by destruct (t =? 0).
    + destruct (Z.eqb_spec (level_at (v_mem s) (pmd_of (v_mem s) pgd va + 8 * PMD_IDX va)) 0) as [|H2]; [done|].
      pose proof (pt_role _ _ _ Ht va H1 H2) as Hr2. apply (miss_word _ _ _ Hr2); [done|].
      intros E2. injection E2 as Ep2 _. rewrite Ep2, Hp in Hr2.
      destruct Hc as [(-> & _)|(? & -> & _)]; done.
Qed.
Lemma miss_frame : agree (v_mem s) m' (λ q, kva q ∧ R !! q = None ∧ q ∉ F).
Proof.
  pose proof level_k. intros q b (Kq & HR & HF) Hb. rewrite EF in HF. apply (lk_other _ _ _ _ Hm); intros Hb'.
  - assert (q ≠ t) by (intros ->; apply HF; left). by apply (kva_disjoint q t b b Kq new_kva); (done || lia).
  - assert (q ≠ p) by (intros ->; congruence). by apply (kva_disjoint q p b b Kq (pt_kva _ _ _ Ht _ _ Hp)); (done || lia).
Qed.
End miss.

(** One level of [walkpgdir] with [alloc] set. *)
Lemma level_ok : F ≠ [] →
  ∃ s' R' F' t, walk_level (p + 8 * k) true s = Ok t s' ∧ walked pgd s R F s' R' F' ∧
    t = level_at (v_mem s') (p + 8 * k) ∧ R' !! t = Some c ∧ (length F ≤ S (length F'))%nat ∧
    ∀ va, ptes (v_mem s') pgd va = ptes (v_mem s) pgd va.
Proof.
  intros HF. destruct (present (v_mem s) (p + 8 * k)) eqn:Hz.
  { destruct (level_hit Hz) as [H1 H2]. exists s, R, F, (level_at (v_mem s) (p + 8 * k)).
    split; [done|]. split; [by apply walked_refl|]. split; [done|]. split; [done|]. split; [lia|done]. }
  assert (∃ t F', F = t :: F') as (t & F' & EF) by (destruct F; [done|eauto]). pose proof level_k as Hk.
  pose proof (new_kva t F' EF) as Kt. pose proof (kva_pos t Kt).
  pose proof (new_out t F' EF) as Hn. destruct Hq as [Hw Hl]. destruct (saved_wf _ Hw) as (Hw' & Hh' & _).
  assert (Hpt : p ≠ t) by (intros ->; congruence). pose proof (pt_kva _ _ _ Ht _ _ Hp) as Kp.
  set (m' := st64 (p + 8 * k) (table_entry t) (memset (memset (v_mem s) t 0 PT_SZ) t 0 PT_SZ)).
  assert (Hlk : linked (v_mem s) m' t (p + 8 * k)).
  { apply linked_st; [done|..]; intros Hb.
    - by apply (kva_disjoint p t (p + 8 * k) (p + 8 * k) Kp Kt Hpt); lia.
    - by apply (kva_disjoint p t (p + 8 * k + 7) (p + 8 * k + 7) Kp Kt Hpt); lia. }
  exists (VmSt (vsaved s) (ld64 (v_mem s) t) m'), (<[t := c]> R), F', t.
  split; [|split; [|split; [|split; [by rewrite lookup_insert_eq|split; [by rewrite EF|]]]]].
  - unfold walk_level. rewrite (bind_ok _ _ _ (ld64 (v_mem s) (p + 8 * k)) s) by done.
    fold (present (v_mem s) (p + 8 * k)). rewrite Hz. cbn [negb].
    rewrite (bind_ok _ _ _ _ _ (kpt_alloc_ok s t F' (conj Hw Hl) ltac:(rewrite <- EF; apply Hs))).
    destruct (Z.eqb_spec t 0); [lia|]. unfold kmemset. destruct (Z.eqb_spec t 0); [lia|]. done.
  - split; simpl; try done.
    + by eapply miss_ptree.
    + by eapply miss_spare.
    + by apply insert_subseteq.
    + intros q [r Hr]. apply lookup_insert_Some in Hr as [[<- _]|[_ H1]]; [right; rewrite EF; left|left; by eexists].
    + rewrite EF. by intros ? ?; right.
    + split; [done|]. simpl. by rewrite Hh'.
    + by eapply miss_frame.
    + intros q r j Hr _ Hj Hpr. eapply miss_word; try done. intros E. injection E as -> ->. congruence.
  - simpl. by rewrite (miss_level t F' EF m' Hlk Hz p rp k), decide_True.
  - intros va. simpl. by eapply miss_ptes.
Qed.
End level.

(** [walkpgdir] with [alloc] set: the entry exists afterwards, and the tree says
    what it said before. *)
Lemma walk_ok s pgd R F va : ptree (v_mem s) pgd R → spare (v_mem s) (v_freelist s) F R → vquiet s →
  (2 ≤ length F)%nat →
  ∃ s' R' F', walkpgdir pgd va true s = Ok (pt_of (v_mem s') pgd va + 8 * PTE_IDX va) s' ∧ walked pgd s R F s' R' F' ∧
    pmd_of (v_mem s') pgd va ≠ 0 ∧ R' !! pt_of (v_mem s') pgd va = Some (Pt (PGD_IDX va) (PMD_IDX va)) ∧
    (length F ≤ 2 + length F')%nat ∧ ∀ va', ptes (v_mem s') pgd va' = ptes (v_mem s) pgd va'.
Proof.
  intros Ht Hs Hq HF. pose proof (PGD_range va). pose proof (pt_root _ _ _ Ht) as Hr. pose proof (pt_kva _ _ _ Ht _ _ Hr) as Kr.
  destruct (level_ok s pgd R F Ht Hs Hq pgd (PGD_IDX va) Root (Pmd (PGD_IDX va)) Hr) as (s1 & R1 & F1 & t1 & E1 & W1 & H1 & N1 & L1 & P1).
  { left. split_and!; (done || lia). } { intros ->. simpl in HF. lia. }
  pose proof (pt_kva _ _ _ (wk_tree _ _ _ _ _ _ _ W1) _ _ N1) as K1. pose proof (kva_pos _ K1).
  destruct (level_ok s1 pgd R1 F1 (wk_tree _ _ _ _ _ _ _ W1) (wk_spare _ _ _ _ _ _ _ W1) (wk_quiet _ _ _ _ _ _ _ W1)
    t1 (PMD_IDX va) (Pmd (PGD_IDX va)) (Pt (PGD_IDX va) (PMD_IDX va)) N1) as (s2 & R2 & F2 & t2 & E2 & W2 & H2 & N2 & L2 & P2).
  { right. eexists. pose proof (PMD_range va). split_and!; (done || lia). } { intros ->. simpl in L1. lia. }
  pose proof (pt_kva _ _ _ (wk_tree _ _ _ _ _ _ _ W2) _ _ N2) as K2. pose proof (kva_pos _ K2).
  assert (Hpmd : pmd_of (v_mem s2) pgd va = t1).
  { rewrite H1. unfold pmd_of, level_at. rewrite (wk_keep _ _ _ _ _ _ _ W2 pgd Root); try done; [|lia|].
    - apply (pt_root _ _ _ (wk_tree _ _ _ _ _ _ _ W1)).
    - apply present_level. rewrite <- H1. lia. }
  assert (Hpt : pt_of (v_mem s2) pgd va = t2) by (unfold pt_of; by rewrite Hpmd).
  exists s2, R2, F2. rewrite Hpt, Hpmd. split; [|split; [|split; [lia|split; [done|split; [lia|]]]]].
  - unfold walkpgdir. rewrite (proj1 (kva_word pgd (PGD_IDX va) Kr ltac:(lia))), (bind_ok _ _ _ _ _ E1).
    destruct (Z.eqb_spec t1 0); [lia|]. rewrite (proj1 (kva_word t1 (PMD_IDX va) K1 ltac:(done))), (bind_ok _ _ _ _ _ E2).
    destruct (Z.eqb_spec t2 0); [lia|]. by rewrite (proj1 (kva_word t2 (PTE_IDX va) K2 ltac:(done))).
  - by eapply walked_trans.
  - intros va'. by rewrite P2, P1.
Qed.

(** ** Pages *)

(** Pages from that of [a] to that of [va], in the 32 bits a tree translates. *)
Definition pgoff (a va : Z) : Z := (va / 4096 - a / 4096) mod 2 ^ 20.
Lemma idx_split va : (va / 4096) mod 2 ^ 20 = PTE_IDX va + 512 * (PMD_IDX va + 512 * PGD_IDX va).
Proof.
  unfold PTE_IDX, PMD_IDX, PGD_IDX. change (512 - 1) with (Z.ones 9). change (PTRS_PER_PMD - 1) with (Z.ones 9).
  change (PTRS_PER_PGD - 1) with (Z.ones 2). rewrite !Z.land_ones, !Z.shiftr_div_pow2 by (unfold PTE_SHIFT; lia).
  change (2 ^ PTE_SHIFT) with 4096. change (2 ^ 20) with (512 * (512 * 4)). change (2 ^ 9) with 512. change (2 ^ 2) with 4.
  rewrite !Z.rem_mul_r, !Z.div_div by lia. done.
Qed.
Lemma pgoff_0 a va : pgoff a va = 0 ↔ PGD_IDX a = PGD_IDX va ∧ PMD_IDX a = PMD_IDX va ∧ PTE_IDX a = PTE_IDX va.
Proof.
  pose proof (PGD_range a). pose proof (PGD_range va). pose proof (PMD_range a). pose proof (PMD_range va).
  pose proof (PTE_range a). pose proof (PTE_range va). pose proof (idx_split a). pose proof (idx_split va).
  unfold pgoff. rewrite Zminus_mod. 
  pose proof (Z.mod_pos_bound (va / 4096) (2 ^ 20) ltac:(lia)). pose proof (Z.mod_pos_bound (a / 4096) (2 ^ 20) ltac:(lia)).
  set (x := (va / 4096) mod 2 ^ 20) in *. set (y := (a / 4096) mod 2 ^ 20) in *. split.
  - intros E. assert (x = y) by (apply Z.mod_divide in E as [q Hq]; lia). lia.
  - intros (E1 & E2 & E3). by replace (x - y) with 0 by lia.
Qed.
Lemma pgoff_next a va : 0 ≤ a → pgoff (a + 4096) va = if pgoff a va =? 0 then 2 ^ 20 - 1 else pgoff a va - 1.
Proof.
  intros Ha. unfold pgoff. replace ((a + 4096) / 4096) with (a / 4096 + 1) by (rewrite <- (Z.div_add a 1 4096) by lia; f_equal; lia).
  set (d := va / 4096 - a / 4096). replace (va / 4096 - (a / 4096 + 1)) with (d - 1) by (unfold d; lia).
  rewrite (Z.div_mod d (2 ^ 20)) at 1 by lia. pose proof (Z.mod_pos_bound d (2 ^ 20) ltac:(lia)).
  replace (2 ^ 20 * (d / 2 ^ 20) + d mod 2 ^ 20 - 1) with (d mod 2 ^ 20 - 1 + d / 2 ^ 20 * 2 ^ 20) by lia.
  rewrite Z_mod_plus_full. destruct (Z.eqb_spec (d mod 2 ^ 20) 0) as [->|]; [done|]. apply Z.mod_small. lia.
Qed.
Lemma pgoff_self a i : 0 ≤ i < 2 ^ 20 → 0 ≤ a → pgoff a (a + 4096 * i) = i.
Proof.
  intros Hi Ha. unfold pgoff. rewrite (Z.mul_comm 4096), Z.div_add by lia.
  replace (a / 4096 + i - a / 4096) with i by lia. apply Z.mod_small. lia.
Qed.

Lemma pgoff_range a va : 0 ≤ pgoff a va < 2 ^ 20.
Proof. by apply Z.mod_pos_bound. Qed.
Lemma pgoff_shift a n va : 0 ≤ n < 2 ^ 20 → pgoff (a + 4096 * n) va = 0 ↔ pgoff a va = n.
Proof.
  intros Hn. unfold pgoff. rewrite (Z.mul_comm 4096), Z.div_add by lia. set (d := va / 4096 - a / 4096).
  replace (va / 4096 - (a / 4096 + n)) with (d - n) by (unfold d; lia). rewrite Zminus_mod, (Z.mod_small n) by lia.
  pose proof (Z.mod_pos_bound d (2 ^ 20) ltac:(lia)). split.
  - intros E. apply Z.mod_divide in E as [q Hq]; lia.
  - intros ->. by rewrite Z.sub_diag.
Qed.

Lemma pgoff_in a va : a mod 4096 = 0 → a ≤ va < a + 2 ^ 32 → pgoff a va = (va - a) / 4096.
Proof.
  intros Ha Hva. pose proof (Z.div_mod a 4096 ltac:(lia)) as D. rewrite Ha in D. unfold pgoff.
  replace (va - a) with (va + - (a / 4096) * 4096) by lia. rewrite Z.div_add by lia.
  pose proof (Z.div_mod va 4096 ltac:(lia)). pose proof (Z.mod_pos_bound va 4096 ltac:(lia)). rewrite Z.mod_small; lia.
Qed.
Lemma ptes_page m pgd a va : pgoff a va = 0 → ptes m pgd va = ptes m pgd a.
Proof. intros (E1 & E2 & E3)%pgoff_0. unfold ptes, pte_addr. by rewrite E1, E2, E3. Qed.

(** ** Storing an entry *)

Lemma agree_ptree m m' pgd R : ptree m pgd R →
  (∀ q r j, R !! q = Some r → inner r → 0 ≤ j < 512 → ld64 m' (q + 8 * j) = ld64 m (q + 8 * j)) → ptree m' pgd R.
Proof.
  intros [P1 P2 P3 P4] H. split; try done.
  - intros i Hi. unfold present, level_at. rewrite (H pgd Root) by (done || lia). by apply P3.
  - intros t i j Ht Hj. unfold present, level_at. rewrite (H t (Pmd i)) by done. by apply P4.
Qed.
Lemma agree_ptes m m' pgd R : ptree m pgd R →
  (∀ q r j, R !! q = Some r → 0 ≤ j < 512 → ld64 m' (q + 8 * j) = ld64 m (q + 8 * j)) → ∀ va, ptes m' pgd va = ptes m pgd va.
Proof.
  intros T Hw va. assert (T2 : ptree m' pgd R) by (apply (agree_ptree m); [done|]; intros q r j Hq _; by apply (Hw q r)).
  pose proof (PGD_range va). rewrite (ptes_eq _ _ _ T), (ptes_eq _ _ _ T2).
  assert (E1 : pmd_of m' pgd va = pmd_of m pgd va).
  { unfold pmd_of, level_at. rewrite (Hw pgd Root); [done|apply T|lia]. }
  rewrite E1. destruct (Z.eqb_spec (pmd_of m pgd va) 0) as [|H1]; [done|].
  assert (E2 : pt_of m' pgd va = pt_of m pgd va).
  { unfold pt_of, level_at. rewrite E1. by rewrite (Hw _ _ _ (pmd_role _ _ _ T va H1)). }
  rewrite E2. destruct (Z.eqb_spec (pt_of m pgd va) 0) as [|H2]; [done|].
  by rewrite (Hw _ _ _ (pt_role _ _ _ T va H1 H2)).
Qed.
Lemma put_ok pgd s R F va v : ptree (v_mem s) pgd R → spare (v_mem s) (v_freelist s) F R → vquiet s →
  pmd_of (v_mem s) pgd va ≠ 0 → R !! pt_of (v_mem s) pgd va = Some (Pt (PGD_IDX va) (PMD_IDX va)) → u64 v = v →
  let s' := set_v_mem (st64 (pt_of (v_mem s) pgd va + 8 * PTE_IDX va) v (v_mem s)) s in
  walked pgd s R F s' R F ∧ ∀ va', ptes (v_mem s') pgd va' = if pgoff va va' =? 0 then v else ptes (v_mem s) pgd va'.
Proof.
  intros Ht Hs Hq Hpm Hr Hv s'. set (a := pt_of (v_mem s) pgd va + 8 * PTE_IDX va) in *. pose proof (PTE_range va) as Hi.
  pose proof (pt_kva _ _ _ Ht _ _ Hr) as Kt. set (t := pt_of (v_mem s) pgd va) in *.
  assert (Hb : ∀ b, ¬ (t ≤ b < t + 4096) → ld8 (v_mem s') b = ld8 (v_mem s) b).
  { intros b Hb. change (v_mem s') with (st64 a v (v_mem s)). unfold st64. rewrite ld8_st_bytes. unfold zlen. rewrite length_le_enc. by case_match; [lia|]. }
  assert (Hw : ∀ q r j, R !! q = Some r → inner r → 0 ≤ j < 512 → ld64 (v_mem s') (q + 8 * j) = ld64 (v_mem s) (q + 8 * j)).
  { intros q r j Hq' Hin Hj. apply (agree_ld64 _ _ (λ p, p = q)); [|done|done]. intros ? b -> Hb'. apply Hb. intros Hb2.
    assert (q ≠ t) by (intros ->; rewrite Hr in Hq'; by injection Hq' as <-).
    by apply (kva_disjoint q t b b (pt_kva _ _ _ Ht _ _ Hq') Kt). }
  assert (Ht' : ptree (v_mem s') pgd R) by (by eapply agree_ptree).
  split.
  - split; try done; auto.
    + destruct Hs as [Hc Hn Ho]. split; try done. eapply chain_agree; [|exact Hc]. intros q Hq' Kq. unfold ld64. f_equal.
      apply ld_bytes_ext. intros b Hb'. apply Hb. intros Hb2.
      assert (q ≠ t) by (intros ->; rewrite Ho in Hr; done). by apply (kva_disjoint q t b b Kq Kt); (done || lia).
    + intros q b (Kq & HR & _) Hb'. apply Hb. intros Hb2. assert (q ≠ t) by (intros ->; congruence).
      by apply (kva_disjoint q t b b Kq Kt).
    + intros q r j H1 H2 H3 _. by apply (Hw q r j).
  - intros va'. rewrite (ptes_eq _ _ _ Ht), (ptes_eq _ _ _ Ht').
    assert (E1 : pmd_of (v_mem s') pgd va' = pmd_of (v_mem s) pgd va').
    { unfold pmd_of, level_at. pose proof (PGD_range va'). by rewrite (Hw pgd Root) by (apply Ht || done || lia). }
    rewrite E1. destruct (Z.eqb_spec (pmd_of (v_mem s) pgd va') 0) as [H0|H1].
    { destruct (Z.eqb_spec (pgoff va va') 0) as [E|]; [|done]. apply pgoff_0 in E as (E & _). unfold pmd_of in *. by rewrite E in Hpm. }
    assert (E2 : pt_of (v_mem s') pgd va' = pt_of (v_mem s) pgd va').
    { unfold pt_of, level_at. rewrite E1. by rewrite (Hw _ (Pmd (PGD_IDX va'))) by (done || by apply (pmd_role _ _ _ Ht)). }
    rewrite E2. pose proof (kva_pos _ Kt). destruct (Z.eqb_spec (pt_of (v_mem s) pgd va') 0) as [H0|H2].
    { destruct (Z.eqb_spec (pgoff va va') 0) as [E|]; [|done]. apply pgoff_0 in E as (E & E' & _). exfalso.
      unfold t, pt_of, pmd_of in *. rewrite E, E' in *. lia. }
    change (v_mem s') with (st64 a v (v_mem s)). destruct (Z.eqb_spec (pgoff va va') 0) as [E|E].
    { apply pgoff_0 in E as (E & E' & E''). assert (pt_of (v_mem s) pgd va' = t) as -> by (unfold t, pt_of, pmd_of; by rewrite E, E').
      rewrite <- E''. fold a. by rewrite ld64_st64. }
    apply ld64_st64_other. pose proof (pt_role _ _ _ Ht va' H1 H2) as Hr'. pose proof (PTE_range va').
    destruct (decide (pt_of (v_mem s) pgd va' = t)) as [Et|Et].
    + rewrite Et in *. rewrite Hr in Hr'. injection Hr' as Ei Ej.
      assert (PTE_IDX va ≠ PTE_IDX va') by (intros Ek; apply E, pgoff_0; done). lia.
    + pose proof (pt_kva _ _ _ Ht _ _ Hr') as Kt'.
      pose proof (proj2 (proj2 Kt)) as Mt. pose proof (proj2 (proj2 Kt')) as Mt'.
      apply Z.mod_divide in Mt as [x Hx], Mt' as [y Hy]; lia.
Qed.

(** ** [mappages] *)

(** The entry of [va] when [n] pages from [a] are mapped to [pa] on. *)
Definition remap (a n pa ap va old : Z) : Z :=
  if pgoff a va <? n then pte_of (pa + 4096 * pgoff a va) ap else old.
Lemma map_one pgd s R F a pa ap : ptree (v_mem s) pgd R → spare (v_mem s) (v_freelist s) F R → vquiet s →
  (2 ≤ length F)%nat → 0 ≤ pa < 2 ^ 32 → pa mod 4096 = 0 → is_ap ap → Z.land (ptes (v_mem s) pgd a) 3 = 0 →
  ∃ s' R' F', (∀ f : M vmst Z, (let* pte := walkpgdir pgd a true in
      if pte =? 0 then ret (-1) else
      let* v := load64 pte in
      panic_if (ztrue (Z.land v (Z.lor ENTRY_PAGE ENTRY_VALID))) "remap" ;;
      store64 pte (pte_of pa ap) ;; f) s = f s') ∧ walked pgd s R F s' R' F' ∧ (length F ≤ 2 + length F')%nat ∧
    ∀ va, ptes (v_mem s') pgd va = if pgoff a va =? 0 then pte_of pa ap else ptes (v_mem s) pgd va.
Proof.
  intros Ht Hs Hq HF Hpa Hpm Hap Hfree.
  destruct (walk_ok s pgd R F a Ht Hs Hq HF) as (s1 & R1 & F1 & E1 & W1 & N1 & N1' & L1 & P1).
  destruct (pte_of_ok pa ap Hpa Hpm Hap) as (U1 & _).
  pose proof (wk_tree _ _ _ _ _ _ _ W1) as T1. pose proof (pt_kva _ _ _ T1 _ _ N1') as K1.
  destruct (put_ok pgd s1 R1 F1 a (pte_of pa ap) T1 (wk_spare _ _ _ _ _ _ _ W1) (wk_quiet _ _ _ _ _ _ _ W1) N1 N1' U1) as [W2 P2].
  eexists _, R1, F1. split; [|split; [by eapply walked_trans|split; [done|]]].
  - intros f. rewrite (bind_ok _ _ _ _ _ E1). pose proof (PTE_range a). pose proof (kva_pos _ K1).
    destruct (Z.eqb_spec (pt_of (v_mem s1) pgd a + 8 * PTE_IDX a) 0); [lia|].
    rewrite (bind_ok _ _ _ (ptes (v_mem s1) pgd a) s1).
    2: { rewrite (ptes_eq _ _ _ T1). destruct (Z.eqb_spec (pmd_of (v_mem s1) pgd a) 0); [done|].
         by destruct (Z.eqb_spec (pt_of (v_mem s1) pgd a) 0); [lia|]. }
    rewrite P1. change (Z.lor ENTRY_PAGE ENTRY_VALID) with 3. by rewrite Hfree.
  - intros va. rewrite P2. by rewrite P1.
Qed.
Lemma map_loop_ok n : ∀ pgd s R F a pa ap, ptree (v_mem s) pgd R → spare (v_mem s) (v_freelist s) F R → vquiet s →
  (2 * S n ≤ length F)%nat → 0 ≤ a → a + 4096 * (Z.of_nat n + 1) ≤ 2 ^ 64 → Z.of_nat n < 2 ^ 20 →
  0 ≤ pa → pa mod 4096 = 0 → pa + 4096 * (Z.of_nat n + 1) ≤ 2 ^ 32 → is_ap ap →
  (∀ i, 0 ≤ i ≤ Z.of_nat n → Z.land (ptes (v_mem s) pgd (a + 4096 * i)) 3 = 0) →
  ∃ s' R' F', map_loop (S n) pgd a (a + 4096 * Z.of_nat n) pa ap s = Ok 0 s' ∧ walked pgd s R F s' R' F' ∧
    (length F ≤ 2 * S n + length F')%nat ∧
    ∀ va, ptes (v_mem s') pgd va = remap a (Z.of_nat n + 1) pa ap va (ptes (v_mem s) pgd va).
Proof.
  induction n as [|n IH]; intros pgd s R F a pa ap Ht Hs Hq HF Ha Hav Hn Hpa Hpm Hpv Hap Hfree.
  all: destruct (map_one pgd s R F a pa ap Ht Hs Hq ltac:(lia) ltac:(lia) Hpm Hap) as (s1 & R1 & F1 & E1 & W1 & L1 & P1);
    [by rewrite <- (Z.add_0_r a), <- (Z.mul_0_r 4096); apply Hfree; lia|].
  - exists s1, R1, F1. cbn [map_loop]. rewrite E1. replace (a =? a + 4096 * Z.of_nat 0) with true by lia.
    split; [done|]. split; [done|]. split; [lia|]. intros va. rewrite P1. unfold remap.
    pose proof (Z.mod_pos_bound (va / 4096 - a / 4096) (2 ^ 20) ltac:(lia)) as Hr. fold (pgoff a va) in Hr.
    destruct (Z.eqb_spec (pgoff a va) 0) as [->|]; [by rewrite Z.mul_0_r, Z.add_0_r|]. by destruct (Z.ltb_spec (pgoff a va) (Z.of_nat 0 + 1)); [lia|].
  - destruct (IH pgd s1 R1 F1 (a + 4096) (pa + 4096) ap) as (s2 & R2 & F2 & E2 & W2 & L2 & P2);
      try apply W1; try done; try lia.
    { by rewrite <- Zplus_mod_idemp_r, Z_mod_same_full, Z.add_0_r. }
    { intros i Hi. rewrite P1. replace (a + 4096 + 4096 * i) with (a + 4096 * (i + 1)) by lia.
      rewrite pgoff_self by lia. destruct (Z.eqb_spec (i + 1) 0); [lia|]. apply Hfree. lia. }
    exists s2, R2, F2. split; [|split; [by eapply walked_trans|split; [lia|]]].
    + remember (S n) as n'. cbn [map_loop]. rewrite E1. destruct (Z.eqb_spec a (a + 4096 * Z.of_nat n')); [lia|].
      change PTE_SZ with 4096. rewrite u64_small, u32_small by lia. subst n'.
      replace (a + 4096 * Z.of_nat (S n)) with (a + 4096 + 4096 * Z.of_nat n) by lia. exact E2.
    + intros va. rewrite P2, P1. unfold remap. rewrite pgoff_next by done.
      pose proof (Z.mod_pos_bound (va / 4096 - a / 4096) (2 ^ 20) ltac:(lia)) as Hr. fold (pgoff a va) in Hr.
      destruct (Z.eqb_spec (pgoff a va) 0) as [->|].
      * destruct (Z.ltb_spec (2 ^ 20 - 1) (Z.of_nat n + 1)); [lia|]. destruct (Z.ltb_spec 0 (Z.of_nat (S n) + 1)); [|lia].
        by rewrite Z.mul_0_r, Z.add_0_r.
      * destruct (Z.ltb_spec (pgoff a va - 1) (Z.of_nat n + 1)), (Z.ltb_spec (pgoff a va) (Z.of_nat (S n) + 1)); try lia.
        f_equal. lia.
Qed.

Lemma align_dn_page z : 0 ≤ z < 2 ^ 64 → align_dn z PTE_SZ = z / 4096 * 4096.
Proof. intros Hz. unfold align_dn. change (PTE_SZ - 1) with (2 ^ 12 - 1). by rewrite land_mask64 by lia. Qed.

(** The number of pages that [size] bytes from [va] on touch. *)
Definition npages (va size : Z) : Z := (va + size - 1) / 4096 - va / 4096 + 1.

Lemma npages_1 va : va mod 4096 = 0 → npages va 4096 = 1.
Proof.
  intros Hm. pose proof (Z.div_mod va 4096 ltac:(lia)) as D. rewrite Hm in D. unfold npages.
  replace (va + 4096 - 1) with (4095 + va / 4096 * 4096) by lia. rewrite Z.div_add by lia. change (4095 / 4096) with 0. lia.
Qed.
Lemma mappages_ok pgd s R F va size pa ap : ptree (v_mem s) pgd R → spare (v_mem s) (v_freelist s) F R → vquiet s →
  0 ≤ va → 0 < size < 2 ^ 32 → va + size ≤ 2 ^ 64 → (2 * Z.to_nat (npages va size) ≤ length F)%nat →
  0 ≤ pa → pa mod 4096 = 0 → pa + 4096 * npages va size ≤ 2 ^ 32 → is_ap ap →
  (∀ va', pgoff va va' < npages va size → Z.land (ptes (v_mem s) pgd va') 3 = 0) →
  ∃ s' R' F', mappages pgd va size pa ap s = Ok 0 s' ∧ walked pgd s R F s' R' F' ∧
    (length F ≤ 2 * Z.to_nat (npages va size) + length F')%nat ∧
    ∀ va', ptes (v_mem s') pgd va' =
      if pgoff va va' <? npages va size then pte_of (pa + 4096 * pgoff va va') ap else ptes (v_mem s) pgd va'.
Proof.
  intros Ht Hs Hq Hva Hsz Hle HF Hpa Hpm Hpv Hap Hfree.
  assert (Hdiv : va / 4096 ≤ (va + size - 1) / 4096) by (apply Z.div_le_mono; lia).
  pose proof (Z.div_mod va 4096 ltac:(lia)) as Dv. pose proof (Z.mod_pos_bound va 4096 ltac:(lia)) as Bv.
  pose proof (Z.div_mod (va + size - 1) 4096 ltac:(lia)) as Dl. pose proof (Z.mod_pos_bound (va + size - 1) 4096 ltac:(lia)) as Bl.
  set (n := npages va size) in *. assert (Hn : 1 ≤ n) by (unfold n, npages; lia).
  assert (Hl : 4096 * ((va + size - 1) / 4096) + 4096 ≤ 2 ^ 64) by lia.
  set (a := va / 4096 * 4096). assert (Hoff : ∀ va', pgoff a va' = pgoff va va') by (intros; unfold pgoff, a; by rewrite Z.div_mul).
  assert (Ea : a = va / 4096 * 4096) by done. assert (En : n = (va + size - 1) / 4096 - va / 4096 + 1) by done.
  destruct (map_loop_ok (Z.to_nat (n - 1)) pgd s R F a pa ap Ht Hs Hq) as (s' & R' & F' & E & W & L & P); try done; try lia.
  { intros i Hi. apply Hfree. rewrite <- Hoff, pgoff_self; lia. }
  exists s', R', F'. split; [|split; [done|split; [lia|]]].
  - unfold mappages. rewrite (u64_small (va + size - 1)) by lia. rewrite !align_dn_page by lia.
    replace ((va + size - 1) / 4096 * 4096) with (a + 4096 * Z.of_nat (Z.to_nat (n - 1))) by lia.
    rewrite (u64_small (a + 4096 * Z.of_nat (Z.to_nat (n - 1)) - va / 4096 * 4096)) by lia. rewrite (u32_small pa) by lia. change PTE_SZ with 4096.
    replace (Z.to_nat ((a + 4096 * Z.of_nat (Z.to_nat (n - 1)) - va / 4096 * 4096) / 4096 + 1)) with (S (Z.to_nat (n - 1))); [exact E|].
    fold a. replace (a + 4096 * Z.of_nat (Z.to_nat (n - 1)) - a) with ((n - 1) * 4096) by lia. rewrite Z.div_mul by lia. lia.
  - intros va'. rewrite P. unfold remap. rewrite Hoff. by replace (Z.of_nat (Z.to_nat (n - 1)) + 1) with n by lia.
Qed.

(** C23: when none of the pages of a range is mapped, [mappages] maps each of them to
    its page of the physical range with the given permissions and leaves every
    other page mapped as it was; memory that is neither a table of this tree nor
    was a spare table does not change.  The boot-time list has two spare tables for
    every page. *)
Theorem mappages_spec pgd s R F va size pa ap : ptree (v_mem s) pgd R → spare (v_mem s) (v_freelist s) F R → vquiet s →
  0 ≤ va → 0 < size < 2 ^ 32 → va + size ≤ 2 ^ 64 → (2 * Z.to_nat (npages va size) ≤ length F)%nat →
  0 ≤ pa → pa mod 4096 = 0 → pa + 4096 * npages va size ≤ 2 ^ 32 → is_ap ap →
  (∀ va', pgoff va va' < npages va size → Z.land (ptes (v_mem s) pgd va') 3 = 0) →
  ∃ s' R' F', mappages pgd va size pa ap s = Ok 0 s' ∧ walked pgd s R F s' R' F' ∧
    (length F ≤ 2 * Z.to_nat (npages va size) + length F')%nat ∧
    ∀ va', ptes (v_mem s') pgd va' =
      if pgoff va va' <? npages va size then pte_of (pa + 4096 * pgoff va va') ap else ptes (v_mem s) pgd va'.
Proof. apply mappages_ok. Qed.

(** ** Witness *)

(** Tables 0 to 2 map page 0 to the first page of a heap; 3 to 10 are spare. *)
Definition demo_t (i : Z) : Z := 0xFFFFFFFF40100000 + 4096 * i.
Definition demo_tables : gmap Z Z :=
  st64 (demo_t 0) (table_entry (demo_t 1)) (st64 (demo_t 1) (table_entry (demo_t 2))
    (st64 (demo_t 2) (pte_of 0x40201000 AP_RW_1_0)
      (foldr (λ i m, st64 (demo_t i) (demo_t (i + 1)) m) ∅ (seqZ 3 7)))).
Definition demo_roles : gmap Z role := {[demo_t 0 := Root; demo_t 1 := Pmd 0; demo_t 2 := Pt 0 0]}.
Definition demo_free_tables : list Z := demo_t <$> seqZ 3 8.
Definition demo_vm (h : kheap) : vmst := VmSt h (demo_t 3) demo_tables.

Lemma demo_kva i : 0 ≤ i < 256 → kva (demo_t i).
Proof.
  intros Hi. unfold kva, demo_t, KERNBASE. split; [lia|]. split; [lia|]. rewrite (Z.mul_comm 4096), Z_mod_plus_full. reflexivity.
Qed.
Lemma demo_entries : forallb (λ j, negb (present demo_tables (demo_t 0 + 8 * j)) || (j =? 0)) (seqZ 0 4) = true ∧
  forallb (λ j, negb (present demo_tables (demo_t 1 + 8 * j)) || (j =? 0)) (seqZ 0 512) = true.
Proof. split; vm_compute; reflexivity. Qed.
Lemma demo_entry t n j : forallb (λ j, negb (present demo_tables (t + 8 * j)) || (j =? 0)) (seqZ 0 n) = true → 0 ≤ j < n →
  present demo_tables (t + 8 * j) = true → j = 0.
Proof.
  intros H Hj Hp. rewrite forallb_forall in H. specialize (H j). rewrite Hp in H. apply Z.eqb_eq, H, list_elem_of_In, elem_of_seqZ. lia.
Qed.
Lemma demo_tree : ptree demo_tables (demo_t 0) demo_roles.
Proof.
  split.
  - reflexivity.
  - intros t r Ht. unfold demo_roles in Ht. repeat (apply lookup_insert_Some in Ht as [[<- _]|[_ Ht]]; [by apply demo_kva|]).
    apply lookup_singleton_Some in Ht as [<- _]. by apply demo_kva.
  - intros i Hi Hp. rewrite (demo_entry _ 4 i (proj1 demo_entries) Hi Hp). vm_compute. reflexivity.
  - intros t i j Ht Hj Hp. assert (t = demo_t 1 ∧ i = 0) as [-> ->].
    { unfold demo_roles in Ht. repeat (apply lookup_insert_Some in Ht as [[<- E]|[_ Ht]]; [by simplify_eq|]).
      apply lookup_singleton_Some in Ht as [_ E]. done. }
    rewrite (demo_entry _ 512 j (proj2 demo_entries) Hj Hp). vm_compute. reflexivity.
Qed.
Lemma demo_chain : chain demo_tables (demo_t 3) demo_free_tables.
Proof.
  assert (Hs : ∀ i, i ∈ seqZ 3 7 → ld64 demo_tables (demo_t i) = demo_t (i + 1)).
  { intros i Hi. vm_compute in Hi. repeat (apply elem_of_cons in Hi as [->|Hi]; [vm_compute; reflexivity|]). by apply elem_of_nil in Hi. }
  unfold demo_free_tables. cbn [seqZ fmap list_fmap].
  repeat (split; [reflexivity|split; [by apply demo_kva|]]; first [rewrite Hs by (apply elem_of_seqZ; lia)|vm_compute; reflexivity]).
Qed.
Lemma demo_spare : spare demo_tables (demo_t 3) demo_free_tables demo_roles.
Proof.
  split; [apply demo_chain| |].
  - apply NoDup_fmap_2; [|apply NoDup_seqZ]. intros i j E. unfold demo_t in E. lia.
  - intros t (i & -> & Hi%elem_of_seqZ)%list_elem_of_fmap. unfold demo_roles.
    assert (Hne : ∀ j, 0 ≤ j < 3 → demo_t j ≠ demo_t i) by (unfold demo_t; lia).
    rewrite !lookup_insert_ne by (apply Hne; lia). apply lookup_singleton_ne, Hne. lia.
Qed.
Lemma demo_unmapped va : 0 ≤ va < 2 ^ 30 → pgoff 0 va ≠ 0 → Z.land (ptes demo_tables (demo_t 0) va) 3 = 0.
Proof.
  intros Hva Hoff. rewrite (ptes_eq _ _ _ demo_tree). assert (E0 : PGD_IDX va = 0).
  { unfold PGD_IDX. change (PTRS_PER_PGD - 1) with (Z.ones 2). rewrite Z.land_ones, Z.shiftr_div_pow2, Z.div_small by lia. done. }
  assert (E1 : pmd_of demo_tables (demo_t 0) va = demo_t 1) by (unfold pmd_of; rewrite E0; vm_compute; reflexivity).
  rewrite E1. unfold pt_of. rewrite E1. cbn [Z.eqb demo_t]. destruct (Z.eqb_spec (demo_t 1) 0); [done|].
  destruct (Z.eqb_spec (level_at demo_tables (demo_t 1 + 8 * PMD_IDX va)) 0) as [|Hne]; [done|].
  pose proof (demo_entry _ 512 _ (proj2 demo_entries) (PMD_range va) (present_level _ _ Hne)) as E2. rewrite E2.
  replace (level_at demo_tables (demo_t 1 + 8 * 0)) with (demo_t 2) by (vm_compute; reflexivity).
  assert (Hall : forallb (λ j, (ld64 demo_tables (demo_t 2 + 8 * j) =? 0) || (j =? 0)) (seqZ 0 512) = true) by (vm_compute; reflexivity).
  rewrite forallb_forall in Hall. pose proof (PTE_range va) as Hr. specialize (Hall (PTE_IDX va) ltac:(apply list_elem_of_In, elem_of_seqZ; lia)).
  apply orb_true_iff in Hall as [->%Z.eqb_eq|E3%Z.eqb_eq]; [done|]. destruct Hoff. apply pgoff_0. rewrite E0, E2, E3. done.
Qed.
Lemma mappages_spec_witness (h := Kheap (Mach 0 0 0 ∅ 0) (Kmem 0 0 0 [] ∅)) :
  ∃ s', mappages (demo_t 0) 4096 5000 0x40300000 AP_RW_1_0 (demo_vm h) = Ok 0 s' ∧
    ptes (v_mem s') (demo_t 0) 8200 = pte_of 0x40301000 AP_RW_1_0 ∧ ptes (v_mem s') (demo_t 0) 0 = pte_of 0x40201000 AP_RW_1_0.
Proof.
  destruct (mappages_spec (demo_t 0) (demo_vm h) demo_roles demo_free_tables 4096 5000 0x40300000 AP_RW_1_0) as (s' & R' & F' & E & _ & _ & P).
  - apply demo_tree.
  - apply demo_spare.
  - split; [split; simpl; [lia|lia]|apply not_elem_of_empty].
  - lia.
  - lia.
  - lia.
  - vm_compute. lia.
  - lia.
  - reflexivity.
  - vm_compute. discriminate.
  - reflexivity.
  - intros va Hva. change (npages 4096 5000) with 2 in Hva. pose proof (pgoff_range 4096 va).
    rewrite (ptes_page _ _ (4096 + 4096 * pgoff 4096 va)) by (apply pgoff_shift; lia).
    apply demo_unmapped; [lia|]. replace (4096 + 4096 * pgoff 4096 va) with (0 + 4096 * (pgoff 4096 va + 1)) by lia.
    rewrite pgoff_self by lia. lia.
  - exists s'. split; [exact E|]. rewrite !P. split; [reflexivity|]. vm_compute. reflexivity.
Defined.
