(* ===== verification/Uvm.v ===== *)
(** User memory: [allocuvm], [deallocuvm] and [copyuvm] of [vm.c] as operations on
    the pages of an address space.

    The tables of a space come from the boot-time list, which lies below the heap
    of the buddy allocator; the pages of the process are blocks of the heap. *)

From S2P Require Import Prelude Spin Sched Mem Str Dll Buddy Vm Pgtab.

Section uvm.
Context (N NB : Z).

(** The page of [k]'s heap with number [b]. *)
Abbreviation frame k b := (addr k 12 b).
(** The page at [q] holds no free byte of the heap: it is allocated, or outside. *)
Definition held (k : kmem) (q : Z) : Prop :=
  ∀ u, indom NB u → q ≤ k_start_heap k + u < q + 4096 → ¬ free_at N k u.
Definition pgfree (k : kmem) (b : Z) : Prop := ∀ u, u / 4096 = b → free_at N k u.

(** An address space and the memory it grows from. *)
Record space (s : vmst) (pgd : Z) (R : gmap Z role) (F : list Z) : Prop := {
  sc_tree : ptree (v_mem s) pgd R;
  sc_spare : spare (v_mem s) (v_freelist s) F R;
  sc_quiet : vquiet s;
  sc_heap : heap_ok N NB (v_heap s);
  sc_high : KERNBASE ≤ k_start_heap (h_kmem (v_heap s));
  sc_low : ∀ t, is_Some (R !! t) ∨ t ∈ F → t + 4096 ≤ k_start_heap (h_kmem (v_heap s));
}.

Lemma order12 : is_order 12.
Proof. unfold is_order. lia. Qed.
Lemma nblks12 : nblks NB 12 = NB.
Proof. unfold nblks. change (2 ^ (12 - 12)) with 1. lia. Qed.
Lemma frame_kva h b : heap_ok N NB h → KERNBASE ≤ k_start_heap (h_kmem h) → 0 ≤ b < NB → kva (frame (h_kmem h) b).
Proof.
  intros Hok Hk Hb. destruct (geo_base _ _ _ (wf_geo _ _ _ (inv_wf _ _ _ (proj1 Hok)))) as (_ & Hm & He).
  unfold kva, addr. change (2 ^ 12) with 4096. split; [lia|]. split; [lia|]. by rewrite Z_mod_plus_full.
Qed.
Lemma frame_byte k b u : frame k b ≤ k_start_heap k + u < frame k b + 4096 ↔ u / 4096 = b.
Proof.
  unfold addr. change (2 ^ 12) with 4096. pose proof (Z.div_mod u 4096 ltac:(lia)). pose proof (Z.mod_pos_bound u 4096 ltac:(lia)).
  split; [intros|lia]. symmetry. apply (Z.div_unique u 4096 b (u - 4096 * b)); lia.
Qed.
(** A page with no free byte is not one that is free. *)
Lemma held_ne k q b : held k q → 0 ≤ b < NB → pgfree k b → q ≠ frame k b.
Proof.
  intros Hh Hb Hf ->. assert (Hd : (b * 4096) / 4096 = b) by (apply Z.div_mul; lia).
  apply (Hh (b * 4096)); [unfold indom; lia| |by apply Hf]. by apply frame_byte.
Qed.

(** ** Pages of the heap *)

Lemma page_ok s : heap_ok N NB (v_heap s) →
  ((zoom alloc_page : M vmst Z) s = Ok 0 (set_v_heap (vsaved s) s) ∧ ∀ b, 0 ≤ b < NB → ¬ pgfree (h_kmem (v_heap s)) b) ∨
  ∃ b h', 0 ≤ b < NB ∧ (zoom alloc_page : M vmst Z) s = Ok (frame (h_kmem (v_heap s)) b) (set_v_heap h' s) ∧
    heap_ok N NB h' ∧ same_bounds (h_kmem (v_heap s)) (h_kmem h') ∧ h_mach h' = saved (h_mach (v_heap s)) ∧
    pgfree (h_kmem (v_heap s)) b ∧
    ∀ u, indom NB u → free_at N (h_kmem h') u ↔ free_at N (h_kmem (v_heap s)) u ∧ u / 4096 ≠ b.
Proof.
  intros Hok. destruct (kmalloc_ok N NB (v_heap s) 12 Hok order12) as [[R Hno]|(b & h' & Hb & R & Hok' & [Hs Hm] & Hc & Hf)].
  - left. split; [exact (zoom_ok _ s _ _ R)|]. intros b Hb Hfr.
    destruct (covered_block N NB (h_kmem (v_heap s)) 12 b (proj1 Hok) order12 ltac:(by rewrite nblks12) Hfr) as (o & Ho & Hle & H).
    assert (o = 12) as -> by (unfold is_order in Ho; lia).
    specialize (H (b * 4096) (Z.div_mul b 4096 ltac:(lia))). change (2 ^ 12) with 4096 in H. rewrite Z.div_mul in H by lia.
    rewrite Hno in H; [done|apply order12|lia|by rewrite nblks12].
  - right. rewrite nblks12 in Hb. exists b, h'. split; [done|]. split; [exact (zoom_ok _ s _ _ R)|]. done.
Qed.
Lemma free_ok s b : heap_ok N NB (v_heap s) → 0 ≤ b < NB → held (h_kmem (v_heap s)) (frame (h_kmem (v_heap s)) b) →
  ∃ h', (zoom (free_page (frame (h_kmem (v_heap s)) b)) : M vmst unit) s = Ok tt (set_v_heap h' s) ∧
    heap_ok N NB h' ∧ same_bounds (h_kmem (v_heap s)) (h_kmem h') ∧ h_mach h' = saved (h_mach (v_heap s)) ∧
    ∀ u, indom NB u → free_at N (h_kmem h') u ↔ free_at N (h_kmem (v_heap s)) u ∨ u / 4096 = b.
Proof.
  intros Hok Hb Hh. destruct (kfree_ok N NB (v_heap s) 12 b Hok order12) as (h' & R & Hok' & [Hs Hm] & Hf).
  { by rewrite nblks12. }
  { intros u Hu. apply Hh; [apply (blk_dom NB 12 b); [apply order12|by rewrite nblks12|done]|by apply frame_byte]. }
  exists h'. split; [exact (zoom_ok _ s _ _ R)|]. done.
Qed.

(** ** Growing a space *)

(** From [s], the pages [ps] of the heap were mapped at [a] on, page [i] with the
    permissions [ap i] and the bytes [data i]. *)
Record grown (pgd a : Z) (ap : nat → Z) (data : nat → Z → Z) (s : vmst) (R : gmap Z role) (F : list Z) (ps : list Z)
    (s' : vmst) (R' : gmap Z role) (F' : list Z) : Prop := {
  gw_space : space s' pgd R' F';
  gw_new : ∀ t, is_Some (R' !! t) → is_Some (R !! t) ∨ t ∈ F;
  gw_left : F' ⊆ F;
  gw_len : (length F ≤ 2 * length ps + length F')%nat;
  gw_bounds : same_bounds (h_kmem (v_heap s)) (h_kmem (v_heap s'));
  gw_held : m_held (h_mach (v_heap s')) = m_held (h_mach (v_heap s));
  gw_frame : ∀ q x, kva q → R !! q = None → q ∉ F → held (h_kmem (v_heap s)) q → q ≤ x < q + 4096 →
    ld8 (v_mem s') x = ld8 (v_mem s) x;
  gw_ptes : ∀ va, ptes (v_mem s') pgd va =
    match ps !! Z.to_nat (pgoff a va) with Some p => pte_of (v2p p) (ap (Z.to_nat (pgoff a va))) | None => ptes (v_mem s) pgd va end;
  gw_nodup : NoDup ps;
  gw_pages : ∀ p, p ∈ ps → ∃ b, 0 ≤ b < NB ∧ p = frame (h_kmem (v_heap s)) b ∧ pgfree (h_kmem (v_heap s)) b;
  gw_free : ∀ u, indom NB u → free_at N (h_kmem (v_heap s')) u ↔
    free_at N (h_kmem (v_heap s)) u ∧ ∀ p, p ∈ ps → ¬ (p ≤ k_start_heap (h_kmem (v_heap s)) + u < p + 4096);
  gw_data : ∀ i p x, ps !! i = Some p → 0 ≤ x < 4096 → ld8 (v_mem s') (p + x) = data i x;
}.
Lemma grown_nil pgd a ap data s R F : space s pgd R F → grown pgd a ap data s R F [] s R F.
Proof.
  intros Hs. split; try done; auto; try set_solver.
  constructor.
Qed.
Lemma same_start k k' : same_bounds k k' → k_start_heap k' = k_start_heap k.
Proof. by intros (? & ? & ?). Qed.

Section step.
Context (pgd a : Z) (ap : nat → Z) (data : nat → Z → Z) (s : vmst) (R : gmap Z role) (F : list Z) (ps : list Z).
Context (s1 : vmst) (R1 : gmap Z role) (F1 : list Z) (Hg : grown pgd a ap data s R F ps s1 R1 F1).
Abbreviation k := (h_kmem (v_heap s)).
Abbreviation k1 := (h_kmem (v_heap s1)).
Abbreviation n := (length ps).

(** Pages that were in use, and the pages mapped so far, still are. *)
Lemma grown_held q : held k q → held k1 q.
Proof.
  intros Hh u Hu Hq Hf. rewrite (same_start _ _ (gw_bounds _ _ _ _ _ _ _ _ _ _ _ Hg)) in Hq.
  apply (gw_free _ _ _ _ _ _ _ _ _ _ _ Hg u Hu) in Hf as [Hf _]. by apply (Hh u).
Qed.
Lemma grown_page_held p : p ∈ ps → held k1 p.
Proof.
  intros Hp u Hu Hq Hf. rewrite (same_start _ _ (gw_bounds _ _ _ _ _ _ _ _ _ _ _ Hg)) in Hq.
  apply (gw_free _ _ _ _ _ _ _ _ _ _ _ Hg u Hu) in Hf as [_ Hf]. by apply (Hf p).
Qed.
Lemma grown_out p : kva p → k_start_heap k ≤ p → R1 !! p = None ∧ p ∉ F1.
Proof.
  intros Kp Hp. pose proof (sc_low _ _ _ _ (gw_space _ _ _ _ _ _ _ _ _ _ _ Hg) p) as Hl.
  rewrite (same_start _ _ (gw_bounds _ _ _ _ _ _ _ _ _ _ _ Hg)) in Hl. split.
  - destruct (R1 !! p); [|done]. specialize (Hl ltac:(left; by eexists)). lia.
  - intros HF. specialize (Hl ltac:(by right)). lia.
Qed.

(** A fresh page [b] with its contents written. *)
Context (b : Z) (h2 : kheap) (m2 : gmap Z Z).
Context (Hb : 0 ≤ b < NB) (Hok2 : heap_ok N NB h2) (Hs2 : same_bounds k1 (h_kmem h2)).
Context (Hm2 : h_mach h2 = saved (h_mach (v_heap s1))) (Hfr : pgfree k1 b).
Context (Hf2 : ∀ u, indom NB u → free_at N (h_kmem h2) u ↔ free_at N k1 u ∧ u / 4096 ≠ b).
Abbreviation p := (frame k1 b).
Context (Hin : ∀ x, 0 ≤ x < 4096 → ld8 m2 (p + x) = data n x).
Context (Hout : ∀ x, ¬ (p ≤ x < p + 4096) → ld8 m2 x = ld8 (v_mem s1) x).
Definition filled : vmst := VmSt h2 (v_freelist s1) m2.

Lemma fresh_kva : kva p.
Proof. apply frame_kva; try done; apply (gw_space _ _ _ _ _ _ _ _ _ _ _ Hg). Qed.
Lemma fresh_low : k_start_heap k ≤ p.
Proof. unfold addr. rewrite (same_start _ _ (gw_bounds _ _ _ _ _ _ _ _ _ _ _ Hg)). change (2 ^ 12) with 4096. lia. Qed.
Lemma fresh_frame : p = frame k b ∧ pgfree k b.
Proof.
  split; [unfold addr; by rewrite (same_start _ _ (gw_bounds _ _ _ _ _ _ _ _ _ _ _ Hg))|].
  intros u Hu. apply (gw_free _ _ _ _ _ _ _ _ _ _ _ Hg u); [|by apply Hfr].
  apply (blk_dom NB 12 b); [apply order12|by rewrite nblks12|done].
Qed.
(** Memory of other pages is as before. *)
Lemma fresh_other q x : kva q → q ≠ p → q ≤ x < q + 4096 → ld8 m2 x = ld8 (v_mem s1) x.
Proof. intros Kq Hq Hx. apply Hout. intros Hx'. by apply (kva_disjoint q p x x Kq fresh_kva Hq). Qed.
Lemma fresh_table t : is_Some (R1 !! t) ∨ t ∈ F1 → kva t → t ≠ p.
Proof.
  intros Ht Kt ->. destruct (grown_out p fresh_kva fresh_low) as [H1 H2]. destruct Ht as [[? Ht]|Ht]; [congruence|done].
Qed.
Lemma fresh_word q j : is_Some (R1 !! q) ∨ q ∈ F1 → kva q → 0 ≤ j < 512 → ld64 m2 (q + 8 * j) = ld64 (v_mem s1) (q + 8 * j).
Proof.
  intros Hq Kq Hj. apply (agree_ld64 _ _ (λ t, t = q)); [|done|done]. intros ? x -> Hx.
  apply (fresh_other q); [done|by apply fresh_table|done].
Qed.
Lemma fresh_space : space filled pgd R1 F1.
Proof.
  destruct (gw_space _ _ _ _ _ _ _ _ _ _ _ Hg) as [T S [Q1 Q2] H K L]. destruct (saved_wf _ Q1) as (Q1' & Q2' & _).
  split; simpl; try done.
  - apply (agree_ptree (v_mem s1)); [done|]. intros q r j Hq _ Hj. apply fresh_word; [left; by eexists|by apply (pt_kva _ _ _ T q r)|done].
  - destruct S as [S1 S2 S3]. split; try done. apply (chain_agree (v_mem s1)); [|done]. intros q Hq Kq.
    rewrite <- (Z.add_0_r q), <- (Z.mul_0_r 8). apply fresh_word; [by right|done|lia].
  - split; simpl; rewrite Hm2; [done|by rewrite Q2'].
  - by rewrite (same_start _ _ Hs2).
  - intros t Ht. rewrite (same_start _ _ Hs2). by apply L.
Qed.
Lemma fresh_ptes va : ptes m2 pgd va = ptes (v_mem s1) pgd va.
Proof.
  pose proof (sc_tree _ _ _ _ (gw_space _ _ _ _ _ _ _ _ _ _ _ Hg)) as T. apply (agree_ptes _ _ _ R1 T).
  intros q r j Hq Hj. apply fresh_word; [left; by eexists|by apply (pt_kva _ _ _ T q r)|done].
Qed.

Context (Ha : 0 ≤ a) (Ham : a mod 4096 = 0) (Hab : a + 4096 * (Z.of_nat n + 1) ≤ 2 ^ 32) (HF : (2 ≤ length F1)%nat).
Context (Hap : is_ap (ap n)) (Hnm : Z.land (ptes (v_mem s) pgd (a + 4096 * Z.of_nat n)) 3 = 0).
Lemma next_unmapped : Z.land (ptes m2 pgd (a + 4096 * Z.of_nat n)) 3 = 0.
Proof.
  rewrite fresh_ptes, (gw_ptes _ _ _ _ _ _ _ _ _ _ _ Hg), pgoff_self by lia. by rewrite Nat2Z.id, lookup_ge_None_2.
Qed.
Lemma next_map : ∃ s3 R3 F3, mappages pgd (a + 4096 * Z.of_nat n) PTE_SZ (v2p p) (ap n) filled = Ok 0 s3 ∧
  walked pgd filled R1 F1 s3 R3 F3 ∧ (length F1 ≤ 2 + length F3)%nat ∧
  ∀ va, ptes (v_mem s3) pgd va = if pgoff a va =? Z.of_nat n then pte_of (v2p p) (ap n) else ptes (v_mem s1) pgd va.
Proof.
  destruct fresh_space as [T S Q _ _ _]. destruct (kva_v2p p fresh_kva) as (P1 & P2 & P3).
  assert (Hm : (a + 4096 * Z.of_nat n) mod 4096 = 0) by (by rewrite (Z.mul_comm 4096), Z_mod_plus_full).
  pose proof (npages_1 _ Hm) as Hnp. assert (Hpb : v2p p + 4096 ≤ 2 ^ 32).
  { apply Z.mod_divide in P2 as [q Hq]; lia. }
  destruct (mappages_ok pgd filled R1 F1 (a + 4096 * Z.of_nat n) 4096 (v2p p) (ap n) T S Q) as (s3 & R3 & F3 & E & W & L & P);
    rewrite ?Hnp; try done; try lia.
  { intros va Hva. pose proof (pgoff_range (a + 4096 * Z.of_nat n) va). rewrite (ptes_page _ _ (a + 4096 * Z.of_nat n)) by lia.
    apply next_unmapped. }
  exists s3, R3, F3. split; [done|]. split; [done|]. split; [rewrite Hnp in L; lia|].
  intros va. rewrite P, Hnp. pose proof (pgoff_range (a + 4096 * Z.of_nat n) va). pose proof (pgoff_shift a (Z.of_nat n) va ltac:(lia)) as Hsh.
  destruct (Z.ltb_spec (pgoff (a + 4096 * Z.of_nat n) va) 1) as [Hlt|Hge], (Z.eqb_spec (pgoff a va) (Z.of_nat n)) as [He|He].
  - replace (pgoff (a + 4096 * Z.of_nat n) va) with 0 by lia. by rewrite Z.mul_0_r, Z.add_0_r.
  - destruct He. apply Hsh. lia.
  - apply Hsh in He. lia.
  - apply fresh_ptes.
Qed.

Lemma grow_page : ∃ s3 R3 F3, mappages pgd (a + 4096 * Z.of_nat n) PTE_SZ (v2p p) (ap n) filled = Ok 0 s3 ∧
  grown pgd a ap data s R F (ps ++ [p]) s3 R3 F3.
Proof.
  destruct next_map as (s3 & R3 & F3 & E & W & L & P). exists s3, R3, F3. split; [done|].
  destruct fresh_frame as [Ep Hpf]. pose proof Hg as [G1 G2 G3 G4 G5 G6 G7 G8 G9 G10 G11 G12].
  pose proof (wk_kmem _ _ _ _ _ _ _ W) as Ek. simpl in Ek. pose proof (wk_held _ _ _ _ _ _ _ W) as Eh. simpl in Eh.
  pose proof (same_start _ _ G5) as Es. pose proof (same_start _ _ Hs2) as Es2.
  assert (Hps : ∀ q, q ∈ ps → kva q ∧ k_start_heap k ≤ q ∧ q ≠ p).
  { intros q Hq. destruct (G10 q Hq) as (c & Hc & -> & _). 
    assert (frame k c = frame k1 c) as Ec by (unfold addr; by rewrite Es). split; [|split].
    - rewrite Ec. apply frame_kva; try done; apply G1.
    - unfold addr. change (2 ^ 12) with 4096. lia.
    - intros Eq. apply (held_ne k1 (frame k c) b); [by apply grown_page_held|done|done|done]. }
  assert (Hkeep : ∀ q x, kva q → R1 !! q = None → q ∉ F1 → q ≠ p → q ≤ x < q + 4096 → ld8 (v_mem s3) x = ld8 (v_mem s1) x).
  { intros q x Kq H1 H2 Hne Hx. rewrite (wk_frame _ _ _ _ _ _ _ W q x); [by apply (fresh_other q)|done|done]. }
  destruct (grown_out p fresh_kva fresh_low) as [Hp1 Hp2].
  split; try done.
  - split; try apply W; rewrite ?Ek.
    + destruct Hok2 as (I & C & Hl). split; [by rewrite Ek|]. split; [apply (wk_quiet _ _ _ _ _ _ _ W)|by rewrite Eh].
    + rewrite Es2. apply G1.
    + intros t Ht. rewrite Es2. apply (sc_low _ _ _ _ G1). destruct Ht as [Ht|Ht]; [by apply (wk_new _ _ _ _ _ _ _ W)|].
      right. by apply (wk_left _ _ _ _ _ _ _ W).
  - intros t Ht. destruct (wk_new _ _ _ _ _ _ _ W t Ht) as [H|H]; [by apply G2|right; by apply G3].
  - etrans; [apply (wk_left _ _ _ _ _ _ _ W)|done].
  - rewrite length_app. simpl. lia.
  - rewrite Ek. by eapply same_bounds_trans.
  - rewrite Eh, Hm2. by rewrite saved_held.
  - intros q x Kq HR HFq Hh Hx. rewrite (Hkeep q x), (G7 q x); try done.
    + destruct (R1 !! q) eqn:Eq; [|done]. destruct (G2 q ltac:(by eexists)) as [[? H]|H]; [congruence|done].
    + intros H. by apply HFq, G3.
    + rewrite Ep. by apply held_ne.
  - intros va. rewrite P. pose proof (pgoff_range a va). destruct (Z.eqb_spec (pgoff a va) (Z.of_nat n)) as [->|Hne].
    + by rewrite Nat2Z.id, lookup_app_r, Nat.sub_diag by lia.
    + rewrite G8. destruct (Z.lt_ge_cases (pgoff a va) (Z.of_nat n)).
      * by rewrite lookup_app_l by lia.
      * by rewrite !lookup_ge_None_2 by (rewrite ?length_app; simpl; lia).
  - apply NoDup_app. split; [done|]. split; [|by apply NoDup_singleton]. intros q Hq Hq'. apply list_elem_of_singleton in Hq' as ->.
    by destruct (Hps p Hq) as (_ & _ & ?).
  - intros q [Hq|Hq%list_elem_of_singleton]%elem_of_app; [by apply G10|]. subst q. exists b. by rewrite Ep.
  - intros u Hu. rewrite Ek, (Hf2 u Hu), (G11 u Hu). rewrite Ep. split.
    + intros [[H1 H2] H3]. split; [done|]. intros q [Hq|Hq%list_elem_of_singleton]%elem_of_app; [by apply H2|]. subst q. by rewrite frame_byte.
    + intros [H1 H2]. split; [split; [done|]; intros q Hq; apply H2, elem_of_app; by left|].
      intros Hub. apply (H2 (frame k b)); [apply elem_of_app; right; by apply list_elem_of_singleton|by apply frame_byte].
  - intros i q x Hi Hx. apply lookup_snoc_Some in Hi as [[Hlt Hi]|[-> <-]].
    + destruct (Hps q ltac:(by eapply list_elem_of_lookup_2)) as (Kq & Hq1 & Hq2). destruct (grown_out q Kq Hq1) as [Hr1 Hr2].
      rewrite (Hkeep q (q + x)); try done; [by apply G12|lia].
    + rewrite (wk_frame _ _ _ _ _ _ _ W p); [by apply Hin|by split; [apply fresh_kva|]|lia].
Qed.
End step.

(** The heap's lock leaves only the saved interrupt flag changed. *)
Lemma grown_saved pgd a ap data s R F ps s1 R1 F1 : grown pgd a ap data s R F ps s1 R1 F1 →
  grown pgd a ap data s R F ps (set_v_heap (vsaved s1) s1) R1 F1.
Proof.
  intros [[S1 S2 [S3 S4] (S5 & S6 & S7) S8 S9] G2 G3 G4 G5 G6 G7 G8 G9 G10 G11 G12].
  destruct (saved_wf _ S3) as (S3' & E' & _). split; simpl; try done.
  - split; simpl; try done; [split; simpl; [done|by rewrite E']|]. split; [done|]. simpl. by rewrite E'.
  - by rewrite E'.
Qed.

(** ** [allocuvm] *)

Section alloc.
Context (pgd a newsz : Z) (s : vmst) (R : gmap Z role) (F : list Z) (K : nat).
Context (HK : ∀ i : nat, a + 4096 * Z.of_nat i < newsz ↔ (i < K)%nat).
Context (Ha : 0 ≤ a) (Ham : a mod 4096 = 0) (Hab : newsz ≤ 2 ^ 28) (HF : (2 * K ≤ length F)%nat).
Context (Hun : ∀ i : nat, (i < K)%nat → Z.land (ptes (v_mem s) pgd (a + 4096 * Z.of_nat i)) 3 = 0).
Abbreviation zeroed := (grown pgd a (λ _, AP_RW_1_0) (λ _ _, 0) s R F).

Lemma alloc_loop_ok j : ∀ fuel ps s1 R1 F1, zeroed ps s1 R1 F1 → (length ps + j = K)%nat → (j ≤ fuel)%nat →
  ∃ ok ps' s' R' F', alloc_loop fuel pgd (a + 4096 * Z.of_nat (length ps)) newsz s1 = Ok ok s' ∧ zeroed ps' s' R' F' ∧
    if ok : bool then length ps' = K
    else (length ps' < K)%nat ∧ ∀ b, 0 ≤ b < NB → ¬ pgfree (h_kmem (v_heap s')) b.
Proof.
  induction j as [|j IH]; intros fuel ps s1 R1 F1 Hg HL Hf; pose proof (gw_len _ _ _ _ _ _ _ _ _ _ _ Hg).
  - exists true, ps, s1, R1, F1. split; [|split; [done|lia]].
    assert (¬ a + 4096 * Z.of_nat (length ps) < newsz) by (rewrite HK; lia).
    destruct fuel; cbn [alloc_loop]; (destruct (Z.ltb_spec (a + 4096 * Z.of_nat (length ps)) newsz); [lia|done]).
  - destruct fuel as [|fuel]; [lia|]. cbn [alloc_loop].
    assert (a + 4096 * Z.of_nat (length ps) < newsz) as Hlt by (apply HK; lia).
    destruct (Z.ltb_spec (a + 4096 * Z.of_nat (length ps)) newsz); [|lia].
    destruct (page_ok s1 (sc_heap _ _ _ _ (gw_space _ _ _ _ _ _ _ _ _ _ _ Hg))) as [[Ra Hno]|(b & h2 & Hb & Ra & Hok & Hs2 & Hm & Hfr & Hf2)].
    + exists false, ps, (set_v_heap (vsaved s1) s1), R1, F1. rewrite (bind_ok _ _ _ _ _ Ra). cbn [Z.eqb].
      split; [done|]. split; [by apply grown_saved|]. split; [lia|done].
    + pose proof (fresh_kva pgd a _ _ s R F ps s1 R1 F1 Hg b Hb) as Kp. pose proof (kva_pos _ Kp).
      set (p := frame (h_kmem (v_heap s1)) b) in *. set (m2 := memset (v_mem s1) p 0 PTE_SZ).
      destruct (grow_page pgd a (λ _, AP_RW_1_0) (λ _ _, 0) s R F ps s1 R1 F1 Hg b h2 m2) as (s3 & R3 & F3 & E & Hg3); try done; try lia.
      { intros x Hx. unfold m2. rewrite ld8_memset. change PTE_SZ with 4096. by case_match; [|lia]. }
      { intros x Hx. unfold m2. rewrite ld8_memset. change PTE_SZ with 4096. by case_match; [lia|]. }
      { apply Hun. lia. }
      destruct (IH fuel (ps ++ [p]) s3 R3 F3 Hg3) as (ok & ps' & s' & R' & F' & E' & Hg' & Hend).
      { rewrite length_app. simpl. lia. } { lia. }
      exists ok, ps', s', R', F'. split; [|done]. rewrite (bind_ok _ _ _ _ _ Ra). destruct (Z.eqb_spec p 0); [lia|].
      rewrite (bind_ok _ _ _ tt (filled s1 h2 m2)) by (unfold kmemset; by destruct (Z.eqb_spec p 0); [lia|]).
      rewrite (bind_ok _ _ _ _ _ E). change PTE_SZ with 4096. rewrite length_app in E'. simpl in E'.
      rewrite u64_small by lia. rewrite <- E'. f_equal. lia.
Qed.
End alloc.

(** ** [deallocuvm] *)

Lemma align_up_pmd z : 0 ≤ z ≤ 2 ^ 32 → z ≤ align_up z PMD_SZ < z + 2 ^ 21.
Proof.
  intros Hz. unfold align_up. change PMD_SZ with (2 ^ 21). rewrite u64_small, land_mask64 by lia.
  pose proof (Z.div_mod (z + 2 ^ 21 - 1) (2 ^ 21) ltac:(lia)). pose proof (Z.mod_pos_bound (z + 2 ^ 21 - 1) (2 ^ 21) ltac:(lia)). lia.
Qed.
Lemma PTE_ADDR_of pa ap : 0 ≤ pa < 2 ^ 32 → pa mod 4096 = 0 → is_ap ap → PTE_ADDR (pte_of pa ap) = pa.
Proof.
  intros Hp Hm Ha. destruct (is_ap_bound ap Ha) as [Hb _]. unfold PTE_ADDR. rewrite pte_of_eq.
  pose proof (entry_bound _ _ Hp Hb). rewrite align_dn_page by lia. change 4096 with (2 ^ 12) at 1 2.
  rewrite <- Z.shiftl_mul_pow2, <- Z.shiftr_div_pow2 by lia. apply Z.bits_inj'. intros j Hj.
  rewrite Z.shiftl_spec by lia. destruct (Z.lt_ge_cases j 12).
  - by rewrite Z.testbit_neg_r, (testbit_aligned pa j Hm) by lia.
  - rewrite Z.shiftr_spec, Z.lor_spec by lia. replace (j - 12 + 12) with j by lia.
    by rewrite (testbit_high (Z.lor ap 0x733) 12), orb_false_r by (change (2 ^ 12) with 4096; lia).
Qed.

(** Nothing is mapped from [a] on. *)
Lemma dealloc_none pgd oldsz fuel : ∀ a s, 0 ≤ a → oldsz ≤ 2 ^ 28 → oldsz - a ≤ 4096 * Z.of_nat fuel →
  (∀ va, a ≤ va < oldsz → Z.land (ptes (v_mem s) pgd va) 3 = 0) → dealloc_loop fuel pgd a oldsz s = Ok tt s.
Proof.
  induction fuel as [|fuel IH]; intros a s Ha Ho Hf Hun; cbn [dealloc_loop]; destruct (Z.ltb_spec a oldsz) as [Hlt|]; try done; [lia|].
  rewrite (bind_ok _ _ _ _ _ (walkpgdir_false pgd a s)). pose proof (align_up_pmd a ltac:(lia)).
  specialize (Hun a ltac:(lia)) as Hv. unfold ptes in Hv. destruct (Z.eqb_spec (pte_addr (v_mem s) pgd a) 0) as [E|E].
  - rewrite (bind_ok _ _ _ (align_up a PMD_SZ) s) by done. change PTE_SZ with 4096. rewrite u64_small by lia.
    apply IH; [lia|lia|lia|]. intros va Hva. apply Hun. lia.
  - rewrite (bind_ok _ _ _ a s).
    + change PTE_SZ with 4096. rewrite u64_small by lia. apply IH; [lia|lia|lia|]. intros va Hva. apply Hun. lia.
    + unfold load64, bind, gets, ret. cbn [rbind]. change (Z.lor ENTRY_PAGE ENTRY_VALID) with 3. by rewrite Hv.
Qed.

(** The pages [ps] of the heap are mapped at [a] on. *)
Record owns (s : vmst) (pgd a : Z) (ps : list Z) : Prop := {
  ow_map : ∀ i p, ps !! i = Some p → ∃ ap, is_ap ap ∧ ptes (v_mem s) pgd (a + 4096 * Z.of_nat i) = pte_of (v2p p) ap;
  ow_page : ∀ p, p ∈ ps → ∃ b, 0 ≤ b < NB ∧ p = frame (h_kmem (v_heap s)) b;
  ow_held : ∀ p, p ∈ ps → held (h_kmem (v_heap s)) p;
  ow_nodup : NoDup ps;
}.
(** From [s], the pages [ps] mapped at [a] on were unmapped and freed. *)
Record shrunk (pgd a : Z) (s : vmst) (R : gmap Z role) (F : list Z) (ps : list Z) (s' : vmst) : Prop := {
  sh_space : space s' pgd R F;
  sh_bounds : same_bounds (h_kmem (v_heap s)) (h_kmem (v_heap s'));
  sh_locks : m_held (h_mach (v_heap s')) = m_held (h_mach (v_heap s));
  sh_frame : ∀ q x, kva q → R !! q = None → q ∉ F → q ≤ x < q + 4096 → ld8 (v_mem s') x = ld8 (v_mem s) x;
  sh_ptes : ∀ va, ptes (v_mem s') pgd va = if pgoff a va <? zlen ps then 0 else ptes (v_mem s) pgd va;
  sh_free : ∀ u, indom NB u → free_at N (h_kmem (v_heap s')) u ↔
    free_at N (h_kmem (v_heap s)) u ∨ ∃ p, p ∈ ps ∧ p ≤ k_start_heap (h_kmem (v_heap s)) + u < p + 4096;
  sh_keep : ∀ q r j, R !! q = Some r → inner r → 0 ≤ j < 512 → ld64 (v_mem s') (q + 8 * j) = ld64 (v_mem s) (q + 8 * j);
  sh_mach : 0 < m_ncli (h_mach (v_heap s)) → h_mach (v_heap s') = h_mach (v_heap s);
}.
Lemma shrunk_nil pgd a s R F : space s pgd R F → shrunk pgd a s R F [] s.
Proof.
  intros Hs. split; try done.
  - intros va. pose proof (pgoff_range a va). by destruct (Z.ltb_spec (pgoff a va) (zlen (@nil Z))); [unfold zlen in *; simpl in *; lia|].
  - intros u _. split; [by left|]. intros [H|(p & Hp & _)]; [done|]. by apply elem_of_nil in Hp.
Qed.
Lemma shrunk_cons pgd a s R F p ps s1 s2 : 0 ≤ a → zlen (p :: ps) < 2 ^ 20 →
  shrunk pgd a s R F [p] s1 → shrunk pgd (a + 4096) s1 R F ps s2 → shrunk pgd a s R F (p :: ps) s2.
Proof.
  intros Ha Hz [A1 A2 A3 A4 A5 A6 A7 A8] [B1 B2 B3 B4 B5 B6 B7 B8]. assert (zlen (p :: ps) = zlen ps + 1) by (unfold zlen; simpl; lia).
  assert (0 ≤ zlen ps) by (unfold zlen; lia). split; try done.
  - by eapply same_bounds_trans.
  - congruence.
  - intros q x Kq HR HF Hx. rewrite (B4 q x), (A4 q x); done.
  - intros va. rewrite B5, A5, pgoff_next by done. pose proof (pgoff_range a va). change (zlen [p]) with 1.
    destruct (Z.eqb_spec (pgoff a va) 0) as [->|].
    + destruct (Z.ltb_spec (2 ^ 20 - 1) (zlen ps)); [lia|]. by destruct (Z.ltb_spec 0 (zlen (p :: ps))); [|lia].
    + destruct (Z.ltb_spec (pgoff a va - 1) (zlen ps)), (Z.ltb_spec (pgoff a va) (zlen (p :: ps))), (Z.ltb_spec (pgoff a va) 1); try lia; done.
  - intros u Hu. rewrite (B6 u Hu), (A6 u Hu), (same_start _ _ A2). setoid_rewrite elem_of_cons. setoid_rewrite elem_of_nil. naive_solver.
  - intros q r j Hr Hi Hj. by rewrite (B7 q r j), (A7 q r j).
  - intros Hm. rewrite B8, A8; [done|done|]. by rewrite A8.
Qed.

Lemma unmap_ok pgd a s R F p ps : space s pgd R F → owns s pgd a (p :: ps) →
  ∃ s1, shrunk pgd a s R F [p] s1 ∧ pte_addr (v_mem s) pgd a ≠ 0 ∧
    (let* v := load64 (pte_addr (v_mem s) pgd a) in
     when (ztrue (Z.land v (Z.lor ENTRY_PAGE ENTRY_VALID))) (
       let pa := u32 (PTE_ADDR v) in
       panic_if (pa =? 0) "deallocuvm" ;;
       zoom (free_page (p2v pa)) ;;
       store64 (pte_addr (v_mem s) pgd a) 0) ;;
     ret a) s = Ok a s1.
Proof.
  intros Hs [O1 O2 O3 O4]. destruct (O1 0%nat p eq_refl) as (ap & Hap & Ep). rewrite Z.mul_0_r, Z.add_0_r in Ep.
  destruct (O2 p ltac:(left)) as (b & Hb & Eb). specialize (O3 p ltac:(left)). pose proof Hs as [S1 S2 S3 S4 S5 S6].
  assert (Kp : kva p) by (rewrite Eb; by apply frame_kva). destruct (kva_v2p p Kp) as (P1 & P2 & P3).
  destruct (pte_of_ok _ ap P1 P2 Hap) as (_ & V3 & _).
  assert (Hne : pte_addr (v_mem s) pgd a ≠ 0).
  { intros E. unfold ptes in Ep. rewrite E in Ep. cbn [Z.eqb] in Ep. by rewrite <- Ep in V3. }
  assert (Hpa : pte_addr (v_mem s) pgd a = pt_of (v_mem s) pgd a + 8 * PTE_IDX a ∧ pmd_of (v_mem s) pgd a ≠ 0 ∧ pt_of (v_mem s) pgd a ≠ 0).
  { rewrite (pte_addr_eq _ _ _ S1) in Hne |- *. destruct (Z.eqb_spec (pmd_of (v_mem s) pgd a) 0); [done|].
    by destruct (Z.eqb_spec (pt_of (v_mem s) pgd a) 0). }
  destruct Hpa as (Epa & Hpm & Hpt).
  destruct (free_ok s b S4 Hb) as (h' & Rf & Hok & Hbd & Hm & Hf); [by rewrite <- Eb|].
  set (s0 := set_v_heap h' s) in *. destruct S3 as [Q1 Q2]. destruct (saved_wf _ Q1) as (Q1' & Q2' & _).
  assert (Q : vquiet s0) by (split; simpl; rewrite Hm; [done|by rewrite Q2']).
  destruct (put_ok pgd s0 R F a 0 S1 S2 Q Hpm (pt_role _ _ _ S1 a Hpm Hpt) eq_refl) as [W P].
  eexists. split; [|split; [done|]].
  2: { rewrite (bind_ok _ _ _ (pte_of (v2p p) ap) s).
       2: { rewrite <- Ep. unfold ptes, load64, bind, gets, ret. by destruct (Z.eqb_spec (pte_addr (v_mem s) pgd a) 0). }
       change (Z.lor ENTRY_PAGE ENTRY_VALID) with 3. rewrite V3. change (ztrue 3) with true. cbn [when].
       rewrite PTE_ADDR_of, u32_small, P3 by (done || lia).
       pose proof (pt_kva _ _ _ S1 _ _ (pt_root _ _ _ S1)) as Kr. pose proof (S6 pgd ltac:(left; eexists; apply S1)).
       assert (v2p p ≠ 0). { intros E. rewrite E in P3. change (p2v 0) with KERNBASE in P3. unfold kva in Kr.
         rewrite Eb in P3. unfold addr in P3. lia. }
       destruct (Z.eqb_spec (v2p p) 0); [done|]. rewrite <- Eb in Rf.
       erewrite bind_ok; [reflexivity|]. cbn [panic_if]. rewrite (bind_ok _ _ _ tt s) by done. rewrite (bind_ok _ _ _ _ _ Rf).
       rewrite Epa. reflexivity. }
  split; simpl.
  - split; simpl; try apply W; try done.
    + by rewrite (same_start _ _ Hbd).
    + intros t Ht. rewrite (same_start _ _ Hbd). by apply S6.
  - done.
  - by rewrite Hm, Q2'.
  - intros q x Kq HR HF Hx. by apply (wk_frame _ _ _ _ _ _ _ W q x).
  - intros va. rewrite P. change (zlen [p]) with 1. pose proof (pgoff_range a va).
    by destruct (Z.eqb_spec (pgoff a va) 0), (Z.ltb_spec (pgoff a va) 1); try lia.
  - intros u Hu. rewrite (Hf u Hu), <- (frame_byte (h_kmem (v_heap s)) b u), <- Eb.
    setoid_rewrite list_elem_of_singleton. naive_solver.
  - intros q r j Hr Hi Hj. pose proof (pt_role _ _ _ S1 a Hpm Hpt) as Hpr. pose proof (PTE_range a). apply ld64_st64_other.
    assert (Hqp : q ≠ pt_of (v_mem s) pgd a) by (intros ->; rewrite Hr in Hpr; by injection Hpr as ->).
    destruct (pt_kva _ _ _ S1 _ _ Hr) as (_ & _ & Kq), (pt_kva _ _ _ S1 _ _ Hpr) as (_ & _ & Kt).
    apply Z.mod_divide in Kq as [x Hx], Kt as [y Hy]; lia.
  - intros Hm0. rewrite Hm. by apply saved_id.
Qed.

Lemma dealloc_ok pgd oldsz R F ps : ∀ fuel a s, space s pgd R F → owns s pgd a ps → 0 ≤ a → zlen ps < 2 ^ 20 →
  oldsz ≤ 2 ^ 28 → (ps ≠ [] → a + 4096 * (zlen ps - 1) < oldsz) → oldsz - a ≤ 4096 * Z.of_nat fuel →
  (∀ va, a + 4096 * zlen ps ≤ va < oldsz → Z.land (ptes (v_mem s) pgd va) 3 = 0) →
  ∃ s', dealloc_loop fuel pgd a oldsz s = Ok tt s' ∧ shrunk pgd a s R F ps s'.
Proof.
  induction ps as [|p ps IH]; intros fuel a s Hs Ho Ha Hz Hold Hlast Hf Hun.
  { exists s. split; [|by apply shrunk_nil]. apply dealloc_none; try done. intros va Hva. apply Hun. unfold zlen. simpl. lia. }
  assert (Ez : zlen (p :: ps) = zlen ps + 1) by (unfold zlen; simpl; lia). assert (0 ≤ zlen ps) by (unfold zlen; lia).
  specialize (Hlast ltac:(done)). destruct fuel as [|fuel]; [lia|]. cbn [dealloc_loop]. destruct (Z.ltb_spec a oldsz); [|lia].
  destruct (unmap_ok pgd a s R F p ps Hs Ho) as (s1 & H1 & Hne & R1). pose proof H1 as [A1 A2 A3 A4 A5 A6 _ _].
  destruct Ho as [O1 O2 O3 O4]. apply NoDup_cons in O4 as [Hnp O4].
  destruct (IH fuel (a + 4096) s1 A1) as (s2 & R2 & H2); try done; try lia.
  - split; try done.
    + intros i q Hi. destruct (O1 (S i) q Hi) as (ap & Hap & E). exists ap. split; [done|].
      replace (a + 4096 + 4096 * Z.of_nat i) with (a + 4096 * Z.of_nat (S i)) by lia. rewrite A5, pgoff_self; [|apply lookup_lt_Some in Hi; unfold zlen in *; lia|done].
      change (zlen [p]) with 1. by destruct (Z.ltb_spec (Z.of_nat (S i)) 1); [lia|].
    + intros q Hq. destruct (O2 q ltac:(by right)) as (b & Hb & E). exists b. split; [done|]. rewrite E. unfold addr. by rewrite (same_start _ _ A2).
    + intros q Hq u Hu Hqu. rewrite (same_start _ _ A2) in Hqu. rewrite (A6 u Hu). intros [Hfr|(p' & Hp' & Hu')].
      * by apply (O3 q ltac:(by right) u).
      * apply list_elem_of_singleton in Hp' as ->. assert (q ≠ p) as Hqp by (by intros ->).
        destruct (O2 q ltac:(by right)) as (b & Hb & Eq), (O2 p ltac:(left)) as (c & Hc & Ec). destruct Hs as [_ _ _ Hh Hk _].
        by apply (kva_disjoint q p (k_start_heap (h_kmem (v_heap s)) + u) (k_start_heap (h_kmem (v_heap s)) + u));
          [rewrite Eq; apply frame_kva|rewrite Ec; apply frame_kva|..].
  - intros va Hva. rewrite A5. destruct (_ <? _); [done|]. apply Hun. lia.
  - exists s2. split; [|by eapply shrunk_cons; try done; lia].
    rewrite (bind_ok _ _ _ _ _ (walkpgdir_false pgd a s)). destruct (Z.eqb_spec (pte_addr (v_mem s) pgd a) 0); [done|].
    rewrite (bind_ok _ _ _ _ _ R1). change PTE_SZ with 4096. by rewrite u64_small by lia.
Qed.

(** Pages that hold [z] bytes. *)
Definition npg (z : Z) : Z := (z + 4095) / 4096.
Lemma npg_le z : 4096 * npg z - 4096 < z ≤ 4096 * npg z.
Proof. unfold npg. pose proof (Z.div_mod (z + 4095) 4096 ltac:(lia)). pose proof (Z.mod_pos_bound (z + 4095) 4096 ltac:(lia)). lia. Qed.
Lemma align_up_npg z : 0 ≤ z < 2 ^ 32 → align_up z PTE_SZ = 4096 * npg z.
Proof. intros Hz. change PTE_SZ with 4096. rewrite align_up_page by lia. unfold npg. lia. Qed.
Lemma npg_mono z z' : z ≤ z' → npg z ≤ npg z'.
Proof. intros. unfold npg. apply Z.div_le_mono; lia. Qed.

Lemma grown_owns pgd a ap data s R F ps s1 R1 F1 : grown pgd a ap data s R F ps s1 R1 F1 → 0 ≤ a → zlen ps < 2 ^ 20 →
  (∀ i, is_ap (ap i)) → owns s1 pgd a ps.
Proof.
  intros Hg Ha Hz Hap. split.
  - intros i p Hi. exists (ap i). split; [done|]. rewrite (gw_ptes _ _ _ _ _ _ _ _ _ _ _ Hg), pgoff_self;
      [|apply lookup_lt_Some in Hi; unfold zlen in Hz; lia|done]. by rewrite Nat2Z.id, Hi.
  - intros p Hp. destruct (gw_pages _ _ _ _ _ _ _ _ _ _ _ Hg p Hp) as (b & Hb & E & _). exists b. split; [done|].
    rewrite E. unfold addr. by rewrite (same_start _ _ (gw_bounds _ _ _ _ _ _ _ _ _ _ _ Hg)).
  - intros p. by apply (grown_page_held pgd a ap data s R F ps s1 R1 F1 Hg).
  - apply Hg.
Qed.

Lemma deallocuvm_ok pgd s R F ps oldsz newsz : space s pgd R F → 0 ≤ newsz < oldsz → oldsz ≤ UADDR_SZ →
  owns s pgd (4096 * npg newsz) ps → zlen ps ≤ npg oldsz - npg newsz →
  (∀ va, 4096 * (npg newsz + zlen ps) ≤ va < oldsz → Z.land (ptes (v_mem s) pgd va) 3 = 0) →
  ∃ s', deallocuvm pgd oldsz newsz s = Ok newsz s' ∧ shrunk pgd (4096 * npg newsz) s R F ps s'.
Proof.
  change UADDR_SZ with (2 ^ 28). intros Hs Hn Ho Hown Hz Hun. pose proof (npg_le newsz). pose proof (npg_le oldsz).
  assert (0 ≤ zlen ps) by (unfold zlen; lia). pose proof (Z.div_mod (oldsz - 4096 * npg newsz) 4096 ltac:(lia)).
  pose proof (Z.mod_pos_bound (oldsz - 4096 * npg newsz) 4096 ltac:(lia)).
  destruct (dealloc_ok pgd oldsz R F ps (Z.to_nat ((oldsz - 4096 * npg newsz) / 4096 + 1)) (4096 * npg newsz) s Hs Hown) as (s' & R' & H');
    try lia.
  { intros va Hva. apply Hun. lia. }
  exists s'. split; [|done]. unfold deallocuvm. destruct (Z.leb_spec oldsz newsz); [lia|].
  rewrite align_up_npg by lia. rewrite (bind_ok _ _ _ _ _ R'). by rewrite s32_small by lia.
Qed.

(** The result of [allocuvm]: the new size with fresh, zeroed, user-accessible
    pages for the new part, or 0 with everything as before. *)
Definition alloc_result (pgd : Z) (s : vmst) (R : gmap Z role) (F : list Z) (oldsz newsz r : Z) (s' : vmst) : Prop :=
  (r = newsz ∧ ∃ ps R' F', grown pgd (4096 * npg oldsz) (λ _, AP_RW_1_0) (λ _ _, 0) s R F ps s' R' F' ∧
    zlen ps = npg newsz - npg oldsz) ∨
  (r = 0 ∧ ∃ R' F', space s' pgd R' F' ∧ (∀ u, indom NB u → free_at N (h_kmem (v_heap s')) u ↔ free_at N (h_kmem (v_heap s)) u) ∧
    (∀ va, ptes (v_mem s') pgd va = ptes (v_mem s) pgd va ∨ Z.land (ptes (v_mem s) pgd va) 3 = 0 ∧ ptes (v_mem s') pgd va = 0) ∧
    ∀ q x, kva q → R !! q = None → q ∉ F → held (h_kmem (v_heap s)) q → q ≤ x < q + 4096 → ld8 (v_mem s') x = ld8 (v_mem s) x).

Lemma allocuvm_ok pgd s R F oldsz newsz : space s pgd R F → 0 ≤ oldsz ≤ newsz → newsz < UADDR_SZ →
  (∀ va, 4096 * npg oldsz ≤ va < 4096 * npg newsz → Z.land (ptes (v_mem s) pgd va) 3 = 0) →
  2 * (npg newsz - npg oldsz) ≤ zlen F →
  ∃ r s', allocuvm pgd oldsz newsz s = Ok r s' ∧ alloc_result pgd s R F oldsz newsz r s'.
Proof.
  change UADDR_SZ with (2 ^ 28). intros Hs Hle Hnew Hun HF. pose proof (npg_le newsz). pose proof (npg_le oldsz). pose proof (npg_mono oldsz newsz ltac:(lia)).
  set (a := 4096 * npg oldsz) in *. set (K := Z.to_nat (npg newsz - npg oldsz)). assert (Ea : a = 4096 * npg oldsz) by done.
  assert (EK : Z.of_nat K = npg newsz - npg oldsz) by (unfold K; lia).
  assert (Hm : a mod 4096 = 0) by (rewrite Ea, Z.mul_comm; apply Z_mod_mult).
  pose proof (Z.div_mod (newsz - a) 4096 ltac:(lia)). pose proof (Z.mod_pos_bound (newsz - a) 4096 ltac:(lia)).
  destruct (alloc_loop_ok pgd a newsz s R F K ltac:(intros; lia) ltac:(lia) Hm ltac:(lia) ltac:(unfold zlen in HF; lia)
    ltac:(intros; apply Hun; lia) K (Z.to_nat ((newsz - a) / 4096 + 1)) [] s R F (grown_nil _ _ _ _ _ _ _ Hs) eq_refl ltac:(lia))
    as (ok & ps & s1 & R1 & F1 & E & Hg & Hend).
  assert (Eal : allocuvm pgd oldsz newsz s = (if ok then ret newsz else let* _ := deallocuvm pgd newsz oldsz in ret 0) s1).
  { unfold allocuvm. change UADDR_SZ with (2 ^ 28). destruct (Z.leb_spec (2 ^ 28) newsz); [lia|].
    destruct (Z.ltb_spec newsz oldsz); [lia|]. rewrite align_up_npg by lia. fold a. simpl in E. rewrite Z.mul_0_r, Z.add_0_r in E.
    rewrite (bind_ok _ _ _ _ _ E). by rewrite s32_small by lia. }
  rewrite Eal. destruct ok.
  - exists newsz, s1. split; [done|]. left. split; [done|]. exists ps, R1, F1. split; [done|]. unfold zlen. lia.
  - destruct Hend as [Hlt _]. assert (Hz : zlen ps < npg newsz - npg oldsz) by (unfold zlen; lia). assert (0 ≤ zlen ps) by (unfold zlen; lia).
    destruct (deallocuvm_ok pgd s1 R1 F1 ps newsz oldsz (gw_space _ _ _ _ _ _ _ _ _ _ _ Hg)) as (s2 & R2 & Hsh); try done; try lia.
    { change UADDR_SZ with (2 ^ 28). lia. }
    { apply (grown_owns _ _ _ _ _ _ _ _ _ _ _ Hg); [lia|lia|done]. }
    { intros va Hva. rewrite (gw_ptes _ _ _ _ _ _ _ _ _ _ _ Hg). destruct (ps !! Z.to_nat (pgoff a va)) as [p|] eqn:Ei; [|apply Hun; lia].
      exfalso. apply lookup_lt_Some in Ei. rewrite pgoff_in in Ei by (done || lia).
      assert (zlen ps ≤ (va - a) / 4096) by (apply Z.div_le_lower_bound; lia). unfold zlen in *. lia. }
    exists 0, s2. split; [by rewrite (bind_ok _ _ _ _ _ R2)|]. right. split; [done|]. exists R1, F1.
    destruct Hg as [G1 G2 G3 G4 G5 G6 G7 G8 G9 G10 G11 G12], Hsh as [A1 A2 A3 A4 A5 A6]. split; [done|]. split; [|split].
    + intros u Hu. rewrite (A6 u Hu), (G11 u Hu), (same_start _ _ G5). split.
      * intros [[? _]|(p & Hp & Hpu)]; [done|]. destruct (G10 p Hp) as (b & Hb & -> & Hfr). apply Hfr. by apply frame_byte in Hpu.
      * intros Hfr. destruct (decide (Exists (λ p, p ≤ k_start_heap (h_kmem (v_heap s)) + u < p + 4096) ps)) as [He|He].
        -- right. by apply Exists_exists in He.
        -- left. split; [done|]. intros p Hp Hpu. apply He, Exists_exists. by exists p.
    + intros va. rewrite A5, G8. fold a. pose proof (pgoff_range a va). destruct (Z.ltb_spec (pgoff a va) (zlen ps)).
      * right. split; [|done]. rewrite (ptes_page _ _ (a + 4096 * pgoff a va)) by (by apply pgoff_shift). apply Hun. lia.
      * left. by rewrite lookup_ge_None_2 by (unfold zlen in *; lia).
    + intros q x Kq HR HFq Hh Hx. rewrite (A4 q x), (G7 q x); try done.
      * destruct (R1 !! q) eqn:Eq; [|done]. destruct (G2 q ltac:(by eexists)) as [[? H']|H']; [congruence|done].
      * intros H'. by apply HFq, G3.
Qed.

(** ** [copyuvm] *)

Lemma PTE_AP_of pa ap : pa mod 4096 = 0 → is_ap ap → PTE_AP (pte_of pa ap) = ap.
Proof.
  intros Hm Ha. unfold PTE_AP. rewrite pte_of_eq, !Z.land_lor_distr_l.
  change (Z.land 0x733 AP_MASK) with 0. rewrite Z.lor_0_r. unfold is_ap in Ha. rewrite Ha.
  replace (Z.land pa AP_MASK) with 0; [done|]. symmetry. apply Z.bits_inj'. intros j Hj. rewrite Z.land_spec, Z.bits_0.
  destruct (Z.lt_ge_cases j 12); [by rewrite (testbit_aligned pa j Hm) by lia|].
  by rewrite (testbit_high AP_MASK 12), andb_false_r by (done || lia).
Qed.

(** Enough free pages for [n] more. *)
Definition room (k : kmem) (n : nat) : Prop :=
  ∃ G : gset Z, (n ≤ size G)%nat ∧ ∀ b, b ∈ G → 0 ≤ b < NB ∧ pgfree k b.
Lemma grown_room pgd a ap data s R F ps s1 R1 F1 n : grown pgd a ap data s R F ps s1 R1 F1 →
  room (h_kmem (v_heap s)) n → (length ps < n)%nat → ∃ b, 0 ≤ b < NB ∧ pgfree (h_kmem (v_heap s1)) b.
Proof.
  intros Hg (G & Hn & HG) Hlt. set (k := h_kmem (v_heap s)) in *.
  destruct (decide (Forall (λ b, frame k b ∈ ps) (elements G))) as [Hall|Hex].
  - exfalso. assert (Hsub : addr k 12 <$> elements G ⊆+ ps).
    { apply NoDup_submseteq.
      - apply NoDup_fmap_2; [|apply NoDup_elements]. intros b c E. unfold addr in E. change (2 ^ 12) with 4096 in E. lia.
      - intros p (b & -> & Hb)%list_elem_of_fmap. rewrite Forall_forall in Hall. by apply Hall. }
    apply submseteq_length in Hsub. rewrite length_fmap in Hsub. change (length (elements G)) with (size G) in Hsub. lia.
  - apply not_Forall_Exists in Hex; [|apply _]. apply Exists_exists in Hex as (b & Hb%elem_of_elements & Hnp).
    exists b. destruct (HG b Hb) as [Hbr Hf]. split; [done|]. intros u Hu.
    apply (gw_free _ _ _ _ _ _ _ _ _ _ _ Hg); [apply (blk_dom NB 12 b); [apply order12|by rewrite nblks12|done]|].
    split; [by apply Hf|]. intros p Hp Hpu. destruct (gw_pages _ _ _ _ _ _ _ _ _ _ _ Hg p Hp) as (c & Hc & -> & _).
    apply frame_byte in Hpu. apply Hnp. by rewrite <- Hu, Hpu.
Qed.

Section copy.
Context (old : Z) (Ro : gmap Z role) (qs : list Z) (aps : nat → Z).
Context (pgd sz : Z) (s : vmst) (R : gmap Z role) (F : list Z).
(** The space that is copied: its tree and its pages, in use and apart from the
    new space. *)
Context (Hot : ptree (v_mem s) old Ro).
Context (Hoa : ∀ t, is_Some (Ro !! t) → R !! t = None ∧ (t ∉ F) ∧ held (h_kmem (v_heap s)) t).
Context (Hqa : ∀ q, q ∈ qs → kva q ∧ R !! q = None ∧ (q ∉ F) ∧ held (h_kmem (v_heap s)) q).
Context (Hqm : ∀ i q, qs !! i = Some q → is_ap (aps i) ∧ ptes (v_mem s) old (4096 * Z.of_nat i) = pte_of (v2p q) (aps i)).
Context (Hlen : zlen qs = npg sz) (Hsz : 0 ≤ sz ≤ 2 ^ 28).
Context (Hun : ∀ va, 0 ≤ va < 4096 * npg sz → Z.land (ptes (v_mem s) pgd va) 3 = 0).
Context (HF : (2 * length qs ≤ length F)%nat) (Hroom : room (h_kmem (v_heap s)) (length qs)).
Definition qbyte (i : nat) (x : Z) : Z := match qs !! i with Some q => ld8 (v_mem s) (q + x) | None => 0 end.
Abbreviation copied := (grown pgd 0 aps qbyte s R F).

(** The old space is as it was. *)
Lemma copied_ptes ps s1 R1 F1 va : copied ps s1 R1 F1 → ptree (v_mem s1) old Ro ∧ ptes (v_mem s1) old va = ptes (v_mem s) old va.
Proof.
  intros Hg. assert (Hw : ∀ q r j, Ro !! q = Some r → 0 ≤ j < 512 → ld64 (v_mem s1) (q + 8 * j) = ld64 (v_mem s) (q + 8 * j)).
  { intros q r j Hq Hj. apply (agree_ld64 _ _ (λ t, t = q)); [|done|done]. intros ? x -> Hx.
    destruct (Hoa q ltac:(by eexists)) as (H1 & H2 & H3). apply (gw_frame _ _ _ _ _ _ _ _ _ _ _ Hg q x); try done.
    by apply (pt_kva _ _ _ Hot q r). }
  split; [|by apply (agree_ptes _ _ _ Ro Hot)]. apply (agree_ptree (v_mem s)); [done|]. intros q r j Hq _. by apply (Hw q r).
Qed.
Lemma copied_byte ps s1 R1 F1 i q x : copied ps s1 R1 F1 → qs !! i = Some q → 0 ≤ x < 4096 → ld8 (v_mem s1) (q + x) = qbyte i x.
Proof.
  intros Hg Hi Hx. unfold qbyte. rewrite Hi. destruct (Hqa q ltac:(by eapply list_elem_of_lookup_2)) as (H0 & H1 & H2 & H3).
  apply (gw_frame _ _ _ _ _ _ _ _ _ _ _ Hg q (q + x)); try done. lia.
Qed.

Lemma copy_loop_ok j : ∀ fuel ps s1 R1 F1, copied ps s1 R1 F1 → (length ps + j = length qs)%nat → (j ≤ fuel)%nat →
  ∃ ps' s' R' F', copy_loop fuel old pgd (4096 * Z.of_nat (length ps)) sz s1 = Ok true s' ∧ copied ps' s' R' F' ∧ length ps' = length qs.
Proof.
  pose proof (npg_le sz) as Hnpg. unfold zlen in Hlen.
  induction j as [|j IH]; intros fuel ps s1 R1 F1 Hg HL Hf; pose proof (gw_len _ _ _ _ _ _ _ _ _ _ _ Hg).
  - exists ps, s1, R1, F1. split; [|split; [done|lia]].
    destruct fuel; cbn [copy_loop]; (destruct (Z.ltb_spec (4096 * Z.of_nat (length ps)) sz); [lia|done]).
  - destruct fuel as [|fuel]; [lia|]. cbn [copy_loop]. destruct (Z.ltb_spec (4096 * Z.of_nat (length ps)) sz); [|lia].
    destruct (lookup_lt_is_Some_2 qs (length ps) ltac:(lia)) as [q Hq]. destruct (Hqm _ _ Hq) as [Hap Epte].
    destruct (Hqa q ltac:(by eapply list_elem_of_lookup_2)) as (Kq & _). destruct (kva_v2p q Kq) as (P1 & P2 & P3).
    destruct (pte_of_ok _ _ P1 P2 Hap) as (_ & V3 & _).
    destruct (copied_ptes ps s1 R1 F1 (4096 * Z.of_nat (length ps)) Hg) as [Hot1 Ep]. rewrite Epte in Ep.
    rewrite (bind_ok _ _ _ _ _ (walkpgdir_false old _ s1)). unfold ptes in Ep.
    destruct (Z.eqb_spec (pte_addr (v_mem s1) old (4096 * Z.of_nat (length ps))) 0) as [E0|E0]; [by rewrite <- Ep in V3|].
    rewrite (bind_ok _ _ _ tt s1) by done. rewrite (bind_ok _ _ _ (pte_of (v2p q) (aps (length ps))) s1) by (by rewrite <- Ep).
    change (Z.lor ENTRY_PAGE ENTRY_VALID) with 3. rewrite V3. rewrite (bind_ok _ _ _ tt s1) by done.
    destruct (page_ok s1 (sc_heap _ _ _ _ (gw_space _ _ _ _ _ _ _ _ _ _ _ Hg))) as [[_ Hno]|(b & h2 & Hb & Ra & Hok & Hs2 & Hm & Hfr & Hf2)].
    { destruct (grown_room _ _ _ _ _ _ _ _ _ _ _ _ Hg Hroom ltac:(lia)) as (b & Hb & Hfr). by destruct (Hno b Hb). }
    pose proof (fresh_kva pgd 0 _ _ s R F ps s1 R1 F1 Hg b Hb) as Kp. pose proof (kva_pos _ Kp).
    set (p := frame (h_kmem (v_heap s1)) b) in *. set (m2 := memmove (v_mem s1) p q PTE_SZ).
    rewrite (bind_ok _ _ _ _ _ Ra). destruct (Z.eqb_spec p 0); [lia|]. rewrite PTE_ADDR_of, P3, PTE_AP_of by done.
    rewrite (bind_ok _ _ _ tt (filled s1 h2 m2)) by (unfold kmemmove; by destruct (Z.eqb_spec p 0); [lia|]).
    destruct (grow_page pgd 0 aps qbyte s R F ps s1 R1 F1 Hg b h2 m2) as (s3 & R3 & F3 & E & Hg3); try done; try lia.
    { intros x Hx. unfold m2. rewrite ld8_memmove by done. change PTE_SZ with 4096. case_match; [|lia].
      replace (q + (frame (h_kmem (v_heap s1)) b + x - p)) with (q + x) by (unfold p; lia). by apply (copied_byte ps s1 R1 F1). }
    { intros x Hx. unfold m2. rewrite ld8_memmove by done. change PTE_SZ with 4096. by case_match; [lia|]. }
    { apply Hun. lia. }
    rewrite Z.add_0_l in E. rewrite (bind_ok _ _ _ _ _ E). cbn [Z.ltb Z.compare].
    destruct (IH fuel (ps ++ [p]) s3 R3 F3 Hg3) as (ps' & s' & R' & F' & E' & Hg' & Hend); [rewrite length_app; simpl; lia|lia|].
    exists ps', s', R', F'. split; [|done]. rewrite <- E'. rewrite length_app. change PTE_SZ with 4096. f_equal. simpl. lia.
Qed.
End copy.

(** A fresh, empty space. *)
Section root.
Context (s : vmst) (old : Z) (Ro : gmap Z role) (d : Z) (F : list Z) (Hs : space s old Ro (d :: F)).
Definition rooted : vmst := VmSt (vsaved s) (ld64 (v_mem s) d) (memset (v_mem s) d 0 PT_SZ).
Lemma rooted_kva : kva d.
Proof. by destruct (sp_chain _ _ _ _ (sc_spare _ _ _ _ Hs)) as (_ & ? & _). Qed.
Lemma rooted_zero x : d ≤ x < d + 4096 → ld8 (v_mem rooted) x = 0.
Proof. intros Hx. simpl. rewrite ld8_memset. change PT_SZ with 4096. by case_match; [|lia]. Qed.
Lemma rooted_other q x : kva q → q ≠ d → q ≤ x < q + 4096 → ld8 (v_mem rooted) x = ld8 (v_mem s) x.
Proof.
  intros Kq Hq Hx. simpl. rewrite ld8_memset. change PT_SZ with 4096. case_match; [|done].
  exfalso. apply (kva_disjoint q d x x Kq rooted_kva Hq); (done || lia).
Qed.
Lemma rooted_word q j : kva q → q ≠ d → 0 ≤ j < 512 → ld64 (v_mem rooted) (q + 8 * j) = ld64 (v_mem s) (q + 8 * j).
Proof. intros Kq Hq Hj. apply (agree_ld64 _ _ (λ t, t = q)); [|done|done]. intros ? x -> Hx. by apply (rooted_other q). Qed.
Lemma rooted_null j : 0 ≤ j < 512 → ld64 (v_mem rooted) (d + 8 * j) = 0.
Proof. intros Hj. apply ld64_zero. intros x Hx. apply rooted_zero. lia. Qed.
Lemma rooted_tree : ptree (v_mem rooted) d {[d := Root]}.
Proof.
  split.
  - by rewrite lookup_singleton_eq.
  - intros t r Ht. apply lookup_singleton_Some in Ht as [<- _]. apply rooted_kva.
  - intros i Hi. unfold present. by rewrite rooted_null by lia.
  - intros t i j Ht Hj. apply lookup_singleton_Some in Ht as [<- ?]. done.
Qed.
Lemma rooted_ptes va : ptes (v_mem rooted) d va = 0.
Proof.
  rewrite (ptes_eq _ _ _ rooted_tree). pose proof (PGD_range va). unfold pmd_of, level_at. by rewrite rooted_null by lia.
Qed.
Lemma rooted_space : space rooted d {[d := Root]} F.
Proof.
  pose proof rooted_kva as Kd. destruct Hs as [S1 [C1 C2 C3] [Q1 Q2] (H1 & H2 & H3) S5 S6]. apply NoDup_cons in C2 as [Hnd C2].
  destruct (saved_wf _ Q1) as (Q1' & Q2' & _). split; [apply rooted_tree| | | |done|].
  - split; [|done|].
    + destruct C1 as (_ & _ & C1). change (v_freelist rooted) with (ld64 (v_mem s) d). apply (chain_agree (v_mem s)); [|done]. intros q Hq Kq.
      rewrite <- (Z.add_0_r q), <- (Z.mul_0_r 8). apply rooted_word; [done|by intros ->|lia].
    + intros t Ht. apply lookup_singleton_ne. by intros ->.
  - split; cbn [v_heap rooted vsaved h_mach]; [done|by rewrite Q2'].
  - split; [done|]. cbn [v_heap rooted vsaved h_mach]. split; [done|]. by rewrite Q2'.
  - intros t [[r Ht]|Ht]; apply S6; right; [apply lookup_singleton_Some in Ht as [<- _]; left|by right].
Qed.
(** Tables lie outside the heap. *)
Lemma table_held t : is_Some (Ro !! t) → held (h_kmem (v_heap s)) t.
Proof. intros Ht u Hu Htu. pose proof (sc_low _ _ _ _ Hs t ltac:(by left)). unfold indom in Hu. lia. Qed.
Lemma table_ne t : is_Some (Ro !! t) → t ≠ d ∧ t ∉ F.
Proof.
  intros [r Ht]. pose proof (sp_out _ _ _ _ (sc_spare _ _ _ _ Hs) t) as Ho. split.
  - intros ->. rewrite Ho in Ht by left. done.
  - intros HF. rewrite Ho in Ht by (by right). done.
Qed.
Lemma page_ne q b : q = frame (h_kmem (v_heap s)) b → 0 ≤ b → q ≠ d ∧ q ∉ F.
Proof.
  intros -> Hb. assert (Hlow : ∀ t, t ∈ d :: F → t + 4096 ≤ k_start_heap (h_kmem (v_heap s))) by (intros t Ht; apply (sc_low _ _ _ _ Hs); by right).
  unfold addr. change (2 ^ 12) with 4096. split.
  - intros E. specialize (Hlow d ltac:(left)). lia.
  - intros HF. specialize (Hlow _ ltac:(right; exact HF)). lia.
Qed.
End root.

(** * Theorems *)

(** [allocuvm] grows a space by fresh, zeroed pages the user may write, leaving
    the pages it had; when memory runs out on the way it returns 0 and gives
    back every page it took.  A size beyond the user range is refused, a smaller
    size leaves the space alone. *)
Theorem allocuvm_spec pgd s R F oldsz newsz : space s pgd R F → 0 ≤ oldsz < UADDR_SZ → 0 ≤ newsz →
  (∀ va, 4096 * npg oldsz ≤ va < 4096 * npg newsz → Z.land (ptes (v_mem s) pgd va) 3 = 0) →
  2 * (npg newsz - npg oldsz) ≤ zlen F →
  if UADDR_SZ <=? newsz then allocuvm pgd oldsz newsz s = Ok 0 s
  else if newsz <? oldsz then allocuvm pgd oldsz newsz s = Ok oldsz s
  else ∃ r s', allocuvm pgd oldsz newsz s = Ok r s' ∧ alloc_result pgd s R F oldsz newsz r s'.
Proof.
  intros Hs Ho Hn Hun HF. destruct (Z.leb_spec UADDR_SZ newsz) as [H1|H1].
  { unfold allocuvm. by destruct (Z.leb_spec UADDR_SZ newsz); [|lia]. }
  destruct (Z.ltb_spec newsz oldsz) as [H2|H2]; [|apply allocuvm_ok; (done || lia)].
  unfold allocuvm. destruct (Z.leb_spec UADDR_SZ newsz); [lia|]. destruct (Z.ltb_spec newsz oldsz); [|lia].
  change UADDR_SZ with (2 ^ 28) in Ho. by rewrite s32_small by lia.
Qed.

(** [deallocuvm] unmaps exactly the pages of the part that is given up and
    returns each of them to the allocator; nothing else changes. *)
Theorem deallocuvm_spec pgd s R F ps oldsz newsz : space s pgd R F → 0 ≤ newsz < oldsz → oldsz ≤ UADDR_SZ →
  owns s pgd (4096 * npg newsz) ps → zlen ps = npg oldsz - npg newsz →
  ∃ s', deallocuvm pgd oldsz newsz s = Ok newsz s' ∧ shrunk pgd (4096 * npg newsz) s R F ps s'.
Proof.
  intros Hs Hn Ho Hown Hz. apply deallocuvm_ok; try done; [lia|]. intros va Hva. pose proof (npg_le oldsz). lia.
Qed.

(** In [s'], the space at [d] with the pages [ps] is a copy of the one at [old] with the
    pages [qs] in [s], which is as it was. *)
Record copy_of (s : vmst) (old : Z) (Ro : gmap Z role) (F qs : list Z) (s' : vmst) (d : Z) (R' : gmap Z role) (F' ps : list Z) : Prop := {
  co_root : d ≠ 0;
  co_space : space s' d R' F';
  co_owns : owns s' d 0 ps;
  co_len : length ps = length qs;
  co_pages : ∀ i p q, ps !! i = Some p → qs !! i = Some q → (p ∉ qs) ∧
    PTE_AP (ptes (v_mem s') d (4096 * Z.of_nat i)) = PTE_AP (ptes (v_mem s) old (4096 * Z.of_nat i)) ∧
    ∀ x, 0 ≤ x < 4096 → ld8 (v_mem s') (p + x) = ld8 (v_mem s) (q + x) ∧ ld8 (v_mem s') (q + x) = ld8 (v_mem s) (q + x);
  co_tree : ptree (v_mem s') old Ro;
  co_ptes : ∀ va, ptes (v_mem s') old va = ptes (v_mem s) old va;
  co_held : m_held (h_mach (v_heap s')) = m_held (h_mach (v_heap s));
  co_free : ∀ u, indom NB u → free_at N (h_kmem (v_heap s')) u ↔
    free_at N (h_kmem (v_heap s)) u ∧ ∀ p, p ∈ ps → ¬ (p ≤ k_start_heap (h_kmem (v_heap s)) + u < p + 4096);
  co_bounds : same_bounds (h_kmem (v_heap s)) (h_kmem (v_heap s'));
  co_new : ∀ p, p ∈ ps → ∃ b, 0 ≤ b < NB ∧ p = frame (h_kmem (v_heap s)) b ∧ pgfree (h_kmem (v_heap s)) b;
  co_frame : ∀ q x, kva q → q ∉ F → held (h_kmem (v_heap s)) q → q ≤ x < q + 4096 → ld8 (v_mem s') x = ld8 (v_mem s) x;
}.
Lemma copyuvm_ok old s Ro F qs sz : space s old Ro F → owns s old 0 qs → zlen qs = npg sz → 0 ≤ sz ≤ UADDR_SZ →
  room (h_kmem (v_heap s)) (length qs) → (2 * length qs + 1 ≤ length F)%nat →
  ∃ d s' ps R' F', copyuvm old sz s = Ok d s' ∧ copy_of s old Ro F qs s' d R' F' ps.
Proof.
  change UADDR_SZ with (2 ^ 28). intros Hs Hown Hlen Hsz Hroom HF. destruct F as [|d F]; [simpl in HF; lia|]. simpl in HF.
  set (s0 := rooted s d). set (aps := λ i : nat, PTE_AP (ptes (v_mem s) old (4096 * Z.of_nat i))).
  pose proof (rooted_kva s old Ro d F Hs) as Kd. pose proof (kva_pos d Kd). pose proof Hs as [S1 S2 S3 S4 S5 S6].
  assert (Kq : ∀ q, q ∈ qs → kva q ∧ q ≠ d ∧ (q ∉ F) ∧ held (h_kmem (v_heap s)) q).
  { intros q Hq. destruct (ow_page _ _ _ _ Hown q Hq) as (b & Hb & Eq). destruct (page_ne s old Ro d F Hs q b Eq ltac:(lia)).
    split; [rewrite Eq; by apply frame_kva|]. split; [done|]. split; [done|]. by apply (ow_held _ _ _ _ Hown). }
  assert (Hopt : ∀ va, ptes (v_mem s0) old va = ptes (v_mem s) old va).
  { apply (agree_ptes _ _ _ Ro S1). intros q r j Hq Hj. apply (rooted_word s old Ro d F Hs); [by apply (pt_kva _ _ _ S1 q r)| |done].
    by destruct (table_ne s old Ro d F Hs q ltac:(by eexists)). }
  assert (Hot : ptree (v_mem s0) old Ro).
  { apply (agree_ptree (v_mem s)); [done|]. intros q r j Hq _ Hj. apply (rooted_word s old Ro d F Hs); [by apply (pt_kva _ _ _ S1 q r)| |done].
    by destruct (table_ne s old Ro d F Hs q ltac:(by eexists)). }
  assert (Hb0 : ∀ q x, kva q → q ≠ d → q ≤ x < q + 4096 → ld8 (v_mem s0) x = ld8 (v_mem s) x) by apply (rooted_other s old Ro d F Hs).
  assert (Hk0 : h_kmem (v_heap s0) = h_kmem (v_heap s)) by done.
  assert (E0 : kpt_alloc s = Ok d s0) by (apply (kpt_alloc_ok s d F S3), S2).
  assert (Hm0 : m_held (h_mach (v_heap s0)) = m_held (h_mach (v_heap s))) by (apply saved_wf, S3).
  pose proof (rooted_space s old Ro d F Hs) as Hs0. fold s0 in Hs0.
  assert (Hz : ∀ va, ptes (v_mem s0) d va = 0) by apply (rooted_ptes s old Ro d F Hs). clearbody s0.
  assert (Hqm : ∀ i q, qs !! i = Some q → is_ap (aps i) ∧ ptes (v_mem s0) old (4096 * Z.of_nat i) = pte_of (v2p q) (aps i)).
  { intros i q Hi. destruct (ow_map _ _ _ _ Hown i q Hi) as (ap & Hap & Ep). rewrite Z.add_0_l in Ep.
    destruct (kva_v2p q) as (_ & P2 & _); [by apply Kq, (list_elem_of_lookup_2 _ i)|].
    unfold aps. rewrite Hopt, Ep, PTE_AP_of by done. done. }
  assert (Hoa : ∀ t, is_Some (Ro !! t) → ({[d := Root]} : gmap Z role) !! t = None ∧ (t ∉ F) ∧ held (h_kmem (v_heap s0)) t).
  { intros t Ht. destruct (table_ne s old Ro d F Hs t Ht) as [H1 H2]. rewrite Hk0. split; [by apply lookup_singleton_ne|].
    split; [done|by apply (table_held s old Ro d F Hs)]. }
  assert (Hqa : ∀ q, q ∈ qs → kva q ∧ ({[d := Root]} : gmap Z role) !! q = None ∧ (q ∉ F) ∧ held (h_kmem (v_heap s0)) q).
  { intros q Hq. destruct (Kq q Hq) as (H1 & H2 & H3 & H4). rewrite Hk0. split; [done|]. split; [by apply lookup_singleton_ne|done]. }
  pose proof (npg_le sz). pose proof (Z.div_mod sz 4096 ltac:(lia)). pose proof (Z.mod_pos_bound sz 4096 ltac:(lia)).
  assert (Haps : ∀ i, is_ap (aps i)) by (intros i; unfold is_ap, aps, PTE_AP; by rewrite <- Z.land_assoc, Z.land_diag).
  destruct (copy_loop_ok old Ro qs aps d sz s0 {[d := Root]} F Hot Hoa Hqa Hqm Hlen ltac:(lia) ltac:(intros; by rewrite Hz)
    ltac:(lia) ltac:(by rewrite Hk0) (length qs) (Z.to_nat (sz / 4096 + 1)) [] s0 {[d := Root]} F (grown_nil _ _ _ _ _ _ _ Hs0) eq_refl
    ltac:(unfold zlen in Hlen; lia)) as (ps & s' & R' & F' & E & Hg & Hl).
  destruct (copied_ptes old Ro qs aps d s0 {[d := Root]} F Hot Hoa ps s' R' F' 0 Hg) as [Hot' _].
  exists d, s', ps, R', F'. split; [|split; [lia|apply Hg| |done| |done| | | | | |]].
  - unfold copyuvm. rewrite (bind_ok _ _ _ _ _ E0). destruct (Z.eqb_spec d 0); [lia|]. by rewrite (bind_ok _ _ _ _ _ E).
  - apply (grown_owns _ _ _ _ _ _ _ _ _ _ _ Hg); [lia|unfold zlen in *; lia|done].
  - intros i p q Hp Hq. pose proof (list_elem_of_lookup_2 _ _ _ Hp) as Hp'. pose proof (list_elem_of_lookup_2 _ _ _ Hq) as Hq'.
    destruct (gw_pages _ _ _ _ _ _ _ _ _ _ _ Hg p Hp') as (b & Hb & Eb & Hfr). destruct (Kq q Hq') as (K1 & K2 & _). split; [|split].
    + intros Hin. destruct (Hqa p Hin) as (_ & _ & _ & Hh). by apply (held_ne _ p b Hh Hb Hfr).
    + apply lookup_lt_Some in Hp as Hlt. pose proof (Kq p) as _. unfold zlen in Hlen.
      rewrite (gw_ptes _ _ _ _ _ _ _ _ _ _ _ Hg), <- (Z.add_0_l (4096 * Z.of_nat i)), pgoff_self by lia.
      rewrite Nat2Z.id, Hp. rewrite PTE_AP_of; [done|apply kva_v2p; rewrite Eb; apply frame_kva; try apply Hs0; done|done].
    + intros x Hx. rewrite (gw_data _ _ _ _ _ _ _ _ _ _ _ Hg i p x Hp Hx).
      rewrite (copied_byte qs aps d s0 {[d := Root]} F Hqa ltac:(lia) ps s' R' F' i q x Hg Hq Hx). unfold qbyte. rewrite Hq.
      rewrite (Hb0 q (q + x)) by (done || lia). done.
  - intros va. destruct (copied_ptes old Ro qs aps d s0 {[d := Root]} F Hot Hoa ps s' R' F' va Hg) as [_ ->]. apply Hopt.
  - by rewrite (gw_held _ _ _ _ _ _ _ _ _ _ _ Hg).
  - intros u Hu. by rewrite (gw_free _ _ _ _ _ _ _ _ _ _ _ Hg u Hu), Hk0.
  - rewrite <- Hk0. apply Hg.
  - rewrite <- Hk0. apply Hg.
  - intros q x Kq' Hq Hh Hx. rewrite not_elem_of_cons in Hq. destruct Hq as [Hq1 Hq2].
    rewrite (gw_frame _ _ _ _ _ _ _ _ _ _ _ Hg q x); [by apply (Hb0 q)|done|by apply lookup_singleton_ne|done|by rewrite Hk0|done].
Qed.

(** C22: [copyuvm] makes a space of its own for a child: a new page for every page of
    the parent, with the same bytes and permissions at the same address, none of
    them shared, and the parent's space is as it was.  The boot-time list has a spare
    table for the root and two for every page, and the heap a page for every page. *)
Theorem copyuvm_spec old s Ro F qs sz : space s old Ro F → owns s old 0 qs → zlen qs = npg sz → 0 ≤ sz ≤ UADDR_SZ →
  room (h_kmem (v_heap s)) (length qs) → (2 * length qs + 1 ≤ length F)%nat →
  ∃ d s' ps R' F', copyuvm old sz s = Ok d s' ∧ copy_of s old Ro F qs s' d R' F' ps.
Proof. apply copyuvm_ok. Qed.
End uvm.

(** ** Witnesses *)

(** A heap of seven pages above the example tables, with the first one, which is
    mapped at address 0, allocated. *)
Record demo7 (h : kheap) : Prop := {
  d7_ok : heap_ok 1 7 h;
  d7_start : k_start_heap (h_kmem h) = 0xFFFFFFFF40201000;
  d7_lock : kpt_lock ∉ m_held (h_mach h);
  d7_free : ∀ u, indom 7 u → free_at 1 (h_kmem h) u ↔ u / 4096 ≠ 0;
}.
Lemma demo_heap7 : ∃ h, demo7 h.
Proof.
  destruct (kmem_init2_ok 0xFFFFFFFF40200000 0xFFFFFFFF40208000 blank_heap) as (h & Hrun & Hok & Hsh & Hf);
    [split; vm_compute; done|done|apply blank_ok|apply blank_ok|].
  change (init_marks 0xFFFFFFFF40200000 0xFFFFFFFF40208000) with 1 in *.
  change (init_blks 0xFFFFFFFF40200000 0xFFFFFFFF40208000) with 7 in *.
  change (init_heap 0xFFFFFFFF40200000 0xFFFFFFFF40208000) with 0xFFFFFFFF40201000 in *.
  assert (Hc : match kmem_init2 0xFFFFFFFF40200000 0xFFFFFFFF40208000 blank_heap with
    | Ok _ h => match kmalloc 12 h with
      | Ok p h' => (p =? 0xFFFFFFFF40201000) && bool_decide (kpt_lock ∉ m_held (h_mach h')) | _ => false end
    | _ => false end = true) by (vm_compute; reflexivity).
  rewrite Hrun in Hc. clear Hrun.
  destruct (kmalloc_ok 1 7 h 12 Hok order12) as [[R _]|(b & h' & Hb & R & Hok' & [Hs Hm] & _ & Hf')]; rewrite R in Hc; [discriminate Hc|].
  apply andb_prop in Hc as [Ha%Z.eqb_eq Hl%bool_decide_eq_true].
  assert (b = 0) as -> by (unfold addr in Ha; rewrite Hsh in Ha; change (2 ^ 12) with 4096 in Ha; lia).
  exists h'. split; [exact Hok'|rewrite (same_start _ _ Hs); exact Hsh|exact Hl|].
  intros u Hu. rewrite (Hf' u Hu). change (2 ^ 12) with 4096. specialize (Hf u Hu). tauto.
Qed.
Lemma demo_space h : demo7 h → space 1 7 (demo_vm h) (demo_t 0) demo_roles demo_free_tables.
Proof.
  intros [Hok Hst Hl _]. split; cbn [v_heap v_mem v_freelist demo_vm].
  - apply demo_tree.
  - apply demo_spare.
  - split; [apply Hok|exact Hl].
  - exact Hok.
  - rewrite Hst. unfold KERNBASE. lia.
  - rewrite Hst. intros t [[r Ht]|Ht].
    + unfold demo_roles in Ht. repeat (apply lookup_insert_Some in Ht as [[<- _]|[_ Ht]]; [unfold demo_t; lia|]).
      apply lookup_singleton_Some in Ht as [<- _]. unfold demo_t. lia.
    + apply list_elem_of_fmap in Ht as (i & -> & Hi%elem_of_seqZ). unfold demo_t. lia.
Qed.
Lemma demo_owns h : demo7 h → owns 1 7 (demo_vm h) (demo_t 0) 0 [0xFFFFFFFF40201000].
Proof.
  intros [Hok Hst Hl Hf]. split.
  - intros i p Hi. destruct i as [|i]; [|discriminate Hi]. injection Hi as <-. exists AP_RW_1_0. split; [reflexivity|]. vm_compute. reflexivity.
  - intros p Hp%list_elem_of_singleton. subst p. exists 0. split; [lia|]. unfold addr. cbn [v_heap demo_vm]. rewrite Hst. reflexivity.
  - intros p Hp%list_elem_of_singleton. subst p. intros u Hu Hpu. cbn [v_heap demo_vm] in *. rewrite Hst in Hpu. rewrite (Hf u Hu).
    intros Hne. apply Hne. apply Z.div_small. lia.
  - apply NoDup_singleton.
Qed.
Lemma demo_room h : demo7 h → room 1 7 (h_kmem h) 1.
Proof.
  intros [_ _ _ Hf]. exists {[3]}. split; [rewrite size_singleton; lia|].
  intros b Hb%elem_of_singleton. subst b. split; [lia|]. intros u Hu. apply Hf; [|lia].
  unfold indom. pose proof (Z.div_mod u 4096 ltac:(lia)). pose proof (Z.mod_pos_bound u 4096 ltac:(lia)). lia.
Qed.

Lemma allocuvm_spec_witness : ∃ h r s', allocuvm (demo_t 0) 4000 9000 (demo_vm h) = Ok r s' ∧
  alloc_result 1 7 (demo_t 0) (demo_vm h) demo_roles demo_free_tables 4000 9000 r s'.
Proof.
  destruct demo_heap7 as [h Hh]. exists h.
  apply (allocuvm_spec 1 7 (demo_t 0) (demo_vm h) demo_roles demo_free_tables 4000 9000 (demo_space h Hh)).
  - unfold UADDR_SZ. vm_compute. split; [discriminate|reflexivity].
  - lia.
  - change (npg 4000) with 1. change (npg 9000) with 3. intros va Hva. apply demo_unmapped; [lia|].
    unfold pgoff. change (0 / 4096) with 0. rewrite Z.sub_0_r. pose proof (Z.div_mod va 4096 ltac:(lia)). pose proof (Z.mod_pos_bound va 4096 ltac:(lia)).
    rewrite Z.mod_small; lia.
  - vm_compute. discriminate.
Defined.
Lemma deallocuvm_spec_witness : ∃ h s', deallocuvm (demo_t 0) 100 0 (demo_vm h) = Ok 0 s' ∧
  ptes (v_mem s') (demo_t 0) 50 = 0 ∧ free_at 1 (h_kmem (v_heap s')) 10.
Proof.
  destruct demo_heap7 as [h Hh]. exists h.
  destruct (deallocuvm_spec 1 7 (demo_t 0) (demo_vm h) demo_roles demo_free_tables [0xFFFFFFFF40201000] 100 0 (demo_space h Hh))
    as (s' & R & H).
  - lia.
  - vm_compute. discriminate.
  - exact (demo_owns h Hh).
  - reflexivity.
  - exists s'. split; [exact R|]. split; [rewrite (sh_ptes _ _ _ _ _ _ _ _ _ H); reflexivity|].
    apply (sh_free _ _ _ _ _ _ _ _ _ H); [split; lia|]. right. exists 0xFFFFFFFF40201000. split; [left|].
    cbn [v_heap demo_vm]. rewrite (d7_start h Hh). lia.
Defined.
Lemma copyuvm_spec_witness : ∃ h d s', copyuvm (demo_t 0) 4000 (demo_vm h) = Ok d s' ∧ d ≠ 0 ∧
  PTE_AP (ptes (v_mem s') d 0) = AP_RW_1_0.
Proof.
  destruct demo_heap7 as [h Hh]. exists h.
  destruct (copyuvm_spec 1 7 (demo_t 0) (demo_vm h) demo_roles demo_free_tables [0xFFFFFFFF40201000] 4000 (demo_space h Hh) (demo_owns h Hh))
    as (d & s' & ps & R' & F' & E & [Hd _ _ Hl Hb _ _ _ _ _ _ _]).
  - reflexivity.
  - vm_compute. split; discriminate.
  - exact (demo_room h Hh).
  - vm_compute. lia.
  - exists d, s'. split; [exact E|]. split; [exact Hd|]. destruct ps as [|p ps]; [discriminate Hl|].
    destruct (Hb 0%nat p _ eq_refl eq_refl) as (_ & Hap & _). change (4096 * Z.of_nat 0) with 0 in Hap. rewrite Hap. vm_compute. reflexivity.
Defined.

(** * Where the code falls short *)

(** C40: when the boot-time tables are used up, [kpt_alloc] takes a block of 1024
    bytes ([PT_ORDER]) for a table of 4096 bytes ([PT_SZ]), or panics when no block
    is free.  Only the 1024 bytes leave the allocator, but all 4096 are cleared: the
    3072 bytes above stay free, or stay with whoever holds them, and are erased. *)
Theorem kpt_alloc_overlaps N NB s (k := h_kmem (v_heap s)) : heap_ok N NB (v_heap s) → vquiet s → v_freelist s = 0 →
  (∃ s', kpt_alloc s = Panic "oom: kpt_alloc" s' ∧ ∀ o b, is_order o → PT_ORDER ≤ o → 0 ≤ b < nblks NB o → isfree N k o b = false) ∨
  ∃ b s', let r := addr k PT_ORDER b in kpt_alloc s = Ok r s' ∧ 0 ≤ b < nblks NB PT_ORDER ∧ heap_ok N NB (v_heap s') ∧
    (∀ u, 1024 * b ≤ u < 1024 * (b + 1) → free_at N k u) ∧
    (∀ u, indom NB u → free_at N (h_kmem (v_heap s')) u ↔ free_at N k u ∧ ¬ (1024 * b ≤ u < 1024 * (b + 1))) ∧
    ∀ a, ld8 (v_mem s') a = if (r <=? a) && (a <? r + 4096) then 0 else ld8 (v_mem s) a.
Proof.
  intros Hk [Hw Hl] Hf. destruct Hk as (Hinv & _ & Hkl). destruct (saved_wf _ Hw) as (Hw1 & Hh1 & _). assert (H1 : heap_ok N NB (vsaved s)) by (unfold heap_ok, vsaved; cbn [h_mach h_kmem]; by rewrite Hh1).
  assert (Eq : ∀ a, kpt_alloc s = a ↔ (let* r := (let* r := zoom (kmalloc PT_ORDER) in panic_if (r =? 0) "oom: kpt_alloc" ;; ret r) in kmemset r 0 PT_SZ ;; ret r) (VmSt (vsaved s) (v_freelist s) (v_mem s)) = a).
  { intros a. unfold kpt_alloc. rewrite (bind_ok _ _ _ _ _ (zoom_ok _ s _ _ (acquire_ok kpt_lock (h_mach (v_heap s)) Hw))).
    erewrite bind_ok by reflexivity. cbn [v_freelist]. simpl. rewrite (proj2 (Z.eqb_eq _ _) Hf). cbn [negb when]. erewrite bind_ok by reflexivity. erewrite bind_ok; [reflexivity|].
    unfold zoom. simpl. rewrite (release_locked kpt_lock (h_mach (v_heap s)) Hw Hl). reflexivity. }
  destruct (kmalloc_ok N NB (vsaved s) PT_ORDER H1 ltac:(unfold is_order, PT_ORDER; lia)) as [[E Hn]|(b & h' & Hb & E & Hok & [_ _] & Hc & Hfr)]; [left|right].
  - eexists. split; [|exact Hn]. apply Eq. unfold bind at 1 2. unfold zoom at 1. simpl. rewrite E. reflexivity.
  - assert (Hp : 0 < addr k PT_ORDER b) by (apply (addr_pos N NB); [apply H1|unfold is_order, PT_ORDER; lia|done]).
    assert (Hdiv : ∀ u, u / 2 ^ PT_ORDER = b ↔ 1024 * b ≤ u < 1024 * (b + 1)).
    { intros u. change (2 ^ PT_ORDER) with 1024. pose proof (Z.div_mod u 1024 ltac:(lia)). pose proof (Z.mod_pos_bound u 1024 ltac:(lia)). split; [intros <-; lia|intros; symmetry; apply (Z.div_unique u 1024 b (u - 1024 * b)); lia]. }
    exists b, (VmSt h' (v_freelist s) (memset (v_mem s) (addr k PT_ORDER b) 0 PT_SZ)). split; [|split; [done|split; [done|split; [|split]]]].
    + apply Eq. unfold bind at 1 2. unfold zoom at 1. simpl. rewrite E. cbn [rbind]. change (addr (h_kmem (vsaved s)) PT_ORDER b) with (addr k PT_ORDER b).
      unfold bind, panic_if, ret, kmemset. cbn [rzoom rbind]. rewrite (proj2 (Z.eqb_neq (addr k PT_ORDER b) 0)) by lia. cbn [rbind]. rewrite (proj2 (Z.eqb_neq (addr k PT_ORDER b) 0)) by lia. reflexivity.
    + intros u Hu%Hdiv. by apply Hc.
    + intros u Hu. cbn [v_heap]. by rewrite (Hfr u Hu), Hdiv.
    + intros a. cbn [v_mem]. rewrite ld8_memset. done.
Qed.
(** A table in a heap of two pages: the bytes cleared after its block stay free. *)
Lemma kpt_alloc_overlaps_witness : ∃ r s', kpt_alloc (VmSt demo_heap 0 ∅) = Ok r s' ∧ ld8 (v_mem s') (r + 1024) = 0 ∧
  ∃ u, r + 1024 = k_start_heap (h_kmem demo_heap) + u ∧ free_at 1 (h_kmem (v_heap s')) u.
Proof.
  pose proof demo_ok as [Hok Hfr].
  assert (Hh : m_held (h_mach demo_heap) = ∅) by (vm_compute; reflexivity).
  assert (Hrun : match kpt_alloc (VmSt demo_heap 0 ∅) with Ok r _ => r =? addr (h_kmem demo_heap) PT_ORDER 0 | _ => false end = true) by (vm_compute; reflexivity).
  generalize dependent demo_heap. intros h Hok Hfr Hh Hrun.
  destruct (kpt_alloc_overlaps 1 2 (VmSt h 0 ∅)) as [(s' & E & _)|(b & s' & E & Hb & _ & _ & Hf & Hm)].
  - exact Hok.
  - split; [exact (proj1 (proj2 Hok))|]. cbn [v_heap]. rewrite Hh. apply not_elem_of_empty.
  - reflexivity.
  - exfalso. rewrite E in Hrun. discriminate Hrun.
  - exists (addr (h_kmem h) PT_ORDER b), s'. split; [exact E|]. split; [rewrite Hm; by destruct (_ && _)|].
    rewrite E in Hrun. apply Z.eqb_eq in Hrun. cbn [v_heap] in Hrun, Hf. unfold addr in Hrun |- *. change (2 ^ PT_ORDER) with 1024 in *.
    exists 1024. assert (b = 0) as -> by lia. split; [lia|]. apply Hf; [unfold indom; lia|]. split; [|lia]. apply Hfr. unfold indom. lia.
Defined.

(** A space with a page at 2 MB and no table for the addresses below. *)
Definition demo_hole : vmst := VmSt blank_heap 0
  (st64 (demo_t 0) (table_entry (demo_t 1)) (st64 (demo_t 1 + 8) (table_entry (demo_t 2))
    (st64 (demo_t 2) (pte_of 0x40201000 AP_RW_1_0) ∅))).
(** Where a table is missing, [deallocuvm] rounds up to the next table and then
    still adds a page: the first page of that table stays mapped. *)
Lemma deallocuvm_skips_page : ∃ s', deallocuvm (demo_t 0) (0x200000 + 4096) 4096 demo_hole = Ok 4096 s' ∧
  ptes (v_mem s') (demo_t 0) 0x200000 = pte_of 0x40201000 AP_RW_1_0.
Proof. eexists. split; [vm_compute; reflexivity|]. vm_compute. reflexivity. Qed.
