(* ===== verification/Freevm.v ===== *)
(** The end of an address space: [freevm] of [vm.c] returns every page of the space to
    the allocator and every table of its tree to the list of boot-time tables. *)

From S2P Require Import Prelude Spin Sched Mem Str Dll Buddy Vm Pgtab Uvm.

(** * Returning tables *)

(** A table of the boot-time list: [kpt_free] puts it back there. *)
Definition boot_table (t : Z) : Prop := kva t ∧ t < p2v INIT_KERNMAP.
(** From [s], whose free tables are [F], the tables [T] were put back, and became [F']. *)
Record returned (F : list Z) (s : vmst) (T : list Z) (s' : vmst) (F' : list Z) : Prop := {
  rt_chain : chain (v_mem s') (v_freelist s') F';
  rt_list : F' ≡ₚ T ++ F;
  rt_quiet : vquiet s';
  rt_kmem : h_kmem (v_heap s') = h_kmem (v_heap s);
  rt_held : m_held (h_mach (v_heap s')) = m_held (h_mach (v_heap s));
  rt_mach : 0 < m_ncli (h_mach (v_heap s)) → h_mach (v_heap s') = h_mach (v_heap s);
  rt_mem : ∀ x, (∀ t, t ∈ T → ¬ (t ≤ x < t + 4096)) → ld8 (v_mem s') x = ld8 (v_mem s) x;
}.
Lemma returned_nil F s : chain (v_mem s) (v_freelist s) F → vquiet s → returned F s [] s F.
Proof. by split. Qed.
Lemma returned_app F s T1 s1 F1 T2 s2 F2 : returned F s T1 s1 F1 → returned F1 s1 T2 s2 F2 → returned F s (T1 ++ T2) s2 F2.
Proof.
  intros [A1 A2 A3 A4 A5 A6 A7] [B1 B2 B3 B4 B5 B6 B7]. split; [done| |done|congruence|congruence| |].
  - rewrite B2, A2, !(assoc_L (++)). by rewrite (comm (++) T2 T1).
  - intros Hm. rewrite B6, A6; [done|done|]. by rewrite A6.
  - intros x Hx. rewrite B7, A7; [done|..]; intros t Ht; apply Hx, elem_of_app; [by left|by right].
Qed.
(** Tables that were not returned keep their words. *)
Lemma returned_word F s T s' F' q j : returned F s T s' F' → Forall kva T → kva q → q ∉ T → 0 ≤ j < 512 →
  ld64 (v_mem s') (q + 8 * j) = ld64 (v_mem s) (q + 8 * j).
Proof.
  intros H HT Kq Hq Hj. unfold ld64. f_equal. apply ld_bytes_ext. intros b Hb. apply (rt_mem _ _ _ _ _ H). intros t Ht Htb.
  assert (q ≠ t) by (by intros ->). rewrite Forall_forall in HT. by apply (kva_disjoint q t b b); [|apply HT|..]; try lia.
Qed.

Lemma kpt_free_ok t s F : boot_table t → vquiet s → chain (v_mem s) (v_freelist s) F → t ∉ F →
  ∃ s', kpt_free t s = Ok tt s' ∧ returned F s [t] s' (t :: F).
Proof.
  intros [Kt Hb] [Hw Hl] Hc Ht. set (s' := VmSt (vsaved s) t (st64 t (v_freelist s) (v_mem s))). exists s'. split.
  - unfold kpt_free. rewrite (proj2 (Z.leb_gt _ _)) by done.
    rewrite (bind_ok _ _ _ _ _ (zoom_ok _ s _ _ (acquire_ok kpt_lock (h_mach (v_heap s)) Hw))).
    erewrite bind_ok by reflexivity. erewrite zoom_ok by exact (release_locked kpt_lock (h_mach (v_heap s)) Hw Hl). reflexivity.
  - destruct (saved_wf _ Hw) as (Q1 & Q2 & _). split; simpl; [|done|split; simpl; [done|by rewrite Q2]|done|done|apply saved_id|].
    + split; [done|]. split; [done|]. rewrite ld64_st64. rewrite (u64_small (v_freelist s)).
      * apply (chain_agree (v_mem s)); [|done]. intros q Hq Kq. apply ld64_st64_other. assert (Hne : q ≠ t) by (by intros ->).
        destruct Kq as (_ & _ & Kq), Kt as (_ & _ & Kt). apply Z.mod_divide in Kq as [x Hx], Kt as [y Hy]; lia.
      * destruct F as [|f F]; simpl in Hc; [lia|]. destruct Hc as (-> & Kf & _). unfold kva, KERNBASE in Kf. lia.
    + intros x Hx. apply ld8_st64_out. specialize (Hx t ltac:(left)). lia.
Qed.

(** * The tables of a tree *)

(** The tables that entries [j] to [j + n - 1] of table [b] refer to. *)
Fixpoint kids (n : nat) (j : Z) (m : gmap Z Z) (b : Z) : list Z :=
  match n with
  | O => []
  | S n => (if present m (b + 8 * j) then [level_at m (b + 8 * j)] else []) ++ kids n (j + 1) m b
  end.
(** A second-level table and its children. *)
Definition branch (m : gmap Z Z) (b : Z) : list Z := kids 512 0 m b ++ [b].
Definition tables (m : gmap Z Z) (pgd : Z) : list Z := concat (branch m <$> kids 4 0 m pgd) ++ [pgd].
(** Entries of second-level tables have no attributes above the address. *)
Definition tidy (m : gmap Z Z) (R : gmap Z role) : Prop := ∀ t i j, R !! t = Some (Pmd i) → 0 ≤ j < 512 → ld64 m (t + 8 * j) < 2 ^ 48.

Lemma kids_agree n : ∀ j m m' b, (∀ i, j ≤ i < j + Z.of_nat n → ld64 m' (b + 8 * i) = ld64 m (b + 8 * i)) → kids n j m' b = kids n j m b.
Proof.
  induction n as [|n IH]; intros j m m' b H; [done|]. cbn [kids]. rewrite (IH (j + 1) m m' b) by (intros i Hi; apply H; lia).
  unfold present, level_at. by rewrite (H j) by lia.
Qed.
Lemma elem_of_kids n : ∀ j m b t, t ∈ kids n j m b ↔ ∃ i, j ≤ i < j + Z.of_nat n ∧ present m (b + 8 * i) = true ∧ t = level_at m (b + 8 * i).
Proof.
  induction n as [|n IH]; intros j m b t; cbn [kids]; [rewrite elem_of_nil; split; [done|intros (i & ? & _); lia]|].
  rewrite elem_of_app, IH. split.
  - intros [Ht|(i & ? & ?)]; [|by exists i; split; [lia|]]. destruct (present m (b + 8 * j)) eqn:E; [|by apply elem_of_nil in Ht].
    apply list_elem_of_singleton in Ht as ->. exists j. split; [lia|done].
  - intros (i & Hi & Hp & ->). destruct (decide (i = j)) as [->|]; [left; rewrite Hp; left|right; exists i; split; [lia|done]].
Qed.
Lemma PT_ADDR_eq v : 0 ≤ v < 2 ^ 48 → PT_ADDR v = Z.land v PG_ADDR_MASK.
Proof.
  intros Hv. unfold PT_ADDR, align_dn. change PG_ADDR_MASK with (Z.shiftl (Z.ones 36) 12). 
  assert (E : u64 (Z.lnot (PT_SZ - 1)) = Z.shiftl (Z.ones 52) 12) by (vm_compute; reflexivity). rewrite E. clear E.
  apply Z.bits_inj'. intros j Hj. rewrite !Z.land_spec, !Z.shiftl_spec by lia. destruct (Z.lt_ge_cases j 48); [|rewrite (testbit_high v 48) by lia; cbn [andb]; reflexivity].
  destruct (Z.lt_ge_cases j 12); [rewrite !(Z.testbit_neg_r _ (j - 12)) by lia; reflexivity|]. rewrite !Z.ones_spec_low by lia. reflexivity.
Qed.
Lemma le_dec_nonneg l : Forall (λ b, 0 ≤ b) l → 0 ≤ le_dec l.
Proof. induction 1; simpl; lia. Qed.
Lemma ld64_nonneg m a : 0 ≤ ld64 m a.
Proof.
  unfold ld64. apply le_dec_nonneg. generalize 8%nat as n. intros n. revert a. induction n as [|n IH]; intros b; simpl; constructor; [|apply IH]. pose proof (ld8_byte m b) as H. unfold is_byte in H. lia.
Qed.

(** The children of the second-level table [b]. *)
Lemma free_kids b n : kva b → ∀ j s F, 0 ≤ j → j + Z.of_nat n ≤ 512 → vquiet s → chain (v_mem s) (v_freelist s) F →
  Forall boot_table (kids n j (v_mem s) b) → NoDup (b :: kids n j (v_mem s) b ++ F) → (∀ i, 0 ≤ i < 512 → ld64 (v_mem s) (b + 8 * i) < 2 ^ 48) →
  ∃ s' F', for_all n j (fun i =>
      let* f := load64 (u64 (b + 8 * i)) in
      when (ztrue (Z.land f (Z.lor ENTRY_TABLE ENTRY_VALID))) (kpt_free (p2v (PT_ADDR f)))) s = Ok tt s' ∧
    returned F s (kids n j (v_mem s) b) s' F'.
Proof.
  intros Kb. induction n as [|n IH]; intros j s F Hj Hn Hq Hc Hbt Hnd Ht.
  { exists s, F. split; [done|by apply returned_nil]. }
  cbn [for_all kids] in *. rewrite (proj1 (kva_word b j Kb ltac:(lia))). unfold present in *. set (v := ld64 (v_mem s) (b + 8 * j)) in *. destruct (ztrue (Z.land v (Z.lor ENTRY_TABLE ENTRY_VALID))) eqn:Ev.
  2: { rewrite (bind_ok _ _ _ tt s) by (rewrite (bind_ok _ _ _ v s) by reflexivity; rewrite Ev; reflexivity). apply IH; [lia..|done|done|done|done|done]. }
  assert (El : p2v (PT_ADDR v) = level_at (v_mem s) (b + 8 * j)).
  { unfold level_at. fold v. rewrite Ev, PT_ADDR_eq; [done|]. split; [apply ld64_nonneg|apply Ht; lia]. }
  set (t := level_at (v_mem s) (b + 8 * j)) in *. cbn [app] in *. apply Forall_cons in Hbt as [Hbt0 Hbt].
  rewrite NoDup_cons, NoDup_cons, not_elem_of_cons in Hnd. destruct Hnd as ([Hbt1 Hb] & Htn & Hnd).
  assert (HtF : t ∉ F) by (intros H; apply Htn, elem_of_app; by right).
  destruct (kpt_free_ok t s F Hbt0 Hq Hc HtF) as (s1 & R1 & H1).
  rewrite (bind_ok _ _ _ tt s1) by (rewrite (bind_ok _ _ _ v s) by reflexivity; rewrite Ev, El; exact R1).
  assert (Hw : ∀ i, 0 ≤ i < 512 → ld64 (v_mem s1) (b + 8 * i) = ld64 (v_mem s) (b + 8 * i)).
  { intros i Hi. apply (returned_word F s [t] s1 (t :: F)); [done|by constructor; [apply Hbt0|]|done|by rewrite list_elem_of_singleton|done]. }
  assert (Ek : kids n (j + 1) (v_mem s1) b = kids n (j + 1) (v_mem s) b) by (apply kids_agree; intros i Hi; apply Hw; lia).
  destruct (IH (j + 1) s1 (t :: F)) as (s2 & F2 & R2 & H2); [lia..|apply H1|apply H1|by rewrite Ek| |intros i Hi; by rewrite Hw; [apply Ht|]|].
  - rewrite Ek, NoDup_cons, <- Permutation_middle, not_elem_of_cons, NoDup_cons. done.
  - exists s2, F2. split; [exact R2|]. rewrite Ek in H2. exact (returned_app _ _ _ _ _ _ _ _ H1 H2).
Qed.
Lemma branch_agree m m' b : (∀ i, 0 ≤ i < 512 → ld64 m' (b + 8 * i) = ld64 m (b + 8 * i)) → branch m' b = branch m b.
Proof. intros H. unfold branch. by rewrite (kids_agree 512 0 m m' b) by (intros i Hi; apply H; lia). Qed.
Lemma branches_agree m m' l : (∀ b i, b ∈ l → 0 ≤ i < 512 → ld64 m' (b + 8 * i) = ld64 m (b + 8 * i)) → concat (branch m' <$> l) = concat (branch m <$> l).
Proof. intros H. f_equal. apply list_fmap_ext. intros k b Hb%list_elem_of_lookup_2. apply branch_agree. intros i. by apply H. Qed.
Lemma elem_of_branches m l b : b ∈ l → b ∈ concat (branch m <$> l).
Proof.
  intros Hb. apply list_elem_of_In, in_concat. exists (branch m b). split; [apply list_elem_of_In; by apply list_elem_of_fmap_2|].
  apply list_elem_of_In, elem_of_app. right. left.
Qed.

(** The second-level tables under [pgd], each after its children. *)
Lemma free_branches pgd n : kva pgd → ∀ j s F, 0 ≤ j → j + Z.of_nat n ≤ 4 → vquiet s → chain (v_mem s) (v_freelist s) F →
  let B := kids n j (v_mem s) pgd in let T := concat (branch (v_mem s) <$> B) in
  Forall boot_table T → NoDup (pgd :: T ++ F) → (∀ b i, b ∈ B → 0 ≤ i < 512 → ld64 (v_mem s) (b + 8 * i) < 2 ^ 48) →
  ∃ s' F', for_all n j (fun j =>
      let* e := load64 (u64 (pgd + 8 * j)) in
      when (ztrue (Z.land e (Z.lor ENTRY_TABLE ENTRY_VALID))) (
        let pmdbase := p2v (Z.land e PG_ADDR_MASK) in
        for_all (Z.to_nat PTRS_PER_PMD) 0 (fun i =>
          let* f := load64 (u64 (pmdbase + 8 * i)) in
          when (ztrue (Z.land f (Z.lor ENTRY_TABLE ENTRY_VALID))) (kpt_free (p2v (PT_ADDR f)))) ;;
        kpt_free pmdbase)) s = Ok tt s' ∧ returned F s T s' F'.
Proof.
  intros Kp. induction n as [|n IH]; intros j s F Hj Hn Hq Hc B T Hbt Hnd Ht.
  { exists s, F. split; [done|by apply returned_nil]. }
  cbn [for_all]. subst B T. cbn [kids] in *. rewrite (proj1 (kva_word pgd j Kp ltac:(lia))). unfold present in *.
  set (v := ld64 (v_mem s) (pgd + 8 * j)) in *. destruct (ztrue (Z.land v (Z.lor ENTRY_TABLE ENTRY_VALID))) eqn:Ev.
  2: { rewrite (bind_ok _ _ _ tt s) by (rewrite (bind_ok _ _ _ v s) by reflexivity; rewrite Ev; reflexivity). apply IH; [lia..|done|done|done|done|done]. }
  assert (El : p2v (Z.land v PG_ADDR_MASK) = level_at (v_mem s) (pgd + 8 * j)) by (unfold level_at; fold v; by rewrite Ev).
  set (b := level_at (v_mem s) (pgd + 8 * j)) in *. set (B := kids n (j + 1) (v_mem s) pgd) in *.
  cbn [app fmap list_fmap concat] in *. set (T := concat (branch (v_mem s) <$> B)) in *.
  apply Forall_app in Hbt as [Hbt1 Hbt2]. rewrite <- (assoc_L (++)), NoDup_cons, NoDup_app in Hnd. destruct Hnd as (Hp & Hnd1 & Hdis & Hnd2).
  assert (HT : ∀ t, t ∈ branch (v_mem s) b → (t ∉ T) ∧ (t ∉ F)) by (intros t H; specialize (Hdis t H); rewrite elem_of_app in Hdis; tauto).
  pose proof Hbt1 as Hbt1'. pose proof Hnd1 as HndB. unfold branch in Hbt1', Hnd1. apply Forall_app in Hbt1' as [Hk Hb]. apply Forall_cons in Hb as [Hb _]. apply NoDup_app in Hnd1 as (Hnk & Hkb & _).
  assert (Hbk : b ∉ kids 512 0 (v_mem s) b) by (intros H; apply (Hkb b H); left).
  destruct (free_kids b 512 (proj1 Hb) 0 s F) as (s1 & F1 & R1 & H1); [lia|lia|done|done|done| |intros i Hi; apply Ht; [left|done]|].
  { rewrite NoDup_cons, elem_of_app, NoDup_app. split; [intros [H|H]; [done|by apply (proj2 (HT b ltac:(apply elem_of_app; right; left)))]|].
    split; [done|]. split; [intros t Htk; apply HT, elem_of_app; by left|]. apply NoDup_app in Hnd2. apply Hnd2. }
  destruct (kpt_free_ok b s1 F1) as (s2 & R2 & H2); [done|apply H1|apply H1| |].
  { rewrite (rt_list _ _ _ _ _ H1), elem_of_app. intros [H|H]; [done|]. by apply (proj2 (HT b ltac:(apply elem_of_app; right; left))). }
  pose proof (returned_app _ _ _ _ _ _ _ _ H1 H2) as H12. fold (branch (v_mem s) b) in H12.
  assert (Hkv : Forall kva (branch (v_mem s) b)) by (eapply Forall_impl; [exact Hbt1|by intros ? []]).
  assert (HpB : pgd ∉ branch (v_mem s) b) by (intros H; apply Hp, elem_of_app; by left).
  assert (EB : kids n (j + 1) (v_mem s2) pgd = B) by (apply kids_agree; intros i Hi; by apply (returned_word _ _ _ _ _ pgd i H12); [..|lia]).
  assert (HBw : ∀ c i, c ∈ B → 0 ≤ i < 512 → ld64 (v_mem s2) (c + 8 * i) = ld64 (v_mem s) (c + 8 * i)).
  { intros c i Hc' Hi. pose proof (elem_of_branches (v_mem s) B c Hc') as HcT. apply (returned_word _ _ _ _ _ c i H12); [done| | |done].
    - rewrite Forall_forall in Hbt2. by apply Hbt2.
    - intros H. by apply (proj1 (HT c H)). }
  assert (ET : concat (branch (v_mem s2) <$> B) = T) by (by apply branches_agree).
  destruct (IH (j + 1) s2 (b :: F1)) as (s3 & F3 & R3 & H3); [lia..|apply H2|apply H2| | | |].
  - by rewrite EB, ET.
  - rewrite EB, ET, (rt_list _ _ _ _ _ H12), (Permutation_app_swap_app T). apply NoDup_cons. split; [done|]. by apply NoDup_app.
  - intros c i. rewrite EB. intros Hc' Hi. rewrite HBw by done. apply Ht; [by right|done].
  - rewrite EB, ET in H3. exists s3, F3. split; [|exact (returned_app _ _ _ _ _ _ _ _ H12 H3)].
    rewrite (bind_ok _ _ _ tt s2); [exact R3|]. rewrite (bind_ok _ _ _ v s) by reflexivity. rewrite Ev, El. cbn [when].
    rewrite (bind_ok _ _ _ tt s1) by exact R1. exact R2.
Qed.

(** ** Distinct tables *)

Section tree.
Context (m : gmap Z Z) (pgd : Z) (R : gmap Z role) (Ht : ptree m pgd R).

Lemma kids_nodup (f : Z → role) (Hf : ∀ i k, f i = f k → i = k) b n : ∀ j,
  (∀ i, j ≤ i < j + Z.of_nat n → present m (b + 8 * i) = true → R !! level_at m (b + 8 * i) = Some (f i)) → NoDup (kids n j m b).
Proof.
  induction n as [|n IH]; intros j H; cbn [kids]; [constructor|]. assert (IH' : NoDup (kids n (j + 1) m b)) by (apply IH; intros i Hi; apply H; lia).
  destruct (present m (b + 8 * j)) eqn:E; [|exact IH']. cbn [app]. constructor; [|exact IH'].
  intros (i & Hi & Hp & El)%elem_of_kids. pose proof (H j ltac:(lia) E) as H1. pose proof (H i ltac:(lia) Hp) as H2. rewrite El, H2 in H1.
  injection H1 as H1. apply Hf in H1. lia.
Qed.
(** The entry of the root that leads to a table. *)
Definition top (r : role) : option Z := match r with Root => None | Pmd i | Pt i _ => Some i end.
Lemma branch_roles b i : R !! b = Some (Pmd i) → NoDup (branch m b) ∧ ∀ t, t ∈ branch m b → ∃ r, R !! t = Some r ∧ top r = Some i.
Proof.
  intros Hb. unfold branch. assert (Hk : ∀ t, t ∈ kids 512 0 m b → ∃ j, R !! t = Some (Pt i j)).
  { intros t (j & Hj & Hp & ->)%elem_of_kids. exists j. by apply (pt_pt _ _ _ Ht); [|lia|]. }
  split.
  - rewrite NoDup_app. split; [|split; [|apply NoDup_singleton]].
    + apply (kids_nodup (Pt i)); [by intros ?? [= ->]|]. intros j Hj Hp. by apply (pt_pt _ _ _ Ht); [|lia|].
    + intros t [j Hj]%Hk ->%list_elem_of_singleton. congruence.
  - intros t [[j Hj]%Hk| ->%list_elem_of_singleton]%elem_of_app; by eexists.
Qed.
Lemma branches_roles n : ∀ j, 0 ≤ j → j + Z.of_nat n ≤ 4 → let T := concat (branch m <$> kids n j m pgd) in
  NoDup T ∧ ∀ t, t ∈ T → ∃ r i, R !! t = Some r ∧ top r = Some i ∧ j ≤ i.
Proof.
  induction n as [|n IH]; intros j Hj Hn T; [split; [constructor|by intros t ?%elem_of_nil]|]. subst T. cbn [kids].
  destruct (IH (j + 1) ltac:(lia) ltac:(lia)) as [H1 H2]. destruct (present m (pgd + 8 * j)) eqn:E; cbn [app fmap list_fmap concat].
  2: { split; [done|]. intros t (r & i & ? & ? & ?)%H2. exists r, i. split_and!; [done..|lia]. }
  destruct (branch_roles _ _ (pt_pmd _ _ _ Ht j ltac:(lia) E)) as [B1 B2]. split.
  - rewrite NoDup_app. split; [done|]. split; [|done]. intros t (r & Hr & Hi)%B2 (r' & i & Hr' & Hi' & ?)%H2. rewrite Hr in Hr'. simplify_eq. lia.
  - intros t [(r & Hr & Hi)%B2|(r & i & ? & ? & ?)%H2]%elem_of_app; [exists r, j|exists r, i]; split_and!; (done || lia).
Qed.
(** The tables of a tree are distinct and have roles. *)
Lemma tables_roles : NoDup (tables m pgd) ∧ ∀ t, t ∈ tables m pgd → is_Some (R !! t).
Proof.
  destruct (branches_roles 4 0 ltac:(lia) ltac:(lia)) as [H1 H2]. unfold tables. split.
  - rewrite NoDup_app. split; [done|]. split; [|apply NoDup_singleton]. intros t (r & i & Hr & Hi & _)%H2 ->%list_elem_of_singleton.
    rewrite (pt_root _ _ _ Ht) in Hr. by injection Hr as <-.
  - intros t [(r & i & Hr & _)%H2| ->%list_elem_of_singleton]%elem_of_app; [by eexists|]. rewrite (pt_root _ _ _ Ht). by eexists.
Qed.
Lemma kids_pmd b : b ∈ kids 4 0 m pgd → ∃ i, R !! b = Some (Pmd i).
Proof. intros (i & Hi & Hp & ->)%elem_of_kids. exists i. by apply (pt_pmd _ _ _ Ht); [lia|]. Qed.
(** A memory with the same inner words has the same tables. *)
Lemma tables_agree m' : (∀ q r j, R !! q = Some r → inner r → 0 ≤ j < 512 → ld64 m' (q + 8 * j) = ld64 m (q + 8 * j)) → tables m' pgd = tables m pgd.
Proof.
  intros H. unfold tables. rewrite (kids_agree 4 0 m m' pgd) by (intros i Hi; apply (H pgd Root); [apply Ht|done|lia]).
  rewrite (branches_agree m m'); [done|]. intros b i [k Hk]%kids_pmd Hi. by apply (H b (Pmd k)).
Qed.
End tree.

(** * [freevm] *)

(** Between [s] and [s'], the space at [pgd] with the pages [ps] was given back. *)
Record given_back (N NB : Z) (pgd : Z) (s : vmst) (R : gmap Z role) (F ps : list Z) (s' : vmst) : Prop := {
  gb_tables : ∃ F', chain (v_mem s') (v_freelist s') F' ∧ F' ≡ₚ tables (v_mem s) pgd ++ F ∧ NoDup F';
  gb_quiet : vquiet s';
  gb_heap : heap_ok N NB (v_heap s');
  gb_bounds : same_bounds (h_kmem (v_heap s)) (h_kmem (v_heap s'));
  gb_locks : m_held (h_mach (v_heap s')) = m_held (h_mach (v_heap s));
  gb_mach : 0 < m_ncli (h_mach (v_heap s)) → h_mach (v_heap s') = h_mach (v_heap s);
  gb_free : ∀ u, indom NB u → free_at N (h_kmem (v_heap s')) u ↔
    free_at N (h_kmem (v_heap s)) u ∨ ∃ p, p ∈ ps ∧ p ≤ k_start_heap (h_kmem (v_heap s)) + u < p + 4096;
  gb_frame : ∀ q x, kva q → R !! q = None → q ∉ F → q ≤ x < q + 4096 → ld8 (v_mem s') x = ld8 (v_mem s) x;
}.

Lemma freevm_ok N NB pgd s R F ps : space N NB s pgd R F → owns N NB s pgd 0 ps → 4096 * zlen ps ≤ UADDR_SZ →
  (∀ va, 4096 * zlen ps ≤ va < UADDR_SZ → Z.land (ptes (v_mem s) pgd va) 3 = 0) →
  (∀ t, is_Some (R !! t) → t < p2v INIT_KERNMAP) → tidy (v_mem s) R →
  ∃ s', freevm pgd s = Ok tt s' ∧ given_back N NB pgd s R F ps s'.
Proof.
  intros Hs Ho Hz Hun Hlow Htd. change UADDR_SZ with (2 ^ 28) in *.
  destruct (deallocuvm_ok N NB pgd s R F ps (2 ^ 28) 0 Hs) as (s1 & R1 & H1); try done.
  { change (npg (2 ^ 28) - npg 0) with (2 ^ 16). lia. }
  pose proof (sh_space _ _ _ _ _ _ _ _ _ H1) as [S1 S2 S3 S4 _ _]. pose proof (sh_keep _ _ _ _ _ _ _ _ _ H1) as Hkeep.
  pose proof (tables_agree _ _ _ (sc_tree _ _ _ _ _ _ Hs) _ Hkeep) as Et. destruct (tables_roles _ _ _ S1) as [Hnd Hin].
  pose proof (pt_kva _ _ _ S1 _ _ (pt_root _ _ _ S1)) as Kp. destruct S2 as [C1 C2 C3].
  assert (HF : ∀ t, t ∈ tables (v_mem s1) pgd → t ∉ F) by (intros t [r Hr]%Hin HtF; by rewrite (C3 t HtF) in Hr).
  assert (Hbt : Forall boot_table (tables (v_mem s1) pgd)).
  { apply Forall_forall. intros t Ht. specialize (Hin t Ht) as Ht'. split; [|by apply Hlow]. destruct Ht' as [r Hr]. by apply (pt_kva _ _ _ S1 t r). }
  unfold tables in Hnd, HF, Hbt. set (T := concat (branch (v_mem s1) <$> kids 4 0 (v_mem s1) pgd)) in *.
  apply NoDup_app in Hnd as (HT & HpT & _). apply Forall_app in Hbt as [HbT Hbp]. apply Forall_cons in Hbp as [Hbp _].
  assert (HpT' : pgd ∉ T) by (intros H; apply (HpT pgd H); left).
  assert (HpF : pgd ∉ F) by (apply HF, elem_of_app; right; left).
  destruct (free_branches pgd 4 Kp 0 s1 F) as (s2 & F2 & R2 & H2); [lia|lia|done|done|done| | |].
  { fold T. rewrite NoDup_cons, elem_of_app, NoDup_app. split; [tauto|]. split; [done|]. split; [|done]. intros t Ht. apply HF, elem_of_app. by left. }
  { intros b i [k Hk]%(kids_pmd _ _ _ S1) Hi. rewrite (Hkeep b (Pmd k)) by done. by apply (Htd b k). }
  fold T in H2. destruct (kpt_free_ok pgd s2 F2) as (s3 & R3 & H3); [done|apply H2|apply H2| |].
  { rewrite (rt_list _ _ _ _ _ H2), elem_of_app. tauto. }
  pose proof (returned_app _ _ _ _ _ _ _ _ H2 H3) as H23. change (T ++ [pgd]) with (tables (v_mem s1) pgd) in H23. rewrite Et in H23.
  exists s3. split.
  { unfold freevm. pose proof (kva_pos pgd Kp). rewrite (proj2 (Z.eqb_neq pgd 0)) by lia. rewrite (bind_ok _ _ _ tt s) by done.
    change UADDR_SZ with (2 ^ 28). rewrite (bind_ok _ _ _ _ _ R1), (bind_ok _ _ _ _ _ R2). exact R3. }
  destruct H1 as [_ A2 A3 A4 _ A6 _ A8], H23 as [B1 B2 B3 B4 B5 B6 B7]. split.
  - exists (pgd :: F2). split; [done|]. split; [done|]. rewrite B2, <- Et. apply NoDup_app. split; [by apply (tables_roles _ _ R)|]. split; [|done].
    intros t Ht. by apply HF.
  - done.
  - destruct S4 as (G1 & G2 & G3). destruct B3 as [B3 _]. split; [by rewrite B4|]. split; [done|]. by rewrite B5.
  - by rewrite B4.
  - by rewrite B5.
  - intros Hm. rewrite B6, A8; [done|done|]. by rewrite A8.
  - intros u Hu. by rewrite B4, (A6 u Hu).
  - intros q x Kq HR HqF Hx. rewrite B7, (A4 q x); [done..|]. intros t Ht Htx. rewrite <- Et in Ht. destruct (Hin t Ht) as [r Hr].
    apply (kva_disjoint q t x x); [done|by apply (pt_kva _ _ _ S1 t r)| |done|done|done]. intros ->. congruence.
Qed.

(** C18: Freeing an address space gives everything back: every page of the process
    returns to the allocator, every table of the tree, each exactly once and after
    the tables below it, to the list [kpt_alloc] takes tables from; no other memory
    changes and the invariants of the allocators hold. *)
Theorem freevm_spec N NB pgd s R F ps : space N NB s pgd R F → owns N NB s pgd 0 ps → 4096 * zlen ps ≤ UADDR_SZ →
  (∀ va, 4096 * zlen ps ≤ va < UADDR_SZ → Z.land (ptes (v_mem s) pgd va) 3 = 0) →
  (∀ t, is_Some (R !! t) → t < p2v INIT_KERNMAP) → tidy (v_mem s) R →
  ∃ s', freevm pgd s = Ok tt s' ∧ given_back N NB pgd s R F ps s'.
Proof. apply freevm_ok. Qed.

(** ** Witnesses *)

Lemma demo_low_roles t : is_Some (demo_roles !! t) → t + 4096 ≤ 0xFFFFFFFF40200000.
Proof.
  intros [r Ht]. unfold demo_roles in Ht.
  repeat (apply lookup_insert_Some in Ht as [[<- _]|[_ Ht]]; [unfold demo_t; lia|]). apply lookup_singleton_Some in Ht as [<- _]. unfold demo_t. lia.
Qed.
Lemma demo_low t : is_Some (demo_roles !! t) → t < p2v INIT_KERNMAP.
Proof. change (p2v INIT_KERNMAP) with 0xFFFFFFFF40200000. intros H%demo_low_roles. lia. Qed.
Lemma demo_tidy : tidy demo_tables demo_roles.
Proof.
  intros t i j Ht Hj. assert (t = demo_t 1) as ->.
  { unfold demo_roles in Ht. repeat (apply lookup_insert_Some in Ht as [[<- E]|[_ Ht]]; [by simplify_eq|]). by apply lookup_singleton_Some in Ht as [_ ?]. }
  assert (Hall : forallb (λ j, ld64 demo_tables (demo_t 1 + 8 * j) <? 2 ^ 48) (seqZ 0 512) = true) by (vm_compute; reflexivity).
  rewrite forallb_forall in Hall. apply Z.ltb_lt, Hall, list_elem_of_In, elem_of_seqZ. lia.
Qed.
Lemma demo_rest va : 4096 ≤ va < UADDR_SZ → Z.land (ptes demo_tables (demo_t 0) va) 3 = 0.
Proof.
  change UADDR_SZ with (2 ^ 28). intros Hva. apply demo_unmapped; [lia|]. unfold pgoff. change (0 / 4096) with 0. rewrite Z.sub_0_r.
  pose proof (Z.div_mod va 4096 ltac:(lia)). pose proof (Z.mod_pos_bound va 4096 ltac:(lia)). rewrite Z.mod_small; lia.
Qed.
Lemma demo_tabs : tables demo_tables (demo_t 0) = [demo_t 2; demo_t 1; demo_t 0].
Proof. vm_compute. reflexivity. Qed.
(** The first page of the heap is free again, and three tables are back in the list. *)
Lemma freevm_spec_witness : ∃ h s' F', freevm (demo_t 0) (demo_vm h) = Ok tt s' ∧ free_at 1 (h_kmem (v_heap s')) 10 ∧
  chain (v_mem s') (v_freelist s') F' ∧ F' ≡ₚ [demo_t 2; demo_t 1; demo_t 0] ++ demo_free_tables.
Proof.
  destruct demo_heap7 as [h Hh]. exists h.
  destruct (freevm_spec 1 7 (demo_t 0) (demo_vm h) demo_roles demo_free_tables [0xFFFFFFFF40201000] (demo_space h Hh) (demo_owns h Hh)) as (s' & R & H).
  - vm_compute. discriminate.
  - exact demo_rest.
  - exact demo_low.
  - exact demo_tidy.
  - destruct (gb_tables _ _ _ _ _ _ _ _ H) as (F' & Hc & Hp & _). cbn [v_mem demo_vm] in Hp. rewrite demo_tabs in Hp. exists s', F'. split; [exact R|]. split; [|split; [exact Hc|exact Hp]].
    apply (gb_free _ _ _ _ _ _ _ _ H); [split; lia|]. right. exists 0xFFFFFFFF40201000. split; [left|].
    cbn [v_heap demo_vm]. rewrite (d7_start h Hh). lia.
Defined.
