(* ===== verification/Kernel.v ===== *)
(** The kernel's whole state, and the memory of the running process.

    The components below ([Fs] with the buffer cache, the log, the process table
    and the machine; [Vm] with the heap) share this state; lenses give each its
    own part.  [u*] operations go through the running process's page table. *)

From S2P Require Import Prelude Spin Sched Mem Str Dll Buddy Bio Log Fs Vm.

(** * Data *)

(** [struct file] ([file.h]).  Pipes are named by their address, inodes by
    their index. *)
Inductive fdtype := FD_NONE | FD_PIPE | FD_INODE.
#[export] Instance fdtype_eq_dec : EqDecision fdtype.
Proof. solve_decision. Defined.
Record file := File {
  f_type : fdtype;
  f_ref : Z;
  f_readable : Z;
  f_writable : Z;
  f_pipe : Z;
  f_ip : option Z;
  f_off : Z;
}.
Definition set_f_type v r := File v (f_ref r) (f_readable r) (f_writable r)
  (f_pipe r) (f_ip r) (f_off r).
Definition set_f_ref v r := File (f_type r) v (f_readable r) (f_writable r)
  (f_pipe r) (f_ip r) (f_off r).
Definition set_f_readable v r := File (f_type r) (f_ref r) v (f_writable r)
  (f_pipe r) (f_ip r) (f_off r).
Definition set_f_writable v r := File (f_type r) (f_ref r) (f_readable r) v
  (f_pipe r) (f_ip r) (f_off r).
Definition set_f_pipe v r := File (f_type r) (f_ref r) (f_readable r)
  (f_writable r) v (f_ip r) (f_off r).
Definition set_f_ip v r := File (f_type r) (f_ref r) (f_readable r)
  (f_writable r) (f_pipe r) v (f_off r).
Definition set_f_off v r := File (f_type r) (f_ref r) (f_readable r)
  (f_writable r) (f_pipe r) (f_ip r) v.
Definition NFILE : Z := 100.
Definition zero_file : file := File FD_NONE 0 0 0 0 None 0.

(** [struct pipe] ([pipe.c]). *)
Definition PIPESIZE : Z := 512.
Record pipe := Pipe {
  pp_data : list Z;            (* data[PIPESIZE] *)
  pp_nread : Z;
  pp_nwrite : Z;
  pp_readopen : Z;
  pp_writeopen : Z;
}.
Definition set_pp_data v r := Pipe v (pp_nread r) (pp_nwrite r) (pp_readopen
  r) (pp_writeopen r).
Definition set_pp_nread v r := Pipe (pp_data r) v (pp_nwrite r) (pp_readopen
  r) (pp_writeopen r).
Definition set_pp_nwrite v r := Pipe (pp_data r) (pp_nread r) v (pp_readopen
  r) (pp_writeopen r).
Definition set_pp_readopen v r := Pipe (pp_data r) (pp_nread r) (pp_nwrite r)
  v (pp_writeopen r).
Definition set_pp_writeopen v r := Pipe (pp_data r) (pp_nread r) (pp_nwrite r)
  (pp_readopen r) v.

(** [input], [cons] and [panicked] ([console.c]), with the characters sent to the
    UART so far. *)
Definition INPUT_BUF : Z := 512.
Record consst := ConsSt {
  in_buf : list Z;             (* buf[INPUT_BUF] *)
  in_r : Z;
  in_w : Z;
  in_e : Z;
  c_locking : Z;
  c_out : list Z;              (* written to the UART, oldest first *)
}.
Definition set_in_buf v r := ConsSt v (in_r r) (in_w r) (in_e r) (c_locking r)
  (c_out r).
Definition set_in_r v r := ConsSt (in_buf r) v (in_w r) (in_e r) (c_locking r)
  (c_out r).
Definition set_in_w v r := ConsSt (in_buf r) (in_r r) v (in_e r) (c_locking r)
  (c_out r).
Definition set_in_e v r := ConsSt (in_buf r) (in_r r) (in_w r) v (c_locking r)
  (c_out r).
Definition set_c_locking v r := ConsSt (in_buf r) (in_r r) (in_w r) (in_e r) v
  (c_out r).
Definition set_c_out v r := ConsSt (in_buf r) (in_r r) (in_w r) (in_e r)
  (c_locking r) v.

Record kst := Kst {
  k_fs : fsst;                 (* inodes, log, buffers, processes, machine *)
  k_km : kmem;                 (* the buddy allocator *)
  k_kpt : Z;                   (* kpt_mem.freelist *)
  k_mem : gmap Z Z;            (* kernel memory *)
  k_file : list file;          (* ftable.file[NFILE] *)
  k_pipe : gmap Z pipe;        (* the pipes, by address *)
  k_cons : consst;
  k_ticks : Z;
}.
Definition set_k_fs v r := Kst v (k_km r) (k_kpt r) (k_mem r) (k_file r)
  (k_pipe r) (k_cons r) (k_ticks r).
Definition set_k_km v r := Kst (k_fs r) v (k_kpt r) (k_mem r) (k_file r)
  (k_pipe r) (k_cons r) (k_ticks r).
Definition set_k_kpt v r := Kst (k_fs r) (k_km r) v (k_mem r) (k_file r)
  (k_pipe r) (k_cons r) (k_ticks r).
Definition set_k_mem v r := Kst (k_fs r) (k_km r) (k_kpt r) v (k_file r)
  (k_pipe r) (k_cons r) (k_ticks r).
Definition set_k_file v r := Kst (k_fs r) (k_km r) (k_kpt r) (k_mem r) v
  (k_pipe r) (k_cons r) (k_ticks r).
Definition set_k_pipe v r := Kst (k_fs r) (k_km r) (k_kpt r) (k_mem r) (k_file
  r) v (k_cons r) (k_ticks r).
Definition set_k_cons v r := Kst (k_fs r) (k_km r) (k_kpt r) (k_mem r) (k_file
  r) (k_pipe r) v (k_ticks r).
Definition set_k_ticks v r := Kst (k_fs r) (k_km r) (k_kpt r) (k_mem r)
  (k_file r) (k_pipe r) (k_cons r) v.

Definition k_base (s : kst) : base := io_base (lg_bio (fs_log (k_fs s))).
Definition set_k_base (b : base) (s : kst) : kst :=
  set_k_fs (lset b (k_fs s)) s.
Definition k_vm (s : kst) : vmst := VmSt (Kheap (b_mach (k_base s)) (k_km s)) (k_kpt s) (k_mem s).
Definition set_k_vm (v : vmst) (s : kst) : kst :=
  let s := set_k_base (set_b_mach (h_mach (v_heap v)) (k_base s)) s in
  set_k_km (h_kmem (v_heap v)) (set_k_kpt (v_freelist v) (set_k_mem (v_mem v) s)).

Ltac open_states :=
  intros; repeat match goal with
  | b : kst |- _ => destruct b | b : fsst |- _ => destruct b | b : logst |- _ => destruct b
  | b : bio |- _ => destruct b | b : base |- _ => destruct b | b : vmst |- _ => destruct b
  | b : kheap |- _ => destruct b end.

#[export] Program Instance lens_k_fs : Lens kst fsst := {| lget := k_fs; lset := set_k_fs |}.
Solve All Obligations with (by open_states).
#[export] Program Instance lens_k_log : Lens kst logst :=
  {| lget := λ s, fs_log (k_fs s); lset := λ l s, set_k_fs (set_fs_log l (k_fs s)) s |}.
Solve All Obligations with (by open_states).
#[export] Program Instance lens_k_base : Lens kst base := {| lget := k_base; lset := set_k_base |}.
Solve All Obligations with (by open_states).
#[export] Program Instance lens_k_vm : Lens kst vmst := {| lget := k_vm; lset := set_k_vm |}.
Solve All Obligations with (by open_states).
#[export] Program Instance lens_k_heap : Lens kst kheap :=
  {| lget := λ s, v_heap (k_vm s); lset := λ h s, set_k_vm (set_v_heap h (k_vm s)) s |}.
Solve All Obligations with (by open_states).
#[export] Program Instance lens_k_cons : Lens kst consst := {| lget := k_cons; lset := set_k_cons |}.
Solve All Obligations with (by open_states).

(** The channel of a process: its address in the table. *)
Definition proc_chan (i : Z) : objaddr := ("ptable.proc", i).

Definition kproc (i : Z) : M kst proc := zoom (get_proc i).
Definition kupd_proc (i : Z) (f : proc → proc) : M kst unit := zoom (upd_proc i f).
(** The variable [proc] and what it points to. *)
Definition kcur : M kst Z := zoom myproc.
Definition kmyproc : M kst proc := let* i := kcur in kproc i.

(** * The memory of the running process *)

(** The hardware's walk of the page table in [TTBR0]; an access that faults in
    the kernel is undefined. *)
Definition utrans (va : Z) : M kst Z :=
  let* t := gets (fun s => m_ttbr0 (b_mach (k_base s))) in
  let* pte := zoom (walkpgdir (p2v t) va false) in
  if pte =? 0 then undef "fault" else
  let* v := zoom (load64 pte) in
  if negb (Z.land v 3 =? 3) then undef "fault" else
  ret (u64 (p2v (Z.land v PG_ADDR_MASK) + va mod PTE_SZ)).
Definition uload8 (va : Z) : M kst Z :=
  let* a := utrans va in let* m := gets k_mem in ret (ld8 m a).
Definition ustore8 (va v : Z) : M kst unit :=
  let* a := utrans va in modify (fun s => set_k_mem (st8 a v (k_mem s)) s).
Fixpoint uload (n : nat) (va : Z) : M kst (list Z) :=
  match n with
  | O => ret []
  | S n => let* b := uload8 va in let* l := uload n (u64 (va + 1)) in ret (b :: l)
  end.
Fixpoint ustore (va : Z) (l : list Z) : M kst unit :=
  match l with
  | [] => ret tt
  | b :: l => ustore8 va b ;; ustore (u64 (va + 1)) l
  end.
(** A C string: its bytes up to the NUL. *)
Fixpoint ustr (fuel : nat) (va : Z) : M kst (list Z) :=
  match fuel with
  | O => out_of_fuel
  | S fuel =>
      let* b := uload8 va in
      if b =? 0 then ret [] else let* l := ustr fuel (u64 (va + 1)) in ret (b :: l)
  end.

(** * Correctness

    ** Critical sections *)

(** The caller may take the lock [lk] and [ptable.lock]. *)
Record kidle (lk : objaddr) (s : kst) : Prop := {
  ki_cli : cli_wf (b_mach (k_base s));
  ki_depth : m_ncli (b_mach (k_base s)) < 2 ^ 31 - 8;
  ki_lk : lk ∉ m_held (b_mach (k_base s));
  ki_ptable : ptable_lock ∉ m_held (b_mach (k_base s));
  ki_ne : lk ≠ ptable_lock;
}.

Lemma set_k_base_base b s : k_base (set_k_base b s) = b.
Proof. by destruct s as [[[[] ? ? ? ? ? ?] ?]]. Qed.
Lemma set_k_base_twice b b' s : set_k_base b (set_k_base b' s) = set_k_base b s.
Proof. done. Qed.

(** [s] with [lk] taken, and with it given back. *)
Definition klocked (lk : objaddr) (s : kst) : kst :=
  set_k_base (set_b_mach (locked lk (b_mach (k_base s))) (k_base s)) s.
Definition kfreed (s : kst) : kst :=
  set_k_base (set_b_mach (saved (b_mach (k_base s))) (k_base s)) s.
Definition kwoken (chan : objaddr) (s : kst) : kst :=
  set_k_base (set_b_procs (wake_one chan <$> b_procs (k_base s)) (k_base s)) s.

Lemma kacquire_ok lk s : kidle lk s → bacquire lk s = Ok tt (klocked lk s).
Proof. intros []. exact (bacquire_ok (S:=kst) lk s ki_cli0). Qed.
Lemma krelease_ok lk s : kidle lk s → brelease lk (klocked lk s) = Ok tt (kfreed s).
Proof.
  intros []. unfold brelease, klocked. erewrite zoom_ok; [|].
  - reflexivity.
  - unfold zoom; simpl. rewrite set_k_base_base. simpl. by rewrite release_locked.
Qed.
Lemma kwakeup_ok chan lk s : kidle lk s →
  (zoom (wakeup chan) : M kst unit) (klocked lk s) = Ok tt (klocked lk (kwoken chan s)).
Proof.
  intros []. unfold zoom. change (lget (klocked lk s)) with (k_base (klocked lk s)).
  unfold klocked. rewrite set_k_base_base, wakeup_locked by done. simpl.
  unfold kwoken. by rewrite set_k_base_base.
Qed.
Lemma kidle_woken lk chan s : kidle lk s → kidle lk (kwoken chan s).
Proof. intros []. split; unfold kwoken; rewrite ?set_k_base_base; done. Qed.

(** ** The running process *)

(** Slot [c] of the table has the CPU, and holds [p]. *)
Record running (s : kst) (c : Z) (p : proc) : Prop := {
  rn_cur : b_cur (k_base s) = Some c;
  rn_proc : znth (b_procs (k_base s)) c = Some p;
}.
Lemma set_k_base_id s : set_k_base (k_base s) s = s.
Proof. by destruct s as [[[[] ? ? ? ? ? ?] ?]]. Qed.
Lemma zoom_kbase {A} (m : M base A) s a b : m (k_base s) = Ok a b → (zoom m : M kst A) s = Ok a (set_k_base b s).
Proof. intros H. unfold zoom. change (lget s) with (k_base s). by rewrite H. Qed.
Lemma kproc_ok s i p : znth (b_procs (k_base s)) i = Some p → kproc i s = Ok p s.
Proof. intros H. unfold kproc. rewrite (zoom_kbase _ _ _ _ (get_proc_ok _ _ _ H)). by rewrite set_k_base_id. Qed.
Lemma kcur_ok s c p : running s c p → kcur s = Ok c s.
Proof. intros [H _]. unfold kcur. rewrite (zoom_kbase _ _ _ _ (myproc_ok _ _ H)). by rewrite set_k_base_id. Qed.
Lemma kmyproc_ok s c p : running s c p → kmyproc s = Ok p s.
Proof. intros H. unfold kmyproc. rewrite (bind_ok _ _ _ _ _ (kcur_ok _ _ _ H)). by apply kproc_ok, H. Qed.
Lemma kupd_proc_ok s i p f : znth (b_procs (k_base s)) i = Some p →
  kupd_proc i f s = Ok tt (set_k_base (set_b_procs (zupd i (f p) (b_procs (k_base s))) (k_base s)) s).
Proof. intros H. unfold kupd_proc. by rewrite (zoom_kbase _ _ _ _ (upd_proc_ok _ _ f _ H)). Qed.

(** ** User memory *)

(** Where the hardware finds [va]. *)
Definition uaddr (t : Z) (m : gmap Z Z) (va : Z) : option Z :=
  let pte := pte_addr m (p2v t) va in
  if pte =? 0 then None else
  let v := ld64 m pte in
  if negb (Z.land v 3 =? 3) then None else Some (u64 (p2v (Z.land v PG_ADDR_MASK) + va mod PTE_SZ)).
Definition ubyte (s : kst) (va : Z) : option Z :=
  ld8 (k_mem s) <$> uaddr (m_ttbr0 (b_mach (k_base s))) (k_mem s) va.

Lemma k_vm_id s : set_k_vm (k_vm s) s = s.
Proof. by destruct s as [[[[[] ? ? ?] ? ? ? ? ? ?] ?]]. Qed.
Lemma utrans_ok s va a :
  uaddr (m_ttbr0 (b_mach (k_base s))) (k_mem s) va = Some a → utrans va s = Ok a s.
Proof.
  unfold utrans, uaddr, load64. intros H. unfold bind, gets, zoom, ret. cbn [rbind].
  change (@lget _ _ lens_k_vm s) with (k_vm s). rewrite walkpgdir_false. cbn [rbind rzoom].
  change (@lset _ _ lens_k_vm (k_vm s) s) with (set_k_vm (k_vm s) s). rewrite k_vm_id.
  change (v_mem (k_vm s)) with (k_mem s). destruct (_ =? 0); [done|].
  cbn [rbind rzoom]. change (@lget _ _ lens_k_vm s) with (k_vm s).
  change (@lset _ _ lens_k_vm (k_vm s) s) with (set_k_vm (k_vm s) s). rewrite k_vm_id.
  change (v_mem (k_vm s)) with (k_mem s). destruct (negb _); [done|]. by simplify_eq.
Qed.
Lemma uload8_ok s va b : ubyte s va = Some b → uload8 va s = Ok b s.
Proof.
  unfold ubyte, uload8. intros H. destruct (uaddr _ _ va) as [a|] eqn:E; [|done].
  rewrite (bind_ok _ _ _ _ _ (utrans_ok _ _ _ E)). simpl in H. by simplify_eq.
Qed.

(** Storing at successive addresses of the process. *)
Fixpoint ustored (t : Z) (m : gmap Z Z) (va : Z) (l : list Z) : option (gmap Z Z) :=
  match l with
  | [] => Some m
  | b :: l => a ← uaddr t m va; ustored t (st8 a b m) (u64 (va + 1)) l
  end.
Lemma ustore8_ok s va b a : uaddr (m_ttbr0 (b_mach (k_base s))) (k_mem s) va = Some a →
  ustore8 va b s = Ok tt (set_k_mem (st8 a b (k_mem s)) s).
Proof. intros E. unfold ustore8. by rewrite (bind_ok _ _ _ _ _ (utrans_ok _ _ _ E)). Qed.

(** ** A small machine for examples: process 0 runs with one page of memory. *)

Definition demo_mem : gmap Z Z :=
  st64 (p2v 0x1000) (Z.lor 0x2000 3)
    (st64 (p2v 0x2000) (Z.lor 0x3000 3)
      (st64 (p2v 0x3000) (pte_of 0x4000 AP_RW_1_0)
        (st_bytes (p2v 0x4000) [104; 101; 108; 108; 111] ∅))).
Definition demo_proc : proc :=
  set_p_state RUNNING (set_p_pid 3 (set_p_sz 4096 (set_p_pgdir (p2v 0x1000) zero_proc))).
Definition demo_procs (l : list proc) : base := Base (Mach 0 0 0 ∅ 0x1000) l (Some 0) (Some 1) 5.
Definition demo_kst (l : list proc) (files : list file) (pipes : gmap Z pipe) : kst :=
  Kst (FsSt (power_on (demo_procs l) []) (replicate 50 (Inode 0 0 0 0 0 0 0 0 0 (replicate 13 0))))
    (Kmem 0 0 0 (replicate 7 (Order NIL 0)) ∅) 0 demo_mem files pipes
    (ConsSt (replicate 512 0) 0 0 0 1 []) 0.
