(* ===== verification/Console.v ===== *)
(** The console: [console.c], with [procdump] of [proc.c] and the back trace of
    [arm.c], which it prints.

    [consputc] appends to the record of what the UART was given.  [panicked] is
    set only by [panic], which does not return. *)

From S2P Require Import Prelude Spin Sched Mem Str Dll Buddy Bio Log Fs Vm Kernel.

Definition cons_lock : objaddr := ("cons", 0).
Definition input_lock : objaddr := ("input", 0).
(** [&input.r]. *)
Definition input_chan : objaddr := ("input.r", 0).

(** * Output *)

Definition BACKSPACE : Z := 0x100.
Definition uartputc (c : Z) : M consst unit := modify (fun s => set_c_out (c_out s ++ [c]) s).
Definition consputc (c : Z) : M consst unit :=
  if c =? BACKSPACE then uartputc 8 ;; uartputc 32 ;; uartputc 8
  else uartputc c.
Fixpoint consputs (l : list Z) : M consst unit :=
  match l with [] => ret tt | c :: l => consputc c ;; consputs l end.

(** ["0123456789abcdef"[d]] *)
Definition digit (d : Z) : Z := if d <? 10 then 48 + d else 87 + d.
(** The loop that fills [buf[16]], lowest digit first; a 64-bit number has at
    most 64 digits in any base. *)
Fixpoint printint_digits (fuel : nat) (x b : Z) (buf : list Z) : M consst (list Z) :=
  match fuel with
  | O => out_of_fuel
  | S fuel =>
      if 16 <=? zlen buf then undef "printint: buf" else
      let buf := buf ++ [digit (x mod b)] in
      let x := x / b in
      if x =? 0 then ret buf else printint_digits fuel x b buf
  end.
(** [xx] is unsigned, so [xx < 0] is false and the sign is never printed. *)
Definition printint (xx b sign : Z) : M consst unit :=
  let* buf := printint_digits 64 xx b [] in
  consputs (reverse buf).

(** An argument of [cprintf]: a word, or a string pointer ([None] is null). *)
Inductive carg := AInt (z : Z) | AStr (s : option (list Z)).
(** ["(null)"] *)
Definition null_str : list Z := [40; 110; 117; 108; 108; 41].

Fixpoint cprintf_loop (fuel : nat) (fmt : list Z) (args : list carg) : M consst unit :=
  match fmt with
  | [] => ret tt
  | c :: fmt =>
      match fuel with
      | O => out_of_fuel
      | S fuel =>
          if negb (c =? 37) then consputc c ;; cprintf_loop fuel fmt args
          else
            match fmt with
            | [] => ret tt
            | c :: fmt =>
                if c =? 100 then
                  match args with
                  | AInt z :: args => printint z 10 1 ;; cprintf_loop fuel fmt args
                  | _ => undef "cprintf: %d"
                  end
                else if (c =? 120) || (c =? 112) then
                  match args with
                  | AInt z :: args => printint z 16 0 ;; cprintf_loop fuel fmt args
                  | _ => undef "cprintf: %x"
                  end
                else if c =? 115 then
                  match args with
                  | AStr s :: args => consputs (default null_str s) ;; cprintf_loop fuel fmt args
                  | _ => undef "cprintf: %s"
                  end
                else if c =? 37 then consputc 37 ;; cprintf_loop fuel fmt args
                else consputc 37 ;; consputc c ;; cprintf_loop fuel fmt args
            end
      end
  end.
Definition cprintf (fmt : list Z) (args : list carg) : M kst unit :=
  let* l := gets (fun s => c_locking (k_cons s)) in
  when (ztrue l) (bacquire cons_lock) ;;
  zoom (cprintf_loop (length fmt) fmt args) ;;
  when (ztrue l) (brelease cons_lock).

Definition NEWLINE : list Z := [10].

(** ** Back traces ([arm.c]) *)

Definition N_CALLSTK : Z := 15.
(** The chain of saved frame pointers from [fp], in kernel memory. *)
Fixpoint callerpcs (n : nat) (m : gmap Z Z) (fp : Z) : list Z :=
  match n with
  | O => []
  | S n =>
      if (fp =? 0) || (fp <? KERNBASE) || (fp =? 0xffffffff) then replicate (S n) 0
      else
        let fp := u64 (fp - 8) in
        ld64 m (u64 (fp + 8)) :: callerpcs n m (ld64 m fp)
  end.
Definition getcallerpcs (fp : Z) : M kst (list Z) :=
  let* m := gets k_mem in ret (callerpcs (Z.to_nat N_CALLSTK) m fp).

Section trace.
(** The frame pointer, register [x29], where [show_callstk] reads it. *)
Context (x29 : Z).

(** [for (i = N_CALLSTK - 1; i >= 0; i--)]. *)
Fixpoint show_pcs (pcs : list Z) (i : nat) : M kst unit :=
  match i with
  | O => ret tt
  | S i =>
      let* pc := must "pcs" (pcs !! i) in
      cprintf (chars "%d: 0x%x" ++ NEWLINE) [AInt (Z.of_nat (S i)); AInt pc] ;;
      show_pcs pcs i
  end.
Definition show_callstk (s : list Z) : M kst unit :=
  cprintf (chars "%s" ++ NEWLINE) [AStr (Some s)] ;;
  let* pcs := getcallerpcs x29 in
  show_pcs pcs (Z.to_nat N_CALLSTK).

(** ** The process listing ([proc.c]) *)

Definition state_name (st : procstate) : list Z :=
  match st with
  | UNUSED => chars "unused" | EMBRYO => chars "embryo" | SLEEPING => chars "sleep "
  | RUNNABLE => chars "runble" | RUNNING => chars "run   " | ZOMBIE => chars "zombie"
  end.
Definition procdump : M kst unit :=
  for_all (Z.to_nat NPROC) 0 (fun i =>
    let* p := kproc i in
    if bool_decide (p_state p = UNUSED) then ret tt else
    cprintf (chars "%d %s %s" ++ NEWLINE)
      [AInt (u32 (p_pid p)); AStr (Some (state_name (p_state p))); AStr (Some (str_of (p_name p)))]) ;;
  show_callstk (chars "procdump: " ++ NEWLINE).

(** * Input *)

Definition in_char (i : Z) : M consst Z :=
  let* l := gets in_buf in must "input.buf" (znth l (i mod INPUT_BUF)).

(** [while ((input.e != input.w) && ...) { input.e--; consputc(BACKSPACE); }]
    runs at most [e - w] times. *)
Fixpoint kill_line (fuel : nat) : M consst unit :=
  match fuel with
  | O => ret tt
  | S fuel =>
      let* e := gets in_e in
      let* w := gets in_w in
      if e =? w then ret tt else
      let* c := in_char (u32 (e - 1)) in
      if c =? 10 then ret tt else
      modify (set_in_e (u32 (e - 1))) ;;
      consputc BACKSPACE ;;
      kill_line fuel
  end.
(** One iteration of the loop of [consoleintr]. *)
Definition consoleintr_char (c : Z) : M kst unit :=
  if c =? 16 then procdump
  else if c =? 21 then
    zoom (let* e := gets in_e in let* w := gets in_w in kill_line (Z.to_nat (u32 (e - w))))
  else if (c =? 8) || (c =? 127) then
    zoom (let* e := gets in_e in let* w := gets in_w in
          when (negb (e =? w)) (modify (set_in_e (u32 (e - 1))) ;; consputc BACKSPACE))
  else
    let* st := gets k_cons in
    when (negb (c =? 0) && (u32 (in_e st - in_r st) <? INPUT_BUF)) (
      let c := if c =? 13 then 10 else c in
      zoom (let* e := gets in_e in
            modify (fun st => set_in_buf (zupd (e mod INPUT_BUF) (u8 c) (in_buf st)) st) ;;
            modify (set_in_e (u32 (e + 1))) ;;
            consputc c) ;;
      let* st := gets k_cons in
      when ((c =? 10) || (c =? 4) || (in_e st =? u32 (in_r st + INPUT_BUF))) (
        zoom (modify (fun st => set_in_w (in_e st) st)) ;;
        zoom (wakeup input_chan))).
(** [getc] yields the characters [cs], then -1. *)
Fixpoint consoleintr_loop (cs : list Z) : M kst unit :=
  match cs with [] => ret tt | c :: cs => consoleintr_char c ;; consoleintr_loop cs end.
Definition consoleintr (cs : list Z) : M kst unit :=
  bacquire input_lock ;;
  consoleintr_loop cs ;;
  brelease input_lock.
End trace.

Section console.
Context {WF : WaitFuel}.

(** [while (input.r == input.w)]; [false] when the process was killed. *)
Fixpoint input_wait (fuel : nat) : M kst bool :=
  match fuel with
  | O => out_of_fuel
  | S fuel =>
      let* st := gets k_cons in
      if in_r st =? in_w st then
        let* p := kmyproc in
        if ztrue (p_killed p) then ret false
        else zoom (sleep input_chan (Some input_lock)) ;; input_wait fuel
      else ret true
  end.
(** The loop over the bytes still wanted; [None] when the process was killed,
    else the bytes that remained wanted.  With it, the bytes stored at [dst]. *)
Fixpoint consoleread_loop (n : nat) (target : Z) (acc : list Z) : M kst (option Z * list Z) :=
  match n with
  | O => ret (Some 0, acc)
  | S n' =>
      let* ok := input_wait (S wait_fuel) in
      if negb ok then ret (None, acc) else
      let* st := gets k_cons in
      let* c := zoom (in_char (in_r st)) in
      zoom (modify (set_in_r (u32 (in_r st + 1)))) ;;
      if c =? 4 then
        zoom (when (Z.of_nat n <? target)
                (modify (fun st => set_in_r (u32 (in_r st - 1)) st))) ;;
        ret (Some (Z.of_nat n), acc)
      else if c =? 10 then ret (Some (Z.of_nat n'), acc ++ [c])
      else consoleread_loop n' target (acc ++ [c])
  end.
(** The value and the bytes stored at [dst]. *)
Definition consoleread (ip n : Z) : M kst (Z * list Z) :=
  zoom (iunlock (Some ip)) ;;
  let target := u32 n in
  bacquire input_lock ;;
  let* (r, l) := (if 0 <? n then consoleread_loop (Z.to_nat n) target [] else ret (Some n, [])) in
  brelease input_lock ;;
  zoom (ilock (Some ip)) ;;
  match r with
  | None => ret (-1, l)
  | Some n => ret (s32 (target - n), l)
  end.

Definition consolewrite (ip : Z) (buf : list Z) (n : Z) : M kst Z :=
  zoom (iunlock (Some ip)) ;;
  bacquire cons_lock ;;
  (if zlen buf <? n then undef "buf" else zoom (consputs (take (Z.to_nat n) buf))) ;;
  brelease cons_lock ;;
  zoom (ilock (Some ip)) ;;
  ret n.

(** [devsw] once [consoleinit] has run: only the console's entries are set. *)
Definition CONSOLE : Z := 1.
#[export] Instance console_devsw : Devsw kst := {|
  dev_read := fun major => if major =? CONSOLE then Some consoleread else None;
  dev_write := fun major => if major =? CONSOLE then Some consolewrite else None;
|}.
Definition consoleinit : M kst unit :=
  binitlock cons_lock ;;
  binitlock input_lock ;;
  zoom (modify (set_c_locking 1)).
End console.
