(* ===== verification/Tty.v ===== *)
(** The console as a terminal: [consoleintr] and [consoleread] of [console.c].

    The ring buffer [input] is two queues: the bytes a reader may take, and the
    line that is still being edited.  The three counters run modulo [2 ^ 32], of
    which [INPUT_BUF] is a divisor.  [consoleintr] is the editing of the line,
    [consoleread] takes a line. *)

From S2P Require Import Prelude Spin Sched Mem Str Dll Buddy Bio Log Tx Fs Inode Balloc Dinode Vm Kernel Console.

(** * The terminal *)

Record tty := Tty { ready : list Z; line : list Z }.
Definition tty_len (t : tty) : Z := zlen (ready t) + zlen (line t).
(** What a character typed does. *)
Definition type_char (t : tty) (c : Z) : tty :=
  if c =? 21 then Tty (ready t) []
  else if (c =? 8) || (c =? 127) then Tty (ready t) (take (length (line t) - 1) (line t))
  else if (c =? 0) || (INPUT_BUF <=? tty_len t) then t
  else
    let c := if c =? 13 then 10 else c in
    let l := line t ++ [c] in
    if (c =? 10) || (c =? 4) || (tty_len t + 1 =? INPUT_BUF) then Tty (ready t ++ l) []
    else Tty (ready t) l.
(** What a reader of [n] bytes gets, when it need not wait: the bytes up to the end
    of the line, or to an end of file, which is left for the next reader unless it
    comes first. *)
Fixpoint take_input (first : bool) (n : nat) (q : list Z) : option (list Z * list Z) :=
  match n, q with
  | O, _ => Some ([], q)
  | S _, [] => None
  | S n, c :: q' =>
      if c =? 4 then Some ([], if first then q' else q)
      else if c =? 10 then Some ([c], q')
      else (λ x, (c :: x.1, x.2)) <$> take_input false n q'
  end.

(** * The ring buffer *)

Record cons_rep (st : consst) (t : tty) : Prop := {
  cr_buf : zlen (in_buf st) = INPUT_BUF;
  cr_r : 0 ≤ in_r st < 2 ^ 32;
  cr_w : in_w st = u32 (in_r st + zlen (ready t));
  cr_e : in_e st = u32 (in_r st + tty_len t);
  cr_cap : tty_len t ≤ INPUT_BUF;
  cr_bytes : ∀ k b, (ready t ++ line t) !! k = Some b → znth (in_buf st) ((in_r st + Z.of_nat k) mod INPUT_BUF) = Some b;
}.

Lemma u32_mod z : u32 z mod INPUT_BUF = z mod INPUT_BUF.
Proof. unfold u32, INPUT_BUF. change (2 ^ 32) with (512 * 2 ^ 23). apply Z.mod_mod_divide. by exists (2 ^ 23). Qed.
Lemma u32_sub a b c : u32 (u32 (a + b) - u32 (a + c)) = u32 (b - c).
Proof. unfold u32. rewrite Zminus_mod_idemp_l, Zminus_mod_idemp_r. f_equal. lia. Qed.
Lemma u32_pred a b : u32 (u32 (a + b) - 1) = u32 (a + (b - 1)).
Proof. unfold u32. rewrite Zminus_mod_idemp_l. f_equal. lia. Qed.
Lemma u32_succ a b : u32 (u32 (a + b) + 1) = u32 (a + (b + 1)).
Proof. unfold u32. rewrite Zplus_mod_idemp_l. f_equal. lia. Qed.
(** Two positions of the ring less than its size apart are different. *)
Lemma ring_ne r i j : 0 ≤ i → i < j → j < i + INPUT_BUF → (r + i) mod INPUT_BUF ≠ (r + j) mod INPUT_BUF.
Proof.
  unfold INPUT_BUF. intros Hi Hij Hj E. pose proof (Z.div_mod (r + i) 512). pose proof (Z.div_mod (r + j) 512). lia.
Qed.

Section rep.
Context (st : consst) (t : tty) (Hr : cons_rep st t).
Abbreviation r := (in_r st).

Lemma tty_len_pos : 0 ≤ zlen (ready t) ∧ 0 ≤ zlen (line t).
Proof. unfold zlen. lia. Qed.
Lemma rep_line_len : u32 (in_e st - in_w st) = zlen (line t).
Proof.
  rewrite (cr_e _ _ Hr), (cr_w _ _ Hr), u32_sub. pose proof tty_len_pos. pose proof (cr_cap _ _ Hr). unfold tty_len, INPUT_BUF in *.
  rewrite u32_small; lia.
Qed.
Lemma rep_line_empty : (in_e st =? in_w st) = bool_decide (line t = []).
Proof.
  pose proof rep_line_len as H. case_bool_decide as Hb; [apply Z.eqb_eq|apply Z.eqb_neq].
  - rewrite (cr_e _ _ Hr), (cr_w _ _ Hr). unfold tty_len. by rewrite Hb, Z.add_0_r.
  - intros E. rewrite E, Z.sub_diag in H. change (u32 0) with 0 in H. apply Hb. unfold zlen in H. apply nil_length_inv. lia.
Qed.
Lemma rep_total : u32 (in_e st - r) = tty_len t.
Proof.
  rewrite (cr_e _ _ Hr). pose proof tty_len_pos. pose proof (cr_cap _ _ Hr). unfold u32. rewrite Zminus_mod_idemp_l.
  replace (r + tty_len t - r) with (tty_len t) by lia. unfold tty_len, INPUT_BUF in *. apply Z.mod_small. lia.
Qed.
Lemma rep_ready_empty : (r =? in_w st) = bool_decide (ready t = []).
Proof.
  pose proof tty_len_pos. pose proof (cr_cap _ _ Hr). pose proof (cr_r _ _ Hr). rewrite (cr_w _ _ Hr). unfold tty_len, INPUT_BUF in *.
  case_bool_decide as Hb; [apply Z.eqb_eq|apply Z.eqb_neq].
  - rewrite Hb. unfold zlen. simpl. rewrite Z.add_0_r, u32_small; lia.
  - intros E. apply Hb, nil_length_inv. unfold u32, zlen in *. pose proof (Z.div_mod (r + Z.of_nat (length (ready t))) (2 ^ 32)). lia.
Qed.
Lemma in_char_ok a k b : a mod INPUT_BUF = (r + Z.of_nat k) mod INPUT_BUF → (ready t ++ line t) !! k = Some b → in_char a st = Ok b st.
Proof. intros Ha Hb. unfold in_char. rewrite (bind_ok _ _ _ (in_buf st) st) by done. by rewrite Ha, (cr_bytes _ _ Hr k b Hb). Qed.

(** The last byte of the line is taken back. *)
Lemma rep_pop l b : line t = l ++ [b] → cons_rep (set_in_e (u32 (in_e st - 1)) st) (Tty (ready t) l) ∧ in_char (u32 (in_e st - 1)) st = Ok b st.
Proof.
  intros El. pose proof tty_len_pos. pose proof Hr as [H1 H2 H3 H4 H5 H6]. assert (Hz : tty_len t = zlen (ready t) + zlen l + 1).
  { unfold tty_len. rewrite El. unfold zlen. rewrite length_app. simpl. lia. }
  assert (Hlk : ∀ k x, (ready t ++ l) !! k = Some x → (ready t ++ line t) !! k = Some x) by (intros k x Hk; rewrite El, (assoc_L (++)); by apply lookup_app_l_Some).
  split.
  - split; simpl; try done.
    + rewrite H4, u32_pred, Hz. unfold tty_len. simpl. do 2 f_equal. lia.
    + rewrite Hz in H5. unfold tty_len. simpl. lia.
    + intros k x Hk. by apply H6, Hlk.
  - apply (in_char_ok _ (length (ready t ++ l))).
    + rewrite H4, u32_pred, u32_mod. f_equal. rewrite Hz. unfold zlen. rewrite length_app. lia.
    + rewrite El, (assoc_L (++)). by rewrite lookup_app_r, Nat.sub_diag.
Qed.
(** A byte is added to it. *)
Lemma rep_push b : tty_len t < INPUT_BUF →
  cons_rep (set_in_e (u32 (in_e st + 1)) (set_in_buf (zupd (in_e st mod INPUT_BUF) b (in_buf st)) st)) (Tty (ready t) (line t ++ [b])).
Proof.
  intros Hlt. pose proof tty_len_pos. pose proof Hr as [H1 H2 H3 H4 H5 H6].
  assert (Hz : tty_len (Tty (ready t) (line t ++ [b])) = tty_len t + 1) by (unfold tty_len, zlen; simpl; rewrite length_app; simpl; lia).
  assert (Hpos : in_e st mod INPUT_BUF = (r + tty_len t) mod INPUT_BUF) by (by rewrite H4, u32_mod).
  split; simpl; try done.
  - by rewrite zlen_zupd.
  - rewrite H4, u32_succ, Hz. done.
  - rewrite Hz. lia.
  - intros k x Hk. rewrite (assoc_L (++)) in Hk. rewrite Hpos. assert (Hlen : tty_len t = Z.of_nat (length (ready t ++ line t))) by (unfold tty_len, zlen; rewrite length_app; lia).
    apply lookup_snoc_Some in Hk as [[Hk Hx]|[-> ->]].
    + rewrite znth_zupd_ne; [by apply H6|]. apply not_eq_sym, ring_ne; unfold INPUT_BUF in *; lia.
    + rewrite Hlen. apply znth_zupd. rewrite H1. apply Z.mod_pos_bound. done.
Qed.
End rep.

(** * Typing *)

(** Committing the line. *)
Lemma rep_commit st t : cons_rep st t → cons_rep (set_in_w (in_e st) st) (Tty (ready t ++ line t) []).
Proof.
  intros [H1 H2 H3 H4 H5 H6]. assert (E : tty_len t = zlen (ready t ++ line t)) by (unfold tty_len, zlen; rewrite length_app; lia).
  split; simpl; try done.
  - by rewrite H4, E.
  - unfold tty_len. simpl. unfold zlen at 2. simpl. by rewrite Z.add_0_r, <- E.
  - unfold tty_len. simpl. unfold zlen at 2. simpl. by rewrite Z.add_0_r, <- E.
  - intros k b. rewrite app_nil_r. apply H6.
Qed.
(** Output does not concern the input. *)
Lemma rep_out st t out : cons_rep st t → cons_rep (set_c_out out st) t.
Proof. by intros []. Qed.
Lemma consputc_ok c st : ∃ out, consputc c st = Ok tt (set_c_out out st).
Proof. unfold consputc. destruct (c =? BACKSPACE); eexists; reflexivity. Qed.

Lemma kill_line_ok fuel : ∀ st t, cons_rep st t → 10 ∉ line t → (length (line t) ≤ fuel)%nat →
  ∃ st', kill_line fuel st = Ok tt st' ∧ cons_rep st' (Tty (ready t) []).
Proof.
  induction fuel as [|fuel IH]; intros st t Hr Hnl Hf.
  - exists st. split; [done|]. replace [] with (line t) by (apply nil_length_inv; lia). by destruct t.
  - cbn [kill_line]. rewrite (bind_ok _ _ _ (in_e st) st), (bind_ok _ _ _ (in_w st) st) by done. rewrite (rep_line_empty st t Hr).
    destruct (line t) as [|b l _] eqn:El using rev_ind.
    { rewrite bool_decide_eq_true_2 by done. exists st. split; [done|]. rewrite <- El. by destruct t. }
    rewrite bool_decide_eq_false_2 by (by destruct l). destruct (rep_pop st t Hr l b El) as [Hp Hc]. rewrite (bind_ok _ _ _ _ _ Hc).
    destruct (Z.eqb_spec b 10) as [->|_]; [exfalso; apply Hnl, elem_of_app; right; left|].
    rewrite (bind_ok _ _ _ tt (set_in_e (u32 (in_e st - 1)) st)) by done.
    destruct (consputc_ok BACKSPACE (set_in_e (u32 (in_e st - 1)) st)) as [out Ho]. rewrite (bind_ok _ _ _ _ _ Ho).
    destruct (IH (set_c_out out (set_in_e (u32 (in_e st - 1)) st)) (Tty (ready t) l)) as (st' & R & H'); simpl.
    + by apply rep_out.
    + intros Hin. apply Hnl, elem_of_app. by left.
    + rewrite length_app in Hf. simpl in Hf. lia.
    + by exists st'.
Qed.

Section typing.
Context (x29 : Z).

(** What the interrupt does to the rest of the kernel: readers are woken when the
    line is complete. *)
Definition typed (t t' : tty) (s s' : kst) : Prop :=
  ∃ st', s' = (if decide (ready t' = ready t) then set_k_cons st' s else kwoken input_chan (set_k_cons st' s)).

Lemma zoom_kcons {A} (m : M consst A) lk s a st : m (k_cons s) = Ok a st → (zoom m : M kst A) (klocked lk s) = Ok a (klocked lk (set_k_cons st s)).
Proof. intros H. unfold zoom. change (lget (klocked lk s)) with (k_cons s). by rewrite H. Qed.

Lemma kidle_cons lk st s : kidle lk s → kidle lk (set_k_cons st s).
Proof. by intros []. Qed.
Lemma typed_same t t' s st : ready t' = ready t → typed t t' s (set_k_cons st s).
Proof. intros E. exists st. by rewrite decide_True. Qed.
(** The buffer is full exactly when [e] has gone once around from [r]. *)
Lemma rep_full st t : cons_rep st t → (in_e st =? u32 (in_r st + INPUT_BUF)) = (tty_len t =? INPUT_BUF).
Proof.
  intros Hr. pose proof (cr_cap _ _ Hr). pose proof (tty_len_pos t). rewrite (cr_e _ _ Hr). unfold tty_len, INPUT_BUF, u32 in *.
  set (n := zlen (ready t) + zlen (line t)) in *. destruct (Z.eqb_spec n 512) as [->|Hne]; [apply Z.eqb_refl|]. apply Z.eqb_neq. intros E.
  pose proof (Z.div_mod (in_r st + n) (2 ^ 32)). pose proof (Z.div_mod (in_r st + 512) (2 ^ 32)). lia.
Qed.

(** The byte [b] goes to the end of the line. *)
Lemma store_char_ok c s t : cons_rep (k_cons s) t → 0 ≤ c < 256 → tty_len t < INPUT_BUF →
  ∃ st, (zoom (let* e := gets in_e in
            modify (fun st => set_in_buf (zupd (e mod INPUT_BUF) (u8 c) (in_buf st)) st) ;;
            modify (set_in_e (u32 (e + 1))) ;;
            consputc c) : M kst unit) (klocked input_lock s) = Ok tt (klocked input_lock (set_k_cons st s)) ∧
    cons_rep st (Tty (ready t) (line t ++ [c])).
Proof.
  intros Hr Hc Hlt. set (st := k_cons s) in *. pose proof (rep_push st t Hr c Hlt) as Hp.
  set (st1 := set_in_e (u32 (in_e st + 1)) (set_in_buf (zupd (in_e st mod INPUT_BUF) c (in_buf st)) st)) in *.
  destruct (consputc_ok c st1) as [out Ho]. exists (set_c_out out st1). split; [|by apply rep_out]. apply zoom_kcons. fold st.
  assert (E : u8 c = c) by (unfold u8; rewrite Z.mod_small; lia). rewrite E. exact Ho.
Qed.
Lemma type_push c s t : kidle input_lock s → cons_rep (k_cons s) t → 10 ∉ line t → 0 ≤ c < 256 → tty_len t < INPUT_BUF →
  let t' := if (c =? 10) || (c =? 4) || (tty_len t + 1 =? INPUT_BUF) then Tty (ready t ++ line t ++ [c]) [] else Tty (ready t) (line t ++ [c]) in
  ∃ s', (zoom (let* e := gets in_e in
            modify (fun st => set_in_buf (zupd (e mod INPUT_BUF) (u8 c) (in_buf st)) st) ;;
            modify (set_in_e (u32 (e + 1))) ;;
            consputc c) ;;
      let* st := gets k_cons in
      when ((c =? 10) || (c =? 4) || (in_e st =? u32 (in_r st + INPUT_BUF))) (
        zoom (modify (fun st => set_in_w (in_e st) st)) ;;
        zoom (wakeup input_chan))) (klocked input_lock s) = Ok tt (klocked input_lock s') ∧ kidle input_lock s' ∧
    cons_rep (k_cons s') t' ∧ (10 ∉ line t') ∧ typed t t' s s'.
Proof.
  intros Hi Hr Hnl Hc Hlt t'. destruct (store_char_ok c s t Hr Hc Hlt) as (st & R & Hp). rewrite (bind_ok _ _ _ _ _ R).
  rewrite (bind_ok _ _ _ st (klocked input_lock (set_k_cons st s))) by done. rewrite (rep_full st _ Hp).
  assert (Hz : tty_len (Tty (ready t) (line t ++ [c])) = tty_len t + 1) by (unfold tty_len, zlen; simpl; rewrite length_app; simpl; lia).
  rewrite Hz. unfold t'. destruct ((c =? 10) || (c =? 4) || (tty_len t + 1 =? INPUT_BUF)) eqn:Ec.
  - set (st' := set_in_w (in_e st) st). exists (kwoken input_chan (set_k_cons st' s)). rewrite when_true.
    rewrite (bind_ok _ _ _ tt (klocked input_lock (set_k_cons st' s))) by reflexivity.
    assert (Hi' : kidle input_lock (set_k_cons st' s)) by (by apply kidle_cons). split; [by apply kwakeup_ok|].
    split; [by apply kidle_woken|]. split; [exact (rep_commit _ _ Hp)|]. split; [apply not_elem_of_nil|].
    exists st'. rewrite decide_False; [done|]. cbn [ready]. intros E. apply (f_equal length) in E. rewrite !length_app in E. simpl in E. lia.
  - exists (set_k_cons st s). split; [done|]. split; [by apply kidle_cons|]. split; [done|]. split; [|by apply typed_same].
    simpl. intros [Hin|Hin]%elem_of_app; [done|]. apply list_elem_of_singleton in Hin as <-. done.
Qed.

Lemma type_char_ok c s t : kidle input_lock s → cons_rep (k_cons s) t → 10 ∉ line t → 0 ≤ c < 256 → c ≠ 16 →
  ∃ s', consoleintr_char x29 c (klocked input_lock s) = Ok tt (klocked input_lock s') ∧ kidle input_lock s' ∧
    cons_rep (k_cons s') (type_char t c) ∧ (10 ∉ line (type_char t c)) ∧ typed t (type_char t c) s s'.
Proof.
  intros Hi Hr Hnl Hc Hne. unfold consoleintr_char, type_char. destruct (Z.eqb_spec c 16); [done|].
  destruct (Z.eqb_spec c 21).
  { destruct (kill_line_ok (length (line t)) (k_cons s) t Hr Hnl ltac:(done)) as (st & R & H'). exists (set_k_cons st s).
    split; [apply zoom_kcons|split; [by apply kidle_cons|split; [done|split; [apply not_elem_of_nil|by apply typed_same]]]].
    rewrite (bind_ok _ _ _ (in_e (k_cons s)) (k_cons s)), (bind_ok _ _ _ (in_w (k_cons s)) (k_cons s)) by done.
    rewrite (rep_line_len _ _ Hr). unfold zlen. by rewrite Nat2Z.id. }
  destruct ((c =? 8) || (c =? 127)).
  { set (st := k_cons s) in *. destruct (line t) as [|b l _] eqn:El using rev_ind.
    - exists s. split; [|split; [done|split; [|split; [apply not_elem_of_nil|exists st; rewrite decide_True by done; by destruct s]]]].
      + rewrite (zoom_kcons _ input_lock s tt st); [by destruct s|]. fold st.
        rewrite (bind_ok _ _ _ (in_e st) st), (bind_ok _ _ _ (in_w st) st) by done. by rewrite (rep_line_empty _ _ Hr), El.
      + simpl. rewrite <- El. by destruct t.
    - destruct (rep_pop st t Hr l b El) as [Hp _]. destruct (consputc_ok BACKSPACE (set_in_e (u32 (in_e st - 1)) st)) as [out Ho].
      exists (set_k_cons (set_c_out out (set_in_e (u32 (in_e st - 1)) st)) s).
      replace (take (length (l ++ [b]) - 1) (l ++ [b])) with l
        by (rewrite length_app; simpl; rewrite take_app_le, take_ge by lia; done).
      split; [apply zoom_kcons; fold st|split; [by apply kidle_cons|split; [by apply rep_out|split; [|by apply typed_same]]]].
      + rewrite (bind_ok _ _ _ (in_e st) st), (bind_ok _ _ _ (in_w st) st) by done. rewrite (rep_line_empty _ _ Hr), El.
        rewrite bool_decide_eq_false_2 by (by destruct l). exact Ho.
      + intros Hin. apply Hnl, elem_of_app. by left. }
  rewrite (bind_ok _ _ _ (k_cons s) (klocked input_lock s)) by done. rewrite (rep_total _ _ Hr).
  destruct (Z.eqb_spec c 0); cbn [negb andb orb].
  { exists s. split; [done|]. do 3 (split; [done|]). exists (k_cons s). rewrite decide_True by done. by destruct s. }
  destruct (Z.ltb_spec (tty_len t) INPUT_BUF) as [Hlt|Hge].
  - rewrite (proj2 (Z.leb_gt INPUT_BUF (tty_len t))) by done. rewrite when_true.
    apply type_push; [done|done|done|destruct (c =? 13); lia|done].
  - rewrite (proj2 (Z.leb_le INPUT_BUF (tty_len t))) by done. exists s. split; [done|]. do 3 (split; [done|]).
    exists (k_cons s). rewrite decide_True by done. by destruct s.
Qed.
End typing.

(** * Reading *)

Lemma rep_take st t c q : cons_rep st t → ready t = c :: q →
  in_char (in_r st) st = Ok c st ∧ cons_rep (set_in_r (u32 (in_r st + 1)) st) (Tty q (line t)).
Proof.
  intros Hr Eq. pose proof Hr as [H1 H2 H3 H4 H5 H6]. assert (Hz : zlen (ready t) = zlen q + 1) by (rewrite Eq; unfold zlen; simpl; lia).
  split.
  - apply (in_char_ok st t Hr _ 0); [by rewrite Z.add_0_r|by rewrite Eq].
  - assert (Hm : ∀ z, u32 (u32 (in_r st + 1) + z) = u32 (in_r st + (z + 1))) by (intros z; unfold u32; rewrite Zplus_mod_idemp_l; f_equal; lia).
    unfold tty_len in *. split; simpl; try done.
    + unfold u32. apply Z.mod_pos_bound. done.
    + by rewrite Hm, H3, Hz.
    + rewrite Hm, H4, Hz. unfold tty_len. simpl. do 2 f_equal. lia.
    + unfold tty_len. simpl. lia.
    + intros k b Hk. rewrite <- (H6 (S k) b); [|by rewrite Eq]. f_equal. rewrite <- Zplus_mod_idemp_l, u32_mod, Zplus_mod_idemp_l. f_equal. lia.
Qed.
Section reading.
Context {WF : WaitFuel}.

Lemma read_loop_ok n target : Z.of_nat n ≤ target → ∀ t s acc bytes rest, cons_rep (k_cons s) t →
  take_input (bool_decide (Z.of_nat n = target)) n (ready t) = Some (bytes, rest) →
  ∃ st, consoleread_loop n target acc (klocked input_lock s) = Ok (Some (Z.of_nat n - zlen bytes), acc ++ bytes) (klocked input_lock (set_k_cons st s)) ∧
    cons_rep st (Tty rest (line t)).
Proof.
  induction n as [|n IH]; intros Hn t s acc bytes rest Hr Ht.
  - exists (k_cons s). simpl in Ht. assert (bytes = [] ∧ rest = ready t) as [-> ->] by (destruct (ready t); by simplify_eq/=).
    rewrite app_nil_r. split; [by destruct s|by destruct t].
  - cbn [consoleread_loop]. destruct (ready t) as [|c q] eqn:Eq; [done|]. cbn [take_input] in Ht.
    rewrite (bind_ok _ _ _ true (klocked input_lock s)).
    2: { cbn [input_wait]. rewrite (bind_ok _ _ _ (k_cons s) (klocked input_lock s)) by done. by rewrite (rep_ready_empty _ _ Hr), Eq. }
    cbn [negb]. rewrite (bind_ok _ _ _ (k_cons s) (klocked input_lock s)) by done.
    destruct (rep_take _ _ _ _ Hr Eq) as [Hc Hr1]. set (st1 := set_in_r (u32 (in_r (k_cons s) + 1)) (k_cons s)) in *.
    rewrite (bind_ok _ _ _ c (klocked input_lock s)) by (rewrite (zoom_kcons _ input_lock s _ _ Hc); by destruct s).
    rewrite (bind_ok _ _ _ tt (klocked input_lock (set_k_cons st1 s))) by reflexivity.
    destruct (c =? 4).
    + case_bool_decide as Hfirst; simplify_eq/=.
      * exists st1. rewrite (proj2 (Z.ltb_ge _ _)) by lia. rewrite app_nil_r. unfold zlen. simpl. rewrite Z.sub_0_r. split; [done|done].
      * exists (k_cons s). rewrite (proj2 (Z.ltb_lt _ _)) by lia. rewrite app_nil_r. unfold zlen. simpl. rewrite Z.sub_0_r.
        split; [|rewrite <- Eq; by destruct t]. unfold st1. pose proof (cr_r _ _ Hr). rewrite (bind_ok _ _ _ tt (klocked input_lock s)); [by destruct s|].
        rewrite (zoom_kcons _ input_lock (set_k_cons st1 s) tt (k_cons s)); [done|]. cbn. unfold modify. f_equal.
        unfold st1, set_in_r. simpl. assert (E : u32 (u32 (in_r (k_cons s) + 1) - 1) = in_r (k_cons s)) by (rewrite u32_pred; change (1 - 1) with 0; rewrite Z.add_0_r; apply u32_small; lia).
        rewrite E. by destruct (k_cons s).
    + destruct (c =? 10) eqn:Ec.
      * simplify_eq/=. exists st1. split; [|done]. unfold zlen. cbn [length]. by replace (Z.of_nat (S n) - Z.of_nat 1) with (Z.of_nat n) by lia.
      * destruct (take_input false n q) as [[b' r']|] eqn:Et; simplify_eq/=.
        destruct (IH ltac:(lia) (Tty q (line t)) (set_k_cons st1 s) (acc ++ [c]) b' rest Hr1) as (st & R & H').
        { rewrite bool_decide_eq_false_2 by lia. exact Et. }
        exists st. split; [|done]. rewrite R. rewrite <- (assoc_L (++)). unfold zlen. cbn [length app].
        by replace (Z.of_nat (S n) - Z.of_nat (S (length b'))) with (Z.of_nat n - Z.of_nat (length b')) by lia.
Qed.

(** A process that may take the locks [consoleread] takes. *)
Record reader_idle (b : base) : Prop := {
  ri_cli : cli_wf (b_mach b);
  ri_depth : m_ncli (b_mach b) < 2 ^ 31 - 8;
  ri_icache : icache_lock ∉ m_held (b_mach b);
  ri_ptable : ptable_lock ∉ m_held (b_mach b);
  ri_input : input_lock ∉ m_held (b_mach b);
}.
Lemma reader_saved b : reader_idle b → reader_idle (set_b_mach (saved (b_mach b)) b).
Proof. intros [[] H2 H3 H4 H5]. unfold saved. destruct (Z.eqb_spec (m_ncli (b_mach b)) 0); split; try split; simpl; try done. Qed.
Lemma reader_woken b c : reader_idle b → reader_idle (set_b_procs (wake_one c <$> b_procs b) b).
Proof. by intros []. Qed.
Lemma reader_fidle f : reader_idle (fs_base f) → fidle f.
Proof. by intros []. Qed.
Lemma reader_kidle s : reader_idle (k_base s) → kidle input_lock s.
Proof. by intros []. Qed.

Lemma consoleread_ok ip n r s t bytes rest : reader_idle (k_base s) → znth (fs_inode (k_fs s)) ip = Some r → 0 < i_ref r →
  iflag I_BUSY r = true → iflag I_VALID r = true → cons_rep (k_cons s) t → 0 < n < 2 ^ 31 → take_input true (Z.to_nat n) (ready t) = Some (bytes, rest) →
  ∃ s', consoleread ip n s = Ok (zlen bytes, bytes) s' ∧ cons_rep (k_cons s') (Tty rest (line t)) ∧
    znth (fs_inode (k_fs s')) ip = Some (busied (unbusied r)).
Proof.
  intros Hi Hip Href Hb Hv Hr Hn Ht. set (f1 := ffreed (fwoken (inode_chan ip) (set_fs_inode (zupd ip (unbusied r) (fs_inode (k_fs s))) (k_fs s)))).
  set (s1 := set_k_fs f1 s). assert (Hi1 : reader_idle (k_base s1)) by (by apply reader_saved, reader_woken).
  assert (Hlen : zlen bytes ≤ n).
  { assert (H : ∀ m f q b r0, take_input f m q = Some (b, r0) → (length b ≤ m)%nat).
    { clear. induction m as [|m IH]; intros f q b r0 H; destruct q as [|c q]; simplify_eq/=; try (simpl; lia).
      destruct (c =? 4); [simplify_eq; simpl; lia|]. destruct (c =? 10); [simplify_eq; simpl; lia|].
      destruct (take_input false m q) as [[b' r']|] eqn:E; simplify_eq/=. apply IH in E. lia. }
    apply H in Ht. unfold zlen. lia. }
  destruct (read_loop_ok (Z.to_nat n) n ltac:(lia) t s1 [] bytes rest Hr) as (st & R & H'); [by rewrite bool_decide_eq_true_2 by lia|].
  set (s2 := kfreed (set_k_cons st s1)). assert (Hi2 : reader_idle (k_base s2)) by (exact (reader_saved _ Hi1)).
  pose proof (znth_Some _ _ _ Hip) as Hrange.
  assert (Hip2 : znth (fs_inode (k_fs s2)) ip = Some (unbusied r)) by (by apply znth_zupd). destruct (unbusied_flags r) as [Hb2 Hv2].
  pose proof (ilock_idle (k_fs s2) ip (unbusied r) (reader_fidle _ Hi2) Hip2 Href Hb2 ltac:(by rewrite Hv2)) as Rl.
  eexists. split; [|split].
  - unfold consoleread. rewrite (bind_ok _ _ _ tt s1).
    2: { unfold zoom. change (lget s) with (k_fs s). by rewrite (iunlock_idle _ _ _ (reader_fidle (k_fs s) Hi) Hip Href Hb). }
    rewrite u32_small by lia. rewrite (bind_ok _ _ _ _ _ (kacquire_ok _ _ (reader_kidle _ Hi1))), (proj2 (Z.ltb_lt 0 n)) by lia.
    rewrite (bind_ok _ _ _ _ _ R). rewrite (bind_ok _ _ _ _ _ (krelease_ok _ (set_k_cons st s1) (kidle_cons _ st s1 (reader_kidle _ Hi1)))).
    rewrite (bind_ok _ _ _ tt (set_k_fs (set_fs_inode (zupd ip (busied (unbusied r)) (fs_inode (k_fs s2))) (ffreed (k_fs s2))) s2)).
    2: { unfold zoom. change (lget (kfreed (set_k_cons st s1))) with (k_fs s2). by rewrite Rl. }
    rewrite Z2Nat.id by lia. replace (n - (n - zlen bytes)) with (zlen bytes) by lia. rewrite s32_small by (unfold zlen in *; lia). reflexivity.
  - exact H'.
  - simpl. apply znth_zupd. by rewrite zlen_zupd.
Qed.
End reading.

(** * Theorems *)

Definition keys (cs : list Z) : Prop := Forall (λ c, 0 ≤ c < 256 ∧ c ≠ 16) cs.
Lemma type_char_ready t c : ready t `prefix_of` ready (type_char t c).
Proof. unfold type_char. repeat case_match; simpl; try done; by apply prefix_app_r. Qed.
Lemma fold_ready cs : ∀ t, ready t `prefix_of` ready (fold_left type_char cs t).
Proof. induction cs as [|c cs IH]; intros t; [done|]. simpl. etrans; [apply type_char_ready|apply IH]. Qed.
Lemma wake_twice c (l : list proc) : wake_one c <$> (wake_one c <$> l) = wake_one c <$> l.
Proof.
  rewrite <- list_fmap_compose. apply list_fmap_ext. intros _ p _. unfold compose, wake_one. destruct (sleeps_on c p) eqn:E; [|by rewrite E].
  unfold sleeps_on. simpl. done.
Qed.
(** The processes when the line [ready] was [t]'s and is [t']'s. *)
Definition woken_procs (t t' : tty) (l : list proc) : list proc := if decide (ready t' = ready t) then l else wake_one input_chan <$> l.
Lemma woken_trans t t1 t2 l : ready t `prefix_of` ready t1 → ready t1 `prefix_of` ready t2 → woken_procs t1 t2 (woken_procs t t1 l) = woken_procs t t2 l.
Proof.
  intros H1 H2. unfold woken_procs. destruct (decide (ready t1 = ready t)) as [E1|E1]; [by rewrite E1|].
  rewrite (decide_False (P := ready t2 = ready t)); [destruct (decide (ready t2 = ready t1)); [done|apply wake_twice]|].
  intros E. apply E1. apply (anti_symm prefix); [by rewrite <- E|done].
Qed.
Section theorems.
Context (x29 : Z).
Lemma typing_ok cs : ∀ s t, kidle input_lock s → cons_rep (k_cons s) t → 10 ∉ line t → keys cs →
  let t' := fold_left type_char cs t in
  ∃ s', consoleintr_loop x29 cs (klocked input_lock s) = Ok tt (klocked input_lock s') ∧ kidle input_lock s' ∧
    cons_rep (k_cons s') t' ∧ (10 ∉ line t') ∧ b_procs (k_base s') = woken_procs t t' (b_procs (k_base s)).
Proof.
  induction cs as [|c cs IH]; intros s t Hi Hr Hnl Hk t'.
  - exists s. do 4 (split; [done|]). unfold woken_procs. by rewrite decide_True.
  - apply Forall_cons in Hk as [[Hc Hne] Hk]. destruct (type_char_ok x29 c s t Hi Hr Hnl Hc Hne) as (s1 & R1 & Hi1 & Hr1 & Hnl1 & st1 & Es1).
    destruct (IH s1 (type_char t c) Hi1 Hr1 Hnl1 Hk) as (s2 & R2 & Hi2 & Hr2 & Hnl2 & Hp2). exists s2.
    split; [cbn [consoleintr_loop]; by rewrite (bind_ok _ _ _ _ _ R1)|]. do 3 (split; [done|]). rewrite Hp2.
    assert (E : b_procs (k_base s1) = woken_procs t (type_char t c) (b_procs (k_base s))).
    { rewrite Es1. unfold woken_procs. destruct (decide (ready (type_char t c) = ready t)); [done|]. unfold kwoken. by rewrite set_k_base_base. }
    rewrite E. apply woken_trans; [apply type_char_ready|exact (fold_ready cs (type_char t c))].
Qed.

(** C16: The console interrupt edits the line as a terminal does: erase takes back the
    last character of the line and never one that was committed, kill drops the line,
    return and end of file commit it, as a full buffer does, and characters that do
    not fit are dropped.  Sleeping readers are made runnable exactly when the
    interrupt committed something. *)
Theorem consoleintr_spec cs s t : kidle input_lock s → cons_rep (k_cons s) t → 10 ∉ line t → keys cs →
  let t' := fold_left type_char cs t in
  ∃ s', consoleintr x29 cs s = Ok tt s' ∧ cons_rep (k_cons s') t' ∧ (10 ∉ line t') ∧
    b_procs (k_base s') = if decide (ready t' = ready t) then b_procs (k_base s) else wake_one input_chan <$> b_procs (k_base s).
Proof.
  intros Hi Hr Hnl Hk t'. destruct (typing_ok cs s t Hi Hr Hnl Hk) as (s' & R & Hi' & Hr' & Hnl' & Hp). exists (kfreed s').
  split; [unfold consoleintr; rewrite (bind_ok _ _ _ _ _ (kacquire_ok _ _ Hi)), (bind_ok _ _ _ _ _ R); by apply krelease_ok|].
  split; [done|]. split; [done|]. unfold kfreed. rewrite set_k_base_base. exact Hp.
Qed.
End theorems.

(** C17: A read of the console returns the oldest committed bytes, up to and with the
    end of their line, at most as many as asked for; an end of file ends the read
    without being stored, and is consumed only by a read that returns nothing.  The
    line being edited is not touched. *)
Theorem consoleread_spec {WF : WaitFuel} ip n r s t bytes rest : reader_idle (k_base s) → znth (fs_inode (k_fs s)) ip = Some r → 0 < i_ref r →
  iflag I_BUSY r = true → iflag I_VALID r = true → cons_rep (k_cons s) t → 0 < n < 2 ^ 31 → take_input true (Z.to_nat n) (ready t) = Some (bytes, rest) →
  ∃ s', consoleread ip n s = Ok (zlen bytes, bytes) s' ∧ cons_rep (k_cons s') (Tty rest (line t)) ∧
    znth (fs_inode (k_fs s')) ip = Some (busied (unbusied r)).
Proof. apply consoleread_ok. Qed.

(** ** Witnesses *)

#[local] Instance tty_fuel_wait : WaitFuel := 0%nat.
(** The counters are about to wrap around. *)
Definition tty_cons (r n : Z) : consst := ConsSt (replicate 512 0) r (u32 (r + n)) (u32 (r + n)) 1 [].
Definition tty_kst : kst := set_k_cons (tty_cons (2 ^ 32 - 2) 0) (demo_kst [demo_proc; set_p_chan (Some input_chan) (set_p_state SLEEPING zero_proc)] [] ∅).
Lemma tty_idle : kidle input_lock tty_kst.
Proof. split; [split; simpl; [lia|done]|simpl; lia|set_solver|set_solver|done]. Qed.
Lemma tty_rep : cons_rep (k_cons tty_kst) (Tty [] []).
Proof. split; [vm_compute; reflexivity|simpl; lia|vm_compute; reflexivity|vm_compute; reflexivity|vm_compute; discriminate|by intros k b]. Qed.
(** [l], [x], erase, [s], return: the line [ls]. *)
Lemma consoleintr_spec_witness : ∃ s', consoleintr 0 [108; 120; 127; 115; 13] tty_kst = Ok tt s' ∧
  cons_rep (k_cons s') (Tty [108; 115; 10] []) ∧ (p_state <$> b_procs (k_base s')) = [RUNNING; RUNNABLE].
Proof.
  destruct (consoleintr_spec 0 [108; 120; 127; 115; 13] tty_kst (Tty [] []) tty_idle tty_rep) as (s' & R & Hr & _ & Hp).
  - apply not_elem_of_nil.
  - apply (bool_decide_eq_true_1 _). vm_compute. reflexivity.
  - exists s'. split; [exact R|]. split; [exact Hr|]. rewrite Hp. vm_compute. reflexivity.
Defined.
Definition tty_inode : inode := Inode 1 3 1 3 3 1 1 1 0 (replicate 13 0).
Definition tty_read_kst : kst :=
  let s := demo_kst [demo_proc] [] ∅ in
  set_k_cons (ConsSt (zupd 511 97 (zupd 510 10 (zupd 509 98 (replicate 512 0)))) (2 ^ 32 - 3) 0 0 1 [])
    (set_k_fs (set_fs_inode (tty_inode :: replicate 49 zero_inode) (k_fs s)) s).
Lemma consoleread_spec_witness : ∃ s', consoleread 0 100 tty_read_kst = Ok (2, [98; 10]) s'.
Proof.
  destruct (consoleread_spec 0 100 tty_inode tty_read_kst (Tty [98; 10; 97] []) [98; 10] [97]) as (s' & R & _).
  - split; [split; simpl; [lia|done]|simpl; lia|set_solver|set_solver|set_solver].
  - reflexivity.
  - simpl. lia.
  - reflexivity.
  - reflexivity.
  - split; [vm_compute; reflexivity|simpl; lia|vm_compute; reflexivity|vm_compute; reflexivity|vm_compute; discriminate|].
    intros [|[|[|k]]] b Hb; simplify_eq/=; vm_compute; reflexivity.
  - lia.
  - reflexivity.
  - exists s'. exact R.
Defined.
