(* ===== verification/Pipe.v ===== *)
(** Pipes: [pipe.c] ([pipealloc] is in [File]).

    A pipe's counters live in the pipe; the channels a reader and a writer sleep
    on are their addresses.  Reads store at, and writes load from, the memory of the
    running process. *)

From S2P Require Import Prelude Spin Sched Mem Str Dll Buddy Bio Log Fs Vm Kernel.

(** * Operations *)

Definition pipe_lock (p : Z) : objaddr := ("pipe.lock", p).
Definition nread_chan (p : Z) : objaddr := ("pipe.nread", p).
Definition nwrite_chan (p : Z) : objaddr := ("pipe.nwrite", p).

(** [sizeof(struct pipe)]: the lock (64), the data and four words. *)
Definition PIPE_STRUCT : Z := 64 + PIPESIZE + 16.

Definition get_pipe (p : Z) : M kst pipe :=
  let* l := gets k_pipe in must "pipe" (l !! p).
Definition upd_pipe (p : Z) (f : pipe → pipe) : M kst unit :=
  let* r := get_pipe p in
  modify (fun s => set_k_pipe (<[p := f r]> (k_pipe s)) s).

Definition pipeclose (p writable : Z) : M kst unit :=
  bacquire (pipe_lock p) ;;
  (if ztrue writable then
     upd_pipe p (set_pp_writeopen 0) ;;
     zoom (wakeup (nread_chan p))
   else
     upd_pipe p (set_pp_readopen 0) ;;
     zoom (wakeup (nwrite_chan p))) ;;
  let* r := get_pipe p in
  if (pp_readopen r =? 0) && (pp_writeopen r =? 0) then
    brelease (pipe_lock p) ;;
    let* o := get_order PIPE_STRUCT in
    zoom (kfree p o) ;;
    modify (fun s => set_k_pipe (delete p (k_pipe s)) s)
  else brelease (pipe_lock p).

Section pipes.
Context {WF : WaitFuel}.

(** [while (p->nwrite == p->nread + PIPESIZE)]; [false] when the reader is gone. *)
Fixpoint pipewrite_wait (fuel : nat) (p : Z) : M kst bool :=
  match fuel with
  | O => out_of_fuel
  | S fuel =>
      let* r := get_pipe p in
      if pp_nwrite r =? u32 (pp_nread r + PIPESIZE) then
        if pp_readopen r =? 0 then ret false
        else
          zoom (wakeup (nread_chan p)) ;;
          zoom (sleep (nwrite_chan p) (Some (pipe_lock p))) ;;
          pipewrite_wait fuel p
      else ret true
  end.
(** [p->data[p->nwrite++ % PIPESIZE] = c] *)
Definition pipe_put (c : Z) (r : pipe) : pipe :=
  set_pp_nwrite (u32 (pp_nwrite r + 1))
    (set_pp_data (zupd (pp_nwrite r mod PIPESIZE) c (pp_data r)) r).
(** The loop of [pipewrite] over the bytes from [addr]; [false] is the early
    return. *)
Fixpoint pipewrite_loop (n : nat) (p addr : Z) : M kst bool :=
  match n with
  | O => ret true
  | S n =>
      let* ok := pipewrite_wait (S wait_fuel) p in
      if negb ok then ret false else
      let* c := uload8 addr in
      upd_pipe p (pipe_put c) ;;
      pipewrite_loop n p (u64 (addr + 1))
  end.
Definition pipewrite (p addr n : Z) : M kst Z :=
  bacquire (pipe_lock p) ;;
  let* ok := pipewrite_loop (Z.to_nat n) p addr in
  if negb ok then brelease (pipe_lock p) ;; ret (-1)
  else
    zoom (wakeup (nread_chan p)) ;;
    brelease (pipe_lock p) ;;
    ret n.

(** [while (p->nread == p->nwrite && p->writeopen)]; [false] when killed. *)
Fixpoint piperead_wait (fuel : nat) (p : Z) : M kst bool :=
  match fuel with
  | O => out_of_fuel
  | S fuel =>
      let* r := get_pipe p in
      if (pp_nread r =? pp_nwrite r) && ztrue (pp_writeopen r) then
        let* q := kmyproc in
        if ztrue (p_killed q) then ret false
        else
          zoom (sleep (nread_chan p) (Some (pipe_lock p))) ;;
          piperead_wait fuel p
      else ret true
  end.
(** The copying loop; the result is [i] when it ends. *)
Fixpoint piperead_loop (n : nat) (p addr i : Z) : M kst Z :=
  match n with
  | O => ret i
  | S n =>
      let* r := get_pipe p in
      if pp_nread r =? pp_nwrite r then ret i else
      let* c := must "data" (znth (pp_data r) (pp_nread r mod PIPESIZE)) in
      upd_pipe p (set_pp_nread (u32 (pp_nread r + 1))) ;;
      ustore8 addr c ;;
      piperead_loop n p (u64 (addr + 1)) (i + 1)
  end.
Definition piperead (p addr n : Z) : M kst Z :=
  bacquire (pipe_lock p) ;;
  let* ok := piperead_wait (S wait_fuel) p in
  if negb ok then brelease (pipe_lock p) ;; ret (-1)
  else
    let* i := piperead_loop (Z.to_nat n) p addr 0 in
    zoom (wakeup (nwrite_chan p)) ;;
    brelease (pipe_lock p) ;;
    ret i.
End pipes.

(** * Correctness

    A pipe is a bounded FIFO queue: [pipe_bytes] is what it holds, oldest first.
    The counters run modulo [2 ^ 32], of which [PIPESIZE] is a divisor. *)

Definition pipe_len (r : pipe) : Z := u32 (pp_nwrite r - pp_nread r).
Definition pipe_bytes (r : pipe) : list Z :=
  (λ k, default 0 (znth (pp_data r) ((pp_nread r + k) mod PIPESIZE))) <$> seqZ 0 (pipe_len r).
Record pipe_ok (r : pipe) : Prop := {
  po_data : zlen (pp_data r) = PIPESIZE;
  po_nread : 0 ≤ pp_nread r < 2 ^ 32;
  po_nwrite : 0 ≤ pp_nwrite r < 2 ^ 32;
  po_len : pipe_len r ≤ PIPESIZE;
}.

Lemma u32_mod_pipe a : u32 a mod PIPESIZE = a mod PIPESIZE.
Proof.
  unfold u32, PIPESIZE. apply Z.mod_mod_divide. by exists (2 ^ 23).
Qed.
Lemma zlen_pipe_bytes r : zlen (pipe_bytes r) = pipe_len r.
Proof.
  unfold pipe_bytes, zlen. rewrite length_fmap, length_seqZ. pose proof (u32_range (pp_nwrite r - pp_nread r)).
  unfold pipe_len in *. lia.
Qed.
Lemma u32_sub_cases a b : 0 ≤ a < 2 ^ 32 → 0 ≤ b < 2 ^ 32 →
  u32 (a - b) = if b <=? a then a - b else a - b + 2 ^ 32.
Proof.
  intros. unfold u32. destruct (Z.leb_spec b a); [by rewrite Z.mod_small by lia|].
  rewrite <- (Z_mod_plus_full _ 1), Z.mod_small; lia.
Qed.
Lemma u32_succ_cases a : 0 ≤ a < 2 ^ 32 → u32 (a + 1) = if a =? 2 ^ 32 - 1 then 0 else a + 1.
Proof.
  intros. unfold u32. destruct (Z.eqb_spec a (2 ^ 32 - 1)) as [->|]; [done|]. by rewrite Z.mod_small by lia.
Qed.

Section queue.
Context (r : pipe) (Hok : pipe_ok r).

Lemma pipe_empty : (pp_nread r =? pp_nwrite r) = (pipe_len r =? 0).
Proof.
  destruct Hok. unfold pipe_len. rewrite u32_sub_cases by done. destruct (_ <=? _) eqn:E; lia.
Qed.
Lemma pipe_full : (pp_nwrite r =? u32 (pp_nread r + PIPESIZE)) = (pipe_len r =? PIPESIZE).
Proof.
  destruct Hok. unfold pipe_len. rewrite u32_sub_cases by done. unfold u32, PIPESIZE in *.
  destruct (Z.ltb_spec (pp_nread r + 512) (2 ^ 32)).
  - rewrite (Z.mod_small (pp_nread r + 512)) by lia. destruct (_ <=? _) eqn:E; lia.
  - replace (pp_nread r + 512) with (pp_nread r + 512 - 2 ^ 32 + 1 * 2 ^ 32) by lia.
    rewrite Z_mod_plus_full, Z.mod_small by lia. destruct (_ <=? _) eqn:E; lia.
Qed.
Lemma pipe_len_range : 0 ≤ pipe_len r ≤ PIPESIZE.
Proof. split; [apply u32_range|apply Hok]. Qed.

Lemma pipe_put_ok c : pipe_len r < PIPESIZE →
  pipe_ok (pipe_put c r) ∧ pipe_bytes (pipe_put c r) = pipe_bytes r ++ [c].
Proof.
  intros Hroom. pose proof Hok as [Hd Hr Hw Hl]. pose proof (u32_range (pp_nwrite r + 1)).
  assert (Hlen : pipe_len (pipe_put c r) = pipe_len r + 1).
  { unfold pipe_len in *. simpl. rewrite !u32_sub_cases, u32_succ_cases in * by done.
    unfold PIPESIZE in *. destruct (_ =? _) eqn:E1, (_ <=? pp_nwrite r) eqn:E2; zcase. }
  split; [split; simpl; [by rewrite zlen_zupd|done|done|rewrite Hlen; lia]|].
  pose proof pipe_len_range. unfold pipe_bytes. rewrite Hlen.
  replace (pipe_len r + 1) with (Z.of_nat (S (Z.to_nat (pipe_len r)))) by lia.
  rewrite seqZ_S, fmap_app, Z2Nat.id by lia. simpl. f_equal.
  - apply list_fmap_ext. intros i k Hk. apply lookup_seqZ in Hk as [-> Hk]. simpl. f_equal.
    rewrite znth_zupd_ne; [done|]. rewrite Z.add_0_l. intros He.
    assert (Hc : pp_nwrite r mod PIPESIZE = (pp_nread r + pipe_len r) mod PIPESIZE).
    { unfold pipe_len. rewrite <- (u32_mod_pipe (pp_nread r + _)). f_equal. unfold u32.
      rewrite Zplus_mod_idemp_r. replace (pp_nread r + _) with (pp_nwrite r) by lia. by rewrite Z.mod_small. }
    rewrite Hc in He. set (a := pp_nread r) in *. set (n := pipe_len r) in *. unfold PIPESIZE in *.
    pose proof (Z.mod_pos_bound (a + Z.of_nat i) 512 ltac:(lia)).
    pose proof (Z.div_mod (a + n) 512 ltac:(lia)). pose proof (Z.div_mod (a + Z.of_nat i) 512 ltac:(lia)). lia.
  - simpl. f_equal. rewrite Z.add_0_l.
    replace ((pp_nread r + pipe_len r) mod PIPESIZE) with (pp_nwrite r mod PIPESIZE).
    + rewrite znth_zupd; [done|]. rewrite Hd. apply Z.mod_pos_bound. unfold PIPESIZE. lia.
    + unfold pipe_len. rewrite <- (u32_mod_pipe (pp_nread r + _)). f_equal. unfold u32.
      rewrite Zplus_mod_idemp_r. replace (pp_nread r + _) with (pp_nwrite r) by lia. by rewrite Z.mod_small.
Qed.

Lemma pipe_get_ok : pipe_len r ≠ 0 →
  ∃ c r', r' = set_pp_nread (u32 (pp_nread r + 1)) r ∧
    znth (pp_data r) (pp_nread r mod PIPESIZE) = Some c ∧ pipe_ok r' ∧ pipe_bytes r = c :: pipe_bytes r'.
Proof.
  intros Hne. pose proof Hok as [Hd Hr Hw Hl]. pose proof pipe_len_range as Hrg.
  destruct (znth_is_Some (pp_data r) (pp_nread r mod PIPESIZE)) as [c Hc].
  { rewrite Hd. apply Z.mod_pos_bound. unfold PIPESIZE. lia. }
  exists c, (set_pp_nread (u32 (pp_nread r + 1)) r). pose proof (u32_range (pp_nread r + 1)).
  assert (Hlen : pipe_len (set_pp_nread (u32 (pp_nread r + 1)) r) = pipe_len r - 1).
  { unfold pipe_len in *. simpl. rewrite !u32_sub_cases, u32_succ_cases in * by done.
    unfold PIPESIZE in *. destruct (_ =? 2 ^ 32 - 1) eqn:E1, (_ <=? pp_nwrite r) eqn:E2; zcase. }
  split; [done|]. split; [done|]. split; [split; simpl; try done; rewrite Hlen; lia|].
  unfold pipe_bytes. rewrite Hlen, (seqZ_cons 0) by lia. simpl. rewrite Z.add_0_r, Hc. simpl. f_equal.
  rewrite Z.sub_1_r. apply list_eq. intros i. rewrite !list_lookup_fmap.
  destruct (decide (i < Z.to_nat (Z.pred (pipe_len r)))%nat).
  - rewrite !lookup_seqZ_lt by lia. simpl. do 2 f_equal.
    rewrite <- (u32_mod_pipe (u32 _ + _)). unfold u32. rewrite Zplus_mod_idemp_l. fold (u32 (pp_nread r + 1 + (0 + Z.of_nat i))).
    rewrite u32_mod_pipe. do 2 f_equal. lia.
  - by rewrite !lookup_seqZ_ge by lia.
Qed.
End queue.

(** ** The operations on a state *)

Definition with_pipe (p : Z) (r : pipe) (s : kst) : kst := set_k_pipe (<[p := r]> (k_pipe s)) s.

Lemma get_pipe_ok p r s : k_pipe s !! p = Some r → get_pipe p s = Ok r s.
Proof. intros H. unfold get_pipe. run. by rewrite H. Qed.
Lemma upd_pipe_ok p f r s : k_pipe s !! p = Some r → upd_pipe p f s = Ok tt (with_pipe p (f r) s).
Proof. intros H. unfold upd_pipe. by rewrite (bind_ok _ _ _ _ _ (get_pipe_ok _ _ _ H)). Qed.
Lemma with_pipe_at p r s : k_pipe (with_pipe p r s) !! p = Some r.
Proof. apply lookup_insert_eq. Qed.
Lemma with_pipe_twice p r r' s : with_pipe p r (with_pipe p r' s) = with_pipe p r s.
Proof. unfold with_pipe, set_k_pipe. simpl. by rewrite insert_insert_eq. Qed.
Lemma kidle_pipe lk p r s : kidle lk s → kidle lk (with_pipe p r s).
Proof. by intros []. Qed.

Section ops_spec.
Context {WF : WaitFuel}.

Lemma pipewrite_loop_ok bytes : ∀ p addr r s, k_pipe s !! p = Some r → pipe_ok r →
  pipe_len r + zlen bytes ≤ PIPESIZE → 0 ≤ addr → addr + zlen bytes < 2 ^ 64 →
  (∀ i b, bytes !! i = Some b → ubyte s (addr + Z.of_nat i) = Some b) →
  ∃ r', pipewrite_loop (length bytes) p addr s = Ok true (with_pipe p r' s) ∧ pipe_ok r' ∧
    pipe_bytes r' = pipe_bytes r ++ bytes.
Proof.
  induction bytes as [|b bytes IH]; intros p addr r s Hp Hok Hroom Ha Haddr Hmem.
  { exists r. rewrite app_nil_r. split; [|done]. unfold with_pipe. rewrite insert_id by done. by destruct s. }
  assert (Hz : zlen (b :: bytes) = zlen bytes + 1) by (unfold zlen; simpl; lia).
  pose proof (Nat2Z.is_nonneg (length bytes)) as Hnn. change (0 ≤ zlen bytes) in Hnn.
  destruct (pipe_put_ok r Hok b) as [Hok' Hb']; [lia|]. cbn [pipewrite_loop length].
  rewrite (bind_ok _ _ _ true s).
  2: { cbn [pipewrite_wait]. rewrite (bind_ok _ _ _ _ _ (get_pipe_ok _ _ _ Hp)).
       rewrite pipe_full by done. by replace (pipe_len r =? PIPESIZE) with false by lia. }
  cbn [negb]. rewrite (bind_ok _ _ _ _ _ (uload8_ok s addr b ltac:(by rewrite <- (Hmem 0%nat b), Z.add_0_r))).
  rewrite (bind_ok _ _ _ _ _ (upd_pipe_ok p _ _ _ Hp)). rewrite u64_small by lia.
  destruct (IH p (addr + 1) (pipe_put b r) (with_pipe p (pipe_put b r) s)) as (r' & R & Hr' & Hbs).
  - apply with_pipe_at.
  - done.
  - rewrite <- zlen_pipe_bytes, Hb'. unfold zlen in *. rewrite length_app. simpl.
    pose proof (zlen_pipe_bytes r). unfold zlen in *. lia.
  - lia.
  - lia.
  - intros i c Hi. rewrite <- (Hmem (S i) c Hi). f_equal. lia.
  - exists r'. rewrite R, with_pipe_twice. split; [done|]. split; [done|]. by rewrite Hbs, Hb', <- app_assoc.
Qed.

Lemma piperead_loop_ok n : ∀ p addr i r s m', k_pipe s !! p = Some r → pipe_ok r →
  ustored (m_ttbr0 (b_mach (k_base s))) (k_mem s) addr (take n (pipe_bytes r)) = Some m' →
  ∃ r', piperead_loop n p addr i s =
      Ok (i + zlen (take n (pipe_bytes r))) (with_pipe p r' (set_k_mem m' s)) ∧
    pipe_ok r' ∧ pipe_bytes r' = drop n (pipe_bytes r).
Proof.
  assert (Hnil : ∀ p r s m i, k_pipe s !! p = Some r → Some (k_mem s) = Some m →
    @Ok kst Z i s = Ok (i + zlen (@nil Z)) (with_pipe p r (set_k_mem m s))).
  { intros p r s m i Hp [= <-]. unfold with_pipe, zlen. simpl. rewrite insert_id by done. rewrite Z.add_0_r. by destruct s. }
  induction n as [|n IH]; intros p addr i r s m' Hp Hok Hm.
  { exists r. rewrite take_0 in *. rewrite drop_0. split; [|done]. by apply Hnil. }
  cbn [piperead_loop]. rewrite (bind_ok _ _ _ _ _ (get_pipe_ok _ _ _ Hp)). rewrite pipe_empty by done.
  destruct (Z.eqb_spec (pipe_len r) 0) as [He|Hne].
  - exists r. assert (Hb : pipe_bytes r = []).
    { pose proof (zlen_pipe_bytes r) as Hz. rewrite He in Hz. unfold zlen in Hz. apply nil_length_inv. lia. }
    rewrite Hb, take_nil in *. rewrite drop_nil. split; [|done]. by apply Hnil.
  - destruct (pipe_get_ok r Hok Hne) as (c & r1 & Er & Hc & Hok1 & Hb1).
    rewrite (bind_ok _ _ _ c s) by (by rewrite Hc).
    rewrite (bind_ok _ _ _ _ _ (upd_pipe_ok p _ _ _ Hp)). rewrite <- Er.
    rewrite Hb1 in Hm. cbn [take ustored] in Hm.
    destruct (uaddr _ _ addr) as [a|] eqn:Ea; [|done]. cbn [mbind option_bind] in Hm.
    rewrite (bind_ok _ _ _ _ _ (ustore8_ok (with_pipe p r1 s) addr c a Ea)).
    destruct (IH p (u64 (addr + 1)) (i + 1) r1 (set_k_mem (st8 a c (k_mem s)) (with_pipe p r1 s)) m')
      as (r' & R & Hr' & Hbs); [apply with_pipe_at|done|done|].
    exists r'. rewrite Hb1. cbn [take drop]. split; [|done].
    change (set_k_mem (st8 a c (k_mem (with_pipe p r1 s))) (with_pipe p r1 s)) with
      (set_k_mem (st8 a c (k_mem s)) (with_pipe p r1 s)). rewrite R. f_equal.
    + unfold zlen. simpl. lia.
    + change (with_pipe p r' (set_k_mem m' (set_k_mem (st8 a c (k_mem s)) (with_pipe p r1 s)))) with
        (with_pipe p r' (with_pipe p r1 (set_k_mem m' s))). by rewrite with_pipe_twice.
Qed.
End ops_spec.

(** * Theorems *)

(** C33: writing to a pipe that has room appends the bytes at [addr], in order, to
    the bytes the pipe holds, wakes the readers sleeping on it and returns the
    number written; nothing else changes. *)
Theorem pipewrite_spec {WF : WaitFuel} p addr bytes r s :
  kidle (pipe_lock p) s → k_pipe s !! p = Some r → pipe_ok r →
  zlen (pipe_bytes r) + zlen bytes ≤ PIPESIZE → 0 ≤ addr → addr + zlen bytes < 2 ^ 64 →
  (∀ i b, bytes !! i = Some b → ubyte s (addr + Z.of_nat i) = Some b) →
  ∃ r', pipewrite p addr (zlen bytes) s =
      Ok (zlen bytes) (kfreed (kwoken (nread_chan p) (with_pipe p r' s))) ∧
    pipe_ok r' ∧ pipe_bytes r' = pipe_bytes r ++ bytes.
Proof.
  intros Hi Hp Hok Hroom Ha Haddr Hmem. rewrite zlen_pipe_bytes in Hroom.
  destruct (pipewrite_loop_ok bytes p addr r (klocked (pipe_lock p) s) Hp Hok Hroom Ha Haddr)
    as (r' & R & Hok' & Hb').
  { intros i b Hb. rewrite <- (Hmem i b Hb). unfold ubyte, klocked. by rewrite set_k_base_base. }
  exists r'. split; [|done]. unfold pipewrite. rewrite (bind_ok _ _ _ _ _ (kacquire_ok _ _ Hi)).
  unfold zlen at 1. rewrite Nat2Z.id, (bind_ok _ _ _ _ _ R). cbn [negb].
  change (with_pipe p r' (klocked (pipe_lock p) s)) with (klocked (pipe_lock p) (with_pipe p r' s)).
  pose proof (kidle_pipe _ p r' _ Hi) as Hi'.
  rewrite (bind_ok _ _ _ _ _ (kwakeup_ok (nread_chan p) _ _ Hi')).
  by rewrite (bind_ok _ _ _ _ _ (krelease_ok _ _ (kidle_woken _ (nread_chan p) _ Hi'))).
Qed.

(** Reading from a pipe that holds bytes, or whose write end is closed,
    removes the oldest bytes, at most [n], stores them at [addr] in the order they
    were written and returns their number; an empty pipe that is closed for
    writing yields 0. *)
Theorem piperead_spec {WF : WaitFuel} p addr n r s m' :
  kidle (pipe_lock p) s → k_pipe s !! p = Some r → pipe_ok r →
  pipe_bytes r ≠ [] ∨ pp_writeopen r = 0 →
  ustored (m_ttbr0 (b_mach (k_base s))) (k_mem s) addr (take (Z.to_nat n) (pipe_bytes r)) = Some m' →
  ∃ r', piperead p addr n s =
      Ok (zlen (take (Z.to_nat n) (pipe_bytes r)))
         (kfreed (kwoken (nwrite_chan p) (with_pipe p r' (set_k_mem m' s)))) ∧
    pipe_ok r' ∧ pipe_bytes r' = drop (Z.to_nat n) (pipe_bytes r).
Proof.
  intros Hi Hp Hok Hne Hm. set (s1 := klocked (pipe_lock p) s).
  destruct (piperead_loop_ok (Z.to_nat n) p addr 0 r s1 m' Hp Hok) as (r' & R & Hok' & Hb').
  { unfold s1, klocked. by rewrite set_k_base_base. }
  exists r'. split; [|done]. unfold piperead. rewrite (bind_ok _ _ _ _ _ (kacquire_ok _ _ Hi)).
  rewrite (bind_ok _ _ _ true s1).
  2: { cbn [piperead_wait]. rewrite (bind_ok _ _ _ _ _ (get_pipe_ok p r s1 Hp)).
       rewrite pipe_empty by done. destruct Hne as [Hne| ->]; [|by rewrite andb_false_r].
       replace (pipe_len r =? 0) with false; [done|]. symmetry. apply Z.eqb_neq. intros He. apply Hne.
       pose proof (zlen_pipe_bytes r) as Hz. rewrite He in Hz. unfold zlen in Hz. apply nil_length_inv. lia. }
  cbn [negb]. rewrite (bind_ok _ _ _ _ _ R). set (s2 := with_pipe p r' (set_k_mem m' s)).
  assert (Hi' : kidle (pipe_lock p) s2) by (by apply kidle_pipe; destruct Hi).
  change (with_pipe p r' (set_k_mem m' s1)) with (klocked (pipe_lock p) s2).
  rewrite (bind_ok _ _ _ _ _ (kwakeup_ok (nwrite_chan p) _ _ Hi')).
  by rewrite (bind_ok _ _ _ _ _ (krelease_ok _ _ (kidle_woken _ (nwrite_chan p) _ Hi'))).
Qed.

(** A write of at least a byte to a full pipe whose read end is closed
    returns -1 and leaves the pipe as it was. *)
Theorem pipewrite_closed {WF : WaitFuel} p addr n r s :
  kidle (pipe_lock p) s → k_pipe s !! p = Some r → pipe_ok r → 0 < n →
  zlen (pipe_bytes r) = PIPESIZE → pp_readopen r = 0 →
  pipewrite p addr n s = Ok (-1) (kfreed s).
Proof.
  intros Hi Hp Hok Hn Hfull Hro. rewrite zlen_pipe_bytes in Hfull. unfold pipewrite.
  rewrite (bind_ok _ _ _ _ _ (kacquire_ok _ _ Hi)). set (s1 := klocked (pipe_lock p) s).
  rewrite (bind_ok _ _ _ false s1).
  - cbn [negb]. by rewrite (bind_ok _ _ _ _ _ (krelease_ok _ _ Hi)).
  - destruct (Z.to_nat n) as [|m] eqn:Em; [lia|]. cbn [pipewrite_loop]. rewrite (bind_ok _ _ _ false s1); [done|].
    cbn [pipewrite_wait]. rewrite (bind_ok _ _ _ _ _ (get_pipe_ok p r s1 Hp)).
    by rewrite pipe_full, Hfull, Hro by done.
Qed.

(** ** Witnesses *)

Definition demo_pipe : pipe := Pipe (replicate 512 7) (2 ^ 32 - 2) 1 1 1.
Definition demo_full : pipe := Pipe (replicate 512 7) 5 517 0 1.
Definition demo_pipe_kst (r : pipe) : kst := demo_kst [demo_proc; zero_proc] [] {[9 := r]}.
Lemma demo_pipe_ok : pipe_ok demo_pipe ∧ pipe_ok demo_full.
Proof. split; split; vm_compute; intuition congruence. Qed.
Lemma demo_pipe_idle r : kidle (pipe_lock 9) (demo_pipe_kst r).
Proof. split; [split; simpl; [lia|done]|simpl; lia|set_solver|set_solver|done]. Qed.
#[local] Instance pipe_fuel : WaitFuel := 0%nat.

Lemma pipewrite_spec_witness : ∃ r' s', pipewrite 9 0 2 (demo_pipe_kst demo_pipe) = Ok 2 s' ∧
  pipe_bytes r' = [7; 7; 7; 104; 101].
Proof.
  destruct (pipewrite_spec 9 0 [104; 101] demo_pipe (demo_pipe_kst demo_pipe)) as (r' & R & _ & Hb).
  - apply demo_pipe_idle.
  - reflexivity.
  - apply demo_pipe_ok.
  - vm_compute. congruence.
  - lia.
  - vm_compute. reflexivity.
  - intros i b Hi. destruct i as [|[|i]]; simpl in Hi; [| |done]; simplify_eq; vm_compute; reflexivity.
  - exists r'. eexists. split; [exact R|]. rewrite Hb. vm_compute. reflexivity.
Defined.
Lemma demo_stored : ∃ m, ustored 0x1000 demo_mem 3 [7; 7] = Some m ∧
  ld8 m <$> uaddr 0x1000 m 3 = Some 7 ∧ ld8 m <$> uaddr 0x1000 m 2 = Some 108.
Proof.
  assert (H : match ustored 0x1000 demo_mem 3 [7; 7] with
    | Some m => bool_decide (ld8 m <$> uaddr 0x1000 m 3 = Some 7) &&
                bool_decide (ld8 m <$> uaddr 0x1000 m 2 = Some 108)
    | None => false end = true) by (vm_compute; reflexivity).
  destruct (ustored _ _ _ _) as [m|]; [|discriminate H]. exists m. split; [reflexivity|].
  apply andb_prop in H as [H1%bool_decide_eq_true H2%bool_decide_eq_true]. by split.
Qed.
Lemma piperead_spec_witness : ∃ s', piperead 9 3 2 (demo_pipe_kst demo_pipe) = Ok 2 s' ∧
  ubyte s' 3 = Some 7 ∧ ubyte s' 2 = Some 108.
Proof.
  destruct demo_stored as (m' & Em & Hb).
  destruct (piperead_spec 9 3 2 demo_pipe (demo_pipe_kst demo_pipe) m') as (r' & R & _).
  - apply demo_pipe_idle.
  - reflexivity.
  - apply demo_pipe_ok.
  - left. vm_compute. congruence.
  - exact Em.
  - eexists. split; [exact R|]. exact Hb.
Defined.
Lemma pipewrite_closed_witness :
  pipewrite 9 0 1 (demo_pipe_kst demo_full) = Ok (-1) (kfreed (demo_pipe_kst demo_full)).
Proof.
  apply (pipewrite_closed 9 0 1 demo_full).
  - apply demo_pipe_idle.
  - reflexivity.
  - apply demo_pipe_ok.
  - lia.
  - vm_compute. reflexivity.
  - reflexivity.
Defined.
