(* ===== verification/File.v ===== *)
(** The file table: [file.c], with [pipealloc] of [pipe.c].

    Reads store at, and writes load from, the memory of the running process. *)

From S2P Require Import Prelude Spin Sched Mem Str Dll Buddy Bio Log Fs Vm Kernel Console Pipe.

(** * The file table *)

Definition ftable_lock : objaddr := ("ftable", 0).

Definition get_file (f : Z) : M kst file :=
  let* l := gets k_file in must "file" (znth l f).
Definition upd_file (f : Z) (g : file → file) : M kst unit :=
  let* r := get_file f in
  modify (fun s => set_k_file (zupd f (g r) (k_file s)) s).

Definition fileinit : M kst unit := binitlock ftable_lock.

(** [None] is the null result. *)
Definition filealloc : M kst (option Z) :=
  bacquire ftable_lock ;;
  let* r := for_to 0 NFILE (fun f =>
    let* x := get_file f in
    if f_ref x =? 0 then
      upd_file f (set_f_ref 1) ;;
      brelease ftable_lock ;;
      ret (Some f)
    else ret None) in
  match r with
  | Some f => ret (Some f)
  | None => brelease ftable_lock ;; ret None
  end.

Definition filedup (f : Z) : M kst Z :=
  bacquire ftable_lock ;;
  let* x := get_file f in
  panic_if (f_ref x <? 1) "filedup" ;;
  upd_file f (fun x => set_f_ref (s32 (f_ref x + 1)) x) ;;
  brelease ftable_lock ;;
  ret f.

Section files.
Context {WF : WaitFuel}.

Definition fileclose (f : Z) : M kst unit :=
  bacquire ftable_lock ;;
  let* x := get_file f in
  panic_if (f_ref x <? 1) "fileclose" ;;
  upd_file f (fun x => set_f_ref (s32 (f_ref x - 1)) x) ;;
  let* x := get_file f in
  if 0 <? f_ref x then brelease ftable_lock
  else
    let ff := x in
    upd_file f (set_f_ref 0) ;;
    upd_file f (set_f_type FD_NONE) ;;
    brelease ftable_lock ;;
    match f_type ff with
    | FD_PIPE => pipeclose (f_pipe ff) (f_writable ff)
    | FD_INODE =>
        zoom begin_trans ;;
        let* ip := must "f->ip" (f_ip ff) in
        zoom (iput ip) ;;
        zoom commit_trans
    | FD_NONE => ret tt
    end.

(** [None] is the result -1. *)
Definition filestat (f : Z) : M kst (option stat) :=
  let* x := get_file f in
  match f_type x with
  | FD_INODE =>
      zoom (ilock (f_ip x)) ;;
      let* ip := must "f->ip" (f_ip x) in
      let* st := zoom (stati ip) in
      zoom (iunlock (f_ip x)) ;;
      ret (Some st)
  | _ => ret None
  end.

(** [readi] returns the bytes it copies; they are stored at [addr]. *)
Definition fileread (f addr n : Z) : M kst Z :=
  let* x := get_file f in
  if f_readable x =? 0 then ret (-1) else
  match f_type x with
  | FD_PIPE => piperead (f_pipe x) addr n
  | FD_INODE =>
      zoom (ilock (f_ip x)) ;;
      let* ip := must "f->ip" (f_ip x) in
      let* x := get_file f in
      let* (r, l) := readi ip (f_off x) (u32 n) in
      ustore addr l ;;
      when (0 <? r) (upd_file f (fun x => set_f_off (u32 (f_off x + r)) x)) ;;
      zoom (iunlock (f_ip x)) ;;
      ret r
  | FD_NONE => panic "fileread"
  end.

(** [((LOGSIZE - 1 - 1 - 2) / 2) * 512] *)
Definition write_max : Z := (LOGSIZE - 1 - 1 - 2) / 2 * 512.
(** The loop of [filewrite]: every round writes at least a byte, so [n] rounds
    are enough.  Returns [i]. *)
Fixpoint filewrite_loop (fuel : nat) (f addr n i : Z) : M kst Z :=
  if i <? n then
    match fuel with
    | O => out_of_fuel
    | S fuel =>
        let n1 := if write_max <? n - i then write_max else n - i in
        zoom begin_trans ;;
        let* x := get_file f in
        zoom (ilock (f_ip x)) ;;
        let* ip := must "f->ip" (f_ip x) in
        let* src := uload (Z.to_nat n1) (u64 (addr + i)) in
        let* x := get_file f in
        let* r := writei ip src (f_off x) n1 in
        when (0 <? r) (upd_file f (fun x => set_f_off (u32 (f_off x + r)) x)) ;;
        zoom (iunlock (f_ip x)) ;;
        zoom commit_trans ;;
        if r <? 0 then ret i else
        panic_if (negb (r =? n1)) "short filewrite" ;;
        filewrite_loop fuel f addr n (i + r)
    end
  else ret i.
Definition filewrite (f addr n : Z) : M kst Z :=
  let* x := get_file f in
  if f_writable x =? 0 then ret (-1) else
  match f_type x with
  | FD_PIPE => pipewrite (f_pipe x) addr n
  | FD_INODE =>
      let* i := filewrite_loop (Z.to_nat n) f addr n 0 in
      ret (if i =? n then n else -1)
  | FD_NONE => panic "filewrite"
  end.

(** ** Creating a pipe ([pipe.c]) *)

(** [bad:] with the files allocated so far. *)
Definition close_opt (f : option Z) : M kst unit :=
  match f with Some f => fileclose f | None => ret tt end.
(** The two files, or [None] for -1. *)
Definition pipealloc : M kst (option (Z * Z)) :=
  let* f0 := filealloc in
  match f0 with
  | None => ret None
  | Some f0 =>
      let* f1 := filealloc in
      match f1 with
      | None => close_opt (Some f0) ;; ret None
      | Some f1 =>
          let* o := get_order PIPE_STRUCT in
          let* p := zoom (kmalloc o) in
          if p =? 0 then
            close_opt (Some f0) ;; close_opt (Some f1) ;; ret None
          else
            let* mem := gets k_mem in
            modify (fun s => set_k_pipe
              (<[p := Pipe (ld_bytes (Z.to_nat PIPESIZE) (u64 (p + 64)) mem) 0 0 1 1]> (k_pipe s)) s) ;;
            binitlock (pipe_lock p) ;;
            upd_file f0 (fun x => set_f_pipe p (set_f_writable 0 (set_f_readable 1 (set_f_type FD_PIPE x)))) ;;
            upd_file f1 (fun x => set_f_pipe p (set_f_writable 1 (set_f_readable 0 (set_f_type FD_PIPE x)))) ;;
            ret (Some (f0, f1))
      end
  end.
End files.
