(* ===== verification/Filewrite.v ===== *)
(** [filewrite] of [file.c] from the system call's view: a write to a file is
    complete and durable when it returns, and atomic with respect to crashes. *)

From S2P Require Import Prelude Spin Sched Mem Str Dll Buddy Bio Log Tx Fs Inode Balloc Dinode Content Writei.
From S2P Require Import Vm Kernel Console Pipe File.

(** * Contents that agree below the log *)

Section agree.
Context (V V' : Z → list Z) (start : Z) (Hag : ∀ n, 0 ≤ n < start → V' n = V n) (Hst : 1 < start).
Context (Hg : fsgeo V start).

Lemma agree_sb : V' 1 = V 1.
Proof. apply Hag. lia. Qed.
Lemma agree_sbsize : sbsize V' = sbsize V.
Proof. unfold sbsize. by rewrite agree_sb. Qed.
Lemma agree_bm b : bmblock V' b = bmblock V b.
Proof. unfold bmblock, ninodes. by rewrite agree_sb. Qed.
Lemma agree_used b : 0 ≤ b < sbsize V → used V' b = used V b.
Proof.
  intros Hb. unfold used. rewrite agree_bm, Hag; [done|]. pose proof (bblock_eq V start b Hg Hb). lia.
Qed.
Lemma agree_isdata b : isdata V start b → isdata V' start b.
Proof.
  intros [D1 D2 D3 D4]. split; rewrite ?agree_sbsize; try done; [by rewrite agree_used|].
  intros b' Hb'. rewrite agree_bm. by apply D4.
Qed.
Lemma agree_fsgeo : fsgeo V' start.
Proof.
  pose proof Hg as [G1 G2 G3 G4 G5]. split; rewrite ?agree_sbsize; try done.
  - unfold ninodes. by rewrite agree_sb.
  - intros b Hb. rewrite agree_bm. by apply G4.
  - intros b Hb Hu b' Hb'. rewrite agree_bm. rewrite agree_used in Hu by done. by apply G5.
Qed.
Lemma agree_below i : ino_below V i → ino_below V' i.
Proof. unfold ino_below, sbsize, bmblock, ninodes. by rewrite agree_sb. Qed.

Lemma agree_free k : has_free V start k → has_free V' start k.
Proof.
  intros (F & Hk & HF). exists F. split; [done|]. intros b Hb. destruct (HF b Hb) as (H1 & H2 & H3).
  by rewrite agree_sbsize, agree_used.
Qed.

Section file.
Context (r : inode) (Hf : file_ok V start r).
Lemma agree_fblk bn : fblk V' r bn = fblk V r bn.
Proof.
  unfold fblk. destruct (bn <? 12); [done|]. destruct (Z.eqb_spec (ind r) 0) as [|Hi]; [done|].
  rewrite Hag; [done|]. pose proof (isdata_pos _ _ _ Hg (fo_ind _ _ _ Hf Hi)). lia.
Qed.
Lemma agree_fbyte i : 0 ≤ i < i_size r → fbyte V' r i = fbyte V r i.
Proof.
  intros Hi. pose proof (fo_size _ _ _ Hf). pose proof (full_byte _ _ _ _ Hf Hi) as Hne.
  unfold fbyte. rewrite agree_fblk, Hag; [done|].
  pose proof (isdata_pos _ _ _ Hg (fo_blk _ _ _ Hf _ (div_range i ltac:(lia)) Hne)). lia.
Qed.
Lemma agree_file : file_ok V' start r.
Proof.
  destruct Hf as [F1 F2 F3 F4 F5 F6 F7]. split; try done.
  - intros i Hi. rewrite agree_fblk. intros. by apply agree_isdata, F3.
  - intros. by apply agree_isdata, F4.
  - intros i j Hi Hj. rewrite !agree_fblk. by apply F5.
  - intros i Hi. rewrite agree_fblk. by apply F6.
  - intros i Hi. rewrite agree_fblk. by apply F7.
Qed.
End file.
End agree.

(** * The kernel state around the file system *)

Section kernel.
Context {A : Type}.
Lemma zoom_klog (m : M logst A) s a t : m (fs_log (k_fs s)) = Ok a t →
  (zoom m : M kst A) s = Ok a (set_k_fs (set_fs_log t (k_fs s)) s).
Proof. unfold zoom; simpl. by intros ->. Qed.
Lemma zoom_kfs (m : M fsst A) s a t : m (k_fs s) = Ok a t → (zoom m : M kst A) s = Ok a (set_k_fs t s).
Proof. unfold zoom; simpl. by intros ->. Qed.
End kernel.

Lemma get_file_ok s f x : znth (k_file s) f = Some x → get_file f s = Ok x s.
Proof. intros H. unfold get_file. run. by rewrite H. Qed.
Lemma upd_file_ok s f x g : znth (k_file s) f = Some x →
  upd_file f g s = Ok tt (set_k_file (zupd f (g x) (k_file s)) s).
Proof. intros H. unfold upd_file. by rewrite (bind_ok _ _ _ _ _ (get_file_ok _ _ _ H)). Qed.

(** The memory of the process does not depend on the file system. *)
Lemma ubyte_fs s f va : m_ttbr0 (b_mach (fs_base f)) = m_ttbr0 (b_mach (k_base s)) →
  ubyte (set_k_fs f s) va = ubyte s va.
Proof. intros E. unfold ubyte, k_base. unfold fs_base in E. simpl. by rewrite E. Qed.
Lemma uload_ok data : ∀ s va, 0 ≤ va → va + zlen data < 2 ^ 64 →
  (∀ i b, data !! i = Some b → ubyte s (va + Z.of_nat i) = Some b) → uload (length data) va s = Ok data s.
Proof.
  induction data as [|b data IH]; intros s va Hva Hle Hb; [done|]. cbn [length uload].
  assert (Hz : zlen (b :: data) = zlen data + 1) by (unfold zlen; simpl; lia).
  assert (0 ≤ zlen data) by (unfold zlen; lia).
  rewrite (bind_ok _ _ _ b s) by (apply uload8_ok; rewrite <- (Z.add_0_r va); by apply (Hb 0%nat)).
  rewrite u64_small by lia. rewrite (bind_ok _ _ _ data s); [done|].
  apply IH; [lia|lia|]. intros i c Hi. rewrite <- (Hb (S i) c Hi). f_equal. lia.
Qed.

(** An open file whose inode is cached and not in use, with no transaction in
    progress; [V] is what is on the disk. *)
Record file_at (s : kst) (V : Z → list Z) (f : Z) (x : file) (ip : Z) (r : inode) : Prop := {
  fa_file : znth (k_file s) f = Some x;
  fa_type : f_type x = FD_INODE;
  fa_ip : f_ip x = Some ip;
  fa_settled : settled (fs_log (k_fs s)) V;
  fa_lock : icache_lock ∉ m_held (b_mach (k_base s));
  fa_ino : znth (fs_inode (k_fs s)) ip = Some r;
  fa_ref : 0 < i_ref r;
  fa_idle : iflag I_BUSY r = false;
  fa_valid : iflag I_VALID r = true;
  fa_dev : i_dev r = 1;
  fa_kind : i_type r ≠ T_DEV;
  fa_fields : inode_fields r;
  fa_geo : fsgeo V (lg_start (fs_log (k_fs s)));
  fa_ok : file_ok V (lg_start (fs_log (k_fs s))) r;
  fa_below : ino_below V (i_inum r);
  fa_log : 10 ≤ lg_size (fs_log (k_fs s));
}.

(** * One transaction of [filewrite] *)

Section write.
Context {WF : WaitFuel} (s : kst) (V : Z → list Z) (f : Z) (x : file) (ip : Z) (r : inode).
Context (Hat : file_at s V f x ip r).
Abbreviation start := (lg_start (fs_log (k_fs s))).

Lemma start_1 : 1 < start.
Proof.
  destruct Hat as [_ _ _ _ _ _ _ _ _ _ _ _ F13 _ (Hi & Hs & Hlt) _].
  specialize (Hlt 0 ltac:(lia)). pose proof (g_bm _ _ F13 0 ltac:(lia)).
  unfold iblock in Hlt. pose proof (Z.div_pos (i_inum r) 8). lia.
Qed.

(** [begin_trans(); ilock(f->ip)] *)
Lemma write_begin : ∃ t g, begin_trans (fs_log (k_fs s)) = Ok tt t ∧
  ilock (Some ip) (set_fs_log t (k_fs s)) = Ok tt g ∧ opened g V ∅ ip (busied r) ∧
  steps (fs_log (k_fs s)) (fs_log g) ∧ fs_inode g = zupd ip (busied r) (fs_inode (k_fs s)).
Proof.
  destruct Hat as [F1 F2 F3 F4 F5 F6 F7 F8 F9 F10 F11 F12 F13 F14 F15 F16].
  destruct (tx_begin _ V F4) as (t & R1 & T1 & S1). pose proof (sp_start _ _ S1) as Es1. pose proof (sp_size _ _ S1) as Ez1.
  set (g1 := set_fs_log t (k_fs s)).
  assert (T : ftx g1 V ∅ ∅ ∅).
  { split; [done|]. destruct (sp_env _ _ S1) as (_ & _ & E & _). unfold fs_base. simpl. by rewrite E. }
  destruct F15 as (Hi & Hs & Hlt) eqn:E15. clear E15.
  assert (Hib : iblock (i_inum r) < start) by (specialize (Hlt 0 ltac:(lia)); pose proof (g_bm _ _ F13 0 ltac:(lia)); lia).
  destruct (ilock_ok g1 V ∅ ∅ ∅ ip r T F6 F7) as (g & R2 & T2 & S2 & E2);
    try change (lg_start (fs_log g1)) with (lg_start t); rewrite ?Es1; try done; [apply F13|vm_compute; lia|by left|].
  exists t, g. split; [done|]. split; [done|]. unfold ilocked in E2. rewrite F9 in E2.
  pose proof (sp_start _ _ (proj1 S2)) as Es2. pose proof (sp_size _ _ (proj1 S2)) as Ez2. simpl in Es2, Ez2.
  split; [|split; [by etrans; [exact S1|apply S2]|done]].
  split; try done.
  - rewrite E2. by apply znth_zupd, (znth_Some _ _ _ F6).
  - by destruct F12.
  - by rewrite Es2, Es1.
  - rewrite Es2, Es1. by destruct F14.
  - by rewrite Ez2, Ez1.
Qed.

(** [iunlock(f->ip); commit_trans()] *)
Lemma write_end g V' L' r' (fx : list file) (s1 := set_k_file fx (set_k_fs g s)) :
  opened g V' L' ip r' → steps (fs_log (k_fs s)) (fs_log g) → iflag I_BUSY r' = true → iflag I_VALID r' = true →
  0 < i_ref r' → (1 ∉ L') → (size L' < 10)%nat →
  ∃ h t V2 W c, iunlock (Some ip) g = Ok tt h ∧ commit_trans (fs_log h) = Ok tt t ∧
    (∀ x', znth fx f = Some x' → f_type x' = FD_INODE → f_ip x' = Some ip →
       file_at (set_k_fs (set_fs_log t h) s1) V2 f x' ip (unbusied r')) ∧
    (∀ n, 0 ≤ n < start → V2 n = V' n) ∧
    io_writes (lg_bio t) = io_writes (lg_bio (fs_log (k_fs s))) ++ W ∧
    (∀ b k, idle b → log_lock ∉ m_held (b_mach b) →
       survives b (apply_writes (io_disk (lg_bio (fs_log (k_fs s)))) (take k W)) start
         (if decide (k ≤ c)%nat then V else V')).
Proof.
  intros [P1 P2 P3 P4 P5 P6 P7 P8 P9] St Hbu Hva Href H1 Hsz.
  destruct (iunlock_ok g V' ∅ L' ∅ ip r' P1 P2 Href Hbu) as (h & R1 & T1 & S1 & E1).
  assert (Sh : steps (fs_log (k_fs s)) (fs_log h)) by (etrans; [exact St|apply S1]).
  destruct (tx_commit _ V (fs_log h) V' L' (fa_settled _ _ _ _ _ _ Hat) Sh (proj1 T1) H1 Hsz)
    as (t & V2 & W & c & R2 & St2 & Es2 & Ez2 & HV & He & HW & Hcr).
  exists h, t, V2, W, c. split; [done|]. split; [done|]. split; [|done].
  pose proof (sp_start _ _ St) as Es.
  pose proof start_1 as Hst.
  rewrite Es in P6, P7. intros x' X1 X2 X3. destruct (unbusied_flags r') as [U1 U2].
  split; simpl; try done.
  - unfold k_base. simpl. destruct T1 as [_ Hl]. destruct He as (_ & _ & -> & _). exact Hl.
  - rewrite E1. by apply znth_zupd, (znth_Some _ _ _ P2).
  - by rewrite U2.
  - by destruct P5.
  - rewrite Es2. by eapply agree_fsgeo.
  - rewrite Es2. assert (file_ok V2 start r') as [] by (by eapply agree_file). by split.
  - by eapply agree_below.
  - rewrite Ez2. apply Hat.
Qed.
End write.

(** * Theorem *)

Lemma nblocks_le off n k : 0 ≤ n ≤ 512 * k → (nblocks off n ≤ S (Z.to_nat k))%nat.
Proof.
  intros Hn. unfold nblocks. pose proof (Z.mod_pos_bound off 512 ltac:(lia)).
  assert ((off mod 512 + n + 511) / 512 < k + 2) by (apply Z.div_lt_upper_bound; lia). lia.
Qed.
Lemma survives_ext {WF : WaitFuel} b d start V V' : (∀ n, 0 ≤ n < start → V' n = V n) →
  survives b d start V → survives b d start V'.
Proof. intros HV (r & R & Hr). exists r. split; [done|]. intros n Hn. rewrite HV by lia. by apply Hr. Qed.

Section theorem.
Context {WF : WaitFuel} (s : kst) (V : Z → list Z) (f : Z) (x : file) (ip : Z) (r : inode) (BM : gset Z) (addr : Z) (data : list Z).

(** What a completed write leaves. *)
Record filewritten (s' : kst) (V' : Z → list Z) (r' : inode) : Prop := {
  fw_at : file_at s' V' f (set_f_off (f_off x + zlen data) x) ip r';
  fw_size : i_size r' = Z.max (i_size r) (f_off x + zlen data);
  fw_bytes : ∀ i, 0 ≤ i < i_size r' → Some (fbyte V' r' i) =
    if decide (f_off x ≤ i < f_off x + zlen data) then znth data (i - f_off x) else Some (fbyte V r i);
  fw_disk : ∀ y, same_inode r (dinode_of V (i_inum r) y) → same_inode r' (dinode_of V' (i_inum r) y);
}.

Context (Hat : file_at s V f x ip r).
Context (HBM : bitmap_set V (i_inum r) BM) (HBM2 : (size BM ≤ 2)%nat).
Context (Hlen : 0 < zlen data ≤ write_max) (Hoff : 0 ≤ f_off x ≤ i_size r).
Context (Hmax : f_off x + zlen data ≤ MAXFILE * BSIZE).
Context (Hfree : has_free V (lg_start (fs_log (k_fs s))) (2 * nblocks (f_off x) (zlen data))).
Context (Haddr : 0 ≤ addr ∧ addr + zlen data < 2 ^ 64).
Context (Hdata : ∀ i b, data !! i = Some b → ubyte s (addr + Z.of_nat i) = Some b).

Lemma write_cost : (log_cost BM ∅ (busied r) + nblocks (f_off x) (zlen data) + 2 < 10)%nat.
Proof.
  change write_max with (512 * 3) in Hlen. pose proof (nblocks_le (f_off x) (zlen data) 3 ltac:(lia)).
  unfold log_cost. rewrite union_empty_l_L. unfold indset. change (ind (busied r)) with (ind r).
  destruct (Z.eqb_spec (ind r) 0).
  - rewrite union_empty_r_L. lia.
  - assert (size (BM ∪ {[ind r]} : gset Z) ≤ size BM + size ({[ind r]} : gset Z))%nat by (rewrite size_union_alt; pose proof (subseteq_size ({[ind r]} ∖ BM) {[ind r]} ltac:(set_solver)); lia).
    rewrite size_singleton in *. lia.
Qed.

(** One round of the loop, from the first byte to the commit. *)
Lemma write_round : ∃ s' V' r' W c, filewrite_loop (S (Z.to_nat (zlen data) - 1)) f addr (zlen data) 0 s = Ok (zlen data) s' ∧
  filewritten s' V' r' ∧ io_writes (lg_bio (fs_log (k_fs s'))) = io_writes (lg_bio (fs_log (k_fs s))) ++ W ∧
  ∀ b k, idle b → log_lock ∉ m_held (b_mach b) →
    survives b (apply_writes (io_disk (lg_bio (fs_log (k_fs s)))) (take k W)) (lg_start (fs_log (k_fs s)))
      (if decide (k ≤ c)%nat then V else V').
Proof.
  pose proof Hat as [F1 F2 F3 F4 F5 F6 F7 F8 F9 F10 F11 F12 F13 F14 F15 F16].
  destruct (write_begin s V f x ip r Hat) as (t & g & R1 & R2 & Hop & St & Ei).
  destruct (writei_ok (LF:=lens_k_fs) (set_k_fs g s) BM V ∅ ip (busied r) data (f_off x) Hop HBM) as (h & V1 & L1 & r1 & R3 & Hw); try done.
  { simpl. by rewrite (sp_start _ _ St). } { apply write_cost. }
  destruct (busied_flags r) as [B1 B2]. rewrite F9 in B2.
  pose proof Hw as [W1 W2 W3 W4 W5 W6 W7 W8 [W9 W10]]. simpl in W2, W3.
  assert (Hfl : i_flags r1 = i_flags (busied r) ∧ i_ref r1 = i_ref r ∧ i_size r1 = Z.max (i_size r) (f_off x + zlen data)) by (by rewrite W5).
  destruct Hfl as (Hfl & Hrf & Hsz).
  set (fx := zupd f (set_f_off (f_off x + zlen data) x) (k_file s)).
  destruct (write_end s V f x ip r Hat h V1 L1 r1 fx) as (u & t2 & V2 & W & c & E1 & E2 & E3 & E4 & E5 & E6); try done.
  { by etrans; [exact St|apply W2]. } { by rewrite <- B1; unfold iflag; rewrite Hfl. } { by rewrite <- B2; unfold iflag; rewrite Hfl. }
  { by rewrite Hrf. } { apply W10. set_solver. }
  assert (Hfx : znth fx f = Some (set_f_off (f_off x + zlen data) x)) by (apply znth_zupd; by eapply znth_Some).
  exists (set_k_fs (set_fs_log t2 u) (set_k_file fx (set_k_fs h s))), V2, (unbusied r1), W, c. split; [|split; [|split; [exact E5|]]].
  - cbn [filewrite_loop]. destruct (Z.ltb_spec 0 (zlen data)); [|lia]. rewrite Z.sub_0_r.
    destruct (Z.ltb_spec write_max (zlen data)); [lia|].
    rewrite (bind_ok _ _ _ _ _ (zoom_klog _ s _ _ R1)).
    set (s1 := set_k_fs (set_fs_log t (k_fs s)) s).
    rewrite (bind_ok _ _ _ _ _ (get_file_ok s1 f x F1)).
    rewrite F3. rewrite (bind_ok _ _ _ _ _ (zoom_kfs _ s1 _ _ R2)). cbn [must].
    change (set_k_fs g s1) with (set_k_fs g s).
    rewrite (bind_ok _ _ _ ip (set_k_fs g s)) by done. rewrite Z.add_0_r, u64_small by lia.
    replace (Z.to_nat (zlen data)) with (length data) by (unfold zlen; lia).
    rewrite (bind_ok _ _ _ data (set_k_fs g s)).
    2: { apply uload_ok; [lia|lia|]. intros i b Hb. rewrite ubyte_fs; [by apply Hdata|]. apply (sp_env _ _ St). }
    rewrite (bind_ok _ _ _ _ _ (get_file_ok (set_k_fs g s) f x F1)).
    rewrite (bind_ok _ _ _ _ _ R3). destruct (Z.ltb_spec 0 (zlen data)); [|lia]. cbn [when]. change (lset h (set_k_fs g s)) with (set_k_fs h s).
    rewrite (bind_ok _ _ _ _ _ (upd_file_ok (set_k_fs h s) f x _ F1)). cbn [k_file set_k_fs].
    rewrite u32_small by (change (MAXFILE * BSIZE) with 71680 in Hmax; lia). fold fx. rewrite F3.
    set (s2 := set_k_file fx (set_k_fs h s)). rewrite (bind_ok _ _ _ _ _ (zoom_kfs _ s2 _ _ E1)).
    rewrite (bind_ok _ _ _ _ _ (zoom_klog _ (set_k_fs u s2) _ _ E2)).
    destruct (Z.ltb_spec (zlen data) 0); [lia|]. rewrite Z.eqb_refl. cbn [negb panic_if].
    rewrite (bind_ok _ _ _ tt _) by done. destruct (length data - 1)%nat; cbn [filewrite_loop];
      (destruct (Z.ltb_spec (0 + zlen data) (zlen data)); [lia|]); by rewrite Z.add_0_l.
  - pose proof (start_1 s V f x ip r Hat) as Hst. pose proof (sp_start _ _ St) as Es.
    pose proof (sp_start _ _ (proj1 W2)) as Es2. rewrite Es in Es2.
    assert (Hg1 : fsgeo V1 (lg_start (fs_log (k_fs s)))) by (rewrite <- Es2; apply W1).
    assert (Hf1 : file_ok V1 (lg_start (fs_log (k_fs s))) r1) by (rewrite <- Es2; apply W1).
    split; [by apply E3|done| |].
    + intros i Hi. change (fbyte V2 (unbusied r1) i) with (fbyte V2 r1 i). rewrite (agree_fbyte V1 V2 _ E4 Hg1 r1 Hf1) by done.
      by apply W6.
    + intros y Hy. specialize (W8 y Hy). unfold dinode_of in *. rewrite E4; [exact W8|].
      destruct F15 as (Hi & Hs & Hlt). specialize (Hlt 0 ltac:(lia)). pose proof (g_bm _ _ F13 0 ltac:(lia)).
      unfold iblock in *. pose proof (Z.div_pos (i_inum r) 8). lia.
  - intros b k Hb1 Hb2. specialize (E6 b k Hb1 Hb2). destruct (decide (k ≤ c)%nat); [exact E6|by eapply survives_ext].
Qed.

(** C1: a write of up to [write_max] bytes to an open file returns the number of
    bytes, advances the file's offset by it and leaves the new bytes in place of
    the old ones, on the disk when it returns; after a crash at any point of its
    disk writes the file system holds either all of the old or all of the new
    contents. *)
Theorem filewrite_atomic : f_writable x ≠ 0 →
  ∃ s' V' r' W c, filewrite f addr (zlen data) s = Ok (zlen data) s' ∧ filewritten s' V' r' ∧
    io_writes (lg_bio (fs_log (k_fs s'))) = io_writes (lg_bio (fs_log (k_fs s))) ++ W ∧
    ∀ b k, idle b → log_lock ∉ m_held (b_mach b) →
      survives b (apply_writes (io_disk (lg_bio (fs_log (k_fs s)))) (take k W)) (lg_start (fs_log (k_fs s)))
        (if decide (k ≤ c)%nat then V else V').
Proof.
  intros Hwr. destruct write_round as (s' & V' & r' & W & c & R & H). exists s', V', r', W, c. split; [|exact H].
  unfold filewrite. rewrite (bind_ok _ _ _ _ _ (get_file_ok s f x (fa_file _ _ _ _ _ _ Hat))).
  destruct (Z.eqb_spec (f_writable x) 0); [done|]. rewrite (fa_type _ _ _ _ _ _ Hat).
  replace (S (Z.to_nat (zlen data) - 1)) with (Z.to_nat (zlen data)) in R by lia.
  rewrite (bind_ok _ _ _ _ _ R). by rewrite Z.eqb_refl.
Qed.
End theorem.

(** ** Witness *)

#[local] Instance filewrite_fuel : WaitFuel := 0%nat.
Definition demo_quiet : inode := unbusied demo_file.
Definition demo_open : file := File FD_INODE 1 1 1 0 (Some 0) 600.
(** The example image after a boot, with the file open at offset 600 and the
    bytes of "hello" in the memory of the process. *)
Definition demo_write_kst (r : logst) : kst :=
  Kst (FsSt r [demo_quiet]) (Kmem 0 0 0 (replicate 7 (Order NIL 0)) ∅) 0 demo_mem [demo_open] ∅
    (ConsSt (replicate 512 0) 0 0 0 1 []) 0.
Lemma demo_procs_idle : idle (demo_procs [zero_proc]) ∧ log_lock ∉ m_held (b_mach (demo_procs [zero_proc])).
Proof. split; [split; [by split|done|set_solver|set_solver]|set_solver]. Qed.
Lemma demo_booted : ∃ r V, settled r V ∧ (∀ n, 0 ≤ n < 45 → V n = blk demo_img n) ∧ lg_start r = 45 ∧ lg_size r = 15 ∧
  m_held (b_mach (io_base (lg_bio r))) = ∅ ∧ m_ttbr0 (b_mach (io_base (lg_bio r))) = 0x1000.
Proof.
  destruct (boot_ok (demo_procs [zero_proc]) demo_img 45 15 [] (proj1 demo_procs_idle) (proj2 demo_procs_idle)
    (proj1 demo_image_ok) (proj2 demo_image_ok)) as (r & Hrun & Es & Ez & Hs & _).
  exists r, (vapply (blk demo_img) (clear_writes 45 (blk demo_img) [])). split; [exact (Hs (not_elem_of_nil 1))|].
  split; [intros n Hn; simpl; unfold vupd; destruct (Z.eqb_spec n 45); [lia|done]|]. split; [exact Es|]. split; [exact Ez|].
  assert (H : match boot (power_on (demo_procs [zero_proc]) demo_img) with
    | Ok _ s => bool_decide (m_held (b_mach (io_base (lg_bio s))) = ∅) &&
       (m_ttbr0 (b_mach (io_base (lg_bio s))) =? 0x1000) | _ => false end = true) by (vm_compute; reflexivity).
  rewrite Hrun in H. apply andb_prop in H as [H1%bool_decide_eq_true H2%Z.eqb_eq]. exact (conj H1 H2).
Qed.
Lemma demo_file_at r V : settled r V → (∀ n, 0 ≤ n < 45 → V n = blk demo_img n) → lg_start r = 45 → lg_size r = 15 →
  m_held (b_mach (io_base (lg_bio r))) = ∅ → file_at (demo_write_kst r) V 0 demo_open 0 demo_quiet.
Proof.
  intros Hs HV Es Ez Hh. split; cbn [demo_write_kst k_fs fs_log k_file fs_inode]; rewrite ?Es, ?Ez;
    [reflexivity..|exact Hs| |reflexivity|done|reflexivity|reflexivity|reflexivity|by vm_compute|by destruct demo_file_fields| | | |lia].
  - change (k_base (demo_write_kst r)) with (io_base (lg_bio r)). rewrite Hh. apply not_elem_of_empty.
  - apply (agree_fsgeo (blk demo_img) V 45 HV ltac:(lia) demo_fsgeo).
  - apply (agree_file (blk demo_img) V 45 HV ltac:(lia) demo_fsgeo demo_quiet). by destruct demo_file_ok.
  - apply (agree_below (blk demo_img) V 45 HV ltac:(lia) 3 demo_below).
Qed.
Lemma filewrite_atomic_witness : ∃ r s' V' r', filewrite 0 0 5 (demo_write_kst r) = Ok 5 s' ∧
  znth (k_file s') 0 = Some (set_f_off 605 demo_open) ∧ i_size r' = 700 ∧ fbyte V' r' 601 = 101.
Proof.
  destruct demo_booted as (r & V & Hs & HV & Es & Ez & Hh & Ht). exists r.
  destruct (filewrite_atomic (demo_write_kst r) V 0 demo_open 0 demo_quiet {[4]} 0 [104; 101; 108; 108; 111])
    as (s' & V' & r' & _ & _ & R & [Ha Hz Hb _] & _).
  - apply demo_file_at; assumption.
  - destruct demo_bitmap as (B1 & B2 & B3). unfold bitmap_set, bmblock, ninodes, sbsize. rewrite (HV 1) by lia.
    exact (conj B1 (conj B2 B3)).
  - rewrite size_singleton. lia.
  - vm_compute. split; [reflexivity|discriminate].
  - simpl. lia.
  - vm_compute. discriminate.
  - change (lg_start (fs_log (k_fs (demo_write_kst r)))) with (lg_start r). rewrite Es.
    apply (agree_free (blk demo_img) V 45 HV ltac:(lia) demo_fsgeo), (has_free_le _ _ _ 6); [vm_compute; lia|exact demo_free].
  - split; [lia|vm_compute; reflexivity].
  - intros i b Hi. do 5 (destruct i as [|i]; [simpl in Hi; simplify_eq; unfold ubyte; change (k_base (demo_write_kst r)) with (io_base (lg_bio r)); rewrite Ht; vm_compute; reflexivity|]). discriminate Hi.
  - discriminate.
  - exists s', V', r'. split; [exact R|]. split; [apply Ha|]. split; [rewrite Hz; reflexivity|].
    pose proof (Hb 601 ltac:(rewrite Hz; vm_compute; split; [discriminate|reflexivity])) as Hb1.
    rewrite decide_True in Hb1 by (vm_compute; split; congruence). vm_compute in Hb1. by injection Hb1.
Defined.
