(* ===== verification/Proc.v ===== *)
(** Processes: the life-cycle half of [proc.c] (scheduling is in [Sched],
    [procdump] in [Console]). *)

From S2P Require Import Prelude Spin Sched Mem Str Dll Buddy Bio Log Fs Vm Kernel Console Pipe File.

(** Addresses the linker fixes: the code of [forkret] and [trapret], and the
    first program's image. *)
Class KernelSyms := {
  sym_trapret : Z;
  sym_forkret : Z;
  sym_initcode_start : Z;
  sym_initcode_size : Z;
}.

Definition KSTACKSIZE : Z := 4096.
Definition TRAPFRAME : Z := 34 * 8.           (* sizeof(struct trapframe) *)
Definition CONTEXT : Z := 27 * 8.             (* sizeof(struct context) *)
(** The registers of a trap frame, by their position. *)
Definition TF_SP : Z := 0.
Definition TF_PC : Z := 1.
Definition TF_SPSR : Z := 2.
Definition TF_R0 : Z := 3.
Definition TF_R1 : Z := 4.
Definition TF_R30 : Z := 33.
Definition set_tf (i v : Z) (p : proc) : proc := set_p_tf (zupd i (u64 v) (p_tf p)) p.
(** The words at [a]. *)
Fixpoint ld_words (n : nat) (a : Z) (m : gmap Z Z) : list Z :=
  match n with O => [] | S n => ld64 m a :: ld_words n (u64 (a + 8)) m end.

(** [safestrcpy] of a string into a 16-byte name. *)
Definition safestrcpy_name (name src : list Z) : list Z :=
  ld_bytes 16 0 (safestrcpy (st_bytes 0 name (st_bytes 4096 src ∅)) 0 4096 16).

Definition pinit : M kst unit := binitlock ptable_lock.

Section procs.
Context {WF : WaitFuel} {KS : KernelSyms}.

(** The kernel stack of a new process: the trap frame at its top, below it the
    return address and stack of [forkret], below them the context. *)
Definition setup_kstack (i ks : Z) : M kst unit :=
  let sp := u64 (ks + KSTACKSIZE - TRAPFRAME) in
  let* m := gets k_mem in
  kupd_proc i (set_p_tf (ld_words 34 sp m)) ;;
  let sp := u64 (sp - 8) in
  zoom (store64 sp sym_trapret) ;;
  let sp := u64 (sp - 8) in
  zoom (store64 sp (ks + KSTACKSIZE)) ;;
  let sp := u64 (sp - CONTEXT) in
  kupd_proc i (set_p_context sp) ;;
  zoom (kmemset sp 0 CONTEXT) ;;
  zoom (store64 (u64 (sp + 26 * 8)) (sym_forkret + 8)).

Definition allocproc : M kst (option Z) :=
  bacquire ptable_lock ;;
  let* r := for_to 0 NPROC (fun i =>
    let* p := kproc i in
    ret (if bool_decide (p_state p = UNUSED) then Some i else None)) in
  match r with
  | None => brelease ptable_lock ;; ret None
  | Some i =>
      kupd_proc i (set_p_state EMBRYO) ;;
      let* pid := gets (fun s => b_nextpid (k_base s)) in
      kupd_proc i (set_p_pid pid) ;;
      modify (fun s => set_k_base (set_b_nextpid (s32 (pid + 1)) (k_base s)) s) ;;
      brelease ptable_lock ;;
      let* ks := zoom alloc_page in
      kupd_proc i (set_p_kstack ks) ;;
      if ks =? 0 then kupd_proc i (set_p_state UNUSED) ;; ret None
      else setup_kstack i ks ;; ret (Some i)
  end.

(** ["initcode"], ["/"] *)
Definition str_initcode : list Z := [105; 110; 105; 116; 99; 111; 100; 101].
Definition userinit : M kst unit :=
  let* p := allocproc in
  modify (fun s => set_k_base (set_b_init p (k_base s)) s) ;;
  let* p := must "userinit: p" p in
  let* pgdir := zoom kpt_alloc in
  kupd_proc p (set_p_pgdir pgdir) ;;
  panic_if (pgdir =? 0) "userinit: out of memory?" ;;
  zoom (inituvm pgdir sym_initcode_start (u32 sym_initcode_size)) ;;
  kupd_proc p (set_p_sz PTE_SZ) ;;
  kupd_proc p (set_p_tf (replicate 34 0)) ;;
  kupd_proc p (set_tf TF_SPSR 0) ;;
  kupd_proc p (set_tf TF_SP PTE_SZ) ;;
  kupd_proc p (set_tf TF_R30 0) ;;
  kupd_proc p (set_tf TF_PC 0) ;;
  kupd_proc p (fun r => set_p_name (safestrcpy_name (p_name r) str_initcode) r) ;;
  let* cwd := namei [SLASH] in
  kupd_proc p (set_p_cwd cwd) ;;
  kupd_proc p (set_p_state RUNNABLE).

Definition growproc (n : Z) : M kst Z :=
  let* i := kcur in
  let* p := kproc i in
  let sz := u32 (p_sz p) in
  let* r :=
    (if 0 <? n then
       let* r := zoom (allocuvm (p_pgdir p) sz (u32 (sz + n))) in ret (u32 r)
     else if n <? 0 then
       let* r := zoom (deallocuvm (p_pgdir p) sz (u32 (sz + n))) in ret (u32 r)
     else ret sz) in
  if negb (n =? 0) && (r =? 0) then ret (-1) else
  kupd_proc i (set_p_sz r) ;;
  zoom (switchuvm i) ;;
  ret 0.

(** [if (proc->ofile[i]) np->ofile[i] = filedup(proc->ofile[i])] for every
    descriptor. *)
Definition dup_files (np : Z) : M kst unit :=
  for_all (Z.to_nat NOFILE) 0 (fun i =>
    let* p := kmyproc in
    let* f := must "ofile" (znth (p_ofile p) i) in
    match f with
    | None => ret tt
    | Some f =>
        let* f := filedup f in
        kupd_proc np (fun q => set_p_ofile (zupd i (Some f) (p_ofile q)) q)
    end).
Definition fork : M kst Z :=
  let* np := allocproc in
  match np with
  | None => ret (-1)
  | Some np =>
      let* p := kmyproc in
      let* pgdir := zoom (copyuvm (p_pgdir p) (u32 (p_sz p))) in
      kupd_proc np (set_p_pgdir pgdir) ;;
      if pgdir =? 0 then
        let* q := kproc np in
        zoom (free_page (p_kstack q)) ;;
        kupd_proc np (set_p_kstack 0) ;;
        kupd_proc np (set_p_state UNUSED) ;;
        ret (-1)
      else
        let* cur := kcur in
        let* p := kmyproc in
        kupd_proc np (set_p_sz (p_sz p)) ;;
        kupd_proc np (set_p_parent (Some cur)) ;;
        kupd_proc np (set_p_tf (p_tf p)) ;;
        kupd_proc np (set_tf TF_R0 0) ;;
        dup_files np ;;
        let* p := kmyproc in
        let* cwd := must "proc->cwd" (p_cwd p) in
        let* cwd := zoom (idup cwd) in
        kupd_proc np (set_p_cwd (Some cwd)) ;;
        let* q := kproc np in
        let pid := p_pid q in
        kupd_proc np (set_p_state RUNNABLE) ;;
        let* p := kmyproc in
        kupd_proc np (fun q => set_p_name (safestrcpy_name (p_name q) (str_of (p_name p))) q) ;;
        ret pid
  end.

(** [if (p->parent == proc)] reparents [i]; a zombie's new parent is woken. *)
Definition reparent (cur : Z) (i : Z) : M base unit :=
  let* p := get_proc i in
  when (bool_decide (p_parent p = Some cur)) (
    let* ini := gets b_init in
    upd_proc i (set_p_parent ini) ;;
    when (bool_decide (p_state p = ZOMBIE))
      (match ini with Some j => wakeup1 (proc_chan j) | None => ret tt end)).
(** The part of [exit] under [ptable.lock], up to the switch. *)
Definition exit_tail : M base unit :=
  bacquire ptable_lock ;;
  let* cur := myproc in
  let* p := get_proc cur in
  (match p_parent p with Some j => wakeup1 (proc_chan j) | None => ret tt end) ;;
  for_all (Z.to_nat NPROC) 0 (reparent cur) ;;
  upd_proc cur (set_p_state ZOMBIE) ;;
  sched ;;
  panic "zombie exit".
Definition exit : M kst unit :=
  let* cur := kcur in
  let* ini := gets (fun s => b_init (k_base s)) in
  panic_if (bool_decide (ini = Some cur)) "init exiting" ;;
  for_all (Z.to_nat NOFILE) 0 (fun fd =>
    let* p := kmyproc in
    let* f := must "ofile" (znth (p_ofile p) fd) in
    match f with
    | None => ret tt
    | Some f =>
        fileclose f ;;
        let* cur := kcur in
        kupd_proc cur (fun q => set_p_ofile (zupd fd None (p_ofile q)) q)
    end) ;;
  let* p := kmyproc in
  let* cwd := must "proc->cwd" (p_cwd p) in
  zoom (iput cwd) ;;
  let* cur := kcur in
  kupd_proc cur (set_p_cwd None) ;;
  zoom exit_tail.

(** A zombie child is freed; its pid is the result. *)
Definition reap (i : Z) : M kst Z :=
  let* p := kproc i in
  let pid := p_pid p in
  zoom (free_page (p_kstack p)) ;;
  kupd_proc i (set_p_kstack 0) ;;
  zoom (freevm (p_pgdir p)) ;;
  kupd_proc i (set_p_state UNUSED) ;;
  kupd_proc i (set_p_pid 0) ;;
  kupd_proc i (set_p_parent None) ;;
  kupd_proc i (fun q => set_p_name (zupd 0 0 (p_name q)) q) ;;
  kupd_proc i (set_p_killed 0) ;;
  brelease ptable_lock ;;
  ret pid.
(** The scan of the table: the pid of a zombie child reaped, or whether there
    are children at all. *)
Fixpoint wait_scan (n : nat) (i : Z) (havekids : bool) : M kst (Z + bool) :=
  match n with
  | O => ret (inr havekids)
  | S n =>
      let* p := kproc i in
      let* cur := kcur in
      if negb (bool_decide (p_parent p = Some cur)) then wait_scan n (i + 1) havekids
      else if bool_decide (p_state p = ZOMBIE) then let* pid := reap i in ret (inl pid)
      else wait_scan n (i + 1) true
  end.
Fixpoint wait_loop (fuel : nat) : M kst Z :=
  match fuel with
  | O => out_of_fuel
  | S fuel =>
      let* r := wait_scan (Z.to_nat NPROC) 0 false in
      match r with
      | inl pid => ret pid
      | inr havekids =>
          let* p := kmyproc in
          if negb havekids || ztrue (p_killed p) then brelease ptable_lock ;; ret (-1)
          else
            let* cur := kcur in
            zoom (sleep (proc_chan cur) (Some ptable_lock)) ;;
            wait_loop fuel
      end
  end.
Definition wait : M kst Z := bacquire ptable_lock ;; wait_loop (S wait_fuel).

(** [forkret]: [first] is its static variable; the log is initialised by the
    first process to run. *)
Definition forkret (first : Z) : M kst Z :=
  brelease ptable_lock ;;
  if ztrue first then zoom initlog ;; ret 0 else ret first.
End procs.
