(* ===== verification/Reap.v ===== *)
(** The memory of a dead process: [wait] of [proc.c] gives back its kernel stack, its
    pages and its page tables when it frees its slot. *)

From S2P Require Import Prelude Spin Sched Mem Str Dll Buddy Bio Log Fs Vm Pgtab Uvm Freevm Kernel Console Pipe File Proc.

Section reap.
Context (N NB : Z).

(** What the zombie [q] still owns: an address space with the pages [ps], and a
    kernel stack. *)
Record dead_memory (v : vmst) (q : proc) (R : gmap Z role) (F ps : list Z) : Prop := {
  dm_space : space N NB v (p_pgdir q) R F;
  dm_owns : owns N NB v (p_pgdir q) 0 ps;
  dm_size : 4096 * zlen ps ≤ UADDR_SZ;
  dm_rest : ∀ va, 4096 * zlen ps ≤ va < UADDR_SZ → Z.land (ptes (v_mem v) (p_pgdir q) va) 3 = 0;
  dm_low : ∀ t, is_Some (R !! t) → t < p2v INIT_KERNMAP;
  dm_tidy : tidy (v_mem v) R;
  dm_stack : ∃ b, 0 ≤ b < NB ∧ p_kstack q = addr (h_kmem (v_heap v)) 12 b;
  dm_held : held N NB (h_kmem (v_heap v)) (p_kstack q);
  dm_apart : p_kstack q ∉ ps;
}.
(** Between [v] and [v'] all of it was given back. *)
Record buried (v : vmst) (q : proc) (R : gmap Z role) (F ps : list Z) (v' : vmst) : Prop := {
  bu_tables : ∃ F', chain (v_mem v') (v_freelist v') F' ∧ F' ≡ₚ tables (v_mem v) (p_pgdir q) ++ F ∧ NoDup F';
  bu_heap : heap_ok N NB (v_heap v');
  bu_free : ∀ u, indom NB u → free_at N (h_kmem (v_heap v')) u ↔
    free_at N (h_kmem (v_heap v)) u ∨ ∃ p, p ∈ p_kstack q :: ps ∧ p ≤ k_start_heap (h_kmem (v_heap v)) + u < p + 4096;
  bu_frame : ∀ t x, kva t → R !! t = None → t ∉ F → t ≤ x < t + 4096 → ld8 (v_mem v') x = ld8 (v_mem v) x;
}.

(** Masking interrupts and other locks do not matter to a space. *)
Lemma space_mach v pgd R F m : space N NB v pgd R F → cli_wf m → kpt_lock ∉ m_held m → kmem_lock ∉ m_held m →
  space N NB (VmSt (Kheap m (h_kmem (v_heap v))) (v_freelist v) (v_mem v)) pgd R F.
Proof. intros [S1 S2 S3 [S4 _] S5 S6] H1 H2 H3. split; try done. Qed.

(** The stack goes first; the space is as it was. *)
Lemma bury_stack v q R F ps : dead_memory v q R F ps → ∃ h', free_page (p_kstack q) (v_heap v) = Ok tt h' ∧
  h_mach h' = saved (h_mach (v_heap v)) ∧ space N NB (set_v_heap h' v) (p_pgdir q) R F ∧ owns N NB (set_v_heap h' v) (p_pgdir q) 0 ps ∧
  k_start_heap (h_kmem h') = k_start_heap (h_kmem (v_heap v)) ∧
  ∀ u, indom NB u → free_at N (h_kmem h') u ↔ free_at N (h_kmem (v_heap v)) u ∨ p_kstack q ≤ k_start_heap (h_kmem (v_heap v)) + u < p_kstack q + 4096.
Proof.
  intros [[S1 S2 S3 S4 S5 S6] [O1 O2 O3 O4] _ _ _ _ (b & Hb & Eb) Hh Ha].
  destruct (free_ok N NB v b S4 Hb ltac:(by rewrite <- Eb)) as (h' & Rf & Hok & Hbd & Hm & Hf). exists h'.
  apply zoom_Ok_inv in Rf as [Rf _]. rewrite <- Eb in Rf. pose proof (same_start _ _ Hbd) as Est. destruct S3 as [Q1 Q2]. destruct (saved_wf _ Q1) as (Q1' & Q2' & _).
  assert (Hf' : ∀ u, indom NB u → free_at N (h_kmem h') u ↔ free_at N (h_kmem (v_heap v)) u ∨ p_kstack q ≤ k_start_heap (h_kmem (v_heap v)) + u < p_kstack q + 4096).
  { intros u Hu. by rewrite (Hf u Hu), Eb, frame_byte. }
  split; [exact Rf|]. split; [done|]. split; [|split; [|done]].
  - split; simpl; [done..| |done| |].
    + split; simpl; rewrite Hm; [done|by rewrite Q2'].
    + by rewrite Est.
    + intros t Ht. rewrite Est. by apply S6.
  - split; simpl; [done| | |done].
    + intros p Hp. destruct (O2 p Hp) as (c & Hc & ->). exists c. split; [done|]. unfold addr. by rewrite Est.
    + intros p Hp u Hu. rewrite Est. intros Hpu. rewrite (Hf' u Hu). intros [Hfr|Hst]; [by apply (O3 p Hp u)|].
      destruct (O2 p Hp) as (c & Hc & Ec). assert (Hne : p ≠ p_kstack q) by (by intros ->).
      apply (kva_disjoint p (p_kstack q) (k_start_heap (h_kmem (v_heap v)) + u) (k_start_heap (h_kmem (v_heap v)) + u)); try done.
      * rewrite Ec. by apply (frame_kva N NB (v_heap v) c).
      * rewrite Eb. by apply (frame_kva N NB (v_heap v) b).
Qed.

(** ** [reap] *)

(** Only the process table, the memory and the CPU changed. *)
Record kept (s s' : kst) : Prop := {
  kp_frame : s' = set_k_base (k_base s') (set_k_vm (k_vm s') s);
  kp_cur : b_cur (k_base s') = b_cur (k_base s);
  kp_init : b_init (k_base s') = b_init (k_base s);
  kp_next : b_nextpid (k_base s') = b_nextpid (k_base s);
}.
Lemma kept_trans s1 s2 s3 : kept s1 s2 → kept s2 s3 → kept s1 s3.
Proof.
  intros [F1 C1 I1 N1] [F2 C2 I2 N2]. split; [|congruence..]. rewrite F2 at 1. rewrite F1 at 1.
  by destruct s1 as [[[[[] ? ? ?] ? ? ? ? ? ?] ?]].
Qed.
Lemma kept_base b s : b_cur b = b_cur (k_base s) → b_init b = b_init (k_base s) → b_nextpid b = b_nextpid (k_base s) → kept s (set_k_base b s).
Proof. intros. split; rewrite ?set_k_base_base; done. Qed.
Lemma kept_vm v s : kept s (set_k_vm v s).
Proof. split; by destruct s as [[[[[] ? ? ?] ? ? ? ? ? ?] ?]], v as [[] ? ?]. Qed.

(** Changing a process leaves memory alone. *)
Lemma kupd_step i f p s : znth (b_procs (k_base s)) i = Some p → ∃ s', kupd_proc i f s = Ok tt s' ∧ k_vm s' = k_vm s ∧
  znth (b_procs (k_base s')) i = Some (f p) ∧ b_procs (k_base s') = zupd i (f p) (b_procs (k_base s)) ∧ kept s s'.
Proof.
  intros H. eexists. split; [by apply kupd_proc_ok|]. rewrite set_k_base_base. split; [unfold k_vm; by rewrite set_k_base_base|].
  split; [apply znth_zupd; by eapply znth_Some|]. split; [done|]. by apply kept_base.
Qed.
Lemma k_vm_set v s : k_vm (set_k_vm v s) = v.
Proof. exact (@lget_lset _ _ lens_k_vm v s). Qed.
Lemma procs_set_vm v s : b_procs (k_base (set_k_vm v s)) = b_procs (k_base s).
Proof. by destruct s as [[[[[] ? ? ?] ? ? ? ? ? ?] ?]]. Qed.
(** Giving back the lock under which the slot is freed. *)
Lemma krelease_held lk m s : b_mach (k_base s) = locked lk m → cli_wf m → lk ∉ m_held m → ∃ s', brelease lk s = Ok tt s' ∧
  v_mem (k_vm s') = v_mem (k_vm s) ∧ v_freelist (k_vm s') = v_freelist (k_vm s) ∧ v_heap (k_vm s') = Kheap (saved m) (h_kmem (v_heap (k_vm s))) ∧
  b_procs (k_base s') = b_procs (k_base s) ∧ kept s s'.
Proof.
  intros Em Hw Hl. unfold brelease. eexists. split; [apply zoom_kbase; unfold zoom; simpl; rewrite Em, release_locked by done; reflexivity|].
  rewrite set_k_base_base. unfold k_vm at 1 3 5. rewrite set_k_base_base. do 4 (split; [done|]). by apply kept_base.
Qed.

(** The slot after the process in it, [q], was collected. *)
Definition freed_slot (q : proc) : proc :=
  set_p_killed 0 (set_p_name (zupd 0 0 (p_name q)) (set_p_parent None (set_p_pid 0 (set_p_state UNUSED (set_p_kstack 0 q))))).
(** The kernel [s] after slot [i] was freed; the memory is that of [s']. *)
Definition collected (m : mach) (s : kst) (i : Z) (q : proc) (s' : kst) : Prop :=
  s' = set_k_base (Base m (zupd i (freed_slot q) (b_procs (k_base s))) (b_cur (k_base s)) (b_init (k_base s)) (b_nextpid (k_base s)))
    (set_k_vm (k_vm s') s).
Lemma reap_ok i m s q R F ps : znth (b_procs (k_base s)) i = Some q → b_mach (k_base s) = locked ptable_lock m → cli_wf m → ptable_lock ∉ m_held m →
  dead_memory (k_vm s) q R F ps → ∃ s', reap i s = Ok (p_pid q) s' ∧ buried (k_vm s) q R F ps (k_vm s') ∧ collected (saved m) s i q s'.
Proof.
  intros Hq Em Hw Hl Hd. assert (Hnc : 0 < m_ncli (locked ptable_lock m)) by (destruct Hw as [Hw _]; unfold locked, pushed; simpl; lia).
  destruct (bury_stack _ _ _ _ _ Hd) as (h' & R1 & Hm1 & Hsp & How & Hst & Hf1).
  change (h_mach (v_heap (k_vm s))) with (b_mach (k_base s)) in Hm1. rewrite Em, saved_id in Hm1 by done.
  set (s1 := set_k_vm (set_v_heap h' (k_vm s)) s).
  assert (Hq1 : znth (b_procs (k_base s1)) i = Some q) by (unfold s1; by rewrite procs_set_vm).
  destruct (kupd_step i (set_p_kstack 0) q s1 Hq1) as (s2 & R2 & Ev2 & Hq2 & P2 & K2). unfold s1 in Ev2. rewrite k_vm_set in Ev2.
  destruct (freevm_ok N NB (p_pgdir q) (set_v_heap h' (k_vm s)) R F ps Hsp How) as (v3 & R3 & H3); [apply Hd..|]. rewrite <- Ev2 in R3.
  set (s3 := set_k_vm v3 s2). assert (Hq3 : znth (b_procs (k_base s3)) i = Some (set_p_kstack 0 q)) by (unfold s3; by rewrite procs_set_vm).
  destruct (kupd_step i (set_p_state UNUSED) _ s3 Hq3) as (s4 & R4 & Ev4 & Hq4 & P4 & K4). destruct (kupd_step i (set_p_pid 0) _ s4 Hq4) as (s5 & R5 & Ev5 & Hq5 & P5 & K5).
  destruct (kupd_step i (set_p_parent None) _ s5 Hq5) as (s6 & R6 & Ev6 & Hq6 & P6 & K6).
  destruct (kupd_step i (fun q => set_p_name (zupd 0 0 (p_name q)) q) _ s6 Hq6) as (s7 & R7 & Ev7 & Hq7 & P7 & K7).
  destruct (kupd_step i (set_p_killed 0) _ s7 Hq7) as (s8 & R8 & Ev8 & _ & P8 & K8).
  assert (Ev : k_vm s8 = v3) by (rewrite Ev8, Ev7, Ev6, Ev5, Ev4; apply k_vm_set).
  assert (Em8 : b_mach (k_base s8) = locked ptable_lock m).
  { change (b_mach (k_base s8)) with (h_mach (v_heap (k_vm s8))). rewrite Ev, (gb_mach _ _ _ _ _ _ _ _ H3); simpl; by rewrite Hm1. }
  destruct (krelease_held ptable_lock m s8 Em8 Hw Hl) as (s9 & R9 & E1 & E2 & E3 & P9 & K9). exists s9. rewrite Ev in E1, E2, E3. split; [|split].
  - unfold reap. rewrite (bind_ok _ _ _ _ _ (kproc_ok _ _ _ Hq)).
    rewrite (bind_ok _ _ _ tt s1) by exact (zoom_ok (H:=lens_k_heap) _ s _ _ R1). rewrite (bind_ok _ _ _ _ _ R2).
    rewrite (bind_ok _ _ _ tt s3) by exact (zoom_ok (H:=lens_k_vm) _ s2 _ _ R3).
    rewrite (bind_ok _ _ _ _ _ R4), (bind_ok _ _ _ _ _ R5), (bind_ok _ _ _ _ _ R6), (bind_ok _ _ _ _ _ R7), (bind_ok _ _ _ _ _ R8), (bind_ok _ _ _ _ _ R9). done.
  - destruct H3 as [G1 G2 G3 G4 G5 G6 G7 G8]. cbn [v_heap v_mem set_v_heap] in *. split; rewrite ?E1, ?E2, ?E3; [done| | |done].
    + destruct G3 as (G31 & G32 & G33). rewrite G6, Hm1 in G32, G33 by (by rewrite Hm1). split; [done|]. simpl. destruct (saved_wf _ Hw) as (W1 & W2 & _).
      split; [done|]. rewrite W2. unfold locked in G33. simpl in G33. set_solver.
    + intros u Hu. rewrite (G7 u Hu), (Hf1 u Hu), Hst. setoid_rewrite elem_of_cons. naive_solver.
  - assert (K : kept s s9).
    { do 6 (eapply kept_trans; [|eassumption]). eapply kept_trans; [|apply (kept_vm v3)]. eapply kept_trans; [|exact K2]. apply kept_vm. }
    unfold collected. rewrite (kp_frame _ _ K) at 1. f_equal. destruct K as [_ C I Nx]. destruct (k_base s9) as [m9 l9 c9 i9 n9] eqn:Eb. cbn [b_cur b_init b_nextpid b_procs] in *.
    assert (m9 = saved m) as ->. { change m9 with (b_mach (Base m9 l9 c9 i9 n9)). rewrite <- Eb. change (b_mach (k_base s9)) with (h_mach (v_heap (k_vm s9))). by rewrite E3. }
    subst c9 i9 n9. f_equal. rewrite P9, P8, P7, P6, P5, P4. unfold s3. rewrite procs_set_vm, P2. unfold s1. rewrite procs_set_vm, !zupd_zupd. done.
Qed.
End reap.
