(* ===== verification/Life.v ===== *)
(** The end of a process: [exit] and [wait] of [proc.c].

    The parent links make the process table a forest.  [exit] moves the children of
    the process to [init] and leaves the process as a zombie of its own parent, whom
    it wakes; [wait] takes a zombie child off the table, or sleeps when there are
    only living ones.  [ptable.lock] is held across the decision and the switch, so
    that no wakeup is lost between the two. *)

From S2P Require Import Prelude Spin Sched Scheduler Mem Str Dll Buddy Bio Log Tx Fs Inode Vm Pgtab Uvm Freevm Kernel Console Pipe File Proc Reap.

(** * The scan of [exit] *)

(** [q'] differs from [q] in parent and state only. *)
Definition relinked (q q' : proc) : Prop := q' = set_p_parent (p_parent q') (set_p_state (p_state q') q).
Lemma readopted_trans q1 q2 q3 : relinked q1 q2 → relinked q2 q3 → relinked q1 q3.
Proof. unfold relinked. intros E1 E2. rewrite E2 at 1. rewrite E1 at 1. by destruct q1, q2, q3. Qed.
Lemma relinked_fields q q' : relinked q q' → p_pid q' = p_pid q ∧ p_chan q' = p_chan q.
Proof. intros ->. done. Qed.
Lemma wake_one_relinked c q : relinked q (wake_one c q).
Proof. unfold relinked, wake_one. destruct (sleeps_on c q); by destruct q. Qed.
Lemma set_parent_relinked v q : relinked q (set_p_parent v q).
Proof. unfold relinked. by destruct q. Qed.
Lemma wake_one_same c q : p_parent (wake_one c q) = p_parent q ∧ p_chan (wake_one c q) = p_chan q ∧
  (p_state (wake_one c q) = p_state q ∨ (p_state q = SLEEPING ∧ p_chan q = Some c) ∧ p_state (wake_one c q) = RUNNABLE).
Proof.
  unfold wake_one, sleeps_on. case_bool_decide as H; [|by repeat split; left]. repeat split. by right.
Qed.
Lemma wake_one_up c q : p_state q = SLEEPING → p_chan q = Some c → p_state (wake_one c q) = RUNNABLE.
Proof. intros H1 H2. unfold wake_one, sleeps_on. by rewrite bool_decide_eq_true_2. Qed.
Lemma wake_one_zombie c q : p_state (wake_one c q) = ZOMBIE ↔ p_state q = ZOMBIE.
Proof. destruct (wake_one_same c q) as (_ & _ & [->|[[H1 _] H2]]); [done|]. rewrite H1, H2. done. Qed.
Lemma znth_wake c l i : znth (wake_one c <$> l) i = wake_one c <$> znth l i.
Proof. unfold znth. destruct (0 <=? i); [|done]. apply list_lookup_fmap. Qed.

Section reparent.
Context (cur ini : Z) (l0 : list proc).
(** A zombie child of [cur] among the first [k] slots. *)
Definition orphan (k : Z) : Prop := ∃ i q, i < k ∧ znth l0 i = Some q ∧ p_parent q = Some cur ∧ p_state q = ZOMBIE.
(** [q] sleeps in [wait] as [ini] does, and there is something to wait for. *)
Definition roused_init (k : Z) (q : proc) : Prop := p_state q = SLEEPING ∧ p_chan q = Some (proc_chan ini) ∧ orphan k.
(** Slot [i], which held [q], when the scan has reached [k]. *)
Record adopted (k i : Z) (q q' : proc) : Prop := {
  ad_parent : p_parent q' = if decide (i < k ∧ p_parent q = Some cur) then Some ini else p_parent q;
  ad_rest : relinked q q';
  ad_state : p_state q' = p_state q ∨ roused_init k q ∧ p_state q' = RUNNABLE;
  ad_wake : roused_init k q → p_state q' = RUNNABLE;
}.
Definition scanned (b0 : base) (k : Z) (b : base) : Prop :=
  (∃ l, b = set_b_procs l b0 ∧ zlen l = zlen l0) ∧
  ∀ i q, znth l0 i = Some q → ∃ q', znth (b_procs b) i = Some q' ∧ adopted k i q q'.

Lemma orphan_mono k : orphan k → orphan (k + 1).
Proof. intros (i & q & Hi & H). exists i, q. split; [lia|done]. Qed.
Lemma adopted_skip k i q q' : adopted k i q q' → (i = k → p_parent q ≠ Some cur) → (orphan (k + 1) → orphan k) → adopted (k + 1) i q q'.
Proof.
  intros [H1 H2 H3 H4] Hi Ho. split; [|done| |intros (R1 & R2 & R3); apply H4; by repeat split; auto].
  - rewrite H1. destruct (decide (i < k ∧ p_parent q = Some cur)) as [H|H], (decide (i < k + 1 ∧ p_parent q = Some cur)) as [H'|H']; try done; [exfalso; apply H'; destruct H; split; [lia|done]|].
    destruct H' as [H' Hp]. exfalso. apply H. split; [|done]. assert (i ≠ k) by (intros E; by apply Hi in E). lia.
  - destruct H3 as [H3|[(R1 & R2 & R3) H3]]; [by left|right]. split; [|done]. repeat split; auto using orphan_mono.
Qed.
Lemma reparent_step b0 k b : b_init b0 = Some ini → scanned b0 k b → 0 ≤ k < zlen l0 → ∃ b', reparent cur k b = Ok tt b' ∧ scanned b0 (k + 1) b'.
Proof.
  intros Hini [(l & -> & Hl) Hs] Hk. destruct (znth_is_Some l0 k Hk) as [q Hq]. destruct (Hs k q Hq) as (q' & Hq' & Ha). simpl in Hq', Hs.
  assert (Hp : p_parent q' = p_parent q) by (rewrite (ad_parent _ _ _ _ Ha), decide_False by lia; done).
  unfold reparent. rewrite (bind_ok _ _ _ _ _ (get_proc_ok k q' (set_b_procs l b0) Hq')), Hp. destruct (decide (p_parent q = Some cur)) as [Hc|Hc].
  2: { rewrite bool_decide_eq_false_2 by done. eexists. split; [done|]. split; [by exists l|]. intros i r Hr.
       destruct (Hs i r Hr) as (r' & Hr' & Har). exists r'. split; [done|]. apply adopted_skip; [done|intros ->; congruence|].
       intros (j & z & Hj & Hz & Hz1 & Hz2). exists j, z. split; [|done]. assert (j ≠ k) by (intros ->; congruence). lia. }
  rewrite bool_decide_eq_true_2, when_true by done. rewrite (bind_ok _ _ _ (Some ini) (set_b_procs l b0)) by (unfold gets; simpl; by rewrite Hini).
  rewrite (bind_ok _ _ _ _ _ (upd_proc_ok k q' (set_p_parent (Some ini)) (set_b_procs l b0) Hq')). cbn [b_procs set_b_procs].
  set (l1 := zupd k (set_p_parent (Some ini) q') l).
  assert (H1 : ∀ i r, znth l0 i = Some r → ∃ r', znth l1 i = Some r' ∧ relinked r r' ∧
    (p_state r' = p_state r ∨ roused_init k r ∧ p_state r' = RUNNABLE) ∧ (roused_init k r → p_state r' = RUNNABLE) ∧
    p_parent r' = if decide (i < k + 1 ∧ p_parent r = Some cur) then Some ini else p_parent r).
  { intros i r Hr. destruct (Hs i r Hr) as (r' & Hr' & [A1 A2 A3 A4]). unfold l1. destruct (decide (i = k)) as [->|Hne].
    - rewrite Hq in Hr. injection Hr as <-. rewrite Hq' in Hr'. injection Hr' as <-. exists (set_p_parent (Some ini) q').
      split; [apply znth_zupd; lia|]. split; [eapply readopted_trans, set_parent_relinked; done|]. do 2 (split; [done|]).
      rewrite decide_True by (split; [lia|done]). done.
    - exists r'. rewrite znth_zupd_ne by done. do 4 (split; [done|]). rewrite A1.
      destruct (decide (i < k ∧ _)) as [[? ?]|H], (decide (i < k + 1 ∧ _)) as [[? ?]|H']; try done; exfalso; [apply H'|apply H]; (split; [lia|done]). }
  assert (Hzom : p_state q' = ZOMBIE ↔ p_state q = ZOMBIE) by (destruct (ad_state _ _ _ _ Ha) as [->|[(E1 & _) E2]]; [done|rewrite E1, E2; done]).
  assert (Hup : ∀ r, roused_init k r → roused_init (k + 1) r) by (intros r (? & ? & ?); repeat split; auto using orphan_mono).
  case_bool_decide as Hz.
  - eexists. split; [reflexivity|]. split; [exists (wake_one (proc_chan ini) <$> l1); split; [done|]; unfold zlen at 1; rewrite length_fmap; fold (zlen l1); unfold l1; by rewrite zlen_zupd|].
    assert (Ho : orphan (k + 1)) by (exists k, q; split; [lia|]; by rewrite <- Hzom).
    simpl. intros i r Hr. destruct (H1 i r Hr) as (r' & Hr' & B2 & B3 & B4 & B1). exists (wake_one (proc_chan ini) r'). rewrite znth_wake, Hr'. split; [done|].
    destruct (wake_one_same (proc_chan ini) r') as (W1 & W2 & W3). destruct (relinked_fields _ _ B2) as [_ Hch].
    split; [by rewrite W1|eapply readopted_trans, wake_one_relinked; done| |].
    + destruct W3 as [->|[[W3 W4] W5]]; [destruct B3 as [B3|[B3 B3']]; [by left|right; split; [by apply Hup|done]]|]. right. split; [|done].
      destruct B3 as [B3|[_ B3]]; [|congruence]. split; [congruence|]. split; [congruence|done].
    + intros (R1 & R2 & _). destruct B3 as [B3|[_ B3]]; [apply wake_one_up; congruence|]. by destruct W3 as [->|[_ ->]].
  - eexists. split; [reflexivity|]. split; [exists l1; split; [done|]; unfold l1; by rewrite zlen_zupd|].
    assert (Ho : orphan (k + 1) → orphan k).
    { intros (j & z & Hj & Hz0 & Hz1 & Hz2). exists j, z. split; [|done]. assert (j ≠ k); [|lia]. intros ->. apply Hz, Hzom. congruence. }
    simpl. intros i r Hr. destruct (H1 i r Hr) as (r' & Hr' & B2 & B3 & B4 & B1). exists r'. split; [done|]. split; try done.
    + destruct B3 as [B3|[B3 B3']]; [by left|right; split; [by apply Hup|done]].
    + intros (R1 & R2 & R3). apply B4. repeat split; auto.
Qed.
End reparent.

(** * Exiting *)

(** The CPU outside every critical section. *)
Record at_ease (b : base) (c : Z) (p : proc) : Prop := {
  ea_cli : cli_wf (b_mach b);
  ea_depth : m_ncli (b_mach b) = 0;
  ea_held : m_held (b_mach b) = ∅;
  ea_cur : b_cur b = Some c;
  ea_proc : znth (b_procs b) c = Some p;
  ea_len : zlen (b_procs b) = NPROC;
}.
(** [q] sleeps in the [wait] of the parent [j], or in that of [init] while [c] has a
    zombie child. *)
Definition roused (b : base) (c j ini : Z) (q : proc) : Prop :=
  p_state q = SLEEPING ∧ (p_chan q = Some (proc_chan j) ∨
    p_chan q = Some (proc_chan ini) ∧ ∃ i z, znth (b_procs b) i = Some z ∧ p_parent z = Some c ∧ p_state z = ZOMBIE).
(** What [exit] of the child [c] of [j] makes of another process [q]: a child gets a
    new parent, a process that waits for this becomes RUNNABLE, and nothing else
    changes. *)
Record survivor (b : base) (c j ini : Z) (q q' : proc) : Prop := {
  sv_rest : q' = set_p_parent (p_parent q') (set_p_state (p_state q') q);
  sv_parent : p_parent q' = if decide (p_parent q = Some c) then Some ini else p_parent q;
  sv_roused : roused b c j ini q → p_state q' = RUNNABLE;
  sv_other : ¬ roused b c j ini q → p_state q' = p_state q;
}.
Lemma locked_ease b c p : at_ease b c p → m_held (locked ptable_lock (b_mach b)) = {[ptable_lock]} ∧ m_ncli (locked ptable_lock (b_mach b)) = 1 ∧
  irq_enabled (locked ptable_lock (b_mach b)) = false.
Proof. intros [[] H2 H3 _ _ _]. apply locked_section; done. Qed.

Lemma exit_scan b c p j ini : at_ease b c p → p_parent p = Some j → b_init b = Some ini → j ≠ c →
  let b1 := set_b_procs (wake_one (proc_chan j) <$> b_procs b) (set_b_mach (locked ptable_lock (b_mach b)) b) in
  ∃ b2, for_all (Z.to_nat NPROC) 0 (reparent c) b1 = Ok tt b2 ∧ (∃ l, b2 = set_b_procs l b1 ∧ zlen l = NPROC) ∧
    ∀ i q, znth (b_procs b) i = Some q → ∃ q', znth (b_procs b2) i = Some q' ∧ survivor b c j ini q q'.
Proof.
  intros He Hp Hini Hjc b1. set (l0 := wake_one (proc_chan j) <$> b_procs b).
  assert (Hl0 : zlen l0 = NPROC) by (unfold l0, zlen; rewrite length_fmap; apply (ea_len _ _ _ He)).
  destruct (for_all_inv (I := scanned c ini l0 b1) (reparent c) (Z.to_nat NPROC) 0 b1) as (b2 & R & [Hb2 H2]).
  - split; [by exists l0|]. intros i q Hq. exists q. split; [done|]. split; [|unfold relinked; by destruct q|by left|].
    + rewrite decide_False; [done|]. intros [Hi _]. apply znth_Some in Hq. lia.
    + intros (_ & _ & i' & q' & Hi' & Hq' & _). apply znth_Some in Hq'. lia.
  - intros k s Hk Hs. apply (reparent_step c ini l0 b1 k s Hini Hs). rewrite Hl0. unfold NPROC in *. lia.
  - exists b2. split; [done|]. split; [by rewrite <- Hl0|]. intros i q Hq.
    assert (Hq0 : znth l0 i = Some (wake_one (proc_chan j) q)) by (unfold l0; by rewrite znth_wake, Hq).
    destruct (H2 i _ Hq0) as (q' & Hq' & [A1 A2 A3 A4]). exists q'. split; [done|].
    destruct (wake_one_same (proc_chan j) q) as (W1 & W2 & W3). apply znth_Some in Hq as Hi. rewrite (ea_len _ _ _ He) in Hi.
    assert (Horph : orphan c l0 NPROC ↔ ∃ i z, znth (b_procs b) i = Some z ∧ p_parent z = Some c ∧ p_state z = ZOMBIE).
    { split; intros H.
      - destruct H as (k & z & _ & Hz & Hz1 & Hz2). unfold l0 in Hz. rewrite znth_wake in Hz. apply fmap_Some in Hz as (z0 & Hz0 & ->).
        exists k, z0. split; [done|]. destruct (wake_one_same (proc_chan j) z0) as (Z1 & _). rewrite <- Z1. split; [done|]. by apply wake_one_zombie in Hz2.
      - destruct H as (k & z & Hz & Hz1 & Hz2). exists k, (wake_one (proc_chan j) z). apply znth_Some in Hz as Hk. rewrite (ea_len _ _ _ He) in Hk.
        split; [lia|]. split; [unfold l0; by rewrite znth_wake, Hz|]. destruct (wake_one_same (proc_chan j) z) as (Z1 & _). rewrite Z1. split; [done|]. by apply wake_one_zombie. }
    change (Z.of_nat (Z.to_nat NPROC)) with NPROC in *. rewrite Z.add_0_l in *.
    split.
    + exact (readopted_trans _ _ _ (wake_one_relinked (proc_chan j) q) A2).
    + rewrite A1, W1. destruct (decide (p_parent q = Some c)); [rewrite decide_True; [done|split; [lia|done]]|rewrite decide_False; [done|]; by intros []].
    + intros (Hs & [Hc|[Hc Hz]]).
      * pose proof (wake_one_up _ _ Hs Hc) as Hr. destruct A3 as [->|[_ ->]]; done.
      * destruct W3 as [W3|[_ W3]]; [|destruct A3 as [->|[_ ->]]; done].
        apply A4. split; [congruence|]. split; [congruence|by apply Horph].
    + intros Hn. destruct W3 as [W3|[[Hs Hc] _]]; [|exfalso; apply Hn; split; [done|by left]].
      destruct A3 as [->|[(R1 & R2 & R3) _]]; [done|]. exfalso. apply Hn. split; [congruence|right]. split; [congruence|by apply Horph].
Qed.

(** C7: The end of a process: when the last part of [exit] gives up the CPU, for
    good, the process is a zombie of its own parent and otherwise as it was; all its
    children have become children of [init]; a process asleep in the parent's [wait]
    is RUNNABLE, and so is one asleep in [init]'s if a child was a zombie already;
    every other process keeps its state, and no process changes in anything else.
    [ptable.lock] is held at the switch. *)
Theorem exit_spec b c p j ini : at_ease b c p → p_parent p = Some j → b_init b = Some ini → j ≠ c →
  ∃ l k, let b' := Base (locked ptable_lock (b_mach b)) l (b_cur b) (b_init b) (b_nextpid b) in
    exit_tail b = Swtch b' k ∧ (∀ b1, ∃ b2, k b1 = Panic "zombie exit" b2) ∧ m_held (b_mach b') = {[ptable_lock]} ∧
    zlen l = NPROC ∧ znth l c = Some (set_p_state ZOMBIE p) ∧
    ∀ i q, znth (b_procs b) i = Some q → i ≠ c → ∃ q', znth l i = Some q' ∧ survivor b c j ini q q'.
Proof.
  intros He Hp Hini Hjc. destruct (exit_scan b c p j ini He Hp Hini Hjc) as (b2 & R & (l & El & Hl) & H2).
  destruct (H2 c p (ea_proc _ _ _ He)) as (p2 & Hp2 & Hsv). destruct (locked_ease _ _ _ He) as (Hh & Hn & Hirq).
  set (b1 := set_b_procs (wake_one (proc_chan j) <$> b_procs b) (set_b_mach (locked ptable_lock (b_mach b)) b)) in *.
  set (b3 := set_b_procs (zupd c (set_p_state ZOMBIE p2) (b_procs b2)) b2). apply znth_Some in Hp2 as Hc2.
  assert (Hsch : sched b3 = Swtch b3 (fun b' => Ok tt (set_b_mach (set_intena (m_intena (b_mach b3)) (b_mach b')) b'))).
  { apply (sched_ok c (set_p_state ZOMBIE p2)); unfold b3; [rewrite El; apply (ea_cur _ _ _ He)|by apply znth_zupd|done|..]; rewrite El; simpl; rewrite ?Hh; (set_solver || done). }
  assert (Ep2 : set_p_state ZOMBIE p2 = set_p_state ZOMBIE p).
  { destruct Hsv as [S1 S2 _ _]. rewrite Hp, decide_False in S2 by congruence. rewrite S1, S2, <- Hp. by destruct p. }
  exists (zupd c (set_p_state ZOMBIE p2) (b_procs b2)). eexists. split; [|split; [|split; [|split; [|split]]]].
  - assert (E3 : b3 = Base (locked ptable_lock (b_mach b)) (zupd c (set_p_state ZOMBIE p2) (b_procs b2)) (b_cur b) (b_init b) (b_nextpid b)).
    { unfold b3. rewrite El. done. }
    unfold exit_tail. rewrite (bind_ok _ _ _ tt (set_b_mach (locked ptable_lock (b_mach b)) b)) by exact (bacquire_ok (S:=base) ptable_lock b (ea_cli _ _ _ He)).
    rewrite (bind_ok _ _ _ _ _ (myproc_ok c (set_b_mach (locked ptable_lock (b_mach b)) b) (ea_cur _ _ _ He))).
    rewrite (bind_ok _ _ _ _ _ (get_proc_ok c p (set_b_mach (locked ptable_lock (b_mach b)) b) (ea_proc _ _ _ He))), Hp.
    rewrite (bind_ok _ _ _ tt b1) by reflexivity. rewrite (bind_ok _ _ _ _ _ R), (bind_ok _ _ _ _ _ (upd_proc_ok c p2 (set_p_state ZOMBIE) b2 Hp2)).
    unfold bind. fold b3. rewrite Hsch, <- E3. reflexivity.
  - intros b4. eexists. reflexivity.
  - exact Hh.
  - rewrite zlen_zupd, El. exact Hl.
  - rewrite Ep2. by apply znth_zupd.
  - intros i q Hq Hi. destruct (H2 i q Hq) as (q' & Hq' & Hs). exists q'. split; [|done]. by rewrite znth_zupd_ne.
Qed.

(** The threads of processes that end are among those the scheduler runs safely. *)
Lemma steady_get_proc i : steady (get_proc i).
Proof. apply steady_same. intros b. unfold get_proc. run. by destruct (znth (b_procs b) i). Qed.
Lemma code_reparent cur i : kernel_code (reparent cur i).
Proof.
  apply kc_bind; [apply kc_steady, steady_get_proc|intros p]. apply code_when, kc_bind; [by apply kc_steady, steady_same|intros ini].
  apply kc_bind; [by apply kc_steady, steady_upd|intros _]. apply code_when. destruct ini; apply kc_steady; [apply steady_wakeup1|by apply steady_same].
Qed.
Lemma code_for_all n (body : Z → M base unit) : (∀ i, kernel_code (body i)) → ∀ lo, kernel_code (for_all n lo body).
Proof. intros H. induction n as [|n IH]; intros lo; simpl; [by apply kc_steady, steady_same|]. by apply kc_bind. Qed.
Lemma code_exit_tail : kernel_code exit_tail.
Proof.
  apply kc_bind; [apply kc_steady, steady_bacquire|intros _]. apply kc_bind; [apply kc_steady, steady_myproc|intros cur].
  apply kc_bind; [apply kc_steady, steady_get_proc|intros p].
  apply kc_bind; [destruct (p_parent p); apply kc_steady; [apply steady_wakeup1|by apply steady_same]|intros _].
  apply kc_bind; [apply code_for_all; intros; apply code_reparent|intros _]. apply kc_bind; [by apply kc_steady, steady_upd|intros _].
  apply kc_bind; [apply code_sched|intros _; apply code_panic].
Qed.

(** * Waiting *)

Definition child_of (c : Z) (q : proc) : Prop := p_parent q = Some c.
Definition zombie_of (c : Z) (q : proc) : Prop := p_parent q = Some c ∧ p_state q = ZOMBIE.

Section waiting.
Context {WF : WaitFuel}.

(** The scan passes over slots without a zombie child. *)
Lemma wait_scan_live c p n : ∀ i have s, running s c p → i + Z.of_nat n ≤ zlen (b_procs (k_base s)) → 0 ≤ i →
  (∀ k q, i ≤ k < i + Z.of_nat n → znth (b_procs (k_base s)) k = Some q → ¬ zombie_of c q) →
  ∃ have', wait_scan n i have s = Ok (inr have') s ∧
    (have' = true ↔ have = true ∨ ∃ k q, i ≤ k < i + Z.of_nat n ∧ znth (b_procs (k_base s)) k = Some q ∧ child_of c q).
Proof.
  induction n as [|n IH]; intros i have s Hr Hn Hi Hz.
  - exists have. split; [done|]. split; [by left|]. intros [|(k & q & Hk & _)]; [done|lia].
  - cbn [wait_scan]. destruct (znth_is_Some (b_procs (k_base s)) i) as [q Hq]; [lia|].
    rewrite (bind_ok _ _ _ _ _ (kproc_ok _ _ _ Hq)), (bind_ok _ _ _ _ _ (kcur_ok _ _ _ Hr)).
    destruct (IH (i + 1) (have || bool_decide (p_parent q = Some c)) s Hr ltac:(lia) ltac:(lia)) as (have' & R & Hh); [intros k x Hk; apply Hz; lia|].
    exists have'. split.
    + case_bool_decide as Hp; cbn [negb]; [|by rewrite orb_false_r in R]. rewrite orb_true_r in R.
      rewrite bool_decide_eq_false_2; [exact R|]. intros Hs. apply (Hz i q ltac:(lia) Hq). by split.
    + rewrite Hh, orb_true_iff, bool_decide_eq_true. split.
      * intros [[?|Hp]|(k & x & Hk & Hx)]; [by left|right; exists i, q; split; [lia|done]|right; exists k, x; split; [lia|done]].
      * intros [?|(k & x & Hk & Hx & Hp)]; [by do 2 left|]. destruct (decide (k = i)) as [->|]; [left; right; congruence|]. right. exists k, x. split; [lia|done].
Qed.
Lemma wait_scan_zombie c p z q n : ∀ i have s, running s c p → i ≤ z < i + Z.of_nat n → i + Z.of_nat n ≤ zlen (b_procs (k_base s)) → 0 ≤ i →
  znth (b_procs (k_base s)) z = Some q → zombie_of c q →
  (∀ k x, i ≤ k < z → znth (b_procs (k_base s)) k = Some x → ¬ zombie_of c x) →
  wait_scan n i have s = (let* pid := reap z in ret (inl pid)) s.
Proof.
  induction n as [|n IH]; intros i have s Hr Hzi Hn Hi Hq Hzq Hfirst; [lia|].
  cbn [wait_scan]. destruct (znth_is_Some (b_procs (k_base s)) i) as [x Hx]; [lia|].
  rewrite (bind_ok _ _ _ _ _ (kproc_ok _ _ _ Hx)), (bind_ok _ _ _ _ _ (kcur_ok _ _ _ Hr)). destruct (decide (i = z)) as [->|Hne].
  - rewrite Hq in Hx. injection Hx as <-. destruct Hzq as [Hp Hs]. rewrite Hp, Hs. by rewrite !bool_decide_eq_true_2.
  - assert (Hrest : ∀ h, wait_scan n (i + 1) h s = (let* pid := reap z in ret (inl pid)) s).
    { intros h. apply IH; [done|lia|lia|lia|done|done|]. intros k y Hk. apply Hfirst. lia. }
    case_bool_decide as Hp; cbn [negb]; [|apply Hrest]. rewrite bool_decide_eq_false_2; [apply Hrest|].
    intros Hs. apply (Hfirst i x ltac:(lia) Hx). by split.
Qed.

Definition procs (s : kst) : list proc := b_procs (k_base s).
(** [ptable.lock] taken by the process. *)
Lemma ease_kidle s c p : at_ease (k_base s) c p → bacquire ptable_lock s = Ok tt (klocked ptable_lock s) ∧
  brelease ptable_lock (klocked ptable_lock s) = Ok tt (kfreed s).
Proof.
  intros He. split; [exact (bacquire_ok (S:=kst) ptable_lock s (ea_cli _ _ _ He))|]. unfold brelease, klocked. erewrite zoom_ok; [reflexivity|].
  change (lget (set_k_base ?b s)) with (k_base (set_k_base b s)). rewrite set_k_base_base. unfold zoom. simpl.
  rewrite release_locked; [reflexivity|apply He|]. rewrite (ea_held _ _ _ He). set_solver.
Qed.
Lemma ease_running s c p : at_ease (k_base s) c p → running (klocked ptable_lock s) c p.
Proof. intros He. unfold klocked. split; rewrite set_k_base_base; apply He. Qed.
(** The kernel when process [c], which was [p], went to sleep in [wait]. *)
Definition waiting_kst (s : kst) (c : Z) (p : proc) : kst :=
  set_k_base (Base (locked ptable_lock (b_mach (k_base s)))
    (zupd c (set_p_state SLEEPING (set_p_chan (Some (proc_chan c)) p)) (procs s)) (b_cur (k_base s)) (b_init (k_base s)) (b_nextpid (k_base s))) s.
Lemma sleep_under_lock s c p : at_ease (k_base s) c p →
  ∃ k, (zoom (sleep (proc_chan c) (Some ptable_lock)) : M kst unit) (klocked ptable_lock s) = Swtch (waiting_kst s c p) k ∧
    m_held (b_mach (k_base (waiting_kst s c p))) = {[ptable_lock]}.
Proof.
  intros He. destruct (locked_ease _ _ _ He) as (Hh & Hn & Hirq). set (b := set_b_mach (locked ptable_lock (b_mach (k_base s))) (k_base s)).
  set (p' := set_p_state SLEEPING (set_p_chan (Some (proc_chan c)) p)). set (b' := set_b_procs (zupd c p' (b_procs b)) b).
  pose proof (znth_Some _ _ _ (ea_proc _ _ _ He)) as Hc.
  assert (Hs : ∃ k, sleep (proc_chan c) (Some ptable_lock) b = Swtch b' k).
  { unfold sleep, sleep_with. rewrite (bind_ok _ _ _ (Some c) b) by (unfold gets; f_equal; apply (ea_cur _ _ _ He)). rewrite bool_decide_eq_false_2 by tauto.
    rewrite (bind_ok _ _ _ tt b) by done. rewrite (bind_ok _ _ _ _ _ (myproc_ok c b (ea_cur _ _ _ He))).
    rewrite (bind_ok _ _ _ _ _ (upd_proc_ok c p _ b (ea_proc _ _ _ He))). change (set_b_procs _ b) with b'. unfold bind at 1.
    rewrite (sched_ok c p' b'); [by eexists|apply (ea_cur _ _ _ He)|by apply znth_zupd|done| |exact Hn|exact Hirq].
    change (ptable_lock ∈ m_held (locked ptable_lock (b_mach (k_base s)))). rewrite Hh. set_solver. }
  destruct Hs as [k Hs]. unfold zoom. change (lget (klocked ptable_lock s)) with (k_base (klocked ptable_lock s)). unfold klocked. rewrite set_k_base_base. fold b.
  rewrite Hs. eexists. unfold waiting_kst. rewrite set_k_base_base. split; [reflexivity|exact Hh].
Qed.

(** A scan that meets no zombie. *)
Lemma procs_locked s : procs (klocked ptable_lock s) = procs s.
Proof. unfold procs, klocked. by rewrite set_k_base_base. Qed.
Lemma wait_live s c p : at_ease (k_base s) c p → (∀ i q, znth (procs s) i = Some q → ¬ zombie_of c q) →
  ∃ have, wait_scan (Z.to_nat NPROC) 0 false (klocked ptable_lock s) = Ok (inr have) (klocked ptable_lock s) ∧
    (have = true ↔ ∃ i q, znth (procs s) i = Some q ∧ child_of c q).
Proof.
  intros He Hz. assert (Hlen : zlen (procs s) = NPROC) by apply (ea_len _ _ _ He). pose proof (procs_locked s) as Ep. unfold procs in Ep at 1.
  destruct (wait_scan_live c p (Z.to_nat NPROC) 0 false _ (ease_running _ _ _ He)) as (have & R & Hh); rewrite ?Ep in *;
    [rewrite Hlen; unfold NPROC; lia|done|intros k q _; apply Hz|].
  exists have. split; [exact R|]. rewrite Hh. split.
  - intros [?|(k & q & _ & Hq & Hc)]; [done|by exists k, q].
  - intros (k & q & Hq & Hc). right. exists k, q. apply znth_Some in Hq as Hk. rewrite Hlen in Hk. split; [unfold NPROC in *; lia|done].
Qed.

(** C6: [wait] decides in one critical section.  Without children it returns -1, and
    so it does for a killed process whose children are all alive; both leave only the
    saved interrupt flag changed.  A process that was not killed and has only living
    children goes to sleep on its own slot with [ptable.lock] held, so that the exit
    of a child finds it, and nothing else has changed.  When a child is a zombie, the
    first one in the table is taken off it and its pid returned: the lock is free
    again, its slot is cleared and its kernel stack, its pages and its page tables are
    back with the allocators, no other memory in use is touched, and everything
    outside the slot, the memory and the interrupt flag is as it was. *)
Theorem wait_spec s c p : at_ease (k_base s) c p →
  ((∀ i q, znth (procs s) i = Some q → ¬ child_of c q) → wait s = Ok (-1) (kfreed s)) ∧
  ((∃ i q, znth (procs s) i = Some q ∧ child_of c q) → (∀ i q, znth (procs s) i = Some q → ¬ zombie_of c q) →
    if p_killed p =? 0 then
      ∃ k, wait s = Swtch (waiting_kst s c p) k ∧ m_held (b_mach (k_base (waiting_kst s c p))) = {[ptable_lock]}
    else wait s = Ok (-1) (kfreed s)) ∧
  (∀ z q, znth (procs s) z = Some q → zombie_of c q → (∀ i x, i < z → znth (procs s) i = Some x → ¬ zombie_of c x) →
    ∀ N NB R F ps, dead_memory N NB (k_vm (klocked ptable_lock s)) q R F ps →
    ∃ s', wait s = Ok (p_pid q) s' ∧ buried N NB (k_vm s) q R F ps (k_vm s') ∧ collected (saved (b_mach (k_base s))) s z q s').
Proof.
  intros He. destruct (ease_kidle _ _ _ He) as [Ra Rr]. pose proof (ease_running _ _ _ He) as Hr. assert (Hlen : zlen (procs s) = NPROC) by apply (ea_len _ _ _ He).
  pose proof (wait_live s c p He) as Hlive. set (s1 := klocked ptable_lock s) in *. assert (Ep : procs s1 = procs s) by apply procs_locked.
  assert (Hw : wait s = wait_loop (S wait_fuel) s1) by (unfold wait; by rewrite (bind_ok _ _ _ _ _ Ra)).
  split; [|split].
  - intros Hno. destruct Hlive as (have & R & Hh); [intros i q Hq [Hp _]; by apply (Hno i q Hq)|]. rewrite Hw. cbn [wait_loop].
    rewrite (bind_ok _ _ _ _ _ R), (bind_ok _ _ _ _ _ (kmyproc_ok _ _ _ Hr)).
    destruct have; [destruct (proj1 Hh eq_refl) as (i & q & Hq & Hc); by apply Hno in Hq|]. cbn [negb orb]. by rewrite (bind_ok _ _ _ _ _ Rr).
  - intros Hkid Hz. destruct (Hlive Hz) as (have & R & Hh). apply Hh in Hkid as ->. rewrite Hw. cbn [wait_loop].
    destruct (Z.eqb_spec (p_killed p) 0) as [Hk|Hk].
    + destruct (sleep_under_lock s c p He) as (k & Rs & Hm). eexists. split; [|done].
      rewrite (bind_ok _ _ _ _ _ R), (bind_ok _ _ _ _ _ (kmyproc_ok _ _ _ Hr)), Hk. cbn [negb orb ztrue Z.eqb].
      rewrite (bind_ok _ _ _ _ _ (kcur_ok _ _ _ Hr)). unfold bind. fold s1 in Rs. rewrite Rs. reflexivity.
    + rewrite (bind_ok _ _ _ _ _ R), (bind_ok _ _ _ _ _ (kmyproc_ok _ _ _ Hr)). unfold ztrue. rewrite (proj2 (Z.eqb_neq _ _) Hk). cbn [negb orb].
      by rewrite (bind_ok _ _ _ _ _ Rr).
  - intros z q Hq Hzq Hfirst N NB R F ps Hd. assert (Hq1 : znth (procs s1) z = Some q) by (by rewrite Ep).
    destruct (reap_ok N NB z (b_mach (k_base s)) s1 q R F ps Hq1) as (s' & Hreap & Hbu & Hco); [unfold s1, klocked; by rewrite set_k_base_base|apply He| |exact Hd|].
    { rewrite (ea_held _ _ _ He). apply not_elem_of_empty. }
    exists s'. split; [|split; [destruct Hbu; by split|]].
    2: { unfold collected in *. rewrite Hco at 1. unfold s1. by destruct s as [[[[[] ? ? ?] ? ? ? ? ? ?] ?]]. }
    rewrite Hw. cbn [wait_loop]. apply znth_Some in Hq as Hzr. rewrite Hlen in Hzr.
    rewrite (bind_ok _ _ _ (inl (p_pid q)) s'); [done|].
    rewrite (wait_scan_zombie c p z q (Z.to_nat NPROC) 0 false s1 Hr); change (b_procs (k_base s1)) with (procs s1); rewrite ?Ep;
      [by rewrite (bind_ok _ _ _ _ _ Hreap)|unfold NPROC in *; lia|rewrite Hlen; unfold NPROC; lia|lia|done|done|].
    intros k x Hk. apply Hfirst. lia.
Qed.
End waiting.

(** ** Witnesses *)

#[local] Instance life_fuel_wait : WaitFuel := 0%nat.
Definition life_proc (pid : Z) (parent : option Z) (st : procstate) (ch : option objaddr) : proc :=
  set_p_chan ch (set_p_state st (set_p_parent parent (set_p_pid pid zero_proc))).
(** [init] and a shell asleep in [wait], a program that runs, and its zombie child. *)
Definition life_procs : list proc :=
  [life_proc 1 None SLEEPING (Some (proc_chan 0)); life_proc 2 (Some 0) SLEEPING (Some (proc_chan 1)); life_proc 3 (Some 1) RUNNING None;
   life_proc 4 (Some 2) ZOMBIE None] ++ replicate 60 zero_proc.
Definition life_base (cur : Z) (l : list proc) : base := Base (Mach 0 0 0 ∅ 0x1000) l (Some cur) (Some 0) 5.
Lemma exit_spec_witness : ∃ l k, exit_tail (life_base 2 life_procs) = Swtch (Base (Mach 0x80 1 1 {[ptable_lock]} 0x1000) l (Some 2) (Some 0) 5) k ∧
  (p_state <$> take 4 l) = [RUNNABLE; RUNNABLE; ZOMBIE; ZOMBIE] ∧ (p_parent <$> znth l 3) = Some (Some 0).
Proof.
  destruct (exit_spec (life_base 2 life_procs) 2 (life_proc 3 (Some 1) RUNNING None) 1 0) as (l & k & R & _ & _ & _ & H2 & Hs).
  - split; [split; simpl; [lia|done]|reflexivity..].
  - reflexivity.
  - reflexivity.
  - lia.
  - exists l, k. split; [refine (eq_trans R _); do 2 f_equal; vm_compute; reflexivity|].
    destruct (Hs 0 (life_proc 1 None SLEEPING (Some (proc_chan 0))) eq_refl ltac:(lia)) as (q0 & H0 & S0).
    destruct (Hs 1 (life_proc 2 (Some 0) SLEEPING (Some (proc_chan 1))) eq_refl ltac:(lia)) as (q1 & H1 & S1).
    destruct (Hs 3 (life_proc 4 (Some 2) ZOMBIE None) eq_refl ltac:(lia)) as (q3 & H3 & S3).
    assert (E0 : p_state q0 = RUNNABLE) by (apply (sv_roused _ _ _ _ _ _ S0); split; [done|right]; split; [done|by exists 3, (life_proc 4 (Some 2) ZOMBIE None)]).
    assert (E1 : p_state q1 = RUNNABLE) by (apply (sv_roused _ _ _ _ _ _ S1); split; [done|by left]).
    assert (E3 : p_state q3 = ZOMBIE) by (rewrite (sv_other _ _ _ _ _ _ S3); [done|]; by intros [? _]).
    split; [|rewrite H3; cbn [fmap option_fmap option_map]; by rewrite (sv_parent _ _ _ _ _ _ S3)].
    destruct l as [|x0 [|x1 [|x2 [|x3 l]]]]; try discriminate H3. cbn in H0, H1, H2, H3.
    injection H0 as ->. injection H1 as ->. injection H2 as ->. injection H3 as ->. cbn. by rewrite E0, E1, E3.
Defined.
Definition life_kst (cur : Z) : kst := set_k_base (life_base cur life_procs) (demo_kst [] [] ∅).

(** A heap with two pages in use: the first one, and one for the stack of a process. *)
Lemma two_pages : ∃ h b, heap_ok 1 7 h ∧ k_start_heap (h_kmem h) = 0xFFFFFFFF40201000 ∧ 0 < b < 7 ∧
  held 1 7 (h_kmem h) (addr (h_kmem h) 12 b) ∧ held 1 7 (h_kmem h) 0xFFFFFFFF40201000.
Proof.
  destruct demo_heap7 as [h0 [Hok Hst Hl Hf]]. destruct (page_ok 1 7 (demo_vm h0) Hok) as [[_ Hno]|(b & h & Hb & _ & Hok' & Hbd & _ & Hfr & Hf')].
  { destruct (Hno 3 ltac:(lia)). intros u Hu. apply Hf; [|lia]. unfold indom. pose proof (Z.div_mod u 4096 ltac:(lia)). pose proof (Z.mod_pos_bound u 4096 ltac:(lia)). lia. }
  cbn [v_heap demo_vm] in *. assert (Es : k_start_heap (h_kmem h) = 0xFFFFFFFF40201000) by (rewrite (same_start _ _ Hbd); exact Hst).
  assert (b ≠ 0). { intros ->. apply (proj1 (Hf 0 ltac:(unfold indom; lia)) (Hfr 0 eq_refl)). reflexivity. }
  exists h, b. split; [done|]. split; [done|]. split; [lia|]. split; intros u Hu Hpu; rewrite (Hf' u Hu).
  - apply frame_byte in Hpu. tauto.
  - rewrite (Hf u Hu). intros [Hne _]. apply Hne, Z.div_small. lia.
Qed.
(** The same processes, with the memory the zombie still owns. *)
Definition dead_proc (stack : Z) : proc := set_p_kstack stack (set_p_pgdir (demo_t 0) (life_proc 4 (Some 2) ZOMBIE None)).
Definition dead_kst (k : kmem) (stack : Z) : kst :=
  set_k_base (life_base 2 (zupd 3 (dead_proc stack) life_procs))
    (set_k_km k (set_k_kpt (demo_t 3) (set_k_mem demo_tables (demo_kst [] [] ∅)))).
Lemma dead_memory_ok h b : heap_ok 1 7 h → k_start_heap (h_kmem h) = 0xFFFFFFFF40201000 → 0 < b < 7 →
  held 1 7 (h_kmem h) (addr (h_kmem h) 12 b) → held 1 7 (h_kmem h) 0xFFFFFFFF40201000 →
  dead_memory 1 7 (k_vm (klocked ptable_lock (dead_kst (h_kmem h) (addr (h_kmem h) 12 b)))) (dead_proc (addr (h_kmem h) 12 b))
    demo_roles demo_free_tables [0xFFFFFFFF40201000].
Proof.
  intros Hok Hst Hb Hh1 Hh0. set (stack := addr (h_kmem h) 12 b) in *. unfold k_vm, klocked. rewrite !set_k_base_base. split; simpl.
  - split; simpl.
    + apply demo_tree.
    + apply demo_spare.
    + split; [split; simpl; [lia|done]|]. simpl. set_solver.
    + split; [apply Hok|]. split; [split; simpl; [lia|done]|]. simpl. set_solver.
    + rewrite Hst. unfold KERNBASE. lia.
    + rewrite Hst. intros t [Ht|Ht]; [|apply list_elem_of_fmap in Ht as (i & -> & Hi%elem_of_seqZ); unfold demo_t; lia].
      apply demo_low_roles in Ht. lia.
  - split; simpl.
    + intros i p Hi. destruct i as [|i]; [|discriminate Hi]. injection Hi as <-. exists AP_RW_1_0. split; [reflexivity|]. vm_compute. reflexivity.
    + intros p Hp%list_elem_of_singleton. subst p. exists 0. split; [lia|]. unfold addr. rewrite Hst. reflexivity.
    + intros p Hp%list_elem_of_singleton. by subst p.
    + apply NoDup_singleton.
  - vm_compute. discriminate.
  - exact demo_rest.
  - exact demo_low.
  - exact demo_tidy.
  - exists b. split; [lia|done].
  - exact Hh1.
  - intros Hp%list_elem_of_singleton. unfold stack, addr in Hp. rewrite Hst in Hp. change (2 ^ 12) with 4096 in Hp. lia.
Qed.
Lemma no_zombie_before i x stack : i < 3 → znth (procs (dead_kst stack.1 stack.2)) i = Some x → ¬ zombie_of 2 x.
Proof.
  intros Hi Hx [_ Hz]. unfold procs, dead_kst in Hx. rewrite set_k_base_base in Hx. cbn [b_procs life_base] in Hx. rewrite znth_zupd_ne in Hx by lia.
  assert (Hr : 0 ≤ i < 3) by (apply znth_Some in Hx; lia). assert (i = 0 ∨ i = 1 ∨ i = 2) as [->|[->| ->]] by lia; injection Hx as <-; discriminate Hz.
Qed.

Lemma wait_spec_witness : (∃ k, wait (life_kst 1) = Swtch (waiting_kst (life_kst 1) 1 (life_proc 2 (Some 0) SLEEPING (Some (proc_chan 1)))) k) ∧ wait (life_kst 3) = Ok (-1) (kfreed (life_kst 3)) ∧
  ∃ k stack s', wait (dead_kst k stack) = Ok 4 s' ∧ free_at 1 (k_km s') 10 ∧ p_state <$> znth (procs s') 3 = Some UNUSED.
Proof.
  split; [|split].
  - destruct (wait_spec (life_kst 1) 1 (life_proc 2 (Some 0) SLEEPING (Some (proc_chan 1)))) as (_ & H & _).
    + split; [split; simpl; [lia|done]|reflexivity..].
    + destruct H as (k & R & _).
      * exists 2, (life_proc 3 (Some 1) RUNNING None). done.
      * assert (HF : Forall (λ q, ¬ (p_parent q = Some 1 ∧ p_state q = ZOMBIE)) (procs (life_kst 1))) by (apply (bool_decide_eq_true_1 _); vm_compute; reflexivity).
        intros i q Hq. rewrite Forall_forall in HF. apply HF, list_elem_of_In, znth_In. by exists i.
      * exists k. exact R.
  - destruct (wait_spec (life_kst 3) 3 (life_proc 4 (Some 2) ZOMBIE None)) as (H & _ & _).
    + split; [split; simpl; [lia|done]|reflexivity..].
    + apply H. assert (HF : Forall (λ q, ¬ (p_parent q = Some 3)) (procs (life_kst 3))) by (apply (bool_decide_eq_true_1 _); vm_compute; reflexivity).
      intros i q Hq. rewrite Forall_forall in HF. apply HF, list_elem_of_In, znth_In. by exists i.
  - destruct two_pages as (h & b & Hok & Hst & Hb & Hh1 & Hh0). set (stack := addr (h_kmem h) 12 b). exists (h_kmem h), stack.
    assert (Hq : znth (procs (dead_kst (h_kmem h) stack)) 3 = Some (dead_proc stack)) by reflexivity.
    destruct (wait_spec (dead_kst (h_kmem h) stack) 2 (life_proc 3 (Some 1) RUNNING None)) as (_ & _ & H).
    + split; [split; simpl; [lia|done]|reflexivity..].
    + destruct (H 3 (dead_proc stack) Hq (conj eq_refl eq_refl)) with (N := 1) (NB := 7) (R := demo_roles) (F := demo_free_tables) (ps := [0xFFFFFFFF40201000])
        as (s' & R & Hbu & Hco).
      * intros i x Hi Hx. exact (no_zombie_before i x (h_kmem h, stack) Hi Hx).
      * exact (dead_memory_ok h b Hok Hst Hb Hh1 Hh0).
      * exists s'. split; [exact R|]. split.
        -- apply (bu_free _ _ _ _ _ _ _ _ Hbu 10); [split; lia|]. right. exists 0xFFFFFFFF40201000. split; [right; left|].
           cbn. rewrite Hst. lia.
        -- unfold collected in Hco. rewrite Hco. unfold procs. rewrite set_k_base_base. reflexivity.
Defined.
