(* ===== verification/Fork.v ===== *)
(** [fork] of [proc.c]: the child is a copy of the process that calls it, with memory of
    its own and the same open files.

    [fork] changes the process table, the memory, the file table and one inode's
    reference count: [st] is a state of the kernel in terms of those. *)

From S2P Require Import Prelude Spin Sched Mem Str Dll Buddy Bio Log Tx Fs Inode Vm Pgtab Uvm Freevm Kernel Console Pipe File Proc Reap Life.

(** * States of the kernel during [fork] *)

Section states.
Context (s0 : kst).

Definition st (m : mach) (l : list proc) (np : Z) (km : kmem) (kpt : Z) (mem : gmap Z Z) (fl : list file) (ino : list inode) : kst :=
  Kst (set_fs_inode ino (lset (Base m l (b_cur (k_base s0)) (b_init (k_base s0)) np) (k_fs s0))) km kpt mem fl (k_pipe s0) (k_cons s0) (k_ticks s0).

Lemma st_self : st (b_mach (k_base s0)) (procs s0) (b_nextpid (k_base s0)) (k_km s0) (k_kpt s0) (k_mem s0) (k_file s0) (fs_inode (k_fs s0)) = s0.
Proof. unfold st, procs. by destruct s0 as [[[[[] ? ? ?] ? ? ? ? ? ?] ?]]. Qed.
Lemma st_base m l np km kpt mem fl ino : k_base (st m l np km kpt mem fl ino) = Base m l (b_cur (k_base s0)) (b_init (k_base s0)) np.
Proof. unfold st. by destruct s0 as [[[[[] ? ? ?] ? ? ? ? ? ?] ?]]. Qed.
Lemma st_vm m l np km kpt mem fl ino : k_vm (st m l np km kpt mem fl ino) = VmSt (Kheap m km) kpt mem.
Proof. unfold k_vm. by rewrite st_base. Qed.
Lemma st_set_base m l np km kpt mem fl ino m' l' np' :
  set_k_base (Base m' l' (b_cur (k_base s0)) (b_init (k_base s0)) np') (st m l np km kpt mem fl ino) = st m' l' np' km kpt mem fl ino.
Proof. unfold st. by destruct s0 as [[[[[] ? ? ?] ? ? ? ? ? ?] ?]]. Qed.
Lemma st_set_vm m l np km kpt mem fl ino v :
  set_k_vm v (st m l np km kpt mem fl ino) = st (h_mach (v_heap v)) l np (h_kmem (v_heap v)) (v_freelist v) (v_mem v) fl ino.
Proof. unfold st. by destruct s0 as [[[[[] ? ? ?] ? ? ? ? ? ?] ?]]. Qed.

Section ops.
Context (m : mach) (l : list proc) (np : Z) (km : kmem) (kpt : Z) (mem : gmap Z Z) (fl : list file) (ino : list inode).
Abbreviation here := (st m l np km kpt mem fl ino).

Lemma st_proc i q : znth l i = Some q → kproc i here = Ok q here.
Proof. intros H. apply kproc_ok. by rewrite st_base. Qed.
Lemma st_upd i q f : znth l i = Some q → kupd_proc i f here = Ok tt (st m (zupd i (f q) l) np km kpt mem fl ino).
Proof. intros H. rewrite (kupd_proc_ok here i q f) by (by rewrite st_base). by rewrite st_base. Qed.
Lemma st_cur c : b_cur (k_base s0) = Some c → kcur here = Ok c here.
Proof.
  intros H. unfold kcur. rewrite (zoom_kbase _ here c (k_base here)); [by rewrite set_k_base_id|]. apply myproc_ok. rewrite st_base. exact H.
Qed.
Lemma st_myproc c q : b_cur (k_base s0) = Some c → znth l c = Some q → kmyproc here = Ok q here.
Proof. intros Hc Hq. unfold kmyproc. rewrite (bind_ok _ _ _ _ _ (st_cur c Hc)). by apply st_proc. Qed.
Lemma st_acquire lk : cli_wf m → bacquire lk here = Ok tt (st (locked lk m) l np km kpt mem fl ino).
Proof.
  intros H. rewrite (bacquire_ok (S:=kst) lk here) by (change (lget here) with (k_base here); rewrite st_base; exact H).
  change (lget here) with (k_base here). rewrite st_base. reflexivity.
Qed.
Lemma st_release lk : cli_wf m → lk ∉ m_held m → brelease lk (st (locked lk m) l np km kpt mem fl ino) = Ok tt (st (saved m) l np km kpt mem fl ino).
Proof.
  intros H1 H2. unfold brelease. erewrite zoom_kbase; [|unfold zoom; rewrite st_base; simpl; rewrite release_locked by done; reflexivity]. reflexivity.
Qed.
Lemma st_zoom_vm {A} (op : M vmst A) a v : op (VmSt (Kheap m km) kpt mem) = Ok a v →
  (zoom op : M kst A) here = Ok a (st (h_mach (v_heap v)) l np (h_kmem (v_heap v)) (v_freelist v) (v_mem v) fl ino).
Proof.
  intros H. rewrite (zoom_ok (H:=lens_k_vm) op here a v) by (change (@lget _ _ lens_k_vm here) with (k_vm here); rewrite st_vm; exact H).
  change (@lset _ _ lens_k_vm v here) with (set_k_vm v here). by rewrite st_set_vm.
Qed.
Lemma st_zoom_heap {A} (op : M kheap A) a h : op (Kheap m km) = Ok a h →
  (zoom op : M kst A) here = Ok a (st (h_mach h) l np (h_kmem h) kpt mem fl ino).
Proof.
  intros H. rewrite (zoom_ok (H:=lens_k_heap) op here a h) by (change (@lget _ _ lens_k_heap here) with (v_heap (k_vm here)); rewrite st_vm; exact H).
  change (@lset _ _ lens_k_heap h here) with (set_k_vm (set_v_heap h (k_vm here)) here). by rewrite st_set_vm, st_vm.
Qed.
Lemma st_store a v : (zoom (store64 a v) : M kst unit) here = Ok tt (st m l np km kpt (st64 a v mem) fl ino).
Proof. exact (st_zoom_vm (store64 a v) tt (VmSt (Kheap m km) kpt (st64 a v mem)) eq_refl). Qed.
Lemma st_memset a v n : a ≠ 0 → (zoom (kmemset a v n) : M kst unit) here = Ok tt (st m l np km kpt (memset mem a v n) fl ino).
Proof.
  intros Ha. apply (st_zoom_vm (kmemset a v n) tt (VmSt (Kheap m km) kpt (memset mem a v n))). unfold kmemset. by rewrite (proj2 (Z.eqb_neq a 0) Ha).
Qed.
End ops.
End states.

Lemma saved_twice m : saved (saved m) = saved m.
Proof. unfold saved. destruct (m_ncli m =? 0) eqn:E; cbn [m_ncli set_intena]; by rewrite ?E. Qed.

(** * A new process *)

Section alloc.
Context {WF : WaitFuel} {KS : KernelSyms} (N NB : Z) (s0 : kst).

Definition first_unused (l : list proc) (z : Z) (q : proc) : Prop :=
  znth l z = Some q ∧ p_state q = UNUSED ∧ ∀ i x, i < z → znth l i = Some x → p_state x ≠ UNUSED.
Lemma find_unused m l np km kpt mem fl ino z q n : first_unused l z q → ∀ i, 0 ≤ i ≤ z → z < i + Z.of_nat n →
  for_n n i (fun i => let* p := kproc i in ret (if bool_decide (p_state p = UNUSED) then Some i else None)) (st s0 m l np km kpt mem fl ino) =
  Ok (Some z) (st s0 m l np km kpt mem fl ino).
Proof.
  intros (Hz & Hu & Hf). induction n as [|n IH]; intros i Hi Hn; [lia|]. cbn [for_n]. pose proof (znth_Some _ _ _ Hz) as Hzl.
  destruct (znth_is_Some l i ltac:(lia)) as [x Hx]. rewrite (bind_ok _ _ _ (if bool_decide (p_state x = UNUSED) then Some i else None) (st s0 m l np km kpt mem fl ino)).
  2: { by rewrite (bind_ok _ _ _ _ _ (st_proc s0 m l np km kpt mem fl ino i x Hx)). }
  destruct (decide (i = z)) as [->|Hne].
  - rewrite Hz in Hx. injection Hx as <-. by rewrite bool_decide_eq_true_2.
  - rewrite bool_decide_eq_false_2 by (apply (Hf i x); [lia|done]). apply IH; lia.
Qed.
(** A page for the stack. *)
Lemma take_page h : heap_ok N NB h → (∃ b, 0 ≤ b < NB ∧ pgfree N (h_kmem h) b) → ∃ b h', 0 ≤ b < NB ∧ alloc_page h = Ok (addr (h_kmem h) 12 b) h' ∧
  heap_ok N NB h' ∧ same_bounds (h_kmem h) (h_kmem h') ∧ h_mach h' = saved (h_mach h) ∧ pgfree N (h_kmem h) b ∧
  ∀ u, indom NB u → free_at N (h_kmem h') u ↔ free_at N (h_kmem h) u ∧ u / 4096 ≠ b.
Proof.
  intros Hok (b0 & Hb0 & Hf0). destruct (page_ok N NB (VmSt h 0 ∅) Hok) as [[_ Hno]|(b & h' & Hb & [R _]%zoom_Ok_inv & H)]; [by destruct (Hno b0 Hb0)|].
  by exists b, h'.
Qed.
(** Laying out the stack writes to it only. *)
Lemma setup_ok m l np km kpt mem fl ino z q ks : znth l z = Some q → kva ks →
  ∃ tf ctx mem', setup_kstack z ks (st s0 m l np km kpt mem fl ino) = Ok tt (st s0 m (zupd z (set_p_context ctx (set_p_tf tf q)) l) np km kpt mem' fl ino) ∧
    ∀ x, ¬ (ks ≤ x < ks + 4096) → ld8 mem' x = ld8 mem x.
Proof.
  intros Hz (Hk1 & Hk2 & Hk3). pose proof (znth_Some _ _ _ Hz) as Hl. unfold setup_kstack, KSTACKSIZE, TRAPFRAME, CONTEXT, KERNBASE in *.
  rewrite (u64_small (ks + 4096 - 34 * 8)) by lia. rewrite (u64_small (ks + 4096 - 34 * 8 - 8)) by lia. rewrite (u64_small (ks + 4096 - 34 * 8 - 8 - 8)) by lia.
  rewrite (u64_small (ks + 4096 - 34 * 8 - 8 - 8 - 27 * 8)) by lia. set (c := ks + 4096 - 34 * 8 - 8 - 8 - 27 * 8). rewrite (u64_small (c + 26 * 8)) by lia.
  eexists _, c, _. split.
  - erewrite bind_ok by reflexivity. rewrite (bind_ok _ _ _ _ _ (st_upd s0 m l np km kpt mem fl ino z q _ Hz)).
    do 2 rewrite (bind_ok _ _ _ _ _ (st_store _ _ _ _ _ _ _ _ _ _ _)).
    rewrite (bind_ok _ _ _ _ _ (st_upd _ _ _ _ _ _ _ _ _ z _ _ (znth_zupd l z _ Hl))), zupd_zupd.
    rewrite (bind_ok _ _ _ _ _ (st_memset _ _ _ _ _ _ _ _ _ c _ _ ltac:(lia))). apply st_store.
  - intros x Hx. rewrite ld8_st64_out by lia. rewrite ld8_memset. destruct ((c <=? x) && (x <? c + 27 * 8)) eqn:E; [lia|]. rewrite !ld8_st64_out by lia. done.
Qed.

Lemma heap_saved m km : heap_ok N NB (Kheap m km) → heap_ok N NB (Kheap (saved m) km).
Proof. intros (H1 & H2 & H3). destruct (saved_wf _ H2) as (W1 & W2 & _). split; [done|]. split; [done|]. cbn [h_mach] in *. by rewrite W2. Qed.
Definition new_proc (q : proc) (pid ks : Z) (tf : list Z) (ctx : Z) : proc :=
  set_p_context ctx (set_p_tf tf (set_p_kstack ks (set_p_pid pid (set_p_state EMBRYO q)))).

Lemma allocproc_ok m l np km kpt mem fl ino z q : cli_wf m → m_held m = ∅ → first_unused l z q → zlen l = NPROC → heap_ok N NB (Kheap m km) →
  KERNBASE ≤ k_start_heap km → (∃ b, 0 ≤ b < NB ∧ pgfree N km b) →
  ∃ b km' tf ctx mem', let ks := addr km 12 b in
    allocproc (st s0 m l np km kpt mem fl ino) = Ok (Some z) (st s0 (saved m) (zupd z (new_proc q np ks tf ctx) l) (s32 (np + 1)) km' kpt mem' fl ino) ∧
    0 ≤ b < NB ∧ heap_ok N NB (Kheap (saved m) km') ∧ same_bounds km km' ∧ pgfree N km b ∧
    (∀ u, indom NB u → free_at N km' u ↔ free_at N km u ∧ u / 4096 ≠ b) ∧ ∀ x, ¬ (ks ≤ x < ks + 4096) → ld8 mem' x = ld8 mem x.
Proof.
  intros Hw Hh Hz Hlen Hok Hhi Hroom. destruct (take_page (Kheap (saved m) km) (heap_saved _ _ Hok) Hroom) as (b & [mh km'] & Hb & Ra & Hok' & Hbd & Em & Hfr & Hf).
  cbn [h_mach h_kmem] in *. rewrite saved_twice in Em. subst mh. set (ks := addr km 12 b) in *.
  assert (Kks : kva ks) by (by apply (frame_kva N NB (Kheap m km) b)). pose proof (kva_pos _ Kks) as Hks.
  pose proof Hz as (Hzq & _ & _). pose proof (znth_Some _ _ _ Hzq) as Hzl.
  set (q3 := set_p_kstack ks (set_p_pid np (set_p_state EMBRYO q))).
  destruct (setup_ok (saved m) (zupd z q3 l) (s32 (np + 1)) km' kpt mem fl ino z q3 ks (znth_zupd _ _ _ Hzl) Kks) as (tf & ctx & mem' & Rs & Hmem). rewrite zupd_zupd in Rs.
  exists b, km', tf, ctx, mem'. split; [|done]. unfold allocproc.
  rewrite (bind_ok _ _ _ _ _ (st_acquire s0 m l np km kpt mem fl ino ptable_lock Hw)).
  rewrite (bind_ok _ _ _ _ _ (find_unused _ _ _ _ _ _ _ _ z q (Z.to_nat (NPROC - 0)) Hz 0 ltac:(lia) ltac:(rewrite Hlen in Hzl; unfold NPROC in *; lia))).
  rewrite (bind_ok _ _ _ _ _ (st_upd s0 _ _ _ _ _ _ _ _ z q _ Hzq)).
  rewrite (bind_ok _ _ _ np (st s0 (locked ptable_lock m) (zupd z (set_p_state EMBRYO q) l) np km kpt mem fl ino)) by (unfold gets; by rewrite st_base).
  rewrite (bind_ok _ _ _ _ _ (st_upd s0 _ _ _ _ _ _ _ _ z _ _ (znth_zupd l z _ Hzl))), zupd_zupd.
  rewrite (bind_ok _ _ _ tt (st s0 (locked ptable_lock m) (zupd z (set_p_pid np (set_p_state EMBRYO q)) l) (s32 (np + 1)) km kpt mem fl ino)) by (unfold modify; by rewrite st_base).
  rewrite (bind_ok _ _ _ _ _ (st_release s0 m _ _ _ _ _ _ _ ptable_lock Hw ltac:(rewrite Hh; apply not_elem_of_empty))).
  rewrite (bind_ok _ _ _ _ _ (st_zoom_heap s0 _ _ _ _ _ _ _ _ _ _ _ Ra)). cbn [h_mach h_kmem].
  rewrite (bind_ok _ _ _ _ _ (st_upd s0 _ _ _ _ _ _ _ _ z _ _ (znth_zupd l z _ Hzl))), zupd_zupd.
  rewrite (proj2 (Z.eqb_neq ks 0)) by lia. rewrite (bind_ok _ _ _ _ _ Rs). reflexivity.
Qed.
End alloc.

(** The space of the parent is not touched by the new stack. *)
Section stack.
Context (N NB : Z) (v : vmst) (pgd : Z) (R : gmap Z role) (F qs : list Z) (Hs : space N NB v pgd R F) (Ho : owns N NB v pgd 0 qs).
Context (b : Z) (km' : kmem) (m1 : mach) (mem' : gmap Z Z).
Abbreviation km := (h_kmem (v_heap v)).
Abbreviation ks := (addr km 12 b).
Context (Hb : 0 ≤ b < NB) (Hok : heap_ok N NB (Kheap m1 km')) (Hlk : kpt_lock ∉ m_held m1) (Hbd : same_bounds km km') (Hfr : pgfree N km b).
Context (Hf : ∀ u, indom NB u → free_at N km' u ↔ free_at N km u ∧ u / 4096 ≠ b).
Context (Hmem : ∀ x, ¬ (ks ≤ x < ks + 4096) → ld8 mem' x = ld8 (v_mem v) x).
Definition after : vmst := VmSt (Kheap m1 km') (v_freelist v) mem'.

Lemma stack_word t j : is_Some (R !! t) ∨ t ∈ F → 0 ≤ j < 512 → ld64 mem' (t + 8 * j) = ld64 (v_mem v) (t + 8 * j).
Proof.
  intros Ht Hj. pose proof (sc_low _ _ _ _ _ _ Hs t Ht) as Hl. unfold ld64. f_equal. apply ld_bytes_ext. intros x Hx. apply Hmem.
  unfold addr. change (2 ^ 12) with 4096. lia.
Qed.
Lemma stack_ptes va : ptes mem' pgd va = ptes (v_mem v) pgd va.
Proof. apply (agree_ptes _ _ _ R (sc_tree _ _ _ _ _ _ Hs)). intros q r j Hq Hj. apply stack_word; [left; by eexists|done]. Qed.
Lemma stack_space : space N NB after pgd R F.
Proof.
  pose proof Hs as [S1 [C1 C2 C3] S3 S4 S5 S6]. split; cbn [after v_mem v_freelist v_heap h_kmem h_mach]; [| | |done|by rewrite (same_start _ _ Hbd)|by rewrite (same_start _ _ Hbd)].
  - apply (agree_ptree (v_mem v)); [done|]. intros q r j Hq _ Hj. apply stack_word; [left; by eexists|done].
  - split; [|done|done]. apply (chain_agree (v_mem v)); [|done]. intros q Hq Kq. rewrite <- (Z.add_0_r q), <- (Z.mul_0_r 8). apply stack_word; [by right|lia].
  - split; [apply Hok|done].
Qed.
Lemma stack_held q : held N NB km q → held N NB km' q.
Proof. intros H u Hu. rewrite (same_start _ _ Hbd). intros Hq. rewrite (Hf u Hu). intros [Hfu _]. by apply (H u). Qed.
Lemma stack_owns : owns N NB after pgd 0 qs.
Proof.
  destruct Ho as [O1 O2 O3 O4]. split; cbn [after v_mem v_heap h_kmem]; [|intros p Hp|intros p Hp; by apply stack_held, O3|done].
  - intros i p Hi. destruct (O1 i p Hi) as (ap & Hap & E). exists ap. by rewrite stack_ptes.
  - destruct (O2 p Hp) as (c & Hc & ->). exists c. split; [done|]. unfold addr. by rewrite (same_start _ _ Hbd).
Qed.
Lemma stack_room n : room N NB km (S n) → room N NB km' n.
Proof using Hf.
  clear - Hf.
  intros (G & Hn & HG). exists (G ∖ {[b]}). split.
  - pose proof (size_difference_alt G {[b]}) as E. pose proof (subseteq_size (G ∩ {[b]}) {[b]} ltac:(set_solver)) as E2. rewrite size_singleton in E2. lia.
  - intros c [Hc Hne]%elem_of_difference. destruct (HG c Hc) as [Hcr Hcf]. split; [done|]. intros u Hu. apply Hf.
    + apply (blk_dom NB 12 c); [apply order12|by rewrite nblks12|done].
    + split; [by apply Hcf|]. rewrite Hu. set_solver.
Qed.
(** Pages in use keep their bytes. *)
Lemma stack_byte q x : kva q → held N NB km q → q ≤ x < q + 4096 → ld8 mem' x = ld8 (v_mem v) x.
Proof.
  intros Kq Hh Hx. apply Hmem. intros Hks. assert (Kks : kva ks) by (by apply (frame_kva N NB (v_heap v) b); [apply (sc_heap _ _ _ _ _ _ Hs)|apply (sc_high _ _ _ _ _ _ Hs)|]).
  apply (kva_disjoint q ks x x); [done|done|by apply (held_ne N NB km q b)|done|done|done].
Qed.
End stack.

(** * Open files and the current directory *)

(** The CPU outside a critical section. *)
Definition calm (m : mach) : Prop := cli_wf m ∧ m_held m = ∅.
Lemma calm_saved m : calm m → calm (saved m).
Proof. intros [H1 H2]. destruct (saved_wf _ H1) as (W1 & W2 & _). split; [done|]. by rewrite W2. Qed.
Lemma calm_free m lk : calm m → lk ∉ m_held m.
Proof. intros [_ ->]. apply not_elem_of_empty. Qed.

Lemma zupd_next {A} (a : list A) x y r : zupd (zlen a) y (a ++ x :: r) = (a ++ [y]) ++ r.
Proof.
  unfold zupd, zlen. rewrite (proj2 (Z.leb_le _ _)), Nat2Z.id by lia. rewrite <- (Nat.add_0_r (length a)), insert_app_r. simpl. by rewrite <- (assoc_L (++)).
Qed.
Lemma znth_next {A} (a : list A) x r : znth (a ++ x :: r) (zlen a) = Some x.
Proof. unfold znth, zlen. rewrite (proj2 (Z.leb_le _ _)), Nat2Z.id by lia. by rewrite lookup_app_r, Nat.sub_diag by lia. Qed.

(** How many of the descriptors refer to [f]. *)
Definition uses (f : Z) (L : list (option Z)) : Z := zlen (filter (λ o, o = Some f) L).
Lemma uses_cons f o L : uses f (o :: L) = (if decide (o = Some f) then 1 else 0) + uses f L.
Proof. unfold uses, zlen. rewrite filter_cons. case_decide; simpl; lia. Qed.
Lemma uses_le f L : 0 ≤ uses f L ≤ zlen L.
Proof. unfold uses, zlen. pose proof (length_filter (λ o, o = Some f) L). lia. Qed.
(** The file table after the descriptors [L] were duplicated. *)
Definition shared (L : list (option Z)) (fl fl' : list file) : Prop :=
  ∀ f, znth fl' f = (λ x, set_f_ref (f_ref x + uses f L) x) <$> znth fl f.
(** Every descriptor of [L] refers to an open file, with room for [L] more. *)
Definition files_ok (L : list (option Z)) (fl : list file) : Prop := ∀ f, Some f ∈ L → ∃ x, znth fl f = Some x ∧ 1 ≤ f_ref x ∧ f_ref x + zlen L < 2 ^ 31.

Section dup.
Context {WF : WaitFuel} (s0 : kst) (np : Z) (km : kmem) (kpt : Z) (mem : gmap Z Z) (ino : list inode).

Lemma st_filedup m l fl f x : calm m → znth fl f = Some x → 1 ≤ f_ref x < 2 ^ 31 - 1 →
  filedup f (st s0 m l np km kpt mem fl ino) = Ok f (st s0 (saved m) l np km kpt mem (zupd f (set_f_ref (f_ref x + 1) x) fl) ino).
Proof.
  intros Hm Hx Hr. unfold filedup. rewrite (bind_ok _ _ _ _ _ (st_acquire s0 m l np km kpt mem fl ino ftable_lock (proj1 Hm))).
  set (s1 := st s0 (locked ftable_lock m) l np km kpt mem fl ino). assert (Hg : get_file f s1 = Ok x s1) by (unfold get_file, bind, gets, must; simpl; by rewrite Hx).
  rewrite (bind_ok _ _ _ _ _ Hg), (proj2 (Z.ltb_ge _ _)), (bind_ok _ _ _ tt s1) by (done || lia).
  rewrite (bind_ok _ _ _ tt (st s0 (locked ftable_lock m) l np km kpt mem (zupd f (set_f_ref (f_ref x + 1) x) fl) ino)).
  2: { unfold upd_file. rewrite (bind_ok _ _ _ _ _ Hg), s32_small by lia. reflexivity. }
  by rewrite (bind_ok _ _ _ _ _ (st_release s0 m l np km kpt mem _ ino ftable_lock (proj1 Hm) (calm_free _ _ Hm))).
Qed.

Lemma dup_loop c z p l (Hc : b_cur (k_base s0) = Some c) (Hz : 0 ≤ z < zlen l) (Hne : z ≠ c) : ∀ rest a m q fl, znth l c = Some p → p_ofile p = a ++ rest →
  calm m → files_ok rest fl →
  ∃ m' fl', for_all (length rest) (zlen a) (fun i =>
      let* p := kmyproc in
      let* f := must "ofile" (znth (p_ofile p) i) in
      match f with
      | None => ret tt
      | Some f => let* f := filedup f in kupd_proc z (fun q => set_p_ofile (zupd i (Some f) (p_ofile q)) q)
      end) (st s0 m (zupd z (set_p_ofile (a ++ replicate (length rest) None) q) l) np km kpt mem fl ino) =
    Ok tt (st s0 m' (zupd z (set_p_ofile (a ++ rest) q) l) np km kpt mem fl' ino) ∧ calm m' ∧ shared rest fl fl'.
Proof.
  induction rest as [|o rest IH]; intros a m q fl Hp Ho Hm Hf.
  { exists m, fl. split; [done|]. split; [done|]. intros f. unfold uses. change (zlen (filter _ [])) with 0.
    destruct (znth fl f) as [[]|]; cbn; [by rewrite Z.add_0_r|done]. }
  cbn [length for_all replicate]. set (qa := set_p_ofile (a ++ None :: replicate (length rest) None) q).
  assert (Hmy : kmyproc (st s0 m (zupd z qa l) np km kpt mem fl ino) = Ok p (st s0 m (zupd z qa l) np km kpt mem fl ino)).
  { apply (st_myproc _ _ _ _ _ _ _ _ _ c); [done|]. by rewrite znth_zupd_ne. }
  assert (Eo : znth (p_ofile p) (zlen a) = Some o) by (rewrite Ho; apply znth_next).
  assert (Enext : zlen a + 1 = zlen (a ++ [o])) by (unfold zlen; rewrite length_app; simpl; lia).
  assert (Hsplit : p_ofile p = (a ++ [o]) ++ rest) by (by rewrite <- (assoc_L (++))).
  assert (Ezl : zlen (o :: rest) = zlen rest + 1) by (unfold zlen; simpl; lia).
  destruct o as [f|].
  - destruct (Hf f ltac:(left)) as (x & Hx & Hr1 & Hr2). pose proof (proj1 (uses_le f rest)). assert (0 ≤ zlen rest) by (unfold zlen; lia).
    pose proof (znth_Some _ _ _ Hx) as Hfl. set (fl1 := zupd f (set_f_ref (f_ref x + 1) x) fl).
    destruct (IH (a ++ [Some f]) (saved m) q fl1 Hp Hsplit (calm_saved _ Hm)) as (m' & fl' & R & Hm' & Hsh).
    { intros g Hg. destruct (Hf g ltac:(by right)) as (y & Hy & H1 & H2). destruct (decide (g = f)) as [->|Hgf].
      - rewrite Hx in Hy. injection Hy as <-. exists (set_f_ref (f_ref x + 1) x). split; [by apply znth_zupd|]. cbn [f_ref set_f_ref]. lia.
      - exists y. split; [unfold fl1; by rewrite znth_zupd_ne|lia]. }
    exists m', fl'. rewrite <- !(assoc_L (++)) in R. rewrite <- Enext in R. split; [|split; [done|]].
    + rewrite (bind_ok _ _ _ tt (st s0 (saved m) (zupd z (set_p_ofile ((a ++ [Some f]) ++ replicate (length rest) None) q) l) np km kpt mem fl1 ino)).
      { rewrite <- (assoc_L (++)). exact R. }
      rewrite (bind_ok _ _ _ _ _ Hmy), Eo. rewrite (bind_ok _ _ _ (Some f) _) by reflexivity.
      rewrite (bind_ok _ _ _ _ _ (st_filedup m _ fl f x Hm Hx ltac:(lia))). fold fl1.
      rewrite (st_upd s0 _ _ _ _ _ _ _ _ z qa _ (znth_zupd l z _ Hz)), zupd_zupd. unfold qa. cbn [p_ofile set_p_ofile]. rewrite zupd_next. reflexivity.
    + intros g. rewrite Hsh, uses_cons. unfold fl1. destruct (decide (g = f)) as [->|Hgf].
      * rewrite znth_zupd, Hx, decide_True by done. cbn [fmap option_fmap option_map]. change (f_ref (set_f_ref (f_ref x + 1) x)) with (f_ref x + 1). replace (f_ref x + (1 + uses f rest)) with (f_ref x + 1 + uses f rest) by lia. reflexivity.
      * rewrite znth_zupd_ne, decide_False by congruence. rewrite Z.add_0_l. reflexivity.
  - destruct (IH (a ++ [None]) m q fl Hp Hsplit Hm) as (m' & fl' & R & Hm' & Hsh).
    { intros g Hg. destruct (Hf g ltac:(by right)) as (y & Hy & H1 & H2). exists y. split; [done|lia]. }
    exists m', fl'. rewrite <- Enext in R. split; [|split; [done|]].
    + rewrite (bind_ok _ _ _ tt (st s0 m (zupd z qa l) np km kpt mem fl ino)) by (by rewrite (bind_ok _ _ _ _ _ Hmy), Eo, (bind_ok _ _ _ None _) by reflexivity).
      unfold qa. rewrite <- !(assoc_L (++)) in R. exact R.
    + intros g. rewrite Hsh, uses_cons, decide_False by done. by rewrite Z.add_0_l.
Qed.
End dup.

Lemma st_idup s0 m l np km kpt mem fl ino ip r : calm m → znth ino ip = Some r → 0 ≤ i_ref r < 2 ^ 31 - 1 →
  (zoom (idup ip) : M kst Z) (st s0 m l np km kpt mem fl ino) = Ok ip (st s0 (saved m) l np km kpt mem fl (zupd ip (set_i_ref (i_ref r + 1) r) ino)).
Proof.
  intros Hm Hr Hb. set (B := λ m, Base m l (b_cur (k_base s0)) (b_init (k_base s0)) np). set (f := λ m ino, set_fs_inode ino (lset (B m) (k_fs s0))).
  assert (Eb : ∀ m ino, lget (f m ino) = B m) by (intros ? ?; unfold f; by destruct (k_fs s0) as [[[] ? ? ? ? ? ?] ?]).
  assert (R : idup ip (f m ino) = Ok ip (f (saved m) (zupd ip (set_i_ref (i_ref r + 1) r) ino))).
  { unfold idup. rewrite (bind_ok _ _ _ tt (f (locked icache_lock m) ino)).
    2: { rewrite (bacquire_ok (S:=fsst)) by (rewrite Eb; apply Hm). rewrite Eb. reflexivity. }
    rewrite (bind_ok _ _ _ tt (f (locked icache_lock m) (zupd ip (set_i_ref (i_ref r + 1) r) ino))).
    2: { rewrite <- (s32_small (i_ref r + 1)) by lia. by apply (upd_inode_ok (f (locked icache_lock m) ino) ip r (fun r => set_i_ref (s32 (i_ref r + 1)) r)). }
    rewrite (bind_ok _ _ _ tt (f (saved m) (zupd ip (set_i_ref (i_ref r + 1) r) ino))); [done|].
    unfold brelease. erewrite zoom_ok by (rewrite Eb; unfold zoom; simpl; rewrite (release_locked icache_lock m (proj1 Hm) (calm_free _ _ Hm)); reflexivity).
    reflexivity. }
  rewrite (zoom_ok (H:=lens_k_fs) (idup ip) (st s0 m l np km kpt mem fl ino) _ _ R). reflexivity.
Qed.

(** * [fork] *)

Section fork.
Context {WF : WaitFuel} {KS : KernelSyms} (N NB : Z).

(** A process that can fork: a slot, pages for its memory and a stack, and tables
    are free; it has a space with the pages [qs], open files and a current directory. *)
Record can_fork (s : kst) (c : Z) (p : proc) (z : Z) (q : proc) (R : gmap Z role) (F qs : list Z) (ip : Z) (r : inode) : Prop := {
  cf_ease : at_ease (k_base s) c p;
  cf_run : p_state p = RUNNING;
  cf_slot : first_unused (procs s) z q;
  cf_clean : p_ofile q = replicate (Z.to_nat NOFILE) None;
  cf_space : space N NB (k_vm s) (p_pgdir p) R F;
  cf_owns : owns N NB (k_vm s) (p_pgdir p) 0 qs;
  cf_size : zlen qs = npg (p_sz p) ∧ 0 ≤ p_sz p ≤ UADDR_SZ;
  cf_room : room N NB (k_km s) (S (length qs));
  cf_tables : (2 * length qs + 1 ≤ length F)%nat;
  cf_ofile : length (p_ofile p) = Z.to_nat NOFILE;
  cf_files : files_ok (p_ofile p) (k_file s);
  cf_cwd : p_cwd p = Some ip ∧ znth (fs_inode (k_fs s)) ip = Some r ∧ 0 ≤ i_ref r < 2 ^ 31 - 1;
}.
(** The child of [p], in the slot that held [q]. *)
Record child_proc (pid c : Z) (p q q' : proc) : Prop := {
  ch_state : p_state q' = RUNNABLE;
  ch_pid : p_pid q' = pid;
  ch_parent : p_parent q' = Some c;
  ch_sz : p_sz q' = p_sz p;
  ch_tf : p_tf q' = zupd TF_R0 0 (p_tf p);
  ch_ofile : p_ofile q' = p_ofile p;
  ch_cwd : p_cwd q' = p_cwd p;
  ch_name : p_name q' = safestrcpy_name (p_name q) (str_of (p_name p));
}.
(** The memory of the child at [d], with the pages [ps]: a copy of the pages [qs] at
    [old], which are as they were, and a stack of its own. *)
Record child_memory (s : kst) (old : Z) (R : gmap Z role) (qs : list Z) (s' : kst) (d ks : Z) (R' : gmap Z role) (F' ps : list Z) : Prop := {
  cm_root : d ≠ 0;
  cm_space : space N NB (k_vm s') d R' F';
  cm_owns : owns N NB (k_vm s') d 0 ps;
  cm_len : length ps = length qs;
  cm_pages : ∀ i p q, ps !! i = Some p → qs !! i = Some q → (p ∉ qs) ∧
    PTE_AP (ptes (k_mem s') d (4096 * Z.of_nat i)) = PTE_AP (ptes (k_mem s) old (4096 * Z.of_nat i)) ∧
    ∀ x, 0 ≤ x < 4096 → ld8 (k_mem s') (p + x) = ld8 (k_mem s) (q + x) ∧ ld8 (k_mem s') (q + x) = ld8 (k_mem s) (q + x);
  cm_tree : ptree (k_mem s') old R;
  cm_ptes : ∀ va, ptes (k_mem s') old va = ptes (k_mem s) old va;
  cm_stack : held N NB (k_km s') ks ∧ (ks ∉ ps) ∧ (ks ∉ qs);
}.
Record forked (s : kst) (c : Z) (p : proc) (z : Z) (q : proc) (R : gmap Z role) (qs : list Z) (ip : Z) (r : inode) (s' : kst) (q' : proc) : Prop := {
  fk_procs : procs s' = zupd z q' (procs s);
  fk_child : child_proc (b_nextpid (k_base s)) c p q q';
  fk_memory : ∃ R' F' ps, child_memory s (p_pgdir p) R qs s' (p_pgdir q') (p_kstack q') R' F' ps;
  fk_files : shared (p_ofile p) (k_file s) (k_file s');
  fk_inode : fs_inode (k_fs s') = zupd ip (set_i_ref (i_ref r + 1) r) (fs_inode (k_fs s));
  fk_calm : calm (b_mach (k_base s'));
  fk_next : b_nextpid (k_base s') = s32 (b_nextpid (k_base s) + 1) ∧ b_cur (k_base s') = b_cur (k_base s) ∧ b_init (k_base s') = b_init (k_base s);
  fk_rest : k_pipe s' = k_pipe s ∧ k_cons s' = k_cons s ∧ k_ticks s' = k_ticks s;
}.

(** ** The memory *)

(** Putting the stack and the copy together. *)
Lemma fork_memory s old R F qs b km' m1 mem' v2 d R' F' ps s' : space N NB (k_vm s) old R F → owns N NB (k_vm s) old 0 qs → 0 ≤ b < NB →
  heap_ok N NB (Kheap m1 km') → calm m1 → same_bounds (k_km s) km' → pgfree N (k_km s) b →
  (∀ u, indom NB u → free_at N km' u ↔ free_at N (k_km s) u ∧ u / 4096 ≠ b) →
  (∀ x, ¬ (addr (k_km s) 12 b ≤ x < addr (k_km s) 12 b + 4096) → ld8 mem' x = ld8 (k_mem s) x) →
  copy_of N NB (VmSt (Kheap m1 km') (k_kpt s) mem') old R F qs v2 d R' F' ps →
  k_km s' = h_kmem (v_heap v2) → k_kpt s' = v_freelist v2 → k_mem s' = v_mem v2 → calm (b_mach (k_base s')) →
  child_memory s old R qs s' d (addr (k_km s) 12 b) R' F' ps.
Proof.
  intros Hs Ho Hb Hok Hm1 Hbd Hfr Hf Hmem Hco E1 E2 E3 Hm'. pose proof Hco as [C1 C2 C3 C4 C5 C6 C7 C8 C9 _ _ _]. cbn [v_mem v_heap h_kmem h_mach] in *.
  set (ks := addr (k_km s) 12 b) in *. assert (Hq : ∀ q, q ∈ qs → kva q ∧ held N NB (k_km s) q).
  { intros q Hq. destruct (ow_page _ _ _ _ _ _ Ho q Hq) as (c & Hc & E). split; [|by apply (ow_held _ _ _ _ _ _ Ho)].
    rewrite E. by apply (frame_kva N NB (v_heap (k_vm s)) c); [apply (sc_heap _ _ _ _ _ _ Hs)|apply (sc_high _ _ _ _ _ _ Hs)|]. }
  assert (Eptes : ∀ va, ptes mem' old va = ptes (k_mem s) old va) by exact (stack_ptes N NB (k_vm s) old R F Hs b mem' Hb Hmem).
  assert (Ebyte : ∀ q x, q ∈ qs → 0 ≤ x < 4096 → ld8 mem' (q + x) = ld8 (k_mem s) (q + x)).
  { intros q x [Kq Hh]%Hq Hx. apply (stack_byte N NB (k_vm s) old R F Hs b mem' Hb Hfr Hmem q); [done..|lia]. }
  assert (Hks : ∀ u, indom NB u → ks ≤ k_start_heap (k_km s) + u < ks + 4096 → ¬ free_at N km' u).
  { intros u Hu Hku. apply frame_byte in Hku. rewrite (Hf u Hu). tauto. }
  assert (Est : k_start_heap (h_kmem (v_heap v2)) = k_start_heap (k_km s)).
  { rewrite <- (same_start _ _ Hbd). apply same_start. exact (co_bounds _ _ _ _ _ _ _ _ _ _ _ _ Hco). }
  split; rewrite ?E1, ?E3; try done.
  - unfold k_vm. rewrite E1, E2, E3. exact (space_mach N NB v2 d R' F' _ C2 (proj1 Hm') (calm_free _ _ Hm') (calm_free _ _ Hm')).
  - unfold k_vm. rewrite E1, E2, E3. destruct C3 as [O1 O2 O3 O4]. by split.
  - intros i p q Hp Hqi. destruct (C5 i p q Hp Hqi) as (D1 & D2 & D3). rewrite <- Eptes. split; [done|]. split; [done|].
    intros x Hx. rewrite <- (Ebyte q x) by (done || by eapply list_elem_of_lookup_2). by apply D3.
  - intros va. by rewrite C7, Eptes.
  - split; [|split].
    + intros u Hu. rewrite Est. intros Hku. rewrite (C9 u Hu). intros [Hfu _]. by apply (Hks u Hu).
    + intros Hin. destruct (co_new _ _ _ _ _ _ _ _ _ _ _ _ Hco ks Hin) as (c & Hc & E & Hfc). cbn [v_heap h_kmem] in E, Hfc.
      unfold ks, addr in E. rewrite (same_start _ _ Hbd) in E. change (2 ^ 12) with 4096 in E. assert (c = b) as -> by lia.
      apply (Hf (b * 4096)); [unfold indom; lia|apply Hfc, Z.div_mul; lia|apply Z.div_mul; lia].
    + intros [_ Hh]%Hq. by apply (held_ne N NB (k_km s) ks b Hh Hb Hfr).
Qed.

(** ** The run *)

(** C8: [fork] makes a copy of the process: the child is in a slot that was unused, with
    a pid of its own and the caller as its parent, ready to run with the same
    registers but 0 as the result of the call; it has a page of its own for every
    page of the parent with the same bytes and permissions at the same address, and
    a stack of its own; it has the same descriptors, each counted once more in the
    file table, and the same current directory.  The parent, its memory and
    everything else are as before, and the call returns the pid of the child. *)
Theorem fork_spec s c p z q R F qs ip r : can_fork s c p z q R F qs ip r →
  ∃ s' q', fork s = Ok (b_nextpid (k_base s)) s' ∧ forked s c p z q R qs ip r s' q'.
Proof.
  intros [He Hrun Hslot Hcl Hsp How [Hlen Hsz] Hroom Htab Hol Hfiles (Hcwd & Hip & Hir)]. pose proof He as [Hw _ Hh Hcur Hp Hn].
  set (m := b_mach (k_base s)) in *. set (l := procs s) in *. set (np := b_nextpid (k_base s)) in *.
  pose proof Hslot as (Hzq & Hzu & _). pose proof (znth_Some _ _ _ Hzq) as Hz.
  assert (Hzc : z ≠ c). { intros ->. unfold l, procs in Hzq. rewrite Hp in Hzq. injection Hzq as <-. congruence. }
  destruct (allocproc_ok N NB s m l np (k_km s) (k_kpt s) (k_mem s) (k_file s) (fs_inode (k_fs s)) z q Hw Hh Hslot Hn) as (b & km' & tf & ctx & mem' & R1 & Hb & Hok & Hbd & Hfr & Hf & Hmem).
  { apply Hsp. } { apply Hsp. }
  { destruct Hroom as (G & Hg & HG). assert (G ≠ ∅) as [g Hgg]%set_choose_L by (intros ->; rewrite size_empty in Hg; lia). exists g. by apply HG. }
  set (ks := addr (k_km s) 12 b) in *. assert (Hm1 : calm (saved m)) by (by apply calm_saved).
  destruct (copyuvm_ok N NB (p_pgdir p) (VmSt (Kheap (saved m) km') (k_kpt s) mem') R F qs (p_sz p)) as (d & v2 & ps & R' & F' & R2 & Hco); [| |done|done| |done|].
  { exact (stack_space N NB (k_vm s) (p_pgdir p) R F Hsp b km' (saved m) mem' Hb Hok (calm_free _ _ Hm1) Hbd Hmem). }
  { exact (stack_owns N NB (k_vm s) (p_pgdir p) R F qs Hsp How b km' (saved m) mem' Hb Hbd Hf Hmem). }
  { exact (stack_room N NB (k_vm s) b km' Hf _ Hroom). }
  assert (Hm2 : calm (h_mach (v_heap v2))).
  { split; [apply (co_space _ _ _ _ _ _ _ _ _ _ _ _ Hco)|]. rewrite (co_held _ _ _ _ _ _ _ _ _ _ _ _ Hco). apply Hm1. }
  assert (Hup : ∀ x y : proc, znth (zupd z x l) z = Some x ∧ znth (zupd z x l) c = Some p ∧ zupd z y (zupd z x l) = zupd z y l).
  { intros x y. split; [by apply znth_zupd|]. split; [by rewrite znth_zupd_ne|apply zupd_zupd]. }
  set (q1 := set_tf TF_R0 0 (set_p_tf (p_tf p) (set_p_parent (Some c) (set_p_sz (p_sz p) (set_p_pgdir d (new_proc q np ks tf ctx)))))).
  destruct (dup_loop s (s32 (np + 1)) (h_kmem (v_heap v2)) (v_freelist v2) (v_mem v2) (fs_inode (k_fs s)) c z p l Hcur Hz Hzc (p_ofile p) [] (h_mach (v_heap v2)) q1 (k_file s) Hp eq_refl Hm2 Hfiles)
    as (m3 & fl' & R3 & Hm3 & Hsh). cbn [app] in R3. rewrite Hol in R3. change (zlen (@nil (option Z))) with 0 in R3.
  assert (Eq1 : set_p_ofile (replicate (Z.to_nat NOFILE) None) q1 = q1) by (rewrite <- Hcl; by destruct q). rewrite Eq1 in R3.
  set (q' := set_p_name (safestrcpy_name (p_name q) (str_of (p_name p))) (set_p_state RUNNABLE (set_p_cwd (Some ip) (set_p_ofile (p_ofile p) q1)))).
  exists (st s (saved m3) (zupd z q' l) (s32 (np + 1)) (h_kmem (v_heap v2)) (v_freelist v2) (v_mem v2) fl' (zupd ip (set_i_ref (i_ref r + 1) r) (fs_inode (k_fs s)))), q'. split.
  - unfold fork. rewrite <- (st_self s) at 1. rewrite (bind_ok _ _ _ _ _ R1). set (n0 := new_proc q np ks tf ctx) in *.
    rewrite (bind_ok _ _ _ _ _ (st_myproc s _ _ _ _ _ _ _ _ c p Hcur (proj1 (proj2 (Hup n0 n0))))).
    rewrite u32_small by (change UADDR_SZ with (2 ^ 28) in Hsz; lia). rewrite (bind_ok _ _ _ _ _ (st_zoom_vm s _ _ _ _ _ _ _ _ _ _ _ R2)).
    rewrite (bind_ok _ _ _ _ _ (st_upd s _ _ _ _ _ _ _ _ z n0 _ (proj1 (Hup n0 n0)))), (proj2 (proj2 (Hup n0 _))).
    rewrite (proj2 (Z.eqb_neq d 0)) by apply Hco. rewrite (bind_ok _ _ _ _ _ (st_cur s _ _ _ _ _ _ _ _ c Hcur)).
    rewrite (bind_ok _ _ _ _ _ (st_myproc s _ _ _ _ _ _ _ _ c p Hcur (proj1 (proj2 (Hup _ n0))))).
    do 4 (rewrite (bind_ok _ _ _ _ _ (st_upd s _ _ _ _ _ _ _ _ z _ _ (proj1 (Hup _ n0)))), (proj2 (proj2 (Hup _ _)))).
    unfold dup_files. rewrite (bind_ok _ _ _ _ _ R3). rewrite (bind_ok _ _ _ _ _ (st_myproc s _ _ _ _ _ _ _ _ c p Hcur (proj1 (proj2 (Hup _ n0))))).
    rewrite Hcwd, (bind_ok _ _ _ ip _) by reflexivity. rewrite (bind_ok _ _ _ _ _ (st_idup s m3 _ _ _ _ _ _ _ ip r Hm3 Hip Hir)).
    rewrite (bind_ok _ _ _ _ _ (st_upd s _ _ _ _ _ _ _ _ z _ _ (proj1 (Hup _ n0)))), (proj2 (proj2 (Hup _ _))).
    rewrite (bind_ok _ _ _ _ _ (st_proc s _ _ _ _ _ _ _ _ z _ (proj1 (Hup _ n0)))).
    rewrite (bind_ok _ _ _ _ _ (st_upd s _ _ _ _ _ _ _ _ z _ _ (proj1 (Hup _ n0)))), (proj2 (proj2 (Hup _ _))).
    rewrite (bind_ok _ _ _ _ _ (st_myproc s _ _ _ _ _ _ _ _ c p Hcur (proj1 (proj2 (Hup _ n0))))).
    rewrite (bind_ok _ _ _ _ _ (st_upd s _ _ _ _ _ _ _ _ z _ _ (proj1 (Hup _ n0)))), (proj2 (proj2 (Hup _ _))). reflexivity.
  - assert (Hmm : calm (saved m3)) by (by apply calm_saved). split; rewrite ?st_base; try done.
    exists R', F', ps. apply (fork_memory s (p_pgdir p) R F qs b km' (saved m) mem' v2 d R' F' ps _ Hsp How Hb Hok Hm1 Hbd Hfr Hf Hmem Hco); [done..|].
    by rewrite st_base.
Qed.
End fork.

(** ** Witness *)

(** [init] and a program that runs, with one page of memory and one open file on its
    standard output and error; the other slots are unused. *)
Definition forker : proc :=
  set_p_ofile ([None; Some 0; Some 0] ++ replicate 13 None) (set_p_cwd (Some 5) (set_p_sz 4000 (set_p_pgdir (demo_t 0) (life_proc 2 (Some 0) RUNNING None)))).
Definition fork_kst (k : kmem) : kst :=
  set_k_base (life_base 1 ([life_proc 1 None SLEEPING (Some (proc_chan 0)); forker] ++ replicate 62 zero_proc))
    (set_k_km k (set_k_kpt (demo_t 3) (set_k_mem demo_tables (demo_kst [] [File FD_INODE 2 1 1 0 (Some 7) 0] ∅)))).
Lemma fork_room h : demo7 h → room 1 7 (h_kmem h) 2.
Proof.
  intros [_ _ _ Hf]. exists {[3; 4]}. split; [by vm_compute|].
  intros b Hb. assert (3 ≤ b ≤ 4) by set_solver by lia. split; [lia|]. intros u Hu. apply Hf; [|lia].
  unfold indom. pose proof (Z.div_mod u 4096 ltac:(lia)). pose proof (Z.mod_pos_bound u 4096 ltac:(lia)). lia.
Qed.
Lemma can_fork_kst h : demo7 h →
  can_fork 1 7 (fork_kst (h_kmem h)) 1 forker 2 zero_proc demo_roles demo_free_tables [0xFFFFFFFF40201000] 5 (Inode 0 0 0 0 0 0 0 0 0 (replicate 13 0)).
Proof.
  intros Hh. assert (Hc : calm (Mach 0 0 0 ∅ 0x1000)) by (split; [split; simpl; [lia|done]|done]).
  split; try reflexivity.
  - split; [apply Hc|reflexivity..].
  - split; [reflexivity|]. split; [reflexivity|]. intros i x Hi Hx. pose proof (znth_Some _ _ _ Hx) as Hr.
    assert (i = 0 ∨ i = 1) as [->| ->] by lia; injection Hx as <-; discriminate.
  - exact (space_mach 1 7 (demo_vm h) (demo_t 0) _ _ _ (demo_space h Hh) (proj1 Hc) (calm_free _ _ Hc) (calm_free _ _ Hc)).
  - destruct (demo_owns h Hh) as [O1 O2 O3 O4]. by split.
  - split; [reflexivity|]. vm_compute. split; discriminate.
  - exact (fork_room h Hh).
  - vm_compute. lia.
  - intros f Hf. assert (f = 0) as ->. { repeat (apply elem_of_cons in Hf as [Hf|Hf]; [congruence|]). by apply elem_of_nil in Hf. }
    eexists. split; [reflexivity|]. vm_compute. split; [discriminate|reflexivity].
  - split; [reflexivity|]. split; [reflexivity|]. simpl. lia.
Qed.
#[local] Instance demo_syms : KernelSyms := {| sym_trapret := 0xFFFFFFFF40080000; sym_forkret := 0xFFFFFFFF40080100; sym_initcode_start := 0; sym_initcode_size := 0 |}.
#[local] Instance fork_fuel_wait : WaitFuel := 0%nat.
Lemma fork_spec_witness : ∃ h s', fork (fork_kst h) = Ok 5 s' ∧ (p_state <$> znth (procs s') 2) = Some RUNNABLE ∧
  (f_ref <$> znth (k_file s') 0) = Some 4.
Proof.
  destruct demo_heap7 as [h Hh]. exists (h_kmem h).
  destruct (fork_spec 1 7 _ _ _ _ _ _ _ _ _ _ (can_fork_kst h Hh)) as (s' & q' & R & [E1 E2 _ E4 _ _ _ _]).
  exists s'. split; [exact R|]. split; [|rewrite E4; reflexivity].
  rewrite E1, znth_zupd by (split; reflexivity || (vm_compute; discriminate)). cbn. by rewrite (ch_state _ _ _ _ _ E2).
Defined.
