(* ===== verification/Exec.v ===== *)
(** Loading a program: [exec.c], with [loaduvm] of [vm.c]. *)

From S2P Require Import Prelude Spin Sched Mem Str Dll Buddy Bio Log Fs Vm Kernel Console Pipe File Proc.

(** * ELF files ([elf.h]) *)

Definition get64 (off : nat) (blk : list Z) : Z := le_dec (slice off 8 blk).

Record elfhdr := Elfhdr { e_magic : Z; e_entry : Z; e_phoff : Z; e_phnum : Z }.
Record proghdr := Proghdr {
  ph_type : Z; ph_off : Z; ph_vaddr : Z; ph_filesz : Z; ph_memsz : Z;
}.
Definition ELFHDR : Z := 64.                  (* sizeof(struct elfhdr) *)
Definition PROGHDR : Z := 56.                 (* sizeof(struct proghdr) *)
Definition ELF_MAGIC : Z := 0x464C457F.
Definition ELF_PROG_LOAD : Z := 1.
Definition MAXARG : Z := 32.

Definition get_elfhdr (l : list Z) : elfhdr :=
  Elfhdr (get32 0 l) (get64 24 l) (get64 32 l) (get16 56 l).
Definition get_proghdr (l : list Z) : proghdr :=
  Proghdr (get32 0 l) (get64 8 l) (get64 16 l) (get64 32 l) (get64 40 l).

Section exec.
Context {WF : WaitFuel}.

(** [for (i = 0; i < sz; i += PTE_SZ)]; returns 0 or -1. *)
Fixpoint loaduvm_loop (fuel : nat) (pgdir addr ip offset sz i : Z) : M kst Z :=
  if i <? sz then
    match fuel with
    | O => out_of_fuel
    | S fuel =>
        let* pte := zoom (walkpgdir pgdir (u64 (addr + i)) false) in
        panic_if (pte =? 0) "loaduvm: address should exist" ;;
        let* v := zoom (load64 pte) in
        let pa := u32 (PTE_ADDR v) in
        let n := if sz - i <? PTE_SZ then sz - i else PTE_SZ in
        let* (c, l) := readi ip (u32 (offset + i)) n in
        zoom (kcopyin (p2v pa) l) ;;
        if negb (u32 c =? n) then ret (-1)
        else loaduvm_loop fuel pgdir addr ip offset sz (u32 (i + PTE_SZ))
    end
  else ret 0.
Definition loaduvm (pgdir addr ip offset sz : Z) : M kst Z :=
  panic_if (negb (addr mod PTE_SZ =? 0)) "loaduvm: addr must be page aligned" ;;
  loaduvm_loop (Z.to_nat (sz / PTE_SZ + 1)) pgdir addr ip offset sz 0.

(** [bad:] when [pgdir] has been set and [ip] is [ip]. *)
Definition exec_bad (pgdir : Z) (ip : option Z) : M kst Z :=
  when (ztrue pgdir) (zoom (freevm pgdir)) ;;
  (match ip with Some ip => zoom (iunlockput ip) | None => ret tt end) ;;
  ret (-1).

(** The loop over the program headers; [None] is [goto bad]. *)
Fixpoint exec_load (n : nat) (pgdir ip off sz : Z) : M kst (option Z) :=
  match n with
  | O => ret (Some sz)
  | S n =>
      let* (c, l) := readi ip (u32 off) PROGHDR in
      if negb (c =? PROGHDR) then ret None else
      let ph := get_proghdr l in
      if negb (ph_type ph =? ELF_PROG_LOAD) then exec_load n pgdir ip (s32 (off + PROGHDR)) sz
      else if ph_memsz ph <? ph_filesz ph then ret None
      else
        let* r := zoom (allocuvm pgdir (u32 sz) (u32 (ph_vaddr ph + ph_memsz ph))) in
        let sz := u64 r in
        if sz =? 0 then ret None else
        let* r := loaduvm pgdir (ph_vaddr ph) ip (u32 (ph_off ph)) (u32 (ph_filesz ph)) in
        if r <? 0 then ret None else
        exec_load n pgdir ip (s32 (off + PROGHDR)) sz
  end.

(** The loop that pushes the argument strings; [argv] are the pointers before
    the null one.  Returns [sp] and [ustack]. *)
Fixpoint exec_args (fuel : nat) (pgdir sp : Z) (argv : list Z) (ustack : list Z)
  : M kst (option (Z * list Z)) :=
  match argv with
  | [] => ret (Some (sp, ustack))
  | a :: argv =>
      if MAXARG <=? zlen ustack then ret None else
      let* s := ustr fuel a in
      let sp := Z.land (u64 (sp - (zlen s + 1))) (u64 (Z.lnot 7)) in
      let* r := zoom (copyout pgdir (u32 sp) (s ++ [0]) (zlen s + 1)) in
      if r <? 0 then ret None else exec_args fuel pgdir sp argv (ustack ++ [sp])
  end.

(** The part of the path after its last slash. *)
Fixpoint last_elem (p last : list Z) : list Z :=
  match p with
  | [] => last
  | c :: p => last_elem p (if c =? SLASH then p else last)
  end.

(** After the segments are loaded: the stack, the arguments, and the switch to
    the new image. *)
Definition exec_commit (fuel : nat) (path : Z) (argv : list Z) (elf : elfhdr) (pgdir sz : Z) : M kst Z :=
  let sz := align_up sz PTE_SZ in
  let* r := zoom (allocuvm pgdir (u32 sz) (u32 (sz + 2 * PTE_SZ))) in
  let sz := u64 r in
  if sz =? 0 then exec_bad pgdir None else
  zoom (clearpteu pgdir (u64 (sz - 2 * PTE_SZ))) ;;
  let* r := exec_args fuel pgdir sz argv [] in
  match r with
  | None => exec_bad pgdir None
  | Some (sp, ustack) =>
      let argc := zlen ustack in
      let ustack := ustack ++ [0] in
      let* cur := kcur in
      kupd_proc cur (set_tf TF_R0 argc) ;;
      kupd_proc cur (set_tf TF_R1 (sp - (argc + 1) * 8)) ;;
      let sp := u64 (sp - (argc + 1) * 8) in
      let* r := zoom (copyout pgdir (u32 sp) (concat (le_enc 8 <$> ustack)) (u32 ((argc + 1) * 8))) in
      if r <? 0 then exec_bad pgdir None else
      let* s := ustr fuel path in
      kupd_proc cur (fun p => set_p_name (safestrcpy_name (p_name p) (last_elem s s)) p) ;;
      let* p := kproc cur in
      let oldpgdir := p_pgdir p in
      kupd_proc cur (set_p_pgdir pgdir) ;;
      kupd_proc cur (set_p_sz sz) ;;
      kupd_proc cur (set_tf TF_PC (e_entry elf)) ;;
      kupd_proc cur (set_tf TF_SP sp) ;;
      zoom (switchuvm cur) ;;
      zoom (freevm oldpgdir) ;;
      ret 0
  end.

(** [path] and [argv] are pointers into the running process; [fuel] bounds the
    length of its strings.  The first two [goto bad] leave [pgdir] without a
    value, and [bad:] reads it.  [readi] returns an [int] that is compared with
    the unsigned [sizeof(elf)]. *)
Definition exec (fuel : nat) (path : Z) (argv : list Z) : M kst Z :=
  let* s := ustr fuel path in
  let* ip := namei s in
  match ip with
  | None => ret (-1)
  | Some ip =>
      zoom (ilock (Some ip)) ;;
      let* (c, l) := readi ip 0 ELFHDR in
      if u64 c <? ELFHDR then undef "exec: pgdir is not initialised" else
      if zlen l <? ELFHDR then undef "exec: elf is not initialised" else
      let elf := get_elfhdr l in
      if negb (e_magic elf =? ELF_MAGIC) then undef "exec: pgdir is not initialised" else
      let* pgdir := zoom kpt_alloc in
      if pgdir =? 0 then exec_bad 0 (Some ip) else
      let* r := exec_load (Z.to_nat (e_phnum elf)) pgdir ip (s32 (e_phoff elf)) 0 in
      match r with
      | None => exec_bad pgdir (Some ip)
      | Some sz =>
          zoom (iunlockput ip) ;;
          exec_commit fuel path argv elf pgdir sz
      end
  end.
End exec.
