(* ===== verification/Syscall.v ===== *)
(** System calls: [syscall.c], [sysproc.c] and [sysfile.c].

    A handler runs for the current process; arguments come from its trap frame
    and pointers go through its page table.  An [int] result is a [Z]; a pointer
    argument that a helper stores through is returned. *)

From S2P Require Import Prelude Spin Sched Mem Str Dll Buddy Bio Log Fs Vm Kernel Console Pipe File Proc Exec.

(** * Arguments *)

(** [None] is the result -1, else the word stored at [*ip]. *)
Definition fetchint (addr : Z) : M kst (option Z) :=
  let* p := kmyproc in
  if (p_sz p <=? addr) || (p_sz p <? u64 (addr + 8)) then ret None else
  let* l := uload 8 addr in
  ret (Some (s64 (le_dec l))).

(** The scan for the NUL: [n] bytes are left; the offset it is at. *)
Fixpoint find_nul (n : nat) (s i : Z) : M kst (option Z) :=
  match n with
  | O => ret None
  | S n =>
      let* c := uload8 (s + i) in
      if c =? 0 then ret (Some i) else find_nul n s (i + 1)
  end.
(** The length of the string at [addr]. *)
Definition fetchstr (addr : Z) : M kst (option Z) :=
  let* p := kmyproc in
  if p_sz p <=? addr then ret None
  else find_nul (Z.to_nat (p_sz p - addr)) addr 0.

Definition argint (n : Z) : M kst Z :=
  panic_if (3 <? n) "too many system call parameters" ;;
  let* p := kmyproc in
  let* v := must "proc->tf" (znth (p_tf p) (TF_R1 + n)) in
  ret (s64 v).

Definition argptr (n size : Z) : M kst (option Z) :=
  let* i := argint n in
  let* p := kmyproc in
  if (p_sz p <=? u64 i) || (p_sz p <? u64 (u64 i + s32 size)) then ret None
  else ret (Some (u64 i)).

(** The address of the string, when it is one. *)
Definition argstr (n : Z) : M kst (option Z) :=
  let* addr := argint n in
  let* r := fetchstr (u64 addr) in
  ret (match r with Some _ => Some (u64 addr) | None => None end).

(** The bytes of the string a checked pointer refers to; it ends below [sz]. *)
Definition ustring (addr : Z) : M kst (list Z) :=
  let* p := kmyproc in ustr (Z.to_nat (p_sz p)) addr.

(** * [sysproc.c] *)

Definition tickslock : objaddr := ("tickslock", 0).
Definition ticks_chan : objaddr := ("ticks", 0).

Section sysproc.
Context {WF : WaitFuel} {KS : KernelSyms}.

Definition sys_fork : M kst Z := fork.
Definition sys_exit : M kst Z := exit ;; ret 0.
Definition sys_wait : M kst Z := wait.
Definition sys_kill : M kst Z := let* pid := argint 0 in zoom (kill (s32 pid)).
Definition sys_getpid : M kst Z := let* p := kmyproc in ret (p_pid p).
Definition sys_sbrk : M kst Z :=
  let* n := argint 0 in
  let* p := kmyproc in
  let addr := p_sz p in
  let* r := growproc (s32 n) in
  if r <? 0 then ret (-1) else ret (s32 addr).
Fixpoint sys_sleep_loop (fuel : nat) (ticks0 n : Z) : M kst Z :=
  match fuel with
  | O => out_of_fuel
  | S fuel =>
      let* t := gets k_ticks in
      if u32 (t - ticks0) <? n then
        let* p := kmyproc in
        if ztrue (p_killed p) then brelease tickslock ;; ret (-1)
        else zoom (sleep ticks_chan (Some tickslock)) ;; sys_sleep_loop fuel ticks0 n
      else brelease tickslock ;; ret 0
  end.
Definition sys_sleep : M kst Z :=
  let* n := argint 0 in
  bacquire tickslock ;;
  let* ticks0 := gets k_ticks in
  sys_sleep_loop (S wait_fuel) ticks0 n.
Definition sys_uptime : M kst Z :=
  bacquire tickslock ;;
  let* xticks := gets k_ticks in
  brelease tickslock ;;
  ret (s32 xticks).
(** The timer interrupt ([device/timer.c]); [ack_timer], which ends it, is in [Dev]. *)
Definition isr_timer : M kst unit :=
  bacquire tickslock ;;
  modify (fun s => set_k_ticks (u32 (k_ticks s + 1)) s) ;;
  zoom (wakeup ticks_chan) ;;
  brelease tickslock.
End sysproc.

(** * [sysfile.c] *)

(** The descriptor and its file. *)
Definition argfd (n : Z) : M kst (option (Z * Z)) :=
  let* fd := argint n in
  let* p := kmyproc in
  if (fd <? 0) || (NOFILE <=? fd) then ret None else
  let* f := must "ofile" (znth (p_ofile p) fd) in
  ret (match f with Some f => Some (fd, f) | None => None end).

Definition set_ofile (fd : Z) (f : option Z) : M kst unit :=
  let* cur := kcur in
  kupd_proc cur (fun p => set_p_ofile (zupd fd f (p_ofile p)) p).
Definition fdalloc (f : Z) : M kst Z :=
  let* r := for_to 0 NOFILE (fun fd =>
    let* p := kmyproc in
    let* g := must "ofile" (znth (p_ofile p) fd) in
    match g with
    | None => set_ofile fd (Some f) ;; ret (Some fd)
    | Some _ => ret None
    end) in
  ret (default (-1) r).

Definition O_RDONLY : Z := 0x000.
Definition O_WRONLY : Z := 0x001.
Definition O_RDWR : Z := 0x002.
Definition O_CREATE : Z := 0x200.

(** [sizeof(struct stat)] and its fields at their offsets. *)
Definition STAT : Z := 20.
Definition ustore_stat (a : Z) (st : stat) : M kst unit :=
  ustore (u64 (a + 4)) (le_enc 4 (st_dev st)) ;;
  ustore (u64 (a + 8)) (le_enc 4 (st_ino st)) ;;
  ustore a (le_enc 2 (st_type st)) ;;
  ustore (u64 (a + 12)) (le_enc 2 (st_nlink st)) ;;
  ustore (u64 (a + 16)) (le_enc 4 (st_size st)).

Section sysfile.
Context {WF : WaitFuel}.

Definition sys_dup : M kst Z :=
  let* r := argfd 0 in
  match r with
  | None => ret (-1)
  | Some (_, f) =>
      let* fd := fdalloc f in
      if fd <? 0 then ret (-1) else
      let* _ := filedup f in
      ret fd
  end.

Definition sys_read : M kst Z :=
  let* r := argfd 0 in
  match r with
  | None => ret (-1)
  | Some (_, f) =>
      let* n := argint 2 in
      let* p := argptr 1 n in
      match p with
      | None => ret (-1)
      | Some p =>
          fileread f p (s32 n)
      end
  end.

Definition sys_write : M kst Z :=
  let* r := argfd 0 in
  match r with
  | None => ret (-1)
  | Some (_, f) =>
      let* n := argint 2 in
      let* p := argptr 1 n in
      match p with
      | None => ret (-1)
      | Some p => filewrite f p (s32 n)
      end
  end.

Definition sys_close : M kst Z :=
  let* r := argfd 0 in
  match r with
  | None => ret (-1)
  | Some (fd, f) =>
      set_ofile fd None ;;
      fileclose f ;;
      ret 0
  end.

Definition sys_fstat : M kst Z :=
  let* r := argfd 0 in
  match r with
  | None => ret (-1)
  | Some (_, f) =>
      let* p := argptr 1 STAT in
      match p with
      | None => ret (-1)
      | Some p =>
          let* st := filestat f in
          match st with
          | None => ret (-1)
          | Some st => ustore_stat p st ;; ret 0
          end
      end
  end.

(** [ip->nlink += d; iupdate(ip)] *)
Definition add_nlink (ip d : Z) : M kst unit :=
  zoom (upd_inode ip (fun r => set_i_nlink (s16 (i_nlink r + d)) r)) ;;
  zoom (iupdate ip).
Definition name_buf : list Z := replicate (Z.to_nat DIRSIZ) 0.

(** [bad:] of [sys_link]. *)
Definition link_bad (ip : Z) : M kst Z :=
  zoom (ilock (Some ip)) ;;
  add_nlink ip (-1) ;;
  zoom (iunlockput ip) ;;
  zoom commit_trans ;;
  ret (-1).
Definition sys_link : M kst Z :=
  let* old := argstr 0 in
  match old with
  | None => ret (-1)
  | Some old =>
      let* new := argstr 1 in
      match new with
      | None => ret (-1)
      | Some new =>
          let* old := ustring old in
          let* ip := namei old in
          match ip with
          | None => ret (-1)
          | Some ip =>
              zoom begin_trans ;;
              zoom (ilock (Some ip)) ;;
              let* r := zoom (get_inode ip) in
              if i_type r =? T_DIR then
                zoom (iunlockput ip) ;; zoom commit_trans ;; ret (-1)
              else
                add_nlink ip 1 ;;
                zoom (iunlock (Some ip)) ;;
                let* new := ustring new in
                let* (dp, name) := nameiparent new name_buf in
                match dp with
                | None => link_bad ip
                | Some dp =>
                    zoom (ilock (Some dp)) ;;
                    let* d := zoom (get_inode dp) in
                    let* r := zoom (get_inode ip) in
                    let* c := (if negb (i_dev d =? i_dev r) then ret (-1)
                               else dirlink dp name (i_inum r)) in
                    if c <? 0 then zoom (iunlockput dp) ;; link_bad ip
                    else
                      zoom (iunlockput dp) ;;
                      zoom (iput ip) ;;
                      zoom commit_trans ;;
                      ret 0
                end
          end
      end
  end.

(** [off] is compared with the unsigned [dp->size]; the loop advances by an
    entry. *)
Fixpoint isdirempty_loop (fuel : nat) (dp off : Z) : M kst bool :=
  let* r := zoom (get_inode dp) in
  if u32 off <? i_size r then
    match fuel with
    | O => out_of_fuel
    | S fuel =>
        let* (c, de) := readi dp (u32 off) DIRENT in
        panic_if (negb (c =? DIRENT)) "isdirempty: readi" ;;
        if negb (get16 0 de =? 0) then ret false
        else isdirempty_loop fuel dp (s32 (off + DIRENT))
    end
  else ret true.
Definition isdirempty (dp : Z) : M kst bool :=
  let* f := dir_fuel dp in isdirempty_loop f dp (2 * DIRENT).

Definition DOT : list Z := [46].
Definition DOTDOT : list Z := [46; 46].

(** [bad:] of [sys_unlink]. *)
Definition unlink_bad (dp : Z) : M kst Z :=
  zoom (iunlockput dp) ;; zoom commit_trans ;; ret (-1).
Definition sys_unlink : M kst Z :=
  let* path := argstr 0 in
  match path with
  | None => ret (-1)
  | Some path =>
      let* path := ustring path in
      let* (dp, name) := nameiparent path name_buf in
      match dp with
      | None => ret (-1)
      | Some dp =>
          zoom begin_trans ;;
          zoom (ilock (Some dp)) ;;
          if (namecmp name DOT =? 0) || (namecmp name DOTDOT =? 0) then unlink_bad dp else
          let* hit := dirlookup dp name in
          match hit with
          | None => unlink_bad dp
          | Some (ip, off) =>
              zoom (ilock (Some ip)) ;;
              let* r := zoom (get_inode ip) in
              panic_if (i_nlink r <? 1) "unlink: nlink < 1" ;;
              let* full := (if i_type r =? T_DIR then let* e := isdirempty ip in ret (negb e)
                            else ret false) in
              if full then zoom (iunlockput ip) ;; unlink_bad dp
              else
                let* c := writei dp (replicate (Z.to_nat DIRENT) 0) off DIRENT in
                panic_if (negb (c =? DIRENT)) "unlink: writei" ;;
                let* r := zoom (get_inode ip) in
                when (i_type r =? T_DIR) (add_nlink dp (-1)) ;;
                zoom (iunlockput dp) ;;
                add_nlink ip (-1) ;;
                zoom (iunlockput ip) ;;
                zoom commit_trans ;;
                ret 0
          end
      end
  end.

(** The new or existing inode, locked. *)
Definition create (path : list Z) (type major minor : Z) : M kst (option Z) :=
  let* (dp, name) := nameiparent path name_buf in
  match dp with
  | None => ret None
  | Some dp =>
      zoom (ilock (Some dp)) ;;
      let* hit := dirlookup dp name in
      match hit with
      | Some (ip, _) =>
          zoom (iunlockput dp) ;;
          zoom (ilock (Some ip)) ;;
          let* r := zoom (get_inode ip) in
          if (type =? T_FILE) && (i_type r =? T_FILE) then ret (Some ip)
          else zoom (iunlockput ip) ;; ret None
      | None =>
          let* d := zoom (get_inode dp) in
          let* ip := zoom (ialloc (i_dev d) type) in
          zoom (ilock (Some ip)) ;;
          zoom (upd_inode ip (set_i_major major)) ;;
          zoom (upd_inode ip (set_i_minor minor)) ;;
          zoom (upd_inode ip (set_i_nlink 1)) ;;
          zoom (iupdate ip) ;;
          let* r := zoom (get_inode ip) in
          let* d := zoom (get_inode dp) in
          when (type =? T_DIR) (
            add_nlink dp 1 ;;
            let* c := dirlink ip DOT (i_inum r) in
            panic_if (c <? 0) "create dots" ;;
            let* c := dirlink ip DOTDOT (i_inum d) in
            panic_if (c <? 0) "create dots") ;;
          let* c := dirlink dp name (i_inum r) in
          panic_if (c <? 0) "create: dirlink" ;;
          zoom (iunlockput dp) ;;
          ret (Some ip)
      end
  end.

(** The inode to open, locked; [None] is the early return -1. *)
Definition open_inode (path : list Z) (omode : Z) : M kst (option Z) :=
  if ztrue (Z.land omode O_CREATE) then
    zoom begin_trans ;;
    let* ip := create path T_FILE 0 0 in
    zoom commit_trans ;;
    ret ip
  else
    let* ip := namei path in
    match ip with
    | None => ret None
    | Some ip =>
        zoom (ilock (Some ip)) ;;
        let* r := zoom (get_inode ip) in
        if (i_type r =? T_DIR) && negb (omode =? O_RDONLY) then
          zoom (iunlockput ip) ;; ret None
        else ret (Some ip)
    end.
Definition zbool (b : bool) : Z := if b then 1 else 0.
Definition sys_open : M kst Z :=
  let* path := argstr 0 in
  match path with
  | None => ret (-1)
  | Some path =>
      let* omode := argint 1 in
      let* path := ustring path in
      let* ip := open_inode path omode in
      match ip with
      | None => ret (-1)
      | Some ip =>
          let* f := filealloc in
          match f with
          | None => zoom (iunlockput ip) ;; ret (-1)
          | Some f =>
              let* fd := fdalloc f in
              if fd <? 0 then
                fileclose f ;; zoom (iunlockput ip) ;; ret (-1)
              else
                zoom (iunlock (Some ip)) ;;
                upd_file f (set_f_type FD_INODE) ;;
                upd_file f (set_f_ip (Some ip)) ;;
                upd_file f (set_f_off 0) ;;
                upd_file f (set_f_readable (zbool (negb (ztrue (Z.land omode O_WRONLY))))) ;;
                upd_file f (set_f_writable
                  (zbool (ztrue (Z.land omode O_WRONLY) || ztrue (Z.land omode O_RDWR)))) ;;
                ret fd
          end
      end
  end.

Definition sys_mkdir : M kst Z :=
  zoom begin_trans ;;
  let* path := argstr 0 in
  let* ip := (match path with
              | None => ret None
              | Some path => let* path := ustring path in create path T_DIR 0 0
              end) in
  match ip with
  | None => zoom commit_trans ;; ret (-1)
  | Some ip => zoom (iunlockput ip) ;; zoom commit_trans ;; ret 0
  end.

Definition sys_mknod : M kst Z :=
  zoom begin_trans ;;
  let* path := argstr 0 in
  let* ip := (match path with
              | None => ret None
              | Some path =>
                  let* major := argint 1 in
                  let* minor := argint 2 in
                  let* path := ustring path in
                  create path T_DEV (s16 major) (s16 minor)
              end) in
  match ip with
  | None => zoom commit_trans ;; ret (-1)
  | Some ip => zoom (iunlockput ip) ;; zoom commit_trans ;; ret 0
  end.

Definition sys_chdir : M kst Z :=
  let* path := argstr 0 in
  match path with
  | None => ret (-1)
  | Some path =>
      let* path := ustring path in
      let* ip := namei path in
      match ip with
      | None => ret (-1)
      | Some ip =>
          zoom (ilock (Some ip)) ;;
          let* r := zoom (get_inode ip) in
          if negb (i_type r =? T_DIR) then zoom (iunlockput ip) ;; ret (-1)
          else
            zoom (iunlock (Some ip)) ;;
            let* p := kmyproc in
            let* cwd := must "proc->cwd" (p_cwd p) in
            zoom (iput cwd) ;;
            let* cur := kcur in
            kupd_proc cur (set_p_cwd (Some ip)) ;;
            ret 0
      end
  end.

(** The loop of [sys_exec] that fetches the argument pointers; [None] is -1. *)
Fixpoint exec_argv (n : nat) (uargv i : Z) (argv : list Z) : M kst (option (list Z)) :=
  match n with
  | O => ret None
  | S n =>
      let* r := fetchint (u64 (uargv + 8 * i)) in
      match r with
      | None => ret None
      | Some uarg =>
          let uarg := u64 uarg in
          if uarg =? 0 then ret (Some argv) else
          let* l := fetchstr uarg in
          match l with
          | None => ret None
          | Some _ => exec_argv n uargv (i + 1) (argv ++ [uarg])
          end
      end
  end.
Definition sys_exec : M kst Z :=
  let* path := argstr 0 in
  match path with
  | None => ret (-1)
  | Some path =>
      let* uargv := argint 1 in
      let* argv := exec_argv (Z.to_nat MAXARG) (u64 uargv) 0 [] in
      match argv with
      | None => ret (-1)
      | Some argv =>
          let* p := kmyproc in
          exec (Z.to_nat (p_sz p)) path argv
      end
  end.

Definition sys_pipe : M kst Z :=
  let* fd := argptr 0 8 in
  match fd with
  | None => ret (-1)
  | Some fd =>
      let* r := pipealloc in
      match r with
      | None => ret (-1)
      | Some (rf, wf) =>
          let* fd0 := fdalloc rf in
          if fd0 <? 0 then fileclose rf ;; fileclose wf ;; ret (-1) else
          let* fd1 := fdalloc wf in
          if fd1 <? 0 then
            set_ofile fd0 None ;; fileclose rf ;; fileclose wf ;; ret (-1)
          else
            ustore fd (le_enc 4 fd0) ;;
            ustore (u64 (fd + 4)) (le_enc 4 fd1) ;;
            ret 0
      end
  end.
End sysfile.

(** * The dispatcher *)

Section dispatch.
Context {WF : WaitFuel} {KS : KernelSyms}.

(** [syscalls[num]]: entry 0 is null, and the array has 22 entries. *)
Definition syscalls (num : Z) : option (option (M kst Z)) :=
  znth [None; Some sys_fork; Some sys_exit; Some sys_wait; Some sys_pipe; Some sys_read;
        Some sys_kill; Some sys_exec; Some sys_fstat; Some sys_chdir; Some sys_dup;
        Some sys_getpid; Some sys_sbrk; Some sys_sleep; Some sys_uptime; Some sys_open;
        Some sys_write; Some sys_mknod; Some sys_unlink; Some sys_link; Some sys_mkdir;
        Some sys_close] num.
Definition NSYSCALLS : Z := 22.
Definition SYS_exec : Z := 7.

Definition set_r0 (v : Z) : M kst unit := let* cur := kcur in kupd_proc cur (set_tf TF_R0 v).
Definition syscall : M kst unit :=
  let* p := kmyproc in
  let* r0 := must "proc->tf" (znth (p_tf p) TF_R0) in
  let num := s32 r0 in
  let unknown :=
    cprintf (chars "%d %s: unknown sys call %d" ++ NEWLINE)
      [AInt (u32 (p_pid p)); AStr (Some (str_of (p_name p))); AInt (u32 num)] ;;
    set_r0 (-1) in
  if (0 <? num) && (num <=? NSYSCALLS) then
    let* f := must "syscalls[num]" (syscalls num) in
    match f with
    | None => unknown
    | Some f =>
        let* v := f in
        when (negb (num =? SYS_exec)) (set_r0 v)
    end
  else unknown.
End dispatch.
