(* ===== verification/Dev.v ===== *)
(** Device drivers and traps: [device/gic.c], [device/uart.c], [device/timer.c]
    (the registers; the tick is in [Syscall]), [trap.c] and [kmain] of [main.c].

    Devices are reached over a bus: reading a register can have effects and a
    device decides what a read returns, so the bus is an interface with 32-bit
    and 64-bit accesses at physical addresses.  [gic.c] uses 64-bit accesses,
    [uart.c] and [timer.c] 32-bit ones. *)

From S2P Require Import Prelude Spin Sched Mem Str Dll Buddy Bio Log Fs Vm Kernel Console Pipe File Proc Exec Syscall.

Class Bus (H : Type) := {
  bus_rd64 : Z → H → Z * H;
  bus_wr64 : Z → Z → H → H;
  bus_rd32 : Z → H → Z * H;
  bus_wr32 : Z → Z → H → H;
}.

(** * Data ([device/arm_virt.h], [gic.c]) *)

Definition UART0 : Z := 0x09000000.
Definition UART_CLK : Z := 24000000.
Definition TIMER0 : Z := 0x1c110000.
Definition TIMER1 : Z := 0x1c120000.
Definition CLK_HZ : Z := 1000000.
Definition VIC_BASE : Z := 0x08000000.
Definition PIC_TIMER01 : Z := 13.
Definition PIC_TIMER23 : Z := 11.
Definition PIC_UART0 : Z := 1.
Definition GICD_CTLR : Z := 0x000.
Definition GICD_ISENABLE : Z := 0x100.
Definition GICD_ITARGET : Z := 0x800.
Definition GICD_ICFG : Z := 0xC00.
Definition GICC_CTLR : Z := 0x000.
Definition GICC_PMR : Z := 0x004.
Definition GICC_IAR : Z := 0x00C.
Definition GICC_EOIR : Z := 0x010.
Definition NUM_INTSRC : Z := 32.
Definition PHYSTOP : Z := 0x08000000 + PHY_START.

(** The functions an entry of [isrs] points to; [None] is null. *)
Inductive isr := DEFAULT_ISR | ISR_TIMER | ISR_UART.

Record dev (H : Type) := Dev {
  d_hw : H;
  d_gic_base : Z;
  d_uart_base : Z;
  d_isrs : list (option isr);          (* isrs[NUM_INTSRC] *)
  d_k : kst;
}.
Arguments Dev {H} d_hw d_gic_base d_uart_base d_isrs d_k.
Arguments d_hw {H} d.
Arguments d_gic_base {H} d.
Arguments d_uart_base {H} d.
Arguments d_isrs {H} d.
Arguments d_k {H} d.

Section drivers.
Context {H : Type} {BUS : Bus H}.
Context {WF : WaitFuel} {KS : KernelSyms}.

Definition set_d_hw (v : H) (r : dev H) := Dev v (d_gic_base r) (d_uart_base r) (d_isrs r) (d_k r).
Definition set_d_gic_base v (r : dev H) := Dev (d_hw r) v (d_uart_base r) (d_isrs r) (d_k r).
Definition set_d_uart_base v (r : dev H) := Dev (d_hw r) (d_gic_base r) v (d_isrs r) (d_k r).
Definition set_d_isrs v (r : dev H) := Dev (d_hw r) (d_gic_base r) (d_uart_base r) v (d_k r).
Definition set_d_k v (r : dev H) := Dev (d_hw r) (d_gic_base r) (d_uart_base r) (d_isrs r) v.
#[local] Program Instance lens_d_k : Lens (dev H) kst := {| lget := d_k; lset := set_d_k |}.
Solve All Obligations with (by intros; repeat match goal with d : dev H |- _ => destruct d end).
Lemma zoom_dk {A} (m : M kst A) (s : dev H) a k : m (d_k s) = Ok a k → (zoom m : M (dev H) A) s = Ok a (set_d_k k s).
Proof. unfold zoom. simpl. by intros ->. Qed.

Definition rd64 (a : Z) : M (dev H) Z := fun s =>
  let '(v, h) := bus_rd64 a (d_hw s) in Ok (u64 v) (set_d_hw h s).
Definition wr64 (a v : Z) : M (dev H) unit := modify (fun s => set_d_hw (bus_wr64 a (u64 v) (d_hw s)) s).
Definition rd32 (a : Z) : M (dev H) Z := fun s =>
  let '(v, h) := bus_rd32 a (d_hw s) in Ok (u32 v) (set_d_hw h s).
Definition wr32 (a v : Z) : M (dev H) unit := modify (fun s => set_d_hw (bus_wr32 a (u32 v) (d_hw s)) s).

(** * The interrupt controller ([gic.c]) *)

(** [GICD_REG(o)] and [GICC_REG(o)]: 64-bit objects. *)
Definition GICD_get (o : Z) : M (dev H) Z := let* b := gets d_gic_base in rd64 (b + o).
Definition GICD_set (o v : Z) : M (dev H) unit := let* b := gets d_gic_base in wr64 (b + o) v.
Definition GICC_get (o : Z) : M (dev H) Z := let* b := gets d_gic_base in rd64 (b + 0x10000 + o).
Definition GICC_set (o v : Z) : M (dev H) unit := let* b := gets d_gic_base in wr64 (b + 0x10000 + o) v.

(** [rval] is a [uint]. *)
Definition put_bit (rval bitpos bval : Z) : Z :=
  if ztrue bval then u32 (Z.lor rval (Z.shiftl 1 bitpos)) else u32 (Z.land rval (Z.lnot (Z.shiftl 1 bitpos))).
Definition gicd_set_bit (b id bval : Z) : M (dev H) unit :=
  let offset := Z.quot id 32 in
  let bitpos := Z.rem id 32 in
  let* rval := GICD_get (b + 4 * offset) in
  GICD_set (b + 4 * offset) (put_bit (u32 rval) bitpos bval).
Definition gicc_set_bit (b id bval : Z) : M (dev H) unit :=
  let offset := Z.quot id 32 in
  let bitpos := Z.rem id 32 in
  let* rval := GICC_get (b + 4 * offset) in
  GICC_set (b + 4 * offset) (put_bit (u32 rval) bitpos bval).
Definition spi2id (spi : Z) : Z := spi + 32.
Definition gd_spi_enable (spi : Z) : M (dev H) unit := gicd_set_bit GICD_ISENABLE (spi2id spi) 1.
Definition gd_spi_group0 (spi : Z) : M (dev H) unit := ret tt.
Definition gd_spi_target0 (spi : Z) : M (dev H) unit :=
  let id := spi2id spi in
  let offset := Z.quot id 4 in
  let bitpos := Z.rem id 4 * 8 in
  let* rval := GICD_get (GICD_ITARGET + 4 * offset) in
  GICD_set (GICD_ITARGET + 4 * offset) (u32 (Z.lor (u32 rval) (Z.shiftl 1 bitpos))).
Definition gd_spi_setcfg (spi is_edge : Z) : M (dev H) unit :=
  let id := spi2id spi in
  let offset := Z.quot id 16 in
  let bitpos := Z.rem id 16 * 2 in
  let* rval := GICD_get (GICD_ICFG + 4 * offset) in
  let rval := u32 (Z.land (u32 rval) (Z.lnot (Z.shiftl 3 bitpos))) in
  let rval := if ztrue is_edge then u32 (Z.lor rval (Z.shiftl 2 bitpos)) else rval in
  GICD_set (GICD_ICFG + 4 * offset) rval.
Definition gic_dist_configure (itype num : Z) : M (dev H) unit :=
  let spi := num in
  gd_spi_setcfg spi 1 ;;
  gd_spi_enable spi ;;
  gd_spi_group0 spi ;;
  gd_spi_target0 spi.
Definition gic_dist_init : M (dev H) unit := ret tt.
Definition gic_cpu_init : M (dev H) unit := GICC_set GICC_PMR 0x0f.
Definition gic_enable : M (dev H) unit :=
  let* v := GICD_get GICD_CTLR in
  GICD_set GICD_CTLR (Z.lor v 1) ;;
  let* v := GICC_get GICC_CTLR in
  GICC_set GICC_CTLR (Z.lor v 1).
(** [~(uint)1] is a 32-bit value. *)
Definition gic_disable : M (dev H) unit :=
  let* v := GICD_get GICD_CTLR in
  GICD_set GICD_CTLR (Z.land v (u32 (Z.lnot 1))) ;;
  let* v := GICD_get GICC_CTLR in
  GICD_set GICC_CTLR (Z.land v (u32 (Z.lnot 1))).
Definition gic_configure (itype num : Z) : M (dev H) unit := gic_dist_configure itype num.
(** [spi2id(intn)] is an [int], sign-extended. *)
Definition gic_eoi (intn : Z) : M (dev H) unit := GICC_set GICC_EOIR (spi2id intn).
Definition gic_getack : M (dev H) Z := let* v := GICC_get GICC_IAR in ret (s32 v).

Definition default_isr (n : Z) : M (dev H) unit :=
  zoom (cprintf (chars "unhandled interrupt: %d" ++ NEWLINE) [AInt (u32 n)]).
(** [pic_enable] does not look whether [n] is negative. *)
Definition pic_enable (n : Z) (f : isr) : M (dev H) unit :=
  when (n <? NUM_INTSRC)
    (if n <? 0 then undef "isrs[n]" else modify (fun s => set_d_isrs (zupd n (Some f) (d_isrs s)) s)).
Definition isr_init : M (dev H) unit :=
  for_all (Z.to_nat NUM_INTSRC) 0 (fun i => modify (fun s => set_d_isrs (zupd i (Some DEFAULT_ISR) (d_isrs s)) s)).
Definition SPI_TYPE : Z := 3.
Definition gic_init (b : Z) : M (dev H) unit :=
  modify (set_d_gic_base b) ;;
  gic_dist_init ;;
  gic_cpu_init ;;
  isr_init ;;
  gic_configure SPI_TYPE PIC_TIMER01 ;;
  gic_configure SPI_TYPE PIC_TIMER23 ;;
  gic_configure SPI_TYPE PIC_UART0 ;;
  gic_enable.

(** * The timer ([timer.c]) *)

Definition TIMER_LOAD : Z := 0.
Definition TIMER_CURVAL : Z := 1.
Definition TIMER_CONTROL : Z := 2.
Definition TIMER_INTCLR : Z := 3.
Definition TIMER_32BIT : Z := 0x02.
Definition TIMER_INTEN : Z := 0x20.
Definition TIMER_PERIODIC : Z := 0x40.
Definition TIMER_EN : Z := 0x80.

Definition ack_timer : M (dev H) unit := wr32 (p2v TIMER0 + 4 * TIMER_INTCLR) 1.
Definition timer_init (hz : Z) : M (dev H) unit :=
  zoom (binitlock tickslock : M kst unit) ;;
  wr32 (p2v TIMER0 + 4 * TIMER_LOAD) (Z.quot CLK_HZ hz) ;;
  wr32 (p2v TIMER0 + 4 * TIMER_CONTROL) (Z.lor (Z.lor (Z.lor TIMER_EN TIMER_PERIODIC) TIMER_32BIT) TIMER_INTEN) ;;
  pic_enable PIC_TIMER01 ISR_TIMER.
(** [while ((int)timer1[TIMER_CURVAL] > 0)] *)
Fixpoint delay_loop (fuel : nat) : M (dev H) unit :=
  match fuel with
  | O => out_of_fuel
  | S fuel =>
      let* v := rd32 (p2v TIMER1 + 4 * TIMER_CURVAL) in
      if 0 <? s32 v then delay_loop fuel else ret tt
  end.
Definition micro_delay (us : Z) : M (dev H) unit :=
  wr32 (p2v TIMER1 + 4 * TIMER_CONTROL) (Z.lor TIMER_EN TIMER_32BIT) ;;
  wr32 (p2v TIMER1 + 4 * TIMER_LOAD) us ;;
  delay_loop wait_fuel ;;
  wr32 (p2v TIMER1 + 4 * TIMER_CONTROL) 0.

(** * The UART ([uart.c]) *)

Definition UART_DR : Z := 0.
Definition UART_FR : Z := 6.
Definition UART_IBRD : Z := 9.
Definition UART_FBRD : Z := 10.
Definition UART_LCR : Z := 11.
Definition UART_CR : Z := 12.
Definition UART_IMSC : Z := 14.
Definition UART_MIS : Z := 16.
Definition UART_ICR : Z := 17.
Definition UARTFR_TXFF : Z := Z.shiftl 1 5.
Definition UARTFR_RXFE : Z := Z.shiftl 1 4.
Definition UARTCR_RXE : Z := Z.shiftl 1 9.
Definition UARTCR_TXE : Z := Z.shiftl 1 8.
Definition UARTCR_EN : Z := Z.shiftl 1 0.
Definition UARTLCR_FEN : Z := Z.shiftl 1 4.
Definition UART_RXI : Z := Z.shiftl 1 4.
Definition UART_TXI : Z := Z.shiftl 1 5.
Definition UART_BITRATE : Z := 19200.

Definition uart_get (i : Z) : M (dev H) Z := let* b := gets d_uart_base in rd32 (b + 4 * i).
Definition uart_set (i v : Z) : M (dev H) unit := let* b := gets d_uart_base in wr32 (b + 4 * i) v.
Definition uart_init (addr : Z) : M (dev H) unit :=
  modify (set_d_uart_base addr) ;;
  uart_set UART_IBRD (Z.quot UART_CLK (16 * UART_BITRATE)) ;;
  let left := Z.rem UART_CLK (16 * UART_BITRATE) in
  uart_set UART_FBRD ((left * 4 + UART_BITRATE / 2) / UART_BITRATE) ;;
  let* v := uart_get UART_CR in
  uart_set UART_CR (Z.lor v (Z.lor (Z.lor UARTCR_EN UARTCR_RXE) UARTCR_TXE)) ;;
  let* v := uart_get UART_LCR in
  uart_set UART_LCR (Z.lor v UARTLCR_FEN).
Definition uart_enable_rx : M (dev H) unit :=
  uart_set UART_IMSC UART_RXI ;;
  pic_enable PIC_UART0 ISR_UART.
(** Waiting while the transmit FIFO is full. *)
Fixpoint tx_wait (fuel : nat) : M (dev H) unit :=
  match fuel with
  | O => out_of_fuel
  | S fuel =>
      let* v := uart_get UART_FR in
      if ztrue (Z.land v UARTFR_TXFF) then micro_delay 10 ;; tx_wait fuel else ret tt
  end.
Definition uart_putc (c : Z) : M (dev H) unit := tx_wait (S wait_fuel) ;; uart_set UART_DR c.
(** -1 when the receive FIFO is empty. *)
Definition uartgetc : M (dev H) Z :=
  let* v := uart_get UART_FR in
  if ztrue (Z.land v UARTFR_RXFE) then ret (-1) else
  let* c := uart_get UART_DR in ret (s32 c).
Section handlers.
(** Register [x29] where [consoleintr] prints a back trace. *)
Context (x29 : Z).

(** [consoleintr(uartgetc)]: [while((c = getc()) >= 0)] with the body of [Console].
    The echo goes to the output of the console, not over this bus. *)
Fixpoint uart_intr (fuel : nat) : M (dev H) unit :=
  match fuel with
  | O => out_of_fuel
  | S fuel =>
      let* c := uartgetc in
      if 0 <=? c then zoom (consoleintr_char x29 c) ;; uart_intr fuel else ret tt
  end.
Definition isr_uart : M (dev H) unit :=
  let* v := uart_get UART_MIS in
  when (ztrue (Z.land v UART_RXI)) (
    zoom (bacquire input_lock : M kst unit) ;;
    uart_intr (S wait_fuel) ;;
    zoom (brelease input_lock : M kst unit)) ;;
  uart_set UART_ICR (Z.lor UART_RXI UART_TXI).
Definition run_isr (f : isr) (n : Z) : M (dev H) unit :=
  match f with
  | DEFAULT_ISR => default_isr n
  | ISR_TIMER => zoom isr_timer ;; ack_timer
  | ISR_UART => isr_uart
  end.
Definition pic_dispatch : M (dev H) unit :=
  let* intid := gic_getack in
  let intn := s32 (intid - 32) in
  let* l := gets d_isrs in
  let* f := must "isrs[intn]" (znth l intn) in
  let* f := must "null isr" f in
  run_isr f intn ;;
  gic_eoi intn.

(** * Traps ([trap.c]) *)

(** The names [dump_trapframe] prints, in the order of the trap frame. *)
Definition tf_names : list string :=
  ["     sp"; "     pc"; "   spsr"; "     r0"; "     r1"; "     r2"; "     r3"; "     r4"; "     r5"; "     r6"; "     r7";
   "     r8"; "     r9"; "    r10"; "    r11"; "    r12"; "    r13"; "    r14"; "    r15"; "    r16"; "    r17"; "    r18";
   "    r19"; "    r20"; "    r21"; "    r22"; "    r23"; "    r24"; "    r25"; "    r26"; "    r27"; "    r28"; "    r29"; "    r30"].
Fixpoint dump_lines (names : list string) (tf : list Z) : M kst unit :=
  match names, tf with
  | n :: names, v :: tf => cprintf (chars n ++ chars ": 0x%x" ++ NEWLINE) [AInt v] ;; dump_lines names tf
  | _, _ => ret tt
  end.
Definition dump_trapframe (tf : list Z) : M kst unit := dump_lines tf_names tf.
Definition kcli : M kst unit := zoom (zoom cli : M base unit).
Definition tf_pc (tf : list Z) : Z := default 0 (znth tf TF_PC).

Definition swi_handler (r : list Z) : M kst unit :=
  let* i := kcur in
  kupd_proc i (set_p_tf r) ;;
  syscall.
Definition irq_handler (r : list Z) : M (dev H) unit :=
  zoom (let* c := gets (fun s => b_cur (k_base s)) in
        match c with Some i => kupd_proc i (set_p_tf r) | None => ret tt end) ;;
  pic_dispatch.
(** [fa] is the fault address register. *)
Definition dabort_handler (r : list Z) (fa : Z) : M kst unit :=
  kcli ;;
  cprintf (chars "data abort: instruction 0x%x, fault addr 0x%x" ++ NEWLINE) [AInt (tf_pc r); AInt fa] ;;
  dump_trapframe r.
Definition iabort_handler (r : list Z) : M kst unit :=
  kcli ;; cprintf (chars "prefetch abort at: 0x%x" ++ NEWLINE) [AInt (tf_pc r)] ;; dump_trapframe r.
Definition reset_handler (r : list Z) : M kst unit :=
  kcli ;; cprintf (chars "reset at: 0x%x " ++ NEWLINE) [AInt (tf_pc r)].
Definition und_handler (r : list Z) : M kst unit :=
  kcli ;; cprintf (chars "und at: 0x%x " ++ NEWLINE) [AInt (tf_pc r)] ;; dump_trapframe r.
Definition na_handler (r : list Z) : M kst unit :=
  kcli ;; cprintf (chars "n/a at: 0x%x " ++ NEWLINE) [AInt (tf_pc r)].
Definition fiq_handler (r : list Z) : M kst unit :=
  kcli ;; cprintf (chars "fiq at: 0x%x " ++ NEWLINE) [AInt (tf_pc r)].
Definition bad_handler (r : list Z) : M kst unit := kcli ;; cprintf (chars "Bad Exception" ++ NEWLINE) [].
Definition error_handler (r : list Z) : M kst unit := kcli ;; cprintf (chars "Error Exception" ++ NEWLINE) [].
Definition default_handler (r : list Z) : M kst unit := kcli ;; cprintf (chars "Default Exception" ++ NEWLINE) [].
Definition trap_init : M kst unit := ret tt.
End handlers.

(** * The start of the kernel ([main.c]) *)

(** [kmain] up to the call of [scheduler], which does not return.  [end_] and
    [kernel_pgtbl] are addresses the linker fixes, [img] is the linked file
    system image. *)
Definition kmain (end_ kernel_pgtbl : Z) (img : list (list Z)) : M (dev H) unit :=
  uart_init (p2v UART0) ;;
  zoom (zoom init_vmm : M kst unit) ;;
  zoom (zoom (kpt_freerange (align_up end_ PT_SZ) (p2v INIT_KERNMAP)) : M kst unit) ;;
  zoom (zoom (paging_init kernel_pgtbl INIT_KERNMAP PHYSTOP) : M kst unit) ;;
  zoom (zoom kmem_init : M kst unit) ;;
  zoom (zoom (kmem_init2 (p2v INIT_KERNMAP) (p2v PHYSTOP)) : M kst unit) ;;
  zoom trap_init ;;
  gic_init (p2v VIC_BASE) ;;
  uart_enable_rx ;;
  zoom consoleinit ;;
  zoom pinit ;;
  zoom (zoom (zoom (zoom binit : M logst unit) : M fsst unit) : M kst unit) ;;
  zoom fileinit ;;
  zoom (zoom iinit : M kst unit) ;;
  zoom (zoom (zoom (zoom (ideinit img) : M logst unit) : M fsst unit) : M kst unit) ;;
  zoom (zoom (zoom sti : M base unit) : M kst unit) ;;
  zoom userinit.
End drivers.

(** * Correctness *)

Section dispatch.
Context {H : Type} {BUS : Bus H} {WF : WaitFuel} {KS : KernelSyms}.
#[local] Existing Instance lens_d_k.

(** An interrupt the controller acknowledges with an identifier of a shared
    peripheral 0 to 31 runs the handler registered for it, with its number, and
    then signals the end of the same interrupt. *)
Lemma pic_dispatch_ok x29 (s s2 : dev H) id h1 f :
  bus_rd64 (d_gic_base s + 0x10000 + GICC_IAR) (d_hw s) = (id, h1) → 32 ≤ id < 64 →
  znth (d_isrs s) (id - 32) = Some (Some f) →
  run_isr x29 f (id - 32) (set_d_hw h1 s) = Ok tt s2 →
  pic_dispatch x29 s = Ok tt (set_d_hw (bus_wr64 (d_gic_base s2 + 0x10000 + GICC_EOIR) id (d_hw s2)) s2).
Proof.
  intros Hrd Hid Hf Hrun. unfold pic_dispatch.
  rewrite (bind_ok _ _ _ id (set_d_hw h1 s)).
  2: { unfold gic_getack, GICC_get, rd64. run. rewrite Hrd. simpl. by rewrite u64_small, s32_small by lia. }
  rewrite s32_small by lia. rewrite (bind_ok _ _ _ (d_isrs s) (set_d_hw h1 s)) by done. rewrite Hf.
  rewrite (bind_ok _ _ _ (Some f) (set_d_hw h1 s)) by done. rewrite (bind_ok _ _ _ f (set_d_hw h1 s)) by done.
  rewrite (bind_ok _ _ _ _ _ Hrun). unfold gic_eoi, GICC_set, wr64, spi2id. run. replace (id - 32 + 32) with id by lia.
  by rewrite u64_small by lia.
Qed.

(** What the driver relies on in the UART: [rx] is what the driver finds in the
    receive FIFO until it is empty, with the characters that arrive while it reads.
    The flag register says whether the FIFO is empty, the data register takes its
    first entry (a character and error bits), and reading the interrupt status takes
    nothing.  When the status has the receive interrupt is up to the device. *)
Record uart_laws (base : Z) (rx : H → list Z) := {
  uart_fr : ∀ h, ∃ v h', bus_rd32 (base + 4 * UART_FR) h = (v, h') ∧ rx h' = rx h ∧
    ztrue (Z.land (u32 v) UARTFR_RXFE) = bool_decide (rx h = []);
  uart_dr : ∀ h c l, rx h = c :: l → ∃ h', bus_rd32 (base + 4 * UART_DR) h = (c, h') ∧ rx h' = l;
  uart_mis : ∀ h, rx (bus_rd32 (base + 4 * UART_MIS) h).2 = rx h;
}.
Lemma uart_intr_ok base rx x29 k' fuel : uart_laws base rx → ∀ s : dev H, d_uart_base s = base →
  Forall (λ c, 0 ≤ c < 2 ^ 31) (rx (d_hw s)) → (length (rx (d_hw s)) < fuel)%nat → consoleintr_loop x29 (rx (d_hw s)) (d_k s) = Ok tt k' →
  ∃ h, uart_intr x29 fuel s = Ok tt (set_d_k k' (set_d_hw h s)) ∧ rx h = [].
Proof.
  intros L. induction fuel as [|fuel IH]; intros s Hb Hc Hf Hk; [lia|]. cbn [uart_intr]. unfold uartgetc.
  destruct (uart_fr _ _ L (d_hw s)) as (v & h & E & Er & Ee).
  assert (R : uart_get UART_FR s = Ok (u32 v) (set_d_hw h s)) by (unfold uart_get, rd32; run; by rewrite Hb, E).
  unfold bind at 1. rewrite (bind_ok _ _ _ _ _ R), Ee. destruct (rx (d_hw s)) as [|c l] eqn:El.
  - rewrite bool_decide_eq_true_2 by done. exists h. injection Hk as <-. split; [by destruct s|congruence].
  - rewrite bool_decide_eq_false_2 by done. destruct (uart_dr _ _ L h c l ltac:(congruence)) as (h2 & E2 & Er2).
    inversion Hc as [|?? Hc0 Hl]; subst.
    assert (R2 : uart_get UART_DR (set_d_hw h s) = Ok c (set_d_hw h2 s)) by (unfold uart_get, rd32; run; by rewrite E2, u32_small by lia).
    rewrite (bind_ok _ _ _ _ _ R2). rewrite s32_small by lia. unfold ret at 1. cbn [rbind]. rewrite (proj2 (Z.leb_le 0 c)) by lia.
    cbn [consoleintr_loop] in Hk. apply bind_Ok_inv in Hk as ([] & k1 & K1 & Hk).
    rewrite (bind_ok _ _ _ tt (set_d_k k1 (set_d_hw h2 s))) by (by apply zoom_dk).
    destruct (IH (set_d_k k1 (set_d_hw h2 s))) as (h3 & -> & H3); [done|done|simpl in *; lia|done|]. by exists h3.
Qed.

(** C30: When the controller acknowledges the interrupt of the UART and the status
    read from the UART has the receive interrupt, the dispatcher takes every
    character out of the receive FIFO and each goes through [consoleintr] in the
    order it arrived; without the receive interrupt nothing is read and the console
    stays as it is.  Both ways the interrupt is then cleared in the UART and its end
    signalled to the controller. *)
Theorem uart_interrupt_spec x29 rx (s : dev H) h1 v h2
    (done_ := fun h => bus_wr64 (d_gic_base s + 0x10000 + GICC_EOIR) (32 + PIC_UART0)
      (bus_wr32 (d_uart_base s + 4 * UART_ICR) (Z.lor UART_RXI UART_TXI) h)) :
  uart_laws (d_uart_base s) rx →
  bus_rd64 (d_gic_base s + 0x10000 + GICC_IAR) (d_hw s) = (32 + PIC_UART0, h1) →
  znth (d_isrs s) PIC_UART0 = Some (Some ISR_UART) →
  bus_rd32 (d_uart_base s + 4 * UART_MIS) h1 = (v, h2) →
  Forall (λ c, 0 ≤ c < 2 ^ 31) (rx h1) → (length (rx h1) ≤ wait_fuel)%nat →
  if ztrue (Z.land (u32 v) UART_RXI) then
    ∀ k', consoleintr x29 (rx h1) (d_k s) = Ok tt k' →
      ∃ h3, rx h3 = [] ∧ pic_dispatch x29 s = Ok tt (set_d_k k' (set_d_hw (done_ h3) s))
  else pic_dispatch x29 s = Ok tt (set_d_hw (done_ h2) s).
Proof.
  intros L Hrd Hf Hm Hc Hl. pose proof (uart_mis _ _ L h1) as Er. rewrite Hm in Er. cbn [snd] in Er.
  assert (Rm : uart_get UART_MIS (set_d_hw h1 s) = Ok (u32 v) (set_d_hw h2 s)) by (unfold uart_get, rd32; run; by rewrite Hm).
  assert (Hgo : ∀ k h, (if ztrue (Z.land (u32 v) UART_RXI) then
      zoom (bacquire input_lock : M kst unit) ;; uart_intr x29 (S wait_fuel) ;; zoom (brelease input_lock : M kst unit) else ret tt) (set_d_hw h2 s) = Ok tt (set_d_k k (set_d_hw h s)) →
    pic_dispatch x29 s = Ok tt (set_d_k k (set_d_hw (done_ h) s))).
  { intros k h Hw. rewrite (pic_dispatch_ok x29 s (set_d_k k (set_d_hw (bus_wr32 (d_uart_base s + 4 * UART_ICR) (Z.lor UART_RXI UART_TXI) h) s)) (32 + PIC_UART0) h1 ISR_UART Hrd ltac:(unfold PIC_UART0; lia) Hf); [reflexivity|].
    cbn [run_isr]. unfold isr_uart, when. rewrite (bind_ok _ _ _ _ _ Rm), (bind_ok _ _ _ _ _ Hw). reflexivity. }
  destruct (ztrue (Z.land (u32 v) UART_RXI)).
  - intros k' Hk. unfold consoleintr in Hk. apply bind_Ok_inv in Hk as ([] & k1 & K1 & Hk). apply bind_Ok_inv in Hk as ([] & k2 & K2 & K3).
    destruct (uart_intr_ok _ rx x29 k2 (S wait_fuel) L (set_d_k k1 (set_d_hw h2 s))) as (h3 & R3 & E3); cbn [d_hw d_k set_d_k set_d_hw d_uart_base]; rewrite ?Er; try done; [lia|].
    exists h3. split; [done|]. apply Hgo. rewrite (bind_ok _ _ _ tt (set_d_k k1 (set_d_hw h2 s))) by (by apply zoom_dk).
    rewrite (bind_ok _ _ _ _ _ R3). apply (zoom_dk _ (set_d_k k2 (set_d_hw h3 (set_d_k k1 (set_d_hw h2 s))))), K3.
  - rewrite (Hgo (d_k s) h2) by (by destruct s). by destruct s.
Qed.

(** The controller answers with 1023 when there is no interrupt to handle; the
    dispatcher then reads outside its table of handlers. *)
Theorem pic_dispatch_spurious x29 (s : dev H) h1 : zlen (d_isrs s) = NUM_INTSRC →
  bus_rd64 (d_gic_base s + 0x10000 + GICC_IAR) (d_hw s) = (1023, h1) →
  pic_dispatch x29 s = Undef "isrs[intn]" (set_d_hw h1 s).
Proof.
  intros Hl Hrd. unfold pic_dispatch. rewrite (bind_ok _ _ _ 1023 (set_d_hw h1 s)).
  2: { unfold gic_getack, GICC_get, rd64. run. by rewrite Hrd. }
  rewrite (bind_ok _ _ _ (d_isrs s) (set_d_hw h1 s)) by done. unfold must, bind.
  destruct (znth (d_isrs s) (s32 (1023 - 32))) eqn:E; [|done]. apply znth_Some in E.
  rewrite Hl in E. change (s32 (1023 - 32)) with 991 in E. unfold NUM_INTSRC in E. lia.
Qed.
End dispatch.

(** A bus on which every register keeps what is written to it, byte by byte. *)
#[local] Instance storage : Bus (gmap Z Z) := {|
  bus_rd64 := fun a h => (ld64 h a, h);
  bus_wr64 := fun a v h => st64 a v h;
  bus_rd32 := fun a h => (le_dec (ld_bytes 4 a h), h);
  bus_wr32 := fun a v h => st32 a v h;
|}.

Section target.
Context {WF : WaitFuel} {KS : KernelSyms} (base : Z).

(** The byte of [GICD_ITARGETSR] for interrupt [id]: the CPUs it goes to. *)
Definition gic_target (h : gmap Z Z) (id : Z) : Z := ld8 h (base + GICD_ITARGET + id).

(** One byte of a 64-bit store. *)
Lemma le_enc_lookup n : ∀ z i, (i < n)%nat → le_enc n z !! i = Some (z / 256 ^ Z.of_nat i mod 256).
Proof.
  induction n as [|n IH]; intros z i Hi; [lia|]. destruct i as [|i]; [simpl; by rewrite Z.div_1_r|]. cbn [le_enc lookup list_lookup].
  rewrite IH by lia. do 2 f_equal. rewrite Zdiv_Zdiv by lia. f_equal. rewrite Nat2Z.inj_succ, Z.pow_succ_r by lia. done.
Qed.
Lemma ld8_st64_in a v h b : a ≤ b < a + 8 → ld8 (st64 a v h) b = v / 256 ^ (b - a) mod 256.
Proof.
  intros Hb. unfold st64. rewrite ld8_st_bytes. unfold zlen. rewrite length_le_enc.
  destruct (Z.leb_spec a b), (Z.ltb_spec b (a + Z.of_nat 8)); try lia. cbn [andb]. rewrite (le_enc_lookup 8) by lia.
  replace (Z.of_nat (Z.to_nat (b - a))) with (b - a) by lia. apply u8_id. unfold is_byte. apply Z.mod_pos_bound. lia.
Qed.

(** Configuring an interrupt writes its trigger, its enable bit and its target. *)
Lemma gic_configure_ok n (s : dev (gmap Z Z)) (id := spi2id n) (a3 := base + (GICD_ITARGET + 4 * Z.quot id 4)) : d_gic_base s = base →
  ∃ v1 v2, let h2 := st64 (base + (GICD_ISENABLE + 4 * Z.quot id 32)) v2 (st64 (base + (GICD_ICFG + 4 * Z.quot id 16)) v1 (d_hw s)) in
    gic_configure SPI_TYPE n s = Ok tt (set_d_hw (st64 a3 (u64 (u32 (Z.lor (u32 (u64 (ld64 h2 a3))) (Z.shiftl 1 (Z.rem id 4 * 8))))) h2) s).
Proof.
  intros Hb. unfold gic_configure, gic_dist_configure, gd_spi_setcfg, gd_spi_enable, gd_spi_group0, gd_spi_target0, gicd_set_bit, GICD_get, GICD_set, rd64, wr64.
  unfold bind, gets, modify, ret. cbn [rbind]. rewrite !Hb. cbn [rbind bus_rd64 bus_wr64 storage d_gic_base set_d_hw d_hw]. rewrite !Hb. eexists _, _. reflexivity.
Qed.
Lemma target_kept n (s : dev (gmap Z Z)) j : d_gic_base s = base → 0 ≤ n < 32 → 32 ≤ j < 64 → j / 4 ≠ (n + 32) / 4 → j / 4 ≠ (n + 32) / 4 + 1 →
  ∀ t s', gic_configure SPI_TYPE n s = Ok t s' → gic_target (d_hw s') j = gic_target (d_hw s) j.
Proof.
  intros Hb Hn Hj H1 H2 t s' Hc. destruct (gic_configure_ok n s Hb) as (v1 & v2 & R). cbn zeta in R. rewrite R in Hc. injection Hc as _ <-.
  cbn [d_hw set_d_hw]. unfold gic_target, spi2id in *.
  rewrite !Z.quot_div_nonneg by lia. unfold GICD_ITARGET, GICD_ISENABLE, GICD_ICFG.
  pose proof (Z.div_mod j 4 ltac:(lia)). pose proof (Z.mod_pos_bound j 4 ltac:(lia)). pose proof (Z.div_mod (n + 32) 4 ltac:(lia)).
  pose proof (Z.div_pos (n + 32) 32 ltac:(lia) ltac:(lia)). pose proof (Z.div_lt_upper_bound (n + 32) 32 2 ltac:(lia) ltac:(lia)).
  pose proof (Z.div_pos (n + 32) 16 ltac:(lia) ltac:(lia)). rewrite !ld8_st64_out by lia. done.
Qed.
Lemma target_set n (s : dev (gmap Z Z)) (id := n + 32) : d_gic_base s = base → 0 ≤ n < 32 →
  ∃ h, gic_configure SPI_TYPE n s = Ok tt (set_d_hw h s) ∧ Z.testbit (gic_target h id) 0 = true ∧
    ∀ j, j / 4 = id / 4 + 1 → gic_target h j = 0.
Proof.
  intros Hb Hn. destruct (gic_configure_ok n s Hb) as (v1 & v2 & R). cbn zeta in R. eexists. split; [exact R|]. unfold gic_target. change (spi2id n) with id in *.
  assert (Hq : Z.quot id 4 = id / 4) by (apply Z.quot_div_nonneg; unfold id; lia). assert (Hr : Z.rem id 4 = id mod 4) by (apply Z.rem_mod_nonneg; unfold id; lia).
  rewrite Hq, Hr. pose proof (Z.div_mod id 4 ltac:(lia)). pose proof (Z.mod_pos_bound id 4 ltac:(lia)).
  set (w := u32 (Z.lor _ _)). assert (Hw : 0 ≤ w < 2 ^ 32) by apply u32_range. rewrite (u64_small w) by lia. split.
  - rewrite ld8_st64_in by lia. replace (base + GICD_ITARGET + id - (base + (GICD_ITARGET + 4 * (id / 4)))) with (id mod 4) by lia.
    change 256 with (2 ^ 8). rewrite <- Z.pow_mul_r by lia. rewrite Z.mod_pow2_bits_low by lia. rewrite <- Z.shiftr_div_pow2 by lia.
    rewrite Z.shiftr_spec by lia. unfold w, u32. rewrite Z.mod_pow2_bits_low by lia. rewrite Z.lor_spec, Z.shiftl_spec by lia.
    replace (0 + 8 * (id mod 4) - id mod 4 * 8) with 0 by lia. apply orb_true_r.
  - intros j Hj. pose proof (Z.div_mod j 4 ltac:(lia)). pose proof (Z.mod_pos_bound j 4 ltac:(lia)). rewrite ld8_st64_in by lia.
    rewrite Z.div_small; [done|]. split; [lia|]. apply Z.lt_le_trans with (2 ^ 32); [lia|]. change (2 ^ 32) with (256 ^ 4). apply Z.pow_le_mono_r; lia.
Qed.
(** Enabling the controller touches its control registers only. *)
Lemma enable_kept (s : dev (gmap Z Z)) : d_gic_base s = base →
  ∃ h, gic_enable s = Ok tt (set_d_hw h s) ∧ ∀ j, 32 ≤ j < 64 → gic_target h j = gic_target (d_hw s) j.
Proof.
  intros Hb. unfold gic_enable, GICD_get, GICD_set, GICC_get, GICC_set, rd64, wr64, bind, gets, modify, ret. cbn [rbind]. rewrite !Hb.
  cbn [rbind bus_rd64 bus_wr64 storage d_gic_base set_d_hw d_hw]. rewrite !Hb. eexists. split; [reflexivity|]. intros j Hj. unfold gic_target.
  unfold GICD_ITARGET, GICD_CTLR, GICC_CTLR. rewrite !ld8_st64_out by lia. done.
Qed.

Lemma isr_init_base n : ∀ i (s : dev (gmap Z Z)),
  ∃ s', for_all n i (fun i => modify (fun s => set_d_isrs (zupd i (Some DEFAULT_ISR) (d_isrs s)) s)) s = Ok tt s' ∧ d_gic_base s' = d_gic_base s.
Proof.
  induction n as [|n IH]; intros i s; [by exists s|]. cbn [for_all]. erewrite bind_ok by reflexivity. edestruct IH as (s' & -> & E). by exists s'.
Qed.

(** The target registers are 32 bits wide and [gic.c] writes 64: configuring
    interrupt 43 after interrupt 45 clears the target of the latter, so that
    [gic_init] leaves the first timer without a CPU, whatever the registers held. *)
Theorem gic_init_loses_timer (s : dev (gmap Z Z)) :
  ∃ s', gic_init base s = Ok tt s' ∧ gic_target (d_hw s') (spi2id PIC_TIMER01) = 0 ∧
    Z.testbit (gic_target (d_hw s') (spi2id PIC_TIMER23)) 0 = true ∧ Z.testbit (gic_target (d_hw s') (spi2id PIC_UART0)) 0 = true.
Proof.
  unfold gic_init. set (s1 := set_d_gic_base base s). rewrite (bind_ok _ _ _ tt s1) by done.
  rewrite (bind_ok _ _ _ tt s1) by done. assert (Hs2 : ∃ s2, gic_cpu_init s1 = Ok tt s2 ∧ d_gic_base s2 = base) by (eexists; split; reflexivity).
  destruct Hs2 as (s2 & R2 & Hb2). rewrite (bind_ok _ _ _ _ _ R2).
  destruct (isr_init_base (Z.to_nat NUM_INTSRC) 0 s2) as (s3 & R3 & Hb3). rewrite Hb2 in Hb3. unfold isr_init at 1. rewrite (bind_ok _ _ _ _ _ R3). clear R2 R3.
  destruct (target_set PIC_TIMER01 s3 Hb3 ltac:(unfold PIC_TIMER01; lia)) as (h4 & R4 & _). rewrite (bind_ok _ _ _ _ _ R4).
  destruct (target_set PIC_TIMER23 (set_d_hw h4 s3) Hb3 ltac:(unfold PIC_TIMER23; lia)) as (h5 & R5 & T5 & Z5). rewrite (bind_ok _ _ _ _ _ R5).
  destruct (target_set PIC_UART0 (set_d_hw h5 (set_d_hw h4 s3)) Hb3 ltac:(unfold PIC_UART0; lia)) as (h6 & R6 & T6 & _). rewrite (bind_ok _ _ _ _ _ R6).
  pose proof (fun j Hj J1 J2 => target_kept PIC_UART0 (set_d_hw h5 (set_d_hw h4 s3)) j Hb3 ltac:(unfold PIC_UART0; lia) Hj J1 J2 _ _ R6) as K6.
  destruct (enable_kept (set_d_hw h6 (set_d_hw h5 (set_d_hw h4 s3))) Hb3) as (h7 & R7 & K7).
  eexists. split; [exact R7|]. cbn [d_hw set_d_hw] in *. unfold spi2id, PIC_TIMER01, PIC_TIMER23, PIC_UART0 in *.
  rewrite !K7 by lia. split; [|split; [|exact T6]].
  - rewrite K6 by (lia || by vm_compute). by apply Z5.
  - rewrite K6 by (lia || by vm_compute). exact T5.
Qed.
End target.

(** ** Witnesses *)

(** A small PL011 at [base]: the receive FIFO, the raw interrupt status and the
    interrupt mask, behind a controller that acknowledges with [id]. *)
Record pl011 := Pl011 { pl_fifo : list Z; pl_ris : Z; pl_imsc : Z }.
Definition fifo_bus (base id : Z) : Bus pl011 := {|
  bus_rd64 := fun a h => (id, h);
  bus_wr64 := fun a v h => h;
  bus_rd32 := fun a h =>
    if a =? base + 4 * UART_FR then ((if bool_decide (pl_fifo h = []) then UARTFR_RXFE else 0), h)
    else if a =? base + 4 * UART_DR then (match pl_fifo h with c :: _ => c | [] => 0 end, Pl011 (tail (pl_fifo h)) (pl_ris h) (pl_imsc h))
    else if a =? base + 4 * UART_MIS then (Z.land (pl_ris h) (pl_imsc h), h)
    else (0, h);
  bus_wr32 := fun a v h =>
    if a =? base + 4 * UART_IMSC then Pl011 (pl_fifo h) (pl_ris h) v
    else if a =? base + 4 * UART_ICR then Pl011 (pl_fifo h) (Z.ldiff (pl_ris h) v) (pl_imsc h)
    else h;
|}.
Lemma fifo_laws base id : @uart_laws _ (fifo_bus base id) base pl_fifo.
Proof.
  split; cbn [bus_rd32 fifo_bus]; unfold UART_FR, UART_DR, UART_MIS.
  - intros h. rewrite Z.eqb_refl. eexists _, _. split; [reflexivity|]. split; [done|]. by case_bool_decide.
  - intros h c l ->. replace (base + 4 * 0 =? base + 4 * 6) with false by lia. rewrite Z.eqb_refl. by eexists.
  - intros h. replace (base + 4 * 16 =? base + 4 * 6) with false by lia. replace (base + 4 * 16 =? base + 4 * 0) with false by lia. by rewrite Z.eqb_refl.
Qed.
#[local] Instance dev_fuel : WaitFuel := 3%nat.
#[local] Instance dev_syms : KernelSyms := {| sym_trapret := 0; sym_forkret := 0; sym_initcode_start := 0; sym_initcode_size := 0 |}.
Definition demo_dev_kst : kst :=
  Kst (FsSt (LogSt (BioSt (demo_procs [zero_proc]) [] [] []) 0 0 0 0 0 []) []) (Kmem 0 0 0 [] ∅) 0 ∅ [] ∅
    (ConsSt (replicate 512 0) 0 0 0 0 []) 0.
Definition demo_dev (h : pl011) : dev pl011 :=
  Dev h (p2v VIC_BASE) (p2v UART0) (zupd PIC_UART0 (Some ISR_UART) (replicate 32 (Some DEFAULT_ISR))) demo_dev_kst.

(** The line "ok" and a newline, typed; and the same with the interrupt masked. *)
Lemma uart_interrupt_spec_witness : (∃ s',
  @pic_dispatch _ (fifo_bus (p2v UART0) 33) _ 0 (demo_dev (Pl011 [111; 107; 13] UART_RXI UART_RXI)) = Ok tt s' ∧
  in_w (k_cons (d_k s')) = 3 ∧ take 3 (in_buf (k_cons (d_k s'))) = [111; 107; 10] ∧ d_hw s' = Pl011 [] 0 UART_RXI) ∧
  @pic_dispatch _ (fifo_bus (p2v UART0) 33) _ 0 (demo_dev (Pl011 [111; 107; 13] UART_RXI 0)) = Ok tt (demo_dev (Pl011 [111; 107; 13] 0 0)).
Proof.
  split.
  - assert (Hc : match consoleintr 0 [111; 107; 13] demo_dev_kst with
      | Ok _ k' => bool_decide (in_w (k_cons k') = 3 ∧ take 3 (in_buf (k_cons k')) = [111; 107; 10]) | _ => false end = true) by (vm_compute; reflexivity).
    destruct (consoleintr 0 [111; 107; 13] demo_dev_kst) as [[] k'| | | |] eqn:E; try discriminate. apply bool_decide_eq_true in Hc as [Hc1 Hc2].
    set (h := Pl011 [111; 107; 13] UART_RXI UART_RXI).
    destruct (@uart_interrupt_spec _ (fifo_bus (p2v UART0) 33) _ 0 pl_fifo (demo_dev h) h UART_RXI h (fifo_laws _ _) eq_refl eq_refl eq_refl
      ltac:(repeat constructor; lia) ltac:(vm_compute; lia) k' E) as (h3 & _ & R).
    assert (Hd : match @pic_dispatch _ (fifo_bus (p2v UART0) 33) _ 0 (demo_dev h) with Ok _ s' => d_hw s' = Pl011 [] 0 UART_RXI | _ => False end) by (vm_compute; reflexivity).
    eexists. split; [exact R|]. split; [exact Hc1|]. split; [exact Hc2|]. rewrite R in Hd. exact Hd.
  - set (h := Pl011 [111; 107; 13] UART_RXI 0).
    exact (@uart_interrupt_spec _ (fifo_bus (p2v UART0) 33) _ 0 pl_fifo (demo_dev h) h 0 h (fifo_laws _ _) eq_refl eq_refl eq_refl
      ltac:(repeat constructor; lia) ltac:(vm_compute; lia)).
Defined.
Lemma pic_dispatch_spurious_witness :
  @pic_dispatch _ (fifo_bus (p2v UART0) 1023) _ 0 (demo_dev (Pl011 [] 0 0)) = Undef "isrs[intn]" (demo_dev (Pl011 [] 0 0)).
Proof. apply (@pic_dispatch_spurious _ (fifo_bus (p2v UART0) 1023) _ 0 (demo_dev (Pl011 [] 0 0)) (Pl011 [] 0 0)); reflexivity. Defined.
