(* ===== verification/Vic.v ===== *)
(** [device/picirq.c]: the driver of the PL190 interrupt controller, for which the
    build now links [device/gic.c].

    The controller is reached over the bus of Dev.  [ISR] are the functions that
    drivers install, [call] is a call of one of them, and [X] is the rest of the state,
    which they work on. *)

From S2P Require Import Prelude Dev.

(** Register offsets in words. *)
Definition VIC_IRQSTATUS : Z := 0.
Definition VIC_INTENABLE : Z := 4.
Definition VIC_INTCLEAR : Z := 5.
Definition NUM_INTSRC : Z := 32.

Record vic (H ISR X : Type) := Vic {
  v_hw : H;
  v_base : Z;               (* vic_base *)
  v_isrs : list ISR;        (* isrs[NUM_INTSRC] *)
  v_rest : X;
}.
Arguments Vic {H ISR X} v_hw v_base v_isrs v_rest.
Arguments v_hw {H ISR X} v.
Arguments v_base {H ISR X} v.
Arguments v_isrs {H ISR X} v.
Arguments v_rest {H ISR X} v.

Section driver.
Context {H : Type} {BUS : Bus H} {ISR X : Type}.
Context (default_isr : ISR) (call : ISR → Z → M (vic H ISR X) unit).

(** * Operations *)

Definition set_v_hw (v : H) (r : vic H ISR X) := Vic v (v_base r) (v_isrs r) (v_rest r).
Definition set_v_base v (r : vic H ISR X) := Vic (v_hw r) v (v_isrs r) (v_rest r).
Definition set_v_isrs (v : list ISR) (r : vic H ISR X) := Vic (v_hw r) (v_base r) v (v_rest r).
(** [vic_base[r]] *)
Definition vic_rd (r : Z) : M (vic H ISR X) Z := fun s =>
  let '(v, h) := bus_rd32 (v_base s + 4 * r) (v_hw s) in Ok (u32 v) (set_v_hw h s).
Definition vic_wr (r v : Z) : M (vic H ISR X) unit := modify (fun s => set_v_hw (bus_wr32 (v_base s + 4 * r) (u32 v) (v_hw s)) s).

Definition pic_init (base : Z) : M (vic H ISR X) unit :=
  modify (set_v_base base) ;;
  vic_wr VIC_INTCLEAR 0xFFFFFFFF ;;
  for_all (Z.to_nat NUM_INTSRC) 0 (fun i => modify (fun s => set_v_isrs (zupd i default_isr (v_isrs s)) s)).
Definition pic_enable (n : Z) (isr : ISR) : M (vic H ISR X) unit :=
  panic_if ((n <? 0) || (NUM_INTSRC <=? n)) "invalid interrupt source" ;;
  modify (fun s => set_v_isrs (zupd n isr (v_isrs s)) s) ;;
  vic_wr VIC_INTENABLE (s32 (Z.shiftl 1 n)).
Definition pic_disable (n : Z) : M (vic H ISR X) unit :=
  panic_if ((n <? 0) || (NUM_INTSRC <=? n)) "invalid interrupt source" ;;
  vic_wr VIC_INTCLEAR (s32 (Z.shiftl 1 n)) ;;
  modify (fun s => set_v_isrs (zupd n default_isr (v_isrs s)) s).
Definition pic_dispatch : M (vic H ISR X) unit :=
  let* intstatus := vic_rd VIC_IRQSTATUS in
  for_all (Z.to_nat NUM_INTSRC) 0 (fun i =>
    when (ztrue (Z.land intstatus (u32 (s32 (Z.shiftl 1 i))))) (
      let* l := gets v_isrs in
      let* f := must "isrs[i]" (znth l i) in
      call f i)) ;;
  let* _ := vic_rd VIC_IRQSTATUS in
  ret tt.

(** * Correctness *)

(** The interrupt sources whose bit is set, lowest first. *)
Definition pending (status : Z) : list Z := filter (λ i, Is_true (Z.testbit status i)) (seqZ 0 32).
(** Call the handler installed for each of them at that time. *)
Fixpoint serve_all (srcs : list Z) : M (vic H ISR X) unit :=
  match srcs with
  | [] => ret tt
  | i :: srcs => (let* l := gets v_isrs in let* f := must "isrs[i]" (znth l i) in call f i) ;; serve_all srcs
  end.

Lemma bit_mask i : 0 ≤ i < 32 → u32 (s32 (Z.shiftl 1 i)) = 2 ^ i.
Proof.
  intros Hi. rewrite Z.shiftl_1_l. pose proof (Z.pow_lt_mono_r 2 i 32). pose proof (Z.pow_pos_nonneg 2 i). unfold u32, s32.
  rewrite Zminus_mod_idemp_l. replace (2 ^ i + 2 ^ 31 - 2 ^ 31) with (2 ^ i) by lia. apply Z.mod_small. lia.
Qed.
Lemma status_bit v i : 0 ≤ i < 32 → ztrue (Z.land v (u32 (s32 (Z.shiftl 1 i)))) = Z.testbit v i.
Proof.
  intros Hi. rewrite bit_mask by done. unfold ztrue. destruct (Z.testbit v i) eqn:E.
  - destruct (Z.eqb_spec (Z.land v (2 ^ i)) 0) as [E0|]; [|done]. assert (Hb : Z.testbit (Z.land v (2 ^ i)) i = false) by (by rewrite E0, Z.testbit_0_l).
    rewrite Z.land_spec, E, Z.pow2_bits_true in Hb by lia. done.
  - replace (Z.land v (2 ^ i)) with 0; [done|]. symmetry. apply Z.bits_inj'. intros j Hj. rewrite Z.land_spec, Z.testbit_0_l, Z.pow2_bits_eqb by lia.
    destruct (Z.eqb_spec i j) as [<-|]; [by rewrite E|apply andb_false_r].
Qed.
Lemma dispatch_loop v n : ∀ i s s', 0 ≤ i → i + Z.of_nat n ≤ 32 →
  serve_all (filter (λ i, Is_true (Z.testbit v i)) (seqZ i (Z.of_nat n))) s = Ok tt s' →
  for_all n i (fun i => when (ztrue (Z.land v (u32 (s32 (Z.shiftl 1 i)))))
    (let* l := gets v_isrs in let* f := must "isrs[i]" (znth l i) in call f i)) s = Ok tt s'.
Proof.
  induction n as [|n IH]; intros i s s' Hi Hn Hs; [done|]. cbn [for_all]. rewrite seqZ_cons, filter_cons in Hs by lia.
  rewrite status_bit by lia. replace (Z.pred (Z.of_nat (S n))) with (Z.of_nat n) in Hs by lia.
  replace (Z.succ i) with (i + 1) in Hs by lia. destruct (Z.testbit v i) eqn:E; cbn [when].
  - rewrite decide_True in Hs by done. cbn [serve_all] in Hs. apply bind_Ok_inv in Hs as ([] & s1 & H1 & H2).
    erewrite bind_ok by exact H1. apply IH; [lia..|done].
  - rewrite decide_False in Hs by (by intros []). erewrite bind_ok by done. apply IH; [lia..|done].
Qed.
(** When the handlers return, [pic_dispatch] serves every pending source, the lowest
    first, by calling the handler that is installed for it at that time. *)
Theorem vic_dispatch_spec s v s1 s2 : vic_rd VIC_IRQSTATUS s = Ok v s1 → serve_all (pending v) s1 = Ok tt s2 →
  pic_dispatch s = Ok tt (set_v_hw (bus_rd32 (v_base s2 + 4 * VIC_IRQSTATUS) (v_hw s2)).2 s2).
Proof.
  intros Hr Hs. unfold pic_dispatch. erewrite bind_ok by exact Hr.
  rewrite (bind_ok _ _ _ _ _ (dispatch_loop v (Z.to_nat NUM_INTSRC) 0 s1 s2 ltac:(lia) ltac:(done) Hs)).
  unfold bind, vic_rd. by destruct (bus_rd32 _ _).
Qed.

(** A source that is enabled is served by its handler from then on, one that is
    disabled by the default; numbers that are no source are refused. *)
Theorem vic_enable_spec n f s : zlen (v_isrs s) = NUM_INTSRC →
  if (0 <=? n) && (n <? NUM_INTSRC) then
    (∃ s', pic_enable n f s = Ok tt s' ∧ znth (v_isrs s') n = Some f ∧ (∀ i, i ≠ n → znth (v_isrs s') i = znth (v_isrs s) i) ∧
      v_hw s' = bus_wr32 (v_base s + 16) (2 ^ n) (v_hw s)) ∧
    ∃ s', pic_disable n s = Ok tt s' ∧ znth (v_isrs s') n = Some default_isr ∧ v_hw s' = bus_wr32 (v_base s + 20) (2 ^ n) (v_hw s)
  else pic_enable n f s = Panic "invalid interrupt source" s ∧ pic_disable n s = Panic "invalid interrupt source" s.
Proof.
  intros Hl. unfold pic_enable, pic_disable. destruct (Z.leb_spec 0 n), (Z.ltb_spec n NUM_INTSRC); cbn [andb];
    [rewrite (proj2 (Z.ltb_ge n 0)), (proj2 (Z.leb_gt NUM_INTSRC n)) by lia|..].
  2-4: replace ((n <? 0) || (NUM_INTSRC <=? n)) with true by lia; done.
  assert (Hz : ∀ g : ISR, znth (zupd n g (v_isrs s)) n = Some g) by (intros g; rewrite znth_zupd; [done|lia]).
  assert (Hm : u32 (s32 (Z.shiftl 1 n)) = 2 ^ n) by (apply bit_mask; unfold NUM_INTSRC in *; lia).
  split; eexists; (split; [reflexivity|]); simpl; rewrite Hm; (split; [apply Hz|]); [|done]. split; [|done]. intros i Hi. by apply znth_zupd_ne.
Qed.
End driver.
