(* ===== verification/Kalloc.v ===== *)
(** [kalloc.c]: the allocator of single pages that came before [buddy.c] and that the
    build no longer links.

    The free pages are a list threaded through their first words ([struct run]), in
    byte memory.  [kend] is the address [end].  The message [kfree] prints before it
    panics is not part of the state. *)

From S2P Require Import Prelude Spin Sched Mem Buddy Vm Dev.

Record kpages := Kpages {
  kp_mach : mach;
  kp_mem : gmap Z Z;
  kp_use_lock : Z;
  kp_freelist : Z;
}.
Definition set_kp_mem v r := Kpages (kp_mach r) v (kp_use_lock r) (kp_freelist r).
Definition set_kp_use_lock v r := Kpages (kp_mach r) (kp_mem r) v (kp_freelist r).
Definition set_kp_freelist v r := Kpages (kp_mach r) (kp_mem r) (kp_use_lock r) v.
#[export] Program Instance lens_kp_mach : Lens kpages mach :=
  {| lget := kp_mach; lset := fun m r => Kpages m (kp_mem r) (kp_use_lock r) (kp_freelist r) |}.
Solve All Obligations with (by intros; repeat match goal with r : kpages |- _ => destruct r end).

Section kalloc.
Context (kend : Z).

(** * Operations *)

Definition kmem_init : M kpages unit := zoom (initlock kmem_lock) ;; modify (set_kp_use_lock 0).
Definition kfree (v : Z) : M kpages unit :=
  panic_if (ztrue (u32 v mod PTE_SZ) || (v <? kend) || (PHYSTOP <=? v2p v)) "kfree" ;;
  let* l := gets kp_use_lock in
  when (ztrue l) (zoom (acquire kmem_lock)) ;;
  let* h := gets kp_freelist in
  modify (fun s => set_kp_mem (st64 v h (kp_mem s)) s) ;;
  modify (set_kp_freelist v) ;;
  let* l := gets kp_use_lock in
  when (ztrue l) (zoom (release kmem_lock)).
Definition kalloc : M kpages Z :=
  let* l := gets kp_use_lock in
  when (ztrue l) (zoom (acquire kmem_lock)) ;;
  let* r := gets kp_freelist in
  when (ztrue r) (modify (fun s => set_kp_freelist (ld64 (kp_mem s) r) s)) ;;
  let* l := gets kp_use_lock in
  when (ztrue l) (zoom (release kmem_lock)) ;;
  ret r.
(** The loop of [freerange] with [n] pages to go. *)
Fixpoint freerange_loop (fuel : nat) (p vend : Z) : M kpages unit :=
  match fuel with
  | O => out_of_fuel
  | S fuel => if p + PTE_SZ <=? vend then kfree p ;; freerange_loop fuel (p + PTE_SZ) vend else ret tt
  end.
Definition freerange (vstart vend : Z) : M kpages unit :=
  let p := align_up vstart PTE_SZ in
  freerange_loop (S (Z.to_nat ((vend - p) / PTE_SZ))) p vend.
Definition kinit1 (vstart vend : Z) : M kpages unit := freerange vstart vend.
Definition kinit2 (vstart vend : Z) : M kpages unit := freerange vstart vend ;; modify (set_kp_use_lock 1).

(** * The free list *)

Fixpoint chain (m : gmap Z Z) (p : Z) (l : list Z) : Prop :=
  match l with [] => p = 0 | a :: l => p = a ∧ chain m (ld64 m a) l end.
Definition page_ok (a : Z) : Prop := a mod 4096 = 0 ∧ kend ≤ a ∧ KERNBASE ≤ a < KERNBASE + PHYSTOP.
Definition lock_ok (s : kpages) : Prop := cli_wf (kp_mach s) ∧ kmem_lock ∉ m_held (kp_mach s).
(** The free pages are [l] and the pages handed out are [h]. *)
Record pages (s : kpages) (l h : list Z) : Prop := {
  pg_chain : chain (kp_mem s) (kp_freelist s) l;
  pg_nodup : NoDup (l ++ h);
  pg_ok : Forall page_ok (l ++ h);
  pg_lock : lock_ok s;
}.

Lemma page_word a : page_ok a → 0 < a < 2 ^ 64 ∧ u64 a = a ∧ ztrue a = true.
Proof.
  intros (_ & _ & H). unfold KERNBASE, PHYSTOP, PHY_START in H. split; [lia|]. split; [apply u64_small; lia|].
  unfold ztrue. destruct (Z.eqb_spec a 0); [lia|done].
Qed.
Lemma aligned_apart a b : a mod 4096 = 0 → b mod 4096 = 0 → a ≠ b → a + 4096 ≤ b ∨ b + 4096 ≤ a.
Proof. intros Ha Hb Hne. pose proof (Z.div_mod a 4096). pose proof (Z.div_mod b 4096). assert (a / 4096 ≠ b / 4096) by lia. lia. Qed.
Lemma chain_store m a v p l : page_ok a → Forall page_ok l → a ∉ l → chain m p l → chain (st64 a v m) p l.
Proof.
  intros [Ha _] Hl. revert p. induction Hl as [|b l [Hb _] Hl IH]; intros p Hn; [done|].
  apply not_elem_of_cons in Hn as [Hne Hn]. intros [-> Hc]. split; [done|]. rewrite ld64_st64_other; [by apply IH|].
  pose proof (aligned_apart a b Ha Hb Hne). lia.
Qed.
Lemma page_test v : page_ok v → ztrue (u32 v mod PTE_SZ) || (v <? kend) || (PHYSTOP <=? v2p v) = false.
Proof.
  intros (Ha & Hk & Hr). unfold v2p. rewrite u64_small by (unfold KERNBASE, PHYSTOP, PHY_START in *; lia). change PTE_SZ with 4096.
  replace (u32 v mod 4096) with 0; [unfold ztrue; lia|]. unfold u32. by rewrite Z.mod_mod_divide by (by exists (2 ^ 20)).
Qed.

(** The CPU after an operation, which takes the lock when [use_lock] says so. *)
Definition unlocked (s : kpages) : mach := if ztrue (kp_use_lock s) then saved (kp_mach s) else kp_mach s.
Lemma unlocked_ok s : lock_ok s → cli_wf (unlocked s) ∧ kmem_lock ∉ m_held (unlocked s).
Proof. intros [Hw Hh]. unfold unlocked. destruct (ztrue _); [|done]. split; [by apply saved_ok|by rewrite saved_held]. Qed.
Lemma kfree_runs v s : page_ok v → lock_ok s →
  kfree v s = Ok tt (Kpages (unlocked s) (st64 v (kp_freelist s) (kp_mem s)) (kp_use_lock s) v).
Proof.
  intros Hv [Hw Hh]. unfold kfree, unlocked. rewrite page_test by done. do 2 erewrite bind_ok by done.
  destruct s as [m mem l fl]. cbn [kp_mach kp_mem kp_use_lock kp_freelist] in *. destruct (ztrue l) eqn:E; cbn [when].
  - erewrite bind_ok by (apply zoom_ok; by apply acquire_ok). do 4 erewrite bind_ok by done. cbn. rewrite E. cbn [when]. erewrite zoom_ok by (by apply release_locked). done.
  - do 5 erewrite bind_ok by done. cbn. by rewrite E.
Qed.
Lemma kalloc_runs s : lock_ok s →
  kalloc s = Ok (kp_freelist s) (Kpages (unlocked s) (kp_mem s) (kp_use_lock s) (if ztrue (kp_freelist s) then ld64 (kp_mem s) (kp_freelist s) else kp_freelist s)).
Proof.
  intros [Hw Hh]. unfold kalloc, unlocked. erewrite bind_ok by done.
  destruct s as [m mem l fl]. cbn [kp_mach kp_mem kp_use_lock kp_freelist] in *. destruct (ztrue l) eqn:E; cbn [when].
  - erewrite bind_ok by (apply zoom_ok; by apply acquire_ok). erewrite bind_ok by done. cbn.
    destruct (ztrue fl); cbn [when]; do 2 erewrite bind_ok by done; cbn; rewrite E; cbn [when]; (erewrite bind_ok by (apply zoom_ok; by apply release_locked)); done.
  - do 2 erewrite bind_ok by done. cbn. destruct (ztrue fl); cbn [when]; do 2 erewrite bind_ok by done; cbn; by rewrite E.
Qed.

(** * What the allocator promises *)

Inductive op := Alloc | Free (v : Z).
Definition run_op (o : op) : M kpages Z := match o with Alloc => kalloc | Free v => kfree v ;; ret 0 end.
(** Only what was handed out is freed. *)
Definition legal (o : op) (h : list Z) : Prop := match o with Alloc => True | Free v => v ∈ h end.
(** The free pages and the pages handed out, before and after an operation. *)
Inductive spec_step : op → Z → list Z * list Z → list Z * list Z → Prop :=
  | spec_alloc a l h : spec_step Alloc a (a :: l, h) (l, a :: h)
  | spec_exhausted h : spec_step Alloc 0 ([], h) ([], h)
  | spec_free v l h1 h2 : spec_step (Free v) 0 (l, h1 ++ v :: h2) (v :: l, h1 ++ h2).

Lemma alloc_step s a l h : pages s (a :: l) h → ∃ s', kalloc s = Ok a s' ∧ pages s' l (a :: h) ∧ kp_mem s' = kp_mem s.
Proof.
  intros [[Ha Hc] Hn Ho Hl]. pose proof Ho as [Hp _]%Forall_cons. destruct (page_word a Hp) as (_ & _ & Hz).
  rewrite kalloc_runs by done. rewrite Ha, Hz. eexists. split; [reflexivity|]. split; [|done]. split; simpl.
  - exact Hc.
  - by rewrite <- Permutation_middle.
  - by rewrite <- Permutation_middle.
  - by apply unlocked_ok.
Qed.
Lemma exhausted_step s h : pages s [] h → ∃ s', kalloc s = Ok 0 s' ∧ pages s' [] h ∧ kp_mem s' = kp_mem s.
Proof.
  intros [Hc Hn Ho Hl]. simpl in Hc. rewrite kalloc_runs by done. rewrite Hc. eexists. split; [reflexivity|]. split; [|done].
  split; [done..|by apply unlocked_ok].
Qed.
Lemma free_step s v l h1 h2 : pages s l (h1 ++ v :: h2) → ∃ s', kfree v s = Ok tt s' ∧ pages s' (v :: l) (h1 ++ h2) ∧
  kp_mem s' = st64 v (kp_freelist s) (kp_mem s).
Proof.
  intros [Hc Hn Ho Hl]. assert (Hp : l ++ h1 ++ v :: h2 ≡ₚ v :: l ++ h1 ++ h2) by (by rewrite <- !Permutation_middle).
  rewrite Hp in Hn, Ho. pose proof Ho as [Hv Hlo]%Forall_cons. apply NoDup_cons in Hn as Hn'. destruct Hn' as [Hnv _].
  rewrite kfree_runs by done. eexists. split; [reflexivity|]. split; [|done]. split; simpl; [|done|done|by apply unlocked_ok].
  split; [done|]. rewrite ld64_st64. apply Forall_app in Hlo as [Hlo _].
  assert (Hf : u64 (kp_freelist s) = kp_freelist s).
  { destruct l as [|b l]; simpl in Hc; [by rewrite Hc|]. destruct Hc as [-> _]. apply Forall_cons in Hlo as [Hb _]. by apply page_word. }
  rewrite Hf. apply chain_store; [done..| |done]. intros Hin. apply Hnv. apply elem_of_app. by left.
Qed.

(** C36: Every operation keeps the free list well formed: from any state in which the
    free pages and the pages handed out are distinct pages between [end] and
    [PHYSTOP], an allocation returns a free page, which is free no longer, or null
    when there is none, and freeing a page that was handed out makes it free again.
    The operations only write to the page that is freed, so no page is handed out
    twice and the pages handed out keep their contents. *)
Theorem kalloc_refines o s l h : pages s l h → legal o h →
  ∃ r s' l' h', run_op o s = Ok r s' ∧ spec_step o r (l, h) (l', h') ∧ pages s' l' h' ∧
    ∀ a p, p ∈ h' → p ≤ a < p + 4096 → ld8 (kp_mem s') a = ld8 (kp_mem s) a.
Proof.
  intros Hp Hl. destruct o as [|v]; simpl in Hl.
  - destruct l as [|a l].
    + destruct (exhausted_step s h Hp) as (s' & R & Hp' & Hm). exists 0, s', [], h. rewrite Hm. split_and!; [done|constructor|done|done].
    + destruct (alloc_step s a l h Hp) as (s' & R & Hp' & Hm). exists a, s', l, (a :: h). rewrite Hm. split_and!; [done|constructor|done|done].
  - apply list_elem_of_split in Hl as (h1 & h2 & ->). destruct (free_step s v l h1 h2 Hp) as (s' & R & Hp' & Hm).
    exists 0, s', (v :: l), (h1 ++ h2). split_and!; [by simpl; erewrite bind_ok by exact R|constructor|done|].
    intros a p Hin Ha. rewrite Hm. apply ld8_st64_out. destruct Hp' as [_ Hn Ho _]. simpl in Hn, Ho. apply NoDup_cons in Hn as [Hn _].
    apply Forall_cons in Ho as [[Hv _] Ho]. assert (Hin2 : p ∈ l ++ h1 ++ h2) by (apply elem_of_app; by right).
    pose proof (proj1 (Forall_forall _ _) Ho p Hin2) as [Hpa _]. pose proof (aligned_apart p v Hpa Hv ltac:(congruence)). lia.
Qed.

(** ** Initialization *)

Fixpoint page_list (n : nat) (p : Z) : list Z := match n with O => [] | S n => p :: page_list n (p + 4096) end.
Lemma page_skip p k : p mod 4096 = 0 → (p + 4096 * k) mod 4096 = 0.
Proof. intros Hp. by rewrite (Z.mul_comm 4096), Z.mod_add. Qed.
Lemma page_next p : p mod 4096 = 0 → (p + 4096) mod 4096 = 0.
Proof. exact (page_skip p 1). Qed.
Lemma elem_of_page_list n : ∀ p a, p mod 4096 = 0 → a ∈ page_list n p ↔ a mod 4096 = 0 ∧ p ≤ a ∧ a + 4096 ≤ p + 4096 * Z.of_nat n.
Proof.
  induction n as [|n IH]; intros p a Hp; simpl; [rewrite elem_of_nil; lia|]. rewrite elem_of_cons, IH by (by apply page_next).
  split; [intros [->|?]; lia|]. intros (Ha & Hl & Hu). destruct (decide (a = p)) as [->|Hne]; [by left|right].
  pose proof (aligned_apart a p Ha Hp Hne). lia.
Qed.
Lemma NoDup_page_list n : ∀ p, p mod 4096 = 0 → NoDup (page_list n p).
Proof. induction n as [|n IH]; intros p Hp; simpl; constructor; [|apply IH; by apply page_next]. rewrite elem_of_page_list by (by apply page_next). lia. Qed.
Lemma freerange_loop_ok n : ∀ fuel p vend s l, p + 4096 * Z.of_nat n ≤ vend < p + 4096 * Z.of_nat (S n) → (n < fuel)%nat → pages s l (page_list n p) →
  ∃ s' l', freerange_loop fuel p vend s = Ok tt s' ∧ pages s' l' [] ∧ l' ≡ₚ l ++ page_list n p.
Proof.
  induction n as [|n IH]; intros [|fuel] p vend s l Hv Hf Hp; try lia; cbn [freerange_loop page_list]; change PTE_SZ with 4096.
  - rewrite (proj2 (Z.leb_gt _ _)) by lia. exists s, l. rewrite app_nil_r. done.
  - rewrite (proj2 (Z.leb_le _ _)) by lia. destruct (free_step s p l [] _ Hp) as (s1 & R & Hp1 & _). erewrite bind_ok by exact R.
    destruct (IH fuel (p + 4096) vend s1 (p :: l)) as (s' & l' & R' & Hp' & Hl'); [lia..|exact Hp1|]. exists s', l'. split_and!; [done..|].
    rewrite Hl'. simpl. apply Permutation_middle.
Qed.

(** Initialization frees every page that lies wholly in the range, and no other. *)
Theorem kinit1_spec vstart vend s : kp_freelist s = 0 → lock_ok s → kend ≤ vstart → KERNBASE ≤ vstart ≤ vend → vend ≤ KERNBASE + PHYSTOP →
  ∃ s' l, kinit1 vstart vend s = Ok tt s' ∧ pages s' l [] ∧ ∀ a, a ∈ l ↔ a mod 4096 = 0 ∧ vstart ≤ a ∧ a + 4096 ≤ vend.
Proof.
  intros Hfl Hlk Hk Hs Hv. unfold kinit1, freerange. change PTE_SZ with 4096.
  rewrite align_up_page by (unfold KERNBASE, PHYSTOP, PHY_START in *; lia). set (p := (vstart + 4095) / 4096 * 4096).
  pose proof (Z.div_mod (vstart + 4095) 4096). pose proof (Z.mod_pos_bound (vstart + 4095) 4096).
  assert (Hp : p mod 4096 = 0) by apply Z_mod_mult. assert (Hr : vstart ≤ p < vstart + 4096) by lia. clearbody p.
  destruct (decide (vend < p)) as [Hlt|Hge].
  { pose proof (Z.div_le_upper_bound (vend - p) 4096 0 ltac:(lia) ltac:(lia)). replace (S (Z.to_nat ((vend - p) / 4096))) with 1%nat by lia. cbn [freerange_loop]. change PTE_SZ with 4096. rewrite (proj2 (Z.leb_gt _ _)) by lia.
    exists s, []. split; [done|]. split; [split; [done|constructor|constructor|done]|]. intros a. rewrite elem_of_nil. split; [done|]. intros (Ha & ? & ?).
    destruct (decide (a = p)); [lia|]. pose proof (aligned_apart a p Ha Hp ltac:(done)). lia. }
  pose proof (Z.div_mod (vend - p) 4096). pose proof (Z.mod_pos_bound (vend - p) 4096). set (n := Z.to_nat ((vend - p) / 4096)).
  assert (Hn : p + 4096 * Z.of_nat n ≤ vend < p + 4096 * Z.of_nat (S n)) by lia. clearbody n.
  destruct (freerange_loop_ok n (S n) p vend s []) as (s' & l & R & Hl & Hpl); [done|lia| |].
  - split; simpl; [done|by apply NoDup_page_list| |done]. apply Forall_forall. intros a (Ha & ? & ?)%elem_of_page_list; [|done]. split; [done|lia].
  - exists s', l. split_and!; [done..|]. intros a. rewrite Hpl. simpl. rewrite elem_of_page_list by done. split; intros (Ha & ? & ?); (split; [done|]); [lia|].
    split; [destruct (decide (a = p)); [lia|pose proof (aligned_apart a p Ha Hp ltac:(done)); lia]|].
    assert (Hq : (p + 4096 * Z.of_nat (S n)) mod 4096 = 0) by (by apply page_skip).
    destruct (decide (a = p + 4096 * Z.of_nat (S n))); [lia|]. destruct (decide (a = p + 4096 * Z.of_nat n)) as [->|Hne]; [lia|].
    assert (Hq2 : (p + 4096 * Z.of_nat n) mod 4096 = 0) by (by apply page_skip).
    pose proof (aligned_apart a _ Ha Hq2 Hne). lia.
Qed.
End kalloc.

(** Two pages above [end], the lower one free. *)
Definition demo_base : Z := KERNBASE + 0x41000000.
Definition demo_pages : kpages := Kpages (Mach 0 0 0 ∅ 0) (st64 demo_base 0 ∅) 1 demo_base.
Lemma demo_pages_ok : pages demo_base demo_pages [demo_base] [demo_base + 4096].
Proof.
  split; simpl.
  - split; [done|]. by rewrite ld64_st64.
  - repeat constructor; rewrite ?elem_of_cons, ?elem_of_nil; unfold demo_base, KERNBASE; lia.
  - repeat constructor; unfold page_ok, demo_base, KERNBASE, PHYSTOP, PHY_START; lia.
  - split; [split; simpl; [lia|lia]|]. simpl. set_solver.
Qed.
Lemma kalloc_refines_witness : ∃ r s' l' h', run_op demo_base (Free (demo_base + 4096)) demo_pages = Ok r s' ∧
  spec_step (Free (demo_base + 4096)) r ([demo_base], [demo_base + 4096]) (l', h') ∧ pages demo_base s' l' h' ∧
  ∀ a p, p ∈ h' → p ≤ a < p + 4096 → ld8 (kp_mem s') a = ld8 (kp_mem demo_pages) a.
Proof. exact (kalloc_refines demo_base (Free (demo_base + 4096)) demo_pages _ _ demo_pages_ok (list_elem_of_here _ _)). Defined.
Lemma kinit1_spec_witness : ∃ s' l, kinit1 demo_base (demo_base + 5) (demo_base + 12288) (Kpages (Mach 0 0 0 ∅ 0) ∅ 0 0) = Ok tt s' ∧ pages demo_base s' l [] ∧
  ∀ a, a ∈ l ↔ a mod 4096 = 0 ∧ demo_base + 5 ≤ a ∧ a + 4096 ≤ demo_base + 12288.
Proof.
  apply (kinit1_spec demo_base (demo_base + 5) (demo_base + 12288)); try done; try (unfold demo_base, KERNBASE, PHYSTOP, PHY_START; lia).
Defined.
