(* ===== verification/Boot.v ===== *)
(** The code that runs before paging is on: [start.c].

    It runs at physical addresses, which low virtual addresses equal once paging
    is on, so memory is keyed by physical address.  What [_puts] sends to the UART is
    the list [o_out]; system registers are a map by name. *)

From S2P Require Import Prelude Spin Sched Mem Str Dll Buddy Vm Pgtab Kernel Console.

(** * Data *)

Record bootst := BootSt {
  o_mem : gmap Z Z;
  o_out : list Z;
  o_regs : gmap string Z;
}.
Definition set_o_mem v r := BootSt v (o_out r) (o_regs r).
Definition set_o_out v r := BootSt (o_mem r) v (o_regs r).
Definition set_o_regs v r := BootSt (o_mem r) (o_out r) v.

(** The symbols of [kernel.ld]; the four tables follow one another there. *)
Class BootSyms := {
  _kernel_pgtbl : Z;
  vectors : Z;
  edata : Z;
  end_ : Z;
}.

Definition ENTRY_BLOCK : Z := 0.
Definition MEM_ATTR_IDX_0 : Z := 0.
Definition UXN : Z := 0x40000000000000.
Definition PMD_MASK : Z := Z.lnot (PMD_SZ - 1).
Definition INIT_KERN_SZ : Z := 0x200000.
Definition DEVBASE1 : Z := 0x08000000.
Definition DEVBASE2 : Z := 0x09000000.
Definition DEVBASE3 : Z := 0x0a000000.
Definition DEV_MEM_SZ : Z := 0x01000000.

(** * Operations *)

Definition _uart_putc (c : Z) : M bootst unit := modify (fun s => set_o_out (o_out s ++ [u8 c]) s).
Fixpoint _puts (s : list Z) : M bootst unit :=
  match s with [] => ret tt | c :: s => _uart_putc c ;; _puts s end.

Definition hex_digits : list Z := chars "0123456789ABCDEF".
(** The loop of [_putint] with [n] digits to go: [idx = 4 * (n - 1)]. *)
Fixpoint putint_loop (n : nat) (val : Z) : M bootst unit :=
  match n with
  | O => ret tt
  | S n =>
      let* d := must "arr" (znth hex_digits (Z.land (Z.shiftr val (4 * Z.of_nat n)) 0x0F)) in
      _uart_putc d ;;
      putint_loop n val
  end.
(** [None] is a null pointer; [val] is a [uint]. *)
Definition _putint (prefix : option (list Z)) (val : Z) (suffix : option (list Z)) : M bootst unit :=
  match prefix with Some s => _puts s | None => ret tt end ;;
  putint_loop 8 val ;;
  match suffix with Some s => _puts s | None => ret tt end.

(** [while (1);]: no amount of fuel is enough. *)
Definition _do_exception : M bootst unit := _puts (chars "Exception Raised" ++ [10]) ;; out_of_fuel.

Definition bload (a : Z) : M bootst Z := let* m := gets o_mem in ret (ld64 m a).
Definition bstore (a v : Z) : M bootst unit := modify (fun s => set_o_mem (st64 a v (o_mem s)) s).
Definition msr (r : string) (v : Z) : M bootst unit := modify (fun s => set_o_regs (<[r := v]> (o_regs s)) s).
Definition mrs (r : string) : M bootst Z := gets (fun s => default 0 (o_regs s !! r)).

Section boot.
Context {BS : BootSyms}.

Definition kernel_pgtbl : Z := _kernel_pgtbl.
Definition user_pgtbl : Z := _kernel_pgtbl + 0x1000.
Definition _K_l2_pgtbl : Z := _kernel_pgtbl + 0x2000.
Definition _U_l2_pgtbl : Z := _kernel_pgtbl + 0x6000.

Definition boot_pde (phy : Z) (dev_mem : bool) : Z :=
  if negb dev_mem then
    Z.lor (Z.land phy PMD_MASK)
      (Z.lor (Z.lor (Z.lor (Z.lor (Z.lor (Z.lor (Z.lor ACCESS_FLAG SH_IN_SH) AP_RW_1) NON_SECURE_PA)
        MEM_ATTR_IDX_4) ENTRY_BLOCK) ENTRY_VALID) UXN)
  else
    Z.lor (Z.land phy PMD_MASK)
      (Z.lor (Z.lor (Z.lor (Z.lor ACCESS_FLAG AP_RW_1) MEM_ATTR_IDX_0) ENTRY_BLOCK) ENTRY_VALID).
(** [level2 = (uint64 * )(pgtbl[pgdidx] & PG_ADDR_MASK); level2[pmdidx] = pde] *)
Definition set_block (pgtbl virt pde : Z) : M bootst unit :=
  let* e := bload (pgtbl + 8 * PGD_IDX virt) in
  bstore (Z.land e PG_ADDR_MASK + 8 * PMD_IDX virt) pde.
(** [idx] is an [int] compared with the [uint] [len]. *)
Fixpoint bootpgtbl_loop (fuel : nat) (idx virt phy len : Z) (dev_mem : bool) : M bootst unit :=
  if u32 idx <? len then
    match fuel with
    | O => out_of_fuel
    | S fuel =>
        let pde := boot_pde phy dev_mem in
        set_block kernel_pgtbl virt pde ;;
        set_block user_pgtbl virt pde ;;
        bootpgtbl_loop fuel (s32 (idx + 0x200000)) (u64 (virt + 0x200000)) (u64 (phy + 0x200000)) len dev_mem
    end
  else ret tt.
Definition set_bootpgtbl (virt phy len : Z) (dev_mem : bool) : M bootst unit :=
  bootpgtbl_loop (Z.to_nat ((len + 0x1fffff) / 0x200000)) 0 virt phy len dev_mem.

(** The instructions that only flush caches or wait have no effect on the state. *)
Definition load_pgtlb : M bootst unit :=
  let* v := mrs "MIDR_EL1" in
  let val32 := u32 v in
  when (Z.shiftr val32 24 =? 0x41) (_puts (chars "Implementer: ARM Limited" ++ NEWLINE)) ;;
  let arch := Z.land (Z.shiftr val32 16) 0x0F in
  when (negb (arch =? 7) && negb (arch =? 0xF)) (_puts (chars "Need AARM v6 or higher" ++ NEWLINE)) ;;
  let* v := mrs "CurrentEL" in
  let el := Z.shiftr (Z.land (u32 v) 0x0C) 2 in
  _puts (if el =? 0 then chars "Current EL: EL0" ++ NEWLINE
         else if el =? 1 then chars "Current EL: EL1" ++ NEWLINE
         else if el =? 2 then chars "Current EL: EL2" ++ NEWLINE
         else if el =? 3 then chars "Current EL: EL3" ++ NEWLINE
         else chars "Current EL: Unknown" ++ NEWLINE) ;;
  _puts (chars "Flushing TLB and Instr Cache" ++ NEWLINE) ;;
  msr "CPACR_EL1" (Z.shiftl 3 20) ;;
  msr "MDSCR_EL1" 0 ;;
  _puts (chars "Setting Memory Attribute Indirection Register (MAIR_EL1)" ++ NEWLINE) ;;
  msr "MAIR_EL1" 0xFF440C0400 ;;
  _puts (chars "Setting Vector Base Address Register (VBAR_EL1)" ++ NEWLINE) ;;
  msr "VBAR_EL1" vectors ;;
  _puts (chars "Setting Translation Control Register (TCR_EL1)" ++ NEWLINE) ;;
  msr "TCR_EL1" 0x34B5203520 ;;
  _puts (chars "Setting Translation Table Base Register 1 (TTBR1_EL1)" ++ NEWLINE) ;;
  msr "TTBR1_EL1" kernel_pgtbl ;;
  _puts (chars "Setting Translation Table Base Register 0 (TTBR0_EL1)" ++ NEWLINE) ;;
  msr "TTBR0_EL1" user_pgtbl ;;
  _puts (chars "Setting System Control Register (SCTLR_EL1)" ++ NEWLINE) ;;
  let* v := mrs "SCTLR_EL1" in
  msr "SCTLR_EL1" (Z.lor (u32 v) 1) ;;
  _puts (chars "System Configure Completed..." ++ NEWLINE ++ NEWLINE).

(** The block entry for [va] in the tables at [pgtbl], and what it makes of [va]. *)
Definition block_entry (m : gmap Z Z) (pgtbl va : Z) : Z :=
  ld64 m (Z.land (ld64 m (pgtbl + 8 * PGD_IDX va)) PG_ADDR_MASK + 8 * PMD_IDX va).
Definition block_pa (e va : Z) : option Z :=
  if Z.land e 3 =? 1 then Some (Z.land e (Z.land PG_ADDR_MASK PMD_MASK) + va mod PMD_SZ) else None.
Definition translate (m : gmap Z Z) (pgtbl va : Z) : option Z := block_pa (block_entry m pgtbl va) va.

(** [edata] and [end] are declared as [void *]: the difference of their addresses
    counts pointers.  The kernel is linked high, so [memset] goes through the
    tables of [TTBR1_EL1]; the bytes are within one block of them. *)
Definition clear_bss : M bootst unit :=
  _puts (chars "clearing BSS section for the main kernel" ++ NEWLINE) ;;
  let n := s32 (Z.quot (end_ - edata) 8) in
  let* t := mrs "TTBR1_EL1" in
  let* m := gets o_mem in
  let* pa := must "translation fault" (translate m t edata) in
  if PMD_SZ <? pa mod PMD_SZ + n then undef "translation fault"
  else modify (fun s => set_o_mem (memset (o_mem s) pa 0 n) s).

Definition set_pgd (pgtbl l2 index : Z) : M bootst unit :=
  let l2pgtbl := Z.lor (Z.lor (u64 (l2 + index * 4096)) ENTRY_TABLE) ENTRY_VALID in
  bstore (pgtbl + 8 * index) l2pgtbl.
(** The page tables [start] builds before it turns paging on. *)
Definition start_tables : M bootst unit :=
  for_all 4 0 (set_pgd kernel_pgtbl _K_l2_pgtbl) ;;
  for_all 4 0 (set_pgd user_pgtbl _U_l2_pgtbl) ;;
  set_bootpgtbl PHY_START PHY_START INIT_KERN_SZ false ;;
  set_bootpgtbl (KERNBASE + PHY_START) PHY_START INIT_KERN_SZ false ;;
  set_bootpgtbl DEVBASE2 DEVBASE2 DEV_MEM_SZ true ;;
  set_bootpgtbl (KERNBASE + DEVBASE1) DEVBASE1 DEV_MEM_SZ true ;;
  set_bootpgtbl (KERNBASE + DEVBASE2) DEVBASE2 DEV_MEM_SZ true ;;
  set_bootpgtbl (KERNBASE + DEVBASE3) DEVBASE2 DEV_MEM_SZ true.
(** Up to the call of [kmain] ([Dev]); [jump_stack] only moves the stack. *)
Definition start : M bootst unit :=
  _puts (chars "starting xv6 for ARMv8..." ++ NEWLINE) ;;
  start_tables ;;
  load_pgtlb ;;
  clear_bss ;;
  _puts (chars "Starting Kernel" ++ NEWLINE).
End boot.

(** * Correctness *)

Section tables.
Context {BS : BootSyms} (m0 : gmap Z Z).

(** As [kernel.ld] lays the tables out: page-aligned and in the first 4 GB. *)
Definition boot_layout : Prop := _kernel_pgtbl mod 4096 = 0 ∧ 0 ≤ _kernel_pgtbl ∧ _kernel_pgtbl + 0xa000 < 2 ^ 32.
(** The index of the block of [va] among the 2048 of the address space. *)
Definition bidx (va : Z) : Z := (va / 2 ^ 21) mod 2048.
Lemma bidx_split va : bidx va = PMD_IDX va + 512 * PGD_IDX va.
Proof.
  unfold bidx, PMD_IDX, PGD_IDX. change (PTRS_PER_PMD - 1) with (Z.ones 9). change (PTRS_PER_PGD - 1) with (Z.ones 2).
  rewrite !Z.land_ones, !Z.shiftr_div_pow2 by lia. change 2048 with (512 * 4). change (2 ^ 9) with 512. change (2 ^ 2) with 4.
  rewrite Z.rem_mul_r, Z.div_div by lia. done.
Qed.
(** The first-level entries lead to the second-level tables, whose entry for
    block [i] is [f i] in both; outside the tables memory is as in [m0]. *)
Record tabs (m : gmap Z Z) (f : Z → Z) : Prop := {
  tabs_k : ∀ g, 0 ≤ g < 4 → ld64 m (kernel_pgtbl + 8 * g) = Z.lor (_K_l2_pgtbl + 4096 * g) 3;
  tabs_u : ∀ g, 0 ≤ g < 4 → ld64 m (user_pgtbl + 8 * g) = Z.lor (_U_l2_pgtbl + 4096 * g) 3;
  tabs_kl : ∀ i, 0 ≤ i < 2048 → ld64 m (_K_l2_pgtbl + 8 * i) = f i;
  tabs_ul : ∀ i, 0 ≤ i < 2048 → ld64 m (_U_l2_pgtbl + 8 * i) = f i;
  tabs_out : ∀ b, b < kernel_pgtbl ∨ kernel_pgtbl + 0xa000 ≤ b → ld8 m b = ld8 m0 b;
}.
Context (HL : boot_layout).

Ltac regions := unfold kernel_pgtbl, user_pgtbl, _K_l2_pgtbl, _U_l2_pgtbl in *; unfold boot_layout in HL.

Lemma l2_addr base g : base mod 4096 = 0 → 0 ≤ base → base + 0x4000 < 2 ^ 32 → 0 ≤ g < 4 →
  Z.land (Z.lor (base + 4096 * g) 3) PG_ADDR_MASK = base + 4096 * g.
Proof. intros Hm H0 H1 Hg. apply entry_addr; [lia| |lia]. by rewrite (Z.mul_comm 4096), Z_mod_plus_full. Qed.
Lemma l2_K g : 0 ≤ g < 4 → Z.land (Z.lor (_K_l2_pgtbl + 4096 * g) 3) PG_ADDR_MASK = _K_l2_pgtbl + 4096 * g.
Proof. intros Hg. regions. apply l2_addr; [|lia..]. change 0x2000 with (2 * 4096). rewrite Z_mod_plus_full. tauto. Qed.
Lemma l2_U g : 0 ≤ g < 4 → Z.land (Z.lor (_U_l2_pgtbl + 4096 * g) 3) PG_ADDR_MASK = _U_l2_pgtbl + 4096 * g.
Proof. intros Hg. regions. apply l2_addr; [|lia..]. change 0x6000 with (6 * 4096). rewrite Z_mod_plus_full. tauto. Qed.

(** The entry of an address in tables of that shape. *)
Lemma block_entry_tabs m f va : tabs m f →
  block_entry m kernel_pgtbl va = f (bidx va) ∧ block_entry m user_pgtbl va = f (bidx va).
Proof.
  intros T. pose proof (PGD_range va). pose proof (PMD_range va). unfold block_entry.
  rewrite (tabs_k _ _ T), (tabs_u _ _ T), l2_K, l2_U by done. rewrite bidx_split.
  split; [rewrite <- (tabs_kl _ _ T) by lia|rewrite <- (tabs_ul _ _ T) by lia]; f_equal; lia.
Qed.

Lemma bind_ok_seq {B} (m1 m2 : M bootst unit) (k : unit → M bootst B) (s s' : bootst) x :
  (m1 ;; m2) s = Ok x s' → (m1 ;; let* x := m2 in k x) s = k x s'.
Proof. unfold bind. destruct (m1 s) as [[] s1| | | |]; cbn [rbind]; intros E; try discriminate E. by rewrite E. Qed.
Definition upd (f : Z → Z) (i v : Z) : Z → Z := λ j, if j =? i then v else f j.
(** One block in both tables. *)
Lemma set_blocks_ok f va pde (s : bootst) : tabs (o_mem s) f → 0 ≤ pde < 2 ^ 64 →
  ∃ m', (set_block kernel_pgtbl va pde ;; set_block user_pgtbl va pde) s = Ok tt (set_o_mem m' s) ∧ tabs m' (upd f (bidx va) pde).
Proof.
  intros T Hp. pose proof (PGD_range va). pose proof (PMD_range va).
  exists (st64 (_U_l2_pgtbl + 8 * bidx va) pde (st64 (_K_l2_pgtbl + 8 * bidx va) pde (o_mem s))). split.
  - unfold set_block, bload, bstore. run. rewrite (tabs_k _ _ T), l2_K by done.
    rewrite ld64_st64_other by (regions; lia). rewrite (tabs_u _ _ T), l2_U by done. rewrite bidx_split.
    by rewrite !(Z.mul_add_distr_l 8), !Z.mul_assoc, !(Z.add_comm (8 * PMD_IDX va)), !Z.add_assoc.
  - pose proof (bidx_split va). split; intros g Hg.
    + rewrite !ld64_st64_other by (regions; lia). by apply (tabs_k _ _ T).
    + rewrite !ld64_st64_other by (regions; lia). by apply (tabs_u _ _ T).
    + rewrite ld64_st64_other by (regions; lia). unfold upd. destruct (Z.eqb_spec g (bidx va)) as [->|].
      * rewrite ld64_st64. by apply u64_small.
      * rewrite ld64_st64_other by lia. by apply (tabs_kl _ _ T).
    + unfold upd. destruct (Z.eqb_spec g (bidx va)) as [->|].
      * rewrite ld64_st64. by apply u64_small.
      * rewrite ld64_st64_other by lia. rewrite ld64_st64_other by (regions; lia). by apply (tabs_ul _ _ T).
    + rewrite !ld8_st64_out by (regions; lia). by apply (tabs_out _ _ T).
Qed.

(** The effect of the loop of [set_bootpgtbl] on the entries. *)
Fixpoint fill (n : nat) (virt phy : Z) (dev : bool) (f : Z → Z) : Z → Z :=
  match n with
  | O => f
  | S n => fill n (u64 (virt + 0x200000)) (u64 (phy + 0x200000)) dev (upd f (bidx virt) (boot_pde phy dev))
  end.
Lemma boot_pde_range phy dev : 0 ≤ phy < 2 ^ 64 → 0 ≤ boot_pde phy dev < 2 ^ 64.
Proof.
  intros Hp. assert (B : ∀ c, 0 ≤ c < 2 ^ 64 → 0 ≤ Z.lor (Z.land phy PMD_MASK) c < 2 ^ 64).
  { intros c Hc. assert (0 ≤ Z.land phy PMD_MASK) by (apply Z.land_nonneg; lia). assert (0 ≤ Z.lor (Z.land phy PMD_MASK) c) by (apply Z.lor_nonneg; lia).
    split; [done|]. apply bits_lt_pow2; [lia|done|]. intros j Hj. by rewrite Z.lor_spec, Z.land_spec, (testbit_high phy 64), (testbit_high c 64) by lia. }
  unfold boot_pde. destruct dev; apply B; vm_compute; split; congruence.
Qed.
Lemma bootpgtbl_ok n dev : ∀ j virt phy f (s : bootst), tabs (o_mem s) f → 0 ≤ phy < 2 ^ 64 → 0 ≤ j → j + Z.of_nat n ≤ 512 →
  ∃ m', bootpgtbl_loop n (0x200000 * j) virt phy (0x200000 * (j + Z.of_nat n)) dev s = Ok tt (set_o_mem m' s) ∧ tabs m' (fill n virt phy dev f).
Proof.
  induction n as [|n IH]; intros j virt phy f s T Hp Hj Hn; cbn [bootpgtbl_loop fill].
  - rewrite u32_small by lia. destruct (Z.ltb_spec (0x200000 * j) (0x200000 * (j + Z.of_nat 0))); [lia|]. exists (o_mem s). by destruct s.
  - rewrite u32_small by lia. destruct (Z.ltb_spec (0x200000 * j) (0x200000 * (j + Z.of_nat (S n)))); [|lia].
    destruct (set_blocks_ok f virt (boot_pde phy dev) s T (boot_pde_range _ _ Hp)) as (m1 & R1 & T1).
    destruct (IH (j + 1) (u64 (virt + 0x200000)) (u64 (phy + 0x200000)) _ (set_o_mem m1 s) T1 (u64_range _) ltac:(lia) ltac:(lia)) as (m2 & R2 & T2).
    exists m2. split; [|exact T2]. rewrite s32_small by lia. rewrite (bind_ok_seq _ _ _ _ _ _ R1).
    replace (0x200000 * j + 0x200000) with (0x200000 * (j + 1)) by lia. replace (j + Z.of_nat (S n)) with (j + 1 + Z.of_nat n) by lia. exact R2.
Qed.

(** The first-level tables, one entry after the other. *)
Lemma set_pgd_ok pgtbl l2 (s : bootst) : l2 mod 4096 = 0 → 0 ≤ l2 → l2 + 0x4000 < 2 ^ 32 →
  ∃ m', for_all 4 0 (set_pgd pgtbl l2) s = Ok tt (set_o_mem m' s) ∧
    (∀ g, 0 ≤ g < 4 → ld64 m' (pgtbl + 8 * g) = Z.lor (l2 + 4096 * g) 3) ∧
    (∀ a, a + 8 ≤ pgtbl ∨ pgtbl + 32 ≤ a → ld64 m' a = ld64 (o_mem s) a) ∧ (∀ b, b < pgtbl ∨ pgtbl + 32 ≤ b → ld8 m' b = ld8 (o_mem s) b).
Proof.
  intros Hm H0 H1. assert (E : ∀ g, 0 ≤ g < 4 → Z.lor (Z.lor (u64 (l2 + g * 4096)) ENTRY_TABLE) ENTRY_VALID = Z.lor (l2 + 4096 * g) 3 ∧
    u64 (Z.lor (l2 + 4096 * g) 3) = Z.lor (l2 + 4096 * g) 3).
  { intros g Hg. rewrite u64_small, <- Z.lor_assoc, (Z.mul_comm g) by lia. split; [done|]. pose proof (entry_bound (l2 + 4096 * g) 3 ltac:(lia) ltac:(lia)). apply u64_small. lia. }
  cbn [for_all]. unfold set_pgd, bstore. run. eexists. split; [reflexivity|]. split.
  - intros g Hg. destruct (E g Hg) as [_ <-]. rewrite <- (ld64_st64 (pgtbl + 8 * g) _ (o_mem s)). rewrite <- (proj1 (E g Hg)).
    assert (g = 0 ∨ g = 1 ∨ g = 2 ∨ g = 3) as [->|[->|[->| ->]]] by lia; rewrite ?ld64_st64; rewrite ?ld64_st64_other by lia; by rewrite ?ld64_st64.
  - split; [intros a Ha; by rewrite !ld64_st64_other by lia|intros b Hb; by rewrite !ld8_st64_out by lia].
Qed.
Lemma set_bootpgtbl_ok n virt phy dev f m (s : bootst) : tabs m f → 0 ≤ phy < 2 ^ 64 → (n ≤ 512)%nat →
  ∃ m', set_bootpgtbl virt phy (0x200000 * Z.of_nat n) dev (set_o_mem m s) = Ok tt (set_o_mem m' s) ∧ tabs m' (fill n virt phy dev f).
Proof.
  intros T Hp Hn. destruct (bootpgtbl_ok n dev 0 virt phy f (set_o_mem m s) T Hp ltac:(lia) ltac:(lia)) as (m' & R & T'). exists m'. split; [|done].
  unfold set_bootpgtbl. replace ((0x200000 * Z.of_nat n + 0x1fffff) / 0x200000) with (Z.of_nat n).
  - rewrite Nat2Z.id. exact R.
  - rewrite Z.mul_comm, Z.div_add_l by lia. change (0x1fffff / 0x200000) with 0. lia.
Qed.

(** The entry [start] leaves for each block. *)
Definition boot_entry (i : Z) : Z :=
  if i =? 512 then boot_pde (0x200000 * i) false
  else if (64 <=? i) && (i <? 80) then boot_pde (0x200000 * i) true
  else if (80 <=? i) && (i <? 88) then boot_pde (0x200000 * (i - 8)) true
  else 0.
Definition start_fill : Z → Z :=
  fill 8 (KERNBASE + DEVBASE3) DEVBASE2 true (fill 8 (KERNBASE + DEVBASE2) DEVBASE2 true (fill 8 (KERNBASE + DEVBASE1) DEVBASE1 true
    (fill 8 DEVBASE2 DEVBASE2 true (fill 1 (KERNBASE + PHY_START) PHY_START false (fill 1 PHY_START PHY_START false (λ _, 0)))))).
Lemma range_check (P : Z → Prop) `{∀ i, Decision (P i)} n : bool_decide (Forall (λ i, P (Z.of_nat i)) (seq 0 n)) = true → ∀ i, 0 ≤ i < Z.of_nat n → P i.
Proof.
  intros Hf%bool_decide_eq_true_1 i Hi. rewrite Forall_forall in Hf. specialize (Hf (Z.to_nat i)). rewrite Z2Nat.id in Hf by lia. apply Hf, elem_of_seq. lia.
Qed.
Lemma start_fill_entry i : 0 ≤ i < 2048 → start_fill i = boot_entry i.
Proof. intros Hi. by apply (range_check (λ i, start_fill i = boot_entry i) 2048); [vm_compute|]. Qed.
(** The next call of [set_bootpgtbl], on tables described by [T]. *)
Ltac map_step n virt phy dev :=
  match goal with T : tabs ?m ?f |- context [bind _ _ (set_o_mem ?m ?s)] =>
    let m' := fresh "m" in let R := fresh "R" in let T' := fresh "T'" in
    destruct (set_bootpgtbl_ok n virt phy dev f m s T) as (m' & R & T'); [vm_compute; split; congruence|lia|];
    rewrite (bind_ok _ _ _ _ _ R); clear T R; rename T' into T
  end.
Lemma start_tables_ok (s : bootst) : o_mem s = m0 →
  (∀ i, 0 ≤ i < 2048 → ld64 (o_mem s) (_K_l2_pgtbl + 8 * i) = 0) → (∀ i, 0 ≤ i < 2048 → ld64 (o_mem s) (_U_l2_pgtbl + 8 * i) = 0) →
  ∃ m', start_tables s = Ok tt (set_o_mem m' s) ∧ tabs m' start_fill.
Proof.
  intros H0 HK HU. unfold start_tables.
  destruct (set_pgd_ok kernel_pgtbl _K_l2_pgtbl s) as (m1 & R1 & T1 & F1 & G1); [regions; change 0x2000 with (2 * 4096); rewrite Z_mod_plus_full; tauto|regions; lia..|].
  rewrite (bind_ok _ _ _ _ _ R1).
  destruct (set_pgd_ok user_pgtbl _U_l2_pgtbl (set_o_mem m1 s)) as (m2 & R2 & T2 & F2 & G2); [regions; change 0x6000 with (6 * 4096); rewrite Z_mod_plus_full; tauto|regions; lia..|].
  rewrite (bind_ok _ _ _ _ _ R2). cbn [o_mem set_o_mem] in F2, G2.
  assert (T : tabs m2 (λ _, 0)).
  { split; intros g Hg; [rewrite F2 by (regions; lia); by apply T1|by apply T2|rewrite F2, F1 by (regions; lia); by apply HK|rewrite F2, F1 by (regions; lia); by apply HU|].
    by rewrite G2, G1, H0 by (regions; lia). }
  clear T1 T2 F1 F2 G1 G2 R1 R2 HK HU.
  change (set_o_mem m2 (set_o_mem m1 s)) with (set_o_mem m2 s). clear m1.
  map_step 1%nat PHY_START PHY_START false. map_step 1%nat (KERNBASE + PHY_START) PHY_START false.
  map_step 8%nat DEVBASE2 DEVBASE2 true. map_step 8%nat (KERNBASE + DEVBASE1) DEVBASE1 true.
  map_step 8%nat (KERNBASE + DEVBASE2) DEVBASE2 true.
  destruct (set_bootpgtbl_ok 8%nat (KERNBASE + DEVBASE3) DEVBASE2 true _ _ s T) as (mf & R & T'); [vm_compute; split; congruence|lia|].
  exists mf. split; [exact R|exact T'].
Qed.

End tables.

Section start.
Context {BS : BootSyms} (HL : boot_layout).

(** What the entry of a block makes of an address in it. *)
Definition boot_phys (va : Z) : option Z :=
  let o := va mod 2 ^ 32 in
  if (PHY_START <=? o) && (o <? PHY_START + INIT_KERN_SZ) then Some o
  else if (DEVBASE1 <=? o) && (o <? DEVBASE2 + DEV_MEM_SZ) then Some o
  else if (DEVBASE3 <=? o) && (o <? DEVBASE3 + DEV_MEM_SZ) then Some (o - (DEVBASE3 - DEVBASE2))
  else None.
(** The physical block of entry [i], if it is valid. *)
Definition boot_block (i : Z) : option Z :=
  if i =? 512 then Some i else if (64 <=? i) && (i <? 80) then Some i else if (80 <=? i) && (i <? 88) then Some (i - 8) else None.
Lemma boot_entry_block i va : 0 ≤ i < 2048 →
  block_pa (boot_entry i) va = (λ b, 0x200000 * b + va mod 0x200000) <$> boot_block i.
Proof.
  intros Hi. unfold block_pa. change PMD_SZ with 0x200000.
  assert (E : (if Z.land (boot_entry i) 3 =? 1 then Some (Z.land (boot_entry i) (Z.land PG_ADDR_MASK PMD_MASK)) else None) = (λ b, 0x200000 * b) <$> boot_block i).
  { by apply (range_check (λ i, (if Z.land (boot_entry i) 3 =? 1 then Some (Z.land (boot_entry i)
      (Z.land PG_ADDR_MASK PMD_MASK)) else None) = (λ b, 0x200000 * b) <$> boot_block i) 2048); [vm_compute|]. }
  destruct (Z.land (boot_entry i) 3 =? 1), (boot_block i); simpl in *; congruence.
Qed.
Lemma boot_phys_block va : boot_phys va = (λ b, 0x200000 * b + va mod 0x200000) <$> boot_block (bidx va).
Proof.
  unfold boot_phys, boot_block, bidx. change (2 ^ 32) with (0x200000 * 2048). change (2 ^ 21) with 0x200000. rewrite Z.rem_mul_r by lia.
  pose proof (Z.mod_pos_bound va 0x200000 ltac:(lia)). pose proof (Z.mod_pos_bound (va / 0x200000) 2048 ltac:(lia)).
  set (r := va mod 0x200000) in *. set (q := (va / 0x200000) mod 2048) in *. clearbody r q.
  unfold PHY_START, INIT_KERN_SZ, DEVBASE1, DEVBASE2, DEVBASE3, DEV_MEM_SZ.
  destruct (Z.eqb_spec q 512); [|destruct ((64 <=? q) && (q <? 80)) eqn:E1; [|destruct ((80 <=? q) && (q <? 88)) eqn:E2]];
    repeat (case_match; try lia); simpl; f_equal; lia.
Qed.

(** The tables [start] builds translate the same in both halves of the address
    space: the 2 MB of the kernel and the 32 MB of devices from [DEVBASE1] to
    themselves, the 16 MB at [DEVBASE3] to those at [DEVBASE2], and nothing else. *)
Theorem start_tables_spec (s : bootst) :
  (∀ i, 0 ≤ i < 2048 → ld64 (o_mem s) (_K_l2_pgtbl + 8 * i) = 0) → (∀ i, 0 ≤ i < 2048 → ld64 (o_mem s) (_U_l2_pgtbl + 8 * i) = 0) →
  ∃ m', start_tables s = Ok tt (set_o_mem m' s) ∧
    ∀ va, translate m' kernel_pgtbl va = boot_phys va ∧ translate m' user_pgtbl va = boot_phys va.
Proof.
  intros HK HU. destruct (start_tables_ok (o_mem s) HL s eq_refl HK HU) as (m' & R & T). exists m'. split; [done|]. intros va. unfold translate.
  destruct (block_entry_tabs _ HL m' _ va T) as [-> ->]. rewrite boot_phys_block.
  assert (Hi : 0 ≤ bidx va < 2048) by (by apply Z.mod_pos_bound). rewrite start_fill_entry, boot_entry_block by exact Hi. split; reflexivity.
Qed.

(** Printing adds to the output and changes nothing else. *)
Lemma puts_ok l : ∀ s : bootst, _puts l s = Ok tt (set_o_out (o_out s ++ (u8 <$> l)) s).
Proof.
  induction l as [|c l IH]; intros s; cbn [_puts]; [by rewrite app_nil_r; destruct s|].
  rewrite (bind_ok _ _ _ tt (set_o_out (o_out s ++ [u8 c]) s)) by done. rewrite IH. cbn [o_out set_o_out fmap list_fmap]. by rewrite <- app_assoc.
Qed.
Lemma when_puts b l (s : bootst) : ∃ o, when b (_puts l) s = Ok tt (set_o_out o s).
Proof. destruct b; [eexists; apply puts_ok|]. exists (o_out s). by destruct s. Qed.
(** A message, on a state known as a [BootSt]. *)
Ltac print := rewrite (bind_ok _ _ _ _ _ (puts_ok _ _)); cbn [o_mem o_out o_regs set_o_out].
Ltac setreg := rewrite (bind_ok _ _ _ _ _ (eq_refl : msr _ _ _ = Ok tt _)); cbn [o_mem o_out o_regs set_o_regs].
Lemma load_pgtlb_ok (s : bootst) : ∃ out regs, load_pgtlb s = Ok tt (BootSt (o_mem s) out regs) ∧
  regs !! "TTBR1_EL1" = Some kernel_pgtbl ∧ regs !! "TTBR0_EL1" = Some user_pgtbl ∧
  regs !! "SCTLR_EL1" = Some (Z.lor (u32 (default 0 (o_regs s !! "SCTLR_EL1"))) 1).
Proof.
  unfold load_pgtlb. destruct s as [m o g]. unfold mrs at 1. rewrite (bind_ok _ _ _ _ _ (eq_refl : gets _ _ = Ok _ _)).
  edestruct when_puts as [o1 R1]. rewrite (bind_ok _ _ _ _ _ R1). edestruct when_puts as [o2 R2]. rewrite (bind_ok _ _ _ _ _ R2).
  unfold mrs at 1. rewrite (bind_ok _ _ _ _ _ (eq_refl : gets _ _ = Ok _ _)). cbn [o_mem o_out o_regs set_o_out].
  print. print. setreg. setreg. print. setreg. print. setreg. print. setreg. print. setreg. print. setreg. print.
  unfold mrs. rewrite (bind_ok _ _ _ _ _ (eq_refl : gets _ _ = Ok _ _)). setreg. rewrite puts_ok. eexists _, _. split; [reflexivity|].
  cbn [o_regs set_o_regs set_o_out]. repeat split; repeat (rewrite lookup_insert_ne by discriminate); rewrite lookup_insert_eq; repeat (rewrite lookup_insert_ne by discriminate); reflexivity.
Qed.

(** C37: [start] ends with the registers loaded with the two tables and paging on.
    Of the memory outside the tables it has cleared the first eighth of the
    kernel's BSS only: in [&end - &edata] the addresses are of [void *] objects. *)
Theorem start_spec (s : bootst) :
  (∀ i, 0 ≤ i < 2048 → ld64 (o_mem s) (_K_l2_pgtbl + 8 * i) = 0) → (∀ i, 0 ≤ i < 2048 → ld64 (o_mem s) (_U_l2_pgtbl + 8 * i) = 0) →
  p2v PHY_START ≤ edata < end_ → end_ ≤ p2v INIT_KERNMAP →
  ∃ s', start s = Ok tt s' ∧
    o_regs s' !! "TTBR1_EL1" = Some kernel_pgtbl ∧ o_regs s' !! "TTBR0_EL1" = Some user_pgtbl ∧
    (∃ v, o_regs s' !! "SCTLR_EL1" = Some v ∧ Z.testbit v 0 = true) ∧
    ∀ b, b < kernel_pgtbl ∨ kernel_pgtbl + 0xa000 ≤ b →
      ld8 (o_mem s') b = if (v2p edata <=? b) && (b <? v2p edata + (end_ - edata) / 8) then 0 else ld8 (o_mem s) b.
Proof.
  intros HK HU He Hend. change (p2v PHY_START) with 0xFFFFFFFF40000000 in He. change (p2v INIT_KERNMAP) with 0xFFFFFFFF40200000 in Hend.
  unfold start. print. set (s1 := set_o_out _ s).
  destruct (start_tables_ok (o_mem s) HL s1 eq_refl HK HU) as (m1 & R1 & T). rewrite (bind_ok _ _ _ _ _ R1).
  destruct (load_pgtlb_ok (set_o_mem m1 s1)) as (out & regs & R2 & E1 & E0 & Es). rewrite (bind_ok _ _ _ _ _ R2). cbn [o_mem set_o_mem].
  assert (Hv : v2p edata = edata - KERNBASE) by (unfold v2p, KERNBASE in *; apply u64_small; lia).
  assert (Ht : translate m1 kernel_pgtbl edata = Some (v2p edata)).
  { unfold translate. rewrite (proj1 (block_entry_tabs _ HL m1 _ edata T)). rewrite start_fill_entry, boot_entry_block, <- boot_phys_block by (by apply Z.mod_pos_bound).
    unfold boot_phys. replace (edata mod 2 ^ 32) with (v2p edata); [|rewrite Hv; apply Z.mod_unique_pos with (2 ^ 32 - 1); unfold KERNBASE; lia].
    rewrite Hv. unfold PHY_START, INIT_KERN_SZ, KERNBASE. destruct (_ && _) eqn:Eb; [done|lia]. }
  unfold clear_bss. set (n := (end_ - edata) / 8).
  rewrite (bind_ok _ _ _ tt (BootSt (memset m1 (v2p edata) 0 n) (out ++ (u8 <$> chars "clearing BSS section for the main kernel" ++ NEWLINE)) regs)).
  2: { print. unfold mrs. rewrite (bind_ok _ _ _ _ _ (eq_refl : gets _ _ = Ok _ _)), (bind_ok _ _ _ _ _ (eq_refl : gets _ _ = Ok _ _)).
    cbn [o_regs o_mem o_out set_o_out]. rewrite E1. change (default 0 (Some kernel_pgtbl)) with kernel_pgtbl. rewrite Ht, (bind_ok _ _ _ (v2p edata) _) by reflexivity.
    rewrite Z.quot_div_nonneg by lia. fold n. assert (Hn : 0 ≤ n ∧ 8 * n ≤ end_ - edata) by (unfold n; split; [apply Z.div_pos; lia|apply Z.mul_div_le; lia]). clearbody n.
    rewrite s32_small by lia. rewrite Hv in *. change PMD_SZ with (2 ^ 21).
    assert (Hm : (edata - KERNBASE) mod 2 ^ 21 = edata - KERNBASE - PHY_START) by (symmetry; apply Z.mod_unique_pos with 512; unfold KERNBASE, PHY_START in *; lia).
    rewrite Hm. destruct (Z.ltb_spec (2 ^ 21) (edata - KERNBASE - PHY_START + n)); [unfold KERNBASE, PHY_START in *; lia|]. reflexivity. }
  rewrite puts_ok. eexists. split; [reflexivity|]. cbn [o_regs o_mem set_o_out o_out]. split; [done|]. split; [done|]. split.
  { eexists. split; [exact Es|]. rewrite Z.lor_spec. apply orb_true_r. }
  intros b Hb. rewrite ld8_memset. rewrite (tabs_out _ _ _ T) by done. reflexivity.
Qed.
End start.

(** ** Witnesses *)

#[local] Instance demo_boot_syms : BootSyms :=
  {| _kernel_pgtbl := 0x40013000; vectors := 0xFFFFFFFF40030000; edata := 0xFFFFFFFF40050000; end_ := 0xFFFFFFFF40058000 |}.
(** Memory where nothing is set but a byte in the middle of the BSS. *)
Definition demo_boot : bootst := BootSt {[ 0x40054000 := 7 ]} [] ∅.
Lemma demo_boot_layout : boot_layout.
Proof. by vm_compute. Qed.
Lemma demo_boot_zero a : a + 8 ≤ 0x40054000 → ld64 (o_mem demo_boot) a = 0.
Proof. intros Ha. apply ld64_zero. intros b Hb. unfold ld8. cbn [o_mem demo_boot]. by rewrite lookup_singleton_ne by lia. Qed.

Lemma start_tables_spec_witness : ∃ m', start_tables demo_boot = Ok tt (set_o_mem m' demo_boot) ∧
  translate m' kernel_pgtbl 0xFFFFFFFF40031234 = Some 0x40031234 ∧ translate m' kernel_pgtbl 0xFFFFFFFF0a000010 = Some 0x09000010.
Proof.
  destruct (start_tables_spec demo_boot_layout demo_boot) as (m' & R & T).
  - intros i Hi. apply demo_boot_zero. unfold _K_l2_pgtbl. cbn. lia.
  - intros i Hi. apply demo_boot_zero. unfold _U_l2_pgtbl. cbn. lia.
  - exists m'. split; [exact R|]. rewrite !(proj1 (T _)). split; vm_compute; reflexivity.
Defined.
(** The byte is still there when the kernel starts. *)
Lemma start_spec_witness : ∃ s', start demo_boot = Ok tt s' ∧ ld8 (o_mem s') 0x40054000 = 7.
Proof.
  destruct (start_spec demo_boot_layout demo_boot) as (s' & R & _ & _ & _ & Hb).
  - intros i Hi. apply demo_boot_zero. unfold _K_l2_pgtbl. cbn. lia.
  - intros i Hi. apply demo_boot_zero. unfold _U_l2_pgtbl. cbn. lia.
  - by vm_compute.
  - by vm_compute.
  - exists s'. split; [exact R|]. rewrite Hb by (right; vm_compute; congruence). vm_compute. reflexivity.
Defined.
