(* ===== verification/Ulib.v ===== *)
(** [usr/ulib.c]: the routines on memory that user programs share, over byte memory.
    The loops of [memset] and [strlen] are those of [lib/string.c] (Str). *)

From S2P Require Import Prelude Mem Str.

(** * Operations *)

(** [while (( *s++ = *t++ ) != 0)]; [None] when no NUL comes in [fuel] bytes. *)
Fixpoint strcpy (fuel : nat) (m : gmap Z Z) (s t : Z) : option (gmap Z Z) :=
  match fuel with
  | O => None
  | S fuel =>
      let c := ld8 m t in
      let m := st8 s c m in
      if c =? 0 then Some m else strcpy fuel m (s + 1) (t + 1)
  end.
Definition strlen (fuel : nat) (m : gmap Z Z) (s : Z) : option Z := u32 <$> (s32 <$> Str.strlen fuel m s).
Definition memset (m : gmap Z Z) (dst v n : Z) : gmap Z Z := Str.memset m dst v (u32 n).
(** [while (n-- > 0) *dst++ = *src++], from the front whatever overlaps. *)
Definition memmove (m : gmap Z Z) (dst src n : Z) : gmap Z Z := move_up (Z.to_nat n) m dst src.

(** * Copying from the front *)

(** Each byte written is read again after [dst - src] bytes. *)
Lemma move_up_period n : ∀ m d s a, s < d → ld8 (move_up n m d s) a =
  if (d <=? a) && (a <? d + Z.of_nat n) then ld8 m (s + (a - d) mod (d - s)) else ld8 m a.
Proof.
  induction n as [|n IH]; intros m d s a Hd; cbn [move_up]; [by zcase|].
  rewrite IH by lia. replace (d + 1 - (s + 1)) with (d - s) by lia. rewrite !ld8_st8, u8_ld8.
  destruct (Z.leb_spec (d + 1) a) as [Ha|Ha]; cbn [andb].
  - replace (d + 1 + Z.of_nat n) with (d + Z.of_nat (S n)) by lia. rewrite (proj2 (Z.leb_le d a)) by lia. cbn [andb].
    destruct (a <? d + Z.of_nat (S n)); [|by rewrite (proj2 (Z.eqb_neq d a)) by lia].
    pose proof (Z.mod_pos_bound (a - (d + 1)) (d - s) ltac:(lia)). set (k := (a - (d + 1)) mod (d - s)) in *.
    assert (Hk : (a - d) mod (d - s) = (k + 1) mod (d - s)) by (unfold k; rewrite Zplus_mod_idemp_l; f_equal; lia). rewrite Hk.
    destruct (Z.eqb_spec d (s + 1 + k)) as [E|E].
    + replace (k + 1) with (d - s) by lia. rewrite Z_mod_same_full. f_equal. lia.
    + rewrite (Z.mod_small (k + 1)) by lia. f_equal. lia.
  - destruct (Z.eqb_spec d a) as [->|E].
    + replace (a - a) with 0 by lia. rewrite Z.mod_0_l by lia. zcase. f_equal. lia.
    + zcase.
Qed.

(** The [memmove] of user programs copies from the front: the bytes arrive as they
    were when the destination starts before the source or after its end, and nothing
    else changes.  When the destination starts inside the source, the [dst - src]
    bytes in front of it are repeated instead, which is not what [memmove] means. *)
Theorem umemmove_spec m dst src n a :
  ld8 (memmove m dst src n) a =
    if (dst <=? a) && (a <? dst + n) then
      if (src <? dst) && (dst <? src + n) then ld8 m (src + (a - dst) mod (dst - src)) else ld8 m (src + (a - dst))
    else ld8 m a.
Proof.
  unfold memmove. destruct (Z.leb_spec n 0) as [Hn|Hn]; [replace (Z.to_nat n) with O by lia; simpl; by zcase|].
  destruct ((src <? dst) && (dst <? src + n)) eqn:E.
  - rewrite move_up_period, Z2Nat.id by lia. done.
  - rewrite move_up_spec, Z2Nat.id by lia. done.
Qed.

(** [strcpy] *)

Lemma strcpy_frame fuel : ∀ m s t m' a, strcpy fuel m s t = Some m' → ¬ (s ≤ a < s + Z.of_nat fuel) → ld8 m' a = ld8 m a.
Proof.
  induction fuel as [|fuel IH]; intros m s t m' a Hr Ha; [done|]. cbn [strcpy] in Hr.
  destruct (ld8 m t =? 0); [injection Hr as <-|rewrite (IH _ _ _ _ _ Hr) by lia]; rewrite ld8_st8; by zcase.
Qed.
(** The string and its NUL arrive where they were asked for. *)
Theorem strcpy_spec m s t k : 0 ≤ k → ld8 m (t + k) = 0 → (∀ j, 0 ≤ j < k → ld8 m (t + j) ≠ 0) → s + k < t ∨ t + k < s →
  ∃ m', strcpy (S (Z.to_nat k)) m s t = Some m' ∧
    ∀ a, ld8 m' a = if (s <=? a) && (a <=? s + k) then ld8 m (t + (a - s)) else ld8 m a.
Proof.
  intros Hk. remember (Z.to_nat k) as n eqn:Hn. revert m s t k Hk Hn.
  induction n as [|n IH]; intros m s t k Hk Hn Hz Hnz Hd.
  - replace k with 0 in * by lia. rewrite Z.add_0_r in *. cbn [strcpy]. rewrite Hz. eexists. split; [reflexivity|]. intros a.
    rewrite ld8_st8. zcase; [|done..]. replace (t + (a - s)) with t by lia. done.
  - assert (Hc : ld8 m t ≠ 0) by (rewrite <- (Z.add_0_r t); apply Hnz; lia). remember (S n) as f eqn:Hf. cbn [strcpy].
    rewrite (proj2 (Z.eqb_neq _ _) Hc). subst f.
    assert (Hl : ∀ j, 0 ≤ j ≤ k → ld8 (st8 s (ld8 m t) m) (t + j) = ld8 m (t + j)) by (intros j Hj; rewrite ld8_st8; by zcase).
    destruct (IH (st8 s (ld8 m t) m) (s + 1) (t + 1) (k - 1)) as (m' & R & Hm'); [lia..| | | |].
    + replace (t + 1 + (k - 1)) with (t + k) by lia. rewrite Hl by lia. done.
    + intros j Hj. replace (t + 1 + j) with (t + (1 + j)) by lia. rewrite Hl by lia. apply Hnz. lia.
    + lia.
    + exists m'. split; [done|]. intros a. rewrite Hm'.
      destruct (decide (s + 1 ≤ a ≤ s + k)) as [Ha|Ha].
      * rewrite !(proj2 (Z.leb_le _ _)) by lia. cbn [andb]. replace (t + 1 + (a - (s + 1))) with (t + (a - s)) by lia. by rewrite Hl by lia.
      * replace ((s + 1 <=? a) && (a <=? s + 1 + (k - 1))) with false by lia. rewrite ld8_st8, u8_ld8.
        zcase; try done. replace (t + (a - s)) with t by lia. done.
Qed.
Lemma strcpy_spec_witness : ∃ m', strcpy 3 (st_bytes 10 [97; 98; 0] ∅) 0 10 = Some m' ∧ ld8 m' 1 = 98.
Proof.
  destruct (strcpy_spec (st_bytes 10 [97; 98; 0] ∅) 0 10 2) as (m' & R & H); [lia|done| |lia|].
  - intros j Hj. destruct (decide (j = 0)) as [->|]; [done|]. replace j with 1 by lia. done.
  - exists m'. split; [exact R|]. rewrite H. done.
Defined.
