(* ===== verification/Umalloc.v ===== *)
(** The allocator of user programs: [usr/umalloc.c] (Kernighan and Ritchie).

    Memory is seen through its headers: [u_hdr] gives the header at an address.
    A field can be read or written where the process has a page: an access beyond
    its last page is a fault ([Undef]).  The free blocks form a ring in address
    order through [base]; sizes count headers of 16 bytes.  [sbrk] is the system
    call: the kernel grants a request ([grants], whether it has the memory) or
    refuses it. *)

From stdpp Require Import sorting.
From S2P Require Import Prelude.

(** * The program *)

Record header := Header { h_ptr : Z; h_size : Z }.
Definition set_h_ptr v r := Header v (h_size r).
Definition set_h_size v r := Header (h_ptr r) v.
Definition HSIZE : Z := 16.

Record ust := Ust {
  u_hdr : gmap Z header;
  u_freep : Z;
  u_brk : Z;                 (* the size of the process *)
}.
Definition set_u_hdr v r := Ust v (u_freep r) (u_brk r).
Definition set_u_freep v r := Ust (u_hdr r) v (u_brk r).
Definition set_u_brk v r := Ust (u_hdr r) (u_freep r) v.

(** The header at [a]; memory that was never written is zero. *)
Definition hdr (m : gmap Z header) (a : Z) : header := default (Header 0 0) (m !! a).
(** The pages of a process of [b] bytes end here. *)
Definition uend (b : Z) : Z := (b + 4095) / 4096 * 4096.
Definition mapped (a n : Z) : M ust unit :=
  let* b := gets u_brk in
  if (0 <=? a) && (a + n <=? uend b) then ret tt else undef "user page fault".
(** The fields [p->s.ptr] (8 bytes) and [p->s.size] (4 bytes at offset 8). *)
Definition get_ptr (a : Z) : M ust Z := mapped a 8 ;; gets (fun s => h_ptr (hdr (u_hdr s) a)).
Definition get_size (a : Z) : M ust Z := mapped (a + 8) 4 ;; gets (fun s => h_size (hdr (u_hdr s) a)).
Definition hupd (a : Z) (f : header → header) (s : ust) : ust :=
  set_u_hdr (<[a := f (hdr (u_hdr s) a)]> (u_hdr s)) s.
Definition put_ptr (a v : Z) : M ust unit := mapped a 8 ;; modify (hupd a (set_h_ptr v)).
Definition put_size (a v : Z) : M ust unit := mapped (a + 8) 4 ;; modify (hupd a (set_h_size v)).
(** [p + n] for a [Header *]. *)
Definition hplus (p n : Z) : Z := u64 (p + HSIZE * n).

Section umalloc.
(** The address of [base], whether the kernel grants [n] bytes to a process of
    [b] bytes, and a bound on the iterations of the loops. *)
Context (base : Z) (grants : Z → Z → bool) (fuel : nat).
Definition ULIMIT : Z := Z.shiftl 1 28.      (* UADDR_SZ *)

(** [sys_sbrk] and [growproc]: the argument is an [int].  A smaller process loses
    its pages above the new size; with no page left it cannot go on. *)
Definition sbrk (n : Z) : M ust Z :=
  let n := s32 n in
  let* b := gets u_brk in
  if 0 <? n then
    if (ULIMIT <=? u32 (b + n)) || negb (grants b n) then ret (-1)
    else modify (set_u_brk (u32 (b + n))) ;; ret b
  else if n <? 0 then
    let new := u32 (b + n) in
    let sz := if b <=? new then b else new in
    if sz =? 0 then undef "user page fault" else
    modify (fun s => Ust (filter (fun x => x.1 < uend sz) (u_hdr s)) (u_freep s) sz) ;;
    ret b
  else ret b.

(** [for(p = freep; !(bp > p && bp < p->s.ptr); p = p->s.ptr) if(...) break;] *)
Fixpoint free_search (fuel : nat) (bp p : Z) : M ust Z :=
  match fuel with
  | O => out_of_fuel
  | S fuel =>
      let* next := get_ptr p in
      if (p <? bp) && (bp <? next) then ret p
      else if (next <=? p) && ((p <? bp) || (bp <? next)) then ret p
      else free_search fuel bp next
  end.
Definition free (ap : Z) : M ust unit :=
  let bp := u64 (ap - HSIZE) in
  let* f := gets u_freep in
  let* p := free_search fuel bp f in
  let* bsize := get_size bp in
  let* next := get_ptr p in
  (if hplus bp bsize =? next then
     let* nsize := get_size next in
     put_size bp (u32 (bsize + nsize)) ;;
     let* nptr := get_ptr next in
     put_ptr bp nptr
   else put_ptr bp next) ;;
  let* psize := get_size p in
  (if hplus p psize =? bp then
     let* bsize := get_size bp in
     put_size p (u32 (psize + bsize)) ;;
     let* bptr := get_ptr bp in
     put_ptr p bptr
   else put_ptr p bp) ;;
  modify (set_u_freep p).

(** 0 when the kernel refuses. *)
Definition morecore (nu : Z) : M ust Z :=
  let nu := if nu <? 4096 then 4096 else nu in
  let* p := sbrk (u64 (nu * HSIZE)) in
  if p =? -1 then ret 0 else
  put_size p nu ;;
  free (u64 (p + HSIZE)) ;;
  gets u_freep.

(** The loop of [malloc] from [prevp], where [p = prevp->s.ptr]. *)
Fixpoint malloc_loop (fuel' : nat) (nunits prevp : Z) : M ust Z :=
  match fuel' with
  | O => out_of_fuel
  | S fuel' =>
      let* p := get_ptr prevp in
      let* size := get_size p in
      if nunits <=? size then
        (if size =? nunits then
           let* next := get_ptr p in
           put_ptr prevp next ;;
           modify (set_u_freep prevp) ;;
           ret (hplus p 1)
         else
           put_size p (u32 (size - nunits)) ;;
           let p := hplus p (u32 (size - nunits)) in
           put_size p nunits ;;
           modify (set_u_freep prevp) ;;
           ret (hplus p 1))
      else
        let* f := gets u_freep in
        if p =? f then
          let* p := morecore nunits in
          if p =? 0 then ret 0 else malloc_loop fuel' nunits p
        else malloc_loop fuel' nunits p
  end.
(** [nbytes] is a [uint]; the sum is computed in 64 bits. *)
Definition units (nbytes : Z) : Z := u32 ((nbytes + HSIZE - 1) / HSIZE + 1).
Definition malloc (nbytes : Z) : M ust Z :=
  let nunits := units nbytes in
  let* f := gets u_freep in
  (if f =? 0 then
     put_ptr base base ;;
     modify (set_u_freep base) ;;
     put_size base 0
   else ret tt) ;;
  let* prevp := gets u_freep in
  malloc_loop fuel nunits prevp.
End umalloc.

(** A header inside the process: its fields can be used. *)
Definition own (s : ust) (a : Z) : Prop := 0 ≤ a ∧ a + 16 ≤ u_brk s.
Lemma uend_le b : b ≤ uend b.
Proof. unfold uend. pose proof (Z.div_mod (b + 4095) 4096 ltac:(lia)). pose proof (Z.mod_pos_bound (b + 4095) 4096 ltac:(lia)). lia. Qed.
Lemma uend_page b : b mod 4096 = 0 → uend b = b.
Proof.
  intros H. unfold uend. assert (E : b = 4096 * (b / 4096)) by (pose proof (Z.div_mod b 4096 ltac:(lia)); lia).
  rewrite E at 1. rewrite (Z.mul_comm 4096), Z.div_add_l by lia. change (4095 / 4096) with 0. lia.
Qed.
Lemma mapped_ok a n s : 0 ≤ a → a + n ≤ u_brk s → mapped a n s = Ok tt s.
Proof. intros H0 H1. pose proof (uend_le (u_brk s)). unfold mapped. run. by replace ((0 <=? a) && (a + n <=? uend (u_brk s))) with true by lia. Qed.
Lemma mapped_fault a n s : uend (u_brk s) < a + n → mapped a n s = Undef "user page fault" s.
Proof. intros H. unfold mapped. run. by replace ((0 <=? a) && (a + n <=? uend (u_brk s))) with false by lia. Qed.
Section access.
Context (s : ust) (a : Z) (O : own s a).
Lemma get_ptr_ok : get_ptr a s = Ok (h_ptr (hdr (u_hdr s) a)) s.
Proof using O. unfold get_ptr. by rewrite (bind_ok _ _ _ _ _ (mapped_ok a 8 s ltac:(apply O) ltac:(destruct O; lia))). Qed.
Lemma get_size_ok : get_size a s = Ok (h_size (hdr (u_hdr s) a)) s.
Proof using O. unfold get_size. by rewrite (bind_ok _ _ _ _ _ (mapped_ok (a + 8) 4 s ltac:(destruct O; lia) ltac:(destruct O; lia))). Qed.
Lemma put_ptr_ok v : put_ptr a v s = Ok tt (hupd a (set_h_ptr v) s).
Proof using O. unfold put_ptr. by rewrite (bind_ok _ _ _ _ _ (mapped_ok a 8 s ltac:(apply O) ltac:(destruct O; lia))). Qed.
Lemma put_size_ok v : put_size a v s = Ok tt (hupd a (set_h_size v) s).
Proof using O. unfold put_size. by rewrite (bind_ok _ _ _ _ _ (mapped_ok (a + 8) 4 s ltac:(destruct O; lia) ltac:(destruct O; lia))). Qed.
End access.
(** [heap_run] runs the accesses to headers that are known to be inside. *)
Ltac in_heap := solve [eassumption | auto | (unfold own in *; cbn [u_brk hupd set_u_hdr set_u_brk set_u_freep] in *; lia)].
Ltac heap_run := repeat first
  [ erewrite bind_ok by (apply get_ptr_ok; in_heap) | erewrite bind_ok by (apply get_size_ok; in_heap)
  | erewrite bind_ok by (apply put_ptr_ok; in_heap) | erewrite bind_ok by (apply put_size_ok; in_heap)
  | rewrite put_ptr_ok by in_heap | rewrite put_size_ok by in_heap ].

(** * The ring of free blocks *)

(** A free block: the address of its header and its size. *)
Abbreviation node := (Z * Z)%type.
Definition nend (x : node) : Z := x.1 + 16 * x.2.
(** Blocks in order that do not touch. *)
Definition gap (x y : node) : Prop := nend x < y.1.
Definition nxt (N : list node) (e : Z) : Z := match N with [] => e | x :: _ => x.1 end.
(** The headers of [N] lead from one to the next and at the end to [e]. *)
Fixpoint path (m : gmap Z header) (N : list node) (e : Z) : Prop :=
  match N with [] => True | x :: N => hdr m x.1 = Header (nxt N e) x.2 ∧ path m N e end.
Definition covers (N : list node) (z : Z) : Prop := ∃ b, b ∈ N ∧ b.1 ≤ z < nend b.

Lemma nxt_app N1 N2 e : nxt (N1 ++ N2) e = nxt N1 (nxt N2 e).
Proof. by destruct N1. Qed.
Lemma path_app m N1 : ∀ N2 e, path m (N1 ++ N2) e ↔ path m N1 (nxt N2 e) ∧ path m N2 e.
Proof. induction N1 as [|x N1 IH]; intros N2 e; simpl; [tauto|]. rewrite IH, nxt_app. tauto. Qed.
Lemma path_frame m m' N e : (∀ b, b ∈ N → hdr m' b.1 = hdr m b.1) → path m N e → path m' N e.
Proof.
  induction N as [|x N IH]; intros Hf; simpl; [done|]. intros [Hx Hp]. rewrite Hf by set_solver. split; [done|]. apply IH; [|done]. set_solver.
Qed.
Lemma hdr_insert m a h b : hdr (<[a := h]> m) b = if a =? b then h else hdr m b.
Proof. unfold hdr. destruct (Z.eqb_spec a b) as [->|]; [by rewrite lookup_insert_eq|by rewrite lookup_insert_ne]. Qed.
Lemma covers_app N1 N2 z : covers (N1 ++ N2) z ↔ covers N1 z ∨ covers N2 z.
Proof. unfold covers. setoid_rewrite elem_of_app. naive_solver. Qed.
Lemma covers_cons x N z : covers (x :: N) z ↔ x.1 ≤ z < nend x ∨ covers N z.
Proof. unfold covers. setoid_rewrite elem_of_cons. naive_solver. Qed.
Lemma covers_nil z : ¬ covers [] z.
Proof. intros (b & Hb & _). by apply elem_of_nil in Hb. Qed.

Section ring.
Context (base : Z).

Record ring (s : ust) (L : list node) : Prop := {
  rg_path : path (u_hdr s) ((base, 0) :: L) base;
  rg_sorted : StronglySorted gap ((base, 0) :: L);
  rg_pos : ∀ b, b ∈ L → 1 ≤ b.2;
  rg_end : ∀ b, b ∈ L → nend b ≤ u_brk s;
  rg_freep : ∃ n, (u_freep s, n) ∈ (base, 0) :: L;
  rg_base : 0 < base ∧ base + 16 ≤ u_brk s;
  rg_low : ∀ b, b ∈ L → base + 16 ≤ b.1;
  rg_brk : u_brk s < 2 ^ 28;
}.

(** Where a block goes: after the last block below it. *)
Lemma ring_split N x bp n : StronglySorted gap (x :: N) → (∀ b, b ∈ x :: N → 0 ≤ b.2) → 0 < n → nend x ≤ bp →
  (∀ b, b ∈ N → nend b ≤ bp ∨ bp + 16 * n ≤ b.1) →
  ∃ N1 p N2, x :: N = N1 ++ p :: N2 ∧ nend p ≤ bp ∧ ∀ b, b ∈ N2 → bp + 16 * n ≤ b.1.
Proof.
  revert x. induction N as [|y N IH]; intros x Hs H0 Hn Hx Hd; [exists [], x, []; set_solver|].
  apply StronglySorted_cons in Hs as [Hg Hs]. destruct (Hd y ltac:(set_solver)) as [Hy|Hy].
  - destruct (IH y Hs ltac:(set_solver) Hn Hy ltac:(set_solver)) as (N1 & p & N2 & -> & Hp & H2). by exists (x :: N1), p, N2.
  - exists [], x, (y :: N). split; [done|]. split; [done|]. intros b [->|Hb]%elem_of_cons; [done|].
    apply StronglySorted_cons in Hs as [Hs _]. rewrite Forall_forall in Hs. specialize (Hs b Hb). pose proof (H0 y ltac:(set_solver)). unfold gap, nend in *. lia.
Qed.

(** When the search stops at a node. *)
Definition stops (bp a next : Z) : bool :=
  ((a <? bp) && (bp <? next)) || ((next <=? a) && ((a <? bp) || (bp <? next))).
Fixpoint nonstop (bp : Z) (K : list node) (e : Z) : Prop :=
  match K with [] => True | x :: K => stops bp x.1 (nxt K e) = false ∧ nonstop bp K e end.
Lemma search_step fuel bp p s : own s p → free_search (S fuel) bp p s =
  if stops bp p (h_ptr (hdr (u_hdr s) p)) then Ok p s else free_search fuel bp (h_ptr (hdr (u_hdr s) p)) s.
Proof. intros O. cbn [free_search]. heap_run. unfold stops. by repeat case_match. Qed.
Lemma search_skip K fuel bp e s : path (u_hdr s) K e → nonstop bp K e → (∀ b, b ∈ K → own s b.1) →
  free_search (length K + fuel) bp (nxt K e) s = free_search fuel bp e s.
Proof.
  induction K as [|x K IH]; [done|]. intros [Hx Hp] [Hn Hns] Ho. cbn [length Nat.add nxt]. rewrite search_step, Hx by (apply Ho, elem_of_cons; by left). cbn [h_ptr].
  rewrite Hn. apply IH; [done|done|]. intros b Hb. apply Ho, elem_of_cons. by right.
Qed.

(** Membership in a list given by its parts. *)
Ltac inl := rewrite ?elem_of_app, ?elem_of_cons, ?elem_of_app, ?elem_of_cons; repeat match goal with H : _ ∈ _ |- _ => progress rewrite ?elem_of_app, ?elem_of_cons in H end; tauto.
Lemma nonstop_below bp K p N2 : StronglySorted gap (K ++ p :: N2) → (∀ b, b ∈ K → 0 ≤ b.2) → p.1 ≤ bp → nonstop bp K p.1.
Proof.
  intros Hs H0 Hp. induction K as [|x K IH]; [done|]. simpl in Hs. apply StronglySorted_cons in Hs as [Hg Hs].
  split; [|apply IH; [done|set_solver]]. rewrite Forall_forall in Hg.
  assert (Hx : nxt K p.1 ≤ bp ∧ x.1 < nxt K p.1).
  { pose proof (H0 x ltac:(inl)). destruct K as [|y K]; cbn [nxt].
    - specialize (Hg p ltac:(inl)). unfold gap, nend in Hg. lia.
    - pose proof (Hg y ltac:(inl)) as Hy. simpl in Hs. apply StronglySorted_cons in Hs as [Hs _]. rewrite Forall_forall in Hs.
      specialize (Hs p ltac:(inl)). pose proof (H0 y ltac:(inl)). unfold gap, nend in *. lia. }
  unfold stops. lia.
Qed.
Lemma nonstop_above bp K : StronglySorted gap K → (∀ b, b ∈ K → bp < b.1 ∧ 0 ≤ b.2) → base < bp → nonstop bp K base.
Proof.
  intros Hs H0 Hb. induction K as [|x K IH]; [done|]. apply StronglySorted_cons in Hs as [Hg Hs].
  split; [|apply IH; [done|set_solver]]. rewrite Forall_forall in Hg. destruct (H0 x ltac:(inl)) as [H1 H2].
  destruct K as [|y K]; cbn [nxt]; [unfold stops; lia|]. specialize (Hg y ltac:(inl)). unfold gap, nend, stops in *. lia.
Qed.
Lemma ring_size s L b : ring s L → b ∈ (base, 0) :: L → 0 ≤ b.2.
Proof. intros R [->|Hb]%elem_of_cons; [done|]. pose proof (rg_pos _ _ R b Hb). lia. Qed.
Lemma ring_own s L b : ring s L → b ∈ (base, 0) :: L → own s b.1.
Proof.
  intros R [->|Hb]%elem_of_cons; pose proof (rg_base _ _ R) as [H0 H1]; [split; simpl; lia|].
  pose proof (rg_pos _ _ R b Hb). pose proof (rg_end _ _ R b Hb) as He. pose proof (rg_low _ _ R b Hb). unfold nend in He. split; lia.
Qed.
Lemma search_ok s L fuel bp n N1 p N2 : ring s L → (base, 0) :: L = N1 ++ p :: N2 → base < bp → 0 < n →
  nend p ≤ bp → (∀ b, b ∈ N2 → bp + 16 * n ≤ b.1) → (length L < fuel)%nat →
  free_search fuel bp (u_freep s) s = Ok p.1 s.
Proof.
  intros R E Hb Hn Hp H2 Hf. pose proof (rg_sorted _ _ R) as Hs. pose proof (rg_path _ _ R) as Hpa. pose proof (fun b => ring_size s L b R) as H0.
  pose proof (fun b => ring_own s L b R) as Ho. rewrite E in Hs, Hpa, H0, Ho. assert (Hl : length (N1 ++ p :: N2) = S (length L)) by (by rewrite <- E). rewrite length_app in Hl. simpl in Hl.
  apply path_app in Hpa as [P1 Pp]. cbn [nxt] in P1. assert (Hp1 : p.1 < bp).
  { assert (Hin : p ∈ (base, 0) :: L) by (rewrite E; set_solver). apply elem_of_cons in Hin as [->|Hin]; [simpl; lia|].
    pose proof (rg_pos _ _ R p Hin). unfold nend in Hp. lia. }
  assert (Hstop : ∀ f, free_search (S f) bp p.1 s = Ok p.1 s).
  { intros f. rewrite search_step by (apply Ho; inl). destruct Pp as [-> _]. cbn [h_ptr]. assert (Hst : stops bp p.1 (nxt N2 base) = true); [|by rewrite Hst].
    destruct N2 as [|y N2]; cbn [nxt]; unfold stops; [|specialize (H2 y ltac:(inl)); lia].
    assert (base ≤ p.1); [|lia]. destruct N1 as [|z N1]; simpl in E; injection E as Ez _; [by rewrite <- Ez|].
    apply StronglySorted_app in Hs as (Hg & _ & _). specialize (Hg z p ltac:(inl) ltac:(inl)). rewrite <- Ez in Hg. unfold gap, nend in Hg. simpl in Hg. lia. }
  destruct (rg_freep _ _ R) as [n0 Hq]. rewrite E in Hq. apply elem_of_app in Hq as [Hq|[Hq|Hq]%elem_of_cons].
  - apply list_elem_of_split in Hq as (K0 & K1 & ->). apply path_app in P1 as [_ P1]. rewrite <- app_assoc in Hs. simpl in Hs. rewrite length_app in Hl. simpl in Hl.
    replace fuel with (length ((u_freep s, n0) :: K1) + S (fuel - S (S (length K1))))%nat by (simpl; lia).
    change (u_freep s) with (nxt ((u_freep s, n0) :: K1) p.1) at 2. rewrite search_skip; [apply Hstop|done| |intros b Hbb; apply Ho; inl].
    apply (nonstop_below _ _ p N2); [by apply StronglySorted_app_1_r in Hs|intros b Hbb; apply H0; inl|lia].
  - replace fuel with (S (fuel - 1)) by lia. change (u_freep s) with ((u_freep s, n0).1). rewrite Hq. apply Hstop.
  - apply list_elem_of_split in Hq as (K0 & K1 & ->). destruct Pp as [_ P2]. apply path_app in P2 as [_ P2]. rewrite length_app in Hl. simpl in Hl.
    replace fuel with (length ((u_freep s, n0) :: K1) + (length N1 + S (fuel - S (length K1) - length N1 - 1)))%nat by (simpl; lia).
    change (u_freep s) with (nxt ((u_freep s, n0) :: K1) base) at 2. rewrite search_skip; [|done| |intros b Hbb; apply Ho; inl].
    + assert (Hb0 : base = nxt N1 p.1) by (destruct N1; simpl in E; by injection E as <- _). rewrite Hb0. rewrite search_skip; [apply Hstop|done| |intros b Hbb; apply Ho; inl].
      apply (nonstop_below _ _ p _ Hs); [intros b Hbb; apply H0; inl|lia].
    + apply nonstop_above; [|intros b Hbb; specialize (H2 b ltac:(inl)); specialize (H0 b ltac:(inl)); lia|done].
      apply StronglySorted_app_1_r in Hs. apply StronglySorted_cons in Hs as [_ Hs]. by apply StronglySorted_app_1_r in Hs.
Qed.

(** What [free] does to the headers, once the place is found. *)
Definition join_next (m : gmap Z header) (bp p : Z) : header :=
  if hplus bp (h_size (hdr m bp)) =? h_ptr (hdr m p)
  then Header (h_ptr (hdr m (h_ptr (hdr m p)))) (u32 (h_size (hdr m bp) + h_size (hdr m (h_ptr (hdr m p)))))
  else Header (h_ptr (hdr m p)) (h_size (hdr m bp)).
Definition join_prev (m : gmap Z header) (bp p : Z) : header :=
  if hplus p (h_size (hdr m p)) =? bp
  then Header (h_ptr (join_next m bp p)) (u32 (h_size (hdr m p) + h_size (join_next m bp p)))
  else Header bp (h_size (hdr m p)).
Lemma free_run fuel bp p s : 0 ≤ bp → bp + 16 < 2 ^ 64 → p ≠ bp → free_search fuel bp (u_freep s) s = Ok p s → own s bp → own s p →
  (hplus bp (h_size (hdr (u_hdr s) bp)) = h_ptr (hdr (u_hdr s) p) → own s (h_ptr (hdr (u_hdr s) p))) →
  ∃ m', free fuel (bp + 16) s = Ok tt (Ust m' p (u_brk s)) ∧
    ∀ a, hdr m' a = if a =? p then join_prev (u_hdr s) bp p else if a =? bp then join_next (u_hdr s) bp p else hdr (u_hdr s) a.
Proof.
  intros H0 H1 Hne Hs Ob Op On. unfold free, HSIZE. rewrite u64_small by lia. replace (bp + 16 - 16) with bp by lia.
  rewrite (bind_ok _ _ _ _ _ (eq_refl : gets _ _ = Ok _ _)), (bind_ok _ _ _ _ _ Hs). heap_run. set (m := u_hdr s) in *.
  assert (R1 : ∃ m1, (if hplus bp (h_size (hdr m bp)) =? h_ptr (hdr m p)
     then let* nsize := get_size (h_ptr (hdr m p)) in put_size bp (u32 (h_size (hdr m bp) + nsize)) ;; let* nptr := get_ptr (h_ptr (hdr m p)) in put_ptr bp nptr
     else put_ptr bp (h_ptr (hdr m p))) s = Ok tt (set_u_hdr m1 s) ∧ ∀ a, hdr m1 a = if a =? bp then join_next m bp p else hdr m a).
  { unfold join_next. destruct (Z.eqb_spec (hplus bp (h_size (hdr m bp))) (h_ptr (hdr m p))) as [E|E]; [specialize (On E)|]; heap_run;
      eexists; (split; [reflexivity|]); intros a; cbn [u_hdr set_u_hdr hupd]; fold m; rewrite !hdr_insert, ?Z.eqb_refl;
      rewrite (Z.eqb_sym a bp); destruct (Z.eqb_spec bp a); destruct (Z.eqb_spec bp (h_ptr (hdr m p))) as [->|]; done. }
  destruct R1 as (m1 & R1 & F1). rewrite (bind_ok _ _ _ _ _ R1). heap_run. cbn [u_hdr set_u_hdr].
  assert (Ep : hdr m1 p = hdr m p) by (rewrite F1; destruct (Z.eqb_spec p bp); done). rewrite Ep. unfold join_prev. fold m.
  destruct (hplus p (h_size (hdr m p)) =? bp); heap_run.
  - erewrite bind_ok by (heap_run; reflexivity). eexists. split; [reflexivity|]. intros a. cbn [u_hdr set_u_hdr hupd].
    rewrite !hdr_insert, ?(proj2 (Z.eqb_neq p bp)), !Z.eqb_refl, !F1, !Z.eqb_refl, (Z.eqb_sym a p) by done. by destruct (p =? a).
  - eexists. split; [reflexivity|]. intros a. cbn [u_hdr set_u_hdr hupd].
    rewrite !hdr_insert, Ep, F1, (Z.eqb_sym a p). by destruct (p =? a).
Qed.

(** The freed block with the block after it, when they touch: [R] is what follows. *)
Lemma join_next_ok m bp n p N2 lim : path m (p :: N2) base → StronglySorted gap N2 → base < bp → 1 ≤ n → h_size (hdr m bp) = n →
  (∀ b, b ∈ N2 → bp + 16 * n ≤ b.1 ∧ 1 ≤ b.2 ∧ nend b ≤ lim) → bp + 16 * n ≤ lim → lim < 2 ^ 28 → 0 < base →
  ∃ R nb, join_next m bp p.1 = Header (nxt R base) nb ∧ path m R base ∧ StronglySorted gap R ∧ (∀ b, b ∈ R → b ∈ N2 ∧ bp + 16 * nb < b.1) ∧
    (length R ≤ length N2)%nat ∧ n ≤ nb ∧ bp + 16 * nb ≤ lim ∧ ∀ z, bp ≤ z < bp + 16 * nb ∨ covers R z ↔ covers N2 z ∨ bp ≤ z < bp + 16 * n.
Proof.
  intros [Hp P2] Hs Hb Hn Hh H2 Hl Hlim H0. unfold join_next. rewrite Hp, Hh. cbn [h_ptr]. unfold hplus, HSIZE. rewrite u64_small by lia.
  destruct N2 as [|y N2]; cbn [nxt].
  - destruct (Z.eqb_spec (bp + 16 * n) base); [lia|]. exists [], n. split; [done|]. split; [done|]. split; [constructor|].
    split; [by intros b Hbb%elem_of_nil|]. split; [simpl; lia|]. split; [lia|]. split; [lia|]. intros z. split.
    + intros [Hz|Hz]; [by right|by apply covers_nil in Hz].
    + intros [Hz|Hz]; [by apply covers_nil in Hz|by left].
  - destruct P2 as [Hy P2]. apply StronglySorted_cons in Hs as [Hg Hs]. rewrite Forall_forall in Hg. destruct (H2 y ltac:(inl)) as (Hy1 & Hy2 & Hy3). unfold nend in Hy3.
    destruct (Z.eqb_spec (bp + 16 * n) y.1) as [Ey|Ey].
    + rewrite Hy. cbn [h_ptr h_size]. rewrite u32_small by lia. exists N2, (n + y.2). split; [done|]. split; [done|]. split; [done|]. split.
      { intros b Hbb. split; [inl|]. specialize (Hg b Hbb). unfold gap, nend in Hg. lia. }
      split; [simpl; lia|]. split; [lia|]. split; [lia|]. intros z. rewrite covers_cons. unfold nend. split; [intros [Hz|Hz]|intros [[Hz|Hz]|Hz]]; try tauto; try lia.
    + exists (y :: N2), n. split; [done|]. split; [done|]. split; [by apply StronglySorted_cons; rewrite Forall_forall|]. split.
      { intros b Hbb. split; [done|]. apply elem_of_cons in Hbb as [->|Hbb]; [lia|]. specialize (Hg b Hbb). unfold gap, nend in Hg. lia. }
      split; [done|]. split; [lia|]. split; [lia|]. intros z. tauto.
Qed.
(** Nothing is in the block [base]. *)
Lemma covers_base K z : covers ((base, 0) :: K) z ↔ covers K z.
Proof. rewrite covers_cons. unfold nend. simpl. split; [intros [?|?]; [lia|done]|tauto]. Qed.
(** A ring whose nodes from [p] on are replaced. *)
Lemma ring_replace s L N1 p N2 m' q M : ring s L → (base, 0) :: L = N1 ++ p :: N2 → path m' ((p.1, q) :: M) base → StronglySorted gap ((p.1, q) :: M) →
  (p.1 = base → q = 0) → (p.1 ≠ base → 1 ≤ q) → p.1 + 16 * q ≤ u_brk s → (∀ b, b ∈ M → p.1 < b.1 ∧ base + 16 ≤ b.1 ∧ 1 ≤ b.2 ∧ nend b ≤ u_brk s) →
  (∀ b, b ∈ N1 → b.1 < p.1 → hdr m' b.1 = hdr (u_hdr s) b.1) →
  ∃ L', (base, 0) :: L' = N1 ++ (p.1, q) :: M ∧ ring (Ust m' p.1 (u_brk s)) L' ∧ (length L' + length N2 = length L + length M)%nat.
Proof.
  intros R E PM SM Hq0 Hq1 Hqe HM Hf. pose proof (rg_path _ _ R) as Hpa. rewrite E in Hpa. apply path_app in Hpa as [P1 _]. cbn [nxt] in P1.
  pose proof (rg_sorted _ _ R) as Hs. rewrite E in Hs. apply StronglySorted_app in Hs as (Hg1 & Hs1 & _).
  assert (E' : ∃ L', (base, 0) :: L' = N1 ++ (p.1, q) :: M).
  { destruct N1 as [|x N1]; simpl in E; injection E as Ex EL; [|exists (N1 ++ (p.1, q) :: M); by rewrite Ex].
    exists M. rewrite <- Ex in *. simpl. simpl in Hq0. by rewrite Hq0. }
  destruct E' as [L' E']. exists L'. split; [done|].
  assert (Sn : StronglySorted gap ((base, 0) :: L')).
  { rewrite E'. apply StronglySorted_app. split; [|done]. intros x y Hx [->|Hy]%elem_of_cons; specialize (Hg1 x p Hx ltac:(inl)); unfold gap in *; [done|].
    specialize (HM y Hy). lia. }
  assert (Hin : ∀ b, b ∈ L' → base + 16 ≤ b.1 ∧ 1 ≤ b.2 ∧ nend b ≤ u_brk s).
  { intros b Hbb. assert (Hgb : base < b.1) by (apply StronglySorted_cons in Sn as [Sn _]; rewrite Forall_forall in Sn; specialize (Sn b Hbb); unfold gap, nend in Sn; simpl in Sn; lia).
    assert (Hi : b ∈ N1 ++ (p.1, q) :: M) by (rewrite <- E'; inl). apply elem_of_app in Hi as [Hi|[->|Hi]%elem_of_cons].
    - assert (Hi' : b ∈ (base, 0) :: L) by (rewrite E; inl). apply elem_of_cons in Hi' as [->|Hi']; [simpl in Hgb; lia|]. split_and!; [by apply (rg_low _ _ R)|by apply (rg_pos _ _ R)|by apply (rg_end _ _ R)].
    - unfold nend. simpl in *. split_and!; [|apply Hq1; lia|done]. assert (Hi : p ∈ (base, 0) :: L) by (rewrite E; inl).
      apply elem_of_cons in Hi as [->|Hi]; [simpl in Hgb; lia|by apply (rg_low _ _ R)].
    - specialize (HM b Hi). tauto. }
  split; [split; cbn [u_hdr u_freep u_brk]; try done|].
  - rewrite E'. apply path_app. split; [|exact PM]. cbn [nxt fst]. apply (path_frame (u_hdr s)); [|done]. intros b Hbb. specialize (Hg1 b p Hbb ltac:(inl)).
    assert (0 ≤ b.2) by (apply (ring_size s L b R); rewrite E; inl). apply Hf; [done|]. unfold gap, nend in *. lia.
  - intros b Hbb. by apply Hin.
  - intros b Hbb. by apply Hin.
  - exists q. rewrite E'. inl.
  - apply (rg_base _ _ R).
  - intros b Hbb. by apply Hin.
  - apply (rg_brk _ _ R).
  - assert (Hl : length (N1 ++ p :: N2) = S (length L)) by (by rewrite <- E). assert (Hl' : length (N1 ++ (p.1, q) :: M) = S (length L')) by (by rewrite <- E').
    rewrite length_app in Hl, Hl'. simpl in Hl, Hl'. lia.
Qed.
Lemma ring_free_ok s L fuel bp n : ring s L → base + 16 ≤ bp → 1 ≤ n → h_size (hdr (u_hdr s) bp) = n → bp + 16 * n ≤ u_brk s →
  (∀ z, bp ≤ z < bp + 16 * n → ¬ covers L z) → (length L < fuel)%nat →
  ∃ L' s', free fuel (bp + 16) s = Ok tt s' ∧ ring s' L' ∧ u_brk s' = u_brk s ∧ (length L' ≤ S (length L))%nat ∧
    (∀ z, covers L' z ↔ covers L z ∨ bp ≤ z < bp + 16 * n) ∧
    ∀ a, a ≠ bp → (∀ b, b ∈ (base, 0) :: L → b.1 ≠ a) → hdr (u_hdr s') a = hdr (u_hdr s) a.
Proof.
  intros R Hb Hn Hh Hlim Hd Hf. pose proof (rg_base _ _ R) as Hb0. pose proof (rg_brk _ _ R) as Hbrk.
  destruct (ring_split L (base, 0) bp n) as (N1 & p & N2 & E & Hp & H2); [apply (rg_sorted _ _ R)|intros b; by apply ring_size with s|lia|unfold nend; simpl; lia| |].
  { intros b Hbb. pose proof (rg_pos _ _ R b Hbb). destruct (Z.le_gt_cases (nend b) bp); [by left|right]. destruct (Z.le_gt_cases (bp + 16 * n) b.1); [done|exfalso].
    unfold nend in *. apply (Hd (Z.max b.1 bp)); [lia|]. exists b. unfold nend. split; [done|lia]. }
  pose proof (search_ok s L fuel bp n N1 p N2 R E ltac:(lia) ltac:(lia) Hp H2 Hf) as Hse.
  pose proof (rg_path _ _ R) as Hpa. rewrite E in Hpa. apply path_app in Hpa as [P1 Pp]. cbn [nxt] in P1.
  pose proof (rg_sorted _ _ R) as Hs. rewrite E in Hs. apply StronglySorted_app in Hs as (Hg1 & Hs1 & Hs2).
  apply StronglySorted_cons in Hs2 as [Hgp Hs2]. rewrite Forall_forall in Hgp.
  assert (HL : ∀ b, b ∈ N2 → b ∈ L).
  { intros b Hbb. assert (Hin : b ∈ (base, 0) :: L) by (rewrite E; inl). apply elem_of_cons in Hin as [->|]; [|done]. specialize (H2 _ Hbb). simpl in H2. lia. }
  destruct (join_next_ok (u_hdr s) bp n p N2 (u_brk s) Pp Hs2 ltac:(lia) Hn Hh) as (Rr & nb & Ej & PR & SR & HR & LR & Hnb & Hlb & CR); [|done|done|lia|].
  { intros b Hbb. split; [by apply H2|]. split; [apply (rg_pos _ _ R)|apply (rg_end _ _ R)]; auto. }
  assert (Hpin : p ∈ (base, 0) :: L) by (rewrite E; inl). pose proof (ring_size s L p R Hpin) as Hsp. pose proof (proj1 Pp) as Hhp.
  assert (Hp1 : p.1 < bp) by (apply elem_of_cons in Hpin as [->|Hin]; [simpl; lia|]; pose proof (rg_pos _ _ R p Hin); unfold nend in Hp; lia).
  destruct (free_run fuel bp p.1 s ltac:(lia) ltac:(lia) ltac:(lia) Hse) as (m' & Rf & Hm').
  { split; lia. }
  { by apply (ring_own s L). }
  { intros E1. rewrite Hhp in E1 |- *. cbn [h_ptr] in *. rewrite Hh in E1. unfold hplus, HSIZE in E1. rewrite u64_small in E1 by lia.
    destruct N2 as [|y N2]; cbn [nxt] in E1 |- *; [lia|]. apply (ring_own s L y R). rewrite E. inl. }
  (* the new list after [N1] *)
  assert (HP : ∃ M q, join_prev (u_hdr s) bp p.1 = Header (nxt M base) q ∧ path m' ((p.1, q) :: M) base ∧ StronglySorted gap ((p.1, q) :: M) ∧
    (p.1 = base → q = 0) ∧ (p.1 ≠ base → 1 ≤ q) ∧ p.1 + 16 * q ≤ u_brk s ∧ (∀ b, b ∈ M → p.1 < b.1 ∧ base + 16 ≤ b.1 ∧ 1 ≤ b.2 ∧ nend b ≤ u_brk s) ∧
    (length M ≤ S (length N2))%nat ∧ ∀ z, covers ((p.1, q) :: M) z ↔ covers (p :: N2) z ∨ bp ≤ z < bp + 16 * n).
  { assert (Hpb : (p.1 = base → p.2 = 0) ∧ (p.1 ≠ base → 1 ≤ p.2) ∧ base ≤ p.1).
    { apply elem_of_cons in Hpin as [->|Hin]; [simpl; lia|]. pose proof (rg_pos _ _ R p Hin).
      pose proof (rg_sorted _ _ R) as Hs. apply StronglySorted_cons in Hs as [Hs _]. rewrite Forall_forall in Hs. specialize (Hs p Hin). unfold gap, nend in Hs. simpl in Hs. lia. }
    assert (Fr : path m' Rr base).
    { apply (path_frame (u_hdr s)); [|done]. intros b Hbb. specialize (HR b Hbb). rewrite Hm'. destruct (Z.eqb_spec b.1 p.1), (Z.eqb_spec b.1 bp); lia || done. }
    assert (HRb : ∀ b, b ∈ Rr → 1 ≤ b.2 ∧ nend b ≤ u_brk s).
    { intros b Hbb. destruct (HR b Hbb) as [Hin _]. apply HL in Hin. split; [by apply (rg_pos _ _ R)|by apply (rg_end _ _ R)]. }
    pose proof (Hm' p.1) as Hmp. rewrite Z.eqb_refl in Hmp. pose proof (Hm' bp) as Hmb. rewrite Z.eqb_refl, Ej in Hmb. replace (bp =? p.1) with false in Hmb by lia.
    unfold nend in Hp. unfold join_prev, hplus, HSIZE in Hmp |- *. rewrite Hhp, Ej in Hmp |- *. cbn [h_size h_ptr] in Hmp |- *.
    rewrite u64_small in Hmp |- * by lia.
    destruct (Z.eqb_spec (p.1 + 16 * p.2) bp) as [Ep|Ep].
    - rewrite u32_small in Hmp |- * by lia. exists Rr, (p.2 + nb). split; [done|]. split; [done|]. split.
      { apply StronglySorted_cons. split; [|done]. apply Forall_forall. intros b Hbb. specialize (HR b Hbb). unfold gap, nend. simpl. lia. }
      split; [lia|]. split; [lia|]. split; [lia|]. split; [intros b Hbb; specialize (HR b Hbb); specialize (HRb b Hbb); lia|]. split; [lia|].
      intros z. rewrite !covers_cons. unfold nend. simpl. specialize (CR z).
      assert (Hz : p.1 ≤ z < p.1 + 16 * (p.2 + nb) ↔ p.1 ≤ z < bp ∨ bp ≤ z < bp + 16 * nb) by lia. rewrite Hz, Ep. tauto.
    - exists ((bp, nb) :: Rr), p.2. split; [done|]. split; [done|]. split.
      { apply StronglySorted_cons. split; [|apply StronglySorted_cons; split; [|done]]; apply Forall_forall; intros b Hbb; unfold gap, nend; simpl; [|by apply HR].
        apply elem_of_cons in Hbb as [->|Hbb]; [simpl; lia|]. specialize (HR b Hbb). lia. }
      split; [tauto|]. split; [tauto|]. split; [lia|]. split; [intros b [->|Hbb]%elem_of_cons; [unfold nend; simpl; lia|specialize (HR b Hbb); specialize (HRb b Hbb); lia]|].
      split; [simpl; lia|]. intros z. rewrite !covers_cons. unfold nend. simpl. specialize (CR z). tauto. }
  clear Ej PR SR HR LR CR Hnb Hlb Rr nb. destruct HP as (M & q & Ej & PM & SM & Hq0 & Hq1 & Hqe & HM & LM & CM).
  destruct (ring_replace s L N1 p N2 m' q M R E PM SM Hq0 Hq1 Hqe HM) as (L' & E' & R' & Hl).
  { intros b _ Hbp. rewrite Hm'. destruct (Z.eqb_spec b.1 p.1), (Z.eqb_spec b.1 bp); lia || done. }
  exists L', (Ust m' p.1 (u_brk s)). split; [done|]. split; [done|]. split; [done|]. split; [lia|]. split.
  - intros z. rewrite <- (covers_base L'), E', covers_app, CM, <- (covers_base L), E, covers_app. tauto.
  - intros a Ha Hna. cbn [u_hdr]. rewrite Hm'. specialize (Hna p Hpin). destruct (Z.eqb_spec a p.1), (Z.eqb_spec a bp); lia || done.
Qed.

Context (grants : Z → Z → bool) (fuel : nat).

(** The scan of [malloc] from [q] over the nodes [R] up to [u_freep]: it comes to a
    node before a large enough block, or asks for more memory. *)
Lemma scan_path nu s sf nf R : hdr (u_hdr s) (u_freep s) = Header nf sf → own s (u_freep s) → ∀ q sq k, (∀ b, b ∈ (q, sq) :: R → own s b.1) → path (u_hdr s) ((q, sq) :: R) (u_freep s) →
  (∀ b, b ∈ R → b.1 ≠ u_freep s) → (length R < k)%nat →
  (∃ q' n' k', (q', n') ∈ (q, sq) :: R ∧ nu ≤ h_size (hdr (u_hdr s) (h_ptr (hdr (u_hdr s) q'))) ∧
     malloc_loop grants fuel k nu q s = malloc_loop grants fuel (S k') nu q' s) ∨
  (∀ b, b ∈ R → b.2 < nu) ∧ sf < nu ∧
     malloc_loop grants fuel k nu q s =
       (let* p := morecore grants fuel nu in if p =? 0 then ret 0 else malloc_loop grants fuel (k - S (length R)) nu p) s.
Proof.
  intros Hf Of. induction R as [|x R IH]; intros q sq k Ho Hp Hne Hk; pose proof (Ho (q, sq) ltac:(inl)) as Oq; cbn [fst] in Oq; destruct k as [|k]; try (simpl in Hk; lia); destruct Hp as [Hq Hp]; cbn [nxt fst] in Hq.
  - destruct (Z.le_gt_cases nu sf) as [H|H].
    + left. exists q, sq, k. rewrite Hq. cbn [h_ptr]. rewrite Hf. split; [inl|]. done.
    + right. split; [by intros b Hb%elem_of_nil|]. split; [done|]. cbn [malloc_loop]. heap_run. rewrite Hq. cbn [h_ptr]. heap_run. rewrite Hf. cbn [h_size]. rewrite (proj2 (Z.leb_gt nu sf)) by done.
      rewrite (bind_ok _ _ _ _ _ (eq_refl : gets _ _ = Ok _ _)), Z.eqb_refl. cbn [length]. by rewrite Nat.sub_succ, Nat.sub_0_r.
  - pose proof (proj1 Hp) as Hx. pose proof (Ho x ltac:(inl)) as Ox. destruct (Z.le_gt_cases nu x.2) as [H|H].
    + left. exists q, sq, k. rewrite Hq. cbn [h_ptr]. rewrite Hx. split; [inl|]. done.
    + assert (Estep : malloc_loop grants fuel (S k) nu q s = malloc_loop grants fuel k nu x.1 s).
      { cbn [malloc_loop]. heap_run. rewrite Hq. cbn [h_ptr]. heap_run. rewrite Hx. cbn [h_size]. rewrite (proj2 (Z.leb_gt nu x.2)) by done.
        rewrite (bind_ok _ _ _ _ _ (eq_refl : gets _ _ = Ok _ _)). rewrite (proj2 (Z.eqb_neq x.1 (u_freep s))) by (apply Hne; inl). done. }
      rewrite Estep. destruct x as [x nx]. destruct (IH x nx k (λ b Hb, Ho b (proj2 (elem_of_cons _ _ _) (or_intror Hb))) Hp) as [(q' & n' & k' & Hin & Hle & E)|(Hs & Hsf & E)]; [intros b Hb; apply Hne; inl|simpl in Hk; lia|left|right].
      * exists q', n', k'. split; [inl|done].
      * split; [intros b [->|Hb]%elem_of_cons; [done|by apply Hs]|]. split; [done|]. exact E.
Qed.
Lemma scan_ok nu s L k : ring s L → (length L < k)%nat →
  (∃ q n k', (q, n) ∈ (base, 0) :: L ∧ nu ≤ h_size (hdr (u_hdr s) (h_ptr (hdr (u_hdr s) q))) ∧
     malloc_loop grants fuel k nu (u_freep s) s = malloc_loop grants fuel (S k') nu q s) ∨
  (∀ b, b ∈ L → b.2 < nu) ∧
     malloc_loop grants fuel k nu (u_freep s) s =
       (let* p := morecore grants fuel nu in if p =? 0 then ret 0 else malloc_loop grants fuel (k - S (length L)) nu p) s.
Proof.
  intros R Hk. destruct (rg_freep _ _ R) as [sf Hin]. pose proof Hin as (M1 & M2 & E)%list_elem_of_split.
  pose proof (rg_path _ _ R) as Hp. pose proof (rg_sorted _ _ R) as Hs. pose proof (fun b => ring_size s L b R) as H0. rewrite E in Hp, Hs, H0. apply path_app in Hp as [P1 P2]. cbn [nxt fst] in P1.
  assert (Hrot : path (u_hdr s) ((u_freep s, sf) :: M2 ++ M1) (u_freep s)).
  { change ((u_freep s, sf) :: M2 ++ M1) with (((u_freep s, sf) :: M2) ++ M1). apply path_app. split; [|done].
    replace (nxt M1 (u_freep s)) with base; [done|]. destruct M1 as [|x M1]; simpl in E; [by injection E as -> _ _|]. injection E as Ex _. by rewrite <- Ex. }
  assert (Hlen : length (M2 ++ M1) = length L).
  { assert (Hl : length (M1 ++ (u_freep s, sf) :: M2) = S (length L)) by (by rewrite <- E). rewrite length_app in *. simpl in Hl. lia. }
  assert (Ho : ∀ b, b ∈ (u_freep s, sf) :: M2 ++ M1 → own s b.1).
  { intros b Hb. apply (ring_own s L b R). rewrite E. clear -Hb. set_solver. }
  destruct (scan_path nu s sf (nxt M2 base) (M2 ++ M1) (proj1 P2) (ring_own s L _ R Hin) _ _ k Ho Hrot) as [(q & n & k' & Hq & Hle & Eq)|(Hall & Hsf & Eq)].
  - apply StronglySorted_app in Hs as (Hg & _ & Hs). apply StronglySorted_cons in Hs as [Hs _]. rewrite Forall_forall in Hs.
    intros b [Hb|Hb]%elem_of_app.
    + specialize (Hs b Hb). specialize (H0 (u_freep s, sf) ltac:(inl)). unfold gap, nend in Hs. simpl in *. lia.
    + specialize (Hg b _ Hb ltac:(inl)). specialize (H0 b ltac:(inl)). unfold gap, nend in Hg. simpl in *. lia.
  - lia.
  - left. exists q, n, k'. split; [rewrite E; clear -Hq; set_solver|done].
  - right. rewrite Hlen in Eq. split; [|done]. intros b Hb. assert (Hi : b ∈ M1 ++ (u_freep s, sf) :: M2) by (rewrite <- E; inl).
    apply elem_of_app in Hi as [Hi|[->|Hi]%elem_of_cons]; [apply Hall; inl|done|apply Hall; inl].
Qed.

(** Taking the block after node [q]: whole, or its end. *)
Lemma take_ok nu s L q n k : ring s L → 1 ≤ nu → (q, n) ∈ (base, 0) :: L → nu ≤ h_size (hdr (u_hdr s) (h_ptr (hdr (u_hdr s) q))) →
  ∃ a L' s', malloc_loop grants fuel (S k) nu q s = Ok (a + 16) s' ∧ ring s' L' ∧ u_brk s' = u_brk s ∧
    h_size (hdr (u_hdr s') a) = nu ∧ (length L' ≤ length L)%nat ∧
    (∀ z, covers L' z ↔ covers L z ∧ ¬ (a ≤ z < a + 16 * nu)) ∧ (∀ z, a ≤ z < a + 16 * nu → covers L z) ∧
    ∀ b, b ≠ a → (∀ x, x ∈ (base, 0) :: L → x.1 ≠ b) → hdr (u_hdr s') b = hdr (u_hdr s) b.
Proof.
  intros R Hnu Hq Hle. pose proof (rg_base _ _ R) as Hb0. pose proof (rg_brk _ _ R) as Hbrk. pose proof Hq as (Q1 & Q2 & E)%list_elem_of_split.
  pose proof (rg_path _ _ R) as Hp. rewrite E in Hp. apply path_app in Hp as [P1 [Pq P2]]. cbn [nxt fst snd] in *. rewrite Pq in Hle. cbn [h_ptr] in Hle.
  destruct Q2 as [|[p sp] Q2]; cbn [nxt fst] in *.
  { destruct (rg_path _ _ R) as [Hbase _]. cbn [fst snd] in Hbase. rewrite Hbase in Hle. simpl in Hle. lia. }
  destruct P2 as [Pp P2]. cbn [fst snd] in Pp. rewrite Pp in Hle. cbn [h_size] in Hle.
  pose proof (rg_sorted _ _ R) as Hs. rewrite E in Hs. apply StronglySorted_app in Hs as (Hg1 & Hs1 & Hs2).
  apply StronglySorted_cons in Hs2 as [Hgq Hs2]. rewrite Forall_forall in Hgq. pose proof Hs2 as Hs3. apply StronglySorted_cons in Hs2 as [Hgp Hs2]. rewrite Forall_forall in Hgp.
  pose proof (ring_size s L (q, n) R Hq) as Hn0. cbn [snd] in Hn0. pose proof (Hgq (p, sp) ltac:(inl)) as Hqp. unfold gap, nend in Hqp. cbn [fst snd] in Hqp.
  assert (HbL : ∀ b, b ∈ L → base < b.1).
  { intros b Hb. pose proof (rg_sorted _ _ R) as Hs. apply StronglySorted_cons in Hs as [Hs _]. rewrite Forall_forall in Hs. specialize (Hs b Hb). unfold gap, nend in Hs. simpl in Hs. lia. }
  assert (HpL : (p, sp) ∈ L).
  { assert (Hi : (p, sp) ∈ (base, 0) :: L) by (rewrite E; inl). apply elem_of_cons in Hi as [[= -> ->]|]; [simpl in Hle; lia|done]. }
  pose proof (HbL _ HpL) as Hpb. pose proof (rg_end _ _ R _ HpL) as Hpe. unfold nend in Hpe. cbn [fst snd] in Hpb, Hpe.
  pose proof (ring_own s L _ R Hq) as Oq. pose proof (ring_own s L (p, sp) R ltac:(inl)) as Op. pose proof (rg_low _ _ R _ HpL) as Hpl. cbn [fst] in Oq, Op, Hpl.
  assert (HQ : ∀ b, b ∈ Q2 → p + 16 * sp < b.1 ∧ 1 ≤ b.2 ∧ nend b ≤ u_brk s).
  { intros b Hb. specialize (Hgp b Hb). unfold gap, nend in Hgp. cbn [fst snd] in Hgp. split; [done|].
    assert (Hi : b ∈ (base, 0) :: L) by (rewrite E; inl). apply elem_of_cons in Hi as [->|Hi]; [simpl in Hgp; lia|].
    split; [by apply (rg_pos _ _ R)|by apply (rg_end _ _ R)]. }
  assert (HC : ∀ z, covers Q2 z → p + 16 * sp < z) by (intros z (b & Hb & Hz); specialize (HQ b Hb); lia).
  set (a := p + 16 * (sp - nu)).
  assert (HS : ∃ m' M, malloc_loop grants fuel (S k) nu q s = Ok (a + 16) (Ust m' q (u_brk s)) ∧ path m' ((q, n) :: M) base ∧ StronglySorted gap ((q, n) :: M) ∧
    (∀ x, x ≠ a → x ≠ q → x ≠ p → hdr m' x = hdr (u_hdr s) x) ∧ h_size (hdr m' a) = nu ∧ (∀ b, b ∈ M → q < b.1 ∧ base + 16 ≤ b.1 ∧ 1 ≤ b.2 ∧ nend b ≤ u_brk s) ∧
    (length M ≤ S (length Q2))%nat ∧ ∀ z, covers M z ↔ covers ((p, sp) :: Q2) z ∧ ¬ (a ≤ z < a + 16 * nu)).
  { cbn [malloc_loop]. heap_run. rewrite Pq. cbn [h_ptr]. heap_run. rewrite Pp. cbn [h_size].
    rewrite (proj2 (Z.leb_le nu sp)) by done. unfold hplus, HSIZE. destruct (Z.eqb_spec sp nu) as [En|En]; heap_run; rewrite ?Pp; cbn [h_ptr].
    - exists (<[q := Header (nxt Q2 base) n]> (u_hdr s)), Q2. assert (Ea : a = p) by (unfold a; lia). rewrite Ea in *. split; [run; unfold hupd; rewrite Pq, u64_small by lia; done|].
      split; [split; [by rewrite hdr_insert, Z.eqb_refl|]|].
      { apply (path_frame (u_hdr s)); [|done]. intros b Hb. specialize (HQ b Hb). rewrite hdr_insert. by rewrite (proj2 (Z.eqb_neq q b.1)) by lia. }
      split; [apply StronglySorted_cons; split; [apply Forall_forall; intros b Hb; apply Hgq; inl|done]|].
      split; [intros x _ Hx _; rewrite hdr_insert; by rewrite (proj2 (Z.eqb_neq q x)) by lia|].
      split; [rewrite hdr_insert; rewrite (proj2 (Z.eqb_neq q p)) by lia; rewrite Pp; done|].
      split; [intros b Hb; specialize (HQ b Hb); lia|]. split; [lia|]. intros z. rewrite covers_cons. unfold nend. cbn [fst snd]. specialize (HC z). subst sp. assert (HC' : covers Q2 z → ¬ (p ≤ z < p + 16 * nu)) by (intros Hc%HC; lia). clear -HC'. tauto.
    - assert (Hpa : p < a ∧ a + 16 * nu = p + 16 * sp) by (unfold a; lia). assert (Oa : own s a) by (split; lia).
      rewrite (u32_small (sp - nu)) by lia. fold a. rewrite (u64_small a) by lia. heap_run. run. unfold hupd. cbn [set_u_hdr u_hdr set_u_freep u_brk]. rewrite u64_small by lia.
      rewrite hdr_insert, (proj2 (Z.eqb_neq p a)), Pp by lia.
      eexists _, ((p, sp - nu) :: Q2). split; [reflexivity|]. cbn [set_u_hdr u_hdr set_u_freep].
      assert (Hq' : ∀ x, x ≠ a → x ≠ p → hdr (<[a := set_h_size nu (hdr (u_hdr s) a)]> (<[p := set_h_size (sp - nu) (Header (nxt Q2 base) sp)]> (u_hdr s))) x = hdr (u_hdr s) x).
      { intros x Hxa Hxp. rewrite !hdr_insert. by rewrite (proj2 (Z.eqb_neq a x)), (proj2 (Z.eqb_neq p x)) by lia. }
      split; [split; [rewrite Hq' by lia; exact Pq|split]|].
      { cbn [fst]. rewrite !hdr_insert, Z.eqb_refl, (proj2 (Z.eqb_neq a p)) by lia. done. }
      { apply (path_frame (u_hdr s)); [|done]. intros b Hb. specialize (HQ b Hb). apply Hq'; lia. }
      split; [apply StronglySorted_cons; split; [apply Forall_forall|apply StronglySorted_cons; split; [apply Forall_forall|done]]|].
      { intros b [->|Hb]%elem_of_cons; [|apply Hgq; inl]. unfold gap, nend. simpl. lia. }
      { intros b Hb. specialize (HQ b Hb). unfold gap, nend. simpl. lia. }
      split; [intros x Hxa _ Hxp; by apply Hq'|]. split; [by rewrite hdr_insert, Z.eqb_refl|].
      split; [intros b [->|Hb]%elem_of_cons; [unfold nend; simpl; lia|specialize (HQ b Hb); lia]|]. split; [simpl; lia|].
      intros z. rewrite !covers_cons. unfold nend. cbn [fst snd]. specialize (HC z). destruct Hpa as [Hpa ->]. 
      assert (HC' : covers Q2 z → ¬ (a ≤ z < p + 16 * sp)) by (intros Hc%HC; lia).
      assert (Hz : p ≤ z < p + 16 * (sp - nu) ↔ p ≤ z < p + 16 * sp ∧ ¬ (a ≤ z < p + 16 * sp)) by (unfold a; lia). rewrite Hz. clear -HC'. tauto. }
  destruct HS as (m' & M & Hrun & PM & SM & Fm & Hsz & HM & LM & CM).
  destruct (ring_replace s L Q1 (q, n) ((p, sp) :: Q2) m' n M R E PM SM) as (L' & E' & R' & Hl); cbn [fst].
  { intros ->. assert (Hi : (base, n) ∈ (base, 0) :: L) by done. apply elem_of_cons in Hi as [[= ->]|Hi]; [done|]. specialize (HbL _ Hi). simpl in HbL. lia. }
  { intros Hqb. apply elem_of_cons in Hq as [[= -> _]|Hq]; [done|]. by apply (rg_pos _ _ R) in Hq. }
  { lia. }
  { exact HM. }
  { intros b Hb Hbq. apply Fm; [unfold a|..]; lia. }
  exists a, L', (Ust m' q (u_brk s)). split; [done|]. split; [done|]. split; [done|]. split; [done|]. split; [simpl in Hl; lia|]. split; [|split].
  - intros z. rewrite <- (covers_base L'), E', covers_app, covers_cons, CM, <- (covers_base L), E, covers_app, (covers_cons (q, n)). unfold nend. cbn [fst snd].
    assert (HQ1 : covers Q1 z → z < q).
    { intros (b & Hb & Hz). specialize (Hg1 b (q, n) Hb ltac:(inl)). unfold gap in Hg1. simpl in Hg1. lia. }
    unfold a in *. clear -HQ1 Hqp Hle Hn0. assert (¬ (z < p ∧ p + 16 * (sp - nu) ≤ z)) by lia. destruct (Z.lt_ge_cases z p); [|assert (¬ (q ≤ z < q + 16 * n)) by lia; assert (¬ covers Q1 z) by (intros Hc%HQ1; lia); tauto].
    assert (¬ (p + 16 * (sp - nu) ≤ z < p + 16 * (sp - nu) + 16 * nu)) by lia. tauto.
  - intros z Hz. rewrite <- (covers_base L), E, covers_app, !covers_cons. unfold nend. cbn [fst snd]. unfold a in Hz. right. right. left. lia.
  - intros b Hba Hnb. cbn [u_hdr]. apply Fm; [done|specialize (Hnb (q, n) Hq); simpl in Hnb; lia|]. assert (Hi : (p, sp) ∈ (base, 0) :: L) by (rewrite E; inl).
    specialize (Hnb _ Hi). simpl in Hnb. lia.
Qed.

(** Blocks of a sorted list do not touch, so a covered range is in one block. *)
Lemma gap_total L x y : StronglySorted gap L → x ∈ L → y ∈ L → x = y ∨ gap x y ∨ gap y x.
Proof.
  intros Hs Hx Hy. apply list_elem_of_split in Hx as (L1 & L2 & ->). apply StronglySorted_app in Hs as (Hg & _ & Hs).
  apply StronglySorted_cons in Hs as [Hs _]. rewrite Forall_forall in Hs. apply elem_of_app in Hy as [Hy|[->|Hy]%elem_of_cons]; [|by left|].
  - right. right. apply Hg; [done|inl].
  - right. left. by apply Hs.
Qed.
Lemma covered_range L bp n : StronglySorted gap L → 1 ≤ n → (∀ z, bp ≤ z < bp + 16 * n → covers L z) → ∃ b, b ∈ L ∧ n ≤ b.2.
Proof.
  intros Hs Hn Hc. destruct (Hc bp ltac:(lia)) as (x & Hx & Hxz). exists x. split; [done|]. destruct (Z.le_gt_cases (bp + 16 * n) (nend x)) as [H|H]; [unfold nend in H; lia|].
  destruct (Hc (nend x) ltac:(lia)) as (y & Hy & Hyz). destruct (gap_total L x y Hs Hx Hy) as [->|[Hg|Hg]]; unfold gap in *; lia.
Qed.

Lemma sbrk_ok s n : 0 < n < 2 ^ 31 → 0 ≤ u_brk s < 2 ^ 28 →
  sbrk grants n s = if (2 ^ 28 <=? u_brk s + n) || negb (grants (u_brk s) n) then Ok (-1) s else Ok (u_brk s) (set_u_brk (u_brk s + n) s).
Proof.
  intros Hn Hb. unfold sbrk. rewrite s32_small by lia. rewrite (bind_ok _ _ _ _ _ (eq_refl : gets _ _ = Ok _ _)). rewrite u32_small by lia.
  replace (0 <? n) with true by lia. change ULIMIT with (2 ^ 28). by case_match.
Qed.
(** [morecore] adds a block above all others, or changes nothing. *)
Definition core (nu : Z) : Z := if nu <? 4096 then 4096 else nu.
Lemma morecore_ok s L nu : ring s L → 1 ≤ nu → 16 * core nu < 2 ^ 31 → (length L < fuel)%nat →
  (morecore grants fuel nu s = Ok 0 s ∧ (2 ^ 28 ≤ u_brk s + 16 * core nu ∨ grants (u_brk s) (16 * core nu) = false)) ∨
  ∃ L' s', morecore grants fuel nu s = Ok (u_freep s') s' ∧ ring s' L' ∧ u_brk s' = u_brk s + 16 * core nu ∧ (length L' ≤ S (length L))%nat ∧
    (∀ z, covers L' z ↔ covers L z ∨ u_brk s ≤ z < u_brk s') ∧
    ∀ a, a < u_brk s → (∀ b, b ∈ (base, 0) :: L → b.1 ≠ a) → hdr (u_hdr s') a = hdr (u_hdr s) a.
Proof.
  intros R Hnu Hc Hf. pose proof (rg_base _ _ R) as Hb0. pose proof (rg_brk _ _ R) as Hbrk. unfold morecore. fold (core nu).
  assert (Hc4 : 4096 ≤ core nu) by (unfold core; case_match; lia). set (c := core nu) in *. clearbody c. unfold HSIZE. rewrite u64_small, (Z.mul_comm c 16) by lia.
  pose proof (sbrk_ok s (16 * c) ltac:(lia) ltac:(lia)) as Hs.
  destruct ((2 ^ 28 <=? u_brk s + 16 * c) || negb (grants (u_brk s) (16 * c))) eqn:Eg.
  { left. split; [by rewrite (bind_ok _ _ _ _ _ Hs)|]. apply orb_prop in Eg as [Eg|Eg]; [left; lia|right; by apply negb_true_iff]. }
  right. apply orb_false_elim in Eg as [Eg1 Eg2]. set (m := <[u_brk s := Header (h_ptr (hdr (u_hdr s) (u_brk s))) c]> (u_hdr s)).
  set (s1 := Ust m (u_freep s) (u_brk s + 16 * c)).
  assert (Hne : ∀ b, b ∈ (base, 0) :: L → b.1 ≠ u_brk s).
  { intros b [->|Hb]%elem_of_cons; [simpl; lia|]. pose proof (rg_pos _ _ R b Hb). pose proof (rg_end _ _ R b Hb) as He. unfold nend in He. lia. }
  assert (R1 : ring s1 L).
  { split; cbn [u_hdr u_brk u_freep s1]; [|apply (rg_sorted _ _ R)|apply (rg_pos _ _ R)|intros b Hb; pose proof (rg_end _ _ R b Hb); lia|apply (rg_freep _ _ R)|lia|apply (rg_low _ _ R)|lia].
    apply (path_frame (u_hdr s)); [|apply (rg_path _ _ R)]. intros b Hb. unfold m. rewrite hdr_insert. specialize (Hne b Hb). by rewrite (proj2 (Z.eqb_neq (u_brk s) b.1)) by lia. }
  destruct (ring_free_ok s1 L fuel (u_brk s) c R1) as (L' & s' & Rf & R' & Eb & Hl & Cov & Fr); try (cbn [u_brk u_hdr s1]; lia).
  { cbn [u_hdr s1]. unfold m. by rewrite hdr_insert, Z.eqb_refl. }
  { intros z Hz (b & Hb & Hbz). pose proof (rg_end _ _ R b Hb). lia. }
  exists L', s'. split; [|split; [done|]].
  { rewrite (bind_ok _ _ _ _ _ Hs). replace (u_brk s =? -1) with false by lia. rewrite (bind_ok _ _ _ tt s1) by (rewrite put_size_ok; [done|split; cbn [u_brk set_u_brk]; lia]).
    rewrite u64_small by lia. by rewrite (bind_ok _ _ _ _ _ Rf). }
  cbn [u_brk s1] in Eb. rewrite Eb. split; [done|]. split; [done|]. split; [exact Cov|]. intros a Ha Hna. rewrite Fr by (done || lia). cbn [u_hdr s1]. unfold m. rewrite hdr_insert.
  by rewrite (proj2 (Z.eqb_neq (u_brk s) a)) by lia.
Qed.

Lemma ring_freep s L : ring s L → 0 < u_freep s.
Proof.
  intros R. pose proof (rg_base _ _ R). destruct (rg_freep _ _ R) as [n [Hi|Hi]%elem_of_cons]; [injection Hi as -> _; lia|].
  pose proof (rg_sorted _ _ R) as Hs. apply StronglySorted_cons in Hs as [Hs _]. rewrite Forall_forall in Hs. specialize (Hs _ Hi). unfold gap, nend in Hs. simpl in Hs. lia.
Qed.
(** No header of an allocated block is a node. *)
Lemma not_node s L b : ring s L → base < b → ¬ covers L b → ∀ x, x ∈ (base, 0) :: L → x.1 ≠ b.
Proof.
  intros R Hb Hc x [->|Hx]%elem_of_cons; [simpl; lia|]. intros <-. apply Hc. exists x. split; [done|]. pose proof (rg_pos _ _ R x Hx). unfold nend. lia.
Qed.
Lemma malloc_loop_ok s L nu : ring s L → 1 ≤ nu → 16 * core nu < 2 ^ 31 → (2 * length L + 2 < fuel)%nat →
  (malloc_loop grants fuel fuel nu (u_freep s) s = Ok 0 s ∧ (∀ b, b ∈ L → b.2 < nu) ∧
     (2 ^ 28 ≤ u_brk s + 16 * core nu ∨ grants (u_brk s) (16 * core nu) = false)) ∨
  ∃ a L' s', malloc_loop grants fuel fuel nu (u_freep s) s = Ok (a + 16) s' ∧ ring s' L' ∧ h_size (hdr (u_hdr s') a) = nu ∧
    u_brk s ≤ u_brk s' ∧ ((∃ b, b ∈ L ∧ nu ≤ b.2) → u_brk s' = u_brk s) ∧
    (∀ z, covers L' z ↔ (covers L z ∨ u_brk s ≤ z < u_brk s') ∧ ¬ (a ≤ z < a + 16 * nu)) ∧
    (∀ z, a ≤ z < a + 16 * nu → covers L z ∨ u_brk s ≤ z < u_brk s') ∧
    ∀ b, b < u_brk s → base < b → b ≠ a → ¬ covers L b → hdr (u_hdr s') b = hdr (u_hdr s) b.
Proof.
  intros R Hnu Hc Hf. destruct (scan_ok nu s L fuel R ltac:(lia)) as [(q & n & k & Hq & Hle & ->)|[Hsm ->]].
  - right. destruct (take_ok nu s L q n k R Hnu Hq Hle) as (a & L' & s' & Hrun & R' & Eb & Hsz & _ & C1 & C2 & Fr). exists a, L', s'. rewrite Eb.
    split; [done|]. split; [done|]. split; [done|]. split; [lia|]. split; [done|]. split; [intros z; rewrite C1; intuition lia|].
    split; [intros z Hz; left; auto|]. intros b _ Hbb Hba Hcb. apply Fr; [done|]. by apply (not_node s L).
  - destruct (morecore_ok s L nu R Hnu Hc ltac:(lia)) as [[Hm Hr]|(L1 & s1 & Hm & R1 & Eb1 & Hl1 & C1 & F1)]; rewrite (bind_ok _ _ _ _ _ Hm); [left; done|right].
    pose proof (ring_freep s1 L1 R1). replace (u_freep s1 =? 0) with false by lia.
    assert (Hcc : nu ≤ core nu ∧ 4096 ≤ core nu) by (unfold core; case_match; lia).
    assert (Hbig : ∃ b, b ∈ L1 ∧ core nu ≤ b.2).
    { apply (covered_range L1 (u_brk s)); [|lia|]; [|intros z Hz; apply C1; right; lia]. pose proof (rg_sorted _ _ R1) as Hs. by apply StronglySorted_cons in Hs as [_ Hs]. }
    destruct (scan_ok nu s1 L1 (fuel - S (length L)) R1 ltac:(lia)) as [(q & n & k & Hq & Hle & ->)|[Hsm1 _]]; [|destruct Hbig as (b & Hb & Hbn); specialize (Hsm1 b Hb); lia].
    destruct (take_ok nu s1 L1 q n k R1 Hnu Hq Hle) as (a & L' & s' & Hrun & R' & Eb & Hsz & _ & C1' & C2 & Fr). exists a, L', s'. rewrite Eb.
    split; [done|]. split; [done|]. split; [done|]. split; [lia|]. split; [intros (b & Hb & Hbn); specialize (Hsm b Hb); lia|].
    split; [intros z; by rewrite C1', C1|]. split; [intros z Hz; by apply C1, C2|]. intros b Hbs Hbb Hba Hcb. rewrite Fr; [|done|].
    + apply F1; [done|]. by apply (not_node s L).
    + apply (not_node s1 L1 b R1 Hbb). rewrite C1. intros [?|?]; [done|lia].
Qed.

(** * The heap and its client *)

(** [A]: the blocks the program holds, by the address of their header.  They are
    not free, and no two of them overlap. *)
Record uheap (s : ust) (L : list node) (A : gmap Z Z) : Prop := {
  uh_ring : ring s L;
  uh_blk : ∀ a n, A !! a = Some n → h_size (hdr (u_hdr s) a) = n ∧ 1 ≤ n ∧ base + 16 ≤ a ∧ a + 16 * n ≤ u_brk s;
  uh_free : ∀ a n z, A !! a = Some n → a ≤ z < a + 16 * n → ¬ covers L z;
  uh_disj : ∀ a n a' n' z, A !! a = Some n → A !! a' = Some n' → a ≠ a' → a ≤ z < a + 16 * n → ¬ (a' ≤ z < a' + 16 * n');
}.
(** Before the first call there is no ring. *)
Definition ready (s : ust) (L : list node) (A : gmap Z Z) : Prop :=
  uheap s L A ∨ u_freep s = 0 ∧ L = [] ∧ A = ∅ ∧ 0 < base ∧ base + 16 ≤ u_brk s ∧ u_brk s < 2 ^ 28.

(** Freeing a block the program holds makes exactly its bytes free again, joined
    with the free blocks next to it, and leaves every other block alone. *)
Theorem free_spec s L A a n : uheap s L A → A !! a = Some n → (length L < fuel)%nat →
  ∃ L' s', free fuel (a + 16) s = Ok tt s' ∧ uheap s' L' (delete a A) ∧ u_brk s' = u_brk s ∧
    ∀ z, covers L' z ↔ covers L z ∨ a ≤ z < a + 16 * n.
Proof.
  intros U Ha Hf. destruct (uh_blk _ _ _ U a n Ha) as (Hsz & Hn & Hba & Hae).
  destruct (ring_free_ok s L fuel a n (uh_ring _ _ _ U) Hba Hn Hsz Hae (λ z, uh_free _ _ _ U a n z Ha) Hf) as (L' & s' & Hrun & R' & Eb & _ & Cov & Fr).
  exists L', s'. split; [done|]. split; [|by split]. split; [done|..].
  - intros b k [Hne Hb]%lookup_delete_Some. destruct (uh_blk _ _ _ U b k Hb) as (H1 & H2 & H3 & H4). rewrite Eb, Fr; [done|done|].
    apply (not_node s L); [apply (uh_ring _ _ _ U)|lia|]. apply (uh_free _ _ _ U b k); [done|lia].
  - intros b k z [Hne Hb]%lookup_delete_Some Hz. rewrite Cov. intros [Hc|Hc]; [by apply (uh_free _ _ _ U b k z)|]. by apply (uh_disj _ _ _ U a n b k z).
  - intros b k b' k' z [_ Hb]%lookup_delete_Some [_ Hb']%lookup_delete_Some. by apply (uh_disj _ _ _ U).
Qed.

Lemma units_ok nbytes : 0 ≤ nbytes < 2 ^ 32 → 1 ≤ units nbytes ∧ nbytes ≤ 16 * (units nbytes - 1).
Proof.
  intros H. unfold units, HSIZE. pose proof (Z.div_mod (nbytes + 16 - 1) 16 ltac:(lia)). pose proof (Z.mod_pos_bound (nbytes + 16 - 1) 16 ltac:(lia)).
  rewrite u32_small by lia. lia.
Qed.
(** The first call makes the ring of [base] alone. *)
Lemma malloc_start nbytes s L A : ready s L A →
  ∃ s1, malloc base grants fuel nbytes s = malloc_loop grants fuel fuel (units nbytes) (u_freep s1) s1 ∧ uheap s1 L A ∧ u_brk s1 = u_brk s.
Proof.
  intros [U|(Hf & -> & -> & Hb & Hb1 & Hk)]; unfold malloc; rewrite (bind_ok _ _ _ _ _ (eq_refl : gets _ _ = Ok _ _)).
  - pose proof (ring_freep s L (uh_ring _ _ _ U)). replace (u_freep s =? 0) with false by lia. by exists s.
  - rewrite Hf, Z.eqb_refl. set (s1 := Ust (<[base := Header base 0]> (<[base := set_h_ptr base (hdr (u_hdr s) base)]> (u_hdr s))) base (u_brk s)).
    exists s1. split; [|split; [|done]].
    + rewrite (bind_ok _ _ _ tt s1); [done|]. heap_run. erewrite bind_ok by reflexivity. rewrite put_size_ok by (split; cbn [u_brk set_u_freep hupd set_u_hdr]; lia).
      unfold hupd. cbn [u_hdr set_u_freep set_u_hdr]. by rewrite hdr_insert, Z.eqb_refl.
    + split; [split; cbn [u_hdr u_brk u_freep s1]|..]; try done; try (by intros b Hb0%elem_of_nil); try (by intros ? ? Hl%lookup_empty_Some).
      * cbn [path nxt fst snd]. by rewrite hdr_insert, Z.eqb_refl.
      * apply StronglySorted_cons. split; [done|constructor].
      * exists 0. inl.
Qed.

(** C27: For requests whose bytes fit the [int] that [sbrk] takes, [malloc]
    returns null only when no free block is large enough and the kernel refuses the
    memory, and then changes no block; otherwise it returns a block of at least
    [nbytes] bytes, taken from the free blocks and from what the kernel granted,
    that overlaps no block the program holds.  No access faults. *)
Theorem malloc_spec s L A nbytes (nu := units nbytes) : ready s L A → 0 ≤ nbytes < 2 ^ 32 → 16 * core nu < 2 ^ 31 → (2 * length L + 2 < fuel)%nat →
  (∃ s', malloc base grants fuel nbytes s = Ok 0 s' ∧ uheap s' L A ∧ u_brk s' = u_brk s ∧ (∀ b, b ∈ L → b.2 < nu) ∧
     (2 ^ 28 ≤ u_brk s + 16 * core nu ∨ grants (u_brk s) (16 * core nu) = false)) ∨
  ∃ a L' s', malloc base grants fuel nbytes s = Ok (a + 16) s' ∧ A !! a = None ∧ uheap s' L' (<[a := nu]> A) ∧ nbytes ≤ 16 * (nu - 1) ∧
    ((∃ b, b ∈ L ∧ nu ≤ b.2) → u_brk s' = u_brk s) ∧
    ∀ z, covers L' z ∨ a ≤ z < a + 16 * nu ↔ covers L z ∨ u_brk s ≤ z < u_brk s'.
Proof.
  intros Hr Hnb Hc Hf. destruct (units_ok nbytes Hnb) as [Hnu Hun]. fold nu in Hnu, Hun. destruct (malloc_start nbytes s L A Hr) as (s1 & -> & U & Eb). fold nu. rewrite <- Eb.
  pose proof (uh_ring _ _ _ U) as R. destruct (malloc_loop_ok s1 L nu R Hnu Hc Hf) as [(Hrun & Hsm & Hg)|(a & L' & s' & Hrun & R' & Hsz & Hbk & Hfit & C1 & C2 & Fr)].
  { left. by exists s1. }
  right. exists a, L', s'. split; [done|].
  assert (Hda : ∀ b k z, A !! b = Some k → b ≤ z < b + 16 * k → ¬ (a ≤ z < a + 16 * nu)).
  { intros b k z Hb Hz Hza. destruct (C2 z Hza) as [Hcz|Hcz]; [by apply (uh_free _ _ _ U b k z)|]. pose proof (uh_blk _ _ _ U b k Hb). lia. }
  assert (Hab : base + 16 ≤ a ∧ a + 16 * nu ≤ u_brk s').
  { assert (Hlo : ∀ z, covers L z → base + 16 ≤ z ∧ z < u_brk s1).
    { intros z (b & Hb & Hz). pose proof (rg_end _ _ R b Hb). pose proof (rg_low _ _ R b Hb). lia. }
    pose proof (rg_base _ _ R). split; [destruct (C2 a ltac:(lia)) as [?%Hlo|?]; lia|]. destruct (C2 (a + 16 * nu - 1) ltac:(lia)) as [?%Hlo|?]; lia. }
  assert (Hna : A !! a = None).
  { destruct (A !! a) as [k|] eqn:E; [|done]. exfalso. pose proof (uh_blk _ _ _ U a k E). apply (Hda a k a E); lia. }
  split; [done|]. split; [|split; [done|split; [done|intros z; rewrite C1; specialize (C2 z); destruct (decide (a ≤ z < a + 16 * nu)); tauto]]].
  split; [done|..].
  - intros b k [[<- <-]|[Hne Hb]]%lookup_insert_Some; [done|]. destruct (uh_blk _ _ _ U b k Hb) as (H1 & H2 & H3 & H4). rewrite Fr; [lia|lia|lia|done|].
    apply (uh_free _ _ _ U b k); [done|lia].
  - intros b k z [[<- <-]|[Hne Hb]]%lookup_insert_Some Hz; rewrite C1; [tauto|]. intros [[Hcz|Hcz] _]; [by apply (uh_free _ _ _ U b k z)|].
    pose proof (uh_blk _ _ _ U b k Hb). lia.
  - intros b k b' k' z [[<- <-]|[Hne Hb]]%lookup_insert_Some [[<- <-]|[Hne' Hb']]%lookup_insert_Some Hbb Hz; [done| |by apply (Hda b k)|by apply (uh_disj _ _ _ U b k b' k')].
    intros Hz'. by apply (Hda b' k' z).
Qed.

(** ** Requests of 2 GB and more *)

(** The argument of [sbrk] is zero or negative, and the process does not grow. *)
Lemma sbrk_cut s nu : 2 ^ 31 ≤ 16 * nu ≤ 2 ^ 32 → 0 < u_brk s < 2 ^ 28 →
  (∃ s', sbrk grants (u64 (nu * HSIZE)) s = Undef "user page fault" s') ∨
  ∃ s', sbrk grants (u64 (nu * HSIZE)) s = Ok (u_brk s) s' ∧ u_brk s' ≤ u_brk s.
Proof.
  intros Hn Hb. unfold sbrk, HSIZE. rewrite u64_small by lia. assert (E : s32 (nu * 16) = 16 * nu - 2 ^ 32).
  { unfold s32. replace (nu * 16 + 2 ^ 31) with (16 * nu - 2 ^ 31 + 1 * 2 ^ 32) by lia. rewrite Z.mod_add, Z.mod_small by lia. lia. }
  rewrite E, (bind_ok _ _ _ _ _ (eq_refl : gets _ _ = Ok _ _)). replace (0 <? 16 * nu - 2 ^ 32) with false by lia.
  destruct (16 * nu - 2 ^ 32 <? 0); [|right; by exists s]. set (sz := if u_brk s <=? _ then _ else _).
  assert (Hsz : sz ≤ u_brk s) by (unfold sz; destruct (Z.leb_spec (u_brk s) (u32 (u_brk s + (16 * nu - 2 ^ 32)))); lia). clearbody sz.
  destruct (sz =? 0); [left; by exists s|right]. eexists. split; [reflexivity|done].
Qed.
Lemma uend_below b c : b mod 4096 = 0 → c ≤ b → uend c ≤ b.
Proof. intros Hb Hc. rewrite <- (uend_page b Hb). unfold uend. apply Z.mul_le_mono_nonneg_r, Z.div_le_mono; lia. Qed.
Lemma morecore_fault s nu : 2 ^ 31 ≤ 16 * nu ≤ 2 ^ 32 → 0 < u_brk s < 2 ^ 28 → u_brk s mod 4096 = 0 →
  ∃ s', morecore grants fuel nu s = Undef "user page fault" s'.
Proof.
  intros Hn Hb Hp. unfold morecore. replace (nu <? 4096) with false by lia. destruct (sbrk_cut s nu Hn Hb) as [(s' & E)|(s' & E & Hle)].
  { exists s'. unfold bind. by rewrite E. }
  exists s'. rewrite (bind_ok _ _ _ _ _ E). replace (u_brk s =? -1) with false by lia.
  pose proof (uend_below _ _ Hp Hle). unfold put_size, bind. by rewrite mapped_fault by lia.
Qed.

(** The ring of [base] alone, and the same with the block at [b]. *)
Lemma base_ring s : ring s [] → hdr (u_hdr s) base = Header base 0 ∧ u_freep s = base.
Proof.
  intros R. destruct (rg_path _ _ R) as [E _]. split; [exact E|]. destruct (rg_freep _ _ R) as [n [[= -> _]|Hn%elem_of_nil]%elem_of_cons]; done.
Qed.
Lemma morecore_wrap s (b := u_brk s) : ring s [] → b + 16 < 2 ^ 28 → grants b 16 = true → (1 ≤ fuel)%nat →
  ∃ m, morecore grants fuel (2 ^ 28 + 1) s = Ok base (Ust m base (b + 16)) ∧ hdr m base = Header b 0 ∧ hdr m b = Header base (2 ^ 28 + 1).
Proof.
  intros R Hb Hg Hf. destruct (base_ring s R) as [Eb Ef]. destruct (rg_base _ _ R) as [H0 H1]. fold b in H1. unfold morecore. replace (2 ^ 28 + 1 <? 4096) with false by lia.
  assert (Es : sbrk grants (u64 ((2 ^ 28 + 1) * HSIZE)) s = Ok b (set_u_brk (b + 16) s)).
  { change (sbrk grants (u64 ((2 ^ 28 + 1) * HSIZE)) s) with (sbrk grants 16 s). rewrite sbrk_ok by lia. fold b. rewrite Hg. by replace (2 ^ 28 <=? b + 16) with false by lia. }
  rewrite (bind_ok _ _ _ _ _ Es). replace (b =? -1) with false by lia. erewrite bind_ok by (apply put_size_ok; split; cbn [u_brk set_u_brk]; lia).
  set (s1 := hupd b _ _). assert (Hh : ∀ a, hdr (u_hdr s1) a = if b =? a then set_h_size (2 ^ 28 + 1) (hdr (u_hdr s) b) else hdr (u_hdr s) a) by (intros a; apply hdr_insert).
  assert (Ob : own s1 b) by (split; cbn [u_brk s1 hupd set_u_hdr set_u_brk]; lia). assert (Oa : own s1 base) by (split; cbn [u_brk s1 hupd set_u_hdr set_u_brk]; lia).
  pose proof (Hh base) as Hba. replace (b =? base) with false in Hba by lia. rewrite Eb in Hba. pose proof (Hh b) as Hbb. rewrite Z.eqb_refl in Hbb.
  assert (Hp : hplus b (2 ^ 28 + 1) ≠ base) by (unfold hplus, HSIZE; rewrite u64_small; lia).
  destruct (free_run fuel b base s1) as (m & Rf & Hm); [lia|lia|lia| |done|done|rewrite Hbb, Hba; cbn [h_size set_h_size h_ptr]; intros E; by apply Hp in E|].
  { destruct fuel as [|f]; [lia|]. change (u_freep s1) with (u_freep s). rewrite Ef, search_step, Hba by done. unfold stops. cbn [h_ptr].
    by replace ((base <? b) && (b <? base) || (base <=? base) && ((base <? b) || (b <? base))) with true by lia. }
  unfold HSIZE. rewrite u64_small, (bind_ok _ _ _ _ _ Rf) by lia. exists m. split; [done|].
  assert (En : join_next (u_hdr s1) b base = Header base (2 ^ 28 + 1)).
  { unfold join_next. rewrite Hba, Hbb. cbn [h_size set_h_size h_ptr]. by rewrite (proj2 (Z.eqb_neq _ _) Hp). }
  split; rewrite Hm.
  - rewrite Z.eqb_refl. unfold join_prev. rewrite Hba. cbn [h_size]. unfold hplus. rewrite Z.mul_0_r, Z.add_0_r, u64_small by lia. by replace (base =? b) with false by lia.
  - replace (b =? base) with false by lia. by rewrite Z.eqb_refl, En.
Qed.

(** C39: What [malloc] does with 2 GB and more in a process of [b] bytes with no free
    block (as on the first call).  The argument of [sbrk] is an [int]: up to 2^32 - 16 bytes it is zero or
    negative, the process does not grow, and when its size is a whole number of
    pages [malloc] faults at the header it writes beyond them.  For the last 15
    sizes the argument is 16: when the kernel grants them, [malloc] returns the new
    end of the process as a block of almost 4 GB of which nothing is there. *)
Theorem malloc_overflow s A nbytes (b := u_brk s) : ready s [] A → b + 16 < 2 ^ 28 → (2 ≤ fuel)%nat → 2 ^ 31 ≤ 16 * units nbytes → 0 ≤ nbytes < 2 ^ 32 →
  (nbytes ≤ 2 ^ 32 - 16 → b mod 4096 = 0 → ∃ s', malloc base grants fuel nbytes s = Undef "user page fault" s') ∧
  (2 ^ 32 - 16 < nbytes → grants b 16 = true → ∃ s', malloc base grants fuel nbytes s = Ok (b + 16) s' ∧ u_brk s' = b + 16).
Proof.
  intros Hr Hb Hf Hu Hn. destruct (malloc_start nbytes s [] A Hr) as (s1 & -> & U & Eb). pose proof (uh_ring _ _ _ U) as R. unfold b in *. rewrite <- Eb in *.
  destruct (base_ring s1 R) as [E0 Ef]. destruct (rg_base _ _ R) as [H0 H1]. assert (Eu : units nbytes = (nbytes + 15) / 16 + 1).
  { unfold units, HSIZE. replace (nbytes + 16 - 1) with (nbytes + 15) by lia. apply u32_small. split; [pose proof (Z.div_pos (nbytes + 15) 16); lia|]. enough ((nbytes + 15) / 16 < 2 ^ 32 - 1) by lia. apply Z.div_lt_upper_bound; lia. }
  destruct (scan_ok (units nbytes) s1 [] fuel R ltac:(simpl; lia)) as [(q & n & k' & [[= -> ->]|Hq%elem_of_nil]%elem_of_cons & Hle & _)|[_ ->]]; [|done|].
  { rewrite E0 in Hle. cbn [h_ptr] in Hle. rewrite E0 in Hle. cbn [h_size] in Hle. lia. }
  split; intros Hlt Hg.
  - destruct (morecore_fault s1 (units nbytes)) as [s' E]; [|lia|done|].
    + split; [done|]. rewrite Eu. assert ((nbytes + 15) / 16 < 2 ^ 28); [|lia]. apply Z.div_lt_upper_bound; lia.
    + exists s'. unfold bind. by rewrite E.
  - assert (Eu' : units nbytes = 2 ^ 28 + 1) by (rewrite Eu; f_equal; symmetry; apply (Z.div_unique _ _ _ (nbytes + 15 - 2 ^ 32)); lia).
    rewrite Eu'. destruct (morecore_wrap s1 R Hb Hg ltac:(lia)) as (m & E & Em & En). rewrite (bind_ok _ _ _ _ _ E). replace (base =? 0) with false by lia.
    destruct (fuel - S (length (@nil node)))%nat as [|f] eqn:Ek; [simpl in Ek; lia|]. cbn [malloc_loop]. set (s2 := Ust m base _).
    assert (O1 : own s2 base) by (split; cbn; lia). assert (O2 : own s2 (u_brk s1)) by (split; cbn; lia).
    heap_run. cbn [u_hdr s2]. rewrite Em. cbn [h_ptr]. heap_run. cbn [u_hdr s2]. rewrite En. cbn [h_size]. rewrite Z.leb_refl, Z.eqb_refl. heap_run.
    eexists. unfold bind, modify, ret, hplus, HSIZE. cbn [rbind]. rewrite Z.mul_1_r, u64_small by lia. split; reflexivity.
Qed.
End ring.

(** ** Witnesses *)

(** A heap with one block of 8 headers held at the end of the first 64 KB. *)
Definition demo_held : Z := 0x4000 + 16 * 4088.
Definition demo_ust : ust :=
  Ust (<[0x1000 := Header 0x4000 0]> (<[0x4000 := Header 0x1000 4088]> (<[demo_held := Header 0 8]> ∅))) 0x1000 0x14000.
Lemma demo_uheap : uheap 0x1000 demo_ust [(0x4000, 4088)] {[demo_held := 8]}.
Proof.
  split; [split|..]; cbn [u_brk demo_ust].
  - split; [by vm_compute|]. split; [by vm_compute|done].
  - apply StronglySorted_cons. split; [apply Forall_cons; split; [by vm_compute|done]|]. apply StronglySorted_cons. split; [done|constructor].
  - intros b ->%list_elem_of_singleton. simpl. lia.
  - intros b ->%list_elem_of_singleton. by vm_compute.
  - exists 0. by apply elem_of_cons; left.
  - lia.
  - intros b ->%list_elem_of_singleton. simpl. lia.
  - lia.
  - intros a n [<- <-]%lookup_singleton_Some. split; [by vm_compute|]. by vm_compute.
  - intros a n z [<- <-]%lookup_singleton_Some Hz (b & ->%list_elem_of_singleton & Hb). unfold demo_held, nend in *. simpl in *. lia.
  - intros a n a' n' z [<- <-]%lookup_singleton_Some [<- <-]%lookup_singleton_Some. done.
Qed.
Lemma free_spec_witness : ∃ L' s', free 2 (demo_held + 16) demo_ust = Ok tt s' ∧ uheap 0x1000 s' L' ∅ ∧ covers L' demo_held.
Proof.
  destruct (free_spec 0x1000 2 demo_ust [(0x4000, 4088)] {[demo_held := 8]} demo_held 8) as (L' & s' & R & U & _ & C).
  - apply demo_uheap.
  - reflexivity.
  - simpl. lia.
  - exists L', s'. split; [exact R|]. split; [exact U|]. apply C. right. vm_compute. split; congruence.
Defined.
(** A second block of 1000 bytes from the same heap. *)
Lemma malloc_spec_witness : ∃ a L' s', malloc 0x1000 (λ _ _, true) 5 1000 demo_ust = Ok (a + 16) s' ∧
  uheap 0x1000 s' L' (<[a := 64]> {[demo_held := 8]}).
Proof.
  destruct (malloc_spec 0x1000 (λ _ _, true) 5 demo_ust [(0x4000, 4088)] {[demo_held := 8]} 1000) as [(s' & _ & _ & _ & _ & [H|H])|(a & L' & s' & R & _ & U & _)].
  - left. apply demo_uheap.
  - lia.
  - by vm_compute.
  - simpl. lia.
  - exfalso. vm_compute in H. by apply H.
  - discriminate H.
  - exists a, L', s'. split; [exact R|exact U].
Defined.
(** A program of 16 KB with [base] at 4 KB: the two kinds of request. *)
Lemma malloc_overflow_witness : (∃ s', malloc 0x1000 (λ _ _, true) 2 0xFFFFFFFF (Ust ∅ 0 0x4000) = Ok (0x4000 + 16) s' ∧ u_brk s' = 0x4010) ∧
  ∃ s', malloc 0x1000 (λ _ _, true) 2 0x80000000 (Ust ∅ 0 0x4000) = Undef "user page fault" s'.
Proof.
  split.
  - destruct (malloc_overflow 0x1000 (λ _ _, true) 2 (Ust ∅ 0 0x4000) ∅ 0xFFFFFFFF) as [_ H].
    + right. split_and!; reflexivity || (cbn; lia).
    + reflexivity.
    + lia.
    + by vm_compute.
    + lia.
    + apply H; [lia|reflexivity].
  - destruct (malloc_overflow 0x1000 (λ _ _, true) 2 (Ust ∅ 0 0x4000) ∅ 0x80000000) as [H _].
    + right. split_and!; reflexivity || (cbn; lia).
    + reflexivity.
    + lia.
    + by vm_compute.
    + lia.
    + apply H; [lia|reflexivity].
Defined.
