(* ===== verification/User.v ===== *)
(** The user programs of [usr/]: [ulib.c] and [printf.c], and the commands built on
    them.

    A program is an interaction tree of the system calls it makes; a loop that the
    code leaves only when the system says so is [ITree.iter].  A C string is the
    list of its bytes before the NUL.  The arguments of [printf] are the words it
    finds from [ap] on: numbers, or pointers to strings.  [Undef] is what the code
    does when it reads an argument of the wrong kind. *)

From S2P Require Import Prelude.
From ITree Require Import ITree ITreeFacts Events.State Events.StateFacts.

Declare Scope user_scope.
Delimit Scope user_scope with user.
Notation "'let*' p := m 'in' k" := (ITree.bind m (fun p => k))
  (at level 10, p pattern, m at level 99, k at level 200) : user_scope.
Notation "m ;; k" := (ITree.bind m (fun _ => k))
  (at level 100, k at level 200, right associativity) : user_scope.
#[local] Open Scope user_scope.

(** * System calls *)

(** The fields of [struct stat] that programs use. *)
Record ustat := UStat { us_type : Z; us_ino : Z; us_size : Z }.
Variant sysE : Type → Type :=
| Read (fd n : Z) : sysE (Z * list Z)          (* the result and the bytes stored *)
| Write (fd : Z) (buf : list Z) : sysE Z
| Open (path : list Z) (mode : Z) : sysE Z
| Close (fd : Z) : sysE Z
| Fstat (fd : Z) : sysE (Z * ustat)
| Fork : sysE Z
| Exec (path : list Z) (argv : list (list Z)) : sysE Z
| Wait : sysE Z
| Kill (pid : Z) : sysE Z
| Dup (fd : Z) : sysE Z
| Mknod (path : list Z) (major minor : Z) : sysE Z
| Mkdir (path : list Z) : sysE Z
| Link (old new : list Z) : sysE Z
| Unlink (path : list Z) : sysE Z
| Sleep (n : Z) : sysE Z
| Exit : sysE void
| Undef (why : string) : sysE void.

Abbreviation prog := (itree sysE).
Definition sys {A} (e : sysE A) : prog A := ITree.trigger e.
Definition exit {A} : prog A := ITree.bind (ITree.trigger Exit) (fun v : void => match v with end).
Definition undef {A} (why : string) : prog A := ITree.bind (ITree.trigger (Undef why)) (fun v : void => match v with end).

Definition NL : list Z := [10].
Definition O_RDONLY : Z := 0.
Definition O_RDWR : Z := 2.
Definition O_CREATE : Z := 512.

(** * [ulib.c] *)

Fixpoint atoi_loop (n : Z) (s : list Z) : Z :=
  match s with
  | [] => n
  | c :: s => if (48 <=? c) && (c <=? 57) then atoi_loop (s32 (n * 10 + c - 48)) s else n
  end.
Definition atoi (s : list Z) : Z := atoi_loop 0 s.

Fixpoint strcmp (p q : list Z) : Z :=
  match p, q with
  | a :: p', b :: q' => if a =? b then strcmp p' q' else u8 a - u8 b
  | a :: _, [] => u8 a
  | [], b :: _ => - u8 b
  | [], [] => 0
  end.
Definition strchr (s : list Z) (c : Z) : bool := existsb (Z.eqb c) s.

Definition stat (n : list Z) : prog (Z * ustat) :=
  let* fd := sys (Open n O_RDONLY) in
  if fd <? 0 then Ret (-1, UStat 0 0 0) else
  let* r := sys (Fstat fd) in
  sys (Close fd) ;;
  Ret r.

(** The loop of [gets]; the bytes stored so far. *)
Fixpoint gets_loop (n : nat) (buf : list Z) : prog (list Z) :=
  match n with
  | O => Ret buf
  | S n =>
      let* (cc, c) := sys (Read 0 1) in
      if cc <? 1 then Ret buf else
      match c with
      | [] => undef "c"
      | c :: _ => if (c =? 10) || (c =? 13) then Ret (buf ++ [c]) else gets_loop n (buf ++ [c])
      end
  end.
Definition gets (max : Z) : prog (list Z) := gets_loop (Z.to_nat (max - 1)) [].

(** * [printf.c] *)

Definition putc (fd c : Z) : prog unit := sys (Write fd [u8 c]) ;; Ret tt.
Fixpoint puts (fd : Z) (s : list Z) : prog unit :=
  match s with [] => Ret tt | c :: s => putc fd c ;; puts fd s end.

(** ["0123456789ABCDEF"[d]] *)
Definition digit (d : Z) : Z := if d <? 10 then 48 + d else 55 + d.
(** [do { buf[i++] = digits[x % base]; } while ((x /= base) != 0)]: the digits, lowest
    first.  A 32-bit number has at most 10 of them in the bases used, so that
    [buf[16]] has room for them and a sign. *)
Fixpoint int_digits (fuel : nat) (x base : Z) : list Z :=
  match fuel with
  | O => []
  | S fuel => digit (x mod base) :: if x / base =? 0 then [] else int_digits fuel (x / base) base
  end.
Definition int_text (xx base : Z) (sgn : bool) : list Z :=
  let neg := sgn && (xx <? 0) in
  let x := if neg then u32 (- xx) else u32 xx in
  reverse (int_digits 16 x base ++ if neg then [45] else []).
Definition printint (fd xx base : Z) (sgn : bool) : prog unit := puts fd (int_text xx base sgn).

(** An argument: a number, or a pointer with the string it points to.  The value of a
    pointer is not in the model, so that printing it as a number is [undef]. *)
Inductive arg := AInt (z : Z) | AStr (s : option (list Z)).
Definition null_text : list Z := chars "(null)".
Fixpoint printf_loop (fd : Z) (fmt : list Z) (args : list arg) (state : bool) : prog unit :=
  match fmt with
  | [] => Ret tt
  | c :: fmt =>
      if negb state then
        if c =? 37 then printf_loop fd fmt args true
        else putc fd c ;; printf_loop fd fmt args false
      else if c =? 100 then
        match args with
        | AInt z :: args => printint fd (s32 z) 10 true ;; printf_loop fd fmt args false
        | _ => undef "%d"
        end
      else if (c =? 120) || (c =? 112) then
        match args with
        | AInt z :: args => printint fd (s32 z) 16 false ;; printf_loop fd fmt args false
        | _ => undef "%x"
        end
      else if c =? 115 then
        match args with
        | AStr s :: args => puts fd (default null_text s) ;; printf_loop fd fmt args false
        | _ => undef "%s"
        end
      else if c =? 99 then
        match args with
        | AInt z :: args => putc fd z ;; printf_loop fd fmt args false
        | _ => undef "%c"
        end
      else if c =? 37 then putc fd c ;; printf_loop fd fmt args false
      else putc fd 37 ;; putc fd c ;; printf_loop fd fmt args false
  end.
Definition printf (fd : Z) (fmt : list Z) (args : list arg) : prog unit := printf_loop fd fmt args false.
Definition str (s : list Z) : arg := AStr (Some s).

(** * Commands *)

Definition BUFSZ : Z := 512.

(** [cat.c]: the result of the last [read]; [buf] is global. *)
Definition cat_body (fd : Z) (buf : list Z) : prog (list Z + (Z * list Z)) :=
  let* (n, l) := sys (Read fd BUFSZ) in
  let buf := splice 0 l buf in
  if 0 <? n then sys (Write 1 (take (Z.to_nat n) buf)) ;; Ret (inl buf)
  else Ret (inr (n, buf)).
Definition cat (fd : Z) (buf : list Z) : prog (list Z) :=
  let* (n, buf) := ITree.iter (cat_body fd) buf in
  if n <? 0 then printf 1 (chars "cat: read error" ++ NL) [] ;; exit else Ret buf.
Fixpoint cat_files (args : list (list Z)) (buf : list Z) : prog unit :=
  match args with
  | [] => exit
  | a :: args =>
      let* fd := sys (Open a 0) in
      if fd <? 0 then printf 1 (chars "cat: cannot open %s" ++ NL) [str a] ;; exit else
      let* buf := cat fd buf in
      sys (Close fd) ;;
      cat_files args buf
  end.
Definition cat_main (argv : list (list Z)) : prog unit :=
  let buf := replicate 512 0 in
  match argv with
  | [] | [_] => cat 0 buf ;; exit
  | _ :: args => cat_files args buf
  end.

(** [wc.c]: the counters [l], [w], [c] and [inword]. *)
Record counts := Counts { n_line : Z; n_word : Z; n_char : Z; inword : bool }.
Definition spaces : list Z := chars " " ++ [13; 9; 10; 11].
Definition wc_char (k : counts) (x : Z) : counts :=
  let c := s32 (n_char k + 1) in
  let l := if x =? 10 then s32 (n_line k + 1) else n_line k in
  if strchr spaces x then Counts l (n_word k) c false
  else if inword k then Counts l (n_word k) c true
  else Counts l (s32 (n_word k + 1)) c true.
Definition wc_body (fd : Z) (st : counts * list Z) : prog (counts * list Z + (Z * counts * list Z)) :=
  let (k, buf) := st in
  let* (n, l) := sys (Read fd BUFSZ) in
  let buf := splice 0 l buf in
  if 0 <? n then Ret (inl (fold_left wc_char (take (Z.to_nat n) buf) k, buf)) else Ret (inr (n, k, buf)).
Definition wc (fd : Z) (name : list Z) (buf : list Z) : prog (list Z) :=
  let* (n, k, buf) := ITree.iter (wc_body fd) (Counts 0 0 0 false, buf) in
  if n <? 0 then printf 1 (chars "wc: read error" ++ NL) [] ;; exit else
  printf 1 (chars "%d %d %d %s" ++ NL) [AInt (n_line k); AInt (n_word k); AInt (n_char k); str name] ;;
  Ret buf.
Fixpoint wc_files (args : list (list Z)) (buf : list Z) : prog unit :=
  match args with
  | [] => exit
  | a :: args =>
      let* fd := sys (Open a 0) in
      if fd <? 0 then printf 1 (chars "wc: cannot open %s" ++ NL) [str a] ;; exit else
      let* buf := wc fd a buf in
      sys (Close fd) ;;
      wc_files args buf
  end.
Definition wc_main (argv : list (list Z)) : prog unit :=
  let buf := replicate 512 0 in
  match argv with
  | [] | [_] => wc 0 [] buf ;; exit
  | _ :: args => wc_files args buf
  end.

(** [echo.c] *)
Fixpoint echo_args (args : list (list Z)) : prog unit :=
  match args with
  | [] => Ret tt
  | a :: args =>
      printf 1 (chars "%s%s") [str a; str (match args with [] => NL | _ => chars " " end)] ;;
      echo_args args
  end.
Definition echo_main (argv : list (list Z)) : prog unit := echo_args (drop 1 argv) ;; exit.

(** [ln.c] *)
Definition ln_main (argv : list (list Z)) : prog unit :=
  match argv with
  | [_; old; new] =>
      let* r := sys (Link old new) in
      (if r <? 0 then printf 2 (chars "link %s %s: failed" ++ NL) [str old; str new] else Ret tt) ;;
      exit
  | _ => printf 2 (chars "Usage: ln old new" ++ NL) [] ;; exit
  end.
(** [rm.c] *)
Fixpoint rm_files (args : list (list Z)) : prog unit :=
  match args with
  | [] => exit
  | a :: args =>
      let* r := sys (Unlink a) in
      if r <? 0 then printf 2 (chars "rm: %s failed to delete" ++ NL) [str a] ;; exit else rm_files args
  end.
Definition rm_main (argv : list (list Z)) : prog unit :=
  match argv with
  | [] | [_] => printf 2 (chars "Usage: rm files..." ++ NL) [] ;; exit
  | _ :: args => rm_files args
  end.
(** [mkdir.c] *)
Fixpoint mkdir_files (args : list (list Z)) : prog unit :=
  match args with
  | [] => exit
  | a :: args =>
      let* r := sys (Mkdir a) in
      if r <? 0 then printf 2 (chars "mkdir: %s failed to create" ++ NL) [str a] ;; exit else mkdir_files args
  end.
Definition mkdir_main (argv : list (list Z)) : prog unit :=
  match argv with
  | [] | [_] => printf 2 (chars "Usage: mkdir files..." ++ NL) [] ;; exit
  | _ :: args => mkdir_files args
  end.
(** [kill.c] *)
Fixpoint kill_args (args : list (list Z)) : prog unit :=
  match args with
  | [] => exit
  | a :: args => sys (Kill (atoi a)) ;; kill_args args
  end.
Definition kill_main (argv : list (list Z)) : prog unit :=
  match argv with
  | [] => printf 2 (chars "usage: kill pid..." ++ NL) [] ;; exit
  | _ :: args => kill_args args
  end.
(** [zombie.c] *)
Definition zombie_main : prog unit :=
  let* pid := sys Fork in
  (if 0 <? pid then sys (Sleep 5) else Ret 0) ;;
  exit.
(** [info.c]: [sizeof(T)] and its plural. *)
Definition info_line (fmt : string) (size : Z) : prog unit :=
  printf 1 (chars fmt ++ NL) [AInt size; str (if 1 <? size then chars "s" else [])].
Definition info_main : prog unit :=
  info_line "Size of char:  %d byte%s" 1 ;;
  info_line "Size of short: %d byte%s" 2 ;;
  info_line "Size of int:   %d byte%s" 4 ;;
  info_line "Size of long:  %d byte%s" 8 ;;
  exit.

(** [init.c]: one round of the outer loop, which has no end. *)
Definition init_reap (pid : Z) : prog unit :=
  ITree.iter (fun _ : unit =>
    let* wpid := sys Wait in
    if (0 <=? wpid) && negb (wpid =? pid) then printf 1 (chars "zombie!" ++ NL) [] ;; Ret (inl tt)
    else Ret (inr tt)) tt.
Definition init_round : prog unit :=
  printf 1 (chars "init: Starting Shell" ++ NL) [] ;;
  let* pid := sys Fork in
  if pid <? 0 then printf 1 (chars "init: fork failed" ++ NL) [] ;; exit else
  if pid =? 0 then
    sys (Exec (chars "sh") [chars "sh"]) ;;
    printf 1 (chars "init: exec sh failed" ++ NL) [] ;;
    exit
  else init_reap pid.
Definition stars : list Z := chars "**************************************************************************" ++ NL.
Definition blank_row : list Z := chars "**                                                                      **" ++ NL.
Definition title_row : list Z := chars "**                  xv6 on ARMv8-A (64-bit) Architecture                **" ++ NL.
Fixpoint init_banner (rows : list (list Z)) : prog unit :=
  match rows with [] => Ret tt | r :: rows => printf 1 r [] ;; init_banner rows end.
Definition init_main : prog unit :=
  let* fd := sys (Open (chars "console") O_RDWR) in
  (if fd <? 0 then
     sys (Mknod (chars "console") 1 1) ;;
     sys (Open (chars "console") O_RDWR)
   else Ret 0) ;;
  sys (Dup 0) ;;
  sys (Dup 0) ;;
  init_banner [NL; stars; blank_row; blank_row; title_row; blank_row; blank_row; stars; NL] ;;
  ITree.iter (fun _ : unit => init_round ;; Ret (inl tt)) tt.

(** [forktest.c], whose [printf] writes the string as it is. *)
Definition fprint (s : string) : prog unit := sys (Write 1 (chars s ++ NL)) ;; Ret tt.
Definition FORKS : Z := 1000.
(** The number of children, once [fork] has failed or [FORKS] were made. *)
Fixpoint fork_loop (todo : nat) (n : Z) : prog Z :=
  match todo with
  | O => Ret n
  | S todo =>
      let* pid := sys Fork in
      if pid <? 0 then Ret n else if pid =? 0 then exit else fork_loop todo (n + 1)
  end.
Fixpoint wait_loop (n : nat) : prog unit :=
  match n with
  | O => Ret tt
  | S n => let* r := sys Wait in if r <? 0 then fprint "wait stopped early" ;; exit else wait_loop n
  end.
Definition forktest : prog unit :=
  fprint "fork test" ;;
  let* n := fork_loop (Z.to_nat FORKS) 0 in
  if n =? FORKS then fprint "fork claimed to work N times!" ;; exit else
  wait_loop (Z.to_nat n) ;;
  let* r := sys Wait in
  if negb (r =? -1) then fprint "wait got too many" ;; exit else
  fprint "fork test OK".
Definition forktest_main : prog unit := forktest ;; exit.

(** [stressfs.c] *)
Fixpoint stress_forks (todo : nat) (i : Z) : prog Z :=
  match todo with
  | O => Ret i
  | S todo => let* pid := sys Fork in if 0 <? pid then Ret i else stress_forks todo (i + 1)
  end.
Fixpoint stress_writes (n : nat) (fd : Z) (data : list Z) : prog unit :=
  match n with O => Ret tt | S n => sys (Write fd data) ;; stress_writes n fd data end.
Fixpoint stress_reads (n : nat) (fd : Z) : prog unit :=
  match n with O => Ret tt | S n => sys (Read fd BUFSZ) ;; stress_reads n fd end.
Definition stressfs_main : prog unit :=
  printf 1 (chars "stressfs starting" ++ NL) [] ;;
  let data := replicate 512 97 in
  let* i := stress_forks 4 0 in
  printf 1 (chars "write %d" ++ NL) [AInt i] ;;
  let path := chars "stressfs" ++ [48 + i] in
  let* fd := sys (Open path (Z.lor O_CREATE O_RDWR)) in
  stress_writes 20 fd data ;;
  sys (Close fd) ;;
  printf 1 (chars "read" ++ NL) [] ;;
  let* fd := sys (Open path O_RDONLY) in
  stress_reads 20 fd ;;
  sys (Close fd) ;;
  sys Wait ;;
  exit.

(** ** [ls.c] *)

Definition DIRSIZ : Z := 14.
Definition T_DIR : Z := 1.
Definition T_FILE : Z := 2.
(** [for (p = path + i; p >= path && *p != '/'; p--)]: what follows the last slash. *)
Fixpoint last_name (path : list Z) (i : nat) : list Z :=
  match path !! i with
  | Some 47 => drop (S i) path
  | _ => match i with O => path | S i => last_name path i end
  end.
(** The name and the static buffer. *)
Definition fmtname (path buf : list Z) : list Z * list Z :=
  let p := last_name path (length path) in
  if DIRSIZ <=? zlen p then (p, buf) else
  let buf := splice (length p) (replicate (Z.to_nat (DIRSIZ - zlen p)) 32) (splice 0 p buf) in
  (str_of buf, buf).
Definition ls_line (path : list Z) (st : ustat) (fbuf : list Z) : prog (list Z) :=
  let (name, fbuf) := fmtname path fbuf in
  printf 1 (chars "%s %d %d %d" ++ NL) [str name; AInt (us_type st); AInt (us_ino st); AInt (us_size st)] ;;
  Ret fbuf.
(** One round of the loop over the entries. *)
Definition ls_entry (path : list Z) (fd : Z) (fbuf : list Z) : prog (list Z + list Z) :=
  let* (n, de) := sys (Read fd 16) in
  if negb (n =? 16) then Ret (inr fbuf) else
  if le_dec (take 2 de) =? 0 then Ret (inl fbuf) else
  let name := str_of (path ++ chars "/" ++ take 14 (drop 2 de)) in
  let* (r, st) := stat name in
  if r <? 0 then printf 1 (chars "ls: cannot stat %s" ++ NL) [str name] ;; Ret (inl fbuf) else
  let* fbuf := ls_line name st fbuf in
  Ret (inl fbuf).
Definition ls (path : list Z) (fbuf : list Z) : prog (list Z) :=
  let* fd := sys (Open path 0) in
  if fd <? 0 then printf 2 (chars "ls: cannot open %s" ++ NL) [str path] ;; Ret fbuf else
  let* (r, st) := sys (Fstat fd) in
  if r <? 0 then printf 2 (chars "ls: cannot stat %s" ++ NL) [str path] ;; sys (Close fd) ;; Ret fbuf else
  let* fbuf :=
    (if us_type st =? T_FILE then ls_line path st fbuf
     else if us_type st =? T_DIR then
       if 512 <? zlen path + 1 + DIRSIZ + 1 then printf 1 (chars "ls: path too long" ++ NL) [] ;; Ret fbuf
       else ITree.iter (ls_entry path fd) fbuf
     else Ret fbuf) in
  sys (Close fd) ;;
  Ret fbuf.
Fixpoint ls_files (args : list (list Z)) (fbuf : list Z) : prog unit :=
  match args with
  | [] => exit
  | a :: args => let* fbuf := ls a fbuf in ls_files args fbuf
  end.
Definition ls_main (argv : list (list Z)) : prog unit :=
  let fbuf := replicate 15 0 in
  match argv with
  | [] | [_] => ls (chars ".") fbuf ;; exit
  | _ :: args => ls_files args fbuf
  end.
