(* ===== verification/Cmds.v ===== *)
(** What the commands [cat], [wc] and [echo] do, and [printf] below them.

    A world holds the files, the streams behind the open descriptors and what was
    written; it gives every system call of a program its meaning, and the program a
    run ([interp_state]).  [outcome] and [halts] are total: they say that the run
    ends, and how.  Reads may return any number of bytes up to what was asked for,
    so the theorems hold for every way the input is cut into pieces. *)

From ITree Require Import ITree ITreeFacts Events.State Events.StateFacts.
From S2P Require Import Prelude User.
#[local] Open Scope user_scope.

(** * The world *)

(** What reads of a descriptor will return: pieces, and then the end or an error. *)
Record stream := Stream { pieces : list (list Z); broken : bool }.
Definition stream_ok (st : stream) : Prop := Forall (λ l, (0 < length l ≤ 512)%nat) (pieces st).
Definition content (st : stream) : list Z := concat (pieces st).
Record world := World {
  w_file : gmap (list Z) stream;
  w_fd : gmap Z stream;
  w_next : Z;
  w_out : list (Z * Z);              (* descriptor and byte, oldest first *)
}.
Definition emit (fd : Z) (l : list Z) (w : world) : world := World (w_file w) (w_fd w) (w_next w) (w_out w ++ (pair fd <$> l)).
Definition with_fd (fd : Z) (st : stream) (w : world) : world := World (w_file w) (<[fd := st]> (w_fd w)) (w_next w) (w_out w).
Variant haltE : Type → Type := Halt (w : world) : haltE void | Wrong (why : string) : haltE void.
Definition stop {A} (e : haltE void) : itree haltE A := ITree.bind (ITree.trigger e) (fun v : void => match v with end).
Definition serve (st : stream) : (Z * list Z) * stream :=
  match pieces st with
  | l :: ls => ((zlen l, l), Stream ls (broken st))
  | [] => ((if broken st then -1 else 0, []), st)
  end.
Definition handle : ∀ A, sysE A → world → itree haltE (world * A) := fun A e w =>
  match e in sysE B return itree haltE (world * B) with
  | Read fd n =>
      match w_fd w !! fd with
      | Some st => let (a, st') := serve st in Ret (with_fd fd st' w, a)
      | None => Ret (w, (-1, []))
      end
  | Write fd l => Ret (emit fd l w, zlen l)
  | Open path mode =>
      match w_file w !! path with
      | Some st => Ret (World (w_file w) (<[w_next w := st]> (w_fd w)) (w_next w + 1) (w_out w), w_next w)
      | None => Ret (w, -1)
      end
  | Close fd => Ret (World (w_file w) (delete fd (w_fd w)) (w_next w) (w_out w), 0)
  | Fstat fd => Ret (w, (-1, UStat 0 0 0))
  | Fork | Exec _ _ | Wait | Kill _ | Dup _ | Mknod _ _ _ | Mkdir _ | Link _ _ | Unlink _ | Sleep _ => Ret (w, -1)
  | Exit => stop (Halt w)
  | Undef why => stop (Wrong why)
  end.
Definition run {A} (t : prog A) (w : world) : itree haltE (world * A) := interp_state handle t w.

(** * Outcomes *)

Definition outcome {A} (t : prog A) (w w' : world) (a : A) : Prop := eutt eq (run t w) (Ret (w', a)).
Definition halts {A} (t : prog A) (w w' : world) : Prop := eutt eq (run t w) (stop (Halt w')).

Lemma stop_bind {A B} e (k : A → itree haltE B) : eutt eq (ITree.bind (stop e) k) (stop e).
Proof. unfold stop. rewrite bind_bind. apply eutt_eq_bind. intros []. Qed.
Lemma outcome_ret {A} (a : A) w : outcome (Ret a) w w a.
Proof. unfold outcome, run. rewrite interp_state_ret. reflexivity. Qed.
Lemma outcome_bind {A B} (t : prog A) (k : A → prog B) w w1 w2 a b : outcome t w w1 a → outcome (k a) w1 w2 b → outcome (ITree.bind t k) w w2 b.
Proof. unfold outcome, run. intros H1 H2. rewrite interp_state_bind, H1, bind_ret_l. exact H2. Qed.
Lemma halts_then {A B} (t : prog A) (k : A → prog B) w w1 w2 a : outcome t w w1 a → halts (k a) w1 w2 → halts (ITree.bind t k) w w2.
Proof. unfold outcome, halts, run. intros H1 H2. rewrite interp_state_bind, H1, bind_ret_l. exact H2. Qed.
Lemma halts_bind {A B} (t : prog A) (k : A → prog B) w w1 : halts t w w1 → halts (ITree.bind t k) w w1.
Proof. unfold halts, run. intros H1. rewrite interp_state_bind, H1. apply stop_bind. Qed.
Lemma outcome_sys {A} (e : sysE A) w w' a : handle A e w = Ret (w', a) → outcome (sys e) w w' a.
Proof. intros H. unfold outcome, run, sys. rewrite interp_state_trigger. unfold handle in *. by rewrite H. Qed.
Lemma halts_exit {A} w : halts (exit (A:=A)) w w.
Proof.
  unfold halts, run, exit. rewrite interp_state_bind, interp_state_trigger. cbn. apply stop_bind.
Qed.
(** A loop, round by round. *)
Lemma outcome_again {I A} (body : I → prog (I + A)) i j w w1 w2 a : outcome (body i) w w1 (inl j) → outcome (ITree.iter body j) w1 w2 a → outcome (ITree.iter body i) w w2 a.
Proof.
  unfold outcome, run. intros H1 H2. rewrite unfold_iter, interp_state_bind, H1, bind_ret_l. cbn. rewrite interp_state_tau, tau_eutt. exact H2.
Qed.
Lemma outcome_done {I A} (body : I → prog (I + A)) i w w1 a : outcome (body i) w w1 (inr a) → outcome (ITree.iter body i) w w1 a.
Proof. unfold outcome, run. intros H1. rewrite unfold_iter, interp_state_bind, H1, bind_ret_l. cbn. by rewrite interp_state_ret. Qed.

(** * Output *)

Lemma emit_app fd a b w : emit fd (a ++ b) w = emit fd b (emit fd a w).
Proof. unfold emit. simpl. by rewrite fmap_app, (assoc_L (++)). Qed.
Lemma emit_nil fd w : emit fd [] w = w.
Proof. unfold emit. simpl. rewrite app_nil_r. by destruct w. Qed.

Lemma putc_ok fd c w : outcome (putc fd c) w (emit fd [u8 c] w) tt.
Proof. unfold putc. eapply outcome_bind; [by apply outcome_sys|apply outcome_ret]. Qed.
Lemma uputs_ok fd s : ∀ w, outcome (puts fd s) w (emit fd (u8 <$> s) w) tt.
Proof.
  induction s as [|c s IH]; intros w; cbn [puts fmap list_fmap]; [rewrite emit_nil; apply outcome_ret|].
  change (u8 c :: (u8 <$> s)) with ([u8 c] ++ (u8 <$> s)). rewrite emit_app. eapply outcome_bind; [apply putc_ok|apply IH].
Qed.

(** A format is a list of directives. *)
Inductive directive := Lit (c : Z) | Dec | Hex | Str | Chr | Odd (c : Z).
Definition directive_of (c : Z) : directive :=
  if c =? 100 then Dec else if (c =? 120) || (c =? 112) then Hex else if c =? 115 then Str else if c =? 99 then Chr
  else if c =? 37 then Lit c else Odd c.
Fixpoint directives (fmt : list Z) : list directive :=
  match fmt with
  | [] => []
  | c :: fmt => if c =? 37 then match fmt with [] => [] | d :: fmt => directive_of d :: directives fmt end else Lit c :: directives fmt
  end.
(** Numbers as text: position [i] from the right holds the digit [n / b^i mod b], and
    zeros are not written in front.  Ten positions are enough for 32 bits. *)
Definition numerals : list Z := chars "0123456789ABCDEF".
Definition place (b n : Z) (i : nat) : Z := default 0 (znth numerals (n / b ^ Z.of_nat i mod b)).
Definition places (b n : Z) (k : nat) : list Z := place b n <$> reverse (seq 0 k).
Fixpoint no_zeros (l : list Z) : list Z :=
  match l with [] => [] | c :: t => if c =? 48 then no_zeros t else l end.
Definition numeral (b n : Z) : list Z := match no_zeros (places b n 10) with [] => chars "0" | l => l end.
Definition dec (z : Z) : list Z := if s32 z <? 0 then chars "-" ++ numeral 10 (- s32 z) else numeral 10 (s32 z).
Definition hex (z : Z) : list Z := numeral 16 (u32 z).
Fixpoint render (ds : list directive) (args : list arg) : option (list Z) :=
  match ds, args with
  | [], _ => Some []
  | Lit c :: ds, _ => app [u8 c] <$> render ds args
  | Odd c :: ds, _ => app [37; u8 c] <$> render ds args
  | Dec :: ds, AInt z :: args => app (dec z) <$> render ds args
  | Hex :: ds, AInt z :: args => app (hex z) <$> render ds args
  | Str :: ds, AStr s :: args => app (u8 <$> default null_text s) <$> render ds args
  | Chr :: ds, AInt z :: args => app [u8 z] <$> render ds args
  | _, _ => None
  end.

Lemma digit_u8 d : 0 ≤ d < 16 → u8 (digit d) = digit d.
Proof. intros Hd. unfold digit, u8. apply Z.mod_small. destruct (Z.ltb_spec d 10); lia. Qed.
Lemma int_digits_u8 fuel base : 2 ≤ base ≤ 16 → ∀ x, Forall (λ c, u8 c = c) (int_digits fuel x base).
Proof.
  intros Hb. induction fuel as [|fuel IH]; intros x; cbn [int_digits]; [constructor|]. constructor.
  - apply digit_u8. pose proof (Z.mod_pos_bound x base). lia.
  - case_match; [constructor|apply IH].
Qed.
Lemma int_text_u8 x base sgn : 2 ≤ base ≤ 16 → u8 <$> int_text x base sgn = int_text x base sgn.
Proof.
  intros Hb. unfold int_text. match goal with |- u8 <$> reverse ?t = _ => assert (H : Forall (λ c, u8 c = c) (reverse t)) end.
  { apply Forall_reverse, Forall_app_2; [by apply int_digits_u8|]. destruct (sgn && (x <? 0)); [by constructor; [|constructor]|constructor]. }
  induction H as [|c l Hc Hl IH]; [done|]. cbn [fmap list_fmap]. by rewrite Hc, IH.
Qed.
Lemma printint_ok fd x base sgn w : 2 ≤ base ≤ 16 → outcome (printint fd x base sgn) w (emit fd (int_text x base sgn) w) tt.
Proof. intros Hb. unfold printint. rewrite <- (int_text_u8 x base sgn Hb) at 2. apply uputs_ok. Qed.

(** [printint] writes the digits of the number. *)
Lemma place_digit d : 0 ≤ d < 16 → default 0 (znth numerals d) = digit d.
Proof.
  intros Hd. assert (Hall : forallb (λ d, default 0 (znth numerals d) =? digit d) (seqZ 0 16) = true) by (vm_compute; reflexivity).
  rewrite forallb_forall in Hall. apply Z.eqb_eq, Hall, list_elem_of_In, elem_of_seqZ. lia.
Qed.
Lemma digit_0 d : 0 ≤ d < 16 → digit d = 48 ↔ d = 0.
Proof. intros Hd. unfold digit. destruct (Z.ltb_spec d 10); lia. Qed.
Lemma no_zeros_snoc l c : no_zeros (l ++ [c]) = match no_zeros l with [] => if c =? 48 then [] else [c] | r => r ++ [c] end.
Proof. induction l as [|d l IH]; [done|]. simpl. by destruct (d =? 48). Qed.
Section numeral.
Context (b : Z) (Hb : 2 ≤ b ≤ 16).
Lemma places_snoc n k : 0 ≤ n → places b n (S k) = places b (n / b) k ++ [digit (n mod b)].
Proof using Hb.
  intros Hn. unfold places. change (seq 0 (S k)) with (0%nat :: seq 1 k). rewrite reverse_cons, fmap_app, <- fmap_S_seq. f_equal.
  - rewrite <- fmap_reverse, <- list_fmap_compose. apply list_fmap_ext. intros ? i _. unfold place, compose. do 3 f_equal.
    rewrite Nat2Z.inj_succ, Z.pow_succ_r, Zdiv_Zdiv by lia. done.
  - cbn [fmap list_fmap]. unfold place. pose proof (Z.mod_pos_bound n b ltac:(lia)). simpl Z.of_nat. rewrite Z.pow_0_r, Z.div_1_r, place_digit by lia. done.
Qed.
(** The text of the last [k] positions, and when it is empty. *)
Lemma no_zeros_places k : ∀ n fuel, 0 ≤ n < b ^ Z.of_nat k → (k ≤ fuel)%nat →
  no_zeros (places b n k) = if n =? 0 then [] else reverse (int_digits fuel n b).
Proof using Hb.
  induction k as [|k IH]; intros n fuel Hn Hf; [change (b ^ Z.of_nat 0) with 1 in Hn; by assert (n = 0) as -> by lia|].
  destruct fuel as [|fuel]; [lia|]. rewrite Nat2Z.inj_succ, Z.pow_succ_r in Hn by lia.
  pose proof (Z.mod_pos_bound n b ltac:(lia)) as Hm. pose proof (Z.div_mod n b ltac:(lia)) as Hdm. pose proof (Z.div_pos n b ltac:(lia) ltac:(lia)) as Hp.
  assert (Hq : n / b < b ^ Z.of_nat k) by (apply Z.div_lt_upper_bound; lia).
  rewrite places_snoc, no_zeros_snoc, (IH (n / b) fuel) by lia. cbn [int_digits]. rewrite reverse_cons.
  destruct (Z.eqb_spec (n / b) 0) as [E|E].
  - rewrite E in Hdm. pose proof (digit_0 (n mod b) ltac:(lia)) as H0. destruct (Z.eqb_spec (digit (n mod b)) 48), (Z.eqb_spec n 0); try done; tauto || lia.
  - assert (Hne : n ≠ 0) by (intros ->; by rewrite Z.div_0_l in E by lia). rewrite (proj2 (Z.eqb_neq n 0) Hne). destruct (reverse (int_digits fuel (n / b) b)) eqn:Er; [|done].
    destruct fuel as [|fuel]; [destruct k; [change (b ^ Z.of_nat 0) with 1 in Hq; lia|lia]|]. cbn [int_digits] in Er. rewrite reverse_cons in Er. by apply app_eq_nil in Er as [_ Er].
Qed.
Lemma numeral_ok n : 0 ≤ n < b ^ 10 → reverse (int_digits 16 n b) = numeral b n.
Proof using Hb.
  intros Hn. unfold numeral. rewrite (no_zeros_places 10 n 16) by lia. destruct (Z.eqb_spec n 0) as [->|Hne].
  - cbn [int_digits]. rewrite Z.mod_0_l, Z.div_0_l by lia. done.
  - destruct (reverse _) eqn:Er; [|done]. cbn [int_digits] in Er. rewrite reverse_cons in Er. by apply app_eq_nil in Er as [_ Er].
Qed.
End numeral.
Lemma s32_bounds z : - 2 ^ 31 ≤ s32 z < 2 ^ 31.
Proof. unfold s32. pose proof (Z.mod_pos_bound (z + 2 ^ 31) (2 ^ 32)). lia. Qed.
Lemma int_text_dec z : int_text (s32 z) 10 true = dec z.
Proof.
  unfold int_text, dec. pose proof (s32_bounds z) as Hr. cbn [andb]. destruct (Z.ltb_spec (s32 z) 0).
  - rewrite u32_small by lia. rewrite reverse_app, numeral_ok by lia. done.
  - rewrite u32_small, app_nil_r by lia. apply numeral_ok; lia.
Qed.
Lemma int_text_hex z : int_text (s32 z) 16 false = hex z.
Proof.
  unfold int_text, hex. cbn [andb]. rewrite app_nil_r. replace (u32 (s32 z)) with (u32 z) by (unfold u32, s32; rewrite Zminus_mod_idemp_l; f_equal; lia).
  pose proof (u32_range z). apply numeral_ok; lia.
Qed.
Lemma print_dec fd z w : outcome (printint fd (s32 z) 10 true) w (emit fd (dec z) w) tt.
Proof. rewrite <- int_text_dec. apply printint_ok. lia. Qed.
Lemma print_hex fd z w : outcome (printint fd (s32 z) 16 false) w (emit fd (hex z) w) tt.
Proof. rewrite <- int_text_hex. apply printint_ok. lia. Qed.

(** The loop of [printf], between directives ([state] 0) and after a percent sign. *)
Lemma printf_loop_ok fd : ∀ fmt args w l, render (directives fmt) args = Some l → outcome (printf_loop fd fmt args false) w (emit fd l w) tt.
Proof.
  intros fmt. induction fmt as [fmt IH] using (induction_ltof1 _ length). unfold ltof in IH. intros args w l Hr.
  destruct fmt as [|c fmt]; [simpl in Hr; simplify_eq; rewrite emit_nil; apply outcome_ret|]. cbn [directives printf_loop negb] in *.
  destruct (c =? 37).
  - destruct fmt as [|d fmt]; [simpl in Hr; simplify_eq; rewrite emit_nil; apply outcome_ret|]. cbn [printf_loop negb]. unfold directive_of in Hr.
    assert (Hgo : ∀ args w r, render (directives fmt) args = Some r → outcome (printf_loop fd fmt args false) w (emit fd r w) tt) by (intros; apply IH; [simpl; lia|done]).
    clear IH. destruct (d =? 100), ((d =? 120) || (d =? 112)), (d =? 115), (d =? 99); cbn [render] in Hr;
      first [destruct args as [|[z|s] args]; try discriminate Hr | idtac].
    all: try (apply fmap_Some in Hr as (r & Hr & ->); rewrite emit_app; eapply outcome_bind; [first [apply print_dec|apply print_hex|apply uputs_ok|apply putc_ok]|by apply Hgo]).
    all: destruct (d =? 37) eqn:Ed; cbn [render] in Hr; apply fmap_Some in Hr as (r & Hr & ->); rewrite emit_app.
    all: try (eapply outcome_bind; [apply putc_ok|by apply Hgo]).
    all: change [37; u8 d] with ([u8 37] ++ [u8 d]); rewrite emit_app; eapply outcome_bind; [apply putc_ok|]; eapply outcome_bind; [apply putc_ok|by apply Hgo].
  - cbn [render] in Hr. apply fmap_Some in Hr as (r & Hr & ->). rewrite emit_app. eapply outcome_bind; [apply putc_ok|]. apply IH; [simpl; lia|done].
Qed.
Lemma printf_ok fd fmt args w l : render (directives fmt) args = Some l → outcome (printf fd fmt args) w (emit fd l w) tt.
Proof. apply printf_loop_ok. Qed.

(** * Reading a stream *)

Lemma take_splice (l buf : list Z) : (length l ≤ length buf)%nat → take (length l) (splice 0 l buf) = l ∧ length (splice 0 l buf) = length buf.
Proof. intros H. unfold splice. simpl. rewrite take_app_length, length_app, length_drop. split; [done|lia]. Qed.
Lemma read_ok fd n st w : w_fd w !! fd = Some st → outcome (sys (Read fd n)) w (with_fd fd (serve st).2 w) (serve st).1.
Proof. intros H. apply outcome_sys. unfold handle. rewrite H. by destruct (serve st). Qed.
Lemma with_fd_twice fd a b w : with_fd fd a (with_fd fd b w) = with_fd fd a w.
Proof. unfold with_fd. simpl. by rewrite insert_insert_eq. Qed.
Lemma with_fd_emit fd st fd' l w : with_fd fd st (emit fd' l w) = emit fd' l (with_fd fd st w).
Proof. done. Qed.

(** ** [cat] *)

Lemma cat_loop_ok fd ls : ∀ br w buf, w_fd w !! fd = Some (Stream ls br) → stream_ok (Stream ls br) → length buf = 512%nat →
  ∃ buf', outcome (ITree.iter (cat_body fd) buf) w (emit 1 (concat ls) (with_fd fd (Stream [] br) w)) (if br then -1 else 0, buf') ∧ length buf' = 512%nat.
Proof.
  induction ls as [|l ls IH]; intros br w buf Hw Hok Hb.
  - exists buf. split; [|done]. cbn [concat]. rewrite emit_nil. apply outcome_done. unfold cat_body.
    eapply outcome_bind; [by apply read_ok|]. cbn. replace (splice 0 [] buf) with buf by done. destruct br; apply outcome_ret.
  - unfold stream_ok in Hok. cbn [User.BUFSZ] in *. apply Forall_cons in Hok as [Hl Hok].
    destruct (take_splice l buf) as [Ht Hs]; [lia|]. set (w1 := emit 1 l (with_fd fd (Stream ls br) w)).
    destruct (IH br w1 (splice 0 l buf)) as (buf' & R & Hb'); [simpl; by rewrite lookup_insert_eq|done|lia|]. exists buf'. split; [|done].
    replace (with_fd fd (Stream [] br) w1) with (emit 1 l (with_fd fd (Stream [] br) w)) in R by (unfold w1; by rewrite with_fd_emit, with_fd_twice).
    cbn [concat]. rewrite emit_app. eapply outcome_again; [|exact R]. unfold cat_body. eapply outcome_bind; [by apply read_ok|]. cbn.
    rewrite (proj2 (Z.ltb_lt 0 (zlen l))) by (unfold zlen; lia). unfold zlen. rewrite Nat2Z.id, Ht.
    eapply outcome_bind; [by apply outcome_sys|apply outcome_ret].
Qed.

Lemma neg_test : (-1 <? 0) = true.
Proof. reflexivity. Qed.
Definition cat_broken : list Z := chars "cat: read error" ++ NL.
Lemma cat_broken_msg : render (directives (chars "cat: read error" ++ NL)) [] = Some cat_broken.
Proof. reflexivity. Qed.
(** What [cat] prints for one file. *)
Definition cat_text (a : list Z) (st : stream) : list Z := content st ++ if broken st then cat_broken else [].

(** What a command that works through a descriptor does with it: prints [text], and
    ends the program when the descriptor cannot be read. *)
Definition prints (proc : list Z → Z → list Z → prog (list Z)) (text : list Z → stream → list Z) : Prop := ∀ a fd st w buf,
  w_fd w !! fd = Some st → stream_ok st → length buf = 512%nat →
  let w1 := emit 1 (text a st) (with_fd fd (Stream [] (broken st)) w) in
  if broken st then halts (proc a fd buf) w w1 else ∃ buf', outcome (proc a fd buf) w w1 buf' ∧ length buf' = 512%nat.

Lemma cat_prints : prints (fun _ => cat) cat_text.
Proof.
  intros a fd [ls br] w buf Hw Hok Hb w1. destruct (cat_loop_ok fd ls br w buf Hw Hok Hb) as (buf' & R & Hb'). unfold w1, cat, cat_text.
  rewrite emit_app. destruct br; cbn [broken content pieces] in *.
  - eapply halts_then; [exact R|]. cbn beta iota. rewrite neg_test. eapply halts_then; [apply printf_ok, cat_broken_msg|apply halts_exit].
  - exists buf'. rewrite emit_nil. split; [|done]. eapply outcome_bind; [exact R|apply outcome_ret].
Qed.

(** ** The arguments of a command *)

Lemma open_ok path mode st w : w_file w !! path = Some st →
  outcome (sys (Open path mode)) w (World (w_file w) (<[w_next w := st]> (w_fd w)) (w_next w + 1) (w_out w)) (w_next w).
Proof. intros H. apply outcome_sys. unfold handle. by rewrite H. Qed.
Lemma open_missing path mode w : w_file w !! path = None → outcome (sys (Open path mode)) w w (-1).
Proof. intros H. apply outcome_sys. unfold handle. by rewrite H. Qed.

Section arguments.
  (** The message for a file that cannot be opened, and what is done with one that can. *)
  Context (msg : list Z) (missing : list Z → list Z).
  Context (msg_ok : ∀ a, render (directives msg) [str a] = Some (missing a)).
  Context (proc : list Z → Z → list Z → prog (list Z)) (text : list Z → stream → list Z) (proc_ok : prints proc text).

(** The loop over the arguments of [cat] and of [wc]. *)
Fixpoint over_files (args : list (list Z)) (buf : list Z) : prog unit :=
  match args with
  | [] => exit
  | a :: args =>
      let* fd := sys (Open a 0) in
      if fd <? 0 then printf 1 msg [str a] ;; exit else
      let* buf := proc a fd buf in
      sys (Close fd) ;;
      over_files args buf
  end.
(** What it prints: it ends at the first file that cannot be opened or read. *)
Fixpoint files_output (F : gmap (list Z) stream) (names : list (list Z)) : list Z :=
  match names with
  | [] => []
  | a :: names =>
      match F !! a with
      | None => missing a
      | Some st => text a st ++ if broken st then [] else files_output F names
      end
  end.
Lemma over_files_ok names : ∀ w buf, 0 ≤ w_next w → length buf = 512%nat → (∀ a st, w_file w !! a = Some st → stream_ok st) →
  ∃ w', halts (over_files names buf) w w' ∧ w_out w' = w_out w ++ (pair 1 <$> files_output (w_file w) names).
Proof using msg_ok proc_ok.
  induction names as [|a names IH]; intros w buf Hn Hb Hok; cbn [over_files files_output].
  { exists w. split; [apply halts_exit|]. by rewrite app_nil_r. }
  destruct (w_file w !! a) as [st|] eqn:Ea.
  2: { exists (emit 1 (missing a) w). split; [|done]. eapply halts_then; [by apply open_missing|]. cbn beta iota. rewrite neg_test.
       eapply halts_then; [apply printf_ok, msg_ok|apply halts_exit]. }
  set (w1 := World (w_file w) (<[w_next w := st]> (w_fd w)) (w_next w + 1) (w_out w)).
  pose proof (proc_ok a (w_next w) st w1 buf (lookup_insert_eq _ _ _) (Hok a st Ea) Hb) as Hc. cbn zeta in Hc.
  assert (Hopen : ∀ (k : Z → prog unit) w2, halts (k (w_next w)) w1 w2 →
    halts (let* fd := sys (Open a 0) in if fd <? 0 then printf 1 msg [str a] ;; exit else k fd) w w2).
  { intros k w2 Hk. eapply halts_then; [by apply open_ok|]. fold w1. by rewrite (proj2 (Z.ltb_ge (w_next w) 0)). }
  destruct (broken st) eqn:Eb.
  - eexists. split; [apply (Hopen (fun fd => _)), halts_bind; exact Hc|]. by rewrite app_nil_r.
  - destruct Hc as (buf' & Hc & Hb'). set (w2 := emit 1 _ _) in Hc. set (w3 := World (w_file w2) (delete (w_next w) (w_fd w2)) (w_next w2) (w_out w2)).
    destruct (IH w3 buf') as (w' & Hh & Ho); [simpl; lia|done|exact Hok|]. exists w'. split.
    + apply (Hopen (fun fd => _)). eapply halts_then; [exact Hc|]. eapply halts_then; [by apply (outcome_sys (Close (w_next w)) w2 w3 0)|exact Hh].
    + rewrite Ho. simpl. by rewrite fmap_app, (assoc_L (++)).
Qed.

(** Without arguments the command works on its standard input. *)
Definition command_output (w : world) (argv : list (list Z)) : list Z :=
  match argv with
  | [] | [_] => match w_fd w !! 0 with Some st => text [] st | None => [] end
  | _ :: names => files_output (w_file w) names
  end.
Definition inputs_ok (w : world) : Prop :=
  0 ≤ w_next w ∧ (∀ a st, w_file w !! a = Some st → stream_ok st) ∧ ∃ st, w_fd w !! 0 = Some st ∧ stream_ok st.
Lemma command_ok argv w : inputs_ok w → ∃ w',
  halts (match argv with [] | [_] => proc [] 0 (replicate 512 0) ;; exit | _ :: names => over_files names (replicate 512 0) end) w w' ∧
  w_out w' = w_out w ++ (pair 1 <$> command_output w argv).
Proof using msg_ok proc_ok.
  intros (Hn & Hok & st & H0 & Hst). assert (Hb : length (replicate 512 0) = 512%nat) by apply length_replicate.
  assert (Hin : ∃ w', halts (proc [] 0 (replicate 512 0) ;; exit (A:=unit)) w w' ∧ w_out w' = w_out w ++ (pair 1 <$> text [] st)).
  { pose proof (proc_ok [] 0 st w _ H0 Hst Hb) as Hc. cbn zeta in Hc. destruct (broken st).
    - eexists. split; [apply halts_bind; exact Hc|done].
    - destruct Hc as (buf' & Hc & _). eexists. split; [eapply halts_then; [exact Hc|apply halts_exit]|done]. }
  destruct argv as [|a0 [|a1 names]]; cbn [command_output]; rewrite ?H0; [exact Hin|exact Hin|]. by apply over_files_ok.
Qed.
End arguments.

(** ** [cat] *)

Definition cat_missing (a : list Z) : list Z := chars "cat: cannot open " ++ (u8 <$> a) ++ NL.
Lemma cat_missing_msg a : render (directives (chars "cat: cannot open %s" ++ NL)) [str a] = Some (cat_missing a).
Proof. reflexivity. Qed.

(** [cat] prints its input: with arguments, the contents of the files one after
    the other, however reads cut them into pieces; a file that cannot be opened or
    read ends it with a message, after everything that comes before it was printed;
    without arguments it prints its standard input.  In every case it exits. *)
Theorem cat_spec argv w : inputs_ok w →
  ∃ w', halts (cat_main argv) w w' ∧ w_out w' = w_out w ++ (pair 1 <$> command_output cat_missing cat_text w argv).
Proof. exact (command_ok _ _ cat_missing_msg _ _ cat_prints argv w). Qed.

(** A world with two files, the first delivered in two pieces. *)
Definition demo_world : world :=
  World {[ chars "a" := Stream [chars "one "; chars "two" ++ NL] false; chars "b" := Stream [chars "three"] false ]}
        {[ 0 := Stream [chars "in"] false ]} 3 [].
Lemma demo_inputs : inputs_ok demo_world.
Proof.
  split; [done|]. split.
  - intros a st. unfold demo_world. cbn [w_file]. rewrite lookup_insert_Some, lookup_singleton_Some.
    intros [[_ <-]|[_ [_ <-]]]; repeat constructor; cbn; lia.
  - eexists. split; [reflexivity|]. repeat constructor; cbn; lia.
Qed.
Lemma cat_spec_witness : ∃ w', halts (cat_main [chars "cat"; chars "a"; chars "b"; chars "c"; chars "a"]) demo_world w' ∧
  w_out w' = pair 1 <$> (chars "one two" ++ NL ++ chars "threecat: cannot open c" ++ NL).
Proof. exact (cat_spec [chars "cat"; chars "a"; chars "b"; chars "c"; chars "a"] demo_world demo_inputs). Defined.

(** ** [wc] *)

Definition space (x : Z) : Prop := x ∈ [32; 13; 9; 10; 11].
(** A word starts where a byte is no space and none of its word comes before it. *)
Definition word_start (l : list Z) (i : nat) : Prop :=
  match l !! i with Some x => ¬ space x ∧ (if i is S j then from_option space True (l !! j) else True) | None => False end.
#[local] Instance space_dec x : Decision (space x) := decide (x ∈ _).
#[local] Instance word_start_dec l i : Decision (word_start l i).
Proof. unfold word_start. destruct (l !! i), i as [|j]; try destruct (l !! j); simpl; apply _. Defined.
Definition lines (l : list Z) : Z := zlen (filter (λ x, x = 10) l).
Definition words (l : list Z) : Z := zlen (filter (word_start l) (seq 0 (length l))).
Definition in_word (l : list Z) : bool := from_option (λ x, negb (bool_decide (space x))) false (last l).

Lemma s32_succ a : s32 (s32 a + 1) = s32 (a + 1).
Proof. unfold s32. replace ((a + 2 ^ 31) mod 2 ^ 32 - 2 ^ 31 + 1 + 2 ^ 31) with ((a + 2 ^ 31) mod 2 ^ 32 + 1) by lia. rewrite Zplus_mod_idemp_l. do 2 f_equal. lia. Qed.
Lemma s32_idem a : s32 (s32 a) = s32 a.
Proof. apply s32_small. unfold s32. pose proof (Z.mod_pos_bound (a + 2 ^ 31) (2 ^ 32)). lia. Qed.
Lemma strchr_space x : strchr spaces x = bool_decide (space x).
Proof.
  unfold strchr. apply eq_bool_prop_intro. rewrite bool_decide_spec. unfold space. rewrite Is_true_true, existsb_exists. split.
  - intros (y & Hy & ->%Z.eqb_eq). by apply list_elem_of_In.
  - intros H%list_elem_of_In. exists x. split; [exact H|apply Z.eqb_refl].
Qed.
Lemma lines_snoc l x : lines (l ++ [x]) = lines l + if x =? 10 then 1 else 0.
Proof.
  unfold lines, zlen. rewrite filter_app, length_app, filter_cons, filter_nil. destruct (Z.eqb_spec x 10); [rewrite decide_True by done|rewrite decide_False by done]; simpl; lia.
Qed.
Lemma filter_agree {A} (P Q : A → Prop) `{!∀ x, Decision (P x)} `{!∀ x, Decision (Q x)} l : Forall (λ x, P x ↔ Q x) l → filter P l = filter Q l.
Proof. induction 1 as [|x l Hx Hl IH]; [done|]. rewrite !filter_cons, IH. destruct (decide (P x)), (decide (Q x)); tauto. Qed.
Lemma words_snoc l x : words (l ++ [x]) = words l + if negb (bool_decide (space x)) && negb (in_word l) then 1 else 0.
Proof.
  unfold words, zlen. rewrite length_app, Nat.add_1_r, seq_S, filter_app, length_app.
  replace (filter (word_start (l ++ [x])) (seq 0 (length l))) with (filter (word_start l) (seq 0 (length l))).
  2: { apply filter_agree. apply Forall_forall. intros i Hi%elem_of_seq. unfold word_start. rewrite lookup_app_l by lia.
       destruct i as [|j]; [done|]. by rewrite lookup_app_l by lia. }
  enough (word_start (l ++ [x]) (0 + length l) ↔ (negb (bool_decide (space x)) && negb (in_word l)) = true) as Hw.
  { rewrite filter_cons, filter_nil. destruct (negb _ && _); [rewrite decide_True by tauto|rewrite decide_False by (rewrite Hw; done)]; simpl; lia. }
  unfold word_start, in_word. simpl. rewrite lookup_app_r, Nat.sub_diag by lia. simpl.
  rewrite andb_true_iff, !negb_true_iff, bool_decide_eq_false. apply and_iff_compat_l.
  destruct l as [|y l _] using rev_ind; [done|]. rewrite last_snoc, length_app, Nat.add_1_r. simpl.
  rewrite <- (assoc_L (++)), lookup_app_r, Nat.sub_diag by lia. simpl. rewrite negb_false_iff, bool_decide_eq_true. done.
Qed.
Lemma in_word_snoc l x : in_word (l ++ [x]) = negb (bool_decide (space x)).
Proof. unfold in_word. by rewrite last_snoc. Qed.

Definition counted (l : list Z) : counts := Counts (s32 (lines l)) (s32 (words l)) (s32 (zlen l)) (in_word l).
Lemma wc_char_ok l x : wc_char (counted l) x = counted (l ++ [x]).
Proof.
  unfold wc_char, counted. cbn [n_line n_word n_char inword]. rewrite strchr_space, in_word_snoc, lines_snoc, words_snoc, !s32_succ.
  unfold zlen. rewrite length_app. replace (Z.of_nat (length l + length [x])) with (Z.of_nat (length l) + 1) by (simpl; lia).
  destruct (x =? 10), (bool_decide (space x)), (in_word l); simpl; by rewrite ?Z.add_0_r, ?s32_succ.
Qed.
Lemma wc_chars_ok s : ∀ l, fold_left wc_char s (counted l) = counted (l ++ s).
Proof. induction s as [|x s IH]; intros l; simpl; [by rewrite app_nil_r|]. by rewrite wc_char_ok, IH, <- (assoc_L (++)). Qed.
Lemma wc_loop_ok fd ls : ∀ br w buf l, w_fd w !! fd = Some (Stream ls br) → stream_ok (Stream ls br) → length buf = 512%nat →
  ∃ buf', outcome (ITree.iter (wc_body fd) (counted l, buf)) w (with_fd fd (Stream [] br) w) (if br then -1 else 0, counted (l ++ concat ls), buf') ∧ length buf' = 512%nat.
Proof.
  induction ls as [|s ls IH]; intros br w buf l Hw Hok Hb.
  - exists buf. split; [|done]. cbn [concat]. rewrite app_nil_r. apply outcome_done. unfold wc_body.
    eapply outcome_bind; [by apply read_ok|]. cbn. replace (splice 0 [] buf) with buf by done. destruct br; apply outcome_ret.
  - apply Forall_cons in Hok as [Hl Hok]. destruct (take_splice s buf) as [Ht Hs]; [lia|]. set (w1 := with_fd fd (Stream ls br) w).
    destruct (IH br w1 (splice 0 s buf) (l ++ s)) as (buf' & R & Hb'); [simpl; by rewrite lookup_insert_eq|done|lia|]. exists buf'. split; [|done].
    unfold w1 in R. rewrite with_fd_twice in R. cbn [concat]. rewrite (assoc_L (++)). eapply outcome_again; [|exact R].
    unfold wc_body. eapply outcome_bind; [by apply read_ok|]. cbn. rewrite (proj2 (Z.ltb_lt 0 (zlen s))) by (unfold zlen; lia).
    unfold zlen. rewrite Nat2Z.id, Ht, wc_chars_ok. apply outcome_ret.
Qed.

Lemma dec_s32 z : dec (s32 z) = dec z.
Proof. unfold dec. by rewrite s32_idem. Qed.
Definition wc_broken : list Z := chars "wc: read error" ++ NL.
Lemma wc_broken_msg : render (directives (chars "wc: read error" ++ NL)) [] = Some wc_broken.
Proof. reflexivity. Qed.
Definition wc_line (a l : list Z) : list Z := dec (lines l) ++ chars " " ++ dec (words l) ++ chars " " ++ dec (zlen l) ++ chars " " ++ (u8 <$> a) ++ NL.
Lemma wc_line_msg a l : let k := counted l in
  render (directives (chars "%d %d %d %s" ++ NL)) [AInt (n_line k); AInt (n_word k); AInt (n_char k); str a] = Some (wc_line a l).
Proof.
  cbn zeta. cbn [counted n_line n_word n_char]. unfold wc_line. rewrite <- (dec_s32 (lines l)), <- (dec_s32 (words l)), <- (dec_s32 (zlen l)). reflexivity.
Qed.
Definition wc_text (a : list Z) (st : stream) : list Z := if broken st then wc_broken else wc_line a (content st).
Lemma wc_prints : prints (fun a fd => wc fd a) wc_text.
Proof.
  intros a fd [ls br] w buf Hw Hok Hb w1. destruct (wc_loop_ok fd ls br w buf [] Hw Hok Hb) as (buf' & R & Hb'). unfold w1, wc, wc_text, content.
  destruct br; cbn [broken content pieces] in *.
  - eapply halts_then; [exact R|]. cbn beta iota. rewrite neg_test. eapply halts_then; [apply printf_ok, wc_broken_msg|apply halts_exit].
  - exists buf'. split; [|done]. eapply outcome_bind; [exact R|]. cbn beta iota. change (0 <? 0) with false. cbn beta iota.
    eapply outcome_bind; [apply printf_ok, wc_line_msg|apply outcome_ret].
Qed.
Definition wc_missing (a : list Z) : list Z := chars "wc: cannot open " ++ (u8 <$> a) ++ NL.
Lemma wc_missing_msg a : render (directives (chars "wc: cannot open %s" ++ NL)) [str a] = Some (wc_missing a).
Proof. reflexivity. Qed.

(** C32: [wc] prints, for every file in its arguments or for its standard input, how
    many lines, words and bytes it has: the newlines, the places where a byte that
    is no space follows a space or nothing, and the length, however reads cut the
    file into pieces, also in the middle of a word.  A file that cannot be opened or
    read ends it with a message.  In every case it exits. *)
Theorem wc_spec argv w : inputs_ok w →
  ∃ w', halts (wc_main argv) w w' ∧ w_out w' = w_out w ++ (pair 1 <$> command_output wc_missing wc_text w argv).
Proof. exact (command_ok _ _ wc_missing_msg _ _ wc_prints argv w). Qed.

(** The word cut by the two reads counts once. *)
Definition cut_world : world := World ∅ {[ 0 := Stream [chars "one tw"; chars "o" ++ NL ++ chars "three"] false ]} 3 [].
Lemma cut_inputs : inputs_ok cut_world.
Proof.
  split; [done|]. split; [intros a st; cbn [w_file cut_world]; by rewrite lookup_empty|].
  eexists. split; [reflexivity|]. repeat constructor; cbn; lia.
Qed.
Lemma wc_spec_witness : ∃ w', halts (wc_main [chars "wc"]) cut_world w' ∧ w_out w' = pair 1 <$> (chars "1 3 13 " ++ NL).
Proof. exact (wc_spec [chars "wc"] cut_world cut_inputs). Defined.

(** ** [echo] *)

Fixpoint joined (args : list (list Z)) : list Z :=
  match args with
  | [] => []
  | [a] => (u8 <$> a) ++ NL
  | a :: args => (u8 <$> a) ++ chars " " ++ joined args
  end.
Lemma echo_msg a b : render (directives (chars "%s%s")) [str a; str b] = Some ((u8 <$> a) ++ (u8 <$> b) ++ []).
Proof. reflexivity. Qed.
Lemma echo_args_ok args : ∀ w, outcome (echo_args args) w (emit 1 (joined args) w) tt.
Proof.
  induction args as [|a args IH]; intros w; cbn [echo_args joined]; [rewrite emit_nil; apply outcome_ret|].
  destruct args as [|b args].
  - eapply outcome_bind; [apply printf_ok, echo_msg|]. rewrite app_nil_r. apply outcome_ret.
  - rewrite (assoc_L (++)), emit_app. eapply outcome_bind; [apply printf_ok, echo_msg|]. rewrite app_nil_r. apply IH.
Qed.
Lemma echo_ok argv w : halts (echo_main argv) w (emit 1 (joined (drop 1 argv)) w).
Proof. eapply halts_then; [apply echo_args_ok|apply halts_exit]. Qed.

(** ** Formats that fit their arguments, and others *)

Definition fails {A} (t : prog A) (w : world) : Prop := ∃ why, eutt eq (run t w) (stop (Wrong why)).
Lemma fails_undef {A} why w : fails (undef (A:=A) why) w.
Proof. exists why. unfold run, undef. rewrite interp_state_bind, interp_state_trigger. cbn. apply stop_bind. Qed.
Lemma fails_then {A B} (t : prog A) (k : A → prog B) w w1 a : outcome t w w1 a → fails (k a) w1 → fails (ITree.bind t k) w.
Proof. unfold outcome, run. intros H1 [why H2]. exists why. unfold run. rewrite interp_state_bind, H1, bind_ret_l. exact H2. Qed.

Lemma printf_loop_fails fd : ∀ fmt args w, render (directives fmt) args = None → fails (printf_loop fd fmt args false) w.
Proof.
  intros fmt. induction fmt as [fmt IH] using (induction_ltof1 _ length). unfold ltof in IH. intros args w Hr.
  destruct fmt as [|c fmt]; [discriminate Hr|]. cbn [directives printf_loop negb] in *.
  destruct (c =? 37).
  - destruct fmt as [|d fmt]; [discriminate Hr|]. cbn [printf_loop negb]. unfold directive_of in Hr.
    assert (Hgo : ∀ args w, render (directives fmt) args = None → fails (printf_loop fd fmt args false) w) by (intros; apply IH; [simpl; lia|done]).
    clear IH. destruct (d =? 100), ((d =? 120) || (d =? 112)), (d =? 115), (d =? 99); cbn [render] in Hr;
      first [destruct args as [|[z|s] args]; try apply fails_undef | idtac].
    all: try (apply fmap_None in Hr; eapply fails_then; [first [apply print_dec|apply print_hex|apply uputs_ok|apply putc_ok]|by apply Hgo]).
    all: destruct (d =? 37) eqn:Ed; cbn [render] in Hr; apply fmap_None in Hr.
    all: eapply fails_then; [apply putc_ok|]; try (eapply fails_then; [apply putc_ok|]); by apply Hgo.
  - cbn [render] in Hr. apply fmap_None in Hr. eapply fails_then; [apply putc_ok|]. apply IH; [simpl; lia|done].
Qed.

(** C31: [printf] is the printing of a list of directives: literal bytes, [%d] (the
    decimal digits of the number as a signed [int], with a minus sign), [%x] and [%p]
    (the hexadecimal digits of its low 32 bits), [%s] ([(null)] for a null pointer), [%c], [%%], any other letter as it stands, and nothing for a percent
    sign at the end.  It writes exactly the rendered text and returns when the
    arguments have the kinds the format asks for, and reads an argument of the
    wrong kind or past the last one when they do not. *)
Theorem printf_spec fd fmt args w :
  match render (directives fmt) args with
  | Some l => outcome (printf fd fmt args) w (emit fd l w) tt
  | None => fails (printf fd fmt args) w
  end.
Proof. destruct (render (directives fmt) args) eqn:E; [by apply printf_ok|by apply printf_loop_fails]. Qed.

(** ** Numbers *)

Lemma digits_atoi fuel : ∀ x s, 0 ≤ x < 2 ^ 31 → x < 10 ^ Z.of_nat fuel → (0 < fuel)%nat → atoi_loop 0 (reverse (int_digits fuel x 10) ++ s) = atoi_loop x s.
Proof.
  induction fuel as [|fuel IH]; intros x s Hx Hf Hp; [lia|]. cbn [int_digits].
  pose proof (Z.div_mod x 10 ltac:(lia)). pose proof (Z.mod_pos_bound x 10 ltac:(lia)). set (d := x mod 10) in *. set (q := x / 10) in *.
  assert (Hd : digit d = 48 + d) by (unfold digit; by rewrite (proj2 (Z.ltb_lt d 10)) by lia).
  assert (Hstep : atoi_loop q (digit d :: s) = atoi_loop x s).
  { cbn [atoi_loop]. rewrite Hd, (proj2 (Z.leb_le 48 (48 + d))), (proj2 (Z.leb_le (48 + d) 57)) by lia. cbn [andb]. f_equal. rewrite s32_small by lia. lia. }
  destruct (Z.eqb_spec q 0) as [Hq|Hq].
  - rewrite reverse_cons, reverse_nil. simpl app. rewrite <- Hstep, Hq. done.
  - rewrite reverse_cons, <- (assoc_L (++)). simpl app at 2. rewrite <- Hstep. apply IH; [lia| |].
    + rewrite Nat2Z.inj_succ, Z.pow_succ_r in Hf by lia. lia.
    + destruct fuel; [simpl in Hf; lia|lia].
Qed.

(** [atoi] reads back what [printf] prints for [%d]: from the decimal text of a
    number that is not negative, followed by anything that does not start with a
    digit, it returns the number. *)
Theorem atoi_printint z s : 0 ≤ z < 2 ^ 31 → (∀ c t, s = c :: t → ¬ 48 ≤ c ≤ 57) → atoi (int_text z 10 true ++ s) = z.
Proof.
  intros Hz Hs. unfold atoi, int_text. rewrite (proj2 (Z.ltb_ge z 0)) by lia. cbn [andb].
  rewrite u32_small by lia. rewrite app_nil_r, digits_atoi by (simpl; lia).
  destruct s as [|c t]; [done|]. cbn [atoi_loop]. specialize (Hs c t eq_refl). destruct (Z.leb_spec 48 c), (Z.leb_spec c 57); simpl; lia.
Qed.
Lemma atoi_printint_witness : atoi (int_text 2147483647 10 true ++ chars " pages") = 2147483647.
Proof. apply atoi_printint; [lia|]. intros c t E. injection E as <- <-. lia. Defined.
