(* ===== verification/Grep.v ===== *)
(** The user program [grep]: [usr/grep.c], with [strchr] and [memmove] of
    [usr/ulib.c] on its buffer.

    A C string is the list of its bytes before the NUL; incrementing the pointer
    takes the tail.  The buffer of [grep] is an array of 1024 bytes; what [read]
    returns and what [write] was given are the input and the output of the
    program.  Reading the array outside its bounds is undefined. *)

From S2P Require Import Prelude.

(** * The matcher *)

Definition CARET : Z := 94.
Definition DOLLAR : Z := 36.
Definition DOT : Z := 46.
Definition STAR : Z := 42.

(** The loop of [matchstar]; [here] is [matchhere] of the rest of the pattern. *)
Fixpoint matchstar (here : list Z → bool) (c : Z) (text : list Z) : bool :=
  if here text then true else
  match text with
  | [] => false
  | t :: text' => if (t =? c) || (c =? DOT) then matchstar here c text' else false
  end.
Fixpoint matchhere (re text : list Z) {struct re} : bool :=
  match re with
  | [] => true
  | c :: re1 =>
      let step :=
        match text with
        | t :: text' => if (c =? DOT) || (c =? t) then matchhere re1 text' else false
        | [] => false
        end in
      match re1 with
      | d :: re2 => if d =? STAR then matchstar (matchhere re2) c text else step
      | [] => if c =? DOLLAR then match text with [] => true | _ => false end else step
      end
  end.
(** [do ... while ( *text++ != 0)] *)
Fixpoint match_loop (re text : list Z) {struct text} : bool :=
  if matchhere re text then true else
  match text with [] => false | _ :: text' => match_loop re text' end.
Definition match_ (re text : list Z) : bool :=
  match re with
  | c :: re1 => if c =? CARET then matchhere re1 text else match_loop re text
  | [] => match_loop re text
  end.

(** * What a pattern denotes *)

(** A character, any character, a repetition of one of those, the end. *)
Inductive item := Chr (c : Z) | Any | Rep (o : option Z) | Eol.
Fixpoint items (re : list Z) : list item :=
  match re with
  | [] => []
  | c :: re1 =>
      let one := (if c =? DOT then Any else Chr c) :: items re1 in
      match re1 with
      | d :: re2 => if d =? STAR then Rep (if c =? DOT then None else Some c) :: items re2 else one
      | [] => if c =? DOLLAR then [Eol] else one
      end
  end.
Definition allowed (o : option Z) (t : Z) : Prop := match o with Some c => t = c | None => True end.
(** The items match [w] where [rest] follows. *)
Inductive accepts : list item → list Z → list Z → Prop :=
  | acc_nil rest : accepts [] [] rest
  | acc_chr c its w rest : accepts its w rest → accepts (Chr c :: its) (c :: w) rest
  | acc_any t its w rest : accepts its w rest → accepts (Any :: its) (t :: w) rest
  | acc_rep o u its w rest : Forall (allowed o) u → accepts its w rest → accepts (Rep o :: its) (u ++ w) rest
  | acc_eol : accepts [Eol] [] [].
(** Somewhere in the text, or at its beginning when anchored by [^]. *)
Definition matches (re text : list Z) : Prop :=
  match re with
  | c :: re1 => if c =? CARET then ∃ w rest, text = w ++ rest ∧ accepts (items re1) w rest
                else ∃ pre w rest, text = pre ++ w ++ rest ∧ accepts (items re) w rest
  | [] => ∃ pre w rest, text = pre ++ w ++ rest ∧ accepts [] w rest
  end.

(** * Correctness of the matcher *)

(** The items match some beginning of the text. *)
Definition prefix_accepts (its : list item) (text : list Z) : Prop := ∃ w rest, text = w ++ rest ∧ accepts its w rest.

Lemma matchstar_spec here its o c text : (∀ t, here t = true ↔ prefix_accepts its t) →
  o = (if c =? DOT then None else Some c) →
  matchstar here c text = true ↔ prefix_accepts (Rep o :: its) text.
Proof.
  intros Hh Ho. assert (Hal : ∀ t, ((t =? c) || (c =? DOT)) = true ↔ allowed o t).
  { intros t. rewrite Ho. destruct (Z.eqb_spec c DOT); simpl; [rewrite orb_true_r; naive_solver|rewrite orb_false_r; lia]. }
  assert (Hone : ∀ t, prefix_accepts (Rep o :: its) t ↔ prefix_accepts its t ∨ ∃ a t', t = a :: t' ∧ allowed o a ∧ prefix_accepts (Rep o :: its) t').
  { intros t. split.
    - intros (w & rest & -> & Ha). inversion Ha as [| | |? u ? w' ? Hu Hw|]; subst. destruct u as [|a u].
      + left. exists w', rest. done.
      + right. apply Forall_cons in Hu as [Ha1 Hu]. exists a, (u ++ w' ++ rest). split; [simpl; by rewrite (assoc_L (++))|].
        split; [done|]. exists (u ++ w'), rest. split; [by rewrite (assoc_L (++))|by constructor].
    - intros [(w & rest & -> & Hw)|(a & t' & -> & Ha & w & rest & -> & Hw)].
      + exists w, rest. split; [done|]. change w with ([] ++ w). by constructor.
      + inversion Hw as [| | |? u ? w' ? Hu Hw'|]; subst. exists ((a :: u) ++ w'), rest. split; [done|]. constructor; [by constructor|done]. }
  induction text as [|t text IH]; simpl; rewrite Hone.
  - destruct (here []) eqn:E; [apply Hh in E; naive_solver|]. assert (¬ prefix_accepts its []) by (rewrite <- Hh; congruence). naive_solver.
  - destruct (here (t :: text)) eqn:E; [apply Hh in E; naive_solver|].
    assert (Hn : ¬ prefix_accepts its (t :: text)) by (rewrite <- Hh; congruence). specialize (Hal t).
    destruct ((t =? c) || (c =? DOT)); [rewrite IH; naive_solver|]. naive_solver.
Qed.

Lemma matchhere_spec re : ∀ text, matchhere re text = true ↔ prefix_accepts (items re) text.
Proof.
  induction re as [re IH] using (induction_ltof1 _ length). unfold ltof in IH. intros text.
  destruct re as [|c re1]; [simpl; split; [intros _; exists [], text; split; [done|constructor]|done]|].
  assert (Hstep : (match text with t :: text' => if (c =? DOT) || (c =? t) then matchhere re1 text' else false | [] => false end) = true ↔
    prefix_accepts ((if c =? DOT then Any else Chr c) :: items re1) text).
  { destruct text as [|t text].
    - split; [done|]. intros (w & rest & E & Ha). destruct (c =? DOT); inversion Ha; subst; done.
    - specialize (IH re1 ltac:(simpl; lia) text). destruct (Z.eqb_spec c DOT) as [->|Hc]; simpl.
      + rewrite IH. split; intros (w & rest & E & Ha).
        * subst text. exists (t :: w), rest. split; [done|by constructor].
        * inversion Ha; subst. simplify_eq/=. by exists w0, rest.
      + destruct (Z.eqb_spec c t) as [->|Ht].
        * rewrite IH. split; intros (w & rest & E & Ha).
          -- subst text. exists (t :: w), rest. split; [done|by constructor].
          -- inversion Ha; subst. simplify_eq/=. by exists w0, rest.
        * split; [done|]. intros (w & rest & E & Ha). inversion Ha; subst. simplify_eq/=. }
  cbn [matchhere items]. destruct re1 as [|d re2].
  - destruct (Z.eqb_spec c DOLLAR); [|exact Hstep]. split.
    + destruct text; [|done]. intros _. exists [], []. split; [done|constructor].
    + intros (w & rest & -> & Ha). inversion Ha; subst. done.
  - destruct (Z.eqb_spec d STAR); [|exact Hstep]. apply matchstar_spec; [|done]. apply IH. simpl. lia.
Qed.

Lemma match_loop_spec re text : match_loop re text = true ↔ ∃ pre w rest, text = pre ++ w ++ rest ∧ accepts (items re) w rest.
Proof.
  assert (Hs : ∀ t, (∃ pre w rest, t = pre ++ w ++ rest ∧ accepts (items re) w rest) ↔ ∃ pre t', t = pre ++ t' ∧ prefix_accepts (items re) t')
    by (unfold prefix_accepts; naive_solver).
  rewrite Hs. clear Hs. induction text as [|t text IH]; simpl.
  - destruct (matchhere re []) eqn:E; [apply matchhere_spec in E; split; [intros _; by exists [], []|done]|].
    split; [done|]. intros (pre & t' & E' & Ha). symmetry in E'. apply app_nil in E' as [-> ->]. apply matchhere_spec in Ha. congruence.
  - destruct (matchhere re (t :: text)) eqn:E; [apply matchhere_spec in E; split; [intros _; by exists [], (t :: text)|done]|].
    rewrite IH. split; intros (pre & t' & E' & Ha).
    + exists (t :: pre), t'. by rewrite E'.
    + destruct pre as [|a pre]; [|simplify_eq/=; by exists pre, t']. simpl in E'. subst t'. apply matchhere_spec in Ha. congruence.
Qed.

(** C35: The recursive matcher finds a match exactly when some part of the text (its
    beginning when the pattern starts with [^]) is in the language the pattern
    denotes, for every pattern and text. *)
Theorem match_spec re text : match_ re text = true ↔ matches re text.
Proof.
  unfold match_, matches. destruct re as [|c re1]; [apply (match_loop_spec [] text)|].
  destruct (c =? CARET); [apply matchhere_spec|apply match_loop_spec].
Qed.

(** * The program *)

Record gst := Gst {
  g_buf : list Z;             (* char buf[1024] *)
  g_in : list (list Z);       (* what the next calls of read find *)
  g_out : list Z;             (* what write was given *)
}.
Definition set_g_buf v r := Gst v (g_in r) (g_out r).
Definition set_g_in v r := Gst (g_buf r) v (g_out r).
Definition set_g_out v r := Gst (g_buf r) (g_in r) v.
Definition NL : Z := 10.
Definition BUFSZ : Z := 1024.

(** [read(fd, buf + m, n)]: at most [n] bytes of what is there; 0 at the end. *)
Definition g_read (m n : Z) : M gst Z :=
  let* inp := gets g_in in
  match inp with
  | [] => ret 0
  | c :: inp' =>
      let k := Z.min n (zlen c) in
      if k <=? 0 then ret 0 else
      if (m <? 0) || (BUFSZ <? m + k) then undef "read outside buf" else
      modify (fun s => set_g_buf (splice (Z.to_nat m) (take (Z.to_nat k) c) (g_buf s)) s) ;;
      modify (set_g_in (match drop (Z.to_nat k) c with [] => inp' | c' => c' :: inp' end)) ;;
      ret k
  end.
(** [strchr(p, c)] in the buffer; every step moves on by a byte. *)
Fixpoint g_strchr (fuel : nat) (p c : Z) : M gst (option Z) :=
  match fuel with
  | O => out_of_fuel
  | S fuel =>
      let* b := gets g_buf in
      let* x := must "buf" (znth b p) in
      if x =? 0 then ret None else if x =? c then ret (Some p) else g_strchr fuel (p + 1) c
  end.
(** The string at the beginning of [l]; [None] when it does not end. *)
Fixpoint cstring (l : list Z) : option (list Z) :=
  match l with
  | [] => None
  | x :: l => if x =? 0 then Some [] else cons x <$> cstring l
  end.
(** The inner loop; returns [p]. *)
Fixpoint grep_lines (fuel : nat) (pattern : list Z) (p : Z) : M gst Z :=
  match fuel with
  | O => out_of_fuel
  | S fuel =>
      let* q := g_strchr (Z.to_nat BUFSZ + 1) p NL in
      match q with
      | None => ret p
      | Some q =>
          modify (fun s => set_g_buf (zupd q 0 (g_buf s)) s) ;;
          let* b := gets g_buf in
          let* line := must "buf" (cstring (drop (Z.to_nat p) b)) in
          when (match_ pattern line) (
            modify (fun s => set_g_buf (zupd q NL (g_buf s)) s) ;;
            modify (fun s => set_g_out (g_out s ++ slice (Z.to_nat p) (Z.to_nat (q + 1 - p)) (g_buf s)) s)) ;;
          grep_lines fuel pattern (q + 1)
      end
  end.
(** [memmove(buf, p, m)]: byte by byte from the front. *)
Fixpoint g_move (n : nat) (d s : Z) : M gst unit :=
  match n with
  | O => ret tt
  | S n =>
      let* b := gets g_buf in
      let* x := must "buf" (znth b s) in
      modify (fun t => set_g_buf (zupd d x (g_buf t)) t) ;;
      g_move n (d + 1) (s + 1)
  end.
Fixpoint grep_loop (fuel : nat) (pattern : list Z) (m : Z) : M gst unit :=
  match fuel with
  | O => out_of_fuel
  | S fuel =>
      let* n := g_read m (BUFSZ - m) in
      if 0 <? n then
        let m := m + n in
        let* p := grep_lines (Z.to_nat BUFSZ + 1) pattern 0 in
        let m := if p =? 0 then 0 else m in
        if 0 <? m then
          let m := m - p in
          g_move (Z.to_nat m) 0 p ;;
          grep_loop fuel pattern m
        else grep_loop fuel pattern m
      else ret tt
  end.
(** Every round reads at least a byte. *)
Definition grep (pattern : list Z) : M gst unit :=
  let* inp := gets g_in in grep_loop (S (length (concat inp))) pattern 0.

(** [main]: the files [open] finds, with what reads of them return; the state above
    holds the input of the descriptor in use and what was written to descriptor 1. *)
Record gms := Gms {
  gm_g : gst;
  gm_files : gmap (list Z) (list (list Z));
  gm_err : list Z;            (* what was written to descriptor 2 *)
}.
#[export] Program Instance lens_gm_g : Lens gms gst :=
  {| lget := gm_g; lset := fun g r => Gms g (gm_files r) (gm_err r) |}.
Solve All Obligations with (by intros; repeat match goal with r : gms |- _ => destruct r end).
(** The loop over the arguments; [buf] keeps what earlier files left in it. *)
Fixpoint grep_files (pattern : list Z) (args : list (list Z)) : M gms unit :=
  match args with
  | [] => ret tt
  | a :: args =>
      let* F := gets gm_files in
      match F !! a with
      | None => zoom (modify (fun s => set_g_out (g_out s ++ chars "grep: cannot open " ++ a ++ [NL]) s))
      | Some inp =>
          zoom (modify (set_g_in inp)) ;;
          zoom (grep pattern) ;;
          grep_files pattern args
      end
  end.
Definition grep_main (argv : list (list Z)) : M gms unit :=
  match argv with
  | [] | [_] => modify (fun r => Gms (gm_g r) (gm_files r) (gm_err r ++ chars "usage: grep pattern [file ...]" ++ [NL]))
  | [_; pattern] => zoom (grep pattern)
  | _ :: pattern :: args => grep_files pattern args
  end.

(** * Correctness of the program *)

(** The lines of a text: the pieces that end in a newline. *)
Fixpoint lines_from (cur l : list Z) : list (list Z) :=
  match l with
  | [] => []
  | x :: l => if x =? NL then cur :: lines_from [] l else lines_from (cur ++ [x]) l
  end.
Definition text_lines (l : list Z) : list (list Z) := lines_from [] l.
Definition selected (pattern l : list Z) : list Z :=
  concat ((λ line, if match_ pattern line then line ++ [NL] else []) <$> text_lines l).
Definition plain (l : list Z) : Prop := Forall (λ x, x ≠ 0) l.
Definition noline (l : list Z) : Prop := Forall (λ x, x ≠ 0 ∧ x ≠ NL) l.

(** A text is a line and the rest, or has no line. *)
Lemma split_line l : plain l → (noline l ∧ text_lines l = []) ∨
  ∃ a l', l = a ++ NL :: l' ∧ noline a ∧ text_lines l = a :: text_lines l'.
Proof.
  unfold text_lines. assert (H : ∀ cur, plain l → (noline l ∧ lines_from cur l = []) ∨
    ∃ a l', l = a ++ NL :: l' ∧ noline a ∧ lines_from cur l = (cur ++ a) :: lines_from [] l').
  { induction l as [|x l IH]; intros cur Hp; [left; split; [constructor|done]|]. apply Forall_cons in Hp as [Hx Hp].
    simpl. destruct (Z.eqb_spec x NL) as [->|Hne].
    - right. exists [], l. split; [done|]. split; [constructor|]. by rewrite app_nil_r.
    - destruct (IH (cur ++ [x]) Hp) as [[Hn E]|(a & l' & -> & Hn & E)].
      + left. split; [by constructor|done].
      + right. exists (x :: a), l'. split; [done|]. split; [by constructor|]. by rewrite E, <- (assoc_L (++)). }
  intros Hp. apply (H [] Hp).
Qed.
Lemma cstring_app a l : plain a → cstring (a ++ 0 :: l) = Some a.
Proof. induction 1 as [|x a Hx Ha IH]; [done|]. simpl. destruct (Z.eqb_spec x 0); [done|]. by rewrite IH. Qed.
Lemma noline_plain l : noline l → plain l.
Proof. intros H. eapply Forall_impl; [exact H|]. naive_solver. Qed.

(** The scan stops at the first NUL or newline. *)
Lemma strchr_ok a : ∀ fuel s pre x l, g_buf s = pre ++ a ++ x :: l → noline a → x = 0 ∨ x = NL → (length a < fuel)%nat →
  g_strchr fuel (zlen pre) NL s = Ok (if x =? 0 then None else Some (zlen (pre ++ a))) s.
Proof.
  induction a as [|y a IH]; intros fuel s pre x l Hb Hn Hx Hf; destruct fuel as [|fuel]; simpl in Hf; try lia; cbn [g_strchr].
  - rewrite (bind_ok _ _ _ (g_buf s) s) by done. unfold znth. destruct (Z.leb_spec 0 (zlen pre)); [|unfold zlen in *; lia].
    rewrite Hb, lookup_app_r by (unfold zlen; lia). replace (Z.to_nat (zlen pre) - length pre)%nat with 0%nat by (unfold zlen; lia).
    rewrite (bind_ok _ _ _ x s) by done. rewrite app_nil_r. destruct Hx as [->| ->]; done.
  - apply Forall_cons in Hn as [[Hy1 Hy2] Hn]. rewrite (bind_ok _ _ _ (g_buf s) s) by done. unfold znth.
    destruct (Z.leb_spec 0 (zlen pre)); [|unfold zlen in *; lia].
    rewrite Hb, lookup_app_r by (unfold zlen; lia). replace (Z.to_nat (zlen pre) - length pre)%nat with 0%nat by (unfold zlen; lia).
    rewrite (bind_ok _ _ _ y s) by done. destruct (Z.eqb_spec y 0), (Z.eqb_spec y NL); try done.
    replace (zlen pre + 1) with (zlen (pre ++ [y])) by (unfold zlen; rewrite length_app; simpl; lia).
    rewrite (IH fuel s (pre ++ [y]) x l); [|by rewrite <- (assoc_L (++))|done|done|lia]. by rewrite <- (assoc_L (++)).
Qed.

Lemma selected_cons pattern l a l' : text_lines l = a :: text_lines l' →
  selected pattern l = (if match_ pattern a then a ++ [NL] else []) ++ selected pattern l'.
Proof. unfold selected. by intros ->. Qed.
Lemma zupd_mid (pre : list Z) x l y : zupd (zlen pre) y (pre ++ x :: l) = pre ++ y :: l.
Proof.
  unfold zupd. destruct (Z.leb_spec 0 (zlen pre)); [|unfold zlen in *; lia].
  replace (Z.to_nat (zlen pre)) with (length pre + 0)%nat by (unfold zlen; lia). by rewrite insert_app_r.
Qed.

Lemma grep_lines_ok pattern n : ∀ fuel s pre c z, (length c < n)%nat → (n ≤ fuel)%nat → (n ≤ 1024)%nat → plain c → g_buf s = pre ++ c ++ 0 :: z →
  ∃ p s', grep_lines fuel pattern (zlen pre) s = Ok p s' ∧ g_out s' = g_out s ++ selected pattern c ∧ g_in s' = g_in s ∧
    length (g_buf s') = length (g_buf s) ∧ zlen pre ≤ p ≤ zlen (pre ++ c).
Proof.
  induction n as [|n IH]; intros fuel s pre c z Hc Hf Hn Hp Hb; [lia|]. destruct fuel as [|fuel]; [lia|]. cbn [grep_lines].
  destruct (split_line c Hp) as [[Hno E]|(a & c' & -> & Hno & E)].
  - rewrite (bind_ok _ _ _ _ _ (strchr_ok c (Z.to_nat BUFSZ + 1) s pre 0 z Hb Hno (or_introl eq_refl) ltac:(unfold BUFSZ; lia))). cbn [Z.eqb].
    exists (zlen pre), s. split; [done|]. unfold selected. rewrite E. simpl. rewrite app_nil_r.
    split; [done|]. split; [done|]. split; [done|]. unfold zlen. rewrite length_app. lia.
  - rewrite length_app in Hc. simpl in Hc. rewrite <- (assoc_L (++)) in Hb. simpl in Hb.
    rewrite (bind_ok _ _ _ _ _ (strchr_ok a (Z.to_nat BUFSZ + 1) s pre NL _ Hb Hno (or_intror eq_refl) ltac:(unfold BUFSZ; lia))).
    cbn [Z.eqb NL]. set (q := zlen (pre ++ a)). set (s1 := set_g_buf (pre ++ a ++ 0 :: c' ++ 0 :: z) s).
    rewrite (bind_ok _ _ _ tt s1). 2: { unfold modify. rewrite Hb, (assoc_L (++)). unfold q. by rewrite zupd_mid, <- (assoc_L (++)). }
    rewrite (bind_ok _ _ _ (g_buf s1) s1) by done. rewrite (bind_ok _ _ _ a s1).
    2: { unfold s1. cbn [g_buf set_g_buf]. replace (Z.to_nat (zlen pre)) with (length pre) by (unfold zlen; lia).
         by rewrite drop_app_length, cstring_app by (by apply noline_plain). }
    set (s2 := if match_ pattern a then set_g_out (g_out s ++ a ++ [NL]) (set_g_buf (pre ++ a ++ NL :: c' ++ 0 :: z) s) else s1).
    rewrite (bind_ok _ _ _ tt s2).
    2: { unfold s2. destruct (match_ pattern a); [|done]. rewrite when_true. rewrite (bind_ok _ _ _ tt (set_g_buf (pre ++ a ++ NL :: c' ++ 0 :: z) s)).
         2: { unfold modify, s1. cbn [g_buf set_g_buf]. rewrite (assoc_L (++)). unfold q. by rewrite zupd_mid, <- (assoc_L (++)). }
         unfold modify. cbn [g_buf g_out set_g_buf set_g_out]. do 3 f_equal. unfold slice.
         replace (Z.to_nat (zlen pre)) with (length pre) by (unfold zlen; lia). rewrite drop_app_length.
         replace (Z.to_nat (q + 1 - zlen pre)) with (length (a ++ [NL])) by (unfold q, zlen; rewrite !length_app; simpl; lia).
         change (a ++ NL :: c' ++ 0 :: z) with (a ++ [NL] ++ c' ++ 0 :: z). rewrite (assoc_L (++) a). by rewrite take_app_length. }
    apply Forall_app in Hp as [_ Hp]. apply Forall_cons in Hp as [_ Hp].
    assert (Hb2 : ∃ x, g_buf s2 = (pre ++ a ++ [x]) ++ c' ++ 0 :: z).
    { unfold s2, s1. destruct (match_ pattern a); cbn [g_buf set_g_buf set_g_out]; [exists NL|exists 0]; by rewrite <- !(assoc_L (++)). }
    destruct Hb2 as [x Hb2]. destruct (IH fuel s2 (pre ++ a ++ [x]) c' z ltac:(lia) ltac:(lia) ltac:(lia) Hp Hb2) as (p & s' & R & Ho & Hi & Hl & Hr).
    exists p, s'. replace (zlen (pre ++ a ++ [x])) with (q + 1) in * by (unfold q, zlen; rewrite !length_app; simpl; lia).
    split; [done|]. rewrite Ho, Hi, Hl, (selected_cons _ _ _ _ E). split; [|split; [|split]].
    + unfold s2. destruct (match_ pattern a); cbn [g_out set_g_out set_g_buf s1]; [by rewrite <- !(assoc_L (++))|done].
    + unfold s2. by destruct (match_ pattern a).
    + rewrite Hb2, Hb. rewrite !length_app. simpl. rewrite !length_app. simpl. lia.
    + unfold q, zlen in *. rewrite !length_app in *. simpl in *. rewrite ?length_app in *. simpl in *. lia.
Qed.
Lemma g_move_ok n : ∀ d p s, 0 ≤ d → 0 ≤ p → p + Z.of_nat n ≤ zlen (g_buf s) →
  ∃ s', g_move n d p s = Ok tt s' ∧ g_out s' = g_out s ∧ g_in s' = g_in s.
Proof.
  induction n as [|n IH]; intros d p s Hd Hp Hl; [by exists s|]. cbn [g_move].
  destruct (lookup_lt_is_Some_2 (g_buf s) (Z.to_nat p)) as [x Hx]; [unfold zlen in Hl; lia|].
  rewrite (bind_ok _ _ _ (g_buf s) s) by done. unfold znth. destruct (Z.leb_spec 0 p); [|lia]. rewrite Hx.
  rewrite (bind_ok _ _ _ x s) by done. rewrite (bind_ok _ _ _ tt (set_g_buf (zupd d x (g_buf s)) s)) by done.
  destruct (IH (d + 1) (p + 1) (set_g_buf (zupd d x (g_buf s)) s)) as (s' & R & Ho & Hi); [lia|lia| |by exists s'].
  cbn [g_buf set_g_buf]. rewrite zlen_zupd. lia.
Qed.

(** When the input arrives in one piece that leaves room in the buffer, [grep]
    writes exactly the lines that match, in order. *)
Theorem grep_spec pattern c s : g_buf s = replicate 1024 0 → g_in s = [c] → plain c → 0 < zlen c < 1024 →
  ∃ s', grep pattern s = Ok tt s' ∧ g_out s' = g_out s ++ selected pattern c.
Proof.
  intros Hb Hi Hp Hc. unfold grep. rewrite (bind_ok _ _ _ [c] s) by (by unfold gets; rewrite Hi). cbn [concat grep_loop].
  set (s1 := Gst (c ++ replicate (1024 - length c) 0) [] (g_out s)). unfold zlen in Hc.
  rewrite (bind_ok _ _ _ (zlen c) s1).
  2: { unfold g_read. rewrite (bind_ok _ _ _ [c] s) by (by unfold gets; rewrite Hi). change (BUFSZ - 0) with 1024.
       replace (Z.min 1024 (zlen c)) with (zlen c) by (unfold zlen; lia). unfold BUFSZ, zlen.
       destruct (Z.leb_spec (Z.of_nat (length c)) 0); [lia|]. destruct (Z.ltb_spec 1024 (0 + Z.of_nat (length c))); [lia|].
       unfold bind, modify, ret, splice. simpl. rewrite Hb, Nat2Z.id, drop_ge, take_ge by lia.
       change (Z.to_nat 0) with 0%nat. cbn [take app Nat.add].
       replace (drop (length c) (replicate 1024 0)) with (replicate (1024 - length c) 0) by (by rewrite drop_replicate). done. }
  destruct (Z.ltb_spec 0 (zlen c)); [|unfold zlen in *; lia].
  destruct (grep_lines_ok pattern (S (length c)) (Z.to_nat BUFSZ + 1) s1 [] c (replicate (1023 - length c) 0)) as (p & s2 & R & Ho & Hi2 & Hl & Hr);
    try (done || (unfold BUFSZ; lia)).
  { cbn [g_buf s1]. simpl. f_equal. replace (1024 - length c)%nat with (S (1023 - length c)) by lia. done. }
  change (zlen []) with 0 in R. rewrite (bind_ok _ _ _ _ _ R). simpl in Hr, Hi2, Ho. change (zlen []) with 0 in Hr.
  assert (Hend : ∀ m t fuel, g_in t = [] → grep_loop (S fuel) pattern m t = Ok tt t).
  { intros m t fuel Ht. cbn [grep_loop]. rewrite (bind_ok _ _ _ 0 t); [done|].
    unfold g_read. by rewrite (bind_ok _ _ _ [] t) by (by unfold gets; rewrite Ht). }
  rewrite app_nil_r. destruct (length c) as [|k] eqn:Ek; [lia|]. 
  assert (Hl2 : zlen (g_buf s2) = 1024). { unfold zlen. rewrite Hl. unfold s1. cbn [g_buf]. rewrite length_app, length_replicate. lia. }
  destruct (Z.eqb_spec p 0) as [->|].
  - cbn [Z.ltb Z.compare]. exists s2. split; [by apply Hend|done].
  - destruct (Z.ltb_spec 0 (0 + zlen c)); [|lia].
    destruct (g_move_ok (Z.to_nat (0 + zlen c - p)) 0 p s2) as (s3 & R3 & Ho3 & Hi3); [lia|lia|unfold zlen in *; lia|].
    rewrite (bind_ok _ _ _ _ _ R3). exists s3. split; [apply Hend; congruence|congruence].
Qed.
Lemma grep_spec_witness : ∃ s', grep [97; STAR; DOLLAR] (Gst (replicate 1024 0) [[98; 97; NL; 98; NL; 97; 97; NL]] []) = Ok tt s' ∧
  g_out s' = [98; 97; NL; 98; NL; 97; 97; NL].
Proof.
  destruct (grep_spec [97; STAR; DOLLAR] [98; 97; NL; 98; NL; 97; 97; NL] (Gst (replicate 1024 0) [[98; 97; NL; 98; NL; 97; 97; NL]] []))
    as (s' & R & Ho).
  - reflexivity.
  - reflexivity.
  - unfold plain. repeat constructor; discriminate.
  - vm_compute. split; reflexivity.
  - exists s'. split; [exact R|]. rewrite Ho. vm_compute. reflexivity.
Defined.

(** [grep] never ends the buffer with a NUL, so bytes of an earlier read are
    scanned again: the input [a\nbcdefgh\nxy], [z\n], [w\n] makes it write a line
    [defgh] that is not in the input, after which it reads in front of the
    buffer. *)
Theorem grep_stale : ∃ s', grep [] (Gst (replicate 1024 0)
    [[97; NL; 98; 99; 100; 101; 102; 103; 104; NL; 120; 121]; [122; NL]; [119; NL]] []) = Undef "read outside buf" s' ∧
  g_out s' = [97; NL; 98; 99; 100; 101; 102; 103; 104; NL; 120; 121; 122; NL; 100; 101; 102; 103; 104; NL].
Proof. eexists. split; vm_compute; reflexivity. Qed.
