(* ===== verification/Sh.v ===== *)
(** The shell: [usr/sh.c], with [strchr], [strlen] and [gets] of [usr/ulib.c].

    A pointer into the command line is the rest of the line it points to, so that
    [s < es] is that the rest is not empty.  The parser's state is the pointer
    [*ps].  A tree node that the code takes from [malloc] is a constructor; the
    code does not test for a failing [malloc].  [runcmd] and [main] are trees of the system calls
    they make. *)

From S2P Require Import Prelude.

(** * Commands *)

(** The five kinds of [struct cmd]; [W] is the type of the words. *)
Inductive cmd (W : Type) : Type :=
| EXEC (argv : list W)
| REDIR (c : cmd W) (file : W) (mode fd : Z)
| PIPE (left right : cmd W)
| LIST (left right : cmd W)
| BACK (c : cmd W).
Arguments EXEC {W} argv.
Arguments REDIR {W} c file mode fd.
Arguments PIPE {W} left right.
Arguments LIST {W} left right.
Arguments BACK {W} c.
Definition MAXARGS : Z := 10.
Definition O_RDONLY : Z := 0.
Definition O_WRONLY : Z := 1.
Definition O_RDWR : Z := 2.
Definition O_CREATE : Z := 512.

Fixpoint cmd_map {V W} (f : V → W) (c : cmd V) : cmd W :=
  match c with
  | EXEC argv => EXEC (f <$> argv)
  | REDIR c file mode fd => REDIR (cmd_map f c) (f file) mode fd
  | PIPE l r => PIPE (cmd_map f l) (cmd_map f r)
  | LIST l r => LIST (cmd_map f l) (cmd_map f r)
  | BACK c => BACK (cmd_map f c)
  end.
Fixpoint cmd_words {W} (c : cmd W) : list W :=
  match c with
  | EXEC argv => argv
  | REDIR c file _ _ => cmd_words c ++ [file]
  | PIPE l r | LIST l r => cmd_words l ++ cmd_words r
  | BACK c => cmd_words c
  end.

(** * Parsing *)

Definition whitespace : list Z := chars " " ++ [9; 13; 10; 11].
Definition symbols : list Z := chars "<|>&;()".
(** [strchr(set, c)], as a condition. *)
Definition strchr (set : list Z) (c : Z) : bool := existsb (Z.eqb c) set.
Definition wordchar (c : Z) : bool := negb (strchr whitespace c) && negb (strchr symbols c).

(** A token: the pointers [q] and [eq]. *)
Definition word : Type := list Z * list Z.
Abbreviation P := (M (list Z)).

Fixpoint skip (f : Z → bool) (s : list Z) : list Z :=
  match s with [] => [] | c :: s' => if f c then skip f s' else s end.
Definition skipws : list Z → list Z := skip (strchr whitespace).
(** The [switch] of [gettoken]: the token's kind and the pointer after it. *)
Definition scan_token (s : list Z) : Z * list Z :=
  match s with
  | [] => (0, [])
  | c :: s1 =>
      if strchr (chars "|();&<") c then (c, s1) else
      if c =? 62 then
        match s1 with
        | d :: s2 => if d =? 62 then (43, s2) else (c, s1)
        | [] => (c, s1)
        end
      else (97, skip wordchar s)
  end.
Definition gettoken : P (Z * word) := fun s0 =>
  let s := skipws s0 in
  let '(r, s') := scan_token s in
  Ok (r, (s, s')) (skipws s').
Definition peek (toks : list Z) : P bool := fun s0 =>
  let s := skipws s0 in
  Ok (match s with [] => false | c :: _ => strchr toks c end) s.

Definition execcmd : cmd word := EXEC [].
Definition redircmd (c : cmd word) (file : word) (mode fd : Z) : cmd word := REDIR c file mode fd.
Definition pipecmd (l r : cmd word) : cmd word := PIPE l r.
Definition listcmd (l r : cmd word) : cmd word := LIST l r.
Definition backcmd (c : cmd word) : cmd word := BACK c.

(** The loop of [parseredirs]; every step takes two tokens. *)
Fixpoint redirs_loop (fuel : nat) (c : cmd word) : P (cmd word) :=
  match fuel with
  | O => out_of_fuel
  | S fuel =>
      let* b := peek (chars "<>") in
      if b then
        let* t := gettoken in
        let* w := gettoken in
        panic_if (negb (w.1 =? 97)) "missing file for redirection" ;;
        redirs_loop fuel
          (if t.1 =? 60 then redircmd c w.2 O_RDONLY 0
           else if t.1 =? 62 then redircmd c w.2 (Z.lor O_WRONLY O_CREATE) 1
           else if t.1 =? 43 then redircmd c w.2 (Z.lor O_WRONLY O_CREATE) 1
           else c)
      else ret c
  end.
Definition parseredirs (c : cmd word) : P (cmd word) :=
  let* s := gets (fun s => s) in redirs_loop (S (length s)) c.

(** [cmd->argv[argc] = q; cmd->eargv[argc] = eq], where [cmd] is the [execcmd]
    below the redirections collected in [ret]. *)
Fixpoint put_arg (w : word) (c : cmd word) : cmd word :=
  match c with
  | EXEC argv => EXEC (argv ++ [w])
  | REDIR c f m fd => REDIR (put_arg w c) f m fd
  | c => c
  end.
(** The loop of [parseexec]. *)
Fixpoint args_loop (fuel : nat) (argc : Z) (c : cmd word) : P (cmd word) :=
  match fuel with
  | O => out_of_fuel
  | S fuel =>
      let* b := peek (chars "|)&;") in
      if b then ret c else
      let* t := gettoken in
      if t.1 =? 0 then ret c else
      panic_if (negb (t.1 =? 97)) "syntax" ;;
      (if MAXARGS <=? argc then undef "argv" else ret tt) ;;
      let argc := argc + 1 in
      panic_if (MAXARGS <=? argc) "too many args" ;;
      let* c := parseredirs (put_arg t.2 c) in
      args_loop fuel argc c
  end.
(** The loop over [&] in [parseline]. *)
Fixpoint back_loop (fuel : nat) (c : cmd word) : P (cmd word) :=
  match fuel with
  | O => out_of_fuel
  | S fuel =>
      let* b := peek (chars "&") in
      if b then gettoken ;; back_loop fuel (backcmd c) else ret c
  end.

(** The four functions of the grammar; [n] bounds the depth of their calls. *)
Fixpoint parseline (n : nat) : P (cmd word) :=
  match n with
  | O => out_of_fuel
  | S n =>
      let* c := parsepipe n in
      let* s := gets (fun s => s) in
      let* c := back_loop (S (length s)) c in
      let* b := peek (chars ";") in
      if b then gettoken ;; let* r := parseline n in ret (listcmd c r) else ret c
  end
with parsepipe (n : nat) : P (cmd word) :=
  match n with
  | O => out_of_fuel
  | S n =>
      let* c := parseexec n in
      let* b := peek (chars "|") in
      if b then gettoken ;; let* r := parsepipe n in ret (pipecmd c r) else ret c
  end
with parseexec (n : nat) : P (cmd word) :=
  match n with
  | O => out_of_fuel
  | S n =>
      let* b := peek (chars "(") in
      if b then parseblock n else
      let* c := parseredirs execcmd in
      let* s := gets (fun s => s) in
      args_loop (S (length s)) 0 c
  end
with parseblock (n : nat) : P (cmd word) :=
  match n with
  | O => out_of_fuel
  | S n =>
      let* b := peek (chars "(") in
      panic_if (negb b) "parseblock" ;;
      gettoken ;;
      let* c := parseline n in
      let* b := peek (chars ")") in
      panic_if (negb b) "syntax - missing )" ;;
      gettoken ;;
      parseredirs c
  end.

(** [nulterminate] on the line of length [len]: a NUL at the end of every word. *)
Definition nul_at (len : nat) (eq : list Z) (buf : list Z) : list Z := <[(len - length eq)%nat := 0]> buf.
Fixpoint nulterminate (len : nat) (c : cmd word) (buf : list Z) : list Z :=
  match c with
  | EXEC argv => foldl (fun b w => nul_at len w.2 b) buf argv
  | REDIR c file _ _ => nul_at len file.2 (nulterminate len c buf)
  | PIPE l r | LIST l r => nulterminate len r (nulterminate len l buf)
  | BACK c => nulterminate len c buf
  end.
(** The string a word's pointer [q] points to in [buf]. *)
Definition string_at (len : nat) (buf : list Z) (w : word) : list Z := str_of (drop (len - length w.1) buf).

(** A tree and the line after [nulterminate], or what was written to file 2
    before the exit. *)
Inductive parsed := Parsed (c : cmd word) (buf : list Z) | Died (msg : list Z) | Stuck.
Definition parse_depth (s : list Z) : nat := 4 * length s + 4.
Definition parsecmd (s : list Z) : parsed :=
  match parseline (parse_depth s) s with
  | Ok c s1 =>
      let s2 := skipws s1 in
      match s2 with
      | [] => Parsed c (nulterminate (length s) c (s ++ [0]))
      | _ => Died (chars "leftovers: " ++ s2 ++ [10] ++ chars "syntax" ++ [10])
      end
  | Panic msg _ => Died (chars msg ++ [10])
  | _ => Stuck
  end.

(** ** Every line is parsed or refused *)

(** [x] is a maximal word of [line]: letters only, and no letter after it. *)
Definition stop (s : list Z) : Prop := match s with [] => True | c :: _ => wordchar c = false end.
Definition token_of (line : list Z) (w : word) : Prop :=
  ∃ pre x, line = pre ++ x ++ w.2 ∧ w.1 = x ++ w.2 ∧ x ≠ [] ∧ Forall (fun c => wordchar c = true) x ∧ stop w.2.
Definition tokens_of (line : list Z) (c : cmd word) : Prop := Forall (token_of line) (cmd_words c).

(** An outcome that moved the pointer forward and satisfies [Q], or a panic. *)
Definition good {A} (s : list Z) (Q : A → list Z → Prop) (r : res (list Z) A) : Prop :=
  match r with Ok a s' => s' `suffix_of` s ∧ Q a s' | Panic _ _ => True | _ => False end.

Lemma good_bind {A B} (m : P A) (f : A → P B) s Q R :
  good s Q (m s) → (∀ a s', s' `suffix_of` s → Q a s' → good s' R (f a s')) → good s R (bind m f s).
Proof.
  unfold bind. destruct (m s) as [a s'| | | |]; simpl; try done. intros [Hs HQ] Hf. specialize (Hf a s' Hs HQ).
  destruct (f a s'); simpl in *; try done. destruct Hf as [Hs' HR]. split; [by trans s'|done].
Qed.
Lemma good_ret {A} (a : A) s (Q : A → list Z → Prop) : Q a s → good s Q (ret a s).
Proof. by split. Qed.
Lemma good_panic_if b msg s (Q : unit → list Z → Prop) : (b = false → Q tt s) → good s Q (panic_if b msg s).
Proof. destruct b; simpl; [done|]. intros H. split; [done|by apply H]. Qed.
Lemma good_gets s : good s (fun a s' => a = s ∧ s' = s) (gets (fun s => s) s).
Proof. by repeat split. Qed.
Lemma suffix_len {A} (s t : list A) : s `suffix_of` t → (length s ≤ length t)%nat.
Proof. apply suffix_length. Qed.

Lemma skip_suffix f s : skip f s `suffix_of` s.
Proof. induction s as [|c s IH]; simpl; [done|]. destruct (f c); [by apply suffix_cons_r|done]. Qed.
Lemma skip_split f s : ∃ x, s = x ++ skip f s ∧ Forall (fun c => f c = true) x ∧ match skip f s with [] => True | c :: _ => f c = false end.
Proof.
  induction s as [|c s (x & E & Hx & Hc)]; simpl; [by exists []|]. destruct (f c) eqn:Ef.
  - exists (c :: x). rewrite E at 1. split; [done|]. split; [by constructor|done].
  - by exists [].
Qed.
Lemma skipws_head s : match skipws s with [] => True | c :: _ => strchr whitespace c = false end.
Proof. destruct (skip_split (strchr whitespace) s) as (x & _ & _ & H). done. Qed.
Lemma stop_skip s : stop (skip wordchar s).
Proof. destruct (skip_split wordchar s) as (x & _ & _ & H). by unfold stop; destruct (skip wordchar s). Qed.

#[local] Arguments strchr : simpl never.
#[local] Arguments chars : simpl never.
Lemma strchr_In set c : strchr set c = true → In c set.
Proof. unfold strchr. intros (x & Hx & <-%Z.eqb_eq)%existsb_exists. done. Qed.
Lemma symbols_cases c : strchr symbols c = true → strchr (chars "|();&<") c = true ∨ c = 62.
Proof. intros H%strchr_In. vm_compute in H. repeat destruct H as [<-|H]; try done; (left; by vm_compute) || by right. Qed.

Lemma scan_token_spec s : match s with [] => True | c :: _ => strchr whitespace c = false end →
  ∃ r s', scan_token s = (r, s') ∧ s' `suffix_of` s ∧ (r ≠ 0 → (length s' < length s)%nat) ∧ (s ≠ [] → r ≠ 0) ∧
  (r = 97 → ∃ x, s = x ++ s' ∧ x ≠ [] ∧ Forall (fun c => wordchar c = true) x ∧ stop s').
Proof.
  destruct s as [|c t]; [by exists 0, []|]. intros Hw. cbn [scan_token].
  destruct (strchr (chars "|();&<") c) eqn:Es.
  { assert (c ≠ 0 ∧ c ≠ 97) as [H0 H1] by (split; intros ->; vm_compute in Es; discriminate Es).
    exists c, t. split; [done|]. split; [by apply suffix_cons_r|]. split; [simpl; lia|]. done. }
  destruct (Z.eqb_spec c 62) as [->|Hc].
  { destruct t as [|d t]; [|destruct (d =? 62)]; eexists _, _; (split; [done|]); (split; [first [by apply suffix_cons_r|by do 2 apply suffix_cons_r]|]; split; [simpl; lia|]; done). }
  assert (Hwc : wordchar c = true).
  { unfold wordchar. rewrite Hw. destruct (strchr symbols c) eqn:Ey; [|done]. apply symbols_cases in Ey as [?|?]; congruence. }
  exists 97, (skip wordchar (c :: t)). split; [done|]. cbn [skip]. rewrite Hwc.
  split; [apply suffix_cons_r, skip_suffix|]. split; [intros _; pose proof (suffix_len _ _ (skip_suffix wordchar t)); simpl; lia|].
  split; [done|]. intros _. destruct (skip_split wordchar t) as (x & Et & Hx & _). exists (c :: x).
  split; [simpl; by f_equal|]. split; [done|]. split; [by constructor|apply stop_skip].
Qed.

Lemma gettoken_good line s : s `suffix_of` line →
  good s (fun t s' => (t.1 ≠ 0 → (length s' < length s)%nat) ∧ (skipws s ≠ [] → t.1 ≠ 0) ∧ (t.1 = 97 → token_of line t.2)) (gettoken s).
Proof.
  intros Hl. unfold gettoken. destruct (scan_token_spec (skipws s) (skipws_head s)) as (r & s' & -> & Hs & Hlt & Hne & Hw). simpl.
  pose proof (skip_suffix (strchr whitespace) s) as H1. pose proof (skip_suffix (strchr whitespace) s') as H2.
  fold skipws in *. split; [by trans s'; [|trans (skipws s)]|]. split; [|split; [done|]].
  - intros Hr. specialize (Hlt Hr). apply suffix_len in H1, H2. unfold skipws in *. lia.
  - intros ->. destruct (Hw eq_refl) as (x & E & Hx & Hf & Hst). assert (Hl' : skipws s `suffix_of` line) by (trans s; done).
    destruct Hl' as [pre Hp]. exists pre, x. simpl. rewrite <- E. split; [done|]. split; [done|]. done.
Qed.
Lemma peek_good toks s : good s (fun b s' => s' = skipws s ∧ (b = true → skipws s' ≠ [])) (peek toks s).
Proof.
  unfold peek. simpl. split; [apply skip_suffix|]. split; [done|]. intros Hb. pose proof (skipws_head s) as Hh.
  destruct (skipws s) as [|c t] eqn:E; [done|]. unfold skipws. cbn [skip]. rewrite Hh. done.
Qed.

(** The shape of the trees the parser builds. *)
Definition redir_kind (mode fd : Z) : Prop := (mode = O_RDONLY ∧ fd = 0) ∨ (mode = Z.lor O_WRONLY O_CREATE ∧ fd = 1).
Fixpoint wf_cmd {W} (c : cmd W) : Prop :=
  match c with
  | EXEC argv => zlen argv < MAXARGS
  | REDIR c _ mode fd => wf_cmd c ∧ redir_kind mode fd
  | PIPE l r | LIST l r => wf_cmd l ∧ wf_cmd r
  | BACK c => wf_cmd c
  end.
(** Redirections around a program with [argc] arguments. *)
Fixpoint spine {W} (argc : Z) (c : cmd W) : Prop :=
  match c with EXEC argv => zlen argv = argc | REDIR c _ _ _ => spine argc c | _ => False end.
Lemma put_arg_spine w argc c : spine argc c → spine (argc + 1) (put_arg w c).
Proof. induction c; simpl; auto. intros <-. unfold zlen. rewrite length_app. simpl. lia. Qed.
Lemma put_arg_wf w argc c : spine argc c → argc + 1 < MAXARGS → wf_cmd c → wf_cmd (put_arg w c).
Proof.
  intros H Ha. induction c; simpl in *; try done; [|naive_solver]. unfold zlen in *. rewrite length_app. simpl. lia.
Qed.
Lemma put_arg_tokens line w argc c : spine argc c → token_of line w → tokens_of line c → tokens_of line (put_arg w c).
Proof.
  unfold tokens_of. intros H Hw. induction c; simpl in *; try done; rewrite ?Forall_app; [|naive_solver].
  intros ?. split; [done|]. by constructor.
Qed.

Definition built (line : list Z) (c : cmd word) : Prop := tokens_of line c ∧ wf_cmd c.

Lemma redirs_loop_good line fuel : ∀ s c (K : cmd word → Prop), s `suffix_of` line → (length s < fuel)%nat → built line c → K c →
  (∀ c f m fd, K c → K (REDIR c f m fd)) → good s (fun c' _ => built line c' ∧ K c') (redirs_loop fuel c s).
Proof.
  induction fuel as [|fuel IH]; intros s c K Hs Hf Hc HK Hr; [lia|]. cbn [redirs_loop].
  apply (good_bind _ _ _ _ _ (peek_good _ s)). intros b s1 Hs1 [E Hb]. destruct b; [|by apply good_ret].
  specialize (Hb eq_refl). assert (Hl1 : s1 `suffix_of` line) by (by trans s).
  apply (good_bind _ _ _ _ _ (gettoken_good line s1 Hl1)). intros t s2 Hs2 (Hlt & Hne & _). specialize (Hlt (Hne Hb)).
  assert (Hl2 : s2 `suffix_of` line) by (by trans s1).
  apply (good_bind _ _ _ _ _ (gettoken_good line s2 Hl2)). intros w s3 Hs3 (_ & _ & Hw).
  apply (good_bind _ _ _ (fun _ s' => s' = s3 ∧ w.1 = 97)).
  { apply good_panic_if. intros H. split; [done|]. destruct (Z.eqb_spec w.1 97); [done|discriminate]. }
  intros _ ? _ [-> Ew]. specialize (Hw Ew). apply suffix_len in Hs1 as L1, Hs2 as L2, Hs3 as L3.
  destruct Hc as [Hc1 Hc2].
  assert (Hb' : ∀ m fd, redir_kind m fd → built line (redircmd c w.2 m fd)).
  { intros m fd Hm. split; [|done]. unfold tokens_of. simpl. rewrite Forall_app. split; [done|]. by constructor. }
  unfold redir_kind in Hb'. assert (s3 `suffix_of` line) by (by trans s2).
  apply IH; [done|lia| | |done].
  - destruct (t.1 =? 60); [apply Hb'; tauto|]. destruct (t.1 =? 62); [apply Hb'; tauto|]. destruct (t.1 =? 43); [apply Hb'; tauto|done].
  - unfold redircmd. destruct (t.1 =? 60), (t.1 =? 62), (t.1 =? 43); auto.
Qed.
Lemma parseredirs_good line s c (K : cmd word → Prop) : s `suffix_of` line → built line c → K c →
  (∀ c f m fd, K c → K (REDIR c f m fd)) → good s (fun c' _ => built line c' ∧ K c') (parseredirs c s).
Proof. intros. change (parseredirs c s) with (redirs_loop (S (length s)) c s). by apply redirs_loop_good; [|lia|..]. Qed.

Lemma args_loop_good line fuel : ∀ s argc c, s `suffix_of` line → (length s < fuel)%nat → built line c → spine argc c → argc < MAXARGS →
  good s (fun c' _ => built line c') (args_loop fuel argc c s).
Proof.
  induction fuel as [|fuel IH]; intros s argc c Hs Hf Hc Hsp Ha; [lia|]. cbn [args_loop].
  apply (good_bind _ _ _ _ _ (peek_good _ s)). intros b s1 Hs1 _. destruct b; [by apply good_ret|].
  assert (Hl1 : s1 `suffix_of` line) by (by trans s).
  apply (good_bind _ _ _ _ _ (gettoken_good line s1 Hl1)). intros t s2 Hs2 (Hlt & _ & Hw).
  destruct (Z.eqb_spec t.1 0) as [|Ht]; [by apply good_ret|]. specialize (Hlt Ht).
  apply (good_bind _ _ _ (fun _ s' => s' = s2 ∧ t.1 = 97)).
  { apply good_panic_if. intros H. split; [done|]. destruct (Z.eqb_spec t.1 97); [done|discriminate]. }
  intros _ ? _ [-> Et]. specialize (Hw Et). destruct (Z.leb_spec MAXARGS argc); [lia|].
  apply (good_bind _ _ _ (fun _ s' => s' = s2)); [by apply good_ret|]. intros _ ? _ ->.
  apply (good_bind _ _ _ (fun _ s' => s' = s2 ∧ argc + 1 < MAXARGS)).
  { apply good_panic_if. intros H'. split; [done|]. destruct (Z.leb_spec MAXARGS (argc + 1)); [discriminate|done]. }
  intros _ ? _ [-> Ha']. assert (Hl2 : s2 `suffix_of` line) by (by trans s1). destruct Hc as [Hc1 Hc2].
  apply (good_bind _ _ _ _ _ (parseredirs_good line s2 (put_arg t.2 c) (spine (argc + 1)) Hl2
    (conj (put_arg_tokens _ _ _ _ Hsp Hw Hc1) (put_arg_wf _ _ _ Hsp Ha' Hc2)) (put_arg_spine _ _ _ Hsp) ltac:(done))).
  intros c' s3 Hs3 [Hb Hsp']. apply suffix_len in Hs1 as L1, Hs2 as L2, Hs3 as L3.
  apply IH; [by trans s2|lia|done..].
Qed.
Lemma back_loop_good line fuel : ∀ s c, s `suffix_of` line → (length s < fuel)%nat → built line c →
  good s (fun c' _ => built line c') (back_loop fuel c s).
Proof.
  induction fuel as [|fuel IH]; intros s c Hs Hf Hc; [lia|]. cbn [back_loop].
  apply (good_bind _ _ _ _ _ (peek_good _ s)). intros b s1 Hs1 [E Hb]. destruct b; [|by apply good_ret].
  assert (Hl1 : s1 `suffix_of` line) by (by trans s).
  apply (good_bind _ _ _ _ _ (gettoken_good line s1 Hl1)). intros t s2 Hs2 (Hlt & Hne & _).
  specialize (Hlt (Hne (Hb eq_refl))). apply suffix_len in Hs1 as L1, Hs2 as L2.
  apply IH; [by trans s1|lia|done].
Qed.

(** Enough calls for each function on a line of length [k]. *)
Lemma parse_good line n : ∀ s, s `suffix_of` line →
  ((4 * length s + 4 ≤ n)%nat → good s (fun c _ => built line c) (parseline n s)) ∧
  ((4 * length s + 3 ≤ n)%nat → good s (fun c _ => built line c) (parsepipe n s)) ∧
  ((4 * length s + 2 ≤ n)%nat → good s (fun c _ => built line c) (parseexec n s)) ∧
  ((4 * length s + 1 ≤ n)%nat → good s (fun c _ => built line c) (parseblock n s)).
Proof.
  assert (He : built line execcmd) by (split; [constructor|done]).
  assert (Htok : ∀ {B} s1 (f : P B) R, s1 `suffix_of` line → skipws s1 ≠ [] →
    (∀ s2, s2 `suffix_of` line → (length s2 < length s1)%nat → good s2 R (f s2)) → good s1 R ((gettoken ;; f) s1)).
  { intros B s1 f R Hl Hne Hf. apply (good_bind _ _ _ _ _ (gettoken_good line s1 Hl)). intros t s2 Hs2 (Hlt & Hn & _).
    apply Hf; [by trans s1|]. by apply Hlt, Hn. }
  induction n as [|n IH]; intros s Hs; [lia|]. destruct (IH s Hs) as (IHl & IHp & IHe & IHb).
  split_and!; intros Hn.
  - cbn [parseline]. apply (good_bind _ _ _ _ _ (IHp ltac:(lia))). intros c s1 Hs1 Hc. assert (Hl1 : s1 `suffix_of` line) by (by trans s).
    apply (good_bind _ _ _ _ _ (good_gets s1)). intros ? ? _ [-> ->].
    apply (good_bind _ _ _ _ _ (back_loop_good line (S (length s1)) s1 c Hl1 ltac:(lia) Hc)). intros c2 s2 Hs2 Hc2.
    apply (good_bind _ _ _ _ _ (peek_good _ s2)). intros b s3 Hs3 [_ Hb]. destruct b; [|by apply good_ret].
    assert (Hl3 : s3 `suffix_of` line) by (trans s2; [done|by trans s1]). apply suffix_len in Hs1 as L1, Hs2 as L2, Hs3 as L3.
    apply Htok; [done|by apply Hb|]. intros s4 Hl4 L4. destruct (IH s4 Hl4) as (IHl4 & _).
    apply (good_bind _ _ _ _ _ (IHl4 ltac:(lia))). intros r s5 _ [Hr1 Hr2]. apply good_ret. destruct Hc2. split; [|done].
    unfold tokens_of. simpl. by rewrite Forall_app.
  - cbn [parsepipe]. apply (good_bind _ _ _ _ _ (IHe ltac:(lia))). intros c s1 Hs1 Hc.
    apply (good_bind _ _ _ _ _ (peek_good _ s1)). intros b s3 Hs3 [_ Hb]. destruct b; [|by apply good_ret].
    assert (Hl3 : s3 `suffix_of` line) by (trans s1; [done|by trans s]). apply suffix_len in Hs1 as L1, Hs3 as L3.
    apply Htok; [done|by apply Hb|]. intros s4 Hl4 L4. destruct (IH s4 Hl4) as (_ & IHp4 & _).
    apply (good_bind _ _ _ _ _ (IHp4 ltac:(lia))). intros r s5 _ [Hr1 Hr2]. apply good_ret. destruct Hc. split; [|done].
    unfold tokens_of. simpl. by rewrite Forall_app.
  - cbn [parseexec]. apply (good_bind _ _ _ _ _ (peek_good _ s)). intros b s1 Hs1 [_ Hb]. assert (Hl1 : s1 `suffix_of` line) by (by trans s).
    apply suffix_len in Hs1 as L1. destruct b; [apply (IH s1 Hl1); lia|].
    apply (good_bind _ _ _ _ _ (parseredirs_good line s1 execcmd (spine 0) Hl1 He eq_refl ltac:(done))). intros c s2 Hs2 [Hc Hsp].
    apply (good_bind _ _ _ _ _ (good_gets s2)). intros ? ? _ [-> ->].
    apply args_loop_good; [by trans s1|lia|done|done|done].
  - cbn [parseblock]. apply (good_bind _ _ _ _ _ (peek_good _ s)). intros b s1 Hs1 [_ Hb]. assert (Hl1 : s1 `suffix_of` line) by (by trans s).
    apply (good_bind _ _ _ (fun _ s' => s' = s1 ∧ b = true)); [apply good_panic_if; by destruct b|]. intros _ ? _ [-> ->].
    apply suffix_len in Hs1 as L1. apply Htok; [done|by apply Hb|]. intros s2 Hl2 L2. destruct (IH s2 Hl2) as (IHl2 & _).
    apply (good_bind _ _ _ _ _ (IHl2 ltac:(lia))). intros c s3 Hs3 Hc.
    apply (good_bind _ _ _ _ _ (peek_good _ s3)). intros b s4 Hs4 [_ Hb4].
    assert (Hl4 : s4 `suffix_of` line) by (trans s3; [done|by trans s2]).
    apply (good_bind _ _ _ (fun _ s' => s' = s4 ∧ b = true)); [apply good_panic_if; by destruct b|]. intros _ ? _ [-> ->].
    apply Htok; [done|by apply Hb4|]. intros s5 Hl5 L5.
    pose proof (parseredirs_good line s5 c (fun _ => True) Hl5 Hc I ltac:(done)) as G.
    destruct (parseredirs c s5); simpl in *; tauto.
Qed.

(** ** The tokens of a line and the grammar *)

(** The tokens of a line: blanks separate, words are as long as they can be, and two
    greater signs in a row are one token (43, as in [gettoken]). *)
Inductive tok := TWord (w : word) | TSym (c : Z).
Inductive lexed : list Z → list tok → Prop :=
  | lex_end : lexed [] []
  | lex_blank c s ts : strchr whitespace c = true → lexed s ts → lexed (c :: s) ts
  | lex_word x s ts : x ≠ [] → Forall (fun c => wordchar c = true) x → stop s → lexed s ts → lexed (x ++ s) (TWord (x ++ s, s) :: ts)
  | lex_sym c s ts : strchr (chars "|();&<") c = true → lexed s ts → lexed (c :: s) (TSym c :: ts)
  | lex_gt s ts : head s ≠ Some 62 → lexed s ts → lexed (62 :: s) (TSym 62 :: ts)
  | lex_gtgt s ts : lexed s ts → lexed (62 :: 62 :: s) (TSym 43 :: ts).

(** The grammar.  A simple command is arguments and redirections in any order. *)
Definition redir : Type := word * Z * Z.
Inductive g_redir : list tok → redir → Prop :=
  | gr_in w : g_redir [TSym 60; TWord w] (w, O_RDONLY, 0)
  | gr_out w : g_redir [TSym 62; TWord w] (w, Z.lor O_WRONLY O_CREATE, 1)
  | gr_app w : g_redir [TSym 43; TWord w] (w, Z.lor O_WRONLY O_CREATE, 1).
Inductive g_items : list tok → list word → list redir → Prop :=
  | gi_nil : g_items [] [] []
  | gi_arg w ts ws rs : g_items ts ws rs → g_items (TWord w :: ts) (w :: ws) rs
  | gi_redir t r ts ws rs : g_redir t r → g_items ts ws rs → g_items (t ++ ts) ws (r :: rs).
Definition with_redirs (c : cmd word) (rs : list redir) : cmd word := foldl (fun c (r : redir) => REDIR c r.1.1 r.1.2 r.2) c rs.
Definition amps (n : nat) : list tok := replicate n (TSym 38).
Definition backs (n : nat) (c : cmd word) : cmd word := Nat.iter n BACK c.
Inductive g_line : list tok → cmd word → Prop :=
  | gl_one ts n c : g_pipe ts c → g_line (ts ++ amps n) (backs n c)
  | gl_seq ts n c us d : g_pipe ts c → g_line us d → g_line (ts ++ amps n ++ TSym 59 :: us) (LIST (backs n c) d)
with g_pipe : list tok → cmd word → Prop :=
  | gp_one ts c : g_exec ts c → g_pipe ts c
  | gp_pipe ts c us d : g_exec ts c → g_pipe us d → g_pipe (ts ++ TSym 124 :: us) (PIPE c d)
with g_exec : list tok → cmd word → Prop :=
  | ge_simple ts ws rs : g_items ts ws rs → g_exec ts (with_redirs (EXEC ws) rs)
  | ge_block ts c us rs : g_line ts c → g_items us [] rs → g_exec (TSym 40 :: ts ++ TSym 41 :: us) (with_redirs c rs).

(** From [s] the tokens [ts] lead to [s']. *)
Definition eats (s : list Z) (ts : list tok) (s' : list Z) : Prop := ∀ us, lexed s' us → lexed s (ts ++ us).
Lemma eats_refl s : eats s [] s.
Proof. by intros us. Qed.
Lemma eats_trans s ts s1 us s2 : eats s ts s1 → eats s1 us s2 → eats s (ts ++ us) s2.
Proof. intros H1 H2 vs Hv. rewrite <- app_assoc. by apply H1, H2. Qed.
Lemma eats_then s s1 us s2 : eats s [] s1 → eats s1 us s2 → eats s us s2.
Proof. apply (eats_trans s []). Qed.
Lemma eats_ws s : eats s [] (skipws s).
Proof.
  intros us Hu. unfold skipws in Hu. induction s as [|c s IH]; [done|]. simpl in Hu. destruct (strchr whitespace c) eqn:E; [|done]. apply lex_blank; auto.
Qed.
Lemma eats_end s ts s' : eats s ts s' → eats s ts (skipws s').
Proof. intros H. rewrite <- (app_nil_r ts). by apply (eats_trans _ _ s'), eats_ws. Qed.

(** What a token of [gettoken] is in the line. *)
Definition token (r : Z) (w : word) : tok := if r =? 97 then TWord w else TSym r.
Lemma scan_eats s r s' : match s with [] => True | c :: _ => strchr whitespace c = false end → scan_token s = (r, s') → r ≠ 0 → eats s [token r (s, s')] s'.
Proof.
  intros Hw E Hr us Hu. destruct s as [|c t]; simpl in E; [by simplify_eq|].
  destruct (strchr (chars "|();&<") c) eqn:Es.
  { simplify_eq. unfold token. rewrite (proj2 (Z.eqb_neq r 97)) by (intros ->; vm_compute in Es; discriminate Es). by apply lex_sym. }
  destruct (Z.eqb_spec c 62) as [->|Hc].
  { destruct t as [|d t]; [|destruct (Z.eqb_spec d 62) as [->|Hd]]; simplify_eq; unfold token; simpl; [by apply lex_gt|by apply lex_gtgt|].
    apply lex_gt; [|done]. simpl. congruence. }
  assert (Hwc : wordchar c = true).
  { unfold wordchar. rewrite Hw. destruct (strchr symbols c) eqn:Ey; [|done]. apply symbols_cases in Ey as [?|?]; congruence. }
  rewrite Hwc in E. injection E as <- <-. pose proof (stop_skip t) as Hst. destruct (skip_split wordchar t) as (x & Et & Hx & _). unfold token. simpl.
  assert (Ec : c :: t = (c :: x) ++ skip wordchar t) by (simpl; by f_equal). rewrite Ec. apply lex_word; [done|by constructor|done|done].
Qed.
Lemma gettoken_eats s r w s' : gettoken s = Ok (r, w) s' →
  (r = 0 → eats s [] s') ∧ (r ≠ 0 → eats s [token r w] s') ∧ match skipws s with [] => r = 0 | c :: _ => strchr (chars "|();&<") c = true → r = c end.
Proof.
  unfold gettoken. destruct (scan_token (skipws s)) as [r0 s1] eqn:E. intros [= -> <- <-]. split_and!.
  - intros ->. destruct (scan_token_spec (skipws s) (skipws_head s)) as (r & s2 & E2 & _ & _ & Hn & _). rewrite E in E2. injection E2 as <- <-.
    destruct (skipws s) eqn:Es; [|exfalso; by apply Hn]. simpl in E. injection E as <-. pose proof (eats_ws s) as H. by rewrite Es in H.
  - intros Hr. apply (eats_then _ (skipws s)); [apply eats_ws|]. apply eats_end, scan_eats; [apply skipws_head|done|done].
  - destruct (skipws s) as [|c u]; simpl in E; [by simplify_eq|]. intros Hc. rewrite Hc in E. by simplify_eq.
Qed.
Lemma peek_eats toks s b s' : peek toks s = Ok b s' → eats s [] s' ∧ skipws s' = s' ∧ (b = true → ∃ c t, s' = c :: t ∧ strchr toks c = true).
Proof.
  unfold peek. intros [= <- <-]. split; [apply eats_ws|]. split.
  - pose proof (skipws_head s) as Hh. destruct (skipws s) as [|c t]; [done|]. unfold skipws. simpl. by rewrite Hh.
  - destruct (skipws s) as [|c t]; [done|]. by exists c, t.
Qed.
(** [if(peek(ps, es, "c")) gettoken(ps, es, 0, 0)] *)
Lemma peek_gettoken c s s1 t s2 : strchr (chars "|();&<") c = true → peek [c] s = Ok true s1 → gettoken s1 = Ok t s2 → eats s [TSym c] s2.
Proof.
  intros Hc Hp Hg. destruct (peek_eats _ _ _ _ Hp) as (E1 & Ews & Hb). destruct (Hb eq_refl) as (d & u & Es & Hd).
  assert (d = c) as -> by (unfold strchr in Hd; simpl in Hd; apply orb_prop in Hd as [?%Z.eqb_eq|?]; done). destruct t as [r w].
  destruct (gettoken_eats _ _ _ _ Hg) as (_ & H2 & H3). rewrite Ews, Es in H3. assert (c ≠ 0 ∧ c ≠ 97) as [H0 H1] by (split; intros ->; vm_compute in Hc; discriminate Hc).
  rewrite (H3 Hc) in H2. specialize (H2 H0). unfold token in H2. rewrite (proj2 (Z.eqb_neq _ _) H1) in H2. by apply (eats_then _ s1).
Qed.

(** A line has one list of tokens. *)
Lemma word_first c : wordchar c = true → strchr whitespace c = false ∧ strchr (chars "|();&<") c = false ∧ c ≠ 62.
Proof.
  unfold wordchar. intros [H1%negb_true_iff H2%negb_true_iff]%andb_prop. split_and!; [done| |by intros ->].
  destruct (strchr (chars "|();&<") c) eqn:E; [|done]. apply strchr_In in E. vm_compute in E. repeat destruct E as [<-|E]; try done; vm_compute in H2; discriminate H2.
Qed.
Lemma symbol_first c : strchr (chars "|();&<") c = true → strchr whitespace c = false ∧ c ≠ 62.
Proof. intros E%strchr_In. vm_compute in E. repeat destruct E as [<-|E]; by vm_compute. Qed.
Lemma word_split x : ∀ y s s', Forall (fun c => wordchar c = true) x → Forall (fun c => wordchar c = true) y → stop s → stop s' → x ++ s = y ++ s' → x = y ∧ s = s'.
Proof.
  induction x as [|c x IH]; intros [|d y] s s' Hx Hy Hs Hs' E; simpl in E; simplify_eq; [done|..].
  - apply Forall_cons in Hy as [Hy _]. simpl in Hs. congruence.
  - apply Forall_cons in Hx as [Hx _]. simpl in Hs'. congruence.
  - apply Forall_cons in Hx as [_ Hx]. apply Forall_cons in Hy as [_ Hy]. destruct (IH y s s' Hx Hy Hs Hs' ltac:(done)) as [-> ->]. done.
Qed.
Lemma lexed_first s ts : lexed s ts → match s with
  | [] => ts = []
  | c :: t => if strchr whitespace c then lexed t ts else if strchr (chars "|();&<") c then ∃ us, ts = TSym c :: us ∧ lexed t us
      else if c =? 62 then (if bool_decide (head t = Some 62) then ∃ us, ts = TSym 43 :: us ∧ lexed (tail t) us else ∃ us, ts = TSym 62 :: us ∧ lexed t us)
      else ∃ us, ts = TWord (s, skip wordchar s) :: us ∧ lexed (skip wordchar s) us end.
Proof.
  destruct 1 as [|c s ts Hc Hl|x s ts Hx Hf Hst Hl|c s ts Hc Hl|s ts Hh Hl|s ts Hl]; [done|by rewrite Hc| | | |by eexists].
  - destruct x as [|c x]; [done|]. apply Forall_cons in Hf as Hf'. destruct Hf' as [Hc Hfx]. cbn [app] in *. destruct (word_first c Hc) as (-> & -> & H62). rewrite (proj2 (Z.eqb_neq c 62) H62).
    destruct (skip_split wordchar (c :: x ++ s)) as (y & Ey & Hy & _). destruct (word_split (c :: x) y s (skip wordchar (c :: x ++ s)) Hf Hy Hst (stop_skip _) Ey) as [_ Es].
    rewrite <- Es. by eexists.
  - destruct (symbol_first c Hc) as [-> _]. rewrite Hc. by eexists.
  - rewrite bool_decide_eq_false_2 by done. by eexists.
Qed.
Lemma lexed_det s : ∀ ts us, lexed s ts → lexed s us → ts = us.
Proof.
  induction s as [s IH] using (induction_ltof1 _ length). unfold ltof in IH. intros ts us Ht%lexed_first Hu%lexed_first. destruct s as [|c t]; [congruence|].
  assert (Hgo : ∀ (k : tok) s', (length s' < length (c :: t))%nat → (∃ vs, ts = k :: vs ∧ lexed s' vs) → (∃ vs, us = k :: vs ∧ lexed s' vs) → ts = us).
  { intros k s' Hl (vs & -> & H1) (vs' & -> & H2). f_equal. by apply (IH s'). }
  pose proof (suffix_len _ _ (skip_suffix wordchar t)). destruct (strchr whitespace c) eqn:Ew; [apply (IH t); [simpl; lia|done|done]|].
  destruct (strchr (chars "|();&<") c) eqn:Es; [eapply (Hgo _ t); [simpl; lia|done|done]|]. destruct (Z.eqb_spec c 62) as [->|Hc].
  - case_bool_decide; [eapply (Hgo _ (tail t)); [destruct t; simpl; lia|done|done]|eapply (Hgo _ t); [simpl; lia|done|done]].
  - assert (Hwc : wordchar c = true) by (unfold wordchar; rewrite Ew; destruct (strchr symbols c) eqn:Ey; [|done]; apply symbols_cases in Ey as [?|?]; congruence).
    eapply (Hgo _ (skip wordchar (c :: t))); [cbn [skip]; rewrite Hwc; simpl; lia|done|done].
Qed.

(** ** What the parser accepts follows the grammar *)

Lemma with_redirs_app c rs qs : with_redirs c (rs ++ qs) = with_redirs (with_redirs c rs) qs.
Proof. apply foldl_app. Qed.
Lemma put_arg_redirs w ws rs : put_arg w (with_redirs (EXEC ws) rs) = with_redirs (EXEC (ws ++ [w])) rs.
Proof. induction rs as [|r rs IH] using rev_ind; [done|]. rewrite !with_redirs_app. simpl. by rewrite <- IH. Qed.
Lemma g_items_app ts ws rs us vs qs : g_items ts ws rs → g_items us vs qs → g_items (ts ++ us) (ws ++ vs) (rs ++ qs).
Proof. induction 1; intros Hu; simpl; [done|by apply gi_arg; auto|]. rewrite <- app_assoc. apply gi_redir; auto. Qed.

Lemma redirs_follow fuel : ∀ c s c' s', redirs_loop fuel c s = Ok c' s' → ∃ ts rs, eats s ts s' ∧ g_items ts [] rs ∧ c' = with_redirs c rs.
Proof.
  induction fuel as [|fuel IH]; intros c s c' s' R; [discriminate R|]. cbn [redirs_loop] in R. apply bind_Ok_inv in R as (b & s1 & Hp & R).
  destruct (peek_eats _ _ _ _ Hp) as (E1 & Ews & Hb). destruct b.
  2: { injection R as <- <-. exists [], []. by split_and!; [|constructor|]. }
  destruct (Hb eq_refl) as (d & u & Es & Hd%strchr_In). apply bind_Ok_inv in R as ([r w] & s2 & Hg & R). apply bind_Ok_inv in R as ([r2 w2] & s3 & Hg2 & R).
  apply bind_Ok_inv in R as ([] & s4 & Hpa & R). unfold panic_if in Hpa. cbn [fst snd] in Hpa, R. destruct (Z.eqb_spec r2 97) as [->|]; [|discriminate Hpa]. injection Hpa as <-.
  destruct (IH _ _ _ _ R) as (ts & rs & E4 & Gi & ->). destruct (gettoken_eats _ _ _ _ Hg2) as (_ & H2 & _). specialize (H2 ltac:(lia)).
  destruct (gettoken_eats _ _ _ _ Hg) as (_ & H1 & H3). rewrite Ews, Es in H3.
  assert (Hr : r = 60 ∨ r = 62 ∨ r = 43).
  { vm_compute in Hd. destruct Hd as [<-|[<-|[]]]; [left; by apply H3|]. unfold gettoken in Hg. rewrite Ews, Es in Hg. simpl in Hg.
    destruct u as [|e u]; [injection Hg as <- _ _; tauto|]. destruct (e =? 62); injection Hg as <- _ _; tauto. }
  specialize (H1 ltac:(lia)). unfold token in H1, H2. rewrite (proj2 (Z.eqb_neq r 97)) in H1 by lia. simpl in H2.
  assert (Hgo : ∀ m fd, g_redir [TSym r; TWord w2] (w2, m, fd) → ∃ ts0 rs0, eats s ts0 s' ∧ g_items ts0 [] rs0 ∧ with_redirs (REDIR c w2 m fd) rs = with_redirs c rs0).
  { intros m fd G. exists ([TSym r; TWord w2] ++ ts), ((w2, m, fd) :: rs). split_and!; [|by apply gi_redir|done].
    apply (eats_then _ s1); [done|]. change [TSym r; TWord w2] with ([TSym r] ++ [TWord w2]). rewrite <- app_assoc. by apply (eats_trans _ _ s2), (eats_trans _ _ s3). }
  destruct Hr as [->|[->| ->]]; apply Hgo; constructor.
Qed.
Lemma parseredirs_follow c s c' s' : parseredirs c s = Ok c' s' → ∃ ts rs, eats s ts s' ∧ g_items ts [] rs ∧ c' = with_redirs c rs.
Proof. apply redirs_follow. Qed.
Lemma args_follow fuel : ∀ argc ws rs s c' s', args_loop fuel argc (with_redirs (EXEC ws) rs) s = Ok c' s' →
  ∃ ts vs qs, eats s ts s' ∧ g_items ts vs qs ∧ c' = with_redirs (EXEC (ws ++ vs)) (rs ++ qs).
Proof.
  induction fuel as [|fuel IH]; intros argc ws rs s c' s' R; [discriminate R|]. cbn [args_loop] in R. apply bind_Ok_inv in R as (b & s1 & Hp & R).
  destruct (peek_eats _ _ _ _ Hp) as (E1 & _ & _). assert (Hend : ∀ s2, eats s1 [] s2 → ∃ ts vs qs, eats s ts s2 ∧ g_items ts vs qs ∧ with_redirs (EXEC ws) rs = with_redirs (EXEC (ws ++ vs)) (rs ++ qs)).
  { intros s2 E2. exists [], [], []. rewrite !app_nil_r. split_and!; [by apply (eats_then _ s1)|constructor|done]. }
  destruct b; [injection R as <- <-; apply Hend, eats_refl|]. apply bind_Ok_inv in R as ([r w] & s2 & Hg & R). cbn [fst snd] in R.
  destruct (gettoken_eats _ _ _ _ Hg) as (H0 & H1 & _). destruct (Z.eqb_spec r 0) as [->|Hr0]; [injection R as <- <-; by apply Hend, H0|].
  apply bind_Ok_inv in R as ([] & s3 & Hpa & R). unfold panic_if in Hpa. destruct (Z.eqb_spec r 97) as [->|]; [|discriminate Hpa]. injection Hpa as <-.
  apply bind_Ok_inv in R as ([] & s3 & Hu & R). destruct (MAXARGS <=? argc); [discriminate Hu|]. injection Hu as <-.
  apply bind_Ok_inv in R as ([] & s3 & Hu & R). unfold panic_if in Hu. destruct (MAXARGS <=? argc + 1); [discriminate Hu|]. injection Hu as <-.
  apply bind_Ok_inv in R as (c1 & s3 & Hre & R). rewrite put_arg_redirs in Hre. destruct (parseredirs_follow _ _ _ _ Hre) as (t1 & q1 & E3 & G1 & ->).
  rewrite <- with_redirs_app in R. destruct (IH _ _ _ _ _ _ R) as (t2 & vs & q2 & E4 & G2 & ->). specialize (H1 ltac:(lia)). unfold token in H1. simpl in H1.
  exists ([TWord w] ++ t1 ++ t2), (w :: vs), (q1 ++ q2). split_and!.
  - apply (eats_then _ s1); [done|]. by apply (eats_trans _ _ s2), (eats_trans _ _ s3).
  - apply gi_arg. change vs with ([] ++ vs). by apply g_items_app.
  - by rewrite <- !app_assoc.
Qed.
Lemma back_follow fuel : ∀ c s c' s', back_loop fuel c s = Ok c' s' → ∃ n, eats s (amps n) s' ∧ c' = backs n c.
Proof.
  induction fuel as [|fuel IH]; intros c s c' s' R; [discriminate R|]. cbn [back_loop] in R. apply bind_Ok_inv in R as (b & s1 & Hp & R). destruct b.
  - apply bind_Ok_inv in R as (t & s2 & Hg & R). destruct (IH _ _ _ _ R) as (n & E & ->). exists (S n). split; [|unfold backs, backcmd; by rewrite <- Nat.iter_succ_r].
    change (amps (S n)) with ([TSym 38] ++ amps n). apply (eats_trans _ _ s2); [|done]. by apply (peek_gettoken 38 s s1 t s2).
  - injection R as <- <-. exists 0%nat. split; [apply (peek_eats _ _ _ _ Hp)|done].
Qed.

Lemma parse_follow n : ∀ s c s',
  (parseline n s = Ok c s' → ∃ ts, eats s ts s' ∧ g_line ts c) ∧ (parsepipe n s = Ok c s' → ∃ ts, eats s ts s' ∧ g_pipe ts c) ∧
  (parseexec n s = Ok c s' → ∃ ts, eats s ts s' ∧ g_exec ts c) ∧ (parseblock n s = Ok c s' → ∃ ts, eats s ts s' ∧ g_exec ts c).
Proof.
  induction n as [|n IH]; intros s c s'; [by split_and!|]. split_and!; intros R.
  - cbn [parseline] in R. apply bind_Ok_inv in R as (c1 & s1 & R1 & R). apply bind_Ok_inv in R as (? & ? & [= <- <-] & R).
    apply bind_Ok_inv in R as (c2 & s2 & R2 & R). apply bind_Ok_inv in R as (b & s3 & R3 & R).
    destruct (IH s c1 s1) as (_ & Hp & _). destruct (Hp R1) as (ts & E1 & G1). destruct (back_follow _ _ _ _ _ R2) as (k & E2 & ->).
    destruct b; [|injection R as <- <-; exists (ts ++ amps k); split; [|by apply gl_one]; rewrite <- (app_nil_r (amps k)); eapply eats_trans, eats_trans; [done|done|by destruct (peek_eats _ _ _ _ R3)]].
    apply bind_Ok_inv in R as (t & s4 & R4 & R). apply bind_Ok_inv in R as (d & s5 & R5 & [= <- <-]). destruct (IH s4 d s5) as (Hl & _). destruct (Hl R5) as (us & E5 & G5).
    exists (ts ++ amps k ++ [TSym 59] ++ us). split; [|by apply gl_seq]. apply (eats_trans _ _ s1); [done|]. apply (eats_trans _ _ s2); [done|].
    apply (eats_trans _ _ s4); [by apply (peek_gettoken 59 s2 s3 t s4)|done].
  - cbn [parsepipe] in R. apply bind_Ok_inv in R as (c1 & s1 & R1 & R). apply bind_Ok_inv in R as (b & s3 & R3 & R).
    destruct (IH s c1 s1) as (_ & _ & He & _). destruct (He R1) as (ts & E1 & G1).
    destruct b; [|injection R as <- <-; exists ts; split; [|by apply gp_one]; rewrite <- (app_nil_r ts); eapply eats_trans; [done|by destruct (peek_eats _ _ _ _ R3)]].
    apply bind_Ok_inv in R as (t & s4 & R4 & R). apply bind_Ok_inv in R as (d & s5 & R5 & [= <- <-]). destruct (IH s4 d s5) as (_ & Hp & _). destruct (Hp R5) as (us & E5 & G5).
    exists (ts ++ [TSym 124] ++ us). split; [|by apply gp_pipe]. apply (eats_trans _ _ s1); [done|]. apply (eats_trans _ _ s4); [by apply (peek_gettoken 124 s1 s3 t s4)|done].
  - cbn [parseexec] in R. apply bind_Ok_inv in R as (b & s1 & R1 & R). destruct (peek_eats _ _ _ _ R1) as (E1 & _). destruct b.
    + destruct (IH s1 c s') as (_ & _ & _ & Hb). destruct (Hb R) as (ts & E2 & G). exists ts. split; [|done]. by apply (eats_then _ s1).
    + apply bind_Ok_inv in R as (c1 & s2 & R2 & R). apply bind_Ok_inv in R as (? & ? & [= <- <-] & R).
      destruct (parseredirs_follow _ _ _ _ R2) as (t1 & q1 & E2 & G1 & ->). destruct (args_follow _ _ [] q1 _ _ _ R) as (t2 & vs & q2 & E3 & G2 & ->).
      exists (t1 ++ t2). split; [apply (eats_then _ s1); [done|by apply (eats_trans _ _ s2)]|]. apply ge_simple. apply (g_items_app _ [] _ _ vs); done.
  - cbn [parseblock] in R. apply bind_Ok_inv in R as (b & s1 & R1 & R). apply bind_Ok_inv in R as ([] & s2 & Hb & R). destruct b; [|discriminate Hb]. injection Hb as <-.
    apply bind_Ok_inv in R as (t & s3 & R3 & R). apply bind_Ok_inv in R as (d & s4 & R4 & R). apply bind_Ok_inv in R as (b & s5 & R5 & R).
    apply bind_Ok_inv in R as ([] & s6 & Hb & R). destruct b; [|discriminate Hb]. injection Hb as <-. apply bind_Ok_inv in R as (t2 & s7 & R7 & R).
    destruct (IH s3 d s4) as (Hl & _). destruct (Hl R4) as (ts & E4 & G4). destruct (parseredirs_follow _ _ _ _ R) as (us & rs & E8 & G8 & ->).
    exists ([TSym 40] ++ ts ++ [TSym 41] ++ us). split; [|by apply ge_block].
    apply (eats_trans _ _ s3); [by apply (peek_gettoken 40 s s1 t s3)|]. apply (eats_trans _ _ s4); [done|].
    apply (eats_trans _ _ s7); [by apply (peek_gettoken 41 s4 s5 t2 s7)|done].
Qed.
Lemma parsecmd_follow line c buf : parsecmd line = Parsed c buf → ∃ ts, lexed line ts ∧ g_line ts c.
Proof.
  unfold parsecmd. destruct (parseline _ line) as [c1 s1| | | |] eqn:R; try done. destruct (skipws s1) eqn:E; [|done]. intros [= -> _].
  destruct (parse_follow (parse_depth line) line c s1) as (Hl & _). destruct (Hl R) as (ts & E1 & G). exists ts. split; [|done].
  rewrite <- (app_nil_r ts). apply E1. pose proof (eats_ws s1) as Hw. rewrite E in Hw. apply Hw, lex_end.
Qed.

(** ** The words after [nulterminate] *)

(** The characters between [q] and [eq]. *)
Definition word_text (w : word) : list Z := take (length w.1 - length w.2) w.1.

Lemma nulterminate_words len c : ∀ buf, nulterminate len c buf = foldl (fun b w => nul_at len w.2 b) buf (cmd_words c).
Proof. induction c; intros buf; simpl; rewrite ?foldl_app; simpl; congruence || by rewrite ?IHc, ?IHc1, ?IHc2. Qed.
Lemma length_nuls len ws : ∀ buf, length (foldl (fun b (w : word) => nul_at len w.2 b) buf ws) = length buf.
Proof. induction ws as [|w ws IH]; intros buf; simpl; [done|]. rewrite IH. apply length_insert. Qed.
Lemma nuls_other len ws i : ∀ buf, Forall (fun w : word => (len - length w.2)%nat ≠ i) ws →
  foldl (fun b (w : word) => nul_at len w.2 b) buf ws !! i = buf !! i.
Proof.
  induction ws as [|w ws IH]; intros buf H; simpl; [done|]. apply Forall_cons in H as [Hw H]. rewrite IH by done.
  by apply list_lookup_insert_ne.
Qed.
Lemma nuls_zero len ws i : ∀ buf, buf !! i = Some 0 → foldl (fun b (w : word) => nul_at len w.2 b) buf ws !! i = Some 0.
Proof.
  induction ws as [|w ws IH]; intros buf H; simpl; [done|]. apply IH. unfold nul_at.
  destruct (decide ((len - length w.2)%nat = i)) as [->|]; [apply list_lookup_insert_eq; by eapply lookup_lt_Some|by rewrite list_lookup_insert_ne].
Qed.
Lemma nuls_at len ws (w : word) : ∀ buf, w ∈ ws → (len - length w.2 < length buf)%nat →
  foldl (fun b (w : word) => nul_at len w.2 b) buf ws !! (len - length w.2)%nat = Some 0.
Proof.
  induction ws as [|v ws IH]; intros buf Hw Hl; [by apply elem_of_nil in Hw|]. simpl. apply elem_of_cons in Hw as [->|Hw].
  - apply nuls_zero. unfold nul_at. by apply list_lookup_insert_eq.
  - apply IH; [done|]. unfold nul_at. by rewrite length_insert.
Qed.

(** A character at the end of a token is not inside another one. *)
Lemma token_lookup line w : token_of line w →
  ∃ x, word_text w = x ∧ (length w.1 = length x + length w.2)%nat ∧ (length w.1 ≤ length line)%nat ∧
    drop (length line - length w.1) line = w.1 ∧ w.1 = x ++ w.2 ∧ Forall (fun c => wordchar c = true) x ∧ stop w.2.
Proof.
  destruct w as [q eq]. intros (pre & x & -> & Hq & _ & Hx & Hs). simpl in *. subst q. exists x.
  unfold word_text. simpl. rewrite !length_app. split; [by rewrite take_app_length' by lia|]. split; [lia|]. split; [lia|].
  split; [by rewrite drop_app_length' by lia|done].
Qed.
Lemma token_end_outside line v w i : token_of line v → token_of line w →
  (length line - length w.1 ≤ i < length line - length w.2)%nat → (length line - length v.2)%nat ≠ i.
Proof.
  intros Hv Hw Hi <-. destruct (token_lookup _ _ Hv) as (x & _ & Lv & Lv' & Dv & Ev & _ & Sv).
  destruct (token_lookup _ _ Hw) as (y & _ & Lw & Lw' & Dw & Ew & Fy & _).
  assert (Hd : drop (length line - length v.2) line = v.2).
  { replace (length line - length v.2)%nat with ((length line - length v.1) + length x)%nat by lia.
    rewrite <- drop_drop, Dv, Ev. apply drop_app_length. }
  assert (Hy : line !! (length line - length v.2)%nat = y !! (length w.1 - length v.2)%nat).
  { replace (length line - length v.2)%nat with ((length line - length w.1) + (length w.1 - length v.2))%nat by lia.
    rewrite <- lookup_drop, Dw, Ew. rewrite lookup_app_l by (rewrite length_app; lia). by rewrite length_app. }
  destruct (lookup_lt_is_Some_2 y (length w.1 - length v.2)) as [c Hc]; [lia|].
  rewrite Hc in Hy. rewrite Forall_lookup in Fy. specialize (Fy _ _ Hc).
  replace (length line - length v.2)%nat with (length line - length v.2 + 0)%nat in Hy by lia.
  rewrite <- lookup_drop, Hd in Hy. destruct v.2 as [|d v2]; [done|]. simpl in *. congruence.
Qed.
Lemma token_string line ws w : 0 ∉ line → Forall (token_of line) ws → w ∈ ws →
  string_at (length line) (foldl (fun b (w : word) => nul_at (length line) w.2 b) (line ++ [0]) ws) w = word_text w.
Proof.
  intros Hnul Hws Hw. rewrite Forall_forall in Hws. pose proof (Hws w Hw) as Ht.
  destruct (token_lookup _ _ Ht) as (x & Ex & Lw & Lw' & Dw & Ew & Fx & _). rewrite Ex. unfold string_at.
  set (b := foldl _ _ _). set (p := (length line - length w.1)%nat).
  assert (Hb : length b = (length line + 1)%nat) by (unfold b; rewrite length_nuls, length_app; simpl; lia).
  assert (H1 : take (length x) (drop p b) = x).
  { apply list_eq. intros i. destruct (decide (i < length x)%nat) as [Hi|]; [|by rewrite lookup_take_ge, lookup_ge_None_2 by lia].
    rewrite lookup_take_lt, lookup_drop by done. unfold b. rewrite nuls_other.
    - rewrite lookup_app_l by (unfold p; lia). unfold p. rewrite <- lookup_drop, Dw, Ew, lookup_app_l by done. done.
    - rewrite Forall_forall. intros v Hv. apply (token_end_outside line v w); [by apply Hws|done|unfold p; lia]. }
  assert (H2 : drop (length x) (drop p b) = 0 :: drop (S (length x)) (drop p b)).
  { rewrite (drop_S _ 0 (length x)); [done|]. rewrite lookup_drop.
    replace (p + length x)%nat with (length line - length w.2)%nat by (unfold p; lia). apply nuls_at; [done|].
    rewrite length_app. simpl. lia. }
  rewrite <- (take_drop (length x) (drop p b)), H1, H2. apply str_of_nul. intros Hx. apply Hnul.
  rewrite <- (take_drop p line). apply elem_of_app. right. unfold p. rewrite Dw, Ew. apply elem_of_app. by left.
Qed.

(** C28: Whatever the line, the parser returns: it either refuses the line with a
    message, or builds a tree that the grammar gives to the tokens of the line (there
    is one way to cut it), all of them: simple commands of words and redirections,
    [|], [&], [;] and blocks.  No program of the tree has more than nine arguments,
    and after [nulterminate] the string at the pointer of a word is exactly that word
    of the line. *)
Theorem parsecmd_total line : 0 ∉ line →
  (∃ msg, parsecmd line = Died msg) ∨
  ∃ c buf ts, parsecmd line = Parsed c buf ∧ (lexed line ts ∧ ∀ us, lexed line us → us = ts) ∧ g_line ts c ∧ wf_cmd c ∧ length buf = S (length line) ∧
    Forall (fun w => token_of line w ∧ string_at (length line) buf w = word_text w) (cmd_words c).
Proof.
  intros Hnul. pose proof (parsecmd_follow line) as Hg. unfold parsecmd in *. destruct (parse_good line (parse_depth line) line ltac:(done)) as (G & _).
  specialize (G ltac:(unfold parse_depth; lia)). destruct (parseline _ line) as [c s1| | | |]; simpl in G; try done; [|by left; eexists].
  destruct G as (_ & Ht & Hwf). destruct (skipws s1); [|by left; eexists]. right. destruct (Hg c _ eq_refl) as (ts & Hlx & Hgl). eexists c, _, ts. split; [done|].
  split; [split; [done|intros us Hu; by apply (lexed_det line)]|]. split; [done|]. rewrite nulterminate_words. split; [done|]. split; [rewrite length_nuls, length_app; simpl; lia|].
  apply Forall_forall. intros w Hw. split; [by eapply (proj1 (Forall_forall _ _) Ht)|by apply token_string].
Qed.
Lemma parsecmd_total_witness : ∃ c buf, parsecmd (chars "a b<c") = Parsed c buf ∧ wf_cmd c.
Proof.
  destruct (parsecmd_total (chars "a b<c")) as [[msg E]|(c & buf & ts & E & _ & _ & H & _)].
  - vm_compute. intros H. inversion_clear H as [|? ? ? H0]. repeat (inversion_clear H0 as [|? ? ? H1]; rename H1 into H0).
  - vm_compute in E. discriminate E.
  - exists c, buf. split; [exact E|exact H].
Defined.

(** ** Printing *)

(** A command as text, with parentheses only where the grammar needs them. *)
Definition level {W} (c : cmd W) : nat := match c with LIST _ _ => 0 | BACK _ => 1 | PIPE _ _ => 2 | _ => 3 end.
Definition paren (b : bool) (s : list Z) : list Z := if b then chars "(" ++ s ++ chars ")" else s.
Fixpoint unwords (ws : list (list Z)) : list Z :=
  match ws with [] => [] | w :: ws => w ++ match ws with [] => [] | _ => chars " " ++ unwords ws end end.
Definition show_redir (fd : Z) (file : list Z) : list Z := chars (if fd =? 0 then "<" else ">") ++ file.
Fixpoint show (k : nat) (c : cmd (list Z)) : list Z :=
  paren (level c <? k)%nat
    match c with
    | LIST l r => show 1 l ++ chars ";" ++ show 0 r
    | BACK c => show 1 c ++ chars "&"
    | PIPE l r => show 3 l ++ chars "|" ++ show 2 r
    | REDIR c file _ fd => show 3 c ++ show_redir fd file
    | EXEC argv => unwords argv
    end.

(** Words the shell can write: no blanks, no operators, not empty. *)
Definition plain_word (w : list Z) : Prop := w ≠ [] ∧ Forall (fun c => wordchar c = true ∧ c ≠ 0) w.
Definition printable (c : cmd (list Z)) : Prop := Forall plain_word (cmd_words c).

(** After blanks the rest of the line begins with one of [set], or is empty. *)
Definition follow (set : list Z) (s : list Z) : Prop := match skipws s with [] => True | c :: _ => strchr set c = true end.
(** The same but for blanks in front. *)
Definition eqws (r r' : list Z) : Prop := skipws r' = skipws r ∧ (length r' ≤ length r)%nat.
Definition F3 : list Z := chars "|)&;".
Definition F2 : list Z := chars ")&;".
Definition F0 : list Z := chars ")".
Definition FR : list Z := chars "<>|)&;".

Lemma follow_weaken set set' s : follow set s → (∀ c, strchr set c = true → strchr set' c = true) → follow set' s.
Proof. unfold follow. destruct (skipws s); simpl; auto. Qed.
Lemma skip_skip f s : skip f (skip f s) = skip f s.
Proof. destruct (skip_split f s) as (x & _ & _ & H). destruct (skip f s) as [|c t]; simpl; [done|]. by rewrite H. Qed.
Lemma skipws_skipws s : skipws (skipws s) = skipws s.
Proof. apply skip_skip. Qed.
Lemma eqws_skip r : eqws r (skipws r).
Proof. split; [apply skipws_skipws|]. apply suffix_len, skip_suffix. Qed.
Lemma follow_eqws set r r' : eqws r r' → follow set r → follow set r'.
Proof. unfold follow. by intros [-> _]. Qed.
Lemma follow_stop set s : follow set s → (∀ c, In c set → strchr symbols c = true) → stop s.
Proof.
  unfold follow. destruct s as [|c s]; simpl; [done|]. unfold skipws, wordchar. simpl.
  destruct (strchr whitespace c); [done|]. intros H%strchr_In Hs. rewrite (Hs c H). done.
Qed.
Ltac in_symbols := let c := fresh in let H := fresh in intros c H; vm_compute in H; repeat destruct H as [<-|H]; try done; by vm_compute.
Lemma FR_stop s : follow FR s → stop s.
Proof. intros H. apply (follow_stop FR); [done|]. in_symbols. Qed.
Lemma F3_FR s : follow F3 s → follow FR s.
Proof. intros H. eapply follow_weaken; [done|]. intros c Hc%strchr_In. revert c Hc. in_symbols. Qed.
Lemma F2_F3 s : follow F2 s → follow F3 s.
Proof. intros H. eapply follow_weaken; [done|]. intros c Hc%strchr_In. revert c Hc. in_symbols. Qed.

Lemma word_skip w s : plain_word w → stop s → skipws (w ++ s) = w ++ s ∧ skip wordchar (w ++ s) = s ∧
  ∃ c w', w = c :: w' ∧ wordchar c = true ∧ strchr symbols c = false.
Proof.
  intros [Hne Hw] Hs. destruct w as [|c w]; [done|]. apply Forall_cons in Hw as [[Hc _] Hw]. simpl.
  pose proof Hc as Hc'. unfold wordchar in Hc'. apply andb_true_iff in Hc' as [H1%negb_true_iff H2%negb_true_iff].
  split; [unfold skipws; simpl; by rewrite H1|]. split; [|by eexists _, _].
  rewrite Hc. clear -Hw Hs. induction Hw as [|d w [Hd _] _ IH]; simpl; [|by rewrite Hd].
  destruct s; simpl in *; [done|]. by rewrite Hs.
Qed.
Lemma gettoken_word w s : plain_word w → stop s → gettoken (w ++ s) = Ok (97, (w ++ s, s)) (skipws s).
Proof.
  intros Hw Hs. destruct (word_skip w s Hw Hs) as (E1 & E2 & c & w' & -> & Hc & Hy). unfold gettoken. rewrite E1. simpl.
  replace (strchr (chars "|();&<") c) with false.
  2: { symmetry. apply not_true_iff_false. intros H%strchr_In. vm_compute in H. by repeat destruct H as [<-|H]. }
  destruct (Z.eqb_spec c 62) as [->|]; [done|]. simpl in E2. by rewrite E2.
Qed.
Lemma gettoken_sym c s : In c (chars "|();&<") → gettoken (c :: s) = Ok (c, (c :: s, s)) (skipws s).
Proof. intros H. unfold gettoken. vm_compute in H. by repeat destruct H as [<-|H]. Qed.
Lemma peek_word toks w s : plain_word w → stop s → (∀ c, In c toks → strchr symbols c = true) → peek toks (w ++ s) = Ok false (w ++ s).
Proof.
  intros Hw Hs Ht. destruct (word_skip w s Hw Hs) as (E1 & _ & c & w' & -> & Hc & Hy). unfold peek. rewrite E1. simpl. f_equal.
  apply not_true_iff_false. intros H%strchr_In%Ht. congruence.
Qed.

(** ** What is printed is parsed back *)

Definition mode_of (fd : Z) : Z := if fd =? 0 then O_RDONLY else Z.lor O_WRONLY O_CREATE.
Definition redirs_ok (rds : list (Z * list Z)) : Prop := Forall (fun x => (x.1 = 0 ∨ x.1 = 1) ∧ plain_word x.2) rds.
Fixpoint show_redirs (rds : list (Z * list Z)) : list Z :=
  match rds with [] => [] | (fd, f) :: rds => show_redir fd f ++ show_redirs rds end.
Fixpoint add_redirs (c : cmd (list Z)) (rds : list (Z * list Z)) : cmd (list Z) :=
  match rds with [] => c | (fd, f) :: rds => add_redirs (REDIR c f (mode_of fd) fd) rds end.
Abbreviation texts := (cmd_map word_text).

Lemma word_text_app (w s : list Z) : word_text (w ++ s, s) = w.
Proof. unfold word_text. simpl. rewrite length_app. by rewrite take_app_length' by lia. Qed.
Lemma peek_false toks set r : follow set r → (∀ c, In c set → strchr toks c = false) → peek toks r = Ok false (skipws r).
Proof.
  unfold follow, peek. intros Hf H. f_equal. destruct (skipws r) as [|c t]; [done|]. apply strchr_In in Hf. by apply H.
Qed.
Lemma peek_false_here toks set r : follow set r → (∀ c, In c set → strchr toks c = false) → peek toks (skipws r) = Ok false (skipws r).
Proof. intros Hf H. rewrite <- (skipws_skipws r) at 2. apply (peek_false _ set); [|done]. eapply follow_eqws; [apply eqws_skip|done]. Qed.
Ltac not_in := let c := fresh in let H := fresh in intros c H; vm_compute in H; repeat destruct H as [<-|H]; try done; by vm_compute.
Lemma norm_redirs rds r : ∃ r', skipws (show_redirs rds ++ r) = show_redirs rds ++ r' ∧ eqws r r'.
Proof.
  destruct rds as [|[fd f] rds]; simpl; [exists (skipws r); split; [done|apply eqws_skip]|]. exists r. split; [|done].
  unfold show_redir. by destruct (fd =? 0).
Qed.
Lemma follow_redirs rds r : follow F3 r → follow FR (show_redirs rds ++ r).
Proof. destruct rds as [|[fd f] rds]; simpl; [apply F3_FR|]. intros _. unfold show_redir. by destruct (fd =? 0). Qed.

Lemma redirs_show rds : ∀ fuel c r, redirs_ok rds → follow F3 r → (length (show_redirs rds ++ r) < fuel)%nat →
  ∃ c', redirs_loop fuel c (show_redirs rds ++ r) = Ok c' (skipws r) ∧ texts c' = add_redirs (texts c) rds.
Proof.
  induction rds as [|[fd f] rds IH]; intros fuel c r Hr Hf Hl; (destruct fuel as [|fuel]; [lia|]); cbn [redirs_loop show_redirs add_redirs].
  - simpl. rewrite (bind_ok _ _ _ false (skipws r)); [by exists c|]. apply (peek_false _ _ _ Hf). not_in.
  - apply Forall_cons in Hr as [[Hfd Hw] Hr]. simpl in Hfd, Hw. pose proof (FR_stop _ (follow_redirs rds r Hf)) as Hst.
    destruct (norm_redirs rds r) as (r' & E & Hq). set (t := if fd =? 0 then 60 else 62).
    assert (Es : (show_redir fd f ++ show_redirs rds) ++ r = t :: f ++ show_redirs rds ++ r).
    { unfold show_redir, t. destruct (fd =? 0); simpl; by rewrite <- (assoc_L (++)). }
    cbn [show_redirs] in Hl. rewrite Es in Hl |- *. destruct (word_skip f _ Hw Hst) as (Ef & _ & d & f' & Ed & _ & Hy).
    rewrite (bind_ok _ _ _ true (t :: f ++ show_redirs rds ++ r)) by (unfold t; by destruct (fd =? 0)).
    rewrite (bind_ok _ _ _ (t, (t :: f ++ show_redirs rds ++ r, f ++ show_redirs rds ++ r)) (f ++ show_redirs rds ++ r)).
    2: { unfold t. destruct (fd =? 0); [rewrite gettoken_sym by (vm_compute; tauto); by rewrite Ef|].
         destruct (Z.eqb_spec d 62) as [->|Hd%Z.eqb_neq]; [done|]. unfold gettoken. rewrite Ed in *. cbn [app].
         change (scan_token (skipws (62 :: ?l))) with (if d =? 62 then (43, f' ++ show_redirs rds ++ r) else (62, l)). rewrite Hd.
         cbn [app] in Ef. by rewrite Ef. }
    rewrite (bind_ok _ _ _ _ _ (gettoken_word f _ Hw Hst)), E. rewrite (bind_ok _ _ _ tt (show_redirs rds ++ r')) by done.
    pose proof Hq as [Hq1 Hq2]. simpl in Hl. rewrite !length_app in Hl.
    edestruct (IH fuel) as (c' & -> & Ec); [done|by eapply follow_eqws|rewrite length_app; lia|]. rewrite Hq1. exists c'. split; [done|].
    rewrite Ec. f_equal. unfold t, mode_of, redircmd. destruct Hfd as [-> | ->]; simpl; by rewrite word_text_app.
Qed.
Lemma parseredirs_show rds c r : redirs_ok rds → follow F3 r →
  ∃ c', parseredirs c (show_redirs rds ++ r) = Ok c' (skipws r) ∧ texts c' = add_redirs (texts c) rds.
Proof. intros. change (parseredirs c ?s) with (redirs_loop (S (length s)) c s). by apply redirs_show; [..|lia]. Qed.

Lemma args_end fuel argc c r : follow F3 r → args_loop (S fuel) argc c (skipws r) = Ok c (skipws r).
Proof.
  unfold follow. intros Hf. cbn [args_loop]. unfold bind, peek. rewrite skipws_skipws. cbn [rbind].
  destruct (skipws r) as [|d t]; [done|]. unfold F3 in Hf. by rewrite Hf.
Qed.
Lemma args_show w ws rds r : ∀ argv fuel, Forall plain_word (w :: ws) → redirs_ok rds → follow F3 r →
  zlen argv + zlen (w :: ws) < MAXARGS → (length (unwords (w :: ws) ++ show_redirs rds ++ r) < fuel)%nat →
  ∃ c', args_loop fuel (zlen argv) (EXEC argv) (unwords (w :: ws) ++ show_redirs rds ++ r) = Ok c' (skipws r) ∧
    texts c' = add_redirs (EXEC ((word_text <$> argv) ++ w :: ws)) rds.
Proof.
  revert w. induction ws as [|v ws IH]; intros w argv fuel Hw Hr Hf Ha Hl; (destruct fuel as [|fuel]; [lia|]); cbn [args_loop];
    apply Forall_cons in Hw as [Hw Hws]; pose proof (FR_stop _ (follow_redirs rds r Hf)) as Hst.
  - cbn [unwords] in *. rewrite app_nil_r in *. rewrite (bind_ok _ _ _ false (w ++ show_redirs rds ++ r)).
    2: { apply peek_word; [done|done|]. in_symbols. }
    destruct (norm_redirs rds r) as (r' & E & Hq).
    rewrite (bind_ok _ _ _ _ _ (gettoken_word w _ Hw Hst)), E. cbn [fst snd Z.eqb Pos.eqb negb].
    rewrite (bind_ok _ _ _ tt (show_redirs rds ++ r')) by done. unfold zlen in Ha. simpl in Ha.
    destruct (Z.leb_spec MAXARGS (zlen argv)); [unfold zlen in *; lia|]. rewrite (bind_ok _ _ _ tt (show_redirs rds ++ r')) by done.
    destruct (Z.leb_spec MAXARGS (zlen argv + 1)); [unfold zlen in *; lia|]. rewrite (bind_ok _ _ _ tt (show_redirs rds ++ r')) by done.
    destruct (parseredirs_show rds (put_arg (w ++ show_redirs rds ++ r, show_redirs rds ++ r) (EXEC argv)) r' Hr (follow_eqws _ _ _ Hq Hf)) as (c' & Rc & Ec).
    rewrite (bind_ok _ _ _ _ _ Rc). destruct Hq as [-> _]. destruct fuel as [|fuel].
    { destruct Hw as [Hne _]. destruct w; [done|]. simpl in Hl. lia. }
    exists c'. split; [by apply args_end|]. rewrite Ec. simpl. rewrite fmap_app. simpl. by rewrite word_text_app.
  - change (unwords (w :: v :: ws)) with (w ++ chars " " ++ unwords (v :: ws)) in *. rewrite <- !(assoc_L (++)) in *.
    set (rest := unwords (v :: ws) ++ show_redirs rds ++ r) in *.
    assert (Hv : ∃ rest', rest = v ++ rest' ∧ stop rest').
    { unfold rest. simpl. destruct ws; [rewrite app_nil_r; by eexists|]. rewrite <- !(assoc_L (++)). by eexists. }
    destruct Hv as (rest' & Ev & Hst'). pose proof (Forall_inv Hws) as Hv. destruct (word_skip v rest' Hv Hst') as (Es & _ & _).
    assert (Esp : skipws (chars " " ++ rest) = rest) by (rewrite Ev; exact Es).
    rewrite (bind_ok _ _ _ false (w ++ chars " " ++ rest)). 2: { apply peek_word; [done|done|]. in_symbols. }
    rewrite (bind_ok _ _ _ _ _ (gettoken_word w (chars " " ++ rest) Hw eq_refl)), Esp. cbn [fst snd Z.eqb Pos.eqb negb].
    rewrite (bind_ok _ _ _ tt rest) by done. unfold zlen in Ha. simpl in Ha.
    destruct (Z.leb_spec MAXARGS (zlen argv)); [unfold zlen in *; lia|]. rewrite (bind_ok _ _ _ tt rest) by done.
    destruct (Z.leb_spec MAXARGS (zlen argv + 1)); [unfold zlen in *; lia|]. rewrite (bind_ok _ _ _ tt rest) by done.
    cbn [put_arg]. rewrite (bind_ok _ _ _ (EXEC (argv ++ [(w ++ chars " " ++ rest, chars " " ++ rest)])) rest).
    2: { change (parseredirs ?c ?s) with (redirs_loop (S (length s)) c s). cbn [redirs_loop]. rewrite (bind_ok _ _ _ false rest); [done|].
         rewrite Ev. apply peek_word; [done|done|]. in_symbols. }
    replace (zlen argv + 1) with (zlen (argv ++ [(w ++ chars " " ++ rest, chars " " ++ rest)])) by (unfold zlen; rewrite length_app; simpl; lia).
    edestruct (IH v (argv ++ [(w ++ chars " " ++ rest, chars " " ++ rest)]) fuel) as (c' & Rc & Ec); [done|done|done| | |exists c'; split; [exact Rc|]].
    + unfold zlen in *. rewrite length_app. simpl in *. lia.
    + change (length rest < fuel)%nat. rewrite !length_app in Hl. simpl in Hl. lia.
    + rewrite Ec, fmap_app, <- (assoc_L (++)). simpl. by rewrite word_text_app.
Qed.

(** What each function of the parser does with a printed command. *)
Definition L3 (c : cmd (list Z)) : Prop := ∀ n rds r, redirs_ok rds → follow F3 r → (4 * length (show 3 c ++ show_redirs rds ++ r) + 2 ≤ n)%nat →
  ∃ c', parseexec n (show 3 c ++ show_redirs rds ++ r) = Ok c' (skipws r) ∧ texts c' = add_redirs c rds.
Definition L2 (c : cmd (list Z)) : Prop := ∀ n r, follow F2 r → (4 * length (show 2 c ++ r) + 3 ≤ n)%nat →
  ∃ c', parsepipe n (show 2 c ++ r) = Ok c' (skipws r) ∧ texts c' = c.
Definition L1 (c : cmd (list Z)) : Prop := ∀ n r, follow F2 r → (4 * length (show 1 c ++ r) + 3 ≤ n)%nat →
  ∃ c1 s1 c' k, parsepipe n (show 1 c ++ r) = Ok c1 s1 ∧ back_loop (S (length s1)) c1 s1 = back_loop k c' (skipws r) ∧
    (length (skipws r) < k)%nat ∧ texts c' = c.
Definition L0 (c : cmd (list Z)) : Prop := ∀ n r, follow F0 r → (4 * length (show 0 c ++ r) + 4 ≤ n)%nat →
  ∃ c', parseline n (show 0 c ++ r) = Ok c' (skipws r) ∧ texts c' = c.

Lemma F0_F2 s : follow F0 s → follow F2 s.
Proof. intros H. eapply follow_weaken; [done|]. intros c Hc%strchr_In. revert c Hc. in_symbols. Qed.
Lemma show_level k k' c : (k ≤ level c)%nat → (k' ≤ level c)%nat → show k c = show k' c.
Proof.
  intros H H'. destruct c; cbn [show]; unfold paren; simpl in H, H'; cbn [level];
    repeat match goal with |- context [(?a <? ?b)%nat] => destruct (Nat.ltb_spec a b); [lia|] end; done.
Qed.
Lemma show_paren k c : (level c < k)%nat → show k c = chars "(" ++ show 0 c ++ chars ")".
Proof. intros H%Nat.ltb_lt. destruct c; cbn [show]; rewrite H; reflexivity. Qed.
Lemma show_nows c : ∀ k r, printable c → ∃ r', skipws (show k c ++ r) = show k c ++ r' ∧ eqws r r' ∧ (skipws r = r → r' = r).
Proof.
  assert (Hpar : ∀ b t r, (∃ r', skipws (t ++ r) = t ++ r' ∧ eqws r r' ∧ (skipws r = r → r' = r)) →
    ∃ r', skipws (paren b t ++ r) = paren b t ++ r' ∧ eqws r r' ∧ (skipws r = r → r' = r)).
  { intros [] t r H; [|done]. by exists r. }
  assert (Hmid : ∀ k d t r, (∀ k r, ∃ r', skipws (show k d ++ r) = show k d ++ r' ∧ eqws r r' ∧ (skipws r = r → r' = r)) →
    skipws (t ++ r) = t ++ r → ∃ r', skipws ((show k d ++ t) ++ r) = (show k d ++ t) ++ r' ∧ eqws r r' ∧ (skipws r = r → r' = r)).
  { intros k d t r H Ht. destruct (H k (t ++ r)) as (r' & E & _ & Hr'). exists r. rewrite <- !(assoc_L (++)), E, (Hr' Ht). done. }
  unfold printable. induction c; intros k s Hp; cbn [show]; apply Hpar; cbn [cmd_words] in Hp; rewrite ?Forall_app in Hp.
  - destruct argv as [|w ws]; [exists (skipws s); split; [done|]; split; [apply eqws_skip|done]|].
    apply Forall_cons in Hp as [[Hne Hw] _]. destruct w as [|d w]; [done|].
    apply Forall_cons in Hw as [[Hd _] _]. unfold wordchar in Hd. apply andb_true_iff in Hd as [Hd%negb_true_iff _].
    exists s. split; [|done]. simpl. unfold skipws. simpl. by rewrite Hd.
  - destruct Hp as [Hp _]. apply Hmid; [auto|]. unfold show_redir. by destruct (fd =? 0).
  - destruct Hp as [Hp _]. apply Hmid; auto.
  - destruct Hp as [Hp _]. apply Hmid; auto.
  - apply Hmid; auto.
Qed.

Lemma L3_paren c : (level c < 3)%nat → printable c → L0 c → L3 c.
Proof.
  intros Hc Hp H0 n rds r Hr Hf Hn. rewrite show_paren in * by done. rewrite <- !(assoc_L (++)) in *.
  set (s := show 0 c ++ chars ")" ++ show_redirs rds ++ r) in *. destruct n as [|[|n]]; [simpl in Hn; lia..|].
  assert (Hpk : peek (chars "(") (chars "(" ++ s) = Ok true (chars "(" ++ s)) by done.
  cbn [parseexec]. rewrite (bind_ok _ _ _ _ _ Hpk). cbn [parseblock]. rewrite (bind_ok _ _ _ _ _ Hpk).
  rewrite (bind_ok _ _ _ tt (chars "(" ++ s)) by done.
  rewrite (bind_ok _ _ _ _ _ (gettoken_sym 40 s ltac:(vm_compute; tauto))).
  change (chars "(" ++ s) with (40 :: s) in Hn. cbn [length] in Hn.
  destruct (show_nows c 0 (chars ")" ++ show_redirs rds ++ r) Hp) as (r1 & E1 & _ & Er1). rewrite (Er1 eq_refl) in E1. fold s in E1. rewrite E1.
  destruct (H0 n (chars ")" ++ show_redirs rds ++ r) eq_refl ltac:(fold s; lia)) as (c' & Rc & Ec). fold s in Rc.
  rewrite (bind_ok _ _ _ _ _ Rc). rewrite (bind_ok _ _ _ true (chars ")" ++ show_redirs rds ++ r)) by done.
  rewrite (bind_ok _ _ _ tt (chars ")" ++ show_redirs rds ++ r)) by done.
  rewrite (bind_ok _ _ _ _ _ (gettoken_sym 41 (show_redirs rds ++ r) ltac:(vm_compute; tauto))).
  destruct (norm_redirs rds r) as (r' & -> & Hq).
  destruct (parseredirs_show rds c' r' Hr (follow_eqws _ _ _ Hq Hf)) as (c2 & -> & E2). destruct Hq as [-> _]. exists c2. split; [done|]. by rewrite E2, Ec.
Qed.
Lemma L3_exec argv : zlen argv < MAXARGS → Forall plain_word argv → L3 (EXEC argv).
Proof.
  intros Ha Hw n rds r Hr Hf Hn. change (show 3 (EXEC argv)) with (unwords argv) in *. destruct n as [|n]; [lia|]. cbn [parseexec].
  pose proof (FR_stop _ (follow_redirs rds r Hf)) as Hst. destruct argv as [|w ws].
  - cbn [unwords app]. destruct (norm_redirs rds r) as (r' & E & Hq). rewrite (bind_ok _ _ _ false (show_redirs rds ++ r')).
    2: { rewrite <- E. apply (peek_false _ FR); [by apply follow_redirs|]. not_in. }
    destruct (parseredirs_show rds execcmd r' Hr (follow_eqws _ _ _ Hq Hf)) as (c' & Rc & Ec). destruct Hq as [Hq _]. rewrite Hq in Rc.
    rewrite (bind_ok _ _ _ _ _ Rc), (bind_ok _ _ _ (skipws r) (skipws r)) by done.
    exists c'. split; [by apply args_end|done].
  - assert (Hv : ∃ rest', unwords (w :: ws) ++ show_redirs rds ++ r = w ++ rest' ∧ stop rest').
    { simpl. destruct ws; [rewrite app_nil_r; by eexists|]. rewrite <- !(assoc_L (++)). by eexists. }
    destruct Hv as (rest & Ev & Hst'). pose proof (Forall_inv Hw) as Hw1.
    rewrite (bind_ok _ _ _ false (w ++ rest)). 2: { rewrite Ev. apply peek_word; [done|done|]. in_symbols. }
    rewrite (bind_ok _ _ _ execcmd (w ++ rest)).
    2: { change (parseredirs ?c ?s) with (redirs_loop (S (length s)) c s). cbn [redirs_loop]. rewrite (bind_ok _ _ _ false (w ++ rest)); [done|].
         apply peek_word; [done|done|]. in_symbols. }
    rewrite (bind_ok _ _ _ (w ++ rest) (w ++ rest)) by done. rewrite <- Ev. change 0 with (zlen (@nil word)).
    destruct (args_show w ws rds r [] (S (length (unwords (w :: ws) ++ show_redirs rds ++ r)))) as (c' & Rc & Ec); [done..|lia|].
    exists c'. split; [exact Rc|done].
Qed.
Lemma L3_redir c f fd : plain_word f → fd = 0 ∨ fd = 1 → L3 c → L3 (REDIR c f (mode_of fd) fd).
Proof.
  intros Hf Hfd H n rds r Hr Hfo Hn. change (show 3 (REDIR c f (mode_of fd) fd)) with (show 3 c ++ show_redir fd f) in *.
  rewrite <- (assoc_L (++)) in *. assert (E : show_redir fd f ++ show_redirs rds ++ r = show_redirs ((fd, f) :: rds) ++ r).
  { cbn [show_redirs]. by rewrite <- (assoc_L (++)). }
  rewrite E in *. apply H; [|done|done]. by constructor.
Qed.
Lemma L3_top c n r : L3 c → follow F3 r → (4 * length (show 3 c ++ r) + 2 ≤ n)%nat → ∃ c', parseexec n (show 3 c ++ r) = Ok c' (skipws r) ∧ texts c' = c.
Proof. intros H Hf Hn. apply (H n [] r); [constructor|done|done]. Qed.
Lemma show_below k c : level c ≠ k → show k c = show (S k) c.
Proof.
  intros H. destruct (Nat.lt_ge_cases (level c) k); [by rewrite (show_paren k), (show_paren (S k)) by lia|]. apply show_level; lia.
Qed.
Lemma L2_of_L3 c : level c ≠ 2%nat → L3 c → L2 c.
Proof.
  intros Hc H n r Hf Hn. rewrite show_below in * by done. destruct n as [|n]; [lia|]. cbn [parsepipe].
  destruct (L3_top c n r H (F2_F3 r Hf) ltac:(lia)) as (c' & Rc & Ec). rewrite (bind_ok _ _ _ _ _ Rc).
  rewrite (bind_ok _ _ _ false (skipws r)); [by exists c'|]. apply (peek_false_here _ F2); [done|]. not_in.
Qed.
Lemma L2_pipe l c : printable c → L3 l → L2 c → L2 (PIPE l c).
Proof.
  intros Hp Hl Hc n r Hf Hn. change (show 2 (PIPE l c)) with (show 3 l ++ chars "|" ++ show 2 c) in *. rewrite <- !(assoc_L (++)) in *.
  destruct n as [|n]; [lia|]. cbn [parsepipe]. rewrite length_app in Hn. simpl in Hn.
  destruct (L3_top l n (chars "|" ++ show 2 c ++ r) Hl eq_refl ltac:(rewrite length_app; simpl; lia)) as (l' & Rl & El).
  rewrite (bind_ok _ _ _ _ _ Rl). rewrite (bind_ok _ _ _ true (chars "|" ++ show 2 c ++ r)) by done.
  rewrite (bind_ok _ _ _ _ _ (gettoken_sym 124 (show 2 c ++ r) ltac:(vm_compute; tauto))).
  destruct (show_nows c 2 r Hp) as (r' & -> & Hq & _). pose proof Hq as [Eq Lq]. rewrite length_app in Hn.
  destruct (Hc n r' (follow_eqws _ _ _ Hq Hf) ltac:(rewrite length_app; lia)) as (c' & Rc & Ec). rewrite Eq in Rc. rewrite (bind_ok _ _ _ _ _ Rc). eexists. split; [done|]. simpl. by rewrite El, Ec.
Qed.
Lemma L1_of_L2 c : level c ≠ 1%nat → L2 c → L1 c.
Proof.
  intros Hc H n r Hf Hn. rewrite show_below in * by done. destruct (H n r Hf Hn) as (c' & Rc & Ec).
  exists c', (skipws r), c', (S (length (skipws r))). split; [done|]. split; [done|]. split; [lia|done].
Qed.
Lemma L1_back c : L1 c → L1 (BACK c).
Proof.
  intros H n r Hf Hn. change (show 1 (BACK c)) with (show 1 c ++ chars "&") in *. rewrite <- (assoc_L (++)) in *.
  destruct (H n (chars "&" ++ r) eq_refl Hn) as (c1 & s1 & c' & k & R1 & Rc & Hk & Ec). change (skipws (chars "&" ++ r)) with (38 :: r) in *.
  destruct k as [|k]; [lia|]. exists c1, s1, (BACK c'), k. split; [exact R1|]. pose proof (eqws_skip r) as [_ Hl]. cbn [length] in Hk.
  split; [|split; [lia|simpl; by rewrite Ec]]. rewrite Rc. cbn [back_loop]. rewrite (bind_ok _ _ _ true (38 :: r)) by done.
  by rewrite (bind_ok _ _ _ _ _ (gettoken_sym 38 r ltac:(vm_compute; tauto))).
Qed.
Lemma back_end k r c : follow (chars ");") r → (length (skipws r) < k)%nat → back_loop k c (skipws r) = Ok c (skipws r).
Proof.
  intros Hf Hk. destruct k as [|k]; [lia|]. cbn [back_loop]. rewrite (bind_ok _ _ _ false (skipws r)); [done|].
  apply (peek_false_here _ _ _ Hf). not_in.
Qed.
Lemma L0_of_L1 c : level c ≠ 0%nat → L1 c → L0 c.
Proof.
  intros Hc H n r Hf Hn. rewrite show_below in * by done. destruct n as [|n]; [lia|]. cbn [parseline].
  destruct (H n r (F0_F2 r Hf) ltac:(lia)) as (c1 & s1 & c' & k & R1 & Rc & Hk & Ec). exists c'. split; [|done].
  assert (Hf' : follow (chars ");") r). { eapply follow_weaken; [done|]. intros d Hd%strchr_In. revert d Hd. in_symbols. }
  rewrite (back_end k r) in Rc by done. rewrite (bind_ok _ _ _ _ _ R1), (bind_ok _ _ _ s1 s1), (bind_ok _ _ _ _ _ Rc) by done.
  rewrite (bind_ok _ _ _ false (skipws r)); [done|]. apply (peek_false_here _ _ _ Hf). not_in.
Qed.
Lemma L0_list l c : printable c → L1 l → L0 c → L0 (LIST l c).
Proof.
  intros Hp Hl Hc n r Hf Hn. change (show 0 (LIST l c)) with (show 1 l ++ chars ";" ++ show 0 c) in *. rewrite <- !(assoc_L (++)) in *.
  destruct n as [|n]; [lia|]. cbn [parseline]. rewrite length_app in Hn. simpl in Hn.
  destruct (Hl n (chars ";" ++ show 0 c ++ r) eq_refl ltac:(rewrite length_app; simpl; lia)) as (l1 & s1 & l' & k & R1 & Rl & Hk & El).
  rewrite (back_end k (chars ";" ++ _)) in Rl by done. rewrite (bind_ok _ _ _ _ _ R1), (bind_ok _ _ _ s1 s1), (bind_ok _ _ _ _ _ Rl) by done.
  rewrite (bind_ok _ _ _ true (chars ";" ++ show 0 c ++ r)) by done.
  rewrite (bind_ok _ _ _ _ _ (gettoken_sym 59 (show 0 c ++ r) ltac:(vm_compute; tauto))).
  destruct (show_nows c 0 r Hp) as (r' & -> & Hq & _). pose proof Hq as [Eq Lq]. rewrite length_app in Hn.
  destruct (Hc n r' (follow_eqws _ _ _ Hq Hf) ltac:(rewrite length_app; lia)) as (c' & Rc & Ec). rewrite Eq in Rc. rewrite (bind_ok _ _ _ _ _ Rc). eexists. split; [done|]. simpl. by rewrite El, Ec.
Qed.

Lemma parse_levels c : wf_cmd c → printable c → L3 c ∧ L2 c ∧ L1 c ∧ L0 c.
Proof.
  unfold printable. induction c as [argv|c IH f mode fd|l IHl r IHr|l IHl r IHr|c IH]; cbn [wf_cmd cmd_words]; rewrite ?Forall_app; intros Hwf Hp.
  - assert (L3 (EXEC argv)) by (by apply L3_exec). auto 8 using L2_of_L3, L1_of_L2, L0_of_L1.
  - destruct Hwf as [Hwf Hk], Hp as [Hp Hf]. destruct (IH Hwf Hp) as (H3 & _). apply Forall_inv in Hf.
    assert (E : mode = mode_of fd ∧ (fd = 0 ∨ fd = 1)) by (destruct Hk as [[-> ->]|[-> ->]]; auto). destruct E as [-> Hfd].
    assert (L3 (REDIR c f (mode_of fd) fd)) by (by apply L3_redir). auto 8 using L2_of_L3, L1_of_L2, L0_of_L1.
  - destruct Hwf as [W1 W2], Hp as [P1 P2]. destruct (IHl W1 P1) as (H3 & _), (IHr W2 P2) as (_ & H2 & _).
    assert (L2 (PIPE l r)) by (by apply L2_pipe). assert (L1 (PIPE l r)) by (by apply L1_of_L2).
    assert (L0 (PIPE l r)) by (by apply L0_of_L1). split; [|done]. apply L3_paren; [simpl; lia| |done]. by apply Forall_app.
  - destruct Hwf as [W1 W2], Hp as [P1 P2]. destruct (IHl W1 P1) as (_ & _ & H1 & _), (IHr W2 P2) as (_ & _ & _ & H0).
    assert (L0 (LIST l r)) by (by apply L0_list). assert (L3 (LIST l r)) by (apply L3_paren; [simpl; lia|by apply Forall_app|done]).
    auto 8 using L2_of_L3, L1_of_L2.
  - destruct (IH Hwf Hp) as (_ & _ & H1 & _). assert (L1 (BACK c)) by (by apply L1_back). assert (L0 (BACK c)) by (by apply L0_of_L1).
    assert (L3 (BACK c)) by (apply L3_paren; [simpl; lia|done|done]). auto 8 using L2_of_L3.
Qed.

Lemma show_nonul c : ∀ k, printable c → 0 ∉ show k c.
Proof.
  assert (Hpar : ∀ b t, 0 ∉ t → 0 ∉ paren b t).
  { intros [] t Ht; [|done]. unfold paren. rewrite !not_elem_of_app. split_and!; [|done|]; vm_compute; by intros [?|[]%elem_of_nil]%elem_of_cons. }
  assert (Hw : ∀ w, plain_word w → 0 ∉ w). { intros w [_ H] Hin. rewrite Forall_forall in H. by destruct (H _ Hin). }
  unfold printable. induction c; intros k Hp; cbn [show]; apply Hpar; cbn [cmd_words] in Hp; rewrite ?Forall_app in Hp; rewrite ?not_elem_of_app.
  - clear k. induction Hp as [|w ws Hw1 Hws IH]; [apply not_elem_of_nil|]. cbn [unwords]. rewrite not_elem_of_app. split; [by apply Hw|].
    destruct ws; [apply not_elem_of_nil|]. rewrite not_elem_of_app. split; [by vm_compute; intros [?|[]%elem_of_nil]%elem_of_cons|done].
  - destruct Hp as [Hp Hf%Forall_inv]. split; [by apply IHc|]. unfold show_redir. rewrite not_elem_of_app. split; [|by apply Hw].
    destruct (fd =? 0); by vm_compute; intros [?|[]%elem_of_nil]%elem_of_cons.
  - destruct Hp. split; [by apply IHc1|]. split; [by vm_compute; intros [?|[]%elem_of_nil]%elem_of_cons|by apply IHc2].
  - destruct Hp. split; [by apply IHc1|]. split; [by vm_compute; intros [?|[]%elem_of_nil]%elem_of_cons|by apply IHc2].
  - split; [by apply IHc|]. by vm_compute; intros [?|[]%elem_of_nil]%elem_of_cons.
Qed.
Lemma cmd_map_ext {V W} (f g : V → W) c : Forall (fun w => f w = g w) (cmd_words c) → cmd_map f c = cmd_map g c.
Proof.
  induction c; simpl; rewrite ?Forall_app, ?Forall_singleton; intros H; [|destruct H; f_equal; auto..|f_equal; auto].
  f_equal. by apply Forall_fmap_ext_1.
Qed.

Definition blank (c : Z) : Prop := strchr whitespace c = true.
Lemma skipws_blanks l : Forall blank l → skipws l = [].
Proof. induction 1 as [|c l Hc _ IH]; [done|]. unfold skipws in *. simpl. by rewrite Hc. Qed.
Lemma parse_show c l : wf_cmd c → printable c → Forall blank l →
  ∃ c' buf, parsecmd (show 0 c ++ l) = Parsed c' buf ∧ cmd_map (string_at (length (show 0 c ++ l)) buf) c' = c.
Proof.
  intros Hwf Hp Hl. destruct (parse_levels c Hwf Hp) as (_ & _ & _ & H0). set (line := show 0 c ++ l).
  assert (Hf : follow F0 l) by (unfold follow; by rewrite skipws_blanks).
  destruct (H0 (parse_depth line) l Hf) as (c' & R & E); [unfold parse_depth, line; lia|]. rewrite (skipws_blanks l) in R by done.
  destruct (parse_good line (parse_depth line) line ltac:(done)) as (G & _).
  specialize (G ltac:(unfold parse_depth; lia)). unfold parsecmd. fold line in R. rewrite R in G |- *. destruct G as (_ & Ht & _). cbn [skipws skip].
  eexists c', _. split; [done|]. etrans; [|exact E]. apply cmd_map_ext. rewrite nulterminate_words. apply Forall_forall. intros w Hw.
  apply token_string; [|done|done]. unfold line. rewrite not_elem_of_app. split; [by apply show_nonul|].
  intros H0'. rewrite Forall_forall in Hl. by specialize (Hl _ H0').
Qed.

(** C29: A command printed as text, with parentheses only where precedence asks for
    them and followed by any blanks, is parsed back as the same tree, the strings of
    its words being read from the line after [nulterminate]. *)
Theorem show_parsecmd c blanks : wf_cmd c → printable c → Forall blank blanks →
  ∃ c' buf, parsecmd (show 0 c ++ blanks) = Parsed c' buf ∧
    cmd_map (string_at (length (show 0 c ++ blanks)) buf) c' = c.
Proof. apply parse_show. Qed.
Lemma show_parsecmd_witness :
  let c := PIPE (LIST (EXEC [chars "ls"]) (BACK (EXEC [chars "a"; chars "b"]))) (REDIR (EXEC [chars "wc"]) (chars "f") 0 0) in
  show 0 c = chars "(ls;a b&)|wc<f" ∧
  ∃ c' buf, parsecmd (show 0 c ++ [10]) = Parsed c' buf ∧ cmd_map (string_at (length (show 0 c ++ [10])) buf) c' = c.
Proof.
  intros c. split; [vm_compute; reflexivity|]. apply (show_parsecmd c [10]).
  - vm_compute. repeat split; auto.
  - unfold printable, plain_word. vm_compute. repeat constructor; discriminate.
  - repeat constructor.
Defined.

(** * Running commands *)

(** The system calls of the shell.  [Exec] goes on only when it fails; [Fork]
    goes on in the child with 0 and in the parent with its pid; [Read] is
    [read(0, &c, 1)]; [Print] is [printf] to a file. *)
Inductive sys : Type :=
| Exit
| Exec (path : list Z) (argv : list (list Z)) (k : sys)
| Open (file : list Z) (mode : Z) (k : Z → sys)
| Close (fd : Z) (k : sys)
| Dup (fd : Z) (k : sys)
| Pipe (k : option (Z * Z) → sys)
| Fork (k : Z → sys)
| Wait (k : sys)
| Chdir (path : list Z) (k : Z → sys)
| Read (k : option Z → sys)
| Print (fd : Z) (s : list Z) (k : sys)
| Stop.

Definition sh_panic (s : list Z) : sys := Print 2 (s ++ [10]) Exit.
Definition fork1 (k : Z → sys) : sys := Fork (fun pid => if pid =? -1 then sh_panic (chars "fork") else k pid).
Fixpoint runcmd (c : cmd (list Z)) : sys :=
  match c with
  | EXEC [] => Exit
  | EXEC (path :: args) =>
      Exec path (path :: args) (Print 2 (chars "exec " ++ path ++ chars " failed" ++ [10]) Exit)
  | REDIR c file mode fd =>
      Close fd (Open file mode (fun r =>
        if r <? 0 then Print 2 (chars "open " ++ file ++ chars " failed" ++ [10]) Exit else runcmd c))
  | LIST l r => fork1 (fun pid => if pid =? 0 then runcmd l else Wait (runcmd r))
  | PIPE l r =>
      Pipe (fun p =>
        match p with
        | None => sh_panic (chars "pipe")
        | Some (p0, p1) =>
            fork1 (fun pid =>
              if pid =? 0 then Close 1 (Dup p1 (Close p0 (Close p1 (runcmd l)))) else
              fork1 (fun pid =>
                if pid =? 0 then Close 0 (Dup p0 (Close p0 (Close p1 (runcmd r)))) else
                Close p0 (Close p1 (Wait (Wait Exit)))))
        end)
  | BACK c => fork1 (fun pid => if pid =? 0 then runcmd c else Exit)
  end.

(** [gets(buf, max)]: [n] is [max - 1 - i], and the bytes read so far are in [acc]. *)
Fixpoint gets_loop (n : nat) (acc : list Z) (k : list Z → sys) : sys :=
  match n with
  | O => k acc
  | S n =>
      Read (fun o =>
        match o with
        | None => k acc
        | Some c => if (c =? 10) || (c =? 13) then k (acc ++ [c]) else gets_loop n (acc ++ [c]) k
        end)
  end.
Definition LINEBUF : nat := 100.
(** The contents of [buf] after [memset] and [gets]; [None] is -1. *)
Definition getcmd (k : option (list Z) → sys) : sys :=
  Print 2 (chars "$ ") (gets_loop (LINEBUF - 1) [] (fun acc =>
    let buf := acc ++ replicate (LINEBUF - length acc) 0 in
    if default 0 (buf !! 0%nat) =? 0 then k None else k (Some buf))).
Definition is_cd (buf : list Z) : bool := bool_decide (take 3 buf = chars "cd ").
(** The child: [runcmd(parsecmd(buf))]. *)
Definition run_line (line : list Z) : sys :=
  match parsecmd line with
  | Parsed c buf => runcmd (cmd_map (string_at (length line) buf) c)
  | Died msg => Print 2 msg Exit
  | Stuck => Stop
  end.
Fixpoint read_loop (fuel : nat) : sys :=
  match fuel with
  | O => Stop
  | S fuel =>
      getcmd (fun o =>
        match o with
        | None => Exit
        | Some buf =>
            let line := str_of buf in
            if is_cd buf then
              let buf := <[(length line - 1)%nat := 0]> buf in
              let path := str_of (drop 3 buf) in
              Chdir path (fun r =>
                if r <? 0 then Print 2 (chars "cannot cd " ++ path ++ [10]) (read_loop fuel) else read_loop fuel)
            else fork1 (fun pid => if pid =? 0 then run_line line else Wait (read_loop fuel))
        end)
  end.
Fixpoint open_loop (fuel n : nat) : sys :=
  match n with
  | O => Stop
  | S n =>
      Open (chars "console") O_RDWR (fun fd =>
        if 0 <=? fd then if 3 <=? fd then Close fd (read_loop fuel) else open_loop fuel n
        else read_loop fuel)
  end.
Definition main (fuel : nat) : sys := open_loop fuel 4.

(** ** What the calls do *)

(** What a file descriptor refers to. *)
Inductive obj := Std (n : Z) | File (name : list Z) (mode : Z) | PipeR (n : nat) | PipeW (n : nat).
Definition fdt : Type := list (option obj).
Definition FDS : nat := 16.
(** The kernel gives out the lowest free descriptor. *)
Fixpoint lowest_from (i : Z) (f : fdt) : option Z :=
  match f with [] => None | None :: _ => Some i | Some _ :: f => lowest_from (i + 1) f end.
Definition lowest (f : fdt) : option Z := lowest_from 0 f.

Inductive ev :=
| EvExec (argv : list (list Z)) (f : fdt)   (* a program started with these descriptors *)
| EvWait (f : fdt)                          (* a wait with these descriptors open *)
| EvPrint (fd : Z) (s : list Z)
| EvChdir (path : list Z)
| EvStop.
Definition state : Type := nat * list Z.    (* pipes made so far, console input left *)

Section semantics.
Variable can_exec : list Z → bool.
Variable can_open : list Z → Z → bool.
Variable can_chdir : list Z → bool.

(** The events of a process and its children; a child's events come at its fork. *)
Fixpoint run (t : sys) (f : fdt) (st : state) : list ev * state :=
  match t with
  | Exit => ([], st)
  | Stop => ([EvStop], st)
  | Exec path argv k => if can_exec path then ([EvExec argv f], st) else run k f st
  | Open file mode k =>
      match lowest f with
      | Some fd => if can_open file mode then run (k fd) (zupd fd (Some (File file mode)) f) st else run (k (-1)) f st
      | None => run (k (-1)) f st
      end
  | Close fd k => run k (zupd fd None f) st
  | Dup fd k =>
      match znth f fd, lowest f with
      | Some (Some o), Some d => run k (zupd d (Some o) f) st
      | _, _ => run k f st
      end
  | Pipe k =>
      match lowest f with
      | Some a =>
          let f1 := zupd a (Some (PipeR st.1)) f in
          match lowest f1 with
          | Some b => run (k (Some (a, b))) (zupd b (Some (PipeW st.1)) f1) (S st.1, st.2)
          | None => run (k None) f st
          end
      | None => run (k None) f st
      end
  | Fork k => let '(e1, st1) := run (k 0) f st in let '(e2, st2) := run (k 1) f st1 in (e1 ++ e2, st2)
  | Wait k => let '(e, st') := run k f st in (EvWait f :: e, st')
  | Chdir path k => let '(e, st') := run (k (if can_chdir path then 0 else -1)) f st in (EvChdir path :: e, st')
  | Read k => match st.2 with [] => run (k None) f st | c :: i => run (k (Some c)) f (st.1, i) end
  | Print fd s k => let '(e, st') := run k f st in (EvPrint fd s :: e, st')
  end.

(** What a command means, given the descriptors it runs with. *)
Fixpoint jobs (c : cmd (list Z)) (f : fdt) (n : nat) : list ev * nat :=
  match c with
  | EXEC [] => ([], n)
  | EXEC (path :: args) =>
      (if can_exec path then [EvExec (path :: args) f] else [EvPrint 2 (chars "exec " ++ path ++ chars " failed" ++ [10])], n)
  | REDIR c file mode fd =>
      if can_open file mode then jobs c (zupd fd (Some (File file mode)) f) n
      else ([EvPrint 2 (chars "open " ++ file ++ chars " failed" ++ [10])], n)
  | LIST l r => let '(e1, n1) := jobs l f n in let '(e2, n2) := jobs r f n1 in (e1 ++ EvWait f :: e2, n2)
  | PIPE l r =>
      let '(e1, n1) := jobs l (zupd 1 (Some (PipeW n)) f) (S n) in
      let '(e2, n2) := jobs r (zupd 0 (Some (PipeR n)) f) n1 in
      (e1 ++ e2 ++ [EvWait f; EvWait f], n2)
  | BACK c => jobs c f n
  end.

(** Descriptors 0, 1 and 2 open and no other. *)
Definition std_fds (a b e : obj) : fdt := [Some a; Some b; Some e] ++ replicate (FDS - 3) None.

Lemma run_jobs c : ∀ a b e n i, wf_cmd c →
  run (runcmd c) (std_fds a b e) (n, i) = (let '(es, n') := jobs c (std_fds a b e) n in (es, (n', i))).
Proof.
  induction c as [argv|c IH file mode fd|l IHl r IHr|l IHl r IHr|c IH]; intros a b e n i Hwf; simpl in Hwf.
  - destruct argv as [|path args]; [done|]. simpl. by destruct (can_exec path).
  - destruct Hwf as [Hwf Hk]. cbn [runcmd run jobs].
    assert (E : lowest (zupd fd None (std_fds a b e)) = Some fd ∧
      ∃ a' b', zupd fd (Some (File file mode)) (zupd fd None (std_fds a b e)) = std_fds a' b' e ∧
        zupd fd (Some (File file mode)) (std_fds a b e) = std_fds a' b' e).
    { destruct Hk as [[_ ->]|[_ ->]]; (split; [done|]); by eexists _, _. }
    destruct E as (-> & a' & b' & E1 & E2). destruct (can_open file mode); [|done]. rewrite E1, E2.
    destruct (Z.ltb_spec fd 0) as [Hlt|_]; [destruct Hk as [[_ ->]|[_ ->]]; lia|]. by apply IH.
  - destruct Hwf as [W1 W2]. cbn [runcmd run jobs]. change (lowest (std_fds a b e)) with (Some 3). cbn iota.
    change (lowest (zupd 3 _ (std_fds a b e))) with (Some 4). cbn iota. unfold fork1. cbn [run Z.eqb].
    change (zupd 1 (Some (PipeW n)) (std_fds a b e)) with (std_fds a (PipeW n) e).
    change (zupd 0 (Some (PipeR n)) (std_fds a b e)) with (std_fds (PipeR n) b e). cbn [fst].
    set (f := zupd 4 (Some (PipeW n)) (zupd 3 (Some (PipeR n)) (std_fds a b e))).
    change (znth (zupd 1 None f) 4) with (Some (Some (PipeW n))). change (lowest (zupd 1 None f)) with (Some 1). cbn iota.
    change (zupd 4 None (zupd 3 None (zupd 1 (Some (PipeW n)) (zupd 1 None f)))) with (std_fds a (PipeW n) e).
    rewrite IHl by done. destruct (jobs l _ _) as [e1 n1].
    change (znth (zupd 0 None f) 3) with (Some (Some (PipeR n))). change (lowest (zupd 0 None f)) with (Some 0). cbn iota.
    change (zupd 4 None (zupd 3 None (zupd 0 (Some (PipeR n)) (zupd 0 None f)))) with (std_fds (PipeR n) b e).
    rewrite IHr by done. destruct (jobs r _ _) as [e2 n2].
    change (zupd 4 None (zupd 3 None f)) with (std_fds a b e). done.
  - destruct Hwf as [W1 W2]. cbn [runcmd run jobs]. unfold fork1. cbn [run Z.eqb]. rewrite IHl by done. destruct (jobs l _ _) as [e1 n1].
    cbn [run]. rewrite IHr by done. by destruct (jobs r _ _) as [e2 n2].
  - cbn [runcmd run jobs]. unfold fork1. cbn [run Z.eqb]. rewrite IH by done. destruct (jobs c _ _) as [e1 n1]. simpl. by rewrite app_nil_r.
Qed.

Lemma run_gets k f m rest l : ∀ n acc, (length l < n)%nat → Forall (fun c => c ≠ 10 ∧ c ≠ 13) l →
  run (gets_loop n acc k) f (m, l ++ 10 :: rest) = run (k (acc ++ l ++ [10])) f (m, rest).
Proof.
  induction l as [|c l IH]; intros n acc Hn Hl; (destruct n as [|n]; [simpl in Hn; lia|]); [done|].
  apply Forall_cons in Hl as [[H1 H2] Hl]. simpl in Hn. simpl.
  destruct (Z.eqb_spec c 10); [done|]. destruct (Z.eqb_spec c 13); [done|]. simpl.
  rewrite IH by (done || lia). by rewrite <- (assoc_L (++)).
Qed.
Lemma show_chars c : ∀ k, printable c → Forall (fun c => c ≠ 10 ∧ c ≠ 13) (show k c).
Proof.
  assert (Hpar : ∀ b t, Forall (fun c => c ≠ 10 ∧ c ≠ 13) t → Forall (fun c => c ≠ 10 ∧ c ≠ 13) (paren b t)).
  { intros [] t Ht; [|done]. unfold paren. rewrite !Forall_app. split; [by repeat constructor|]. split; [done|by repeat constructor]. }
  assert (Hw : ∀ w, plain_word w → Forall (fun c => c ≠ 10 ∧ c ≠ 13) w).
  { intros w [_ H]. eapply Forall_impl; [exact H|]. simpl. intros d [Hd _]. split; intros ->; discriminate Hd. }
  unfold printable. induction c; intros k Hp; cbn [show]; apply Hpar; cbn [cmd_words] in Hp; rewrite ?Forall_app in Hp; rewrite ?Forall_app.
  - clear k. induction Hp as [|w ws Hw1 Hws IH]; [constructor|]. cbn [unwords]. rewrite Forall_app. split; [by apply Hw|].
    destruct ws; [constructor|]. rewrite Forall_app. split; [by repeat constructor|done].
  - destruct Hp as [Hp Hf%Forall_inv]. split; [by apply IHc|]. unfold show_redir. rewrite Forall_app. split; [|by apply Hw].
    destruct (fd =? 0); by repeat constructor.
  - destruct Hp. split; [by apply IHc1|]. split; [by repeat constructor|by apply IHc2].
  - destruct Hp. split; [by apply IHc1|]. split; [by repeat constructor|by apply IHc2].
  - split; [by apply IHc|]. by repeat constructor.
Qed.
Lemma not_cd l z : is_cd l = false → is_cd (l ++ 10 :: z) = false.
Proof.
  unfold is_cd. rewrite !bool_decide_eq_false. intros H E. apply H.
  destruct l as [|a [|b [|c l]]]; [discriminate E..|]. exact E.
Qed.

(** C12: A line of fewer than 99 characters that is the text of a command (other than
    [cd]) typed at the prompt runs that command: every program of it is started once with its own arguments,
    its standard input and output being the ends of the pipes and the files the
    command names and no other descriptor open, the shell waits with no end of a
    pipe open, and goes on to the next line. *)
Theorem shell_runs_line c rest a b e n fuel : wf_cmd c → printable c → is_cd (show 0 c) = false → (length (show 0 c) < LINEBUF - 1)%nat →
  run (read_loop (S fuel)) (std_fds a b e) (n, show 0 c ++ 10 :: rest) =
  let '(es, n') := jobs c (std_fds a b e) n in
  let '(es', st) := run (read_loop fuel) (std_fds a b e) (n', rest) in
  (EvPrint 2 (chars "$ ") :: es ++ EvWait (std_fds a b e) :: es', st).
Proof.
  intros Hwf Hp Hcd Hl. pose proof (show_nonul c 0 Hp) as Hnul. cbn [read_loop]. unfold getcmd. cbn [run].
  rewrite run_gets by (done || by apply show_chars). cbn [app].
  set (line := show 0 c ++ [10]). set (buf := line ++ replicate (LINEBUF - length line) 0).
  assert (H0 : (default 0 (buf !! 0%nat) =? 0) = false).
  { unfold buf, line. destruct (show 0 c) as [|d t]; [done|]. simpl. apply not_elem_of_cons in Hnul as [Hd _]. by apply Z.eqb_neq. }
  rewrite H0. assert (Hb : str_of buf = line).
  { unfold buf. assert (L : (length line < LINEBUF)%nat) by (unfold line; rewrite length_app; simpl; unfold LINEBUF in *; lia).
    destruct (LINEBUF - length line)%nat as [|k] eqn:E; [lia|]. simpl. apply str_of_nul. unfold line. rewrite not_elem_of_app.
    split; [done|]. by intros [?|[]%elem_of_nil]%elem_of_cons. }
  rewrite Hb. replace (is_cd buf) with false by (symmetry; unfold buf, line; rewrite <- (assoc_L (++)); by apply not_cd).
  unfold fork1. cbn [run Z.eqb].
  unfold run_line. destruct (parse_show c [10] Hwf Hp) as (c' & buf' & Ep & E); [by repeat constructor|]. fold line in Ep, E.
  rewrite Ep, E.
  rewrite run_jobs by done. destruct (jobs c (std_fds a b e) n) as [es n']. cbn [run].
  by destruct (run (read_loop fuel) (std_fds a b e) (n', rest)) as [es' st].
Qed.
End semantics.
Lemma shell_runs_line_witness :
  let f := std_fds (Std 0) (Std 1) (Std 2) in
  run (fun _ => true) (fun _ _ => true) (fun _ => true) (read_loop 2) f (0%nat, chars "ls|wc>f" ++ [10]) =
  ([EvPrint 2 (chars "$ "); EvExec [chars "ls"] (std_fds (Std 0) (PipeW 0) (Std 2));
    EvExec [chars "wc"] (std_fds (PipeR 0) (File (chars "f") 513) (Std 2)); EvWait f; EvWait f; EvWait f; EvPrint 2 (chars "$ ")], (1%nat, [])).
Proof.
  intros f. refine (eq_trans (shell_runs_line (fun _ => true) (fun _ _ => true) (fun _ => true)
    (PIPE (EXEC [chars "ls"]) (REDIR (EXEC [chars "wc"]) (chars "f") 513 1)) [] (Std 0) (Std 1) (Std 2) 0 1 _ _ _ _) _).
  - vm_compute. repeat split; auto.
  - unfold printable, plain_word. vm_compute. repeat constructor; discriminate.
  - vm_compute. reflexivity.
  - vm_compute. lia.
  - vm_compute. reflexivity.
Defined.
