(* ===== verification/Mkfs.v ===== *)
(** The file system image builder: [tools/mkfs.c].

    The image file is the list of its 512-byte sectors.  Input and output on the
    host succeed; a failed assertion and a call of [exit(1)] are [Panic].  The
    host is little-endian, so that [xint] and [xshort] only cut their argument to
    its width.  A [struct dinode] is the [inode] record of the kernel, stored and
    loaded with the same layout. *)

From S2P Require Import Prelude Spin Sched Mem Str Dll Bio Log Tx Fs Inode Balloc Dinode Content Writei.

(** * The program *)

Definition nblocks : Z := 985.
Definition nlog : Z := LOGSIZE.
Definition ninodes : Z := 200.
Definition size : Z := 1024.

Record mk := Mk {
  m_img : list (list Z);     (* the file fsfd *)
  m_freeblock : Z;
  m_usedblocks : Z;
  m_bitblocks : Z;
  m_freeinode : Z;
}.
Definition set_m_img v r := Mk v (m_freeblock r) (m_usedblocks r) (m_bitblocks r) (m_freeinode r).
Definition set_m_freeblock v r := Mk (m_img r) v (m_usedblocks r) (m_bitblocks r) (m_freeinode r).
Definition set_m_usedblocks v r := Mk (m_img r) (m_freeblock r) v (m_bitblocks r) (m_freeinode r).
Definition set_m_bitblocks v r := Mk (m_img r) (m_freeblock r) (m_usedblocks r) v (m_freeinode r).
Definition set_m_freeinode v r := Mk (m_img r) (m_freeblock r) (m_usedblocks r) (m_bitblocks r) v.
(** The image file just truncated, the globals as they are initialised. *)
Definition mk0 : mk := Mk [] 0 0 0 1.

Definition xshort (x : Z) : Z := u16 x.
Definition xint (x : Z) : Z := u32 x.
Definition zeroes : list Z := replicate 512 0.

(** A write beyond the end of the file extends it. *)
Definition put_sector (sec : Z) (buf : list Z) (img : list (list Z)) : list (list Z) :=
  if sec <? zlen img then zupd sec buf img
  else img ++ replicate (Z.to_nat (sec - zlen img)) zeroes ++ [buf].
Definition wsect (sec : Z) (buf : list Z) : M mk unit :=
  modify (fun s => set_m_img (put_sector sec buf (m_img s)) s).
Definition rsect (sec : Z) : M mk (list Z) :=
  let* img := gets m_img in
  match znth img sec with Some buf => ret buf | None => panic "read" end.
Definition i2b (inum : Z) : Z := inum / IPB + 2.
Definition winode (inum : Z) (din : inode) : M mk unit :=
  let bn := i2b inum in
  let* buf := rsect bn in
  wsect bn (put_dinode (dip_off inum) din buf).
Definition zero_dinode : inode := Inode 0 0 0 0 0 0 0 0 0 (replicate 13 0).
Definition rinode (inum : Z) : M mk inode :=
  let bn := i2b inum in
  let* buf := rsect bn in
  ret (get_dinode (dip_off inum) buf zero_dinode).
Definition ialloc (type : Z) : M mk Z :=
  let* inum := gets m_freeinode in
  modify (set_m_freeinode (u32 (inum + 1))) ;;
  winode inum (set_i_size (xint 0) (set_i_nlink (xshort 1) (set_i_type (xshort type) zero_dinode))) ;;
  ret inum.
(** [buf[i/8] = buf[i/8] | (0x1 << (i%8))] for every [i < used]. *)
Fixpoint mark_bits (n : nat) (i : Z) (buf : list Z) : list Z :=
  match n with
  | O => buf
  | S n => mark_bits n (i + 1) (zupd (i / 8) (u8 (Z.lor (default 0 (znth buf (i / 8))) (Z.shiftl 1 (i mod 8)))) buf)
  end.
Definition balloc (used : Z) : M mk unit :=
  panic_if (negb (used <? 512 * 8)) "assert" ;;
  wsect (ninodes / IPB + 3) (mark_bits (Z.to_nat used) 0 zeroes).

(** [xint(freeblock++)], counted in [usedblocks]. *)
Definition take_block : M mk Z :=
  let* b := gets m_freeblock in
  modify (set_m_freeblock (u32 (b + 1))) ;;
  modify (fun s => set_m_usedblocks (u32 (m_usedblocks s + 1)) s) ;;
  ret (xint b).
(** [if(xint(din.addrs[i]) == 0) din.addrs[i] = xint(freeblock++)] *)
Definition addr_block (din : inode) (i : Z) : M mk inode :=
  if xint (baddr din i) =? 0 then
    let* b := take_block in ret (set_i_addrs (zupd i b (i_addrs din)) din)
  else ret din.
(** The block of the file at block number [fbn], allocated if need be. *)
Definition file_block (din : inode) (fbn : Z) : M mk (inode * Z) :=
  if fbn <? NDIRECT then
    let* din := addr_block din fbn in
    ret (din, xint (baddr din fbn))
  else
    let* din := addr_block din NDIRECT in
    let* indirect := rsect (xint (baddr din NDIRECT)) in
    let o := Z.to_nat (4 * (fbn - NDIRECT)) in
    if get32 o indirect =? 0 then
      let* b := take_block in
      let indirect := put32 o b indirect in
      wsect (xint (baddr din NDIRECT)) indirect ;;
      ret (din, xint (get32 o indirect))
    else ret (din, xint (get32 o indirect)).
(** The loop of [iappend]; returns [din] and [off]. *)
Fixpoint iappend_loop (fuel : nat) (din : inode) (off : Z) (p : list Z) : M mk (inode * Z) :=
  match p with
  | [] => ret (din, off)
  | _ =>
      match fuel with
      | O => out_of_fuel
      | S fuel =>
          let fbn := off / 512 in
          panic_if (negb (fbn <? MAXFILE)) "assert" ;;
          let* r := file_block din fbn in
          let '(din, x) := r in
          let n1 := Z.min (zlen p) (u32 ((fbn + 1) * 512 - off)) in
          let* buf := rsect x in
          wsect x (splice (Z.to_nat (off - fbn * 512)) (take (Z.to_nat n1) p) buf) ;;
          iappend_loop fuel din (u32 (off + n1)) (drop (Z.to_nat n1) p)
      end
  end.
(** Every step takes at least one byte of [p]. *)
Definition iappend (inum : Z) (p : list Z) : M mk unit :=
  let* din := rinode inum in
  let* r := iappend_loop (length p) din (xint (i_size din)) p in
  let '(din, off) := r in
  winode inum (set_i_size (xint off) din).

(** A [struct dirent]. *)
Definition dirent (inum : Z) (name : list Z) : list Z :=
  le_enc 2 (xshort inum) ++ take (Z.to_nat DIRSIZ) (str_of name ++ replicate (Z.to_nat DIRSIZ) 0).
(** [while((cc = read(fd, buf, sizeof(buf))) > 0) iappend(inum, buf, cc)] *)
Fixpoint copy_file (fuel : nat) (inum : Z) (data : list Z) : M mk unit :=
  match data with
  | [] => ret tt
  | _ =>
      match fuel with
      | O => out_of_fuel
      | S fuel => iappend inum (take 512 data) ;; copy_file fuel inum (drop 512 data)
      end
  end.
(** The name without a leading underscore. *)
Definition entry_name (argv : list Z) : list Z :=
  match argv with c :: n => if c =? 95 then n else argv | [] => [] end.
(** One file of the command line: its name, and its contents if it can be opened. *)
Definition add_file (rootino : Z) (f : list Z * option (list Z)) : M mk unit :=
  panic_if (bool_decide (47 ∈ f.1)) "assert" ;;
  match f.2 with
  | None => panic "open"
  | Some data =>
      let* inum := ialloc T_FILE in
      iappend rootino (dirent inum (entry_name f.1)) ;;
      copy_file (length data) inum data
  end.
Fixpoint add_files (rootino : Z) (fs : list (list Z * option (list Z))) : M mk unit :=
  match fs with [] => ret tt | f :: fs => add_file rootino f ;; add_files rootino fs end.
Definition superblock_bytes : list Z :=
  le_enc 4 (xint size) ++ le_enc 4 (xint nblocks) ++ le_enc 4 (xint ninodes) ++ le_enc 4 (xint nlog).
Definition main (files : list (list Z * option (list Z))) : M mk unit :=
  modify (set_m_bitblocks (size / (512 * 8) + 1)) ;;
  modify (fun s => set_m_usedblocks (ninodes / IPB + 3 + m_bitblocks s) s) ;;
  modify (fun s => set_m_freeblock (m_usedblocks s) s) ;;
  let* s := gets (fun s => s) in
  panic_if (negb (nblocks + m_usedblocks s + nlog =? size)) "assert" ;;
  for_all (Z.to_nat (nblocks + m_usedblocks s + nlog)) 0 (fun i => wsect i zeroes) ;;
  wsect 1 (splice 0 superblock_bytes zeroes) ;;
  let* rootino := ialloc T_DIR in
  panic_if (negb (rootino =? ROOTINO)) "assert" ;;
  iappend rootino (dirent rootino (chars ".")) ;;
  iappend rootino (dirent rootino (chars "..")) ;;
  add_files rootino files ;;
  let* din := rinode rootino in
  let off := xint (i_size din) in
  let off := u32 ((off / BSIZE + 1) * BSIZE) in
  winode rootino (set_i_size (xint off) din) ;;
  let* used := gets m_usedblocks in
  balloc used.

(** * The layout of an image under construction *)

(** Block [k] of a file; its indirect block is number 140. *)
Definition mblk (V : Z → list Z) (r : inode) (k : Z) : Z := if k =? 140 then ind r else fblk V r k.

(** Blocks from 29 up to [fb] are taken, each by one place of one file; the
    others are still zero.  The files of [F] have their contents on the image and
    zeroes after them. *)
Record lay (V : Z → list Z) (fb : Z) (F : gmap Z (inode * list Z)) : Prop := {
  ly_fb : 29 ≤ fb ≤ 1014;
  ly_len : ∀ b, 0 ≤ b < 1024 → length (V b) = 512%nat;
  ly_fresh : ∀ b, fb ≤ b < 1024 → V b = zeroes;
  ly_addrs : ∀ i r c, F !! i = Some (r, c) → length (i_addrs r) = 13%nat;
  ly_size : ∀ i r c, F !! i = Some (r, c) → i_size r = zlen c ∧ zlen c ≤ 140 * 512;
  ly_range : ∀ i r c k, F !! i = Some (r, c) → 0 ≤ k ≤ 140 → mblk V r k ≠ 0 → 29 ≤ mblk V r k < fb;
  ly_inj : ∀ i r c k j r' c' k', F !! i = Some (r, c) → F !! j = Some (r', c') → 0 ≤ k ≤ 140 → 0 ≤ k' ≤ 140 →
    mblk V r k ≠ 0 → mblk V r k = mblk V r' k' → i = j ∧ k = k';
  ly_full : ∀ i r c bn, F !! i = Some (r, c) → 0 ≤ bn → bn * 512 < zlen c → fblk V r bn ≠ 0;
  ly_byte : ∀ i r c p, F !! i = Some (r, c) → 0 ≤ p < 140 * 512 → fblk V r (p / 512) ≠ 0 →
    fbyte V r p = default 0 (znth c p);
}.

Lemma mblk_blk V r k : 0 ≤ k < 140 → mblk V r k = fblk V r k.
Proof. intros. unfold mblk. destruct (Z.eqb_spec k 140); [lia|done]. Qed.
Lemma mblk_ind V r : mblk V r 140 = ind r.
Proof. done. Qed.

(** A file none of whose blocks changed. *)
Lemma mblk_frame V V' r : (∀ k, 0 ≤ k ≤ 140 → mblk V r k ≠ 0 → V' (mblk V r k) = V (mblk V r k)) →
  (∀ k, mblk V' r k = mblk V r k) ∧ ∀ p, 0 ≤ p < 140 * 512 → fblk V r (p / 512) ≠ 0 → fbyte V' r p = fbyte V r p.
Proof.
  intros H. assert (Hf : ∀ bn, fblk V' r bn = fblk V r bn).
  { intros bn. unfold fblk. destruct (bn <? 12); [done|]. destruct (Z.eqb_spec (ind r) 0); [done|].
    pose proof (H 140 ltac:(lia)) as Hi. rewrite mblk_ind in Hi. by rewrite Hi. }
  split; [intros k; unfold mblk; by rewrite Hf|]. intros p Hp Hne. unfold fbyte. rewrite Hf.
  pose proof (div_range p Hp) as Hd. specialize (H (p / 512) ltac:(lia)). rewrite mblk_blk in H by lia. by rewrite H.
Qed.

Section update.
Context (V : Z → list Z) (fb : Z) (F : gmap Z (inode * list Z)) (i : Z) (r : inode) (c : list Z).
Context (HL : lay V fb F) (Hi : F !! i = Some (r, c)).
Context (V' : Z → list Z) (r' : inode) (c' : list Z).
(** Only one block of file [i] is written, if any. *)
Context (Hx : (∀ b, V' b = V b) ∨ ∃ k0, 0 ≤ k0 ≤ 140 ∧ mblk V r k0 ≠ 0 ∧ (∀ b, b ≠ mblk V r k0 → V' b = V b) ∧ length (V' (mblk V r k0)) = 512%nat).
Context (Ha : length (i_addrs r') = 13%nat) (Hs : i_size r' = zlen c' ∧ zlen c' ≤ 140 * 512).
Context (Hfull : ∀ bn, 0 ≤ bn → bn * 512 < zlen c' → fblk V' r' bn ≠ 0).
Context (Hbyte : ∀ p, 0 ≤ p < 140 * 512 → fblk V' r' (p / 512) ≠ 0 → fbyte V' r' p = default 0 (znth c' p)).

Lemma upd_frame j rj cj : j ≠ i → F !! j = Some (rj, cj) →
  (∀ k, mblk V' rj k = mblk V rj k) ∧ ∀ p, 0 ≤ p < 140 * 512 → fblk V rj (p / 512) ≠ 0 → fbyte V' rj p = fbyte V rj p.
Proof.
  intros Hj HF. apply mblk_frame. intros k Hk Hne. destruct Hx as [E|(k0 & Hk0 & Hn0 & E & _)]; [apply E|]. apply E. intros Eq.
  destruct (ly_inj _ _ _ HL _ _ _ _ _ _ _ _ HF Hi Hk Hk0 Hne Eq). done.
Qed.
Lemma upd_len b : 0 ≤ b < 1024 → length (V' b) = 512%nat.
Proof.
  intros Hb. destruct Hx as [E|(k0 & Hk0 & Hn0 & E & L)]; [rewrite E; by apply (ly_len _ _ _ HL)|].
  destruct (decide (b = mblk V r k0)) as [->|]; [done|]. rewrite E by done. by apply (ly_len _ _ _ HL).
Qed.
Lemma upd_fresh b : fb ≤ b < 1024 → V' b = zeroes.
Proof.
  intros Hb. rewrite <- (ly_fresh _ _ _ HL b Hb). destruct Hx as [E|(k0 & Hk0 & Hn0 & E & _)]; [apply E|]. apply E.
  pose proof (ly_range _ _ _ HL _ _ _ _ Hi Hk0 Hn0). lia.
Qed.

(** The places of file [i] are as before, but for the place [k1] when a block was
    taken for it. *)
Lemma lay_update (new : option Z) (fb' := match new with Some _ => fb + 1 | None => fb end) : fb' ≤ 1014 →
  match new with Some k1 => 0 ≤ k1 ≤ 140 ∧ mblk V r k1 = 0 | None => True end →
  (∀ k, 0 ≤ k ≤ 140 → mblk V' r' k = if bool_decide (new = Some k) then fb else mblk V r k) →
  lay V' fb' (<[i := (r', c')]> F).
Proof.
  intros Hfb Hnew Hm. pose proof (ly_fb _ _ _ HL) as Hfb0. assert (Hge : fb ≤ fb') by (unfold fb'; destruct new; lia).
  assert (Hrange : ∀ k, 0 ≤ k ≤ 140 → mblk V' r' k ≠ 0 → (new = Some k ∧ mblk V' r' k = fb ∧ fb < fb') ∨
    (new ≠ Some k ∧ mblk V r k ≠ 0 ∧ mblk V' r' k = mblk V r k ∧ 29 ≤ mblk V r k < fb)).
  { intros k Hk. rewrite (Hm k Hk). case_bool_decide as Hn; [left; split; [done|]; split; [done|unfold fb'; rewrite Hn; lia]|].
    right. split; [done|]. split; [done|]. split; [done|]. by eapply (ly_range _ _ _ HL). }
  split.
  - lia.
  - apply upd_len.
  - intros b Hb. apply upd_fresh. lia.
  - intros j rj cj [[<- [= <- <-]]|[Hj HF]]%lookup_insert_Some; [done|]. by eapply (ly_addrs _ _ _ HL).
  - intros j rj cj [[<- [= <- <-]]|[Hj HF]]%lookup_insert_Some; [done|]. by eapply (ly_size _ _ _ HL).
  - intros j rj cj k [[<- [= <- <-]]|[Hj HF]]%lookup_insert_Some Hk Hne.
    + destruct (Hrange k Hk Hne) as [(_ & -> & ?)|(_ & _ & -> & ?)]; lia.
    + destruct (upd_frame j rj cj (not_eq_sym Hj) HF) as [E _]. rewrite E in *. pose proof (ly_range _ _ _ HL _ _ _ _ HF Hk Hne). lia.
  - intros j rj cj k l rl cl k' [[<- [= <- <-]]|[Hj HF]]%lookup_insert_Some [[<- [= <- <-]]|[Hl HF']]%lookup_insert_Some Hk Hk' Hne E.
    + split; [done|]. assert (Hne' : mblk V' r' k' ≠ 0) by congruence.
      destruct (Hrange k Hk Hne) as [(N1 & E1 & ?)|(N1 & Z1 & E1 & ?)], (Hrange k' Hk' Hne') as [(N2 & E2 & ?)|(N2 & Z2 & E2 & ?)]; [congruence|lia|lia|].
      assert (Eq : mblk V r k = mblk V r k') by congruence. by destruct (ly_inj _ _ _ HL _ _ _ _ _ _ _ _ Hi Hi Hk Hk' Z1 Eq).
    + destruct (upd_frame l rl cl (not_eq_sym Hl) HF') as [El _]. rewrite El in E.
      assert (Hne' : mblk V rl k' ≠ 0) by congruence. pose proof (ly_range _ _ _ HL _ _ _ _ HF' Hk' Hne').
      destruct (Hrange k Hk Hne) as [(N1 & E1 & ?)|(N1 & Z1 & E1 & ?)]; [lia|]. rewrite E1 in E.
      by destruct (ly_inj _ _ _ HL _ _ _ _ _ _ _ _ Hi HF' Hk Hk' Z1 E).
    + destruct (upd_frame j rj cj (not_eq_sym Hj) HF) as [Ej _]. rewrite Ej in E, Hne. pose proof (ly_range _ _ _ HL _ _ _ _ HF Hk Hne).
      assert (Hne' : mblk V' r' k' ≠ 0) by congruence. destruct (Hrange k' Hk' Hne') as [(N1 & E1 & ?)|(N1 & Z1 & E1 & ?)]; [lia|]. rewrite E1 in E.
      destruct (ly_inj _ _ _ HL _ _ _ _ _ _ _ _ HF Hi Hk Hk' Hne E). done.
    + destruct (upd_frame j rj cj (not_eq_sym Hj) HF) as [Ej _], (upd_frame l rl cl (not_eq_sym Hl) HF') as [El _]. rewrite Ej in *. rewrite El in E.
      by eapply (ly_inj _ _ _ HL).
  - intros j rj cj bn [[<- [= <- <-]]|[Hj HF]]%lookup_insert_Some Hbn Hlt; [by apply Hfull|].
    destruct (upd_frame j rj cj (not_eq_sym Hj) HF) as [E _]. pose proof (ly_size _ _ _ HL _ _ _ HF).
    rewrite <- (mblk_blk V') by lia. rewrite E, mblk_blk by lia. by eapply (ly_full _ _ _ HL).
  - intros j rj cj p [[<- [= <- <-]]|[Hj HF]]%lookup_insert_Some Hp Hne; [by apply Hbyte|].
    destruct (upd_frame j rj cj (not_eq_sym Hj) HF) as [E1 E2]. pose proof (div_range p Hp).
    rewrite <- (mblk_blk V'), E1, mblk_blk in Hne by lia. rewrite E2 by done. by eapply (ly_byte _ _ _ HL).
Qed.
End update.

Lemma znth_zeroes i : default 0 (znth zeroes i) = 0.
Proof.
  unfold znth. destruct (0 <=? i); [|done]. destruct (zeroes !! Z.to_nat i) eqn:E; [|done]. by apply lookup_replicate_1 in E as [-> _].
Qed.
Lemma fbyte_blk V V' r r' p : fblk V' r' (p / 512) = fblk V r (p / 512) → V' (fblk V r (p / 512)) = V (fblk V r (p / 512)) → fbyte V' r' p = fbyte V r p.
Proof. unfold fbyte. by intros -> ->. Qed.

Section alloc.
Context (V : Z → list Z) (fb : Z) (F : gmap Z (inode * list Z)) (i : Z) (r : inode) (c : list Z).
Context (HL : lay V fb F) (Hi : F !! i = Some (r, c)) (Hfb : fb + 1 ≤ 1014).

Lemma hole_zero p : 0 ≤ p < 140 * 512 → fblk V r (p / 512) = 0 → default 0 (znth c p) = 0.
Proof.
  intros Hp H0. destruct (Z.lt_ge_cases (p / 512 * 512) (zlen c)) as [Hlt|Hge].
  - destruct (ly_full _ _ _ HL _ _ _ (p / 512) Hi); [|done|done]. pose proof (div_range p Hp). lia.
  - unfold znth. destruct (0 <=? p); [|done]. rewrite lookup_ge_None_2; [done|].
    pose proof (Z.mul_div_le p 512 ltac:(lia)). unfold zlen in Hge. lia.
Qed.
Lemma alloc_direct bn : 0 ≤ bn < 12 → baddr r bn = 0 → lay V (fb + 1) (<[i := (with_addr bn fb r, c)]> F).
Proof.
  intros Hbn H0. pose proof (ly_fb _ _ _ HL) as Hf. pose proof (ly_addrs _ _ _ HL _ _ _ Hi) as Ha.
  assert (Hb : ∀ k, fblk V (with_addr bn fb r) k = if k =? bn then fb else fblk V r k).
  { intros k. unfold fblk, ind. rewrite !baddr_with by (done || lia). destruct (Z.eqb_spec 12 bn); [lia|].
    destruct (Z.ltb_spec k 12), (Z.eqb_spec k bn); (done || lia). }
  apply (lay_update V fb F i r c HL Hi V _ _ (or_introl (fun b => eq_refl)) (eq_trans (length_with _ _ _) Ha) (ly_size _ _ _ HL _ _ _ Hi)) with (new := Some bn).
  - intros k Hk Hlt. rewrite Hb. destruct (k =? bn); [lia|]. by eapply (ly_full _ _ _ HL).
  - intros p Hp. rewrite Hb. destruct (Z.eqb_spec (p / 512) bn) as [E|].
    + intros _. rewrite hole_zero; [|done|unfold fblk; rewrite E; destruct (Z.ltb_spec bn 12); [done|lia]].
      unfold fbyte. rewrite Hb, E, Z.eqb_refl, (ly_fresh _ _ _ HL) by lia. apply znth_zeroes.
    + intros Hne. rewrite (fbyte_blk V V r); [by eapply (ly_byte _ _ _ HL)| |done]. rewrite Hb. by destruct (Z.eqb_spec (p / 512) bn).
  - done.
  - split; [lia|]. rewrite mblk_blk by lia. unfold fblk. by destruct (Z.ltb_spec bn 12); [|lia].
  - intros k Hk. unfold mblk. destruct (Z.eqb_spec k 140) as [->|].
    + rewrite bool_decide_false by (intros [= ->]; lia). unfold ind. rewrite baddr_with by (done || lia). by destruct (Z.eqb_spec 12 bn); [lia|].
    + rewrite Hb. destruct (Z.eqb_spec k bn) as [->|]; [by rewrite bool_decide_true|]. by rewrite bool_decide_false by congruence.
Qed.
Lemma alloc_ind : ind r = 0 → lay V (fb + 1) (<[i := (with_addr 12 fb r, c)]> F).
Proof.
  intros H0. pose proof (ly_fb _ _ _ HL) as Hf. pose proof (ly_addrs _ _ _ HL _ _ _ Hi) as Ha.
  assert (Hin : ind (with_addr 12 fb r) = fb) by (unfold ind; by rewrite baddr_with by (done || lia)).
  assert (Hb : ∀ k, fblk V (with_addr 12 fb r) k = fblk V r k).
  { intros k. unfold fblk. rewrite Hin, H0. destruct (Z.ltb_spec k 12).
    - rewrite baddr_with by (done || lia). by destruct (Z.eqb_spec k 12); [lia|].
    - destruct (Z.eqb_spec fb 0); [lia|]. simpl. rewrite (ly_fresh _ _ _ HL) by lia. apply get32_zero. }
  apply (lay_update V fb F i r c HL Hi V _ _ (or_introl (fun b => eq_refl)) (eq_trans (length_with _ _ _) Ha) (ly_size _ _ _ HL _ _ _ Hi)) with (new := Some 140).
  - intros k Hk Hlt. rewrite Hb. by eapply (ly_full _ _ _ HL).
  - intros p Hp. rewrite Hb. intros Hne. rewrite (fbyte_blk V V r); [by eapply (ly_byte _ _ _ HL)|by rewrite Hb|done].
  - done.
  - split; [lia|done].
  - intros k Hk. unfold mblk. destruct (Z.eqb_spec k 140) as [->|]; [by rewrite bool_decide_true|]. rewrite Hb. by rewrite bool_decide_false by congruence.
Qed.
Lemma alloc_entry bn : 12 ≤ bn < 140 → ind r ≠ 0 → fblk V r bn = 0 →
  lay (vupd V (ind r) (put32 (Z.to_nat (4 * (bn - 12))) fb (V (ind r)))) (fb + 1) (<[i := (r, c)]> F).
Proof.
  intros Hbn Hin H0. pose proof (ly_fb _ _ _ HL) as Hf. set (V' := vupd _ _ _).
  pose proof (ly_range _ _ _ HL _ _ _ 140 Hi ltac:(lia)) as Hir. rewrite mblk_ind in Hir. specialize (Hir Hin).
  assert (Hlen : length (V (ind r)) = 512%nat) by (apply (ly_len _ _ _ HL); lia).
  assert (HV : ∀ b, b ≠ ind r → V' b = V b) by (intros b Hne; unfold V', vupd; by destruct (Z.eqb_spec b (ind r))).
  assert (Hb : ∀ k, 0 ≤ k < 140 → fblk V' r k = if k =? bn then fb else fblk V r k).
  { intros k Hk. unfold fblk. destruct (Z.ltb_spec k 12); [by destruct (Z.eqb_spec k bn); [lia|]|].
    destruct (Z.eqb_spec (ind r) 0); [done|]. unfold V', vupd. rewrite Z.eqb_refl. destruct (Z.eqb_spec k bn) as [->|].
    - rewrite get32_put32 by lia. apply u32_small. lia.
    - apply get32_put32_other; lia. }
  apply (lay_update V fb F i r c HL Hi V' r c) with (new := Some bn).
  - right. exists 140. rewrite mblk_ind. split; [lia|]. split; [done|]. split; [done|]. unfold V', vupd. rewrite Z.eqb_refl. rewrite length_put32; lia.
  - by eapply (ly_addrs _ _ _ HL).
  - by eapply (ly_size _ _ _ HL).
  - intros k Hk Hlt. pose proof (ly_size _ _ _ HL _ _ _ Hi). rewrite Hb by lia. destruct (k =? bn); [lia|]. by eapply (ly_full _ _ _ HL).
  - intros p Hp Hne. pose proof (div_range p Hp) as Hd. rewrite Hb in Hne by done. destruct (Z.eqb_spec (p / 512) bn) as [E|En].
    + rewrite hole_zero by congruence. unfold fbyte. rewrite Hb, E, Z.eqb_refl, HV, (ly_fresh _ _ _ HL) by lia. apply znth_zeroes.
    + rewrite (fbyte_blk V V' r); [by eapply (ly_byte _ _ _ HL)| |].
      * rewrite Hb by done. by destruct (Z.eqb_spec (p / 512) bn).
      * apply HV. intros E. rewrite <- (mblk_blk V), <- (mblk_ind V) in E by lia.
        destruct (ly_inj _ _ _ HL i r c (p / 512) i r c 140 Hi Hi ltac:(lia) ltac:(lia) ltac:(rewrite mblk_blk; done) E). lia.
  - done.
  - split; [lia|]. by rewrite mblk_blk by lia.
  - intros k Hk. unfold mblk. destruct (Z.eqb_spec k 140) as [->|]; [by rewrite bool_decide_false by (intros [= ->]; lia)|].
    rewrite Hb by lia. destruct (Z.eqb_spec k bn) as [->|]; [by rewrite bool_decide_true|]. by rewrite bool_decide_false by congruence.
Qed.
End alloc.

(** Bytes added at the end of a file, within one block. *)
Lemma lay_append V fb F i r c data (bn := zlen c / 512) (x := fblk V r bn) : lay V fb F → F !! i = Some (r, c) →
  zlen c < 140 * 512 → x ≠ 0 → zlen c mod 512 + zlen data ≤ 512 →
  lay (vupd V x (splice (Z.to_nat (zlen c - bn * 512)) data (V x))) fb (<[i := (set_i_size (zlen c + zlen data) r, c ++ data)]> F).
Proof.
  intros HL Hi Hc Hx Hd. set (V' := vupd _ _ _). pose proof (ly_fb _ _ _ HL) as Hfb.
  assert (Hc0 : 0 ≤ zlen c) by (unfold zlen; lia). assert (Hd0 : 0 ≤ zlen data) by (unfold zlen; lia).
  assert (Hcl : Z.of_nat (length c) = zlen c) by done. assert (Hdl : Z.of_nat (length data) = zlen data) by done.
  pose proof (Z.mod_pos_bound (zlen c) 512 ltac:(lia)) as Hmp. pose proof (Z.div_mod (zlen c) 512 ltac:(lia)) as Hdm. fold bn in Hdm. pose proof (div_range (zlen c) ltac:(lia)) as Hbn. fold bn in Hbn.
  pose proof (ly_range _ _ _ HL _ _ _ bn Hi ltac:(lia)) as Hxr. rewrite mblk_blk in Hxr by done. fold x in Hxr. specialize (Hxr Hx).
  assert (Hlen : length (V x) = 512%nat) by (apply (ly_len _ _ _ HL); lia).
  assert (HV : ∀ b, b ≠ x → V' b = V b) by (intros b Hne; unfold V', vupd; by destruct (Z.eqb_spec b x)).
  set (o := Z.to_nat (zlen c - bn * 512)). assert (Ho : (o + length data ≤ 512)%nat) by (unfold o; lia).
  assert (Hother : ∀ k, 0 ≤ k ≤ 140 → k ≠ bn → mblk V r k ≠ 0 → mblk V r k ≠ x).
  { intros k Hk Hne H0 E. unfold x in E. rewrite <- (mblk_blk V) in E by done.
    destruct (ly_inj _ _ _ HL i r c k i r c bn Hi Hi Hk ltac:(lia) H0 E). done. }
  assert (Hb : ∀ k, fblk V' (set_i_size (zlen c + zlen data) r) k = fblk V r k).
  { intros k. change (fblk V' (set_i_size (zlen c + zlen data) r) k) with (fblk V' r k). unfold fblk. destruct (k <? 12); [done|].
    destruct (Z.eqb_spec (ind r) 0); [done|]. rewrite HV; [done|]. apply (Hother 140); [lia|lia|by rewrite mblk_ind]. }
  assert (Hcap : zlen c + zlen data ≤ 140 * 512) by lia.
  assert (Happ : zlen (c ++ data) = zlen c + zlen data) by (unfold zlen; rewrite length_app; lia).
  apply (lay_update V fb F i r c HL Hi V' _ (c ++ data)) with (new := None).
  - right. exists bn. rewrite mblk_blk by done. fold x. split; [lia|]. split; [done|]. split; [done|]. unfold V', vupd. rewrite Z.eqb_refl.
    rewrite length_splice; rewrite Hlen; [done|exact Ho].
  - by apply (ly_addrs _ _ _ HL _ _ _ Hi).
  - rewrite Happ. done.
  - intros k Hk Hlt. rewrite Hb. rewrite Happ in Hlt. destruct (Z.lt_ge_cases (k * 512) (zlen c)); [by eapply (ly_full _ _ _ HL)|].
    replace k with bn; [done|]. lia.
  - intros p Hp. rewrite Hb. intros Hne. pose proof (Z.div_mod p 512 ltac:(lia)) as Hpm. pose proof (Z.mod_pos_bound p 512 ltac:(lia)).
    destruct (decide (p / 512 = bn)) as [E|En].
    2: { rewrite (fbyte_blk V V' r); [|apply Hb|].
         - rewrite (ly_byte _ _ _ HL _ _ _ _ Hi) by done. destruct (Z.lt_ge_cases p (zlen c)); [by rewrite znth_app_l by lia|].
           rewrite znth_app_r by lia. assert (zlen c + zlen data ≤ p) by lia.
           destruct (znth c p) eqn:E1; [apply znth_Some in E1; lia|]. destruct (znth data (p - zlen c)) eqn:E2; [apply znth_Some in E2; lia|done].
         - apply HV. pose proof (div_range p Hp). rewrite <- (mblk_blk V) by done. apply Hother; [lia|done|by rewrite mblk_blk]. }
    unfold fbyte. rewrite Hb, E. fold x. unfold V', vupd. rewrite Z.eqb_refl. rewrite E in Hpm. pose proof (ly_byte _ _ _ HL _ _ _ p Hi Hp) as Hold.
    rewrite E in Hold. specialize (Hold Hx). unfold fbyte in Hold. rewrite E in Hold. fold x in Hold.
    assert (Hm : 0 ≤ p mod 512) by lia. unfold znth in Hold |- *. destruct (Z.leb_spec 0 (p mod 512)); [|lia]. destruct (Z.leb_spec 0 p); [|lia].
    destruct (Z.lt_ge_cases p (zlen c)); [|destruct (Z.lt_ge_cases p (zlen c + zlen data))].
    + rewrite lookup_splice_out; [|rewrite Hlen; exact Ho|left; unfold o; lia]. rewrite lookup_app_l by lia. done.
    + replace (Z.to_nat (p mod 512)) with (o + Z.to_nat (p - zlen c))%nat by (unfold o; lia).
      rewrite lookup_splice_in by (rewrite ?Hlen; lia). rewrite lookup_app_r by lia. do 2 f_equal. lia.
    + rewrite lookup_splice_out; [|rewrite Hlen; exact Ho|right; unfold o; lia]. rewrite Hold.
      rewrite !lookup_ge_None_2; [done| |]; rewrite ?length_app; lia.
  - lia.
  - done.
  - intros k Hk. rewrite bool_decide_false by done. unfold mblk. destruct (k =? 140); [done|]. apply Hb.
Qed.

(** * The operations keep the layout *)

Record mst (s : mk) (V : Z → list Z) (F : gmap Z (inode * list Z)) : Prop := {
  ms_len : zlen (m_img s) = 1024;
  ms_used : m_usedblocks s = m_freeblock s;
  ms_blk : ∀ b, blk (m_img s) b = V b;
  ms_lay : lay V (m_freeblock s) F;
}.

Lemma rsect_ok s V F sec : mst s V F → 0 ≤ sec < 1024 → rsect sec s = Ok (V sec) s.
Proof.
  intros [Hl _ Hb _] Hs. unfold rsect, bind, gets. simpl. rewrite <- Hb. unfold blk.
  destruct (znth_is_Some (m_img s) sec) as [x Hx]; [lia|]. by rewrite Hx.
Qed.
Lemma wsect_ok s sec buf : zlen (m_img s) = 1024 → 0 ≤ sec < 1024 → wsect sec buf s = Ok tt (set_m_img (zupd sec buf (m_img s)) s).
Proof. intros Hl Hs. unfold wsect, modify, put_sector. destruct (Z.ltb_spec sec (zlen (m_img s))); [done|lia]. Qed.
Lemma wsect_blk s V sec buf b : zlen (m_img s) = 1024 → (∀ b, blk (m_img s) b = V b) → 0 ≤ sec < 1024 →
  blk (m_img (set_m_img (zupd sec buf (m_img s)) s)) b = vupd V sec buf b.
Proof. intros Hl Hb Hs. cbn [m_img set_m_img]. rewrite blk_zupd by lia. unfold vupd. by rewrite Hb. Qed.

(** Blocks a file of [n] bytes takes. *)
Definition cost (n : Z) : Z := (n + 511) / 512 + (if 12 * 512 <? n then 1 else 0).
(** Blocks taken for the byte at the end of a file of [n] bytes. *)
Definition extra (n : Z) : Z := if n mod 512 =? 0 then if n =? 12 * 512 then 2 else 1 else 0.
Lemma cost_extra n m : 0 ≤ n → 0 < m → n mod 512 + m ≤ 512 → cost (n + m) = cost n + extra n.
Proof.
  intros Hn Hm Hle. unfold cost, extra. pose proof (Z.div_mod n 512 ltac:(lia)). pose proof (Z.mod_pos_bound n 512 ltac:(lia)).
  set (q := n / 512) in *. assert (E1 : (n + m + 511) / 512 = q + 1) by (symmetry; apply (Z.div_unique _ _ _ (n + m + 511 - 512 * (q + 1))); lia).
  rewrite E1. destruct (Z.eqb_spec (n mod 512) 0) as [E0|].
  - assert (E2 : (n + 511) / 512 = q) by (symmetry; apply (Z.div_unique _ _ _ 511); lia). rewrite E2.
    destruct (Z.eqb_spec n (12 * 512)), (Z.ltb_spec (12 * 512) (n + m)), (Z.ltb_spec (12 * 512) n); lia.
  - assert (E2 : (n + 511) / 512 = q + 1) by (symmetry; apply (Z.div_unique _ _ _ (n mod 512 - 1)); lia). rewrite E2.
    destruct (Z.ltb_spec (12 * 512) (n + m)), (Z.ltb_spec (12 * 512) n); lia.
Qed.

(** An append changes the addresses of the inode and blocks of the data area only. *)
Definition same_but_addrs (din din' : inode) : Prop := din' = set_i_addrs (i_addrs din') din.
Lemma same_but_trans a b c : same_but_addrs a b → same_but_addrs b c → same_but_addrs a c.
Proof. unfold same_but_addrs. intros -> ->. by destruct a. Qed.
Definition low_same (V V' : Z → list Z) : Prop := ∀ b, b < 29 → V' b = V b.

Lemma take_block_ok s V F : mst s V F → take_block s = Ok (m_freeblock s)
  (set_m_usedblocks (m_freeblock s + 1) (set_m_freeblock (m_freeblock s + 1) s)).
Proof.
  intros [_ Hu _ Hl]. pose proof (ly_fb _ _ _ Hl). unfold take_block, bind, gets, modify, ret, xint. simpl. rewrite Hu.
  rewrite !u32_small by lia. done.
Qed.

Section append.
Context (i : Z).

(** The places of the file at its end. *)
Lemma end_hole V fb F din c : lay V fb F → F !! i = Some (set_i_size (zlen c) din, c) → zlen c < 140 * 512 →
  zlen c mod 512 ≠ 0 → fblk V din (zlen c / 512) ≠ 0.
Proof.
  intros HL Hi Hc Hm. apply (ly_full _ _ _ HL _ _ _ _ Hi); [apply Z.div_pos; unfold zlen; lia|].
  pose proof (Z.div_mod (zlen c) 512 ltac:(lia)). pose proof (Z.mod_pos_bound (zlen c) 512 ltac:(lia)). lia.
Qed.
Lemma end_ind V fb F din c : lay V fb F → F !! i = Some (set_i_size (zlen c) din, c) → 12 * 512 < zlen c → ind din ≠ 0.
Proof.
  intros HL Hi Hc E. apply (ly_full _ _ _ HL _ _ _ 12 Hi); [lia|lia|].
  change (fblk V (set_i_size (zlen c) din) 12) with (fblk V din 12). unfold fblk. by rewrite E.
Qed.
Lemma addr_small V fb F r c k : lay V fb F → F !! i = Some (r, c) → 0 ≤ k ≤ 140 → 0 ≤ mblk V r k < 2 ^ 32.
Proof.
  intros HL Hi Hk. pose proof (ly_fb _ _ _ HL). destruct (decide (mblk V r k = 0)) as [->|Hne]; [lia|].
  pose proof (ly_range _ _ _ HL _ _ _ _ Hi Hk Hne). lia.
Qed.

Lemma addr_block_ok s V F din c k : mst s V F → F !! i = Some (set_i_size (zlen c) din, c) → 0 ≤ k ≤ 12 →
  (baddr din k = 0 → m_freeblock s + 1 ≤ 1014) →
  ∃ s' din', addr_block din k s = Ok din' s' ∧ mst s' V (<[i := (set_i_size (zlen c) din', c)]> F) ∧ baddr din' k ≠ 0 ∧ same_but_addrs din din' ∧
    m_freeblock s' = m_freeblock s + (if baddr din k =? 0 then 1 else 0) ∧ m_freeinode s' = m_freeinode s ∧
    (∀ j, j ≠ k → baddr din' j = baddr din j) ∧ (baddr din k ≠ 0 → din' = din) ∧ 0 ≤ baddr din' k < 2 ^ 32.
Proof.
  intros Hm Hi Hk Hfb. pose proof (ms_lay _ _ _ Hm) as HL. pose proof (ly_fb _ _ _ HL) as Hr.
  assert (Hsm : 0 ≤ baddr din k < 2 ^ 32).
  { destruct (decide (k = 12)) as [->|]; [apply (addr_small _ _ _ _ _ 140 HL Hi ltac:(lia))|].
    pose proof (addr_small _ _ _ _ _ k HL Hi ltac:(lia)) as H. rewrite mblk_blk in H by lia. unfold fblk in H. by destruct (Z.ltb_spec k 12); [|lia]. }
  unfold addr_block, xint. rewrite u32_small by done. destruct (Z.eqb_spec (baddr din k) 0) as [E|].
  - rewrite (bind_ok _ _ _ _ _ (take_block_ok s V F Hm)). eexists _, _. split; [done|]. specialize (Hfb E).
    pose proof (ly_addrs _ _ _ HL _ _ _ Hi) as Ha. change (i_addrs (set_i_size (zlen c) din)) with (i_addrs din) in Ha.
    assert (Hb : ∀ j, baddr (set_i_addrs (zupd k (m_freeblock s) (i_addrs din)) din) j = if j =? k then m_freeblock s else baddr din j).
    { intros j. apply baddr_with; [done|lia]. }
    split; [|split; [rewrite Hb, Z.eqb_refl; lia|]].
    + destruct Hm as [H1 H2 H3 _]. split; [done|done|done|]. cbn [m_freeblock set_m_usedblocks set_m_freeblock].
      change (set_i_size (zlen c) (set_i_addrs (zupd k (m_freeblock s) (i_addrs din)) din)) with (with_addr k (m_freeblock s) (set_i_size (zlen c) din)).
      destruct (decide (k = 12)) as [->|]; [by apply (alloc_ind V _ F i _ c)|apply (alloc_direct V _ F i _ c); (done || lia)].
    + split; [done|]. split; [done|]. split; [done|]. split; [intros j Hj; rewrite Hb; by destruct (Z.eqb_spec j k)|].
      split; [done|]. rewrite Hb, Z.eqb_refl. lia.
  - exists s, din. split; [done|]. rewrite insert_id by done. split; [done|]. split; [done|].
    split; [by destruct din|]. split; [lia|]. done.
Qed.

Lemma file_block_ok s V F din c (bn := zlen c / 512) : mst s V F → F !! i = Some (set_i_size (zlen c) din, c) →
  zlen c < 140 * 512 → m_freeblock s + extra (zlen c) ≤ 1014 →
  ∃ s' V' din' x, file_block din bn s = Ok (din', x) s' ∧ mst s' V' (<[i := (set_i_size (zlen c) din', c)]> F) ∧
    x = fblk V' din' bn ∧ x ≠ 0 ∧ same_but_addrs din din' ∧ low_same V V' ∧
    m_freeblock s' ≤ m_freeblock s + extra (zlen c) ∧ m_freeinode s' = m_freeinode s.
Proof.
  intros Hm Hi Hc Hfb. pose proof (ms_lay _ _ _ Hm) as HL. pose proof (div_range (zlen c) ltac:(unfold zlen in *; lia)) as Hbn. fold bn in Hbn.
  assert (Hz : fblk V din bn = 0 → extra (zlen c) = if zlen c =? 12 * 512 then 2 else 1).
  { intros H0. unfold extra. destruct (Z.eqb_spec (zlen c mod 512) 0) as [|Hne]; [done|]. by destruct (end_hole V _ F din c HL Hi Hc Hne). }
  assert (Hx0 : 0 ≤ extra (zlen c)) by (unfold extra; zcase).
  unfold file_block. unfold NDIRECT. destruct (Z.ltb_spec bn 12).
  - assert (Hfk : fblk V din bn = baddr din bn) by (unfold fblk; by destruct (Z.ltb_spec bn 12); [|lia]).
    destruct (addr_block_ok s V F din c bn Hm Hi ltac:(lia)) as (s' & din' & R & Hm' & Hn & Hsb & Hf & Hfi & Ho & Hid & Hsm).
    { intros H0. rewrite Hfk in Hz. specialize (Hz H0). destruct (zlen c =? 12 * 512); lia. }
    rewrite (bind_ok _ _ _ _ _ R). exists s', V, din', (baddr din' bn). unfold xint. rewrite u32_small by done.
    split; [done|]. split; [done|]. assert (Hfk' : fblk V din' bn = baddr din' bn) by (unfold fblk; by destruct (Z.ltb_spec bn 12); [|lia]).
    split; [done|]. split; [done|]. split; [done|]. split; [done|]. split; [|done]. rewrite Hf. rewrite Hfk in Hz.
    destruct (Z.eqb_spec (baddr din bn) 0) as [E|]; [rewrite (Hz E); zcase|lia].
  - assert (Hindx : ind din = 0 → extra (zlen c) = 2).
    { intros E. rewrite Hz by (unfold fblk; rewrite E; by destruct (bn <? 12) eqn:?; [lia|]). destruct (Z.eqb_spec (zlen c) (12 * 512)); [done|].
      destruct (end_ind V _ F din c HL Hi); [|done]. assert (12 * 512 ≤ zlen c); [|lia]. pose proof (Z.mul_div_le (zlen c) 512 ltac:(lia)). fold bn in H0. lia. }
    destruct (addr_block_ok s V F din c 12 Hm Hi ltac:(lia)) as (s1 & d1 & R & Hm1 & Hn & Hsb & Hf & Hfi & Ho & Hid & Hsm).
    { intros H0. rewrite (Hindx H0) in Hfb. lia. }
    rewrite (bind_ok _ _ _ _ _ R). unfold xint. rewrite (u32_small (baddr d1 12)) by done.
    pose proof (ms_lay _ _ _ Hm1) as HL1. assert (Hi1 : <[i := (set_i_size (zlen c) d1, c)]> F !! i = Some (set_i_size (zlen c) d1, c)) by apply lookup_insert_eq.
    pose proof (ly_range _ _ _ HL1 _ _ _ 140 Hi1 ltac:(lia)) as Hir. rewrite mblk_ind in Hir. specialize (Hir Hn).
    pose proof (ly_fb _ _ _ HL1) as Hfr. change (ind (set_i_size (zlen c) d1)) with (baddr d1 12) in Hir.
    assert (Hfk : fblk V d1 bn = get32 (Z.to_nat (4 * (bn - 12))) (V (baddr d1 12))).
    { unfold fblk. destruct (Z.ltb_spec bn 12); [lia|]. unfold ind. by destruct (Z.eqb_spec (baddr d1 12) 0). }
    pose proof (addr_small _ _ _ _ _ bn HL1 Hi1 ltac:(lia)) as Hes. rewrite mblk_blk in Hes by done.
    change (fblk V (set_i_size (zlen c) d1) bn) with (fblk V d1 bn) in Hes.
    rewrite (bind_ok _ _ _ _ _ (rsect_ok s1 V _ (baddr d1 12) Hm1 ltac:(lia))). rewrite <- Hfk.
    destruct (Z.eqb_spec (fblk V d1 bn) 0) as [E0|].
    2: { exists s1, V, d1, (fblk V d1 bn). rewrite u32_small by done. split; [done|]. split; [done|]. split; [done|]. split; [done|].
         split; [done|]. split; [done|]. split; [|done]. rewrite Hf. destruct (Z.eqb_spec (baddr din 12) 0) as [E|]; [rewrite (Hindx E); lia|lia]. }
    assert (Hcap : m_freeblock s1 + 1 ≤ m_freeblock s + extra (zlen c)).
    { rewrite Hf. destruct (Z.eqb_spec (baddr din 12) 0) as [E|Hne]; [rewrite (Hindx E); lia|]. rewrite (Hid Hne) in *. rewrite Hz by done. zcase. }
    rewrite (bind_ok _ _ _ _ _ (take_block_ok s1 V _ Hm1)). set (s2 := set_m_usedblocks _ _).
    set (ib := put32 (Z.to_nat (4 * (bn - 12))) (m_freeblock s1) (V (baddr d1 12))).
    assert (Hl2 : zlen (m_img s2) = 1024) by apply (ms_len _ _ _ Hm1).
    rewrite (bind_ok _ _ _ _ _ (wsect_ok s2 (baddr d1 12) ib Hl2 ltac:(lia))).
    assert (Hlen : length (V (baddr d1 12)) = 512%nat) by (apply (ly_len _ _ _ HL1); lia).
    eexists _, (vupd V (baddr d1 12) ib), d1, (m_freeblock s1). split; [|split; [|split; [|split; [lia|]]]].
    + unfold ret, ib. rewrite get32_put32 by lia. by rewrite !u32_small by (rewrite ?u32_small; lia).
    + split; [by rewrite <- Hl2; cbn [m_img set_m_img]; rewrite zlen_zupd|done| |].
      * intros b. apply wsect_blk; [done|apply (ms_blk _ _ _ Hm1)|lia].
      * cbn [m_freeblock set_m_img s2 set_m_usedblocks set_m_freeblock].
        pose proof (alloc_entry V (m_freeblock s1) _ i _ c HL1 Hi1 ltac:(lia) bn ltac:(lia) Hn E0) as HA. by rewrite insert_insert_eq in HA.
    + unfold fblk. destruct (Z.ltb_spec bn 12); [lia|]. unfold ind. destruct (Z.eqb_spec (baddr d1 12) 0); [done|].
      unfold vupd. rewrite Z.eqb_refl. unfold ib. rewrite get32_put32 by lia. by rewrite u32_small by lia.
    + split; [done|]. split; [|done]. intros b Hb. unfold vupd. by destruct (Z.eqb_spec b (baddr d1 12)); [lia|].
Qed.

Lemma iappend_loop_ok fuel : ∀ p s V F din c, (length p ≤ fuel)%nat → mst s V F → F !! i = Some (set_i_size (zlen c) din, c) →
  zlen c + zlen p ≤ 140 * 512 → m_freeblock s + cost (zlen c + zlen p) - cost (zlen c) ≤ 1014 →
  ∃ s' V' din', iappend_loop fuel din (zlen c) p s = Ok (din', zlen c + zlen p) s' ∧
    mst s' V' (<[i := (set_i_size (zlen c + zlen p) din', c ++ p)]> F) ∧ same_but_addrs din din' ∧ low_same V V' ∧
    m_freeblock s' ≤ m_freeblock s + cost (zlen c + zlen p) - cost (zlen c) ∧ m_freeinode s' = m_freeinode s.
Proof.
  induction fuel as [|fuel IH]; intros p s V F din c Hf Hm Hi Hc Hfb.
  { destruct p; [|simpl in Hf; lia]. exists s, V, din. change (zlen []) with 0. rewrite Z.add_0_r, app_nil_r, insert_id by done.
    split; [done|]. split; [done|]. split; [by destruct din|]. split; [done|]. split; [lia|done]. }
  destruct p as [|b0 p0] eqn:Ep.
  { exists s, V, din. change (zlen []) with 0. rewrite Z.add_0_r, app_nil_r, insert_id by done.
    split; [done|]. split; [done|]. split; [by destruct din|]. split; [done|]. split; [lia|done]. }
  assert (Hp : 0 < zlen p) by (rewrite Ep; unfold zlen; simpl; lia). cbn [iappend_loop]. rewrite <- Ep in *. clear b0 p0 Ep.
  assert (Hc0 : 0 ≤ zlen c) by (unfold zlen; lia). set (bn := zlen c / 512). pose proof (div_range (zlen c) ltac:(lia)) as Hbn. fold bn in Hbn.
  pose proof (Z.div_mod (zlen c) 512 ltac:(lia)) as Hdm. fold bn in Hdm. pose proof (Z.mod_pos_bound (zlen c) 512 ltac:(lia)) as Hmb.
  destruct (Z.ltb_spec bn MAXFILE) as [_|Hge]; [|unfold MAXFILE, NDIRECT, NINDIRECT, BSIZE in Hge; change (512 / 4) with 128 in Hge; lia].
  rewrite (bind_ok _ _ _ tt s) by done. set (n1 := Z.min (zlen p) (u32 ((bn + 1) * 512 - zlen c))).
  assert (Hn1 : 0 < n1 ≤ zlen p ∧ zlen c mod 512 + n1 ≤ 512) by (unfold n1; rewrite u32_small by lia; lia).
  set (q := take (Z.to_nat n1) p). assert (Hq : zlen q = n1) by (unfold q, zlen in *; rewrite length_take; lia).
  assert (Hdq : zlen (drop (Z.to_nat n1) p) = zlen p - n1) by (unfold zlen in *; rewrite length_drop; lia).
  pose proof (cost_extra (zlen c) n1 Hc0 ltac:(lia) ltac:(lia)) as Hce.
  assert (Hmono : ∀ a b, 0 ≤ a → a ≤ b → cost a ≤ cost b).
  { intros a b Ha Hab. unfold cost. pose proof (Z.div_le_mono (a + 511) (b + 511) 512 ltac:(lia) ltac:(lia)).
    destruct (Z.ltb_spec (12 * 512) a), (Z.ltb_spec (12 * 512) b); lia. }
  pose proof (Hmono (zlen c + n1) (zlen c + zlen p) ltac:(lia) ltac:(lia)) as Hle.
  destruct (file_block_ok s V F din c Hm Hi ltac:(lia) ltac:(lia)) as (s1 & V1 & d1 & x & R1 & Hm1 & Ex & Hx & Hsb & Hlow & Hf1 & Hfi1). fold bn in R1, Ex.
  rewrite (bind_ok _ _ _ _ _ R1). pose proof (ms_lay _ _ _ Hm1) as HL1.
  assert (Hi1 : <[i := (set_i_size (zlen c) d1, c)]> F !! i = Some (set_i_size (zlen c) d1, c)) by apply lookup_insert_eq.
  pose proof (ly_range _ _ _ HL1 _ _ _ bn Hi1 ltac:(lia)) as Hxr. rewrite mblk_blk in Hxr by done.
  change (fblk V1 (set_i_size (zlen c) d1) bn) with (fblk V1 d1 bn) in Hxr. rewrite <- Ex in Hxr. specialize (Hxr Hx). pose proof (ly_fb _ _ _ HL1).
  rewrite (bind_ok _ _ _ _ _ (rsect_ok s1 V1 _ x Hm1 ltac:(lia))). set (blk1 := splice _ _ _).
  pose proof (ms_len _ _ _ Hm1) as Hl1. rewrite (bind_ok _ _ _ _ _ (wsect_ok s1 x blk1 Hl1 ltac:(lia))). set (s2 := set_m_img _ s1).
  assert (Hm2 : mst s2 (vupd V1 x blk1) (<[i := (set_i_size (zlen (c ++ q)) d1, c ++ q)]> F)).
  { split; [unfold s2; cbn [m_img set_m_img]; by rewrite zlen_zupd|apply (ms_used _ _ _ Hm1)| |].
    - intros b. apply wsect_blk; [done|apply (ms_blk _ _ _ Hm1)|lia].
    - pose proof (lay_append V1 (m_freeblock s1) _ i _ c q HL1 Hi1 ltac:(lia)) as HA.
      change (fblk V1 (set_i_size (zlen c) d1) (zlen c / 512)) with (fblk V1 d1 bn) in HA. rewrite <- Ex in HA. fold bn in HA.
      specialize (HA Hx ltac:(lia)). rewrite insert_insert_eq in HA. unfold blk1. fold q.
      replace (zlen (c ++ q)) with (zlen c + zlen q) by (unfold zlen; rewrite length_app; lia). exact HA. }
  rewrite (u32_small (zlen c + n1)) by lia. replace (zlen c + n1) with (zlen (c ++ q)) in * by (unfold zlen in *; rewrite length_app; lia).
  assert (Hcq : zlen (c ++ q) = zlen c + n1) by (unfold zlen in *; rewrite length_app; lia).
  destruct (IH (drop (Z.to_nat n1) p) s2 _ _ d1 (c ++ q) ltac:(unfold zlen in *; lia) Hm2 (lookup_insert_eq _ _ _)) as (s3 & V3 & d3 & R3 & Hm3 & Hsb3 & Hlow3 & Hf3 & Hfi3).
  { lia. }
  { change (m_freeblock s2) with (m_freeblock s1). rewrite Hcq, Hdq, <- Hcq. replace (zlen (c ++ q) + (zlen p - n1)) with (zlen c + zlen p) by lia. lia. }
  exists s3, V3, d3. rewrite R3. replace (zlen (c ++ q) + zlen (drop (Z.to_nat n1) p)) with (zlen c + zlen p) in * by lia.
  rewrite insert_insert_eq in Hm3. rewrite <- (assoc_L (++)) in Hm3. unfold q in Hm3. rewrite take_drop in Hm3.
  split; [done|]. split; [done|]. split; [by eapply same_but_trans|]. split; [|split; [|by rewrite Hfi3]].
  - intros b Hb. rewrite Hlow3 by done. unfold vupd. destruct (Z.eqb_spec b x); [lia|]. by apply Hlow.
  - change (m_freeblock s2) with (m_freeblock s1) in Hf3. lia.
Qed.
End append.

(** ** Inodes on the image *)

(** An image with the files [F], inodes [1] to [fi - 1]. *)
Record image (s : mk) (F : gmap Z (inode * list Z)) : Prop := {
  im_st : ∃ V, mst s V F ∧ V 1 = splice 0 superblock_bytes zeroes ∧
    ∀ i r c, F !! i = Some (r, c) → dinode_of V i zero_dinode = r;
  im_fields : ∀ i r c, F !! i = Some (r, c) → inode_fields r ∧ r = set_i_addrs (i_addrs r) (set_i_size (i_size r) (set_i_nlink 1 (set_i_type (i_type r) zero_dinode)));
  im_dom : ∀ i, is_Some (F !! i) ↔ 1 ≤ i < m_freeinode s;
  im_next : 1 ≤ m_freeinode s ≤ 200;
}.

Lemma i2b_iblock inum : i2b inum = iblock inum.
Proof. done. Qed.
Lemma iblock_low i : 0 ≤ i < 200 → 2 ≤ iblock i < 27.
Proof. intros H. unfold iblock. pose proof (Z.div_pos i 8 ltac:(lia) ltac:(lia)). pose proof (Z.div_lt_upper_bound i 8 25 ltac:(lia) ltac:(lia)). lia. Qed.
Lemma lay_low V V' fb F : lay V fb F → (∀ b, 29 ≤ b → V' b = V b) → (∀ b, 0 ≤ b < 29 → length (V' b) = 512%nat) → lay V' fb F.
Proof.
  intros HL HV Hlen. pose proof (ly_fb _ _ _ HL).
  assert (Hfr : ∀ i r c, F !! i = Some (r, c) → (∀ k, mblk V' r k = mblk V r k) ∧ ∀ p, 0 ≤ p < 140 * 512 → fblk V r (p / 512) ≠ 0 → fbyte V' r p = fbyte V r p).
  { intros i r c Hi. apply mblk_frame. intros k Hk Hne. apply HV. pose proof (ly_range _ _ _ HL _ _ _ _ Hi Hk Hne). lia. }
  assert (Hfb : ∀ i r c bn, F !! i = Some (r, c) → 0 ≤ bn < 140 → fblk V' r bn = fblk V r bn).
  { intros i r c bn Hi Hbn. rewrite <- (mblk_blk V'), <- (mblk_blk V) by done. by destruct (Hfr _ _ _ Hi) as [-> _]. }
  split; [done| | |apply (ly_addrs _ _ _ HL)|apply (ly_size _ _ _ HL)| | | |].
  - intros b Hb. destruct (Z.lt_ge_cases b 29); [apply Hlen; lia|]. rewrite HV by lia. by apply (ly_len _ _ _ HL).
  - intros b Hb. rewrite HV by lia. by apply (ly_fresh _ _ _ HL).
  - intros i r c k Hi Hk. destruct (Hfr _ _ _ Hi) as [-> _]. by eapply (ly_range _ _ _ HL).
  - intros i r c k j r' c' k' Hi Hj Hk Hk'. destruct (Hfr _ _ _ Hi) as [-> _], (Hfr _ _ _ Hj) as [-> _]. by eapply (ly_inj _ _ _ HL).
  - intros i r c bn Hi Hbn Hlt. pose proof (ly_size _ _ _ HL _ _ _ Hi). rewrite (Hfb i r c) by (done || lia). by eapply (ly_full _ _ _ HL).
  - intros i r c p Hi Hp Hne. rewrite (Hfb i r c) in Hne by (done || by apply div_range). destruct (Hfr _ _ _ Hi) as [_ ->]; [|done|done].
    by eapply (ly_byte _ _ _ HL).
Qed.
(** A new inode has no blocks. *)
Lemma lay_new V fb F i r : lay V fb F → F !! i = None → i_addrs r = replicate 13 0 → i_size r = 0 → lay V fb (<[i := (r, [])]> F).
Proof.
  intros HL Hi Ha Hs. assert (H0 : ∀ k, baddr r k = 0).
  { intros k. unfold baddr. rewrite Ha. unfold znth. destruct (0 <=? k); [|done]. destruct (replicate 13 0 !! Z.to_nat k) eqn:E; [|done].
    by apply lookup_replicate_1 in E as [-> _]. }
  assert (Hf : ∀ k, fblk V r k = 0) by (intros k; unfold fblk, ind; rewrite !H0; by destruct (k <? 12)).
  assert (Hm : ∀ k, mblk V r k = 0) by (intros k; unfold mblk, ind; rewrite H0, Hf; by destruct (k =? 140)).
  split; [apply (ly_fb _ _ _ HL)|apply (ly_len _ _ _ HL)|apply (ly_fresh _ _ _ HL)| | | | | |].
  - intros j rj cj [[<- [= <- <-]]|[Hj HF]]%lookup_insert_Some; [by rewrite Ha|by eapply (ly_addrs _ _ _ HL)].
  - intros j rj cj [[<- [= <- <-]]|[Hj HF]]%lookup_insert_Some; [by rewrite Hs|by eapply (ly_size _ _ _ HL)].
  - intros j rj cj k [[<- [= <- <-]]|[Hj HF]]%lookup_insert_Some; [by rewrite Hm|by eapply (ly_range _ _ _ HL)].
  - intros j rj cj k l rl cl k' [[<- [= <- <-]]|[Hj HF]]%lookup_insert_Some [[<- [= <- <-]]|[Hl HF']]%lookup_insert_Some Hk Hk' Hne E;
      rewrite ?Hm in *; [done|done|done|]. by eapply (ly_inj _ _ _ HL).
  - intros j rj cj bn [[<- [= <- <-]]|[Hj HF]]%lookup_insert_Some; [unfold zlen; simpl; lia|by eapply (ly_full _ _ _ HL)].
  - intros j rj cj p [[<- [= <- <-]]|[Hj HF]]%lookup_insert_Some; [by rewrite Hf|by eapply (ly_byte _ _ _ HL)].
Qed.
Lemma lay_fields V fb F i r c : lay V fb F → F !! i = Some (r, c) → - 2 ^ 15 ≤ i_type r < 2 ^ 15 →
  r = set_i_addrs (i_addrs r) (set_i_size (i_size r) (set_i_nlink 1 (set_i_type (i_type r) zero_dinode))) → inode_fields r.
Proof.
  intros HL Hi Ht E. pose proof (ly_addrs _ _ _ HL _ _ _ Hi) as Ha. destruct (ly_size _ _ _ HL _ _ _ Hi) as [Hs1 Hs2].
  assert (0 ≤ zlen c) by (unfold zlen; lia). rewrite E. split; cbn [i_type i_major i_minor i_nlink i_size i_addrs set_i_addrs set_i_size set_i_nlink set_i_type zero_dinode]; try lia.
  intros k a Hk. assert (Eb : baddr r k = a) by (unfold baddr; by rewrite Hk). apply znth_Some in Hk. unfold zlen in Hk.
    rewrite Ha in Hk. rewrite <- Eb. destruct (decide (k = 12)) as [->|]; [apply (addr_small i V fb F r c 140); (done || lia)|].
    pose proof (addr_small i V fb F r c k HL Hi ltac:(lia)) as H1. rewrite mblk_blk in H1 by lia. unfold fblk in H1. by destruct (Z.ltb_spec k 12); [|lia].
Qed.

(** Storing inode [i]. *)
Lemma winode_ok s V F i r (V' := iupdated V (set_i_inum i r)) : mst s V F → 0 ≤ i < 200 → inode_fields r →
  ∃ s', winode i r s = Ok tt s' ∧ mst s' V' F ∧ m_freeblock s' = m_freeblock s ∧ m_freeinode s' = m_freeinode s ∧ V' 1 = V 1 ∧
    (∀ j, 0 ≤ j → j ≠ i → dinode_of V' j zero_dinode = dinode_of V j zero_dinode) ∧
    same_inode r (dinode_of V' i zero_dinode).
Proof.
  intros Hm Hi Hr. pose proof (iblock_low i Hi) as Hb. pose proof (ms_len _ _ _ Hm) as Hl. pose proof (ms_lay _ _ _ Hm) as HL.
  assert (Hr' : inode_fields (set_i_inum i r)) by (destruct Hr; by split).
  assert (Hlen : length (V (iblock i)) = 512%nat) by (apply (ly_len _ _ _ HL); lia).
  unfold winode. rewrite i2b_iblock. rewrite (bind_ok _ _ _ _ _ (rsect_ok s V F (iblock i) Hm ltac:(lia))).
  eexists. split; [apply wsect_ok; [done|lia]|]. split; [|split; [done|split; [done|]]].
  - split; [cbn [m_img set_m_img]; by rewrite zlen_zupd|apply (ms_used _ _ _ Hm)| |].
    + intros b. apply (wsect_blk s V (iblock i)); [done|apply (ms_blk _ _ _ Hm)|lia].
    + cbn [m_freeblock set_m_img]. apply (lay_low V); [done| |].
      * intros b Hb'. unfold V', iupdated, vupd. cbn [i_inum set_i_inum]. by destruct (Z.eqb_spec b (iblock i)); [lia|].
      * intros b Hb'. unfold V', iupdated, vupd. cbn [i_inum set_i_inum]. destruct (Z.eqb_spec b (iblock i)) as [->|]; [|apply (ly_len _ _ _ HL); lia].
        rewrite length_put_dinode; [done|rewrite Hlen; apply dip_off_le|done].
  - split; [unfold V', iupdated, vupd; cbn [i_inum set_i_inum]; by destruct (Z.eqb_spec 1 (iblock i)); [lia|]|]. split.
    + intros j Hj Hne. apply dinode_of_other; (done || (cbn; lia)).
    + apply (dinode_of_same V (set_i_inum i r) zero_dinode); done.
Qed.
Lemma same_zero V i r : same_inode r (dinode_of V i zero_dinode) →
  r = set_i_addrs (i_addrs r) (set_i_size (i_size r) (set_i_nlink 1 (set_i_type (i_type r) zero_dinode))) → dinode_of V i zero_dinode = r.
Proof.
  intros (H1 & H2 & H3 & H4 & H5 & H6) E. unfold dinode_of in *. remember (get_dinode (dip_off i) (V (iblock i)) zero_dinode) as d eqn:Ed.
  assert (D : i_dev d = 0 ∧ i_inum d = 0 ∧ i_ref d = 0 ∧ i_flags d = 0) by (by rewrite Ed).
  rewrite E in H2, H3, H4 |- *. cbn in H2, H3, H4. destruct d, D as (? & ? & ? & ?). cbn in *. by subst.
Qed.

Lemma rinode_ok s V F i r c : mst s V F → 0 ≤ i < 200 → dinode_of V i zero_dinode = r → F !! i = Some (r, c) → rinode i s = Ok r s.
Proof.
  intros Hm Hi Hd HF. pose proof (iblock_low i Hi). unfold rinode. rewrite i2b_iblock.
  rewrite (bind_ok _ _ _ _ _ (rsect_ok s V F (iblock i) Hm ltac:(lia))). unfold ret. do 2 f_equal. exact Hd.
Qed.
Lemma iappend_ok s F i r c p : image s F → F !! i = Some (r, c) → zlen c + zlen p ≤ 140 * 512 →
  m_freeblock s + cost (zlen c + zlen p) - cost (zlen c) ≤ 1014 →
  ∃ s' r', iappend i p s = Ok tt s' ∧ image s' (<[i := (r', c ++ p)]> F) ∧ i_type r' = i_type r ∧
    m_freeblock s' ≤ m_freeblock s + cost (zlen c + zlen p) - cost (zlen c) ∧ m_freeinode s' = m_freeinode s.
Proof.
  intros [(V & Hm & Hsb & Hon) Hfl Hdom Hnx] Hi Hc Hfb. pose proof (ms_lay _ _ _ Hm) as HL.
  assert (Hir : 1 ≤ i < m_freeinode s) by (apply Hdom; by eexists). destruct (Hfl _ _ _ Hi) as [Hr Er]. destruct (ly_size _ _ _ HL _ _ _ Hi) as [Hsz _].
  assert (Hc0 : 0 ≤ zlen c) by (unfold zlen; lia). assert (Hp0 : 0 ≤ zlen p) by (unfold zlen; lia).
  unfold iappend. rewrite (bind_ok _ _ _ _ _ (rinode_ok s V F i r c Hm ltac:(lia) (Hon _ _ _ Hi) Hi)). unfold xint. rewrite Hsz, u32_small by lia.
  assert (Hrs : r = set_i_size (zlen c) r) by (rewrite <- Hsz; by destruct r).
  destruct (iappend_loop_ok i (length p) p s V F r c ltac:(lia) Hm ltac:(by rewrite <- Hrs) Hc Hfb) as (s1 & V1 & d1 & R1 & Hm1 & Hsb1 & Hlow & Hf1 & Hfi1).
  rewrite (bind_ok _ _ _ _ _ R1). rewrite u32_small by lia. set (r1 := set_i_size (zlen c + zlen p) d1) in *.
  assert (Er1 : r1 = set_i_addrs (i_addrs r1) (set_i_size (i_size r1) (set_i_nlink 1 (set_i_type (i_type r1) zero_dinode)))).
  { unfold r1. red in Hsb1. rewrite Hsb1, Er. done. }
  assert (Ht : i_type r1 = i_type r) by (unfold r1; red in Hsb1; rewrite Hsb1; done).
  assert (Hr1 : inode_fields r1).
  { apply (lay_fields V1 _ _ i r1 (c ++ p) (ms_lay _ _ _ Hm1) (lookup_insert_eq _ _ _)); [rewrite Ht; apply Hr|done]. }
  destruct (winode_ok s1 V1 _ i r1 Hm1 ltac:(lia) Hr1) as (s2 & R2 & Hm2 & Hf2 & Hfi2 & H1 & Hoth & Hsame).
  exists s2, r1. split; [exact R2|]. split; [|split; [done|split; [lia|congruence]]]. split.
  - eexists. split; [exact Hm2|]. split; [rewrite H1, Hlow by lia; done|].
    intros j rj cj [[<- [= <- <-]]|[Hj HF]]%lookup_insert_Some; [by apply same_zero|].
    assert (Hjr : 1 ≤ j < m_freeinode s) by (apply Hdom; by eexists). rewrite Hoth by lia. unfold dinode_of.
    pose proof (iblock_low j ltac:(lia)). rewrite Hlow by lia. by eapply Hon.
  - intros j rj cj [[<- [= <- <-]]|[Hj HF]]%lookup_insert_Some; [done|by eapply Hfl].
  - intros j. rewrite Hfi2, Hfi1, <- Hdom. destruct (decide (j = i)) as [->|]; [rewrite lookup_insert_eq; split; [by eexists|by eexists]|by rewrite lookup_insert_ne].
  - lia.
Qed.
Definition new_inode (type : Z) : inode := set_i_nlink 1 (set_i_type type zero_dinode).
Lemma ialloc_ok s F type : image s F → m_freeinode s < 200 → 0 ≤ type < 2 ^ 15 →
  ∃ s', ialloc type s = Ok (m_freeinode s) s' ∧ image s' (<[m_freeinode s := (new_inode type, [])]> F) ∧ F !! m_freeinode s = None ∧
    m_freeblock s' = m_freeblock s ∧ m_freeinode s' = m_freeinode s + 1.
Proof.
  intros [(V & Hm & Hsb & Hon) Hfl Hdom Hnx] Hlt Ht. set (i := m_freeinode s) in *.
  assert (HF : F !! i = None) by (apply eq_None_not_Some; intros H%Hdom; lia).
  assert (Hfd : inode_fields (new_inode type)).
  { split; simpl; try lia. intros k a Hk. unfold znth in Hk. destruct (0 <=? k); [|done]. apply (lookup_replicate_1 13 0) in Hk as [-> _]. lia. }
  unfold ialloc. rewrite (bind_ok _ _ _ i s) by done. set (s1 := set_m_freeinode (i + 1) s).
  rewrite (bind_ok _ _ _ tt s1) by (unfold modify, s1; by rewrite u32_small by lia).
  change (xint 0) with 0. change (xshort 1) with 1. replace (xshort type) with type by (symmetry; apply Z.mod_small; lia).
  assert (Hm1 : mst s1 V (<[i := (new_inode type, [])]> F)).
  { destruct Hm as [H1 H2 H3 H4]. split; [done|done|done|]. by apply lay_new. }
  destruct (winode_ok s1 V _ i (new_inode type) Hm1 ltac:(lia) Hfd) as (s2 & R2 & Hm2 & Hf2 & Hfi2 & H1 & Hoth & Hsame).
  change (set_i_size 0 (set_i_nlink 1 (set_i_type type zero_dinode))) with (new_inode type). rewrite (bind_ok _ _ _ _ _ R2).
  exists s2. split; [done|]. rewrite Hf2, Hfi2. split; [|done]. split.
  - eexists. split; [exact Hm2|]. split; [by rewrite H1|]. intros j rj cj [[<- [= <- <-]]|[Hj HFj]]%lookup_insert_Some; [by apply same_zero|].
    assert (Hjr : 1 ≤ j < i) by (apply Hdom; by eexists). rewrite Hoth by lia. by eapply Hon.
  - intros j rj cj [[<- [= <- <-]]|[Hj HFj]]%lookup_insert_Some; [done|by eapply Hfl].
  - intros j. rewrite Hfi2. cbn [m_freeinode set_m_freeinode s1]. destruct (decide (j = i)) as [->|Hne].
    + rewrite lookup_insert_eq. split; [lia|by eexists].
    + rewrite lookup_insert_ne, Hdom by done. lia.
  - rewrite Hfi2. cbn [m_freeinode set_m_freeinode s1]. lia.
Qed.
Lemma cost_mono a b : 0 ≤ a → a ≤ b → cost a ≤ cost b.
Proof.
  intros Ha Hab. unfold cost. pose proof (Z.div_le_mono (a + 511) (b + 511) 512 ltac:(lia) ltac:(lia)).
  destruct (Z.ltb_spec (12 * 512) a), (Z.ltb_spec (12 * 512) b); lia.
Qed.
Lemma copy_file_ok i fuel : ∀ s F r c data, (length data ≤ fuel)%nat → image s F → F !! i = Some (r, c) → zlen c + zlen data ≤ 140 * 512 →
  m_freeblock s + cost (zlen c + zlen data) - cost (zlen c) ≤ 1014 →
  ∃ s' r', copy_file fuel i data s = Ok tt s' ∧ image s' (<[i := (r', c ++ data)]> F) ∧ i_type r' = i_type r ∧
    m_freeblock s' ≤ m_freeblock s + cost (zlen c + zlen data) - cost (zlen c) ∧ m_freeinode s' = m_freeinode s.
Proof.
  assert (Hnil : ∀ n s F r c, image s F → F !! i = Some (r, c) → m_freeblock s + cost (zlen c + zlen (@nil Z)) - cost (zlen c) ≤ 1014 →
    ∃ s' r', copy_file n i [] s = Ok tt s' ∧ image s' (<[i := (r', c ++ [])]> F) ∧ i_type r' = i_type r ∧
    m_freeblock s' ≤ m_freeblock s + cost (zlen c + zlen (@nil Z)) - cost (zlen c) ∧ m_freeinode s' = m_freeinode s).
  { intros n s F r c Hm Hi Hfb. exists s, r. rewrite app_nil_r, insert_id by done. change (zlen (@nil Z)) with 0. rewrite Z.add_0_r.
    split; [by destruct n|]. split; [done|]. split; [done|]. split; [lia|done]. }
  induction fuel as [|fuel IH]; intros s F r c data Hf Hm Hi Hc Hfb; [destruct data; [by apply Hnil|simpl in Hf; lia]|].
  destruct data as [|b0 d0] eqn:Ed; [by apply Hnil|]. rewrite <- Ed in *. assert (Hd : (0 < length data)%nat) by (rewrite Ed; simpl; lia).
  replace (copy_file (S fuel) i data) with (iappend i (take 512 data) ;; copy_file fuel i (drop 512 data)) by (by rewrite Ed). clear b0 d0 Ed.
  assert (Hsum : zlen (take 512 data) + zlen (drop 512 data) = zlen data) by (unfold zlen; rewrite length_take, length_drop; lia).
  assert (H0 : 0 ≤ zlen c ∧ 0 ≤ zlen (take 512 data) ∧ 0 ≤ zlen (drop 512 data)) by (unfold zlen; lia).
  pose proof (cost_mono (zlen c + zlen (take 512 data)) (zlen c + zlen data) ltac:(lia) ltac:(lia)) as Hle.
  destruct (iappend_ok s F i r c (take 512 data) Hm Hi ltac:(lia) ltac:(lia)) as (s1 & r1 & R1 & Hm1 & Ht1 & Hf1 & Hfi1).
  rewrite (bind_ok _ _ _ _ _ R1). assert (Hcz : zlen (c ++ take 512 data) = zlen c + zlen (take 512 data)) by (unfold zlen; rewrite length_app; lia).
  destruct (IH s1 _ r1 (c ++ take 512 data) (drop 512 data) ltac:(rewrite length_drop; lia) Hm1 (lookup_insert_eq _ _ _)) as (s2 & r2 & R2 & Hm2 & Ht2 & Hf2 & Hfi2).
  { lia. }
  { rewrite Hcz. replace (zlen c + zlen (take 512 data) + zlen (drop 512 data)) with (zlen c + zlen data) by lia. lia. }
  exists s2, r2. rewrite insert_insert_eq, <- (assoc_L (++)), take_drop in Hm2. rewrite Hcz in Hf2.
  replace (zlen c + zlen (take 512 data) + zlen (drop 512 data)) with (zlen c + zlen data) in Hf2 by lia.
  split; [exact R2|]. split; [done|]. split; [congruence|]. split; [lia|congruence].
Qed.

(** ** The files of the command line *)

(** The directory entries of files that get the inodes from [i] on. *)
Fixpoint entries (i : Z) (fs : list (list Z * option (list Z))) : list Z :=
  match fs with [] => [] | f :: fs => dirent i (entry_name f.1) ++ entries (i + 1) fs end.
Fixpoint files_cost (fs : list (list Z * option (list Z))) : Z :=
  match fs with [] => 0 | f :: fs => cost (zlen (default [] f.2)) + files_cost fs end.
Definition file_fits (f : list Z * option (list Z)) : Prop := (47 ∉ f.1) ∧ ∃ data, f.2 = Some data ∧ zlen data ≤ 140 * 512.

Lemma cost_nonneg n : 0 ≤ n → 0 ≤ cost n.
Proof. intros Hn. pose proof (cost_mono 0 n ltac:(lia) Hn) as H. change (cost 0) with 0 in H. done. Qed.
Lemma files_cost_nonneg fs : 0 ≤ files_cost fs.
Proof. induction fs as [|f fs IH]; simpl; [lia|]. pose proof (cost_nonneg (zlen (default [] f.2)) ltac:(unfold zlen; lia)). lia. Qed.
Lemma zlen_dirent i name : zlen (dirent i name) = 16.
Proof. unfold zlen, dirent. rewrite length_app, length_le_enc, length_take, length_app, length_replicate. unfold DIRSIZ. lia. Qed.
Lemma zlen_app {A} (a b : list A) : zlen (a ++ b) = zlen a + zlen b.
Proof. unfold zlen. rewrite length_app. lia. Qed.

Lemma add_files_ok fs : ∀ s F rr dir, image s F → F !! 1 = Some (rr, dir) → Forall file_fits fs →
  m_freeinode s + zlen fs ≤ 200 → zlen dir + 16 * zlen fs ≤ 140 * 512 →
  m_freeblock s + files_cost fs + cost (zlen dir + 16 * zlen fs) - cost (zlen dir) ≤ 1014 →
  ∃ s' F' rr', add_files 1 fs s = Ok tt s' ∧ image s' F' ∧ F' !! 1 = Some (rr', dir ++ entries (m_freeinode s) fs) ∧ i_type rr' = i_type rr ∧
    (∀ j, j ≠ 1 → j < m_freeinode s → F' !! j = F !! j) ∧
    (∀ k name data, fs !! k = Some (name, Some data) → ∃ r, F' !! (m_freeinode s + Z.of_nat k) = Some (r, data) ∧ i_type r = T_FILE).
Proof.
  induction fs as [|f fs IH]; intros s F rr dir Hm Hroot Hfit Hin Hdir Hfb.
  { exists s, F, rr. rewrite app_nil_r. done. }
  apply Forall_cons in Hfit as [[Hsl (data & Ed & Hdl)] Hfit]. assert (Hz : zlen (f :: fs) = zlen fs + 1) by (unfold zlen; simpl; lia).
  rewrite Hz in *. cbn [add_files entries files_cost] in *. rewrite Ed in Hfb. change (default [] (Some data)) with data in Hfb.
  assert (H0 : 0 ≤ zlen dir ∧ 0 ≤ zlen fs ∧ 0 ≤ zlen data) by (unfold zlen; lia). pose proof (files_cost_nonneg fs).
  pose proof (cost_nonneg (zlen data) ltac:(lia)).
  assert (Hn1 : 1 < m_freeinode s).
  { assert (1 ≤ 1 < m_freeinode s) by (apply (im_dom _ _ Hm); by eexists). lia. }
  set (i := m_freeinode s) in *.
  destruct (ialloc_ok s F T_FILE Hm ltac:(lia) ltac:(done)) as (s1 & R1 & Hm1 & HF1 & Hf1 & Hfi1). fold i in R1, Hm1, HF1, Hfi1.
  pose proof (cost_mono (zlen dir + 16) (zlen dir + 16 * (zlen fs + 1)) ltac:(lia) ltac:(lia)).
  assert (Hroot1 : <[i := (new_inode T_FILE, [])]> F !! 1 = Some (rr, dir)) by (by rewrite lookup_insert_ne by lia).
  destruct (iappend_ok s1 _ 1 rr dir (dirent i (entry_name f.1)) Hm1 Hroot1) as (s2 & rr2 & R2 & Hm2 & Ht2 & Hf2 & Hfi2); [rewrite zlen_dirent; lia..|].
  rewrite zlen_dirent in Hf2. pose proof (zlen_dirent i (entry_name f.1)) as Hzd.
  pose proof (cost_mono (zlen dir) (zlen dir + 16) ltac:(lia) ltac:(lia)).
  set (F2 := <[1 := _]> _) in *. assert (HFi : F2 !! i = Some (new_inode T_FILE, [])) by (unfold F2; rewrite lookup_insert_ne, lookup_insert_eq by lia; done).
  destruct (copy_file_ok i (length data) s2 F2 (new_inode T_FILE) [] data ltac:(lia) Hm2 HFi) as (s3 & r3 & R3 & Hm3 & Ht3 & Hf3 & Hfi3).
  { change (zlen []) with 0. lia. }
  { change (zlen []) with 0. change (cost 0) with 0. rewrite Z.add_0_l. lia. }
  change (zlen []) with 0 in Hf3. change (cost 0) with 0 in Hf3. rewrite Z.add_0_l in Hf3. cbn [app] in Hm3.
  assert (Hroot3 : <[i := (r3, data)]> F2 !! 1 = Some (rr2, dir ++ dirent i (entry_name f.1))) by (unfold F2; by rewrite lookup_insert_ne, lookup_insert_eq by lia).
  assert (Hfi3' : m_freeinode s3 = i + 1) by congruence.
  destruct (IH s3 _ rr2 (dir ++ dirent i (entry_name f.1)) Hm3 Hroot3 Hfit) as (s4 & F4 & rr4 & R4 & Hm4 & Hr4 & Ht4 & Hold & Hnew).
  { lia. }
  { rewrite zlen_app. lia. }
  { rewrite zlen_app, zlen_dirent. replace (zlen dir + 16 + 16 * zlen fs) with (zlen dir + 16 * (zlen fs + 1)) by lia. lia. }
  exists s4, F4, rr4. split; [|split; [done|split; [|split; [congruence|split]]]].
  - rewrite (bind_ok _ _ _ tt s3); [exact R4|]. unfold add_file. rewrite bool_decide_false by done. rewrite (bind_ok _ _ _ tt s) by done.
    rewrite Ed, (bind_ok _ _ _ _ _ R1), (bind_ok _ _ _ _ _ R2). exact R3.
  - rewrite Hr4, Hfi3', <- (assoc_L (++)). done.
  - intros j Hj1 Hj. rewrite Hold by lia. unfold F2. by rewrite !lookup_insert_ne by lia.
  - intros k name d Hk. destruct k as [|k].
    + simpl in Hk. injection Hk as Hk. rewrite Hk in Ed. injection Ed as ->. rewrite Z.add_0_r. exists r3.
      rewrite Hold by lia. rewrite lookup_insert_eq. split; [done|]. rewrite Ht3. done.
    + destruct (Hnew k name d Hk) as (r & Hr & Ht). exists r. rewrite Hfi3' in Hr. replace (i + Z.of_nat (S k)) with (i + 1 + Z.of_nat k) by lia. done.
Qed.

(** ** The finished image *)

(** Rounding the size of the root directory up reads zeroes after the entries. *)
Lemma lay_pad V fb F i r c (n := (zlen c / 512 + 1) * 512) : lay V fb F → F !! i = Some (r, c) → zlen c mod 512 ≠ 0 → zlen c < 140 * 512 →
  lay V fb (<[i := (set_i_size n r, c ++ replicate (Z.to_nat (n - zlen c)) 0)]> F).
Proof.
  intros HL Hi Hmod Hc. assert (Hc0 : 0 ≤ zlen c) by (unfold zlen; lia). pose proof (Z.div_mod (zlen c) 512 ltac:(lia)) as Hdm.
  pose proof (Z.mod_pos_bound (zlen c) 512 ltac:(lia)) as Hmb. pose proof (div_range (zlen c) ltac:(lia)) as Hdr.
  assert (Hz : zlen (c ++ replicate (Z.to_nat (n - zlen c)) 0) = n) by (rewrite zlen_app; unfold zlen at 2; rewrite length_replicate; lia).
  apply (lay_update V fb F i r c HL Hi V _ _ (or_introl (fun b => eq_refl))) with (new := None).
  - by apply (ly_addrs _ _ _ HL _ _ _ Hi).
  - rewrite Hz. split; [done|]. unfold n. lia.
  - intros bn Hbn Hlt. rewrite Hz in Hlt. change (fblk V (set_i_size n r) bn) with (fblk V r bn). apply (ly_full _ _ _ HL _ _ _ _ Hi); [done|].
    unfold n in Hlt. lia.
  - intros p Hp Hne. change (fbyte V (set_i_size n r) p) with (fbyte V r p). rewrite (ly_byte _ _ _ HL _ _ _ _ Hi Hp Hne).
    destruct (Z.lt_ge_cases p (zlen c)); [by rewrite znth_app_l by lia|]. rewrite znth_app_r by lia.
    destruct (znth c p) eqn:E1; [apply znth_Some in E1; lia|]. unfold znth. destruct (0 <=? p - zlen c); [|done].
    destruct (replicate _ 0 !! _) eqn:E2; [|done]. by apply lookup_replicate_1 in E2 as [-> _].
  - apply (ly_fb _ _ _ HL).
  - done.
  - done.
Qed.
Lemma lay_fbytes V fb F i r c : lay V fb F → F !! i = Some (r, c) → fbytes V r 0 (zlen c) = c.
Proof.
  intros HL Hi. destruct (ly_size _ _ _ HL _ _ _ Hi) as [_ Hs]. apply list_eq. intros k. unfold fbytes. rewrite list_lookup_fmap.
  destruct (decide (k < length c)%nat) as [Hk|Hk].
  - rewrite lookup_seqZ_lt by (unfold zlen; lia). cbn [fmap option_fmap option_map]. rewrite Z.add_0_l.
    pose proof (Z.mul_div_le (Z.of_nat k) 512 ltac:(lia)). pose proof (Z.div_pos (Z.of_nat k) 512 ltac:(lia) ltac:(lia)).
    rewrite (ly_byte _ _ _ HL _ _ _ _ Hi).
    + unfold znth. destruct (Z.leb_spec 0 (Z.of_nat k)); [|lia]. rewrite Nat2Z.id. destruct (lookup_lt_is_Some_2 c k Hk) as [x ->]. done.
    + unfold zlen in Hs. lia.
    + apply (ly_full _ _ _ HL _ _ _ _ Hi); [done|unfold zlen; lia].
  - rewrite lookup_seqZ_ge by (unfold zlen; lia). by rewrite lookup_ge_None_2 by lia.
Qed.

Lemma mark_bits_spec n : ∀ i buf, length buf = 512%nat → 0 ≤ i → i + Z.of_nat n ≤ 4096 →
  length (mark_bits n i buf) = 512%nat ∧
  ∀ b, 0 ≤ b < 4096 → Z.testbit (default 0 (znth (mark_bits n i buf) (b / 8))) (b mod 8) =
    ((i <=? b) && (b <? i + Z.of_nat n)) || Z.testbit (default 0 (znth buf (b / 8))) (b mod 8).
Proof.
  induction n as [|n IH]; intros i buf Hl Hi Hn.
  { split; [done|]. intros b Hb. cbn [mark_bits]. destruct (Z.leb_spec i b), (Z.ltb_spec b (i + Z.of_nat 0)); (done || lia). }
  cbn [mark_bits]. set (v := u8 _). set (buf' := zupd _ _ _).
  assert (Hl' : length buf' = 512%nat) by (pose proof (zlen_zupd buf (i / 8) v); unfold buf', zlen in *; lia).
  destruct (IH (i + 1) buf' Hl' ltac:(lia) ltac:(lia)) as [H1 H2]. split; [done|]. intros b Hb. rewrite H2 by done.
  assert (Hold : Z.testbit (default 0 (znth buf' (b / 8))) (b mod 8) = (b =? i) || Z.testbit (default 0 (znth buf (b / 8))) (b mod 8)).
  { pose proof (Z.div_mod b 8 ltac:(lia)). pose proof (Z.div_mod i 8 ltac:(lia)). pose proof (Z.mod_pos_bound b 8 ltac:(lia)). pose proof (Z.mod_pos_bound i 8 ltac:(lia)).
    unfold buf'. destruct (decide (b / 8 = i / 8)) as [E|].
    - rewrite E, znth_zupd by (unfold zlen; pose proof (Z.div_lt_upper_bound i 8 512 ltac:(lia) ltac:(lia)); pose proof (Z.div_pos i 8 Hi ltac:(lia)); lia).
      unfold v. change (default 0 (Some ?x)) with x. rewrite testbit_u8 by lia. change (Z.shiftl 1 (i mod 8)) with (bit (i mod 8)). rewrite testbit_setbit by lia.
      f_equal. destruct (Z.eqb_spec (i mod 8) (b mod 8)), (Z.eqb_spec b i); (done || lia).
    - rewrite znth_zupd_ne by done. by destruct (Z.eqb_spec b i) as [->|]. }
  rewrite Hold. destruct (Z.leb_spec (i + 1) b), (Z.leb_spec i b), (Z.ltb_spec b (i + 1 + Z.of_nat n)), (Z.ltb_spec b (i + Z.of_nat (S n))), (Z.eqb_spec b i);
    (done || lia).
Qed.

Lemma superblock_fields : let d := splice 0 superblock_bytes zeroes in
  length d = 512%nat ∧ get32 0 d = 1024 ∧ get32 8 d = 200 ∧ get32 12 d = 10.
Proof. vm_compute. done. Qed.
(** What the kernel relies on, for an image with the layout and its bitmap. *)
Section mounted.
Context (V : Z → list Z) (fb : Z) (F : gmap Z (inode * list Z)) (HL : lay V fb F).
Context (Hsb : V 1 = splice 0 superblock_bytes zeroes) (Hbm : V 28 = mark_bits (Z.to_nat fb) 0 zeroes).

Lemma mk_geo : sbsize V = 1024 ∧ Balloc.ninodes V = 200 ∧ ∀ b, 0 ≤ b < 4096 → bmblock V b = 28.
Proof.
  destruct superblock_fields as (_ & H1 & H2 & _). unfold sbsize, Balloc.ninodes. rewrite Hsb. split; [exact H1|]. split; [exact H2|].
  intros b Hb. unfold bmblock, Balloc.ninodes. rewrite Hsb, H2, Z.div_small by lia. done.
Qed.
Lemma mk_used b : 0 ≤ b < 4096 → used V b = (b <? fb).
Proof.
  intros Hb. destruct mk_geo as (_ & _ & Hbb). pose proof (ly_fb _ _ _ HL). unfold used, bmbyte. rewrite Hbb, Hbm, (Z.mod_small b) by lia.
  destruct (mark_bits_spec (Z.to_nat fb) 0 zeroes eq_refl ltac:(lia) ltac:(lia)) as [_ H2]. rewrite H2 by done.
  rewrite znth_zeroes, Z.bits_0, orb_false_r. destruct (Z.leb_spec 0 b), (Z.ltb_spec b fb), (Z.ltb_spec b (0 + Z.of_nat (Z.to_nat fb))); (done || lia).
Qed.
Lemma mk_fsgeo : fsgeo V 1014.
Proof.
  destruct mk_geo as (H1 & H2 & H3). pose proof (ly_fb _ _ _ HL). split; [lia|rewrite H1; lia|lia| |]; rewrite H1.
  - intros b Hb. rewrite H3; lia.
  - intros b Hb Hu b' Hb'. rewrite mk_used in Hu by lia. rewrite H3 by lia. apply Z.ltb_ge in Hu. lia.
Qed.
Lemma mk_isdata b : 29 ≤ b < fb → isdata V 1014 b.
Proof.
  intros Hb. destruct mk_geo as (H1 & H2 & H3). pose proof (ly_fb _ _ _ HL). split; [rewrite H1; lia|lia| |rewrite H1; intros b' Hb'; rewrite H3; lia].
  rewrite mk_used by lia. apply Z.ltb_lt. lia.
Qed.
Lemma mk_file i r c : F !! i = Some (r, c) → file_ok V 1014 r.
Proof.
  intros Hi. destruct (ly_size _ _ _ HL _ _ _ Hi) as [Hs Hs']. split.
  - by apply (ly_addrs _ _ _ HL _ _ _ Hi).
  - unfold zlen in *. lia.
  - intros bn Hbn Hne. apply mk_isdata. rewrite <- (mblk_blk V) in Hne |- * by lia. apply (ly_range _ _ _ HL _ _ _ _ Hi); [lia|done].
  - intros Hne. apply mk_isdata. apply (ly_range _ _ _ HL _ _ _ 140 Hi); [lia|done].
  - intros bn bn' Hb Hb' Hne E. rewrite <- !(mblk_blk V) in * by lia. by destruct (ly_inj _ _ _ HL i r c bn i r c bn' Hi Hi ltac:(lia) ltac:(lia) Hne E).
  - intros bn Hb Hne E. rewrite <- (mblk_blk V) in E by lia.
    destruct (ly_inj _ _ _ HL i r c 140 i r c bn Hi Hi ltac:(lia) ltac:(lia) Hne (eq_sym E)). lia.
  - intros bn Hb Hlt. apply (ly_full _ _ _ HL _ _ _ _ Hi); [done|lia].
Qed.
End mounted.

Lemma main_start : ∃ s0, image s0 ∅ ∧ m_freeblock s0 = 29 ∧ m_freeinode s0 = 1 ∧
  ∀ k : M mk unit, (modify (set_m_bitblocks (size / (512 * 8) + 1)) ;;
    modify (fun s => set_m_usedblocks (ninodes / IPB + 3 + m_bitblocks s) s) ;;
    modify (fun s => set_m_freeblock (m_usedblocks s) s) ;;
    let* s := gets (fun s => s) in
    panic_if (negb (nblocks + m_usedblocks s + nlog =? size)) "assert" ;;
    for_all (Z.to_nat (nblocks + m_usedblocks s + nlog)) 0 (fun i => wsect i zeroes) ;;
    wsect 1 (splice 0 superblock_bytes zeroes) ;; k) mk0 = k s0.
Proof.
  set (s1 := Mk [] 29 29 1 1). destruct (for_all_inv (I := fun i s => s = Mk (replicate (Z.to_nat i) zeroes) 29 29 1 1) (fun i => wsect i zeroes)
    (Z.to_nat 1024) 0 s1) as (s2 & R2 & ->); [done| |].
  { intros i s Hi ->. eexists. split; [done|]. unfold set_m_img, put_sector. cbn [m_img m_freeblock m_usedblocks m_bitblocks m_freeinode]. f_equal.
    assert (E : zlen (replicate (Z.to_nat i) zeroes) = i) by (unfold zlen; rewrite length_replicate; lia). rewrite E.
    destruct (Z.ltb_spec i i); [lia|]. rewrite Z.sub_diag. change (replicate (Z.to_nat 0) zeroes) with (@nil (list Z)). cbn [app].
    replace (Z.to_nat (i + 1)) with (Z.to_nat i + 1)%nat by lia. by rewrite replicate_add. }
  set (img := replicate (Z.to_nat (0 + Z.of_nat (Z.to_nat 1024))) zeroes) in R2.
  assert (Hl : zlen img = 1024) by (unfold img, zlen; rewrite length_replicate; lia).
  assert (Hb : ∀ b, 0 ≤ b < 1024 → blk img b = zeroes).
  { intros b Hb. unfold blk, znth. destruct (Z.leb_spec 0 b); [|lia]. unfold img. rewrite lookup_replicate_2 by lia. done. }
  clearbody img. assert (Hsb : ∃ sb, sb = splice 0 superblock_bytes zeroes ∧ length sb = 512%nat) by (eexists; split; [reflexivity|apply superblock_fields]).
  destruct Hsb as (sb & Esb & Hsb). rewrite <- Esb.
  exists (set_m_img (zupd 1 (sb) img) (Mk img 29 29 1 1)).
  assert (HV : ∀ b, blk (zupd 1 (sb) img) b = if b =? 1 then sb else blk img b)
    by (intros b; apply blk_zupd; lia).
  split; [|split; [done|split; [done|]]].
  - split; [|intros ? ? ? []%lookup_empty_Some| |cbn [m_freeinode set_m_img]; lia].
    + exists (blk (zupd 1 (sb) img)). split; [|split; [rewrite HV; exact Esb|intros ? ? ? []%lookup_empty_Some]].
      split; [cbn [m_img set_m_img]; by rewrite zlen_zupd|done|done|].
      split; try (intros ? ? ? ? []%lookup_empty_Some); try (intros ? ? ? []%lookup_empty_Some);
        try (intros ? ? ? ? ? ? ? ? []%lookup_empty_Some).
      * cbn [m_freeblock set_m_img]. lia.
      * intros b Hb'. rewrite HV. destruct (b =? 1); [done|]. by rewrite Hb.
      * intros b Hb'. cbn [m_freeblock set_m_img] in Hb'. rewrite HV. destruct (Z.eqb_spec b 1); [lia|]. apply Hb. lia.
    + intros i. cbn [m_freeinode set_m_img]. rewrite lookup_empty. split; [intros []; discriminate|lia].
  - intros k. rewrite (bind_ok _ _ _ tt (Mk [] 0 0 1 1)) by done. rewrite (bind_ok _ _ _ tt (Mk [] 0 29 1 1)) by done.
    rewrite (bind_ok _ _ _ tt s1) by done. rewrite (bind_ok _ _ _ s1 s1) by done. rewrite (bind_ok _ _ _ tt s1) by done.
    change (nblocks + m_usedblocks s1 + nlog) with 1024. rewrite (bind_ok _ _ _ _ _ R2). rewrite (bind_ok _ _ _ _ _ (wsect_ok (Mk img 29 29 1 1) 1 _ Hl ltac:(lia))). done.
Qed.

(** The command lines for which there is room. *)
Record mkfs_fits (files : list (list Z * option (list Z))) : Prop := {
  mf_files : Forall file_fits files;
  mf_inodes : zlen files ≤ 198;
  mf_blocks : 29 + files_cost files + cost (32 + 16 * zlen files) ≤ 1014;
  mf_dir : (2 + zlen files) mod 32 ≠ 0;
}.
(** The contents of the root directory. *)
Definition root_dir (files : list (list Z * option (list Z))) : list Z :=
  dirent 1 (chars ".") ++ dirent 1 (chars "..") ++ entries 2 files.

Lemma zlen_entries fs : ∀ i, zlen (entries i fs) = 16 * zlen fs.
Proof. induction fs as [|f fs IH]; intros i; [done|]. cbn [entries]. rewrite zlen_app, zlen_dirent, IH. unfold zlen. simpl. lia. Qed.

(** Up to the last step: the directory and the files are complete. *)
Lemma main_files files : mkfs_fits files → ∃ s V F rr, mst s V F ∧ V 1 = splice 0 superblock_bytes zeroes ∧
  (∀ i r c, F !! i = Some (r, c) → dinode_of V i zero_dinode = r ∧ 1 ≤ i < 200 ∧ i_nlink r = 1) ∧
  F !! 1 = Some (rr, root_dir files) ∧ i_type rr = T_DIR ∧ inode_fields rr ∧
  rr = set_i_addrs (i_addrs rr) (set_i_size (i_size rr) (set_i_nlink 1 (set_i_type (i_type rr) zero_dinode))) ∧
  (∀ k name data, files !! k = Some (name, Some data) → ∃ r, F !! (2 + Z.of_nat k) = Some (r, data) ∧ i_type r = T_FILE) ∧
  main files mk0 = (let* din := rinode 1 in
    let off := xint (i_size din) in
    let off := u32 ((off / BSIZE + 1) * BSIZE) in
    winode 1 (set_i_size (xint off) din) ;;
    let* used := gets m_usedblocks in balloc used) s.
Proof.
  intros [Hff Hin Hbl Hmod]. destruct main_start as (s0 & Im0 & Hfb0 & Hfi0 & Hrun). assert (H0 : 0 ≤ zlen files) by (unfold zlen; lia).
  pose proof (files_cost_nonneg files).
  destruct (ialloc_ok s0 ∅ T_DIR Im0 ltac:(lia) ltac:(done)) as (s1 & R1 & Im1 & _ & Hf1 & Hfi1). rewrite Hfi0 in *.
  pose proof (cost_mono 16 (32 + 16 * zlen files) ltac:(lia) ltac:(lia)). pose proof (cost_mono 32 (32 + 16 * zlen files) ltac:(lia) ltac:(lia)).
  destruct (iappend_ok s1 _ 1 (new_inode T_DIR) [] (dirent 1 (chars ".")) Im1 (lookup_insert_eq _ _ _)) as (s2 & r2 & R2 & Im2 & Ht2 & Hf2 & Hfi2);
    rewrite ?zlen_dirent in *; change (zlen []) with 0 in *; change (cost 0) with 0 in *; rewrite ?Z.add_0_l in *; [lia..|].
  cbn [app] in Im2. rewrite insert_insert_eq in Im2.
  destruct (iappend_ok s2 _ 1 r2 _ (dirent 1 (chars "..")) Im2 (lookup_insert_eq _ _ _)) as (s3 & r3 & R3 & Im3 & Ht3 & Hf3 & Hfi3);
    rewrite ?zlen_dirent in *; change (16 + 16) with 32 in *; [lia..|]. rewrite insert_insert_eq in Im3. set (d2 := dirent 1 (chars ".") ++ dirent 1 (chars "..")) in *.
  assert (Hd2 : zlen d2 = 32) by (unfold d2; rewrite zlen_app, !zlen_dirent; done).
  destruct (add_files_ok files s3 _ r3 d2 Im3 (lookup_insert_eq _ _ _) Hff) as (s4 & F4 & r4 & R4 & Im4 & Hr4 & Ht4 & _ & Hnew); [rewrite ?Hd2; lia..|].
  assert (Hfi : m_freeinode s3 = 2) by lia. rewrite Hfi in *. destruct Im4 as [(V & Hm & Hsb & Hon) Hfl Hdom Hnx].
  exists s4, V, F4, r4. split; [done|]. split; [done|]. split.
  { intros i r c Hi. assert (1 ≤ i < m_freeinode s4) by (apply Hdom; by eexists). destruct (Hfl _ _ _ Hi) as [_ E]. split; [by eapply Hon|].
    split; [lia|]. by rewrite E. }
  split; [unfold root_dir; rewrite (assoc_L (++)); exact Hr4|]. split; [by rewrite Ht4, Ht3, Ht2|]. destruct (Hfl _ _ _ Hr4) as [Hif Ef]. split; [done|]. split; [done|].
  split; [done|]. unfold main. rewrite Hrun. rewrite (bind_ok _ _ _ _ _ R1). cbn [Z.eqb Pos.eqb ROOTINO]. rewrite (bind_ok _ _ _ tt s1) by done.
  rewrite (bind_ok _ _ _ _ _ R2), (bind_ok _ _ _ _ _ R3), (bind_ok _ _ _ _ _ R4). done.
Qed.

(** C11: When the files fit the image ([mkfs_fits]) and the number of entries of the
    root directory, [.] and [..] with the files, is not a multiple of 32, the image
    [mkfs] builds is one the kernel can use: its superblock, empty
    log and bitmap are as the log and the block allocator need them, and for the
    root directory and every file of the command line the kernel finds an inode
    of the right type whose contents are the directory entries (and zeroes up to
    the rounded size) and the bytes of the file. *)
Theorem mkfs_spec files : mkfs_fits files → ∃ s, main files mk0 = Ok tt s ∧
  let V := blk (m_img s) in
  disk_ok (m_img s) 1014 10 ∧ committed (m_img s) 1014 10 [] ∧ fsgeo V 1014 ∧
  (∀ b, 0 ≤ b < 1024 → used V b = (b <? m_usedblocks s)) ∧
  (let r := dinode_of V 1 zero_dinode in
   i_type r = T_DIR ∧ file_ok V 1014 r ∧ i_size r = (zlen (root_dir files) / 512 + 1) * 512 ∧
   fbytes V r 0 (i_size r) = root_dir files ++ replicate (Z.to_nat (i_size r - zlen (root_dir files))) 0) ∧
  ∀ k name data, files !! k = Some (name, Some data) →
    let r := dinode_of V (2 + Z.of_nat k) zero_dinode in
    i_type r = T_FILE ∧ i_nlink r = 1 ∧ file_ok V 1014 r ∧ i_size r = zlen data ∧ fbytes V r 0 (i_size r) = data.
Proof.
  intros Hfit. destruct (main_files files Hfit) as (s & V & F & rr & Hm & Hsb & Hon & Hroot & Htr & Hifr & Er & Hfiles & ->).
  destruct Hfit as [_ Hin _ Hmod]. pose proof (ms_lay _ _ _ Hm) as HL. set (dir := root_dir files) in *.
  assert (Hdz : zlen dir = 32 + 16 * zlen files) by (unfold dir, root_dir; rewrite !zlen_app, !zlen_dirent, zlen_entries; lia).
  assert (H0 : 0 ≤ zlen files) by (unfold zlen; lia). destruct (ly_size _ _ _ HL _ _ _ Hroot) as [Hsz _].
  assert (Hdm : zlen dir mod 512 ≠ 0).
  { rewrite Hdz. replace (32 + 16 * zlen files) with (16 * (2 + zlen files)) by lia. change 512 with (16 * 32). rewrite Z.mul_mod_distr_l by lia. lia. }
  rewrite (bind_ok _ _ _ _ _ (rinode_ok s V F 1 rr dir Hm ltac:(lia) (proj1 (Hon _ _ _ Hroot)) Hroot)). cbn zeta. unfold xint. rewrite Hsz.
  unfold BSIZE. rewrite (u32_small (zlen dir)) by lia. set (n := (zlen dir / 512 + 1) * 512). pose proof (div_range (zlen dir) ltac:(lia)) as Hdr.
  assert (Hn : 0 ≤ n < 2 ^ 32) by (unfold n; lia). rewrite !(u32_small n) by done.
  set (pad := dir ++ replicate (Z.to_nat (n - zlen dir)) 0). set (r1 := set_i_size n rr). set (F1 := <[1 := (r1, pad)]> F).
  assert (HL1 : lay V (m_freeblock s) F1) by (apply (lay_pad V _ F 1 rr dir); (done || lia)).
  assert (Hr1 : inode_fields r1) by (destruct Hifr; by split). assert (Hm1 : mst s V F1) by (destruct Hm; by split).
  destruct (winode_ok s V F1 1 r1 Hm1 ltac:(lia) Hr1) as (s2 & R2 & Hm2 & Hf2 & Hfi2 & H1 & Hoth & Hsame). rewrite (bind_ok _ _ _ _ _ R2).
  rewrite (bind_ok _ _ _ (m_usedblocks s2) s2) by done. pose proof (ms_used _ _ _ Hm2) as Hu2. rewrite Hu2. set (V2 := iupdated V (set_i_inum 1 r1)) in *.
  pose proof (ms_lay _ _ _ Hm2) as HL2. pose proof (ly_fb _ _ _ HL2) as Hfb. pose proof (ms_len _ _ _ Hm2) as Hl2. unfold balloc.
  destruct (Z.ltb_spec (m_freeblock s2) (512 * 8)); [|lia]. rewrite (bind_ok _ _ _ tt s2) by done. change (ninodes / IPB + 3) with 28.
  set (bits := mark_bits (Z.to_nat (m_freeblock s2)) 0 zeroes). rewrite (wsect_ok s2 28 bits Hl2 ltac:(lia)). eexists. split; [done|].
  set (s3 := set_m_img _ s2). assert (Hlb : length bits = 512%nat) by (apply mark_bits_spec; (done || lia)).
  assert (HV : ∀ b, blk (m_img s3) b = if b =? 28 then bits else V2 b).
  { intros b. unfold s3. cbn [m_img set_m_img]. rewrite blk_zupd by lia. by rewrite (ms_blk _ _ _ Hm2). }
  cbn zeta. set (W := blk (m_img s3)) in *. assert (HW1 : W 1 = splice 0 superblock_bytes zeroes) by (rewrite HV; simpl; by rewrite H1).
  assert (HLW : lay W (m_freeblock s2) F1).
  { apply (lay_low V2); [done| |]; intros b Hb; rewrite HV; destruct (Z.eqb_spec b 28); [lia|done|done|]. apply (ly_len _ _ _ HL2). lia. }
  assert (HW28 : W 28 = bits) by (by rewrite HV).
  assert (Hdin : ∀ i, 0 ≤ i < 200 → dinode_of W i zero_dinode = dinode_of V2 i zero_dinode).
  { intros i Hi. unfold dinode_of. rewrite HV. pose proof (iblock_low i Hi). destruct (Z.eqb_spec (iblock i) 28); [lia|done]. }
  assert (Hd1 : dinode_of W 1 zero_dinode = r1) by (rewrite Hdin by lia; apply same_zero; [done|]; unfold r1; rewrite Er; done).
  destruct superblock_fields as (Hsl & Hs0 & Hs8 & Hs12).
  assert (Hpz : zlen pad = n).
  { unfold pad. rewrite zlen_app. unfold zlen at 2. rewrite length_replicate. pose proof (Z.mod_pos_bound (zlen dir) 512 ltac:(lia)).
    pose proof (Z.div_mod (zlen dir) 512 ltac:(lia)). lia. }
  split; [|split; [|split; [|split; [|split]]]].
  - split; [unfold s3; cbn [m_img set_m_img]; rewrite zlen_zupd; lia| |lia|lia|unfold s3; cbn [m_img set_m_img]; rewrite zlen_zupd; lia| |].
    + intros b Hb. apply (ly_len _ _ _ HLW). unfold s3 in Hb. cbn [m_img set_m_img] in Hb. rewrite zlen_zupd in Hb. lia.
    + fold W. rewrite HW1. exact Hs0.
    + fold W. rewrite HW1. exact Hs12.
  - fold W. split; [|by intros v ?%elem_of_nil|constructor|unfold zlen; simpl; lia].
    fold W. rewrite (ly_fresh _ _ _ HLW) by lia. split; [done|]. split; [apply get32_zero|]. split; [simpl; lia|done].
  - by apply (mk_fsgeo W (m_freeblock s2) F1).
  - intros b Hb. change (m_usedblocks s3) with (m_usedblocks s2). rewrite Hu2. apply (mk_used W (m_freeblock s2) F1); (done || lia).
  - rewrite Hd1. split; [done|]. split; [apply (mk_file W (m_freeblock s2) F1 HLW HW1 HW28 1 r1 pad), lookup_insert_eq|].
    split; [done|]. change (i_size r1) with n. rewrite <- Hpz at 1. apply (lay_fbytes W _ F1 1 r1 pad HLW), lookup_insert_eq.
  - intros k name data Hk. destruct (Hfiles k name data Hk) as (r & Hr & Ht). destruct (Hon _ _ _ Hr) as (Hd & Hri & Hnl).
    assert (HF1 : F1 !! (2 + Z.of_nat k) = Some (r, data)) by (unfold F1; by rewrite lookup_insert_ne by lia).
    assert (Ed : dinode_of W (2 + Z.of_nat k) zero_dinode = r) by (rewrite Hdin, Hoth by lia; done). rewrite Ed.
    split; [done|]. split; [done|]. split; [by eapply (mk_file W (m_freeblock s2) F1)|].
    destruct (ly_size _ _ _ HLW _ _ _ HF1) as [Hs _]. split; [done|]. rewrite Hs. by eapply lay_fbytes.
Qed.
Lemma mkfs_spec_witness : ∃ s, main [(chars "_cat", Some [1; 2; 3])] mk0 = Ok tt s ∧
  let r := dinode_of (blk (m_img s)) 2 zero_dinode in i_size r = 3 ∧ fbytes (blk (m_img s)) r 0 (i_size r) = [1; 2; 3].
Proof.
  destruct (mkfs_spec [(chars "_cat", Some [1; 2; 3])]) as (s & R & _ & _ & _ & _ & _ & H).
  - split.
    + constructor; [|constructor]. split; [apply not_elem_of_cons; repeat (split; [discriminate|]; try apply not_elem_of_cons); apply not_elem_of_nil|].
      exists [1; 2; 3]. split; [reflexivity|]. vm_compute. discriminate.
    + vm_compute. discriminate.
    + vm_compute. discriminate.
    + vm_compute. discriminate.
  - exists s. split; [exact R|]. destruct (H 0%nat (chars "_cat") [1; 2; 3] eq_refl) as (_ & _ & _ & Hs & Hb).
    split; [exact Hs|exact Hb].
Defined.

(** With 30 files the root directory fills its block exactly; [mkfs] still adds a
    block to its size and allocates none, so that the directory the kernel finds
    has a hole at its end. *)
Theorem mkfs_root_hole : ∃ s, main (replicate 30 (chars "f", Some [])) mk0 = Ok tt s ∧
  let V := blk (m_img s) in let r := dinode_of V 1 zero_dinode in
  i_size r = 1024 ∧ fblk V r 0 = 29 ∧ fblk V r 1 = 0.
Proof. eexists. split; [vm_compute; reflexivity|]. vm_compute. repeat split. Qed.
